(* ===== verification/_CoqProject ===== *)
-Q . S2P
Prelude.v
TsContinuity.v
TaggedTsDemux.v
IpcTypes.v
IpcWire.v
IpcCodecs.v
IpcPayload.v
IpcRoundtrip.v
IpcFrame.v
IpcFramer.v
IpcConnection.v
Q3u4Power.v
Q3u4LnbPower.v
Mlt5pePower.v
Mlt5peLnbPower.v
ScatterImage.v
IoMonad.v
CardAtr.v
CardT1.v
CardSession.v
It930xCommand.v
It930xRegisters.v
It930xEffects.v
It930xPower.v
Q3u4Board.v
Identity.v
It930xInit.v
It930xCard.v
BridgeI2c.v
CardService.v
CardServiceSteps.v
CardServiceCalls.v
Threads.v
TunerService.v
TunerProtocol.v
TunerRules.v
TunerSafety.v
TunerTheorems.v
StreamSession.v
StreamDelivery.v
StreamErrors.v
StreamPlane.v
StreamBridge.v
StreamSafety.v
Tc90522.v
Rt710.v
Q3u4Frontend.v
Q3u4FrontendProtocol.v
Q3u4FrontendSafety.v
Q3u4Enclosure.v
Q3u4EnclosureSafety.v
ControlTasks.v
ControlLanes.v
