(* ===== verification/Prelude.v ===== *)
(** * px4-userland: a verification library of its core logic

    px4-userland drives PLEX and e-Better ISDB tuners from user space.  A daemon
    ([tools/px4d.cpp]) owns the USB bridges, tuners, demodulators and card
    readers; clients talk to it over a local socket in a framed binary protocol
    and receive the transport streams of the receivers over stream connections.
    Paths below are relative to [userland/].

    ** What is modelled, and where

    Prelude (this file): errors and results, fixed-width integers, buffers with
    explicit bounds, byte views, the interface of enumerations, and the list,
    bit and buffer lemmas the components share.

    Transport stream path
    - [TsContinuity] is [include/px4/ts_continuity.h], the continuity checker a
      stream passes through; state per PID, duplicate detection, epochs.
    - [StreamSession] is the sessions in [src/q3u4_stream.cpp]: the ring of a
      receiver, the gate that holds a starting stream back, and the counters, one
      definition per section of the mutex of a session.  [StreamDelivery] and
      [StreamErrors] prove what a client reads and what is counted, for every
      order of those sections.
    - [StreamPlane] is the rest of that file: the layouts of receivers on bridges,
      what a pump thread does with a transfer, and the life of a bridge and its
      pump as a transition system ([step]), together with functions that execute
      it ([move], [moves_sound]).  [StreamBridge] proves the protocol of a
      transport and the invariant of a bridge while the threads that attach,
      detach and shut down take turns on it ([limit] 1; the pumps and readers run
      at any time), and shows what two of them can do ([limit] 2).
      [StreamSafety] holds for any number of them: no pump leaves its buffers,
      and a session has one of the histories of [StreamSession].
    - [TaggedTsDemux] is [src/tagged_ts_demux.cpp/.h]: [push] cuts USB transfers
      into packets, finds synchronisation, and hands each packet to the receiver
      its tag names.  The buffer is modelled with its offset and size.

    Control protocol, all of [src/ipc.cpp] and [include/px4/ipc.h]
    - [IpcTypes]: constants, enumerations, payload structs, value predicates.
    - [IpcWire]: the byte writer and reader; [emits], [reads] and [parses] are the
      specifications a codec is assembled from.
    - [IpcCodecs]: one encoder and one decoder per payload struct.
    - [IpcPayload]: the interface [Codec]/[CodecLaws] and an instance per payload;
      [IpcRoundtrip] proves the theorems once, against the interface.
    - [IpcFrame]: headers, frames and their validation.
    - [IpcFramer]: [StreamFramer], which cuts a byte stream into frames.
    - [IpcConnection]: [ConnectionStateMachine], the order of messages on a
      connection for its four roles.

    Power of the boards
    - [Q3u4Power] is [src/q3u4_power.cpp/.h]: which of the two bridges is powered
      for the open receivers and the card.
    - [Q3u4LnbPower] is [src/q3u4_lnb_power.cpp/.h]: transactional requests for the
      15 V antenna supply.
    - [Mlt5pePower] and [Mlt5peLnbPower] are [src/mlt5pe_power.cpp/.h], the same
      authorities for a board with one bridge; they reuse the interfaces.

    The card
    - [IoMonad]: computations on hardware, with results and non-termination.
    - [CardAtr], [CardT1], [CardSession] are [src/card.cpp] and
      [include/px4/card.h]: the ATR parser against its grammar, the T=1 blocks
      with both checksums, and the sessions, over an interface of the card
      hardware and its clock.
    - [CardService] is [src/card_service.cpp]: the handles of clients on a card,
      sharing, transactions, power and session, over an interface of the backend
      and the session.  [CardServiceSteps] and [CardServiceCalls] prove what the
      steps of an operation and whole calls do, for any sequence of calls.

    The bridge chip
    - [ScatterImage] is [src/it930x_protocol.cpp/.h], the validation of the image
      before it is written to a bridge.
    - [It930xCommand], [It930xRegisters], [It930xPower], [It930xInit] and
      [It930xCard] are [src/it930x.cpp] and [include/px4/it930x.h]: commands and
      their responses, registers and I2C, the power lines, download and
      initialisation with the purge of the packet buffer, and the card's UART.
      They are proved against [Bridge], a model of what a USB connection may do
      to a transaction: requests and responses can be lost, late, stale or
      damaged at any point.  [It930xEffects] holds what operations do whatever
      they are made of.  [SimBridge] in [It930xRegisters] is a bridge to run.
    - [BridgeI2c] is [src/bridge_i2c.cpp/.h], I2C transactions over the bridge.
    - [Tc90522] is [src/tc90522.cpp/.h], the demodulators, over an interface
      [I2cMaster] that [BridgeI2c] implements ([bridge_master_laws]); a tuner is
      reached through the repeater of its demodulator.
    - [Rt710] is [src/rt710.cpp/.h], the satellite tuners: what is validated, how
      the synthesizer and the filter are computed, and the register writes of a
      tuning, proved as programs of register writes ([writes_as]).
    - [Q3u4Frontend] is the bank of [src/q3u4_frontend.cpp/.h]: two satellite and
      two terrestrial receivers of a bridge, over an interface of all the chips
      and of the power ([BankDevices]).  [Q3u4FrontendProtocol] states which calls
      of the chips are lawful when, by a watch that follows them ([lawful],
      [effect]) and stops a call that is not; [Q3u4FrontendSafety] proves that
      no operation makes one.
    - [Q3u4Enclosure] is [Q3U4FrontendEnclosure] of that file, two banks whose
      power authority is the coordinator of [Q3u4Power]; [Q3u4EnclosureSafety]
      discharges the contract of the banks with the coordinator's theorems.
    - [Q3u4Board] runs the coordinator of [Q3u4Power] on two such controllers.

    Devices
    - [Identity] is [src/identity.cpp] and [include/px4/identity.h]: models, USB
      observations, enclosures and their selection.

    The tuners
    - [Threads]: threads over a shared state, mutexes, and the logic their
      programs are proved with ([safe]).
    - [TunerService] is [src/tuner_service.cpp]: leases on receivers, tuning,
      streams and their attachment.  Each operation is the program of a thread:
      a critical section of [mutex_] or a call to backend, stream control or
      clock is one step, and any other thread may move between two steps.  What
      is called may answer anything ([Surroundings], a function of the history);
      of the source of lease identities it is assumed that it does not repeat an
      identity ([FreshLeaseIds]), which [release] and [tune] rely on.
    - [TunerProtocol] is the contract: the calls that are lawful for a receiver,
      the invariant of the free service, and what each operation leaves.
      [TunerRules] are the rules of its calls, [TunerSafety] proves every
      operation against the contract, and [TunerTheorems] draws the conclusions
      for any number of threads.  [start_between_sections_of_tune] shows why a
      client should have one request at a time.

    The worker threads of the daemon
    - [ControlTasks] is the execution of a task in [src/control_workers.cpp/.h]:
      which lane may run it, what it asks of the card service or of the tuner
      service ([ServiceCall], a class [Services] that may answer anything), and
      what its completion says.
    - [ControlLanes] is [ControlWorkerLanes] of that file: the rings of tasks and
      completions, the three threads, and the poll thread that submits, pops and
      stops, as a transition system whose steps are the sections of a mutex.  The
      start that fails half way and its rollback are not modelled.

    ** How the code becomes definitions

    A method is a function from the object's state (a Record with the source's
    members) to the result and the next state; helpers keep the source's names.
    [Result<T>] is [Result]; unsigned integers are [Z] with the conversions that
    wrap written out; [std::array] and raw buffers are lists, and a load or store
    outside of one is [None], as is running out of the fuel of a loop; the
    theorems show that neither occurs.  Callbacks and virtual interfaces
    (packet sinks, frame consumers, power supplies) are functions or type
    classes over an arbitrary state, so that everything they answer is covered.
    Operations that hold their mutex throughout are atomic steps, and concurrent
    callers are a sequence of steps; the operations of [TunerService], which
    release [mutex_] around their calls and hold one mutex per receiver, are
    threads.

    Fuel: [TaggedTsDemux.push] gets one unit more than the buffered bytes, of
    which each round consumes at least one; [IpcFramer.feed] gets the size of
    the input, of which each round consumes at least one byte;
    [ScatterImage.validate_scatter_image] and [It930xInit.write_blocks] the size
    of the image; the loops of [It930xCard] the size of the data and
    [Identity.parse_ports] the length of the text, likewise; the waiting loops
    of the card get 3001 rounds, which the clock cannot outlast;
    [CardService.allocate_handle] gets two rounds more than there are handles;
    the loops of [Rt710] get their number of bits; the polling loops of
    [Q3u4Frontend] have the number of rounds that the source gives them.
    The loops of [TunerService] have the bounds that the source gives them.

    ** What the theorems show

    - Refinement: the framer is an incremental parser specified one byte at a
      time ([feed_refines]); the demultiplexer behaves as a byte queue
      ([push_refines_queue]); the continuity checker as a map from PIDs to
      their last packet ([run_refines_reference]); the antenna requests as
      transactions ([tunes_transactional]); a transmission as the exchange of
      two APDUs with the card ([transmit_delivers]); the power coordinator on
      two bridges as what it has recorded ([board_power_agrees]).
    - Delivery of streams: [stream_delivers], [startup_gate],
      [delivered_errors_counted]; [fallback_gap_uncounted] shows the one case in
      which a gap does not show.
    - The stream data plane: [transport_protocol], [bridge_lifecycle],
      [pump_never_stuck], [plane_delivers], [stopped_pump_ends], and
      [late_detach_strands_stream], a race of two control threads.
    - Independence of fragmentation: [push_chunks], [frames_delivered].
    - Threads in the tuner service: [tuner_calls_lawful],
      [tuner_leases_exclusive], [tuner_leaves_nothing], [tuner_operations_end].
    - Termination: [transmit_terminates], and every theorem that says that a
      result exists.
    - Round trips and canonical forms: [payload_roundtrip], [decode_reencode],
      [encode_outcome], [frame_roundtrip], [frame_reencode],
      [validate_scatter_correct], [valid_utf8_correct], [parse_atr_correct],
      [check_response_correct].
    - Protocol safety: [ends_agree], [connection_invariant],
      [accepted_frames_correlated], [ts_sequences_consecutive],
      [corrupted_frame_rejected], [transmit_outcome].
    - Ownership of the card: [card_service_invariant], [stale_handle_barred].
    - Hardware safety: [no_15v_without_permission], [backend_power_recorded],
      [modify_register_correct], [initialize_verified], [firmware_delivered],
      [shutdown_reaches_sibling], [success_converges].
    - Receivers: [bank_protocol], [enclosure_powered].
    - Tuners and demodulators: [i2c_request_correct], [downstream_relays],
      [set_params_programs].
    - Worker threads: [tasks_answered_in_order], [lanes_never_stuck],
      [stop_and_join_ends].
    - Selection: [grouping_sound], [selected_devices_serve].
    Lemmas that are not listed state more of the same components, such as
    [power_state_agrees], [lnb_ledger_holds], [mlt5pe_tunes_step],
    [card_data_sent], [calls_of_others_refused] or [usb_path_roundtrip].

    ** What is not modelled

    The foundation library dtv-userland-core is not part of the repository; of it
    only [Error], [Result] and [ByteView] appear, with the operations the sources
    use.  [encode_frame] also accepts a payload staged inside the output buffer;
    here the two buffers are separate.  A decoded payload may hold views into the
    frame; here it holds the bytes.  A transfer
    that fails may have happened or not, but one read of a register gives one
    value; interrupts of the bridge do not occur.  Sockets and libusb itself
    are outside; the manifest lists them component by component. *)

From stdpp Require Export base tactics numbers list.

#[global] Open Scope Z_scope.

(** * Errors and results

    [include/px4/error.h] re-exports [Error] and [Result] of the foundation
    library.  The sources only build results with [success] and [failure],
    test them and read the value or the error back; [Error] lists the
    enumerators they name, and no numeric value of one is used. *)

Inductive Error :=
  | OK | INVALID_ARGUMENT | VERSION_MISMATCH | NOT_FOUND | BUSY | NOT_READY
  | TIMEOUT | USB_IO | DISCONNECTED | PROTOCOL_ERROR | FIRMWARE_REJECTED
  | UNSUPPORTED | NO_CARD | CARD_REMOVED | BUFFER_TOO_SMALL | SLOW_CONSUMER | RESOURCE_LIMIT
  | INTERNAL.

#[export] Instance Error_eq_dec : EqDecision Error.
Proof. solve_decision. Defined.

Inductive Result (A : Type) :=
  | success (a : A)
  | failure (e : Error).
Arguments success {A} a.
Arguments failure {A} e.

#[export] Instance Result_ret : MRet Result := fun A a => success a.
#[export] Instance Result_bind : MBind Result := fun A B f r =>
  match r with success a => f a | failure e => failure e end.

#[export] Instance Result_eq_dec {A} `{EqDecision A} : EqDecision (Result A).
Proof. solve_decision. Defined.

(** [static_cast<bool>(result)]. *)
Definition is_success {A} (r : Result A) : bool :=
  match r with success _ => true | failure _ => false end.

(** * Fixed-width integers

    A C++ unsigned integer is a [Z]; a conversion to width [w] is reduction
    modulo [2^w]. *)

Definition cast_u8 (z : Z) : Z := z mod 2 ^ 8.
Definition cast_u16 (z : Z) : Z := z mod 2 ^ 16.
Definition cast_u32 (z : Z) : Z := z mod 2 ^ 32.
Definition cast_u64 (z : Z) : Z := z mod 2 ^ 64.

Definition is_u8 (z : Z) : Prop := 0 <= z < 2 ^ 8.
Definition is_u16 (z : Z) : Prop := 0 <= z < 2 ^ 16.
Definition is_u32 (z : Z) : Prop := 0 <= z < 2 ^ 32.
Definition is_u64 (z : Z) : Prop := 0 <= z < 2 ^ 64.
Definition is_i32 (z : Z) : Prop := - 2 ^ 31 <= z < 2 ^ 31.

Definition bytes_ok (l : list Z) : Prop := Forall is_u8 l.

(** Unfolds the width predicates for [lia]. *)
Ltac widths :=
  unfold is_u8, is_u16, is_u32, is_u64, is_i32,
    cast_u8, cast_u16, cast_u32, cast_u64 in *.
Ltac width_lia := widths; lia.

(** * Lists of bytes indexed by [Z], as [std::size_t] offsets *)

Definition zlen {A} (l : list A) : Z := Z.of_nat (length l).
Definition ztake {A} (n : Z) (l : list A) : list A := take (Z.to_nat n) l.
Definition zdrop {A} (n : Z) (l : list A) : list A := drop (Z.to_nat n) l.

(** [data[i]] of a byte buffer (only used where the code has checked [i]). *)
Definition byte_at (l : list Z) (i : Z) : Z := nth (Z.to_nat i) l 0.

(** * Buffers

    A store or a load outside a buffer is undefined behaviour: it is [None]. *)

Definition mem_store (buf : list Z) (pos : Z) (bs : list Z) : option (list Z) :=
  if (0 <=? pos) && (pos + zlen bs <=? zlen buf)
  then Some (ztake pos buf ++ bs ++ zdrop (pos + zlen bs) buf) else None.

Definition mem_load (buf : list Z) (pos n : Z) : option (list Z) :=
  if (0 <=? pos) && (0 <=? n) && (pos + n <=? zlen buf)
  then Some (ztake n (zdrop pos buf)) else None.

(** * Byte views

    [ByteView] is a pointer and a size.  A null pointer with a size is the
    only view the code can tell from a readable one, so it is kept apart. *)

Inductive ByteView :=
  | NullView (size : Z)
  | View (bytes : list Z).

Definition view_size (v : ByteView) : Z :=
  match v with NullView n => n | View l => zlen l end.
Definition view_bytes (v : ByteView) : list Z :=
  match v with NullView _ => [] | View l => l end.

(** * Enumerations with a fixed underlying type

    A C++ [enum class : uintN_t] holds any value of its underlying type, and
    [static_cast] from an integer keeps the value.  Each such type is an
    inductive with the source's enumerators and one constructor for the
    values without an enumerator. *)

Class CEnum (A : Type) := {
  to_raw : A -> Z;
  enumerators : list A;
  of_other : Z -> A;
}.

Definition of_raw {A} `{CEnum A} (z : Z) : A :=
  match find (fun a => to_raw a =? z) enumerators with
  | Some a => a
  | None => of_other z
  end.

Class CEnumLaws (A : Type) `{CEnum A} := {
  to_raw_other : forall z, to_raw (of_other z) = z;
  enumerators_nodup : NoDup (to_raw <$> enumerators);
}.

Section CEnumFacts.
Context {A : Type} `{CEnumLaws A}.

Lemma to_of_raw z : to_raw (of_raw z) = z.
Proof.
  unfold of_raw. destruct (find _ _) as [a|] eqn:E.
  - apply find_some in E as [_ E]. by apply Z.eqb_eq.
  - apply to_raw_other.
Qed.

Lemma of_to_raw a : a ∈ enumerators -> of_raw (to_raw a) = a.
Proof.
  unfold of_raw. pose proof enumerators_nodup as ND. revert ND.
  induction enumerators as [|b l IH]; intros ND Hin; [by inversion Hin|].
  rewrite fmap_cons in ND. apply NoDup_cons in ND as [Hb ND]. simpl.
  destruct (Z.eqb_spec (to_raw b) (to_raw a)) as [E|E].
  - apply elem_of_cons in Hin as [->|Hin]; [done|].
    exfalso. apply Hb. rewrite E. by apply list_elem_of_fmap_2.
  - apply elem_of_cons in Hin as [->|Hin]; [done|]. by apply IH.
Qed.

Lemma of_raw_inj z1 z2 : of_raw z1 = of_raw z2 -> z1 = z2.
Proof. intros E. by rewrite <-(to_of_raw z1), E, to_of_raw. Qed.
End CEnumFacts.

(** * Generic lemmas *)

Section ListFacts.
Context {A : Type}.
Implicit Types l : list A.

Lemma zlen_nonneg l : 0 <= zlen l.
Proof. unfold zlen. lia. Qed.
Lemma zlen_nil : zlen (@nil A) = 0.
Proof. done. Qed.
Lemma zlen_cons a l : zlen (a :: l) = 1 + zlen l.
Proof. unfold zlen. simpl. lia. Qed.
Lemma zlen_app l1 l2 : zlen (l1 ++ l2) = zlen l1 + zlen l2.
Proof. unfold zlen. rewrite length_app. lia. Qed.
Lemma zlen_take n l : zlen (ztake n l) = Z.min (Z.max 0 n) (zlen l).
Proof. unfold zlen, ztake. rewrite length_take. lia. Qed.
Lemma zlen_drop n l : zlen (zdrop n l) = zlen l - Z.min (Z.max 0 n) (zlen l).
Proof. unfold zlen, zdrop. rewrite length_drop. lia. Qed.
Lemma zlen_0 l : zlen l = 0 -> l = [].
Proof. destruct l; [done|]. rewrite zlen_cons. pose proof (zlen_nonneg l). lia. Qed.

Lemma ztake_zdrop n l : ztake n l ++ zdrop n l = l.
Proof. apply take_drop. Qed.
Lemma ztake_app n l1 l2 : zlen l1 = n -> ztake n (l1 ++ l2) = l1.
Proof. intros <-. unfold ztake, zlen. by rewrite Nat2Z.id, take_app_length. Qed.
Lemma zdrop_app n l1 l2 : zlen l1 = n -> zdrop n (l1 ++ l2) = l2.
Proof. intros <-. unfold zdrop, zlen. by rewrite Nat2Z.id, drop_app_length. Qed.
Lemma ztake_ge n l : zlen l <= n -> ztake n l = l.
Proof. unfold ztake, zlen. intros. apply take_ge. lia. Qed.
Lemma zdrop_ge n l : zlen l <= n -> zdrop n l = [].
Proof. unfold zdrop, zlen. intros. apply drop_ge. lia. Qed.
Lemma zdrop_app_le n l1 l2 : n <= zlen l1 -> zdrop n (l1 ++ l2) = zdrop n l1 ++ l2.
Proof. unfold zdrop, zlen. intros. apply drop_app_le. lia. Qed.
Lemma ztake_app_le n l1 l2 : n <= zlen l1 -> ztake n (l1 ++ l2) = ztake n l1.
Proof. unfold ztake, zlen. intros. apply take_app_le. lia. Qed.
Lemma ztake_0 l : ztake 0 l = [].
Proof. done. Qed.
Lemma zdrop_0 l : zdrop 0 l = l.
Proof. done. Qed.
Lemma lookup_insert_agree l1 l2 i x :
  l1 !! i = l2 !! i -> <[i := x]> l1 !! i = <[i := x]> l2 !! i.
Proof.
  intros E. destruct (l2 !! i) as [y|] eqn:E2.
  - apply lookup_lt_Some in E, E2. by rewrite !list_lookup_insert_eq.
  - apply lookup_ge_None in E, E2. rewrite !list_insert_ge by done.
    by rewrite !lookup_ge_None_2.
Qed.
Lemma zdrop_zdrop n m l : 0 <= n -> 0 <= m -> zdrop n (zdrop m l) = zdrop (m + n) l.
Proof. intros. unfold zdrop. rewrite drop_drop. f_equal. lia. Qed.
End ListFacts.

Lemma forallb_Forall {A} (f : A -> bool) (l : list A) :
  forallb f l = true <-> Forall (fun x => f x = true) l.
Proof.
  rewrite forallb_forall, Forall_forall. split; intros H x Hx; apply H; by apply list_elem_of_In.
Qed.

(** A relation that only constrains the right elements. *)
Lemma Forall2_const_l {A B} (Q : B -> Prop) (l : list A) (bs : list B) :
  Forall2 (fun _ b => Q b) l bs <-> length l = length bs /\ Forall Q bs.
Proof.
  split.
  - induction 1 as [|a b l bs Hb _ [E F]]; [done|]. simpl. split; [lia|]. by constructor.
  - intros [E F]. revert l E. induction F as [|b bs Hb _ IH]; intros [|a l] E; try done.
    constructor; [done|]. apply IH. simpl in E. lia.
Qed.

Lemma bytes_ok_app l1 l2 : bytes_ok (l1 ++ l2) <-> bytes_ok l1 /\ bytes_ok l2.
Proof. apply Forall_app. Qed.
Lemma bytes_ok_take n l : bytes_ok l -> bytes_ok (ztake n l).
Proof. apply Forall_take. Qed.
Lemma bytes_ok_drop n l : bytes_ok l -> bytes_ok (zdrop n l).
Proof. apply Forall_drop. Qed.

Lemma byte_at_ok l i : bytes_ok l -> is_u8 (byte_at l i).
Proof.
  intros H. unfold byte_at. destruct (nth_in_or_default (Z.to_nat i) l 0) as [Hin| ->].
  - rewrite <-list_elem_of_In in Hin. by apply (proj1 (Forall_forall _ _) H).
  - width_lia.
Qed.

Lemma cast_u8_ok z : is_u8 (cast_u8 z).
Proof. unfold cast_u8, is_u8. apply Z.mod_pos_bound. lia. Qed.
Lemma cast_u64_ok z : is_u64 (cast_u64 z).
Proof. unfold cast_u64, is_u64. apply Z.mod_pos_bound. lia. Qed.
Lemma cast_u64_small z : is_u64 z -> cast_u64 z = z.
Proof. unfold cast_u64, is_u64. apply Z.mod_small. Qed.

Lemma land_range a k : 0 <= k -> 0 <= Z.land a (2 ^ k - 1) < 2 ^ k.
Proof.
  intros. replace (2 ^ k - 1) with (Z.ones k) by (rewrite Z.ones_equiv; lia).
  rewrite Z.land_ones by done. apply Z.mod_pos_bound. lia.
Qed.

Lemma testbit_small a n i : 0 <= a < 2 ^ n -> n <= i -> Z.testbit a i = false.
Proof.
  intros Ha Hi. destruct (Z.eq_dec a 0) as [->|]; [apply Z.bits_0|].
  apply Z.bits_above_log2; [lia|].
  apply Z.log2_lt_pow2; [lia|]. apply Z.lt_le_trans with (2 ^ n); [lia|].
  apply Z.pow_le_mono_r; lia.
Qed.

(** Decides [bytes_ok] by computation. *)
Definition bytes_okb (l : list Z) : bool := forallb (fun b => (0 <=? b) && (b <? 256)) l.

Lemma bytes_okb_ok l : bytes_okb l = true -> bytes_ok l.
Proof.
  unfold bytes_okb, bytes_ok. rewrite forallb_forall, Forall_forall.
  intros H x Hx. apply list_elem_of_In, H in Hx. width_lia.
Qed.

(** [lo | (hi << n)] is addition when [lo] fits below bit [n]. *)
Lemma lor_shiftl_add lo hi n :
  0 <= n -> 0 <= lo < 2 ^ n -> Z.lor lo (Z.shiftl hi n) = lo + hi * 2 ^ n.
Proof.
  intros Hn Hlo. rewrite <-Z.shiftl_mul_pow2 by done.
  assert (Z.land lo (Z.shiftl hi n) = 0) as D.
  { apply Z.bits_inj'. intros i Hi. rewrite Z.land_spec, Z.bits_0.
    destruct (Z.lt_ge_cases i n).
    - rewrite Z.shiftl_spec_low by done. apply andb_false_r.
    - by rewrite (testbit_small lo n i). }
  rewrite Z.add_nocarry_lxor by done. symmetry. by apply Z.lxor_lor.
Qed.

(** * Hints *)

Create HintDb px4.
#[export] Hint Resolve zlen_nonneg bytes_ok_take bytes_ok_drop byte_at_ok cast_u8_ok
  cast_u64_ok : px4.
Create Rewrite HintDb zlen.
#[export] Hint Rewrite @zlen_nil @zlen_cons @zlen_app @zlen_take @zlen_drop : zlen.

(** Normalises list lengths and closes the arithmetic. *)
Ltac zlen_lia :=
  autorewrite with zlen in *;
  repeat match goal with
  | |- context [zlen ?l] =>
      lazymatch goal with H : 0 <= zlen l |- _ => fail | _ => pose proof (zlen_nonneg l) end
  | _ : context [zlen ?l] |- _ =>
      lazymatch goal with H : 0 <= zlen l |- _ => fail | _ => pose proof (zlen_nonneg l) end
  end; lia.

(** Splits a conjunction of boolean guards into its parts. *)
Ltac bool_hyps :=
  repeat match goal with
  | H : _ && _ = true |- _ => apply andb_true_iff in H as [? ?]
  | H : _ || _ = false |- _ => apply orb_false_iff in H as [? ?]
  | H : negb _ = true |- _ => apply negb_true_iff in H
  | H : negb _ = false |- _ => apply negb_false_iff in H
  end.

(** [std::memcmp(a, b, n) == 0] on buffers of the same length [n]. *)
Definition bytes_eqb (a b : list Z) : bool := bool_decide (a = b).

(** * Buffers: lemmas *)

Lemma byte_at_app_l (l1 l2 : list Z) i : 0 <= i < zlen l1 -> byte_at (l1 ++ l2) i = byte_at l1 i.
Proof. unfold byte_at, zlen. intros. apply app_nth1. lia. Qed.
Lemma byte_at_app_r (l1 l2 : list Z) i :
  zlen l1 <= i -> byte_at (l1 ++ l2) i = byte_at l2 (i - zlen l1).
Proof.
  unfold byte_at, zlen. intros. rewrite app_nth2 by lia. f_equal. lia.
Qed.
Lemma byte_at_drop (l : list Z) n i : 0 <= n -> 0 <= i -> byte_at (zdrop n l) i = byte_at l (n + i).
Proof. intros. unfold byte_at, zdrop. rewrite nth_skipn. f_equal. lia. Qed.
Lemma byte_at_take (l : list Z) n i : 0 <= i < n -> byte_at (ztake n l) i = byte_at l i.
Proof.
  intros. unfold byte_at, ztake. rewrite nth_firstn.
  destruct (Nat.ltb_spec (Z.to_nat i) (Z.to_nat n)); [done|lia].
Qed.

(** The [size] bytes of a buffer from offset [off]. *)
Definition window (buf : list Z) (off size : Z) : list Z := ztake size (zdrop off buf).

Lemma zlen_window (buf : list Z) off size :
  0 <= off -> 0 <= size -> off + size <= zlen buf -> zlen (window buf off size) = size.
Proof. intros. unfold window. rewrite zlen_take, zlen_drop. lia. Qed.
Lemma byte_at_window buf off size i :
  0 <= off -> 0 <= i < size -> byte_at (window buf off size) i = byte_at buf (off + i).
Proof. intros. unfold window. rewrite byte_at_take, byte_at_drop by lia. done. Qed.
Lemma zdrop_window buf off size n :
  0 <= off -> 0 <= n <= size -> zdrop n (window buf off size) = window buf (off + n) (size - n).
Proof.
  intros. unfold window, zdrop, ztake. rewrite skipn_firstn_comm, drop_drop.
  f_equal; [lia|]. f_equal. lia.
Qed.
Lemma ztake_window buf off size n :
  n <= size -> ztake n (window buf off size) = window buf off n.
Proof. intros. unfold window, ztake. rewrite take_take. f_equal. lia. Qed.
Lemma window_app buf off n m :
  0 <= off -> 0 <= n -> 0 <= m ->
  window buf off (n + m) = window buf off n ++ window buf (off + n) m.
Proof.
  intros. rewrite <-(ztake_zdrop n (window buf off (n + m))).
  rewrite ztake_window, zdrop_window by lia. do 2 f_equal. lia.
Qed.
Lemma window_nil buf off : window buf off 0 = [].
Proof. done. Qed.

Lemma mem_store_ok (buf bs : list Z) pos :
  0 <= pos -> pos + zlen bs <= zlen buf ->
  mem_store buf pos bs = Some (ztake pos buf ++ bs ++ zdrop (pos + zlen bs) buf).
Proof. intros. unfold mem_store. by rewrite !(proj2 (Z.leb_le _ _)). Qed.

Lemma window_store_before (buf bs : list Z) pos off size :
  0 <= off -> 0 <= size -> 0 <= pos -> off + size <= pos -> pos <= zlen buf ->
  window (ztake pos buf ++ bs ++ zdrop (pos + zlen bs) buf) off size = window buf off size.
Proof.
  intros. unfold window, ztake, zdrop, zlen in *.
  rewrite drop_app_le by (rewrite length_take; lia).
  rewrite take_app_le by (rewrite length_drop, length_take; lia).
  rewrite skipn_firstn_comm, take_take. f_equal. lia.
Qed.
Lemma window_store_at (buf bs : list Z) pos :
  0 <= pos <= zlen buf ->
  window (ztake pos buf ++ bs ++ zdrop (pos + zlen bs) buf) pos (zlen bs) = bs.
Proof.
  intros. unfold window. rewrite zdrop_app by (rewrite zlen_take; lia).
  by rewrite ztake_app.
Qed.
Lemma zlen_store (buf bs : list Z) pos :
  0 <= pos -> pos + zlen bs <= zlen buf ->
  zlen (ztake pos buf ++ bs ++ zdrop (pos + zlen bs) buf) = zlen buf.
Proof. intros. pose proof (zlen_nonneg bs). rewrite !zlen_app, zlen_take, zlen_drop. lia. Qed.
Lemma window_store_after (buf bs : list Z) pos off size :
  0 <= pos -> pos + zlen bs <= off -> pos + zlen bs <= zlen buf ->
  window (ztake pos buf ++ bs ++ zdrop (pos + zlen bs) buf) off size = window buf off size.
Proof.
  intros. unfold window. f_equal. unfold ztake, zdrop, zlen in *.
  rewrite !drop_app, !drop_drop, length_take. rewrite (drop_ge (take _ _)) by (rewrite length_take; lia).
  rewrite (drop_ge bs) by lia. cbn [app]. f_equal. lia.
Qed.

(** * Exhaustive checks *)

(** [p] from [z] on, [n] times. *)
Fixpoint all_from (p : Z -> bool) (n : nat) (z : Z) : bool :=
  match n with O => true | S n => p z && all_from p n (z + 1) end.
Lemma all_from_ok p n z : all_from p n z = true -> forall x, z <= x < z + Z.of_nat n -> p x = true.
Proof.
  revert z. induction n as [|n IH]; intros z E x R; [lia|]. apply andb_true_iff in E as [E F].
  destruct (Z.eq_dec x z) as [->|]; [done|]. apply (IH (z + 1) F). lia.
Qed.

(** Evaluates the quotients and powers of constants. *)
Ltac ground :=
  repeat match goal with
  | |- context [?a / ?b] => let v := eval vm_compute in (a / b) in lazymatch v with Z0 => idtac | Zpos _ => idtac end; change (a / b) with v
  | |- context [2 ^ ?b] => let v := eval vm_compute in (2 ^ b) in lazymatch v with Zpos _ => idtac end; change (2 ^ b) with v
  | H : context [?a / ?b] |- _ => let v := eval vm_compute in (a / b) in lazymatch v with Z0 => idtac | Zpos _ => idtac end; change (a / b) with v in H
  | H : context [2 ^ ?b] |- _ => let v := eval vm_compute in (2 ^ b) in lazymatch v with Zpos _ => idtac end; change (2 ^ b) with v in H
  end.
