(* ===== verification/TsContinuity.v ===== *)
(** The MPEG-TS continuity-counter checker of [include/px4/ts_continuity.h]:
    the checker's state and its three operations, a reference checker without
    epochs, and the proof that the code computes the same results. *)

From stdpp Require Import gmap.
From S2P Require Import Prelude.

Inductive TsContinuityKind :=
  | initial | continuous | duplicate | discontinuity | error
  | null_packet | transport_error | invalid_packet.

#[export] Instance TsContinuityKind_eq_dec : EqDecision TsContinuityKind.
Proof. solve_decision. Defined.

Record TsContinuityResult := mkResult {
  res_kind : TsContinuityKind;
  res_pid : Z;
  res_counter : Z;
  res_has_payload : bool;
  res_discontinuity : bool;
}.

Definition kPacketSize : Z := 188.
Definition kPidCount : Z := 8192.

(** One entry of [states_]. *)
Record State := mkState {
  trusted_epoch : Z;
  packet : list Z;
  counter : Z;
  seen : bool;
  has_payload : bool;
  repeated : bool;
}.

Definition init_state : State := mkState 0 (replicate 188 0) 0 false false false.

Record Checker := mkChecker {
  states_ : list State;
  untrusted_epoch_ : Z;
}.

Definition init_checker : Checker :=
  mkChecker (replicate (Z.to_nat kPidCount) init_state) 0.

(** * Operations *)

Definition clear_seen (s : State) : State :=
  mkState (trusted_epoch s) (packet s) (counter s) false (has_payload s) (repeated s).
Definition clear_payload (s : State) : State :=
  mkState (trusted_epoch s) (packet s) (counter s) (seen s) false (repeated s).

Definition reset (c : Checker) : Checker :=
  mkChecker (clear_seen <$> states_ c) 0.

Definition invalidate_duplicate_adjacency (c : Checker) : Checker :=
  if untrusted_epoch_ c =? 2 ^ 64 - 1
  then mkChecker (clear_payload <$> states_ c) 0
  else mkChecker (states_ c) (cast_u64 (untrusted_epoch_ c + 1)).

Definition observe_untrusted_packet (c : Checker) : Checker :=
  invalidate_duplicate_adjacency c.

Definition equivalent (previous pkt : list Z) (has_pcr : bool) : bool :=
  if negb has_pcr then bytes_eqb previous pkt
  else bytes_eqb (ztake 6 previous) (ztake 6 pkt)
       && (Z.land (byte_at previous 10) 0x7e =? Z.land (byte_at pkt 10) 0x7e)
       && bytes_eqb (zdrop 12 previous) (zdrop 12 pkt).

Definition packet_pid (p : list Z) : Z :=
  cast_u16 (Z.lor (Z.shiftl (Z.land (byte_at p 1) 0x1f) 8) (byte_at p 2)).
Definition packet_counter (p : list Z) : Z := cast_u8 (Z.land (byte_at p 3) 0x0f).
Definition packet_adaptation (p : list Z) : Z :=
  cast_u8 (Z.land (Z.shiftr (byte_at p 3) 4) 3).
Definition bit_set (z mask : Z) : bool := negb (Z.land z mask =? 0).

(** The adaptation-field checks: whether the packet is accepted, the
    discontinuity indicator and the PCR flag. *)
Definition scan_adaptation (p : list Z) (adaptation : Z) : bool * bool * bool :=
  if negb (bit_set adaptation 2) then (true, false, false)
  else
    let length := byte_at p 4 in
    if ((adaptation =? 2) && negb (length =? 183)) || ((adaptation =? 3) && (182 <? length))
    then (false, false, false)
    else if length =? 0 then (true, false, false)
    else
      let di := bit_set (byte_at p 5) 0x80 in
      let has_pcr := bit_set (byte_at p 5) 0x10 in
      if negb has_pcr then (true, di, false)
      else if length <? 7 then (false, di, true)
      else
        let extension := Z.lor (Z.shiftl (Z.land (byte_at p 10) 1) 8) (byte_at p 11) in
        if negb (Z.land (byte_at p 10) 0x7e =? 0x7e) || (300 <=? extension)
        then (false, di, true)
        else (true, di, true).

(** The verdict on a well-formed packet against the state of its PID, and
    whether it repeats that state's counter. *)
Definition classify (s : State) (epoch : Z) (p : list Z)
    (cc : Z) (payload di has_pcr : bool) : TsContinuityKind * bool :=
  if di then (discontinuity, false)
  else if negb (seen s) then (initial, false)
  else
    let expected := cast_u8 (Z.land (counter s + (if payload then 1 else 0)) 0x0f) in
    let rep := payload && (cc =? counter s) in
    if rep && has_payload s && negb (repeated s) && (trusted_epoch s =? epoch)
       && equivalent (packet s) p has_pcr
    then (duplicate, rep)
    else ((if cc =? expected then continuous else error), rep).

(** [states_[pid]] *)
Definition state_at (c : Checker) (pid : Z) : State :=
  default init_state (states_ c !! Z.to_nat pid).

(** What [observe] learns from the bytes alone, before it looks at the state:
    the packet is rejected (and the duplicate adjacency is lost), it is a null
    packet, or it is accepted with its fields. *)
Inductive Inspection :=
  | Rejected (r : TsContinuityResult)
  | NullPacket (r : TsContinuityResult)
  | Accepted (p : list Z) (pid cc : Z) (payload di has_pcr : bool).

Definition inspect (v : ByteView) : Inspection :=
  match v with
  | NullView _ => Rejected (mkResult invalid_packet 0 0 false false)
  | View p =>
      if negb (zlen p =? kPacketSize) || negb (byte_at p 0 =? 0x47)
      then Rejected (mkResult invalid_packet 0 0 false false)
      else
      let pid := packet_pid p in
      let cc := packet_counter p in
      if bit_set (byte_at p 1) 0x80
      then Rejected (mkResult transport_error pid cc false false)
      else if pid =? 0x1fff then NullPacket (mkResult null_packet pid cc false false)
      else
      let adaptation := packet_adaptation p in
      if adaptation =? 0 then Rejected (mkResult invalid_packet pid cc false false)
      else
      let payload := bit_set adaptation 1 in
      let '(ok, di, has_pcr) := scan_adaptation p adaptation in
      if negb ok then Rejected (mkResult invalid_packet pid cc payload di)
      else Accepted p pid cc payload di has_pcr
  end.

Definition observe (c : Checker) (v : ByteView) : TsContinuityResult * Checker :=
  match inspect v with
  | Rejected r => (r, invalidate_duplicate_adjacency c)
  | NullPacket r => (r, c)
  | Accepted p pid cc payload di has_pcr =>
      let '(kind, rep) :=
        classify (state_at c pid) (untrusted_epoch_ c) p cc payload di has_pcr in
      let s' := mkState (untrusted_epoch_ c) p cc true payload rep in
      (mkResult kind pid cc payload di,
       mkChecker (<[Z.to_nat pid := s']> (states_ c)) (untrusted_epoch_ c))
  end.

(** * Traces of calls *)

Inductive Call := CallReset | CallUntrusted | CallObserve (v : ByteView).

Definition step (c : Checker) (op : Call) : option TsContinuityResult * Checker :=
  match op with
  | CallReset => (None, reset c)
  | CallUntrusted => (None, observe_untrusted_packet c)
  | CallObserve v => let '(r, c') := observe c v in (Some r, c')
  end.

Fixpoint run (c : Checker) (ops : list Call) : list (option TsContinuityResult) * Checker :=
  match ops with
  | [] => ([], c)
  | op :: ops =>
      let '(r, c1) := step c op in
      let '(rs, c2) := run c1 ops in (r :: rs, c2)
  end.

(** * The reference checker

    The contract of the header's comment, without epochs: the last accepted
    packet of each PID, and whether no untrusted packet was seen since. *)

Record Entry := mkEntry {
  e_packet : list Z;
  e_counter : Z;
  e_payload : bool;
  e_repeated : bool;
  e_adjacent : bool;
}.

Definition lose_adjacency (e : Entry) : Entry :=
  mkEntry (e_packet e) (e_counter e) (e_payload e) (e_repeated e) false.

Definition spec_classify (o : option Entry) (p : list Z) (cc : Z)
    (payload di has_pcr : bool) : TsContinuityKind * bool :=
  if di then (discontinuity, false)
  else match o with
  | None => (initial, false)
  | Some e =>
      let rep := payload && (cc =? e_counter e) in
      if rep && e_payload e && e_adjacent e && negb (e_repeated e)
         && equivalent (e_packet e) p has_pcr
      then (duplicate, rep)
      else ((if cc =? (e_counter e + (if payload then 1 else 0)) mod 16
             then continuous else error), rep)
  end.

Definition spec_step (m : gmap Z Entry) (op : Call)
    : option TsContinuityResult * gmap Z Entry :=
  match op with
  | CallReset => (None, ∅)
  | CallUntrusted => (None, lose_adjacency <$> m)
  | CallObserve v =>
      match inspect v with
      | Rejected r => (Some r, lose_adjacency <$> m)
      | NullPacket r => (Some r, m)
      | Accepted p pid cc payload di has_pcr =>
          let '(kind, rep) := spec_classify (m !! pid) p cc payload di has_pcr in
          (Some (mkResult kind pid cc payload di),
           <[pid := mkEntry p cc payload rep true]> m)
      end
  end.

Fixpoint spec_run (m : gmap Z Entry) (ops : list Call)
    : list (option TsContinuityResult) * gmap Z Entry :=
  match ops with
  | [] => ([], m)
  | op :: ops =>
      let '(r, m1) := spec_step m op in
      let '(rs, m2) := spec_run m1 ops in (r :: rs, m2)
  end.

(** * Refinement *)

(** The epoch stands for adjacency: a seen payload state is adjacent exactly
    when its epoch is the current one, and no state is from the future. *)
Record entry_rel (epoch : Z) (s : State) (o : option Entry) : Prop := {
  rel_seen : seen s = bool_decide (is_Some o);
  rel_epoch : seen s = true -> has_payload s = true -> trusted_epoch s <= epoch;
  rel_entry e : o = Some e ->
    packet s = e_packet e /\ counter s = e_counter e /\ repeated s = e_repeated e /\
    (has_payload s && (trusted_epoch s =? epoch)) = (e_payload e && e_adjacent e) /\
    0 <= counter s < 16;
}.

Record checker_rel (c : Checker) (m : gmap Z Entry) : Prop := {
  rel_length : length (states_ c) = Z.to_nat kPidCount;
  rel_width : is_u64 (untrusted_epoch_ c);
  rel_states pid : 0 <= pid < kPidCount ->
    entry_rel (untrusted_epoch_ c) (state_at c pid) (m !! pid);
}.
Lemma state_at_map f c n pid :
  length (states_ c) = Z.to_nat kPidCount -> 0 <= pid < kPidCount ->
  state_at (mkChecker (f <$> states_ c) n) pid = f (state_at c pid).
Proof.
  intros HL Hp. unfold state_at. simpl. rewrite list_lookup_fmap.
  destruct (lookup_lt_is_Some_2 (states_ c) (Z.to_nat pid)) as [s ->]; [lia|done].
Qed.

Lemma packet_pid_range p : 0 <= packet_pid p < 2 ^ 16.
Proof. apply Z.mod_pos_bound. lia. Qed.

Lemma packet_counter_range p : 0 <= packet_counter p < 16.
Proof.
  unfold packet_counter, cast_u8. pose proof (land_range (byte_at p 3) 4 ltac:(lia)).
  change (2 ^ 4 - 1) with 15 in *. change (2^4) with 16 in *. rewrite Z.mod_small; lia.
Qed.

(** The masks keep every accepted PID inside [states_]. *)
Lemma inspect_accepted v p pid cc payload di has_pcr :
  inspect v = Accepted p pid cc payload di has_pcr ->
  v = View p /\ zlen p = kPacketSize /\ pid = packet_pid p /\ cc = packet_counter p.
Proof.
  unfold inspect. destruct v as [n|l]; [done|].
  destruct (negb _ || _) eqn:E1; [done|].
  destruct (bit_set _ _); [done|]. destruct (packet_pid l =? 0x1fff); [done|].
  destruct (packet_adaptation l =? 0); [done|].
  destruct (scan_adaptation _ _) as [[ok d] h]. destruct ok; [|done].
  intros [= <- <- <- <- <- <-]. bool_hyps. split_and!; try done. lia.
Qed.

Lemma packet_pid_bound p : bytes_ok p -> 0 <= packet_pid p < kPidCount.
Proof.
  intros Hp. split; [apply packet_pid_range|].
  unfold packet_pid, cast_u16.
  pose proof (land_range (byte_at p 1) 5 ltac:(lia)) as H1.
  pose proof (byte_at_ok p 2 Hp) as H2. change (2 ^ 5 - 1) with 31 in *.
  rewrite Z.lor_comm, lor_shiftl_add by width_lia.
  change (2 ^ 5) with 32 in H1. unfold is_u8 in H2. change (2^8) with 256 in *.
  rewrite Z.mod_small; unfold kPidCount; lia.
Qed.

Lemma expected_counter n x :
  0 <= n < 16 -> 0 <= x <= 1 -> cast_u8 (Z.land (n + x) 0x0f) = (n + x) mod 16.
Proof.
  intros. change 0x0f with (Z.ones 4). rewrite Z.land_ones by lia.
  unfold cast_u8. apply Z.mod_small. pose proof (Z.mod_pos_bound (n + x) 16 ltac:(lia)). change (2 ^ 4) with 16. lia.
Qed.

Lemma classify_spec epoch s o p cc payload di has_pcr :
  entry_rel epoch s o ->
  classify s epoch p cc payload di has_pcr = spec_classify o p cc payload di has_pcr.
Proof.
  intros [Hseen _ Hentry]. unfold classify, spec_classify. destruct di; [done|].
  rewrite Hseen. destruct o as [e|]; [|done].
  destruct (Hentry e eq_refl) as (Hp & Hc & Hr & Hadj & Hrange).
  rewrite bool_decide_true by eauto. simpl. rewrite Hp, Hr.
  rewrite expected_counter by (destruct payload; lia). rewrite Hc in *.
  rewrite <-!andb_assoc, (andb_assoc (e_payload e)), <-Hadj.
  destruct payload, (cc =? e_counter e), (has_payload s), (trusted_epoch s =? epoch);
    simpl; rewrite ?andb_false_r; done.
Qed.

Lemma invalidate_rel c m :
  checker_rel c m -> checker_rel (invalidate_duplicate_adjacency c) (lose_adjacency <$> m).
Proof.
  intros [HL HW HS]. unfold invalidate_duplicate_adjacency.
  destruct (Z.eqb_spec (untrusted_epoch_ c) (2 ^ 64 - 1)) as [E|E].
  - split; simpl; [by rewrite length_fmap|width_lia|]. intros pid Hpid.
    rewrite state_at_map by done. destruct (HS pid Hpid) as [H1 H2 H3].
    rewrite lookup_fmap. split; simpl.
    + rewrite H1. by destruct (m !! pid).
    + done.
    + intros e. destruct (m !! pid) as [e0|]; [|done]. intros [= <-]. simpl.
      destruct (H3 e0 eq_refl) as (?&?&?&?&[??]). rewrite andb_false_r. done.
  - assert (cast_u64 (untrusted_epoch_ c + 1) = untrusted_epoch_ c + 1) as ->
      by (apply cast_u64_small; width_lia).
    split; simpl; [done|width_lia|]. intros pid Hpid.
    destruct (HS pid Hpid) as [H1 H2 H3]. unfold state_at in *; simpl.
    rewrite lookup_fmap. split.
    + rewrite H1. by destruct (m !! pid).
    + intros. specialize (H2 ltac:(done) ltac:(done)). lia.
    + intros e. destruct (m !! pid) as [e0|] eqn:Em; [|done]. intros [= <-]. simpl.
      destruct (H3 e0 eq_refl) as (?&?&?&?&[??]). rewrite andb_false_r.
      split_and!; try done. set (s := default _ _) in *.
      destruct (has_payload s) eqn:Ep; [|done]. simpl. apply Z.eqb_neq.
      specialize (H2 H1 eq_refl). lia.
Qed.

Lemma reset_rel c m : checker_rel c m -> checker_rel (reset c) ∅.
Proof.
  intros [HL HW HS]. split; simpl; [by rewrite length_fmap|width_lia|].
  intros pid Hpid. unfold reset. rewrite state_at_map by done.
  split; simpl; [done..|]. intros e. by rewrite lookup_empty.
Qed.

Lemma state_at_insert c pid pid' s n :
  length (states_ c) = Z.to_nat kPidCount -> 0 <= pid < kPidCount -> 0 <= pid' < kPidCount ->
  state_at (mkChecker (<[Z.to_nat pid := s]> (states_ c)) n) pid' =
  if decide (pid = pid') then s else state_at c pid'.
Proof.
  intros HL Hp Hp'. unfold state_at. simpl. case_decide as E.
  - subst. rewrite list_lookup_insert_eq by lia. done.
  - rewrite list_lookup_insert_ne by lia. done.
Qed.

Lemma accept_rel c m pid p cc payload rep :
  checker_rel c m -> 0 <= pid < kPidCount -> 0 <= cc < 16 ->
  checker_rel
    (mkChecker (<[Z.to_nat pid := mkState (untrusted_epoch_ c) p cc true payload rep]>
                  (states_ c)) (untrusted_epoch_ c))
    (<[pid := mkEntry p cc payload rep true]> m).
Proof.
  intros [HL HW HS] Hpid Hcc. split; simpl; [by rewrite length_insert|done|].
  intros pid' Hpid'. rewrite state_at_insert, lookup_insert by done.
  case_decide as E; [|by apply HS]. split; simpl; [done|lia|].
  intros e [= <-]. simpl. rewrite Z.eqb_refl. done.
Qed.

Definition call_ok (op : Call) : Prop :=
  match op with CallObserve v => bytes_ok (view_bytes v) | _ => True end.

Lemma step_refines c m op :
  checker_rel c m -> call_ok op ->
  (step c op).1 = (spec_step m op).1 /\ checker_rel (step c op).2 (spec_step m op).2.
Proof.
  intros HR Hok. destruct op as [| |v]; simpl.
  - split; [done|]. by eapply reset_rel.
  - split; [done|]. by apply invalidate_rel.
  - unfold observe. destruct (inspect v) as [r|r|p pid cc payload di has_pcr] eqn:E; simpl.
    + split; [done|]. by apply invalidate_rel.
    + done.
    + apply inspect_accepted in E as (-> & _ & -> & ->). simpl in Hok.
      pose proof (packet_pid_bound p Hok) as Hpid.
      rewrite (classify_spec _ _ _ _ _ _ _ _ (rel_states _ _ HR _ Hpid)).
      destruct (spec_classify _ _ _ _ _ _) as [kind rep]. simpl. split; [done|].
      apply accept_rel; [done..|]. apply packet_counter_range.
Qed.

Lemma run_refines_from c m ops :
  checker_rel c m -> Forall call_ok ops -> (run c ops).1 = (spec_run m ops).1.
Proof.
  revert c m. induction ops as [|op ops IH]; intros c m HR Hok; [done|].
  inversion_clear Hok as [|? ? H1 H2]. simpl.
  destruct (step_refines c m op HR H1) as [E HR'].
  destruct (step c op) as [r c1], (spec_step m op) as [r' m1]. simpl in *. subst r'.
  specialize (IH c1 m1 HR' H2).
  destruct (run c1 ops), (spec_run m1 ops). simpl in *. by f_equal.
Qed.

Lemma init_rel : checker_rel init_checker ∅.
Proof.
  split; [apply length_replicate|unfold init_checker; cbn [untrusted_epoch_]; width_lia|]. intros pid Hpid. unfold state_at, init_checker.
  cbn [states_ untrusted_epoch_]. rewrite lookup_replicate_2 by lia. split; [done..|]. intros e. by rewrite lookup_empty.
Qed.

(** ** The packets of one PID *)

Definition accepted_for (q : Z) (op : Call) : bool :=
  match op with
  | CallObserve v =>
      match inspect v with Accepted _ pid _ _ _ _ => pid =? q | _ => false end
  | _ => false
  end.

(** Whether a call can change what the checker says about PID [q]. *)
Definition relevant (q : Z) (op : Call) : bool :=
  match op with
  | CallObserve v =>
      match inspect v with
      | Accepted _ pid _ _ _ _ => pid =? q
      | NullPacket _ => false
      | Rejected _ => true
      end
  | _ => true
  end.

(** The results of the accepted packets of PID [q], in order. *)
Fixpoint verdicts (q : Z) (c : Checker) (ops : list Call) : list TsContinuityResult :=
  match ops with
  | [] => []
  | op :: ops =>
      let '(o, c1) := step c op in
      match o with
      | Some r => if accepted_for q op then r :: verdicts q c1 ops else verdicts q c1 ops
      | None => verdicts q c1 ops
      end
  end.

(** Two checkers that agree on the epoch and on PID [q]. *)
Definition agree_on (q : Z) (c1 c2 : Checker) : Prop :=
  untrusted_epoch_ c1 = untrusted_epoch_ c2 /\
  states_ c1 !! Z.to_nat q = states_ c2 !! Z.to_nat q.

Lemma agree_invalidate q c1 c2 :
  agree_on q c1 c2 ->
  agree_on q (invalidate_duplicate_adjacency c1) (invalidate_duplicate_adjacency c2).
Proof.
  intros [E1 E2]. unfold invalidate_duplicate_adjacency. rewrite E1.
  destruct (_ =? _); split; simpl; try done. by rewrite !list_lookup_fmap, E2.
Qed.

(** A relevant call gives the same result on both and keeps the agreement. *)
Lemma agree_step q c1 c2 op :
  agree_on q c1 c2 -> relevant q op = true ->
  (step c1 op).1 = (step c2 op).1 /\ agree_on q (step c1 op).2 (step c2 op).2.
Proof.
  intros [E1 E2] Hr. destruct op as [| |v]; simpl in *.
  - split; [done|]. split; simpl; [done|]. by rewrite !list_lookup_fmap, E2.
  - split; [done|]. by apply agree_invalidate.
  - unfold observe. destruct (inspect v) as [r|r|p pid cc payload di has_pcr] eqn:E; [|done|].
    + split; [done|]. by apply agree_invalidate.
    + apply Z.eqb_eq in Hr as ->. unfold state_at. rewrite E1, E2.
      destruct (classify _ _ _ _ _ _ _) as [kind rep]. simpl. split; [done|].
      split; simpl; [done|]. by apply lookup_insert_agree.
Qed.

(** An irrelevant call keeps the agreement on its own. *)
Lemma agree_skip q c1 c2 op :
  0 <= q -> agree_on q c1 c2 -> relevant q op = false ->
  accepted_for q op = false /\ agree_on q (step c1 op).2 c2.
Proof.
  intros Hq HA Hr. destruct op as [| |v]; simpl in *; [done..|].
  unfold observe. destruct (inspect v) as [r|r|p pid cc payload di has_pcr] eqn:E; [done|done|].
  split; [done|]. apply inspect_accepted in E as (-> & _ & -> & ->).
  destruct (classify _ _ _ _ _ _ _) as [kind rep]. destruct HA as [E1 E2].
  split; simpl; [done|]. rewrite list_lookup_insert_ne; [done|].
  pose proof (packet_pid_range p). apply Z.eqb_neq in Hr. lia.
Qed.

Lemma verdicts_agree q c1 c2 ops :
  0 <= q -> agree_on q c1 c2 ->
  verdicts q c1 ops = verdicts q c2 (List.filter (relevant q) ops).
Proof.
  intros Hq. revert c1 c2. induction ops as [|op ops IH]; intros c1 c2 HA; [done|].
  simpl. destruct (relevant q op) eqn:Hr.
  - destruct (agree_step q c1 c2 op HA Hr) as [E HA']. simpl.
    destruct (step c1 op) as [o d1], (step c2 op) as [o' d2]. simpl in *. subst o'.
    destruct o; [destruct (accepted_for q op); [f_equal|]|]; by apply IH.
  - destruct (agree_skip q c1 c2 op Hq HA Hr) as [E HA']. rewrite E.
    destruct (step c1 op) as [o d1]. simpl in *. destruct o; by apply IH.
Qed.

(** ** Duplicates *)

(** After a duplicate the state of [q] is consumed until its next packet. *)
Definition consumed (q : Z) (c : Checker) : Prop :=
  seen (state_at c q) = true -> repeated (state_at c q) = true.

Lemma consumed_map q c f n :
  (forall s, seen (f s) = true -> seen s = true) ->
  (forall s, repeated (f s) = repeated s) ->
  (seen (f init_state) = true -> repeated init_state = true) ->
  consumed q c -> consumed q (mkChecker (f <$> states_ c) n).
Proof.
  unfold consumed, state_at. simpl. intros Hs Hr Hi H. rewrite list_lookup_fmap.
  destruct (states_ c !! Z.to_nat q) as [s|]; simpl in *; [|done].
  intros E. rewrite Hr. apply H, Hs, E.
Qed.

Lemma consumed_invalidate q c :
  consumed q c -> consumed q (invalidate_duplicate_adjacency c).
Proof.
  intros H. unfold invalidate_duplicate_adjacency. destruct (_ =? _); [|exact H].
  by apply consumed_map.
Qed.

Lemma consumed_other q c op :
  0 <= q -> consumed q c -> accepted_for q op = false -> consumed q (step c op).2.
Proof.
  intros Hq HC Hr. destruct op as [| |v]; simpl in *.
  - by apply consumed_map.
  - by apply consumed_invalidate.
  - unfold observe. destruct (inspect v) as [r|r|p pid cc payload di has_pcr] eqn:E;
      [by apply consumed_invalidate|done|].
    apply inspect_accepted in E as (-> & _ & -> & ->).
    destruct (classify _ _ _ _ _ _ _) as [kind rep]. unfold consumed, state_at. simpl.
    rewrite list_lookup_insert_ne; [exact HC|].
    pose proof (packet_pid_range p). apply Z.eqb_neq in Hr. lia.
Qed.

Lemma classify_duplicate s epoch p cc payload di has_pcr rep :
  classify s epoch p cc payload di has_pcr = (duplicate, rep) ->
  seen s = true /\ repeated s = false /\ rep = true.
Proof.
  unfold classify. destruct di; [done|]. destruct (seen s); [|done]. simpl.
  match goal with |- context [if ?b then (duplicate, _) else _] => destruct b eqn:Ed end.
  - intros [= <-]. split_and!; [done|by bool_hyps|].
    by do 4 apply andb_true_iff in Ed as [Ed _].
  - match goal with |- context [if ?b then continuous else _] => by destruct b end.
Qed.

(** The verdict on an accepted packet of [q]: it is not a duplicate when the
    state was consumed, and a duplicate consumes the state. *)
Lemma accepted_duplicate q c op r :
  length (states_ c) = Z.to_nat kPidCount -> call_ok op ->
  accepted_for q op = true -> (step c op).1 = Some r -> res_kind r = duplicate ->
  ~ consumed q c /\ consumed q (step c op).2.
Proof.
  intros HL Hok Ha Hr Hk. destruct op as [| |v]; [done..|]. simpl in *. unfold observe in *.
  destruct (inspect v) as [r'|r'|p pid cc payload di has_pcr] eqn:E; [done..|].
  apply Z.eqb_eq in Ha as ->. apply inspect_accepted in E as (-> & _ & -> & ->).
  destruct (classify _ _ _ _ _ _ _) as [kind rep] eqn:Ec. simpl in *.
  injection Hr as <-. simpl in Hk. subst kind.
  apply classify_duplicate in Ec as (Es & Erep & ->). unfold consumed.
  rewrite state_at_insert, decide_True by (done || by apply packet_pid_bound).
  split; [|done]. rewrite Erep. intros H. by specialize (H Es).
Qed.

Lemma step_length c op :
  length (states_ (step c op).2) = length (states_ c).
Proof.
  assert (length (states_ (invalidate_duplicate_adjacency c)) = length (states_ c)) as HI.
  { unfold invalidate_duplicate_adjacency. destruct (_ =? _); [|done]. apply length_fmap. }
  destruct op as [| |v]; simpl; [apply length_fmap|exact HI|]. unfold observe.
  destruct (inspect v); [exact HI|done|]. destruct (classify _ _ _ _ _ _ _). simpl.
  apply length_insert.
Qed.

Lemma step_result c op r : accepted_for r op = true -> is_Some (step c op).1.
Proof.
  destruct op as [| |v]; [done..|]. simpl. unfold observe. intros _.
  destruct (inspect v); [eauto..|]. destruct (classify _ _ _ _ _ _ _). eauto.
Qed.

(** The first packet of [q] after a consumed state is not a duplicate. *)
Lemma consumed_first q c ops r rs :
  0 <= q -> length (states_ c) = Z.to_nat kPidCount -> Forall call_ok ops ->
  consumed q c -> verdicts q c ops = r :: rs -> res_kind r <> duplicate.
Proof.
  intros Hq. revert c. induction ops as [|op ops IH]; intros c HL Hok HC; [done|].
  inversion_clear Hok as [|? ? Hop Hops]. simpl.
  pose proof (step_length c op) as HL'. pose proof (consumed_other q c op Hq HC) as HC'.
  pose proof (accepted_duplicate q c op) as HD. pose proof (step_result c op q) as HS.
  destruct (step c op) as [[r0|] c1]; simpl in *.
  - destruct (accepted_for q op) eqn:Ha.
    + intros [= <- _] Hk. by destruct (HD r0 HL Hop eq_refl eq_refl Hk).
    + apply IH; [congruence|done|]. by apply HC'.
  - apply IH; [congruence|done|]. apply HC'. destruct (accepted_for q op); [|done].
    by destruct (HS eq_refl).
Qed.

(** ** Sequences of counters *)

(** The counter of each PID's last accepted packet since the last reset. *)
Definition last_step (last : gmap Z Z) (op : Call) : gmap Z Z :=
  match op with
  | CallReset => ∅
  | CallUntrusted => last
  | CallObserve v =>
      match inspect v with
      | Accepted _ pid cc _ _ _ => <[pid := cc]> last
      | _ => last
      end
  end.

(** A call is in sequence when its packet's counter follows the PID's last
    one: one more modulo 16 for a payload packet, the same otherwise. *)
Definition call_in_sequence (last : gmap Z Z) (op : Call) : bool :=
  match op with
  | CallObserve v =>
      match inspect v with
      | Accepted _ pid cc payload di _ =>
          di || match last !! pid with
                | Some n => cc =? (n + (if payload then 1 else 0)) mod 16
                | None => true
                end
      | _ => true
      end
  | _ => true
  end.

Fixpoint in_sequence (last : gmap Z Z) (ops : list Call) : bool :=
  match ops with
  | [] => true
  | op :: ops => call_in_sequence last op && in_sequence (last_step last op) ops
  end.

Definition not_error (o : option TsContinuityResult) : Prop :=
  match o with Some r => res_kind r <> error | None => True end.

Lemma spec_step_counters m op :
  e_counter <$> (spec_step m op).2 = last_step (e_counter <$> m) op.
Proof.
  assert (e_counter <$> (lose_adjacency <$> m) = e_counter <$> m) as HL.
  { apply map_eq. intros i. rewrite !lookup_fmap. by destruct (m !! i). }
  destruct op as [| |v]; simpl; [apply fmap_empty|exact HL|].
  destruct (inspect v); simpl; [exact HL|done|].
  destruct (spec_classify _ _ _ _ _ _). simpl. by rewrite fmap_insert.
Qed.

Lemma inspect_not_error v :
  match inspect v with Rejected r | NullPacket r => res_kind r <> error | _ => True end.
Proof.
  unfold inspect. destruct v as [n|p]; [done|].
  destruct (negb _ || _); [done|]. destruct (bit_set _ _); [done|].
  destruct (packet_pid p =? 0x1fff); [done|]. destruct (packet_adaptation p =? 0); [done|].
  destruct (scan_adaptation _ _) as [[[] ?] ?]; done.
Qed.

Lemma spec_step_in_sequence m op :
  call_in_sequence (e_counter <$> m) op = true -> not_error (spec_step m op).1.
Proof.
  destruct op as [| |v]; simpl; [done..|]. pose proof (inspect_not_error v) as HI.
  destruct (inspect v) as [r|r|p pid cc payload di has_pcr]; [done..|].
  unfold spec_classify. rewrite lookup_fmap. destruct di; [done|]. simpl.
  destruct (m !! pid) as [e|]; simpl; [|done]. intros ->.
  match goal with |- context [if ?b then (duplicate, _) else _] => destruct b end; done.
Qed.

Lemma spec_run_in_sequence m ops :
  in_sequence (e_counter <$> m) ops = true -> Forall not_error (spec_run m ops).1.
Proof.
  revert m. induction ops as [|op ops IH]; intros m; simpl; [by constructor|].
  intros [H1 H2]%andb_true_iff. rewrite <-spec_step_counters in H2.
  pose proof (spec_step_in_sequence m op H1) as H. specialize (IH _ H2).
  destruct (spec_step m op) as [r m1]. simpl in *. destruct (spec_run m1 ops).
  by constructor.
Qed.

Lemma spec_run_counters m ops :
  e_counter <$> (spec_run m ops).2 = foldl last_step (e_counter <$> m) ops.
Proof.
  revert m. induction ops as [|op ops IH]; intros m; simpl; [done|].
  rewrite <-spec_step_counters. destruct (spec_step m op) as [r m1]. simpl.
  rewrite <-IH. by destruct (spec_run m1 ops).
Qed.

Lemma run_rel c m ops :
  checker_rel c m -> Forall call_ok ops -> checker_rel (run c ops).2 (spec_run m ops).2.
Proof.
  revert c m. induction ops as [|op ops IH]; intros c m HR Hok; [done|].
  inversion_clear Hok as [|? ? H1 H2]. simpl.
  destruct (step_refines c m op HR H1) as [_ HR'].
  destruct (step c op) as [r c1], (spec_step m op) as [r' m1]. simpl in *.
  specialize (IH c1 m1 HR' H2). by destruct (run c1 ops), (spec_run m1 ops).
Qed.

(** * Properties *)

(** C32 The checker computes, on every sequence of calls from the initial
    state, the results of the reference checker that has no epochs: the
    64-bit epoch (and its wrap-around) means exactly "no untrusted packet
    since this PID's last accepted packet". *)
Theorem run_refines_reference ops :
  Forall call_ok ops -> (run init_checker ops).1 = (spec_run ∅ ops).1.
Proof. apply run_refines_from, init_rel. Qed.

(** What the checker says about a PID depends only on that PID's own
    packets, the resets and the untrusted packets: dropping the other PIDs'
    packets and the null packets from the calls changes none of its
    verdicts. *)
Theorem verdicts_isolated q ops :
  0 <= q ->
  verdicts q init_checker ops = verdicts q init_checker (List.filter (relevant q) ops).
Proof. intros Hq. by apply verdicts_agree. Qed.

(** No two consecutive packets of a PID are both classified as duplicates,
    whatever happens in between. *)
Theorem no_consecutive_duplicates q c ops rs1 r1 r2 rs2 :
  0 <= q -> length (states_ c) = Z.to_nat kPidCount -> Forall call_ok ops ->
  verdicts q c ops = rs1 ++ r1 :: r2 :: rs2 ->
  res_kind r1 = duplicate -> res_kind r2 <> duplicate.
Proof.
  intros Hq. revert c rs1. induction ops as [|op ops IH]; intros c rs1 HL Hok.
  { by destruct rs1. }
  inversion_clear Hok as [|? ? Hop Hops]. simpl.
  pose proof (step_length c op) as HL'. pose proof (accepted_duplicate q c op) as HD.
  destruct (step c op) as [[r0|] c1]; simpl in *; [|by apply IH; congruence].
  destruct (accepted_for q op); [|by apply IH; congruence].
  destruct rs1 as [|r rs1]; simpl; intros [= -> Hv] Hk.
  - destruct (HD r1 HL Hop eq_refl eq_refl Hk) as [_ HC].
    by apply (consumed_first q c1 ops r2 rs2); [|congruence| | |].
  - by apply (IH c1 rs1); [congruence|..].
Qed.

(** A stream whose counters are in sequence is never reported as an error,
    however its PIDs and the untrusted packets are interleaved. *)
Theorem in_sequence_no_error ops :
  Forall call_ok ops -> in_sequence ∅ ops = true -> Forall not_error (run init_checker ops).1.
Proof.
  intros Hok Hs. rewrite (run_refines_from _ ∅ _ init_rel Hok).
  apply spec_run_in_sequence. by rewrite fmap_empty.
Qed.

(** Loss detection: after any calls, a payload packet without the
    discontinuity indicator whose counter neither repeats nor follows its
    PID's last counter is reported as an error. *)
Theorem gap_detected ops v p pid cc has_pcr n :
  Forall call_ok ops -> bytes_ok (view_bytes v) ->
  inspect v = Accepted p pid cc true false has_pcr ->
  foldl last_step ∅ ops !! pid = Some n -> cc <> n -> cc <> (n + 1) mod 16 ->
  res_kind (observe (run init_checker ops).2 v).1 = error.
Proof.
  intros Hok Hv HI Hl Hn Hn1. pose proof (run_rel _ ∅ _ init_rel Hok) as HR.
  pose proof (step_refines _ _ (CallObserve v) HR Hv) as [E _]. simpl in E.
  rewrite <-(fmap_empty e_counter), <-spec_run_counters, lookup_fmap in Hl.
  destruct (observe _ v) as [r c']. rewrite HI in E. simpl in *.
  destruct ((spec_run ∅ ops).2 !! pid) as [e|]; [|done]. injection Hl as <-.
  unfold spec_classify in E. apply Z.eqb_neq in Hn, Hn1. rewrite Hn, Hn1 in E.
  simpl in E. by injection E as ->.
Qed.

(** * Witnesses *)

(** A payload-only packet of [pid] with counter [cc]. *)
Definition sample_packet (pid cc : Z) : ByteView :=
  View ([0x47; pid / 256; pid mod 256; 0x10 + cc] ++ replicate 184 0xff).

Definition sample_calls : list Call :=
  [CallObserve (sample_packet 256 0); CallObserve (sample_packet 256 0);
   CallObserve (sample_packet 257 5); CallObserve (sample_packet 256 0);
   CallUntrusted; CallObserve (sample_packet 257 5)].

Definition clean_calls : list Call :=
  [CallObserve (sample_packet 256 15); CallObserve (sample_packet 257 5);
   CallUntrusted; CallObserve (sample_packet 256 0)].

Example sample_verdicts :
  res_kind <$> verdicts 256 init_checker sample_calls = [initial; duplicate; error].
Proof. vm_compute. reflexivity. Qed.

Definition call_okb (op : Call) : bool :=
  match op with CallObserve v => bytes_okb (view_bytes v) | _ => true end.

Lemma calls_okb_ok ops : forallb call_okb ops = true -> Forall call_ok ops.
Proof.
  rewrite forallb_forall, Forall_forall. intros H op Hop.
  apply list_elem_of_In, H in Hop. destruct op; [done..|]. by apply bytes_okb_ok.
Qed.

Lemma sample_calls_ok : Forall call_ok sample_calls.
Proof. apply calls_okb_ok. vm_compute. reflexivity. Qed.
Lemma clean_calls_ok : Forall call_ok clean_calls.
Proof. apply calls_okb_ok. vm_compute. reflexivity. Qed.

Lemma run_refines_reference_witness :
  (run init_checker sample_calls).1 = (spec_run ∅ sample_calls).1.
Proof. apply run_refines_reference, sample_calls_ok. Defined.

Lemma verdicts_isolated_witness :
  verdicts 256 init_checker sample_calls
  = verdicts 256 init_checker (List.filter (relevant 256) sample_calls).
Proof. apply verdicts_isolated. lia. Defined.

Lemma no_consecutive_duplicates_witness :
  exists r1 r2 rs, verdicts 256 init_checker sample_calls = [r1; r2] ++ rs /\
    res_kind r1 = initial /\ res_kind r2 = duplicate /\
    Forall (fun r => res_kind r <> duplicate) (take 1 rs).
Proof.
  do 3 eexists. split; [vm_compute; reflexivity|]. split; [reflexivity|].
  split; [reflexivity|]. constructor; [|constructor].
  refine (no_consecutive_duplicates 256 init_checker sample_calls [_] _ _ [] _ _ _ _ _).
  - lia.
  - apply length_replicate.
  - apply sample_calls_ok.
  - vm_compute. reflexivity.
  - reflexivity.
Defined.

Lemma in_sequence_no_error_witness : Forall not_error (run init_checker clean_calls).1.
Proof.
  apply in_sequence_no_error; [apply clean_calls_ok|]. vm_compute. reflexivity.
Defined.

Lemma gap_detected_witness :
  res_kind (observe (run init_checker clean_calls).2 (sample_packet 256 2)).1 = error.
Proof.
  eapply (gap_detected clean_calls (sample_packet 256 2) _ 256 2 false 0).
  - apply clean_calls_ok.
  - apply bytes_okb_ok. vm_compute. reflexivity.
  - vm_compute. reflexivity.
  - vm_compute. reflexivity.
  - lia.
  - vm_compute. lia.
Defined.
