(* ===== verification/TaggedTsDemux.v ===== *)
(** The demultiplexer of tagged 188-byte packets, [src/tagged_ts_demux.cpp]:
    the bounded buffer with its offset, sync acquisition, the packet loop and
    the counters; a queue without a buffer as its specification; and the
    proofs that the buffer never overflows and that the packets delivered
    depend on the byte stream alone. *)

From S2P Require Import Prelude.

Definition kMaxStreamTransfer : Z := 1048576.
Definition kPacketSize : Z := 188.
Definition kSyncPacketCount : Z := 4.
Definition kPendingCapacity : Z := kMaxStreamTransfer + kSyncPacketCount * kPacketSize.

Record Counters := mkCounters {
  input_bytes_accepted_ : Z;
  emitted_packets_ : Z;
  discarded_sync_search_bytes_ : Z;
  invalid_tag_packets_ : Z;
  sync_loss_events_ : Z;
}.

(** [pending_] is [None] when the allocation failed. *)
Record TaggedTsDemux := mkDemux {
  max_tag_ : Z;
  plain_ts_ : bool;
  pending_ : option (list Z);
  pending_offset_ : Z;
  pending_size_ : Z;
  synchronized_ : bool;
  counts : Counters;
}.

Definition zero_counters : Counters := mkCounters 0 0 0 0 0.

Definition add_accepted (c : Counters) (n : Z) : Counters :=
  mkCounters (cast_u64 (input_bytes_accepted_ c + n)) (emitted_packets_ c)
    (discarded_sync_search_bytes_ c) (invalid_tag_packets_ c) (sync_loss_events_ c).
Definition add_emitted (c : Counters) : Counters :=
  mkCounters (input_bytes_accepted_ c) (cast_u64 (emitted_packets_ c + 1))
    (discarded_sync_search_bytes_ c) (invalid_tag_packets_ c) (sync_loss_events_ c).
Definition add_discarded (c : Counters) (n : Z) : Counters :=
  mkCounters (input_bytes_accepted_ c) (emitted_packets_ c)
    (cast_u64 (discarded_sync_search_bytes_ c + n)) (invalid_tag_packets_ c)
    (sync_loss_events_ c).
Definition add_invalid (c : Counters) : Counters :=
  mkCounters (input_bytes_accepted_ c) (emitted_packets_ c)
    (discarded_sync_search_bytes_ c) (cast_u64 (invalid_tag_packets_ c + 1))
    (sync_loss_events_ c).
Definition add_sync_loss (c : Counters) : Counters :=
  mkCounters (input_bytes_accepted_ c) (emitted_packets_ c)
    (discarded_sync_search_bytes_ c) (invalid_tag_packets_ c)
    (cast_u64 (sync_loss_events_ c + 1)).

(** The constructor; [allocated] is the outcome of the [nothrow] allocation,
    with the buffer's indeterminate bytes. *)
Definition make_demux (max_tag : Z) (plain_ts : bool) (allocated : option (list Z))
    : TaggedTsDemux :=
  mkDemux (if 7 <? max_tag then 7 else max_tag) plain_ts allocated 0 0 false zero_counters.

Definition is_packet_boundary (plain : bool) (value : Z) : bool :=
  if plain then value =? 0x47 else Z.land value 0x0f =? 0x07.

Definition set_window (d : TaggedTsDemux) (off size : Z) (c : Counters) : TaggedTsDemux :=
  mkDemux (max_tag_ d) (plain_ts_ d) (pending_ d) off size (synchronized_ d) c.
Definition set_synchronized (d : TaggedTsDemux) (b : bool) : TaggedTsDemux :=
  mkDemux (max_tag_ d) (plain_ts_ d) (pending_ d) (pending_offset_ d) (pending_size_ d) b
    (counts d).

(** [std::memmove] of the pending bytes to the start of the buffer. *)
Definition compact_pending (d : TaggedTsDemux) (buf : list Z)
    : option (TaggedTsDemux * list Z) :=
  if pending_offset_ d =? 0 then Some (d, buf)
  else
    bs ← mem_load buf (pending_offset_ d) (pending_size_ d);
    buf' ← (if pending_size_ d =? 0 then Some buf else mem_store buf 0 bs);
    Some (set_window d 0 (pending_size_ d) (counts d), buf').

Definition discard_bytes (d : TaggedTsDemux) (n : Z) : TaggedTsDemux :=
  if n =? 0 then d
  else set_window d (pending_offset_ d + n) (pending_size_ d - n) (add_discarded (counts d) n).

Definition consume_packet (d : TaggedTsDemux) : TaggedTsDemux :=
  set_window d (pending_offset_ d + kPacketSize) (pending_size_ d - kPacketSize) (counts d).

(** The inner loop of [acquire_sync]: four boundaries, 188 bytes apart. *)
Definition sync_at (plain : bool) (buf : list Z) (pos : Z) : bool :=
  forallb (fun k => is_packet_boundary plain (byte_at buf (pos + k * kPacketSize)))
    [0; 1; 2; 3].

(** The outer loop: the first of [n] candidate starts, counted from [start]. *)
Fixpoint find_sync (plain : bool) (buf : list Z) (off start : Z) (n : nat) : option Z :=
  match n with
  | O => None
  | S n => if sync_at plain buf (off + start) then Some start
           else find_sync plain buf off (start + 1) n
  end.

Definition sync_required : Z := kSyncPacketCount * kPacketSize.

Definition acquire_sync (d : TaggedTsDemux) (buf : list Z) : bool * TaggedTsDemux :=
  if pending_size_ d <? sync_required then (false, d)
  else
    let last_start := pending_size_ d - sync_required in
    match find_sync (plain_ts_ d) buf (pending_offset_ d) 0 (Z.to_nat (last_start + 1)) with
    | Some start => (true, discard_bytes d start)
    | None => (false, discard_bytes d (pending_size_ d - (sync_required - 1)))
    end.

Definition wire_tag (wire_sync : Z) : Z := cast_u8 (Z.land (Z.shiftr wire_sync 4) 0x07).
Definition has_tei (wire_sync : Z) : bool := negb (Z.land wire_sync 0x80 =? 0).

Section Push.
(** The caller's state, its packet sink and its optional observer of
    discarded packets ([sink] is [None] for a null function pointer). *)
Context {W : Type}.
Variable sink : option (W -> Z -> list Z -> Result unit * W).
Variable observer : option (W -> Z -> W).

Definition notify (w : W) (wire_sync : Z) : W :=
  match observer with
  | Some f => if has_tei wire_sync then f w wire_sync else w
  | None => w
  end.

Inductive Outcome :=
  | Continue (d : TaggedTsDemux) (w : W)
  | Return (r : Result unit) (d : TaggedTsDemux) (w : W).

(** One round of the [while (true)] of [push]. *)
Definition iteration (f : W -> Z -> list Z -> Result unit * W) (buf : list Z)
    (d : TaggedTsDemux) (w : W) : Outcome :=
  let '(ok, d) :=
    if synchronized_ d then (true, d)
    else let '(found, d1) := acquire_sync d buf in
         if found then (true, set_synchronized d1 true) else (false, d1) in
  if negb ok then Return (success tt) d w
  else if pending_size_ d <? kPacketSize then Return (success tt) d w
  else
  let off := pending_offset_ d in
  let wire_sync := byte_at buf off in
  if negb (is_packet_boundary (plain_ts_ d) wire_sync)
  then Continue (discard_bytes
         (set_window (set_synchronized d false) off (pending_size_ d)
            (add_sync_loss (counts d))) 1) w
  else if plain_ts_ d then
    match f w 0 (ztake kPacketSize (zdrop off buf)) with
    | (success _, w') =>
        Continue (consume_packet (set_window d off (pending_size_ d) (add_emitted (counts d)))) w'
    | (failure e, w') => Return (failure e) d w'
    end
  else
  let tag := wire_tag wire_sync in
  if (tag =? 0) || (max_tag_ d <? tag) || has_tei wire_sync
  then Continue (consume_packet (set_window d off (pending_size_ d) (add_invalid (counts d))))
         (notify w wire_sync)
  else
    match f w (tag - 1) (0x47 :: ztake (kPacketSize - 1) (zdrop (off + 1) buf)) with
    | (success _, w') =>
        Continue (consume_packet (set_window d off (pending_size_ d) (add_emitted (counts d)))) w'
    | (failure e, w') => Return (failure e) d w'
    end.

Fixpoint drain (fuel : nat) (f : W -> Z -> list Z -> Result unit * W) (buf : list Z)
    (d : TaggedTsDemux) (w : W) : option (Result unit * TaggedTsDemux * W) :=
  match fuel with
  | O => None
  | S fuel =>
      match iteration f buf d w with
      | Continue d' w' => drain fuel f buf d' w'
      | Return r d' w' => Some (r, d', w')
      end
  end.

(** The copy of the input behind the pending bytes. *)
Definition append_input (d : TaggedTsDemux) (buf input : list Z)
    : option (TaggedTsDemux * list Z) :=
  if zlen input =? 0 then Some (d, buf)
  else
    let available_tail := kPendingCapacity - pending_offset_ d - pending_size_ d in
    '(d, buf) ← (if available_tail <? zlen input then compact_pending d buf
                 else Some (d, buf));
    buf ← mem_store buf (pending_offset_ d + pending_size_ d) input;
    Some (set_window d (pending_offset_ d) (pending_size_ d + zlen input)
            (add_accepted (counts d) (zlen input)), buf).

Definition set_pending (d : TaggedTsDemux) (buf : list Z) : TaggedTsDemux :=
  mkDemux (max_tag_ d) (plain_ts_ d) (Some buf) (pending_offset_ d) (pending_size_ d)
    (synchronized_ d) (counts d).

(** [None] is undefined behaviour or a loop that does not end. *)
Definition push (d : TaggedTsDemux) (input : ByteView) (w : W)
    : option (Result unit * TaggedTsDemux * W) :=
  match sink, input with
  | None, _ => Some (failure INVALID_ARGUMENT, d, w)
  | Some f, _ =>
      if (match input with NullView n => negb (n =? 0) | View _ => false end)
         || (kMaxStreamTransfer <? view_size input)
      then Some (failure INVALID_ARGUMENT, d, w)
      else match pending_ d with
      | None => Some (failure INTERNAL, d, w)
      | Some buf =>
          if (kPendingCapacity <? pending_size_ d)
             || (kPendingCapacity - pending_size_ d <? view_size input)
          then Some (failure SLOW_CONSUMER, d, w)
          else
            '(d1, buf1) ← append_input d buf (view_bytes input);
            '(r, d2, w2) ← drain (S (Z.to_nat (pending_size_ d1))) f buf1 d1 w;
            Some (r, set_pending d2 buf1, w2)
      end
  end.
End Push.
Arguments Continue {W} d w.
Arguments Return {W} r d w.

Definition reset (d : TaggedTsDemux) : TaggedTsDemux :=
  mkDemux (max_tag_ d) (plain_ts_ d) (pending_ d) 0 0 false zero_counters.

(** [counters()]: the counters and the buffered bytes. *)
Definition counters (d : TaggedTsDemux) : Counters * Z := (counts d, pending_size_ d).

(** * The specification: a queue of bytes *)

Record Queue := mkQueue { q_bytes : list Z; q_sync : bool; q_counts : Counters }.

Definition q_discard (q : Queue) (n : Z) : Queue :=
  mkQueue (zdrop n (q_bytes q)) (q_sync q)
    (if n =? 0 then q_counts q else add_discarded (q_counts q) n).
Definition q_consume (q : Queue) (c : Counters) : Queue :=
  mkQueue (zdrop kPacketSize (q_bytes q)) (q_sync q) c.

Section Spec.
Context {W : Type}.
Variables (max_tag : Z) (plain : bool).
Variable observer : option (W -> Z -> W).
Variable f : W -> Z -> list Z -> Result unit * W.

(** Sync acquisition on the queue: [true] with the queue moved to the first
    aligned start, or [false] with what can no longer start dropped. *)
Definition q_acquire (q : Queue) : bool * Queue :=
  let size := zlen (q_bytes q) in
  if size <? sync_required then (false, q)
  else match find_sync plain (q_bytes q) 0 0 (Z.to_nat (size - sync_required + 1)) with
       | Some start =>
           (true, mkQueue (zdrop start (q_bytes q)) true (q_counts (q_discard q start)))
       | None => (false, q_discard q (size - (sync_required - 1)))
       end.

(** The packet delivered for the wire packet at the head of [bs], if any. *)
Definition packet_of (bs : list Z) : option (Z * list Z) :=
  let wire_sync := byte_at bs 0 in
  if plain then Some (0, ztake kPacketSize bs)
  else let tag := wire_tag wire_sync in
       if (tag =? 0) || (max_tag <? tag) || has_tei wire_sync then None
       else Some (tag - 1, 0x47 :: ztake (kPacketSize - 1) (zdrop 1 bs)).

Inductive QOutcome :=
  | QContinue (q : Queue) (w : W)
  | QReturn (r : Result unit) (q : Queue) (w : W).

Definition q_packet (q : Queue) (w : W) : QOutcome :=
  if zlen (q_bytes q) <? kPacketSize then QReturn (success tt) q w
  else if negb (is_packet_boundary plain (byte_at (q_bytes q) 0))
  then QContinue (mkQueue (zdrop 1 (q_bytes q)) false
                    (add_discarded (add_sync_loss (q_counts q)) 1)) w
  else match packet_of (q_bytes q) with
  | None => QContinue (q_consume q (add_invalid (q_counts q)))
              (notify observer w (byte_at (q_bytes q) 0))
  | Some (i, p) =>
      match f w i p with
      | (success _, w') => QContinue (q_consume q (add_emitted (q_counts q))) w'
      | (failure e, w') => QReturn (failure e) q w'
      end
  end.

Definition q_iteration (q : Queue) (w : W) : QOutcome :=
  let '(ok, q1) := if q_sync q then (true, q) else q_acquire q in
  if ok then q_packet q1 w else QReturn (success tt) q1 w.

Fixpoint q_drain (fuel : nat) (q : Queue) (w : W) : option (Result unit * Queue * W) :=
  match fuel with
  | O => None
  | S fuel =>
      match q_iteration q w with
      | QContinue q' w' => q_drain fuel q' w'
      | QReturn r q' w' => Some (r, q', w')
      end
  end.

(** Enqueue the input and deliver every packet that is complete. *)
Definition q_push (q : Queue) (input : list Z) (w : W) : option (Result unit * Queue * W) :=
  let q1 := mkQueue (q_bytes q ++ input) (q_sync q)
              (if zlen input =? 0 then q_counts q else add_accepted (q_counts q) (zlen input)) in
  q_drain (S (length (q_bytes q1))) q1 w.
End Spec.
Arguments QContinue {W} q w.
Arguments QReturn {W} r q w.

(** * Refinement *)

(** The bytes pending in the buffer. *)
Definition abs (d : TaggedTsDemux) (buf : list Z) : Queue :=
  mkQueue (window buf (pending_offset_ d) (pending_size_ d)) (synchronized_ d) (counts d).

Record wf (d : TaggedTsDemux) (buf : list Z) : Prop := {
  wf_len : zlen buf = kPendingCapacity;
  wf_off : 0 <= pending_offset_ d;
  wf_size : 0 <= pending_size_ d;
  wf_fit : pending_offset_ d + pending_size_ d <= kPendingCapacity;
}.

Lemma wf_qlen d buf : wf d buf -> zlen (q_bytes (abs d buf)) = pending_size_ d.
Proof. intros []. simpl. apply zlen_window; lia. Qed.

Lemma find_sync_window plain buf off size start n :
  0 <= off -> 0 <= start -> start + Z.of_nat n + sync_required - 1 <= size ->
  find_sync plain buf off start n = find_sync plain (window buf off size) 0 start n.
Proof.
  revert start. induction n as [|n IH]; intros start Hoff Hs Hfit; [done|]. simpl.
  assert (sync_at plain buf (off + start) = sync_at plain (window buf off size) start) as ->.
  { unfold sync_at, sync_required, kSyncPacketCount, kPacketSize in *. cbn [forallb].
    rewrite !byte_at_window by lia. by rewrite !Z.add_assoc. }
  rewrite IH by lia. done.
Qed.

Lemma find_sync_range plain buf off start n s :
  find_sync plain buf off start n = Some s -> start <= s < start + Z.of_nat n.
Proof.
  revert start. induction n as [|n IH]; intros start; [done|]. simpl.
  destruct (sync_at _ _ _); [intros [= <-]; lia|]. intros H%IH. lia.
Qed.

Lemma abs_discard d buf n :
  wf d buf -> 0 <= n <= pending_size_ d ->
  wf (discard_bytes d n) buf /\ abs (discard_bytes d n) buf = q_discard (abs d buf) n.
Proof.
  intros [] Hn. unfold discard_bytes, q_discard. destruct (Z.eqb_spec n 0) as [->|].
  - split; [by split|]. by destruct d.
  - split; [split; simpl; lia|]. unfold abs. simpl. rewrite zdrop_window by lia. done.
Qed.

Definition outcome_rel {W} (d : TaggedTsDemux) (buf : list Z) (o : Outcome) (qo : @QOutcome W)
    : Prop :=
  match o, qo with
  | Continue d' w', QContinue q' w'' =>
      w' = w'' /\ wf d' buf /\ abs d' buf = q' /\ max_tag_ d' = max_tag_ d /\
      plain_ts_ d' = plain_ts_ d
  | Return r d' w', QReturn r' q' w'' =>
      r = r' /\ w' = w'' /\ wf d' buf /\ abs d' buf = q' /\ max_tag_ d' = max_tag_ d /\
      plain_ts_ d' = plain_ts_ d
  | _, _ => False
  end.

Lemma abs_consume d buf c :
  wf d buf -> kPacketSize <= pending_size_ d ->
  wf (consume_packet (set_window d (pending_offset_ d) (pending_size_ d) c)) buf /\
  abs (consume_packet (set_window d (pending_offset_ d) (pending_size_ d) c)) buf
  = q_consume (abs d buf) c.
Proof.
  intros [] Hn. unfold kPacketSize in Hn. split.
  - split; simpl; unfold kPacketSize; lia.
  - unfold abs, q_consume. simpl. rewrite zdrop_window by (unfold kPacketSize; lia). done.
Qed.

Lemma acquire_refines d buf :
  wf d buf -> synchronized_ d = false ->
  let '(found, d1) := acquire_sync d buf in
  let d2 := if found then set_synchronized d1 true else d1 in
  (found, abs d2 buf) = q_acquire (plain_ts_ d) (abs d buf) /\ wf d2 buf /\
  max_tag_ d2 = max_tag_ d /\ plain_ts_ d2 = plain_ts_ d.
Proof.
  intros HW Hs. pose proof (wf_qlen d buf HW) as HL. unfold acquire_sync, q_acquire.
  rewrite HL. destruct (Z.ltb_spec (pending_size_ d) sync_required) as [Hlt|Hge]; [done|].
  assert (find_sync (plain_ts_ d) buf (pending_offset_ d) 0
            (Z.to_nat (pending_size_ d - sync_required + 1))
          = find_sync (plain_ts_ d) (q_bytes (abs d buf)) 0 0
            (Z.to_nat (pending_size_ d - sync_required + 1))) as ->.
  { apply find_sync_window; [apply HW|lia|].
    unfold sync_required, kSyncPacketCount, kPacketSize in *. lia. }
  destruct (find_sync _ _ _ _ _) as [start|] eqn:E.
  - apply find_sync_range in E.
    destruct (abs_discard d buf start HW) as [HW' HA].
    { unfold sync_required, kSyncPacketCount, kPacketSize in *. lia. }
    split_and!; [|by destruct HW'; split|by unfold discard_bytes; destruct (start =? 0)..].
    f_equal. unfold abs in *. simpl. unfold q_discard in *. simpl in *.
    injection HA as E1 E2 E3. by rewrite E1, E3.
  - destruct (abs_discard d buf (pending_size_ d - (sync_required - 1)) HW) as [HW' HA].
    { unfold sync_required, kSyncPacketCount, kPacketSize in *. lia. }
    split_and!; [by rewrite HA|done|by unfold discard_bytes; destruct (_ =? 0)..].
Qed.

Lemma packet_refines {W} observer f d buf (w : W) :
  wf d buf -> synchronized_ d = true ->
  outcome_rel d buf (iteration observer f buf d w)
    (q_packet (max_tag_ d) (plain_ts_ d) observer f (abs d buf) w).
Proof.
  intros HW Hs. pose proof (wf_qlen d buf HW) as HL. unfold iteration, q_packet.
  rewrite Hs, HL. cbn [negb].
  destruct (Z.ltb_spec (pending_size_ d) kPacketSize) as [Hlt|Hge]; [done|].
  assert (188 <= pending_size_ d) by (unfold kPacketSize in *; lia).
  assert (byte_at (q_bytes (abs d buf)) 0 = byte_at buf (pending_offset_ d)) as ->.
  { simpl. rewrite byte_at_window by (try apply HW; lia). f_equal. lia. }
  destruct (is_packet_boundary _ _) eqn:Hb; cbn [negb].
  2:{ destruct (abs_discard (set_window (set_synchronized d false) (pending_offset_ d)
        (pending_size_ d) (add_sync_loss (counts d))) buf 1) as [HW' HA];
        [by destruct HW; split|simpl; lia|]. by simpl; rewrite HA. }
  unfold packet_of.
  assert (byte_at (q_bytes (abs d buf)) 0 = byte_at buf (pending_offset_ d)) as ->.
  { simpl. rewrite byte_at_window by (try apply HW; lia). f_equal. lia. }
  assert (ztake kPacketSize (q_bytes (abs d buf)) = ztake kPacketSize (zdrop (pending_offset_ d) buf))
    as -> by (apply ztake_window; done).
  assert (ztake (kPacketSize - 1) (zdrop 1 (q_bytes (abs d buf)))
          = ztake (kPacketSize - 1) (zdrop (pending_offset_ d + 1) buf)) as ->.
  { simpl. rewrite zdrop_window by (try apply HW; lia).
    rewrite ztake_window by (unfold kPacketSize; lia). done. }
  pose proof (fun c => abs_consume d buf c HW Hge) as HC.
  destruct (plain_ts_ d) eqn:Hp.
  { destruct (f w 0 _) as [[[]|e] w']; simpl; [|done].
    destruct (HC (add_emitted (counts d))). done. }
  destruct (_ || has_tei _).
  { simpl. destruct (HC (add_invalid (counts d))). done. }
  destruct (f w _ _) as [[[]|e] w']; simpl; [|done].
  destruct (HC (add_emitted (counts d))). done.
Qed.

Lemma iteration_refines {W} observer f d buf (w : W) :
  wf d buf ->
  outcome_rel d buf (iteration observer f buf d w)
    (q_iteration (max_tag_ d) (plain_ts_ d) observer f (abs d buf) w).
Proof.
  intros HW. unfold q_iteration. change (q_sync (abs d buf)) with (synchronized_ d).
  destruct (synchronized_ d) eqn:Hs; [by apply packet_refines|].
  pose proof (acquire_refines d buf HW Hs) as HA.
  assert (iteration observer f buf d w
    = let '(found, d1) := acquire_sync d buf in
      if found then iteration observer f buf (set_synchronized d1 true) w
      else Return (success tt) d1 w) as ->.
  { unfold iteration. rewrite Hs. destruct (acquire_sync d buf) as [[] d1]; done. }
  destruct (acquire_sync d buf) as [found d1]. destruct HA as (<- & HW' & Hm & Hp).
  destruct found; [|done]. rewrite <-Hm, <-Hp in *.
  pose proof (packet_refines observer f _ _ w HW' eq_refl) as HR.
  unfold outcome_rel in *. by rewrite Hm, Hp in *.
Qed.

Lemma drain_refines {W} observer f fuel d buf (w : W) :
  wf d buf ->
  match drain observer fuel f buf d w, q_drain (max_tag_ d) (plain_ts_ d) observer f fuel (abs d buf) w with
  | Some (r, d', w'), Some (r', q', w'') =>
      r = r' /\ w' = w'' /\ wf d' buf /\ abs d' buf = q' /\ max_tag_ d' = max_tag_ d /\
      plain_ts_ d' = plain_ts_ d
  | None, None => True
  | _, _ => False
  end.
Proof.
  revert d w. induction fuel as [|fuel IH]; intros d w HW; [done|]. simpl.
  pose proof (iteration_refines observer f d buf w HW) as HR.
  destruct (iteration _ _ _ _ _) as [d' w'|r d' w'], (q_iteration _ _ _ _ _ _) as [q' w''|r' q' w''];
    simpl in HR; try done.
  destruct HR as (<- & HW' & <- & Hm & Hp). specialize (IH d' w' HW'). by rewrite Hm, Hp in IH.
Qed.

(** ** The input copy *)

Lemma compact_ok d buf :
  wf d buf ->
  exists d' buf', compact_pending d buf = Some (d', buf') /\ wf d' buf' /\
    pending_offset_ d' = 0 /\ pending_size_ d' = pending_size_ d /\
    abs d' buf' = abs d buf /\ max_tag_ d' = max_tag_ d /\ plain_ts_ d' = plain_ts_ d.
Proof.
  intros HW. pose proof HW as []. unfold compact_pending.
  destruct (Z.eqb_spec (pending_offset_ d) 0) as [E|E]; [by eexists _, _|].
  unfold mem_load. rewrite !(proj2 (Z.leb_le _ _)) by lia. simpl.
  fold (window buf (pending_offset_ d) (pending_size_ d)).
  assert (zlen (window buf (pending_offset_ d) (pending_size_ d)) = pending_size_ d) as HL
    by (apply zlen_window; lia).
  destruct (Z.eqb_spec (pending_size_ d) 0) as [E0|E0].
  - simpl. eexists _, _. split; [done|]. split; [split; simpl; lia|].
    split_and!; try done. unfold abs. simpl. by rewrite E0, !window_nil.
  - rewrite mem_store_ok by lia. simpl. eexists _, _. split; [done|]. split; [split; simpl|].
    + rewrite <-wf_len0. apply (zlen_store buf _ 0); lia.
    + lia.
    + lia.
    + lia.
    + split_and!; try done. unfold abs. simpl. f_equal.
      set (bs := window buf (pending_offset_ d) (pending_size_ d)) in *.
      transitivity (window (ztake 0 buf ++ bs ++ zdrop (0 + zlen bs) buf) 0 (zlen bs));
        [by rewrite HL|apply window_store_at; lia].
Qed.

Lemma append_refines d buf input :
  wf d buf -> zlen input <= kPendingCapacity - pending_size_ d ->
  exists d1 buf1, append_input d buf input = Some (d1, buf1) /\ wf d1 buf1 /\
    abs d1 buf1 = mkQueue (q_bytes (abs d buf) ++ input) (synchronized_ d)
      (if zlen input =? 0 then counts d else add_accepted (counts d) (zlen input)) /\
    max_tag_ d1 = max_tag_ d /\ plain_ts_ d1 = plain_ts_ d.
Proof.
  intros HW Hfit. unfold append_input. pose proof (zlen_nonneg input).
  destruct (Z.eqb_spec (zlen input) 0) as [E|E].
  { apply zlen_0 in E as ->. eexists _, _. split; [done|]. split; [done|].
    rewrite app_nil_r. done. }
  assert (exists d' buf', (if kPendingCapacity - pending_offset_ d - pending_size_ d <? zlen input
      then compact_pending d buf else Some (d, buf)) = Some (d', buf') /\ wf d' buf' /\
      pending_size_ d' = pending_size_ d /\ abs d' buf' = abs d buf /\
      max_tag_ d' = max_tag_ d /\ plain_ts_ d' = plain_ts_ d /\
      pending_offset_ d' + pending_size_ d + zlen input <= kPendingCapacity)
    as (d' & buf' & -> & HW' & Hsz & HA & Hm & Hp & Hroom).
  { destruct (Z.ltb_spec (kPendingCapacity - pending_offset_ d - pending_size_ d) (zlen input)).
    - destruct (compact_ok d buf HW) as (d' & buf' & -> & HW' & K0 & K1 & K2 & K3 & K4).
      exists d', buf'. split_and!; try done. lia.
    - exists d, buf. split_and!; try done. lia. }
  simpl. pose proof HW' as []. rewrite mem_store_ok by lia. simpl. eexists _, _. split; [done|].
  split; [split; simpl; rewrite ?zlen_store; lia|]. injection HA as HA1 HA2 HA3.
  split_and!; try done. unfold abs. simpl. rewrite HA2, HA3. f_equal.
  rewrite window_app by lia. f_equal.
  - rewrite window_store_before by lia. rewrite Hsz in *. by rewrite <-HA1.
  - apply window_store_at. lia.
Qed.

(** ** The loop ends *)

Section QueueFacts.
Context {W : Type}.
Variables (max_tag : Z) (plain : bool).
Variable observer : option (W -> Z -> W).
Variable f : W -> Z -> list Z -> Result unit * W.
Abbreviation q_iteration' := (q_iteration max_tag plain observer f).
Abbreviation q_packet' := (q_packet max_tag plain observer f).
Abbreviation q_drain' := (q_drain max_tag plain observer f).
Abbreviation q_push' := (q_push max_tag plain observer f).
Abbreviation q_acquire' := (q_acquire plain).

Lemma zlen_zdrop_lt (l : list Z) n : 0 < n -> 0 < zlen l -> zlen (zdrop n l) < zlen l.
Proof. intros. rewrite zlen_drop. lia. Qed.

Lemma q_packet_decreases q w q' w' :
  q_packet' q w = QContinue q' w' -> zlen (q_bytes q') < zlen (q_bytes q).
Proof.
  unfold q_packet. destruct (Z.ltb_spec (zlen (q_bytes q)) kPacketSize) as [?|Hge]; [done|].
  unfold kPacketSize in Hge. destruct (negb _).
  { intros [= <- <-]. apply zlen_zdrop_lt; lia. }
  destruct (packet_of _ _ _) as [[i p]|].
  - destruct (f w i p) as [[u|e] w1]; [|done]. intros [= <- <-].
    apply zlen_zdrop_lt; [done|lia].
  - intros [= <- <-]. apply zlen_zdrop_lt; [done|lia].
Qed.

Lemma q_acquire_length q : zlen (q_bytes (q_acquire' q).2) <= zlen (q_bytes q).
Proof.
  pose proof (zlen_nonneg (q_bytes q)). unfold q_acquire. destruct (_ <? _); [done|].
  destruct (find_sync _ _ _ _ _); simpl; rewrite zlen_drop; lia.
Qed.

Lemma q_iteration_decreases q w q' w' :
  q_iteration' q w = QContinue q' w' -> zlen (q_bytes q') < zlen (q_bytes q).
Proof.
  unfold q_iteration. pose proof (q_acquire_length q) as HL.
  destruct (q_sync q); [apply q_packet_decreases|].
  destruct (q_acquire' q) as [[] q1]; [|done]. intros H%q_packet_decreases. simpl in HL. lia.
Qed.

Lemma q_drain_total fuel q w :
  (length (q_bytes q) < fuel)%nat -> is_Some (q_drain' fuel q w).
Proof.
  revert q w. induction fuel as [|fuel IH]; intros q w Hf; [lia|]. simpl.
  destruct (q_iteration' q w) as [q' w'|r q' w'] eqn:E; [|eauto].
  apply q_iteration_decreases in E. apply IH. unfold zlen in E. lia.
Qed.

Lemma q_drain_mono fuel fuel' q w res :
  q_drain' fuel q w = Some res -> (fuel <= fuel')%nat -> q_drain' fuel' q w = Some res.
Proof.
  revert fuel' q w. induction fuel as [|fuel IH]; intros fuel' q w; [done|].
  destruct fuel' as [|fuel']; [lia|]. simpl. intros H Hle.
  destruct (q_iteration' q w); [|done]. apply IH; [done|lia].
Qed.

Lemma q_drain_det n m q w r1 r2 :
  q_drain' n q w = Some r1 -> q_drain' m q w = Some r2 -> r1 = r2.
Proof.
  intros H1 H2. apply (q_drain_mono _ (n + m)) in H1; [|lia].
  apply (q_drain_mono _ (n + m)) in H2; [|lia]. congruence.
Qed.

(** ** Chunks *)

(** More input behind the queue. *)
Definition q_more (q : Queue) (b : list Z) : Queue :=
  mkQueue (q_bytes q ++ b) (q_sync q) (q_counts q).

Lemma packet_of_more l b :
  kPacketSize <= zlen l -> packet_of max_tag plain (l ++ b) = packet_of max_tag plain l.
Proof.
  unfold kPacketSize. intros. unfold packet_of.
  rewrite byte_at_app_l, ztake_app_le, zdrop_app_le by (unfold kPacketSize; lia).
  rewrite ztake_app_le; [done|]. rewrite zlen_drop. unfold kPacketSize. lia.
Qed.

(** With a whole packet in the queue, what follows it does not matter. *)
Lemma q_packet_more q b w :
  kPacketSize <= zlen (q_bytes q) ->
  q_packet' (q_more q b) w
  = match q_packet' q w with
    | QContinue q' w' => QContinue (q_more q' b) w'
    | QReturn r q' w' => QReturn r (q_more q' b) w'
    end.
Proof.
  unfold kPacketSize. intros Hge. unfold q_packet. simpl.
  rewrite (proj2 (Z.ltb_ge (zlen (q_bytes q)) _)) by (unfold kPacketSize; lia).
  pose proof (zlen_nonneg b).
  rewrite (proj2 (Z.ltb_ge (zlen (q_bytes q ++ b)) _)) by (rewrite zlen_app; unfold kPacketSize; lia).
  rewrite byte_at_app_l by lia. destruct (negb _).
  { unfold q_more. simpl. rewrite zdrop_app_le by lia. done. }
  rewrite packet_of_more by done. unfold q_consume, q_more. simpl.
  rewrite zdrop_app_le by (unfold kPacketSize; lia).
  destruct (packet_of _ _ _) as [[i p]|]; [|done]. by destruct (f w i p) as [[u|e] w'].
Qed.

Lemma find_sync_app l b start n :
  0 <= start -> start + Z.of_nat n + sync_required - 1 <= zlen l ->
  find_sync plain (l ++ b) 0 start n = find_sync plain l 0 start n.
Proof.
  revert start. induction n as [|n IH]; intros start Hs Hfit; [done|]. simpl.
  rewrite !Z.add_0_l. assert (sync_at plain (l ++ b) start = sync_at plain l start) as ->.
  { unfold sync_at, sync_required, kSyncPacketCount, kPacketSize in *. cbn [forallb].
    rewrite !byte_at_app_l by lia. done. }
  rewrite IH by lia. done.
Qed.

Lemma find_sync_split l start n m :
  find_sync plain l 0 start (n + m)
  = match find_sync plain l 0 start n with
    | Some s => Some s
    | None => find_sync plain l 0 (start + Z.of_nat n) m
    end.
Proof.
  revert start. induction n as [|n IH]; intros start.
  - simpl. f_equal. lia.
  - simpl. destruct (sync_at _ _ _); [done|]. rewrite IH.
    destruct (find_sync _ _ _ _ n); [done|]. f_equal. lia.
Qed.

Lemma find_sync_shift l k start n :
  0 <= k -> 0 <= start ->
  find_sync plain l 0 (k + start) n = Z.add k <$> find_sync plain (zdrop k l) 0 start n.
Proof.
  revert start. induction n as [|n IH]; intros start Hk Hs; [done|]. simpl.
  rewrite !Z.add_0_l. assert (sync_at plain l (k + start) = sync_at plain (zdrop k l) start) as ->.
  { unfold sync_at, kPacketSize. cbn [forallb]. rewrite !byte_at_drop by lia.
    by rewrite !Z.add_assoc. }
  destruct (sync_at _ _ _); [done|]. rewrite <-Z.add_assoc. apply IH; lia.
Qed.

(** Discards compose. *)
Definition bump (c : Counters) (n : Z) : Counters :=
  if n =? 0 then c else add_discarded c n.

Lemma bump_bump c n m : 0 <= n -> 0 <= m -> bump (bump c n) m = bump c (n + m).
Proof.
  intros. unfold bump. destruct (Z.eqb_spec n 0) as [->|]; [done|].
  destruct (Z.eqb_spec m 0) as [->|]; [by rewrite Z.add_0_r, (proj2 (Z.eqb_neq n 0))|].
  destruct (Z.eqb_spec (n + m) 0); [lia|]. unfold add_discarded. simpl. f_equal.
  unfold cast_u64. rewrite Zplus_mod_idemp_l. f_equal. lia.
Qed.

Lemma q_acquire_found q q' b :
  q_acquire' q = (true, q') -> q_acquire' (q_more q b) = (true, q_more q' b).
Proof.
  unfold q_acquire. simpl. pose proof (zlen_nonneg b).
  destruct (Z.ltb_spec (zlen (q_bytes q)) sync_required) as [?|Hge]; [done|].
  rewrite zlen_app, (proj2 (Z.ltb_ge _ _)) by lia.
  replace (Z.to_nat (zlen (q_bytes q) + zlen b - sync_required + 1))
    with (Z.to_nat (zlen (q_bytes q) - sync_required + 1) + Z.to_nat (zlen b))%nat by lia.
  rewrite find_sync_split, find_sync_app by lia.
  destruct (find_sync plain (q_bytes q) _ _ _) as [s|] eqn:E; [|done].
  intros [= <-]. apply find_sync_range in E. unfold q_more. simpl.
  rewrite zdrop_app_le; [done|]. unfold sync_required, kSyncPacketCount, kPacketSize in *. lia.
Qed.

Lemma q_acquire_missing q q' b :
  q_acquire' q = (false, q') -> q_acquire' (q_more q b) = q_acquire' (q_more q' b).
Proof.
  unfold q_acquire at 1. pose proof (zlen_nonneg b). pose proof (zlen_nonneg (q_bytes q)).
  destruct (Z.ltb_spec (zlen (q_bytes q)) sync_required) as [?|Hge]; [congruence|].
  set (k := zlen (q_bytes q) - sync_required + 1).
  destruct (find_sync plain (q_bytes q) _ _ _) as [s|] eqn:E; [done|]. intros [= <-].
  assert (zlen (q_bytes q) - (sync_required - 1) = k) as -> by (unfold k; lia).
  assert (0 < k) as Hk by (unfold k; lia).
  assert (zdrop k (q_bytes q) ++ b = zdrop k (q_bytes q ++ b)) as HZ
    by (rewrite zdrop_app_le; [done|unfold k, sync_required, kSyncPacketCount, kPacketSize; lia]).
  unfold q_acquire, q_more, q_discard. simpl. rewrite HZ.
  assert (zlen (q_bytes q ++ b) = k + sync_required - 1 + zlen b) as HL1
    by (rewrite zlen_app; unfold k; lia).
  assert (zlen (zdrop k (q_bytes q ++ b)) = sync_required - 1 + zlen b) as HL2.
  { rewrite zlen_drop, HL1. unfold sync_required, kSyncPacketCount, kPacketSize in *. lia. }
  rewrite HL1, HL2, (proj2 (Z.ltb_ge _ _)) by lia.
  replace (Z.to_nat (k + sync_required - 1 + zlen b - sync_required + 1))
    with (Z.to_nat k + Z.to_nat (zlen b))%nat by lia.
  rewrite find_sync_split, find_sync_app, E by lia.
  replace (0 + Z.of_nat (Z.to_nat k)) with (k + 0) by lia. rewrite find_sync_shift by lia.
  fold (bump (q_counts q) k). destruct (Z.ltb_spec (sync_required - 1 + zlen b) sync_required).
  - replace (Z.to_nat (zlen b)) with 0%nat by lia. simpl.
    by replace (k + sync_required - 1 + zlen b - (sync_required - 1)) with k by lia.
  - replace (Z.to_nat (sync_required - 1 + zlen b - sync_required + 1))
      with (Z.to_nat (zlen b)) by lia.
    destruct (find_sync plain (zdrop k _) _ _ _) as [s|] eqn:E2; simpl.
    + apply find_sync_range in E2. rewrite zdrop_zdrop by lia.
      fold (bump (bump (q_counts q) k) s) (bump (q_counts q) (k + s)). by rewrite bump_bump by lia.
    + rewrite zdrop_zdrop by lia.
      set (n1 := sync_required - 1 + zlen b - (sync_required - 1)).
      set (n2 := k + sync_required - 1 + zlen b - (sync_required - 1)).
      fold (bump (bump (q_counts q) k) n1) (bump (q_counts q) n2).
      rewrite bump_bump by (unfold n1; lia). replace (k + n1) with n2 by (unfold n1, n2; lia). done.
Qed.

(** Draining what is there and then the rest is draining it all. *)
Lemma q_drain_more n m q b w q' w' res :
  q_drain' n q w = Some (success tt, q', w') -> q_drain' m (q_more q' b) w' = Some res ->
  exists k, q_drain' k (q_more q b) w = Some res.
Proof.
  intros H Hm. revert q w H. induction n as [|n IH]; intros q w; [done|]. simpl.
  destruct (q_iteration' q w) as [q1 w1|r q1 w1] eqn:E.
  - intros H. destruct (IH _ _ H) as [k Hk]. exists (S k). simpl.
    assert (q_iteration' (q_more q b) w = QContinue (q_more q1 b) w1) as ->; [|done].
    unfold q_iteration in *. simpl. destruct (q_sync q).
    + assert (kPacketSize <= zlen (q_bytes q)).
      { unfold q_packet in E. by destruct (Z.ltb_spec (zlen (q_bytes q)) kPacketSize). }
      rewrite q_packet_more by done. by rewrite E.
    + destruct (q_acquire' q) as [[] q2] eqn:EA; [|done].
      rewrite (q_acquire_found _ _ _ EA).
      assert (kPacketSize <= zlen (q_bytes q2)).
      { unfold q_packet in E. by destruct (Z.ltb_spec (zlen (q_bytes q2)) kPacketSize). }
      rewrite q_packet_more by done. by rewrite E.
  - intros [= -> -> ->]. destruct m as [|m]; [done|]. exists (S m). simpl in *.
    assert (q_iteration' (q_more q b) w = q_iteration' (q_more q' b) w') as ->; [|done].
    unfold q_iteration in *. simpl.
    assert (forall q0, q_packet' q0 w = QReturn (success tt) q' w' -> q0 = q' /\ w = w') as HP.
    { intros q0. unfold q_packet. destruct (_ <? _); [by intros [= -> ->]|]. destruct (negb _); [done|].
      destruct (packet_of _ _ _) as [[i p]|]; [|done]. by destruct (f w i p) as [[u|e] w2]. }
    destruct (q_sync q) eqn:Es.
    + destruct (HP _ E) as [<- <-]. by rewrite Es.
    + destruct (q_acquire' q) as [[] q2] eqn:EA.
      * destruct (HP _ E) as [<- <-]. rewrite (q_acquire_found _ _ _ EA).
        assert (q_sync q2 = true) as ->; [|done]. unfold q_acquire in EA.
        destruct (_ <? _); [done|]. destruct (find_sync _ _ _ _ _); [|done].
        by injection EA as <-.
      * injection E as <- <-. rewrite (q_acquire_missing _ _ b EA).
        assert (q_sync q2 = false) as ->; [|done]. unfold q_acquire in EA.
        destruct (_ <? _); [congruence|]. destruct (find_sync _ _ _ _ _); [done|].
        by injection EA as <-.
Qed.

(** The accepted-bytes counter does not influence the loop. *)
Definition accept_n (c : Counters) (n : Z) : Counters :=
  if n =? 0 then c else add_accepted c n.
Definition q_accept (q : Queue) (n : Z) : Queue :=
  mkQueue (q_bytes q) (q_sync q) (accept_n (q_counts q) n).

Lemma accept_accept q n m :
  0 <= n -> 0 <= m -> q_accept (q_accept q n) m = q_accept q (n + m).
Proof.
  intros. unfold q_accept, accept_n. simpl. f_equal. destruct (Z.eqb_spec n 0) as [->|]; [done|].
  destruct (Z.eqb_spec m 0) as [->|]; [by rewrite Z.add_0_r, (proj2 (Z.eqb_neq n 0))|].
  destruct (Z.eqb_spec (n + m) 0); [lia|]. unfold add_accepted. simpl. f_equal.
  unfold cast_u64. rewrite Zplus_mod_idemp_l. f_equal. lia.
Qed.

Lemma q_iteration_accept q n w :
  q_iteration' (q_accept q n) w
  = match q_iteration' q w with
    | QContinue q' w' => QContinue (q_accept q' n) w'
    | QReturn r q' w' => QReturn r (q_accept q' n) w'
    end.
Proof.
  assert (forall q, q_packet' (q_accept q n) w
    = match q_packet' q w with
      | QContinue q' w' => QContinue (q_accept q' n) w'
      | QReturn r q' w' => QReturn r (q_accept q' n) w'
      end) as HP.
  { intros q0. unfold q_packet, q_accept, accept_n. simpl.
    destruct (_ <? _); [done|]. destruct (negb _); [by destruct (n =? 0)|].
    destruct (packet_of _ _ _) as [[i p]|].
    - destruct (f w i p) as [[u|e] w']; by destruct (n =? 0).
    - by destruct (n =? 0). }
  unfold q_iteration. change (q_sync (q_accept q n)) with (q_sync q).
  destruct (q_sync q); [apply HP|].
  assert (q_acquire' (q_accept q n) = ((q_acquire' q).1, q_accept (q_acquire' q).2 n)) as ->.
  { unfold q_acquire, q_accept, accept_n, q_discard. simpl. destruct (_ <? _); [done|].
    destruct (find_sync _ _ _ _ _) as [s|]; simpl; destruct (n =? 0); try done;
      by destruct (_ =? 0). }
  destruct (q_acquire' q) as [[] q1]; simpl; [apply HP|done].
Qed.

Lemma q_drain_accept fuel q n w :
  q_drain' fuel (q_accept q n) w
  = match q_drain' fuel q w with
    | Some (r, q', w') => Some (r, q_accept q' n, w')
    | None => None
    end.
Proof.
  revert q w. induction fuel as [|fuel IH]; intros q w; [done|]. simpl.
  rewrite q_iteration_accept. destruct (q_iteration' q w); [apply IH|done].
Qed.

Lemma q_push_drain q input w :
  q_push' q input w
  = q_drain' (S (length (q_bytes (q_more q input)))) (q_accept (q_more q input) (zlen input)) w.
Proof. done. Qed.

Lemma q_push_nil q w : q_push' q [] w = q_drain' (S (length (q_bytes q))) q w.
Proof. destruct q as [bs sy c]. unfold q_push. simpl. by rewrite app_nil_r. Qed.

Lemma q_push_total q input w : is_Some (q_push' q input w).
Proof. rewrite q_push_drain. apply q_drain_total. simpl. lia. Qed.

Lemma q_push_chunks q a b w q1 w1 :
  q_push' q a w = Some (success tt, q1, w1) -> q_push' q (a ++ b) w = q_push' q1 b w1.
Proof.
  intros H. destruct (q_push_total q (a ++ b) w) as [res Hres].
  destruct (q_push_total q1 b w1) as [res' Hres']. rewrite Hres, Hres'. f_equal.
  rewrite q_push_drain, q_drain_accept in H, Hres.
  destruct (q_drain' _ (q_more q a) w) as [[[r q1'] w1']|] eqn:Ea; [|done].
  injection H as -> <- ->.
  rewrite q_push_drain, q_drain_accept in Hres'.
  change (q_more (q_accept q1' (zlen a)) b) with (q_accept (q_more q1' b) (zlen a)) in Hres'.
  rewrite q_drain_accept in Hres'.
  destruct (q_drain' _ (q_more q1' b) w1) as [[[r2 q2] w2]|] eqn:Eb; [|done].
  destruct (q_drain_more _ _ _ _ _ _ _ _ Ea Eb) as [k Hk].
  assert (q_more (q_more q a) b = q_more q (a ++ b)) as Hq
    by (unfold q_more; simpl; by rewrite app_assoc).
  rewrite Hq in Hk.
  destruct (q_drain' _ (q_more q (a ++ b)) w) as [[[r3 q3] w3]|] eqn:Eab; [|done].
  pose proof (q_drain_det _ _ _ _ _ _ Hk Eab) as [= -> -> ->].
  injection Hres as <-. injection Hres' as <-. f_equal. f_equal.
  rewrite accept_accept, zlen_app by apply zlen_nonneg. done.
Qed.

(** ** Invariants of the loop *)

(** Modulo 2^64 (the counters' width) every accepted byte was delivered in a
    packet, dropped with an invalid one, discarded, or is still buffered. *)
Definition balanced (q : Queue) : Prop :=
  exists k, input_bytes_accepted_ (q_counts q)
    = kPacketSize * (emitted_packets_ (q_counts q) + invalid_tag_packets_ (q_counts q))
      + discarded_sync_search_bytes_ (q_counts q) + zlen (q_bytes q) + k * 2 ^ 64.

Lemma cast_u64_shift z : exists k, cast_u64 z = z + k * 2 ^ 64.
Proof.
  exists (- (z / 2 ^ 64)). unfold cast_u64. pose proof (Z.div_mod z (2 ^ 64)). lia.
Qed.

Ltac balance :=
  repeat match goal with
  | |- context [cast_u64 ?z] =>
      let k := fresh "k" in let E := fresh in
      destruct (cast_u64_shift z) as [k E]; rewrite E; clear E
  end.

Lemma bump_balanced bs s c n b :
  0 <= n <= zlen bs -> balanced (mkQueue bs s c) -> balanced (mkQueue (zdrop n bs) b (bump c n)).
Proof.
  intros Hn [k Hk]. unfold balanced, bump in *. simpl in *. rewrite zlen_drop.
  destruct (Z.eqb_spec n 0) as [->|]; simpl; [exists k; lia|].
  destruct (cast_u64_shift (discarded_sync_search_bytes_ c + n)) as [k1 ->].
  exists (k - k1). lia.
Qed.

Lemma q_packet_balanced q w :
  balanced q ->
  match q_packet' q w with QContinue q' _ => balanced q' | QReturn _ q' _ => balanced q' end.
Proof.
  intros HB. unfold q_packet.
  destruct (Z.ltb_spec (zlen (q_bytes q)) kPacketSize) as [?|Hge]; [done|].
  unfold kPacketSize in Hge.
  destruct (negb _).
  { destruct HB as [k Hk]. unfold balanced. simpl. rewrite zlen_drop.
    destruct (cast_u64_shift (discarded_sync_search_bytes_ (q_counts q) + 1)) as [k1 ->].
    exists (k - k1). lia. }
  unfold balanced, kPacketSize in *. destruct HB as [k Hk].
  destruct (packet_of _ _ _) as [[i p]|].
  - destruct (f w i p) as [[u|e] w']; simpl; [|by exists k]. rewrite zlen_drop.
    destruct (cast_u64_shift (emitted_packets_ (q_counts q) + 1)) as [k1 ->].
    exists (k - 188 * k1). unfold kPacketSize. lia.
  - simpl. rewrite zlen_drop.
    destruct (cast_u64_shift (invalid_tag_packets_ (q_counts q) + 1)) as [k1 ->].
    exists (k - 188 * k1). unfold kPacketSize. lia.
Qed.

Lemma q_acquire_balanced q : balanced q -> balanced (q_acquire' q).2.
Proof.
  intros HB. unfold q_acquire. destruct (Z.ltb_spec (zlen (q_bytes q)) sync_required); [done|].
  destruct (find_sync _ _ _ _ _) as [s|] eqn:E; simpl.
  - apply find_sync_range in E. unfold sync_required, kSyncPacketCount, kPacketSize in *.
    destruct q as [bs sy c]. apply (bump_balanced _ sy _ s); [simpl in *; lia|exact HB].
  - unfold sync_required, kSyncPacketCount, kPacketSize in *. destruct q as [bs sy c].
    apply (bump_balanced _ sy _ _); [simpl in *; lia|exact HB].
Qed.

(** Nothing more to deliver: fewer bytes than a sync search needs. *)
Definition settled (q : Queue) : Prop := zlen (q_bytes q) < sync_required.

Lemma q_drain_balanced fuel q w r q' w' :
  balanced q -> q_drain' fuel q w = Some (r, q', w') -> balanced q'.
Proof.
  revert q w. induction fuel as [|fuel IH]; intros q w HB; [done|]. simpl.
  assert (match q_iteration' q w with
          | QContinue q' _ => balanced q' | QReturn _ q' _ => balanced q' end) as HI.
  { unfold q_iteration. destruct (q_sync q); [by apply q_packet_balanced|].
    pose proof (q_acquire_balanced q HB) as HA. destruct (q_acquire' q) as [[] q1]; [|done].
    by apply q_packet_balanced. }
  destruct (q_iteration' q w) as [q1 w1|r1 q1 w1]; [by apply IH|]. by intros [= _ <- _].
Qed.

Lemma q_push_balanced q input w r q' w' :
  balanced q -> q_push' q input w = Some (r, q', w') -> balanced q'.
Proof.
  intros [k Hk] Q. rewrite q_push_drain in Q. eapply q_drain_balanced in Q; [done|].
  unfold balanced, q_accept, q_more, accept_n. simpl. rewrite zlen_app.
  destruct (Z.eqb_spec (zlen input) 0) as [E0|E0]; simpl; [exists k; lia|].
  destruct (cast_u64_shift (input_bytes_accepted_ (q_counts q) + zlen input)) as [k1 ->].
  exists (k + k1). lia.
Qed.

Lemma q_acquire_settled q q1 : q_acquire' q = (false, q1) -> settled q1.
Proof.
  unfold settled, q_acquire. destruct (Z.ltb_spec (zlen (q_bytes q)) sync_required) as [?|Hge].
  { by intros [= <-]. }
  destruct (find_sync _ _ _ _ _); [done|]. intros [= <-]. simpl.
  rewrite zlen_drop. unfold sync_required, kSyncPacketCount, kPacketSize in *. lia.
Qed.

Lemma q_packet_settled q w q1 w1 : q_packet' q w = QReturn (success tt) q1 w1 -> settled q1.
Proof.
  unfold q_packet, settled. destruct (Z.ltb_spec (zlen (q_bytes q)) kPacketSize) as [?|?].
  - intros [= <- _]. unfold sync_required, kSyncPacketCount, kPacketSize in *. lia.
  - destruct (negb _); [done|]. destruct (packet_of _ _ _) as [[i p]|]; [|done].
    by destruct (f w i p) as [[u|e] w2].
Qed.

Lemma q_drain_settled fuel q w q' w' :
  q_drain' fuel q w = Some (success tt, q', w') -> settled q'.
Proof.
  revert q w. induction fuel as [|fuel IH]; intros q w; [done|]. simpl.
  destruct (q_iteration' q w) as [q1 w1|r1 q1 w1] eqn:E; [apply IH|].
  intros [= -> -> ->]. unfold q_iteration in E.
  destruct (q_sync q); [by apply q_packet_settled in E|].
  destruct (q_acquire' q) as [[] q2] eqn:EA; [by apply q_packet_settled in E|].
  injection E as <- _. by apply q_acquire_settled in EA.
Qed.

(** A refused packet stays at the head of the queue. *)
Lemma q_drain_refused fuel q w e q' w' :
  q_drain' fuel q w = Some (failure e, q', w') ->
  exists i p w0, packet_of max_tag plain (q_bytes q') = Some (i, p) /\ f w0 i p = (failure e, w') /\
    kPacketSize <= zlen (q_bytes q') /\ q_sync q' = true /\
    is_packet_boundary plain (byte_at (q_bytes q') 0) = true.
Proof.
  revert q w. induction fuel as [|fuel IH]; intros q w; [done|]. simpl.
  destruct (q_iteration' q w) as [q1 w1|r1 q1 w1] eqn:E; [apply IH|].
  intros [= -> -> ->].
  assert (forall q0, q_sync q0 = true -> q_packet' q0 w = QReturn (failure e) q' w' ->
    exists i p w0, packet_of max_tag plain (q_bytes q') = Some (i, p) /\ f w0 i p = (failure e, w') /\
      kPacketSize <= zlen (q_bytes q') /\ q_sync q' = true /\
      is_packet_boundary plain (byte_at (q_bytes q') 0) = true) as HP.
  { intros q0 Hs. unfold q_packet.
    destruct (Z.ltb_spec (zlen (q_bytes q0)) kPacketSize); [done|].
    destruct (is_packet_boundary plain (byte_at (q_bytes q0) 0)) eqn:Hb; [|done]. cbn [negb].
    destruct (packet_of max_tag plain (q_bytes q0)) as [[i p]|] eqn:Ep; [|done].
    destruct (f w i p) as [[u|e'] w2] eqn:Ef; [done|]. intros [= <- <- <-].
    by exists i, p, w. }
  unfold q_iteration in E. destruct (q_sync q) eqn:Hs; [by apply (HP q)|].
  destruct (q_acquire' q) as [[] q2] eqn:EA; [|done]. apply (HP q2); [|done].
  unfold q_acquire in EA. destruct (_ <? _); [done|].
  destruct (find_sync _ _ _ _ _); [|done]. by injection EA as <-.
Qed.
End QueueFacts.

(** ** The packets the sink sees *)

(** What [push] promises about every call of the sink. *)
Definition sink_call_ok (max_tag : Z) (i : Z) (p : list Z) : Prop :=
  0 <= i < max_tag /\ zlen p = kPacketSize /\ byte_at p 0 = 0x47.

Definition same_on {W} (P : Z -> list Z -> Prop) (f g : W -> Z -> list Z -> Result unit * W) : Prop :=
  forall w i p, P i p -> f w i p = g w i p.

Lemma wire_tag_range b : 0 <= wire_tag b <= 7.
Proof.
  unfold wire_tag, cast_u8. pose proof (land_range (Z.shiftr b 4) 3 ltac:(lia)).
  change (2 ^ 3 - 1) with 7 in *. change (2 ^ 3) with 8 in *. rewrite Z.mod_small; lia.
Qed.

Lemma packet_of_ok max_tag plain bs i p :
  kPacketSize <= zlen bs -> is_packet_boundary plain (byte_at bs 0) = true -> 1 <= max_tag ->
  packet_of max_tag plain bs = Some (i, p) -> sink_call_ok max_tag i p.
Proof.
  unfold kPacketSize. intros Hge Hb Hm. unfold packet_of, sink_call_ok.
  destruct plain; simpl in Hb.
  - intros [= <- <-]. apply Z.eqb_eq in Hb. split_and!; [lia|lia| |].
    + rewrite zlen_take. unfold kPacketSize. lia.
    + rewrite byte_at_take by (unfold kPacketSize; lia). done.
  - pose proof (wire_tag_range (byte_at bs 0)).
    destruct ((wire_tag _ =? 0) || _ || _) eqn:E; [done|]. intros [= <- <-]. bool_hyps.
    split_and!; [lia|lia| |done].
    rewrite zlen_cons, zlen_take, zlen_drop. unfold kPacketSize. lia.
Qed.

Lemma q_packet_same {W} max_tag plain observer (f g : W -> Z -> list Z -> Result unit * W) q w :
  1 <= max_tag -> same_on (sink_call_ok max_tag) f g ->
  q_packet max_tag plain observer f q w = q_packet max_tag plain observer g q w.
Proof.
  intros Hm Hfg. unfold q_packet.
  destruct (Z.ltb_spec (zlen (q_bytes q)) kPacketSize); [done|].
  destruct (is_packet_boundary _ _) eqn:Hb; [|done]. cbn [negb].
  destruct (packet_of _ _ _) as [[i p]|] eqn:Ep; [|done]. rewrite Hfg; [done|].
  by eapply packet_of_ok.
Qed.

Lemma q_drain_same {W} max_tag plain observer (f g : W -> Z -> list Z -> Result unit * W) fuel q w :
  1 <= max_tag -> same_on (sink_call_ok max_tag) f g ->
  q_drain max_tag plain observer f fuel q w = q_drain max_tag plain observer g fuel q w.
Proof.
  intros Hm Hfg. revert q w. induction fuel as [|fuel IH]; intros q w; [done|]. simpl.
  assert (q_iteration max_tag plain observer f q w = q_iteration max_tag plain observer g q w) as ->.
  { unfold q_iteration. destruct (if q_sync q then _ else _) as [[] q1]; [|done].
    by apply q_packet_same. }
  by destruct (q_iteration _ _ _ g q w).
Qed.

(** * Properties *)

(** A demultiplexer whose buffer was allocated and whose window is inside it. *)
Definition demux_ok (d : TaggedTsDemux) : Prop := exists buf, pending_ d = Some buf /\ wf d buf.

(** The queue the buffer stands for. *)
Definition queue_of (d : TaggedTsDemux) : Queue := abs d (default [] (pending_ d)).

(** The first two checks of [push] pass. *)
Definition accepts (d : TaggedTsDemux) (input : list Z) : Prop :=
  zlen input <= kMaxStreamTransfer /\
  zlen input <= kPendingCapacity - zlen (q_bytes (queue_of d)).

Lemma push_queue {W} observer f d input (w : W) :
  demux_ok d -> accepts d input ->
  exists r d' w', push (Some f) observer d (View input) w = Some (r, d', w') /\ demux_ok d' /\
    q_push (max_tag_ d) (plain_ts_ d) observer f (queue_of d) input w = Some (r, queue_of d', w') /\
    max_tag_ d' = max_tag_ d /\ plain_ts_ d' = plain_ts_ d.
Proof.
  intros (buf & Hb & HW) [Hlen Hfit]. unfold push, queue_of in *. rewrite Hb in *. simpl in Hfit.
  pose proof HW as []. rewrite zlen_window in Hfit by lia. cbn [view_size view_bytes orb default].
  rewrite (proj2 (Z.ltb_ge _ _)) by lia. rewrite (proj2 (Z.ltb_ge kPendingCapacity _)) by lia.
  rewrite (proj2 (Z.ltb_ge _ (zlen input))) by lia. cbn [orb].
  destruct (append_refines d buf input HW Hfit) as (d1 & buf1 & -> & HW1 & HA & Hm & Hp).
  cbn [mbind option_bind].
  pose proof (drain_refines observer f (S (Z.to_nat (pending_size_ d1))) d1 buf1 w HW1) as HR.
  pose proof (wf_qlen d1 buf1 HW1) as HL. rewrite HA in HR. rewrite Hm, Hp in HR.
  assert (S (Z.to_nat (pending_size_ d1)) = S (length (q_bytes (abs d buf) ++ input))) as Hfuel.
  { rewrite HA in HL. simpl in HL. unfold zlen in HL. simpl. f_equal. lia. }
  rewrite Hfuel in *. unfold q_push. cbn [q_bytes q_sync q_counts abs] in *.
  destruct (q_drain_total (max_tag_ d) (plain_ts_ d) observer f
    (S (length (window buf (pending_offset_ d) (pending_size_ d) ++ input)))
    (mkQueue (window buf (pending_offset_ d) (pending_size_ d) ++ input) (synchronized_ d)
      (if zlen input =? 0 then counts d else add_accepted (counts d) (zlen input))) w)
    as [[[r' q'] w''] Hq]; [simpl; lia|].
  rewrite Hq in *. destruct (drain _ _ _ _ _ _) as [[[r d2] w2]|]; [|done].
  destruct HR as (<- & <- & HW2 & <- & Hm2 & Hp2). eexists _, _, _. split; [done|].
  split; [|by simpl; rewrite Hm2, Hp2]. exists buf1. split; [done|]. by destruct HW2.
Qed.

(** C9 Memory safety, termination and refinement: from an allocated, well-formed
    demultiplexer, [push] of an input it has room for never stores or loads
    outside [pending_], ends, keeps the window inside the buffer, and does
    what the queue does: same sink and observer calls, same result, same
    counters. *)
Theorem push_refines_queue {W} observer f d input (w : W) :
  demux_ok d -> accepts d input ->
  exists r d' w', push (Some f) observer d (View input) w = Some (r, d', w') /\ demux_ok d' /\
    q_push (max_tag_ d) (plain_ts_ d) observer f (queue_of d) input w = Some (r, queue_of d', w').
Proof.
  intros H1 H2. destruct (push_queue observer f d input w H1 H2) as (r&d'&w'&?&?&?&_).
  by exists r, d', w'.
Qed.

(** C13 The packets delivered do not depend on how the stream is cut: pushing
    [a] and then [b] leaves the same caller state, result and queue (bytes,
    synchronisation and all counters) as pushing [a ++ b]. *)
Theorem push_chunks {W} observer f d a b (w : W) d1 w1 r2 d2 w2 :
  demux_ok d -> accepts d (a ++ b) -> accepts d1 b ->
  push (Some f) observer d (View a) w = Some (success tt, d1, w1) ->
  push (Some f) observer d1 (View b) w1 = Some (r2, d2, w2) ->
  exists d', push (Some f) observer d (View (a ++ b)) w = Some (r2, d', w2) /\
    queue_of d' = queue_of d2.
Proof.
  intros HD HA HA1 H1 H2. pose proof (zlen_nonneg b).
  assert (accepts d a) as HAa by (unfold accepts in *; rewrite zlen_app in HA; lia).
  destruct (push_queue observer f d a w HD HAa) as (r&d'&w'&E&HD'&Q1&Hm&Hp).
  rewrite H1 in E. injection E as <- <- <-.
  destruct (push_queue observer f d1 b w1 HD' HA1) as (r'&d''&w''&E&HD''&Q2&_).
  rewrite H2 in E. injection E as <- <- <-. rewrite Hm, Hp in Q2.
  destruct (push_queue observer f d (a ++ b) w HD HA) as (r3&d3&w3&E&_&Q3&_).
  rewrite (q_push_chunks _ _ _ _ _ _ _ _ _ _ Q1), Q2 in Q3.
  exists d3. rewrite E. split; congruence.
Qed.

(** Conservation: modulo the counters' 64 bits, the accepted bytes are 188
    times the emitted and the invalid packets, plus the discarded bytes, plus
    the buffered bytes, after every push (a failed one included). *)
Theorem push_conserves_bytes {W} observer f d input (w : W) r d' w' :
  demux_ok d -> accepts d input -> balanced (queue_of d) ->
  push (Some f) observer d (View input) w = Some (r, d', w') -> balanced (queue_of d').
Proof.
  intros HD HA HB H. destruct (push_queue observer f d input w HD HA) as (r1&d1&w1&E&_&Q&_).
  rewrite H in E. injection E as <- <- <-. by eapply q_push_balanced.
Qed.

(** A consumer that keeps up is never told SLOW_CONSUMER: after a successful
    push fewer than four packets are pending, so the next input of any legal
    size is accepted. *)
Theorem push_success_accepts_next {W} observer f d input (w : W) d' w' next :
  demux_ok d -> accepts d input ->
  push (Some f) observer d (View input) w = Some (success tt, d', w') ->
  zlen next <= kMaxStreamTransfer ->
  demux_ok d' /\ zlen (q_bytes (queue_of d')) < 4 * kPacketSize /\ accepts d' next.
Proof.
  intros HD HA H Hn. destruct (push_queue observer f d input w HD HA) as (r1&d1&w1&E&HD'&Q&_).
  rewrite H in E. injection E as <- <- <-. unfold q_push in Q.
  assert (zlen (q_bytes (queue_of d')) < sync_required) as HS.
  { by apply q_drain_settled in Q. }
  unfold accepts, sync_required, kSyncPacketCount, kPendingCapacity in *. split; [done|].
  unfold sync_required, kSyncPacketCount, kPacketSize in *. lia.
Qed.

(** A refused packet is not lost: when [push] returns the sink's error, the
    packet it refused (for receiver [i]) is still pending, and the next push
    with no input offers exactly that packet first to whatever sink it is
    given; if that one refuses too, nothing has changed. *)
Theorem push_retries_refused {W} observer f d input (w : W) e d' w' :
  demux_ok d -> accepts d input ->
  push (Some f) observer d (View input) w = Some (failure e, d', w') ->
  exists i p w0, f w0 i p = (failure e, w') /\
    forall f2 w2 e2 w3, f2 w2 i p = (failure e2, w3) ->
      exists d2, push (Some f2) observer d' (View []) w2 = Some (failure e2, d2, w3) /\
        queue_of d2 = queue_of d'.
Proof.
  intros HD HA H. destruct (push_queue observer f d input w HD HA) as (r1&d1&w1&E&HD'&Q&Hm&Hp).
  rewrite H in E. injection E as <- <- <-.
  apply q_drain_refused in Q as (i & p & w0 & Hpk & Hf & Hlen & Hs & Hb).
  exists i, p, w0. split; [done|]. intros f2 w2 e2 w3 Hf2.
  assert (accepts d' []) as HA'.
  { destruct HD' as (buf & Hbuf & HW). unfold accepts, queue_of. rewrite Hbuf. simpl.
    pose proof HW as []. rewrite zlen_window by lia.
    unfold kMaxStreamTransfer, zlen. simpl. lia. }
  destruct (push_queue observer f2 d' [] w2 HD' HA') as (r2&d2&w2'&E&_&Q2&_).
  rewrite q_push_nil, Hm, Hp in Q2. revert Hpk Hlen Hs Hb Q2.
  generalize (queue_of d'). intros q' Hpk Hlen Hs Hb Q2. cbn [q_drain] in Q2.
  assert (q_iteration (max_tag_ d) (plain_ts_ d) observer f2 q' w2
    = QReturn (failure e2) q' w3) as HI.
  { unfold q_iteration. rewrite Hs. unfold q_packet.
    rewrite (proj2 (Z.ltb_ge _ _)) by done. rewrite Hb. cbn [negb]. by rewrite Hpk, Hf2. }
  rewrite HI in Q2. injection Q2 as <- Hq <-. by exists d2.
Qed.

(** Every packet offered to the sink has 188 bytes, starts with 0x47 and
    goes to a receiver below [max_tag_]: two sinks that agree on those calls
    cannot be told apart by [push]. *)
Theorem push_sink_calls_ok {W} observer f g d input (w : W) :
  demux_ok d -> accepts d input -> 1 <= max_tag_ d ->
  same_on (sink_call_ok (max_tag_ d)) f g ->
  exists r d1 d2 w', push (Some f) observer d (View input) w = Some (r, d1, w') /\
    push (Some g) observer d (View input) w = Some (r, d2, w') /\ queue_of d1 = queue_of d2.
Proof.
  intros HD HA Hm Hfg. destruct (push_queue observer f d input w HD HA) as (r1&d1&w1&E1&_&Q1&_).
  destruct (push_queue observer g d input w HD HA) as (r2&d2&w2&E2&_&Q2&_).
  unfold q_push in *. rewrite (q_drain_same _ _ _ f g) in Q1 by done. rewrite Q1 in Q2.
  exists r1, d1, d2, w1. rewrite E1, E2. split_and!; congruence.
Qed.

(** The input checks of [push]: a null sink, a null non-empty input and an
    oversized input are INVALID_ARGUMENT, a failed allocation is INTERNAL,
    an input without room is SLOW_CONSUMER; none of them changes anything. *)
Theorem push_rejections {W} (sink : option (W -> Z -> list Z -> Result unit * W)) observer d
    input (w : W) :
  (sink = None \/ (exists n, input = NullView n /\ n <> 0) \/ kMaxStreamTransfer < view_size input ->
   push sink observer d input w = Some (failure INVALID_ARGUMENT, d, w)) /\
  (is_Some sink -> (forall n, input = NullView n -> n = 0) -> view_size input <= kMaxStreamTransfer ->
   (pending_ d = None -> push sink observer d input w = Some (failure INTERNAL, d, w)) /\
   (is_Some (pending_ d) -> kPendingCapacity < pending_size_ d + view_size input ->
    0 <= view_size input ->
    push sink observer d input w = Some (failure SLOW_CONSUMER, d, w))).
Proof.
  split.
  - intros [->|[(n & -> & Hn)|Hn]]; [done| |]; unfold push; destruct sink as [f|]; try done.
    + by rewrite (proj2 (Z.eqb_neq n 0)).
    + rewrite (proj2 (Z.ltb_lt _ _) Hn). by rewrite orb_true_r.
  - intros [f ->] Hnull Hsz. unfold push.
    assert ((match input with NullView n => negb (n =? 0) | View _ => false end) = false) as ->.
    { destruct input as [n|]; [|done]. by rewrite (Hnull n eq_refl). }
    rewrite (proj2 (Z.ltb_ge _ _)) by done. simpl. split; [by intros ->|].
    intros [buf ->] Hfull H0.
    destruct (Z.ltb_spec kPendingCapacity (pending_size_ d)); [done|].
    rewrite (proj2 (Z.ltb_lt _ _)) by lia. done.
Qed.

(** * Witnesses *)

(** A new Q3U4 demultiplexer, and a stream of six tagged packets: tags 1 to 4,
    one with the transport-error bit, and tag 1 again. *)
Definition fresh : TaggedTsDemux :=
  make_demux 4 false (Some (replicate (Z.to_nat kPendingCapacity) 0)).

Definition wire_packet (sync fill : Z) : list Z := sync :: replicate 187 fill.
Definition sample_stream : list Z :=
  wire_packet 0x17 1 ++ wire_packet 0x27 2 ++ wire_packet 0x37 3 ++ wire_packet 0x47 4
  ++ wire_packet 0x97 5 ++ wire_packet 0x17 6.

Definition log_sink (w : list (Z * Z)) (i : Z) (p : list Z) : Result unit * list (Z * Z) :=
  (success tt, w ++ [(i, byte_at p 1)]).
Definition full_sink (w : list (Z * Z)) (i : Z) (p : list Z) : Result unit * list (Z * Z) :=
  if i =? 2 then (failure SLOW_CONSUMER, w) else (success tt, w ++ [(i, byte_at p 1)]).

Lemma capacity_value : kPendingCapacity = 1049328.
Proof. done. Qed.

Lemma fresh_ok : demux_ok fresh.
Proof.
  pose proof capacity_value. eexists. split; [reflexivity|].
  split; unfold fresh, make_demux; cbn [pending_offset_ pending_size_]; [|lia..].
  unfold zlen. rewrite length_replicate. lia.
Qed.

Lemma fresh_queue : queue_of fresh = mkQueue [] false zero_counters.
Proof. done. Qed.

Lemma fresh_accepts input : zlen input <= kMaxStreamTransfer -> accepts fresh input.
Proof.
  intros. unfold accepts. rewrite fresh_queue. pose proof capacity_value.
  unfold kMaxStreamTransfer, zlen in *. simpl. lia.
Qed.

(** Runs [fresh] through its queue. *)
Lemma fresh_push f input (w : list (Z * Z)) r q' w' :
  zlen input <= kMaxStreamTransfer ->
  q_push 4 false None f (mkQueue [] false zero_counters) input w = Some (r, q', w') ->
  exists d', push (Some f) None fresh (View input) w = Some (r, d', w') /\ demux_ok d' /\
    queue_of d' = q'.
Proof.
  intros Hl HQ. destruct (push_queue None f fresh input w fresh_ok (fresh_accepts _ Hl))
    as (r1 & d1 & w1 & E & HD & Q & _).
  rewrite fresh_queue in Q. change (max_tag_ fresh) with 4 in Q.
  change (plain_ts_ fresh) with false in Q. rewrite HQ in Q. injection Q as -> -> ->. by exists d1.
Qed.

Lemma small_accepts d q input :
  queue_of d = q -> zlen input <= kMaxStreamTransfer ->
  zlen input <= kPendingCapacity - zlen (q_bytes q) -> accepts d input.
Proof. by intros <-. Qed.

Lemma push_refines_queue_witness :
  exists r d' w', push (Some log_sink) None fresh (View sample_stream) [] = Some (r, d', w') /\
    demux_ok d' /\
    q_push 4 false None log_sink (queue_of fresh) sample_stream [] = Some (r, queue_of d', w').
Proof.
  apply (push_refines_queue None log_sink fresh sample_stream []).
  - apply fresh_ok.
  - apply fresh_accepts. vm_compute. discriminate.
Defined.

Lemma push_chunks_witness :
  exists d', push (Some log_sink) None fresh
      (View (ztake 500 sample_stream ++ zdrop 500 sample_stream)) []
    = Some (success tt, d', [(0, 1); (1, 2); (2, 3); (3, 4); (0, 6)]).
Proof.
  edestruct (fresh_push log_sink (ztake 500 sample_stream) []) as (d1 & H1 & HD1 & HQ1);
    [vm_compute; discriminate|vm_compute; reflexivity|].
  assert (accepts d1 (zdrop 500 sample_stream)) as HA1
    by (apply (small_accepts _ _ _ HQ1); vm_compute; discriminate).
  destruct (push_queue None log_sink d1 (zdrop 500 sample_stream) [] HD1 HA1)
    as (r2 & d2 & w2 & H2 & _ & Q2 & _).
  assert (accepts fresh (ztake 500 sample_stream ++ zdrop 500 sample_stream)) as HA
    by (apply fresh_accepts; vm_compute; discriminate).
  destruct (push_chunks None log_sink fresh (ztake 500 sample_stream) (zdrop 500 sample_stream)
    [] d1 _ r2 d2 w2 fresh_ok HA HA1 H1 H2) as (d' & Hd' & _).
  edestruct (fresh_push log_sink (ztake 500 sample_stream ++ zdrop 500 sample_stream) [])
    as (d3 & H3 & _); [vm_compute; discriminate|vm_compute; reflexivity|].
  exists d'. rewrite Hd'. rewrite Hd' in H3. injection H3 as -> _ ->. reflexivity.
Defined.

Lemma push_conserves_bytes_witness :
  exists d', push (Some full_sink) None fresh (View sample_stream) []
      = Some (failure SLOW_CONSUMER, d', [(0, 1); (1, 2)]) /\ balanced (queue_of d').
Proof.
  edestruct (fresh_push full_sink sample_stream []) as (d' & H & _);
    [vm_compute; discriminate|vm_compute; reflexivity|].
  exists d'. split; [exact H|].
  apply (push_conserves_bytes None full_sink fresh sample_stream [] (failure SLOW_CONSUMER) d'
    [(0, 1); (1, 2)] fresh_ok).
  - apply fresh_accepts. vm_compute. discriminate.
  - rewrite fresh_queue. exists 0. reflexivity.
  - exact H.
Defined.

Lemma push_success_accepts_next_witness :
  exists d', push (Some log_sink) None fresh (View sample_stream) []
      = Some (success tt, d', [(0, 1); (1, 2); (2, 3); (3, 4); (0, 6)]) /\
    accepts d' (replicate 1000 0).
Proof.
  edestruct (fresh_push log_sink sample_stream []) as (d' & H & _);
    [vm_compute; discriminate|vm_compute; reflexivity|].
  exists d'. split; [exact H|].
  assert (accepts fresh sample_stream) as HA by (apply fresh_accepts; vm_compute; discriminate).
  apply (push_success_accepts_next None log_sink fresh sample_stream [] d' _ _ fresh_ok HA H).
  vm_compute. discriminate.
Defined.

Lemma push_retries_refused_witness :
  exists d' i p, push (Some full_sink) None fresh (View sample_stream) []
      = Some (failure SLOW_CONSUMER, d', [(0, 1); (1, 2)]) /\
    exists d2, push (Some (fun w j r => (failure BUSY, w ++ [(j, byte_at r 1)]))) None d' (View [])
        [] = Some (failure BUSY, d2, [(i, byte_at p 1)]).
Proof.
  edestruct (fresh_push full_sink sample_stream []) as (d' & H & _);
    [vm_compute; discriminate|vm_compute; reflexivity|].
  assert (accepts fresh sample_stream) as HA by (apply fresh_accepts; vm_compute; discriminate).
  destruct (push_retries_refused None full_sink fresh sample_stream [] _ d' _ fresh_ok HA H)
    as (i & p & w0 & _ & HR).
  exists d', i, p. split; [exact H|].
  destruct (HR (fun w j r => (failure BUSY, w ++ [(j, byte_at r 1)])) [] BUSY _ eq_refl)
    as (d2 & H2 & _).
  exists d2. exact H2.
Defined.

Lemma push_sink_calls_ok_witness :
  exists r d1 d2 w', push (Some log_sink) None fresh (View sample_stream) [] = Some (r, d1, w') /\
    push (Some (fun w i p => if byte_at p 0 =? 0x47 then log_sink w i p else (failure INTERNAL, w)))
      None fresh (View sample_stream) [] = Some (r, d2, w') /\ queue_of d1 = queue_of d2.
Proof.
  apply (push_sink_calls_ok None log_sink _ fresh sample_stream [] fresh_ok).
  - apply fresh_accepts. vm_compute. discriminate.
  - vm_compute. discriminate.
  - intros w i p (_ & _ & Hp). rewrite Hp. reflexivity.
Defined.

Lemma push_rejections_witness :
  push (Some log_sink) None fresh (NullView 3) [] = Some (failure INVALID_ARGUMENT, fresh, []).
Proof.
  apply push_rejections. right. left. exists 3. split; [reflexivity|lia].
Defined.
