(* ===== verification/IpcTypes.v ===== *)
(** The IPC vocabulary ([include/px4/ipc.h]) and the value predicates of
    [src/ipc.cpp]: constants, enumerations with their raw values, payload
    structs, message classification and the UTF-8 validator with its
    correctness against the scalar values of the Unicode standard. *)

From S2P Require Import Prelude.

(** * Constants *)

Definition kFrameHeaderSize := 20.
Definition kProtocolMajor := 1.
Definition kProtocolMinor := 0.
Definition kMaxControlPayload := 65536.
Definition kMaxTsBytes := 1048576.
Definition kMaxTsDataPayload := 1048596.
Definition kMaxFrameSize := kFrameHeaderSize + kMaxTsDataPayload.
Definition kMaxCardPayload := 4096.
Definition kMaxAtrLength := 33.
Definition kReceiverCount := 8.
Definition kNonceLength := 16.
Definition kMagic : list Z := [80; 88; 52; 85].
Definition kResponseFlag := 1.
Definition kErrorFlag := 2.
Definition kKnownFlags := Z.lor kResponseFlag kErrorFlag.
Definition kCardReaderCount := 1.
Definition kUsbPresentMask := 3.
Definition kCountersPayloadSize := 8 * 8.
Definition kQ3U4ReceiverCount := 8.
Definition kW3U4ReceiverCount := 4.
Definition kMlt5PeReceiverCount := 5.
Definition kMlt3PeReceiverCount := 3.
Definition kSingleReceiverCount := 1.
Definition kCapabilityEvents := Z.shiftl 1 0.
Definition kCapabilityCard := Z.shiftl 1 1.
Definition kCapabilityStreamStats := Z.shiftl 1 2.
Definition kCapabilityCardGenerationBinding := Z.shiftl 1 3.
Definition kKnownCapabilities :=
  Z.lor (Z.lor (Z.lor kCapabilityEvents kCapabilityCard) kCapabilityStreamStats)
    kCapabilityCardGenerationBinding.

(** * Enumerations *)

Inductive MessageType :=
  | HELLO | LIST | STATUS | ACQUIRE | RELEASE | TUNE | START_STREAM | STOP_STREAM
  | STATS | CARD_STATUS | CARD_CONNECT | CARD_RECONNECT | CARD_DISCONNECT
  | CARD_RESET | CARD_TRANSMIT | BEGIN_TRANSACTION | END_TRANSACTION
  | CARD_HANDLE_STATUS | ATTACH_STREAM | TS_DATA | DEVICE_EVENT | STREAM_END
  | MessageType_other (raw : Z).

Definition MessageType_raw (t : MessageType) : Z :=
  match t with
  | HELLO => 0x0001 | LIST => 0x0010 | STATUS => 0x0011 | ACQUIRE => 0x0020
  | RELEASE => 0x0021 | TUNE => 0x0022 | START_STREAM => 0x0023
  | STOP_STREAM => 0x0024 | STATS => 0x0025 | CARD_STATUS => 0x0030
  | CARD_CONNECT => 0x0031 | CARD_RECONNECT => 0x0032 | CARD_DISCONNECT => 0x0033
  | CARD_RESET => 0x0034 | CARD_TRANSMIT => 0x0035 | BEGIN_TRANSACTION => 0x0036
  | END_TRANSACTION => 0x0037 | CARD_HANDLE_STATUS => 0x0038
  | ATTACH_STREAM => 0x0040 | TS_DATA => 0x8040 | DEVICE_EVENT => 0x80f0
  | STREAM_END => 0x80ff | MessageType_other raw => raw
  end.

Inductive MessageKind := request | response | error_response | event.

Inductive ErrorCode :=
  | EC_OK | EC_INVALID_ARGUMENT | EC_VERSION_MISMATCH | EC_NOT_FOUND | EC_BUSY
  | EC_NOT_READY | EC_TIMEOUT | EC_USB_IO | EC_DISCONNECTED | EC_PROTOCOL_ERROR
  | EC_FIRMWARE_REJECTED | EC_UNSUPPORTED | EC_NO_CARD | EC_CARD_REMOVED
  | EC_BUFFER_TOO_SMALL | EC_SLOW_CONSUMER | EC_INTERNAL
  | ErrorCode_other (raw : Z).

Definition ErrorCode_raw (c : ErrorCode) : Z :=
  match c with
  | EC_OK => 0 | EC_INVALID_ARGUMENT => 1 | EC_VERSION_MISMATCH => 2
  | EC_NOT_FOUND => 3 | EC_BUSY => 4 | EC_NOT_READY => 5 | EC_TIMEOUT => 6
  | EC_USB_IO => 7 | EC_DISCONNECTED => 8 | EC_PROTOCOL_ERROR => 9
  | EC_FIRMWARE_REJECTED => 10 | EC_UNSUPPORTED => 11 | EC_NO_CARD => 12
  | EC_CARD_REMOVED => 13 | EC_BUFFER_TOO_SMALL => 14 | EC_SLOW_CONSUMER => 15
  | EC_INTERNAL => 255 | ErrorCode_other raw => raw
  end.

Inductive System := ISDB_T | ISDB_S | ISDB_T_OR_S | System_other (raw : Z).

Definition System_raw (s : System) : Z :=
  match s with ISDB_T => 1 | ISDB_S => 2 | ISDB_T_OR_S => 3 | System_other raw => raw end.

Inductive ReceiverState :=
  | RS_free | RS_leased | RS_tuned | RS_streaming | RS_error | RS_absent
  | ReceiverState_other (raw : Z).

Definition ReceiverState_raw (s : ReceiverState) : Z :=
  match s with
  | RS_free => 0 | RS_leased => 1 | RS_tuned => 2 | RS_streaming => 3 | RS_error => 4
  | RS_absent => 5 | ReceiverState_other raw => raw
  end.

Inductive ShareMode := SM_shared | SM_exclusive | ShareMode_other (raw : Z).

Definition ShareMode_raw (m : ShareMode) : Z :=
  match m with SM_shared => 1 | SM_exclusive => 2 | ShareMode_other raw => raw end.

Inductive Disposition := DP_leave | DP_reset | Disposition_other (raw : Z).

Definition Disposition_raw (d : Disposition) : Z :=
  match d with DP_leave => 0 | DP_reset => 1 | Disposition_other raw => raw end.

Inductive DeviceEventKind :=
  | DE_attached | DE_detached | DE_card_inserted | DE_card_removed | DE_state_changed
  | DeviceEventKind_other (raw : Z).

Definition DeviceEventKind_raw (k : DeviceEventKind) : Z :=
  match k with
  | DE_attached => 1 | DE_detached => 2 | DE_card_inserted => 3 | DE_card_removed => 4
  | DE_state_changed => 5 | DeviceEventKind_other raw => raw
  end.

Inductive EventTargetType :=
  | ET_device | ET_receiver | ET_card | EventTargetType_other (raw : Z).

Definition EventTargetType_raw (t : EventTargetType) : Z :=
  match t with
  | ET_device => 1 | ET_receiver => 2 | ET_card => 3 | EventTargetType_other raw => raw
  end.

#[export] Instance MessageType_eq_dec : EqDecision MessageType.
Proof. solve_decision. Defined.
#[export] Instance MessageKind_eq_dec : EqDecision MessageKind.
Proof. solve_decision. Defined.
#[export] Instance ErrorCode_eq_dec : EqDecision ErrorCode.
Proof. solve_decision. Defined.
#[export] Instance System_eq_dec : EqDecision System.
Proof. solve_decision. Defined.
#[export] Instance ReceiverState_eq_dec : EqDecision ReceiverState.
Proof. solve_decision. Defined.
#[export] Instance ShareMode_eq_dec : EqDecision ShareMode.
Proof. solve_decision. Defined.
#[export] Instance Disposition_eq_dec : EqDecision Disposition.
Proof. solve_decision. Defined.
#[export] Instance DeviceEventKind_eq_dec : EqDecision DeviceEventKind.
Proof. solve_decision. Defined.
#[export] Instance EventTargetType_eq_dec : EqDecision EventTargetType.
Proof. solve_decision. Defined.

#[export] Instance MessageType_CEnum : CEnum MessageType := {
  to_raw := MessageType_raw;
  enumerators := [HELLO; LIST; STATUS; ACQUIRE; RELEASE; TUNE; START_STREAM;
    STOP_STREAM; STATS; CARD_STATUS; CARD_CONNECT; CARD_RECONNECT; CARD_DISCONNECT;
    CARD_RESET; CARD_TRANSMIT; BEGIN_TRANSACTION; END_TRANSACTION;
    CARD_HANDLE_STATUS; ATTACH_STREAM; TS_DATA; DEVICE_EVENT; STREAM_END];
  of_other := MessageType_other;
}.
#[export] Instance ErrorCode_CEnum : CEnum ErrorCode := {
  to_raw := ErrorCode_raw;
  enumerators := [EC_OK; EC_INVALID_ARGUMENT; EC_VERSION_MISMATCH; EC_NOT_FOUND;
    EC_BUSY; EC_NOT_READY; EC_TIMEOUT; EC_USB_IO; EC_DISCONNECTED; EC_PROTOCOL_ERROR;
    EC_FIRMWARE_REJECTED; EC_UNSUPPORTED; EC_NO_CARD; EC_CARD_REMOVED;
    EC_BUFFER_TOO_SMALL; EC_SLOW_CONSUMER; EC_INTERNAL];
  of_other := ErrorCode_other;
}.
#[export] Instance System_CEnum : CEnum System := {
  to_raw := System_raw; enumerators := [ISDB_T; ISDB_S; ISDB_T_OR_S];
  of_other := System_other;
}.
#[export] Instance ReceiverState_CEnum : CEnum ReceiverState := {
  to_raw := ReceiverState_raw;
  enumerators := [RS_free; RS_leased; RS_tuned; RS_streaming; RS_error; RS_absent];
  of_other := ReceiverState_other;
}.
#[export] Instance ShareMode_CEnum : CEnum ShareMode := {
  to_raw := ShareMode_raw; enumerators := [SM_shared; SM_exclusive];
  of_other := ShareMode_other;
}.
#[export] Instance Disposition_CEnum : CEnum Disposition := {
  to_raw := Disposition_raw; enumerators := [DP_leave; DP_reset];
  of_other := Disposition_other;
}.
#[export] Instance DeviceEventKind_CEnum : CEnum DeviceEventKind := {
  to_raw := DeviceEventKind_raw;
  enumerators := [DE_attached; DE_detached; DE_card_inserted; DE_card_removed;
    DE_state_changed];
  of_other := DeviceEventKind_other;
}.
#[export] Instance EventTargetType_CEnum : CEnum EventTargetType := {
  to_raw := EventTargetType_raw; enumerators := [ET_device; ET_receiver; ET_card];
  of_other := EventTargetType_other;
}.

Ltac solve_cenum := split; [done | apply (bool_decide_unpack _); vm_compute; done].

#[export] Instance MessageType_laws : CEnumLaws MessageType.
Proof. solve_cenum. Qed.
#[export] Instance ErrorCode_laws : CEnumLaws ErrorCode.
Proof. solve_cenum. Qed.
#[export] Instance System_laws : CEnumLaws System.
Proof. solve_cenum. Qed.
#[export] Instance ReceiverState_laws : CEnumLaws ReceiverState.
Proof. solve_cenum. Qed.
#[export] Instance ShareMode_laws : CEnumLaws ShareMode.
Proof. solve_cenum. Qed.
#[export] Instance Disposition_laws : CEnumLaws Disposition.
Proof. solve_cenum. Qed.
#[export] Instance DeviceEventKind_laws : CEnumLaws DeviceEventKind.
Proof. solve_cenum. Qed.
#[export] Instance EventTargetType_laws : CEnumLaws EventTargetType.
Proof. solve_cenum. Qed.

(** [a == b] on enumerations. *)
Definition eqb {A} `{EqDecision A} (a b : A) : bool := bool_decide (a = b).

(** The values a C++ object of the enumeration can hold: one constructor per
    value of the underlying type of [w] bits. *)
Definition enum_ok {A} `{CEnum A} (w : Z) (a : A) : Prop :=
  of_raw (to_raw a) = a /\ 0 <= to_raw a < 2 ^ w.

(** * Frames and payload structs *)

Record FrameHeader := {
  major : Z;
  minor : Z;
  type : MessageType;
  kind : MessageKind;
  request_id : Z;
  payload_length : Z;
}.

(** [FrameHeader{}]. *)
Definition default_FrameHeader : FrameHeader := {|
  major := kProtocolMajor; minor := kProtocolMinor; type := HELLO; kind := request;
  request_id := 0; payload_length := 0;
|}.

Record FrameView := { header : FrameHeader; payload : ByteView }.

Inductive EmptyPayload := empty_payload.

Record HelloRequestPayload := {
  min_major : Z;
  min_minor : Z;
  max_major : Z;
  max_minor : Z;
  requested_capabilities : Z;
}.

Record HelloResponsePayload := {
  hello_major : Z;
  hello_minor : Z;
  capabilities : Z;
}.

Record ReceiverRecord := {
  global_id : Z;
  dev_id : Z;
  local_id : Z;
  receiver_system : System;
}.

(** [receivers] is the array of [kReceiverCount] records. *)
Record ListResponsePayload := {
  list_generation : Z;
  serial_utf8 : ByteView;
  list_ready : Z;
  list_usb_present_mask : Z;
  receivers : list ReceiverRecord;
  receiver_count : Z;
}.

(** [receiver_states] is the array of [kReceiverCount] states. *)
Record StatusResponsePayload := {
  status_generation : Z;
  status_ready : Z;
  status_usb_present_mask : Z;
  card_present : Z;
  card_initialized : Z;
  receiver_states : list ReceiverState;
  status_usb_errors : Z;
  protocol_errors : Z;
}.

Record AcquireRequestPayload := { receiver_id : Z }.

(** [nonce] is the array of [kNonceLength] bytes. *)
Record AcquireResponsePayload := { acquire_lease_id : Z; acquire_nonce : list Z }.

Record LeaseRequestPayload := { lease_id : Z }.

Record CardHandleRequestPayload := { card_handle : Z }.

Record TuneRequestPayload := {
  tune_lease_id : Z;
  tune_system : System;
  frequency_khz : Z;
  stream_id : Z;
  slot : Z;
  bandwidth_hz : Z;
  lnb_voltage : Z;
  timeout_ms : Z;
}.

Record TuneResponsePayload := { locked : Z; cnr_mdb : Z }.

(** [dtv::userland::wire::MeasureState] belongs to the foundation library: these
    are the enumerators the sources name, and no theorem distinguishes them. *)
Inductive MeasureState := MeasureState_unknown | MeasureState_valid.

Record CountersPayload := {
  packets : Z;
  counter_bytes : Z;
  sync_errors : Z;
  tei_packets : Z;
  continuity_errors : Z;
  queue_drops : Z;
  usb_errors : Z;
  empty_intervals : Z;
  availability : list MeasureState;
}.

(** The member initialiser of [availability]. *)
Definition default_availability : list MeasureState := replicate 8 MeasureState_unknown.

Record CardStatusResponsePayload := {
  present : Z;
  initialized : Z;
  reader_generation : Z;
  card_status_atr : ByteView;
}.

Record CardConnectRequestPayload := { connect_share_mode : ShareMode }.

Record CardConnectResponsePayload := { connect_card_handle : Z; connect_atr : ByteView }.

Record CardReconnectRequestPayload := {
  reconnect_card_handle : Z;
  reconnect_share_mode : ShareMode;
  reconnect_disposition : Disposition;
}.

Record AtrPayload := { atr : ByteView }.

Record CardDispositionRequestPayload := {
  disposition_card_handle : Z;
  disposition : Disposition;
}.

Record CardTransmitRequestPayload := { transmit_card_handle : Z; apdu : ByteView }.

Record CardTransmitResponsePayload := { transmit_response : ByteView }.

Record AttachStreamRequestPayload := { attach_lease_id : Z; attach_nonce : list Z }.

Record TsDataEventPayload := {
  sequence : Z;
  cumulative_drop_count : Z;
  ts_bytes : ByteView;
}.

Record DeviceEventPayload := {
  event_generation : Z;
  event_kind : DeviceEventKind;
  target_type : EventTargetType;
  target_id : Z;
}.

Record StreamEndEventPayload := { counters : CountersPayload; stream_error_code : ErrorCode }.

Record ErrorResponsePayload := { error_code : ErrorCode; detail_utf8 : ByteView }.

(** * Predicates on values *)

Definition valid_view (view : ByteView) : bool :=
  match view with NullView n => n =? 0 | View _ => true end.

Definition valid_boolean (value : Z) : bool := value <=? 1.

Definition valid_system (value : System) : bool := eqb value ISDB_T || eqb value ISDB_S.

Definition valid_receiver_state (value : ReceiverState) : bool :=
  to_raw value <=? to_raw RS_absent.

Definition valid_share_mode (value : ShareMode) : bool :=
  eqb value SM_shared || eqb value SM_exclusive.

Definition valid_disposition (value : Disposition) : bool :=
  eqb value DP_leave || eqb value DP_reset.

Definition valid_device_event_kind (value : DeviceEventKind) : bool :=
  let raw := to_raw value in
  (to_raw DE_attached <=? raw) && (raw <=? to_raw DE_state_changed).

Definition valid_event_target (t : EventTargetType) (id : Z) : bool :=
  match t with
  | ET_device => (id =? 1) || (id =? 2)
  | ET_receiver => id <? kReceiverCount
  | ET_card => id =? 0
  | EventTargetType_other _ => false
  end.

Definition valid_atr (a : ByteView) : bool := valid_view a && (view_size a <=? kMaxAtrLength).

Definition valid_tune (value : TuneRequestPayload) : bool :=
  if negb (valid_system (tune_system value))
     || negb (lnb_voltage value =? 0) && negb (lnb_voltage value =? 15)
     || (timeout_ms value <? 100) || (30000 <? timeout_ms value)
  then false
  else if eqb (tune_system value) ISDB_T then
    (stream_id value =? 0xffff) && (slot value =? 0xffff) && (bandwidth_hz value =? 6000000)
  else negb (Bool.eqb (stream_id value =? 0xffff) (slot value =? 0xffff)).

Definition valid_receiver_count (count : Z) : bool :=
  (count =? kSingleReceiverCount) || (count =? kMlt3PeReceiverCount)
  || (count =? kW3U4ReceiverCount) || (count =? kMlt5PeReceiverCount)
  || (count =? kQ3U4ReceiverCount).

Definition usb_present_mask_for (count : Z) : Z :=
  if count =? kQ3U4ReceiverCount then kUsbPresentMask else 1.

Definition expected_receiver_record (count global : Z) (dual_system : bool) : ReceiverRecord :=
  let id := cast_u8 global in
  if dual_system || (count =? kMlt3PeReceiverCount) || (count =? kMlt5PeReceiverCount)
  then {| global_id := id; dev_id := 1; local_id := id; receiver_system := ISDB_T_OR_S |}
  else if count =? kSingleReceiverCount
  then {| global_id := id; dev_id := 1; local_id := id; receiver_system := ISDB_T |}
  else
    let local := cast_u8 (global mod 4) in
    {| global_id := id; dev_id := cast_u8 (global / 4 + 1); local_id := local;
       receiver_system := if local <? 2 then ISDB_S else ISDB_T |}.

Definition receiver_record_eqb (value expected : ReceiverRecord) : bool :=
  (global_id value =? global_id expected) && (dev_id value =? dev_id expected)
  && (local_id value =? local_id expected)
  && eqb (receiver_system value) (receiver_system expected).

Definition valid_receiver_record (value : ReceiverRecord) (count global : Z) : bool :=
  receiver_record_eqb value (expected_receiver_record count global false)
  || receiver_record_eqb value (expected_receiver_record count global true)
     && negb (count =? kQ3U4ReceiverCount).

(** [ReceiverRecord{}]. *)
Definition default_ReceiverRecord : ReceiverRecord :=
  {| global_id := 0; dev_id := 0; local_id := 0; receiver_system := of_raw 0 |}.

(** The indices of the loops [index < count && index < kReceiverCount]. *)
Definition receiver_indices (count : Z) : list Z := seqZ 0 (Z.min count kReceiverCount).

Definition receiver_records (count : Z) (dual_system : bool) : Result (list ReceiverRecord) :=
  let records := replicate (Z.to_nat kReceiverCount) default_ReceiverRecord in
  if negb (valid_receiver_count count) then failure INVALID_ARGUMENT
  else success
    (foldl (fun rs index => <[Z.to_nat index := expected_receiver_record count index dual_system]> rs)
      records (receiver_indices count)).

(** * Message classification *)

Definition is_known_message_type (t : MessageType) : bool :=
  match t with
  | HELLO | LIST | STATUS | ACQUIRE | RELEASE | TUNE | START_STREAM | STOP_STREAM
  | STATS | CARD_STATUS | CARD_CONNECT | CARD_RECONNECT | CARD_DISCONNECT
  | CARD_RESET | CARD_TRANSMIT | BEGIN_TRANSACTION | END_TRANSACTION
  | CARD_HANDLE_STATUS | ATTACH_STREAM | TS_DATA | DEVICE_EVENT | STREAM_END => true
  | MessageType_other _ => false
  end.

Definition is_event_message (t : MessageType) : bool :=
  eqb t TS_DATA || eqb t DEVICE_EVENT || eqb t STREAM_END.

Definition is_known_error_code (code : ErrorCode) : bool :=
  let value := to_raw code in
  (value <=? to_raw EC_SLOW_CONSUMER) || eqb code EC_INTERNAL.

Definition payload_limit (t : MessageType) : Z :=
  if eqb t TS_DATA then kMaxTsDataPayload else kMaxControlPayload.

Definition is_control_request (t : MessageType) : bool :=
  match t with
  | LIST | STATUS | ACQUIRE | RELEASE | TUNE | START_STREAM | STOP_STREAM | STATS
  | CARD_STATUS | CARD_CONNECT | CARD_RECONNECT | CARD_DISCONNECT | CARD_RESET
  | CARD_TRANSMIT | BEGIN_TRANSACTION | END_TRANSACTION | CARD_HANDLE_STATUS => true
  | HELLO | ATTACH_STREAM | TS_DATA | DEVICE_EVENT | STREAM_END => false
  | MessageType_other _ => false
  end.

Definition required_capability (t : MessageType) : Z :=
  match t with
  | CARD_HANDLE_STATUS => Z.lor kCapabilityCard kCapabilityCardGenerationBinding
  | CARD_STATUS | CARD_CONNECT | CARD_RECONNECT | CARD_DISCONNECT | CARD_RESET
  | CARD_TRANSMIT | BEGIN_TRANSACTION | END_TRANSACTION => kCapabilityCard
  | STATS => kCapabilityStreamStats
  | _ => 0
  end.

Definition version_at_most (left_major left_minor right_major right_minor : Z) : bool :=
  (left_major <? right_major) || ((left_major =? right_major) && (left_minor <=? right_minor)).

Definition includes_protocol_v1 (value : HelloRequestPayload) : bool :=
  version_at_most (min_major value) (min_minor value) kProtocolMajor kProtocolMinor
  && version_at_most kProtocolMajor kProtocolMinor (max_major value) (max_minor value).

(** * UTF-8 *)

(** [(continuation_count, second_min, second_max)] for a first byte above 0x7f. *)
Definition utf8_lead (first : Z) : option (Z * Z * Z) :=
  if (0xc2 <=? first) && (first <=? 0xdf) then Some (1, 0x80, 0xbf)
  else if (0xe0 <=? first) && (first <=? 0xef) then
    Some (2, if first =? 0xe0 then 0xa0 else 0x80,
             if negb (first =? 0xe0) && (first =? 0xed) then 0x9f else 0xbf)
  else if (0xf0 <=? first) && (first <=? 0xf4) then
    Some (3, if first =? 0xf0 then 0x90 else 0x80,
             if negb (first =? 0xf0) && (first =? 0xf4) then 0x8f else 0xbf)
  else None.

(** The [while] loop; each iteration consumes a byte at least, so the size of
    the text is enough fuel. *)
Fixpoint utf8_loop (fuel : nat) (text : list Z) (offset : Z) : bool :=
  if offset <? zlen text then
    match fuel with
    | O => false
    | S fuel =>
        let first := byte_at text offset in
        let offset := offset + 1 in
        if first =? 0 then false
        else if first <=? 0x7f then utf8_loop fuel text offset
        else match utf8_lead first with
        | None => false
        | Some (continuation_count, second_min, second_max) =>
            if zlen text - offset <? continuation_count then false
            else
              let second := byte_at text offset in
              if (second <? second_min) || (second_max <? second) then false
              else if existsb (fun index =>
                        let value := byte_at text (offset + index) in
                        (value <? 0x80) || (0xbf <? value)) (seqZ 1 (continuation_count - 1))
              then false
              else utf8_loop fuel text (offset + continuation_count)
        end
    end
  else true.

Definition valid_utf8 (text : ByteView) : bool :=
  if negb (valid_view text) then false
  else utf8_loop (Z.to_nat (view_size text)) (view_bytes text) 0.

(** ** Correctness of the validator *)

(** The Unicode scalar values that may occur in a text: no NUL, no surrogate. *)
Definition scalar_value (c : Z) : Prop := 0 < c < 0xd800 \/ 0xdfff < c <= 0x10ffff.

(** The UTF-8 encoding form of a scalar value. *)
Definition utf8_encode (c : Z) : list Z :=
  if c <=? 0x7f then [c]
  else if c <=? 0x7ff then [0xc0 + c / 64; 0x80 + c mod 64]
  else if c <=? 0xffff then [0xe0 + c / 4096; 0x80 + c / 64 mod 64; 0x80 + c mod 64]
  else [0xf0 + c / 262144; 0x80 + c / 4096 mod 64; 0x80 + c / 64 mod 64; 0x80 + c mod 64].

(** The text left after one iteration of [utf8_loop]. *)
Definition utf8_next (l : list Z) : option (list Z) :=
  let cont lo hi b := negb ((b <? lo) || (hi <? b)) in
  match l with
  | [] => None
  | first :: l =>
      if first =? 0 then None
      else if first <=? 0x7f then Some l
      else match utf8_lead first, l with
      | Some (1, lo, hi), b1 :: l' => if cont lo hi b1 then Some l' else None
      | Some (2, lo, hi), b1 :: b2 :: l' =>
          if cont lo hi b1 && cont 0x80 0xbf b2 then Some l' else None
      | Some (3, lo, hi), b1 :: b2 :: b3 :: l' =>
          if cont lo hi b1 && cont 0x80 0xbf b2 && cont 0x80 0xbf b3 then Some l' else None
      | _, _ => None
      end
  end.

Lemma utf8_lead_count first n lo hi :
  utf8_lead first = Some (n, lo, hi) -> n = 1 \/ n = 2 \/ n = 3.
Proof. unfold utf8_lead. repeat case_match; naive_solver. Qed.

Lemma utf8_loop_step fuel text offset :
  0 <= offset < zlen text ->
  utf8_loop (S fuel) text offset =
    match utf8_next (zdrop offset text) with
    | None => false
    | Some l => utf8_loop fuel text (zlen text - zlen l)
    end.
Proof.
  intros H. simpl. rewrite (proj2 (Z.ltb_lt _ _)) by lia.
  assert (forall i, 0 <= i -> byte_at text (offset + i) = byte_at (zdrop offset text) i) as B.
  { intros. rewrite byte_at_drop by lia. done. }
  replace (byte_at text offset) with (byte_at (zdrop offset text) 0)
    by (rewrite <-B, Z.add_0_r by lia; done).
  assert (zlen text = offset + zlen (zdrop offset text)) as L by (rewrite zlen_drop; lia).
  destruct (zdrop offset text) as [|first l]; [rewrite zlen_nil in L; lia|].
  rewrite zlen_cons in L. change (byte_at (first :: l) 0) with first.
  unfold utf8_next. destruct (first =? 0); [done|].
  destruct (first <=? 0x7f). { f_equal. lia. }
  destruct (utf8_lead first) as [[[n lo] hi]|] eqn:E; [|done].
  destruct (utf8_lead_count _ _ _ _ E) as [-> |[-> | ->]].
  - change (seqZ 1 (1 - 1)) with (@nil Z).
    destruct l as [|b1 l]; autorewrite with zlen in L.
    { by rewrite (proj2 (Z.ltb_lt _ _)) by lia. }
    rewrite (proj2 (Z.ltb_ge _ _)) by zlen_lia. rewrite B by lia.
    change (byte_at (first :: b1 :: l) 1) with b1. simpl.
    destruct (_ || _); [done|]. simpl. f_equal. lia.
  - change (seqZ 1 (2 - 1)) with [1].
    destruct l as [|b1 [|b2 l]]; autorewrite with zlen in L;
      try (by rewrite (proj2 (Z.ltb_lt _ _)) by lia).
    rewrite (proj2 (Z.ltb_ge _ _)) by zlen_lia. rewrite B by lia.
    change (byte_at (first :: b1 :: b2 :: l) 1) with b1. simpl.
    rewrite <-Z.add_assoc, B by lia. change (byte_at _ (1 + 1)) with b2.
    destruct ((b1 <? lo) || _); [done|]. simpl. rewrite orb_false_r.
    destruct (_ || _); [done|]. simpl. f_equal. lia.
  - change (seqZ 1 (3 - 1)) with [1; 2].
    destruct l as [|b1 [|b2 [|b3 l]]]; autorewrite with zlen in L;
      try (by rewrite (proj2 (Z.ltb_lt _ _)) by lia).
    rewrite (proj2 (Z.ltb_ge _ _)) by zlen_lia. rewrite B by lia.
    change (byte_at (first :: b1 :: b2 :: b3 :: l) 1) with b1. simpl.
    rewrite <-!Z.add_assoc, !B by lia. change (byte_at _ (1 + 1)) with b2.
    change (byte_at _ (1 + 2)) with b3.
    destruct ((b1 <? lo) || _); [done|]. simpl. rewrite orb_false_r.
    destruct ((b2 <? _) || _); [done|]. simpl.
    destruct ((b3 <? _) || _); [done|]. simpl. f_equal. lia.
Qed.

(** Decides a chain of comparisons against constants. *)
Ltac decide_compare :=
  repeat first
  [ match goal with |- context [?a =? ?b] => destruct (Z.eqb_spec a b); try lia; simpl end
  | match goal with
    | |- context [?a <=? ?b] => destruct (Z.leb_spec a b); try lia; simpl
    | |- context [?a <? ?b] => destruct (Z.ltb_spec a b); try lia; simpl
    end ].

Lemma utf8_next_encode c l : scalar_value c -> utf8_next (utf8_encode c ++ l) = Some l.
Proof.
  unfold scalar_value. intros H.
  assert (forall n, 0 < n -> 0 <= c / n) as P by (intros; apply Z.div_pos; lia).
  assert (0 <= c mod 64 < 64) by (apply Z.mod_pos_bound; lia).
  assert (0 <= c / 64 mod 64 < 64) by (apply Z.mod_pos_bound; lia).
  assert (0 <= c / 4096 mod 64 < 64) by (apply Z.mod_pos_bound; lia).
  assert (c = 64 * (c / 64) + c mod 64) by (apply Z.div_mod; lia).
  assert (c / 64 = 64 * (c / 4096) + c / 64 mod 64).
  { change 4096 with (64 * 64). rewrite <-Z.div_div by lia. apply Z.div_mod; lia. }
  assert (c / 4096 = 64 * (c / 262144) + c / 4096 mod 64).
  { change 262144 with (4096 * 64). rewrite <-Z.div_div by lia. apply Z.div_mod; lia. }
  unfold utf8_encode. generalize dependent (c / 64 mod 64). generalize dependent (c / 4096 mod 64).
  generalize dependent (c mod 64). generalize dependent (c / 262144).
  generalize dependent (c / 4096). generalize dependent (c / 64). intros.
  destruct (Z.leb_spec c 0x7f). { simpl. decide_compare. done. }
  destruct (Z.leb_spec c 0x7ff). { simpl. unfold utf8_lead. decide_compare. done. }
  destruct (Z.leb_spec c 0xffff); simpl; unfold utf8_lead; decide_compare; done.
Qed.

Lemma utf8_next_decode l tl :
  bytes_ok l -> utf8_next l = Some tl -> exists c, scalar_value c /\ l = utf8_encode c ++ tl.
Proof.
  unfold utf8_next. intros OK E. destruct l as [|b0 l]; [done|].
  apply Forall_cons in OK as [B0 OK]. unfold is_u8 in B0.
  destruct (Z.eqb_spec b0 0); [done|]. destruct (Z.leb_spec b0 0x7f).
  { injection E as <-. exists b0. split; [unfold scalar_value; lia|].
    unfold utf8_encode. by rewrite (proj2 (Z.leb_le _ _)). }
  unfold utf8_lead in E.
  destruct (Z.leb_spec 0xc2 b0), (Z.leb_spec b0 0xdf), (Z.leb_spec 0xe0 b0),
    (Z.leb_spec b0 0xef), (Z.leb_spec 0xf0 b0), (Z.leb_spec b0 0xf4); simpl in E; try lia; try done.
  - destruct l as [|b1 l]; [done|]. case_match eqn:C; [|done]. injection E as <-.
    bool_hyps. exists ((b0 - 0xc0) * 64 + (b1 - 0x80)).
    unfold scalar_value, utf8_encode. split; [lia|]. decide_compare.
    simpl. repeat f_equal; Z.to_euclidean_division_equations; lia.
  - destruct l as [|b1 [|b2 l]]; [done..|].
    destruct (negb _ && _) eqn:C in E; [|done]. injection E as <-. bool_hyps.
    exists ((b0 - 0xe0) * 4096 + (b1 - 0x80) * 64 + (b2 - 0x80)).
    assert (b0 = 0xe0 -> 0xa0 <= b1) by (intros ->; simpl in *; lia).
    assert (b0 = 0xed -> b1 <= 0x9f) by (intros ->; simpl in *; lia).
    assert (0x80 <= b1 <= 0xbf) by (destruct (b0 =? 0xe0), (b0 =? 0xed); simpl in *; lia).
    unfold scalar_value, utf8_encode. split; [lia|]. decide_compare.
    simpl. repeat f_equal; Z.to_euclidean_division_equations; lia.
  - destruct l as [|b1 [|b2 [|b3 l]]]; [done..|].
    destruct (negb _ && _ && _) eqn:C in E; [|done]. injection E as <-. bool_hyps.
    exists ((b0 - 0xf0) * 262144 + (b1 - 0x80) * 4096 + (b2 - 0x80) * 64 + (b3 - 0x80)).
    assert (b0 = 0xf0 -> 0x90 <= b1) by (intros ->; simpl in *; lia).
    assert (b0 = 0xf4 -> b1 <= 0x8f) by (intros ->; simpl in *; lia).
    assert (0x80 <= b1 <= 0xbf) by (destruct (b0 =? 0xf0), (b0 =? 0xf4); simpl in *; lia).
    unfold scalar_value, utf8_encode. split; [lia|]. decide_compare.
    simpl. repeat f_equal; Z.to_euclidean_division_equations; lia.
Qed.

Lemma utf8_loop_correct fuel text offset :
  bytes_ok text -> 0 <= offset <= zlen text -> zlen text - offset <= Z.of_nat fuel ->
  utf8_loop fuel text offset = true <->
  exists cs, Forall scalar_value cs /\ zdrop offset text = concat (utf8_encode <$> cs).
Proof.
  intros OK. revert offset. induction fuel as [|fuel IH]; intros offset Ho Hf.
  { assert (offset = zlen text) as -> by lia. simpl.
    rewrite (proj2 (Z.ltb_ge _ _)), zdrop_ge by lia. split; [|done].
    intros _. by exists []. }
  destruct (Z.eq_dec offset (zlen text)) as [->|].
  { simpl. rewrite (proj2 (Z.ltb_ge _ _)), zdrop_ge by lia. split; [|done].
    intros _. by exists []. }
  rewrite utf8_loop_step by lia. destruct (utf8_next (zdrop offset text)) as [tl|] eqn:N.
  - apply utf8_next_decode in N as (c & C & E); [|by apply bytes_ok_drop].
    assert (zlen (utf8_encode c) <> 0).
    { unfold utf8_encode. repeat case_match; simpl; discriminate. }
    assert (zdrop (zlen text - zlen tl) text = tl) as T.
    { apply (f_equal (zdrop (zlen (utf8_encode c)))) in E as E'.
      rewrite (zdrop_app _ _ tl) in E' by done.
      rewrite zdrop_zdrop in E' by zlen_lia. rewrite <-E' at 2.
      apply (f_equal zlen) in E. rewrite zlen_drop in E. f_equal. zlen_lia. }
    apply (f_equal zlen) in E as L. rewrite zlen_drop, zlen_app in L.
    pose proof (zlen_nonneg (utf8_encode c)). pose proof (zlen_nonneg tl).
    rewrite IH by lia. rewrite T, E. split.
    + intros (cs & F & ->). exists (c :: cs). by split; [constructor|].
    + intros (cs & F & E2). destruct cs as [|d cs].
      { apply (f_equal zlen) in E2. rewrite zlen_app in E2. change (zlen (concat _)) with 0 in E2. lia. }
      apply Forall_cons in F as [D F]. exists cs. split; [done|]. simpl in E2.
      apply (f_equal utf8_next) in E2. rewrite !utf8_next_encode in E2 by done. by simplify_eq.
  - split; [done|]. intros (cs & F & E). destruct cs as [|c cs].
    { apply (f_equal zlen) in E. rewrite zlen_drop in E. change (zlen (concat _)) with 0 in E. lia. }
    apply Forall_cons in F as [C F]. rewrite E in N. simpl in N.
    by rewrite utf8_next_encode in N.
Qed.

(** The UTF-8 validator accepts exactly the byte strings that are the UTF-8
    encoding of a sequence of Unicode scalar values other than NUL: no overlong
    form, no surrogate, no truncated sequence, nothing above U+10FFFF. *)
Theorem valid_utf8_correct text :
  bytes_ok text ->
  valid_utf8 (View text) = true <->
  exists cs, Forall scalar_value cs /\ text = concat (utf8_encode <$> cs).
Proof.
  intros OK. unfold valid_utf8. simpl.
  rewrite utf8_loop_correct by (try done; zlen_lia). by rewrite zdrop_0.
Qed.

Lemma valid_utf8_correct_witness :
  bytes_ok [0x41; 0xe3; 0x81; 0x82] /\
  (valid_utf8 (View [0x41; 0xe3; 0x81; 0x82]) = true <->
   exists cs, Forall scalar_value cs /\ [0x41; 0xe3; 0x81; 0x82] = concat (utf8_encode <$> cs)).
Proof.
  assert (bytes_ok [0x41; 0xe3; 0x81; 0x82]) as H by (by apply bytes_okb_ok).
  split; [exact H|]. exact (valid_utf8_correct _ H).
Defined.

Example utf8_rejects_surrogate : valid_utf8 (View [0xed; 0xa0; 0x80]) = false.
Proof. reflexivity. Qed.
Example utf8_rejects_overlong : valid_utf8 (View [0xc0; 0x80]) = false.
Proof. reflexivity. Qed.

(** * Lemmas on the predicates *)

Lemma eqb_true {A} `{EqDecision A} (a b : A) : eqb a b = true <-> a = b.
Proof. apply bool_decide_eq_true. Qed.
Lemma eqb_false {A} `{EqDecision A} (a b : A) : eqb a b = false <-> a <> b.
Proof. apply bool_decide_eq_false. Qed.

Lemma eqb_true_1 {A} `{EqDecision A} (a b : A) : eqb a b = true -> a = b.
Proof. apply eqb_true. Qed.
Lemma eqb_false_1 {A} `{EqDecision A} (a b : A) : eqb a b = false -> a <> b.
Proof. apply eqb_false. Qed.
Lemma eqb_refl {A} `{EqDecision A} (a : A) : eqb a a = true.
Proof. by apply eqb_true. Qed.

Lemma enum_ok_of_raw {A} `{CEnumLaws A} w z : 0 <= z < 2 ^ w -> enum_ok w (of_raw (A := A) z).
Proof. intros Hz. split; by rewrite to_of_raw. Qed.

Lemma enum_ok_enumerator {A} `{CEnumLaws A} w a :
  a ∈ enumerators (A := A) -> 0 <= to_raw a < 2 ^ w -> enum_ok w a.
Proof. intros. split; [by apply of_to_raw|done]. Qed.

Lemma is_known_enumerator t : is_known_message_type t = true <-> t ∈ enumerators (A := MessageType).
Proof.
  split; [|intros Ht].
  - destruct t; try done; intros _; apply (bool_decide_unpack _); by vm_compute.
  - simpl in Ht. repeat (apply elem_of_cons in Ht as [->|Ht]; [done|]). by inversion Ht.
Qed.

Lemma is_known_of_to_raw t : is_known_message_type t = true -> of_raw (to_raw t) = t.
Proof. intros H. by apply of_to_raw, is_known_enumerator. Qed.

Lemma is_known_raw_ok t : is_known_message_type t = true -> is_u16 (to_raw t).
Proof. destruct t; intros H; try discriminate; unfold is_u16; simpl; lia. Qed.
