(* ===== verification/IpcWire.v ===== *)
(** The byte reader and writer of [src/ipc.cpp] and the little-endian wire form
    they share.  A writer stores into the output buffer at its offset and a
    store past the end is undefined behaviour ([None]); a reader returns [None]
    where the code returns [false].  [emits] and [reads] say that a writer
    program produces, and a reader program consumes, a given byte string; they
    are closed under sequencing, so that a codec is proved field by field. *)

From S2P Require Import Prelude IpcTypes.

(** * Writer *)

Record Writer := { wr_output : list Z; wr_offset : Z }.

Definition init_Writer (output : ByteView) : Writer :=
  {| wr_output := view_bytes output; wr_offset := 0 |}.

(** A sequence of calls on a writer. *)
Definition Writes := Writer -> option Writer.

Definition writes_nil : Writes := fun w => Some w.
Definition writes_seq (f g : Writes) : Writes := fun w => f w ≫= g.

Declare Scope px4_scope.
Delimit Scope px4_scope with px4.
Notation "f ;;; g" := (writes_seq f g) (at level 90, right associativity) : px4_scope.
#[global] Open Scope px4_scope.

(** [output_.data[offset_++] = value]. *)
Definition writer_u8 (value : Z) : Writes := fun w =>
  output ← mem_store (wr_output w) (wr_offset w) [value];
  Some {| wr_output := output; wr_offset := wr_offset w + 1 |}.

Definition writer_u16 (value : Z) : Writes :=
  writer_u8 (cast_u8 value) ;;; writer_u8 (cast_u8 (Z.shiftr value 8)).

Definition writer_u32 (value : Z) : Writes :=
  writer_u8 (cast_u8 value) ;;; writer_u8 (cast_u8 (Z.shiftr value 8)) ;;;
  writer_u8 (cast_u8 (Z.shiftr value 16)) ;;; writer_u8 (cast_u8 (Z.shiftr value 24)).

Definition writer_i32 (value : Z) : Writes :=
  let raw := if 0 <=? value then cast_u32 value else cast_u32 (0 - cast_u32 (- value)) in
  writer_u32 raw.

Definition writer_u64 (value : Z) : Writes :=
  writer_u32 (cast_u32 value) ;;; writer_u32 (cast_u32 (Z.shiftr value 32)).

Definition writer_bytes (value : ByteView) : Writes := fun w =>
  if negb (view_size value =? 0) then
    output ← mem_store (wr_output w) (wr_offset w) (view_bytes value);
    Some {| wr_output := output; wr_offset := wr_offset w + view_size value |}
  else Some w.

Definition writer_fixed_bytes (value : list Z) : Writes := writer_bytes (View value).

(** A loop that writes each element. *)
Definition writes_each {A} (f : A -> Writes) (l : list A) : Writes :=
  foldr (fun a k => f a ;;; k) writes_nil l.

(** * Reader *)

Record Reader := { rd_input : list Z; rd_offset : Z }.

Definition init_Reader (input : ByteView) : Reader :=
  {| rd_input := view_bytes input; rd_offset := 0 |}.

Definition remaining (r : Reader) : Z := zlen (rd_input r) - rd_offset r.
Definition finished (r : Reader) : bool := rd_offset r =? zlen (rd_input r).

Definition ReaderM (A : Type) := Reader -> option (A * Reader).
#[export] Instance ReaderM_ret : MRet ReaderM := fun A a r => Some (a, r).
#[export] Instance ReaderM_bind : MBind ReaderM := fun A B k p r =>
  match p r with Some (a, r) => k a r | None => None end.

(** [input_.data[offset_ + i]]. *)
Definition data_at (r : Reader) (i : Z) : Z := byte_at (rd_input r) (rd_offset r + i).
Definition advance (n : Z) (r : Reader) : Reader :=
  {| rd_input := rd_input r; rd_offset := rd_offset r + n |}.

Definition reader_u8 : ReaderM Z := fun r =>
  if remaining r <? 1 then None else Some (data_at r 0, advance 1 r).

Definition reader_u16 : ReaderM Z := fun r =>
  if remaining r <? 2 then None
  else Some (Z.lor (data_at r 0) (cast_u16 (Z.shiftl (data_at r 1) 8)), advance 2 r).

Definition reader_u32 : ReaderM Z := fun r =>
  if remaining r <? 4 then None
  else Some (Z.lor (Z.lor (Z.lor (data_at r 0) (cast_u32 (Z.shiftl (data_at r 1) 8)))
                          (cast_u32 (Z.shiftl (data_at r 2) 16)))
                   (cast_u32 (Z.shiftl (data_at r 3) 24)), advance 4 r).

Definition reader_i32 : ReaderM Z :=
  raw ← reader_u32;
  if raw <=? 2 ^ 31 - 1 then mret raw
  else let magnitude := cast_u32 (cast_u32 (Z.lnot raw) + 1) in mret (- magnitude).

Definition reader_u64 : ReaderM Z :=
  low ← reader_u32;
  high ← reader_u32;
  mret (Z.lor low (cast_u64 (Z.shiftl high 32))).

(** The view [input_.data + offset_] of [length] bytes. *)
Definition reader_bytes (length : Z) : ReaderM ByteView := fun r =>
  if remaining r <? length then None
  else Some (View (ztake length (zdrop (rd_offset r) (rd_input r))), advance length r).

Definition reader_fixed_bytes (length : Z) : ReaderM (list Z) :=
  value ← reader_bytes length;
  mret (view_bytes value).

(** [!reader.finished() || ...] and the other conditions of a decoder's guard. *)
Definition reader_check (condition : bool) : ReaderM unit := fun r =>
  if condition then Some (tt, r) else None.
Definition reader_finished : ReaderM unit := fun r =>
  if finished r then Some (tt, r) else None.

(** A loop that reads one element per index. *)
Fixpoint reader_each {A B} (f : A -> ReaderM B) (l : list A) : ReaderM (list B) :=
  match l with
  | [] => mret []
  | a :: l => b ← f a; bs ← reader_each f l; mret (b :: bs)
  end.

(** * Encoder and decoder frames *)

Definition prepare_output (output : ByteView) (required : Z) : Result unit :=
  if negb (valid_view output) then failure INVALID_ARGUMENT
  else if view_size output <? required then failure BUFFER_TOO_SMALL
  else success tt.

Definition with_bytes (v : ByteView) (l : list Z) : ByteView :=
  match v with NullView n => NullView n | View _ => View l end.

(** The result of an encoder and the output buffer after it; [None] is
    undefined behaviour. *)
Definition Encoded : Type := option (Result Z * ByteView).

Definition invalid (output : ByteView) : Encoded := Some (failure INVALID_ARGUMENT, output).

(** The end of every encoder: [prepare_output], then the writer's calls. *)
Definition write_payload (output : ByteView) (required : Z) (body : Writes) : Encoded :=
  match prepare_output output required with
  | failure e => Some (failure e, output)
  | success _ =>
      writer ← body (init_Writer output);
      Some (success (wr_offset writer), with_bytes output (wr_output writer))
  end.

(** The shape of every decoder: all failures are [malformed]. *)
Definition read_payload {A} (input : ByteView) (body : ReaderM A) : Result A :=
  if negb (valid_view input) then failure PROTOCOL_ERROR
  else match body (init_Reader input) with
       | Some (value, _) => success value
       | None => failure PROTOCOL_ERROR
       end.

(** * Little-endian bytes *)

Fixpoint le (n : nat) (v : Z) : list Z :=
  match n with O => [] | S n => v mod 256 :: le n (v / 256) end.

Lemma zlen_le n v : zlen (le n v) = Z.of_nat n.
Proof. revert v. induction n; intros; simpl; autorewrite with zlen; [done|]. rewrite IHn. lia. Qed.
#[export] Hint Rewrite zlen_le : zlen.

Lemma le_bytes_ok n v : bytes_ok (le n v).
Proof. revert v. induction n; intros; simpl; constructor; [|apply IHn]. apply cast_u8_ok. Qed.
#[export] Hint Resolve le_bytes_ok : px4.

(** * What a writer program produces *)

Definition emits (f : Writes) (bs : list Z) : Prop :=
  forall pre old, zlen bs <= zlen old ->
    f {| wr_output := pre ++ old; wr_offset := zlen pre |} =
    Some {| wr_output := pre ++ bs ++ zdrop (zlen bs) old; wr_offset := zlen pre + zlen bs |}.

Lemma mem_store_at_end pre old bs :
  zlen bs <= zlen old ->
  mem_store (pre ++ old) (zlen pre) bs = Some (pre ++ bs ++ zdrop (zlen bs) old).
Proof.
  intros H. rewrite mem_store_ok by zlen_lia. rewrite ztake_app by done.
  do 3 f_equal. rewrite <-(zdrop_zdrop _ (zlen pre)) by zlen_lia. by rewrite zdrop_app.
Qed.

Lemma emits_nil : emits writes_nil [].
Proof. intros pre old _. unfold writes_nil. rewrite zlen_nil, zdrop_0. do 2 f_equal. lia. Qed.

Lemma emits_seq f g b1 b2 : emits f b1 -> emits g b2 -> emits (f ;;; g) (b1 ++ b2).
Proof.
  intros F G pre old H. rewrite zlen_app in H. pose proof (zlen_nonneg b2).
  unfold writes_seq. rewrite F by lia. simpl. rewrite app_assoc, <-zlen_app.
  rewrite G by zlen_lia.
  rewrite zdrop_zdrop, <-!app_assoc by zlen_lia. rewrite !zlen_app, <-Z.add_assoc. done.
Qed.

Lemma emits_u8 v : emits (writer_u8 v) [v].
Proof.
  intros pre old H. unfold writer_u8. simpl wr_output. simpl wr_offset.
  by rewrite mem_store_at_end.
Qed.

Lemma emits_bytes v : valid_view v = true -> emits (writer_bytes v) (view_bytes v).
Proof.
  intros V pre old H. unfold writer_bytes. destruct v as [n|l]; simpl in *.
  - apply Z.eqb_eq in V as ->. simpl. rewrite zdrop_0. do 2 f_equal. rewrite zlen_nil. lia.
  - destruct (Z.eqb_spec (zlen l) 0) as [E|E]; simpl.
    + apply zlen_0 in E as ->. simpl. rewrite zlen_nil, zdrop_0. do 2 f_equal. lia.
    + by rewrite mem_store_at_end.
Qed.

Lemma shiftr_byte v k : 0 <= k -> cast_u8 (Z.shiftr v k) = v / 2 ^ k mod 256.
Proof. intros. unfold cast_u8. by rewrite Z.shiftr_div_pow2. Qed.

Lemma emits_u16 v : emits (writer_u16 v) (le 2 v).
Proof.
  assert (le 2 v = [cast_u8 v] ++ [cast_u8 (Z.shiftr v 8)]) as ->
    by (simpl; by rewrite shiftr_byte).
  apply emits_seq; apply emits_u8.
Qed.

Lemma emits_u32 v : emits (writer_u32 v) (le 4 v).
Proof.
  assert (le 4 v = [cast_u8 v] ++ [cast_u8 (Z.shiftr v 8)] ++
            [cast_u8 (Z.shiftr v 16)] ++ [cast_u8 (Z.shiftr v 24)]) as ->.
  { simpl. rewrite !shiftr_byte by lia. rewrite !Z.div_div by lia. done. }
  repeat apply emits_seq; apply emits_u8.
Qed.

Lemma le_app n m v : le (n + m) v = le n v ++ le m (v / 256 ^ Z.of_nat n).
Proof.
  revert v. induction n as [|n IH]; intros v; simpl; [by rewrite Z.div_1_r|].
  rewrite IH, Z.div_div by lia. do 4 f_equal. rewrite <-Z.pow_succ_r by lia. f_equal. lia.
Qed.

Lemma le_mod n v : le n (v mod 256 ^ Z.of_nat n) = le n v.
Proof.
  revert v. induction n as [|n IH]; intros v; [done|]. cbn [le].
  replace (256 ^ Z.of_nat (S n)) with (256 * 256 ^ Z.of_nat n)
    by (rewrite <-Z.pow_succ_r by lia; f_equal; lia).
  assert (0 < 256 ^ Z.of_nat n) by (apply Z.pow_pos_nonneg; lia).
  rewrite Z.rem_mul_r by lia. f_equal.
  - rewrite Z.mul_comm, Z_mod_plus_full. by apply Z.mod_mod.
  - rewrite Z.mul_comm, Z.div_add by lia.
    rewrite (Z.div_small (v mod 256)) by (apply Z.mod_pos_bound; lia). apply IH.
Qed.

Lemma emits_u64 v : emits (writer_u64 v) (le 8 v).
Proof.
  assert (le 8 v = le 4 (cast_u32 v) ++ le 4 (cast_u32 (Z.shiftr v 32))) as ->.
  { change 8%nat with (4 + 4)%nat. rewrite le_app. unfold cast_u32.
    change (2 ^ 32) with (256 ^ Z.of_nat 4). rewrite !le_mod, Z.shiftr_div_pow2 by lia. done. }
  apply emits_seq; apply emits_u32.
Qed.

(** Two's complement. *)
Lemma emits_i32 v : is_i32 v -> emits (writer_i32 v) (le 4 v).
Proof.
  intros H. unfold writer_i32. rewrite <-(le_mod 4 v). change (256 ^ Z.of_nat 4) with (2 ^ 32).
  case_match.
  - apply emits_u32.
  - assert (cast_u32 (0 - cast_u32 (- v)) = v mod 2 ^ 32) as <-.
    { unfold cast_u32. rewrite Zminus_mod_idemp_r. f_equal. lia. }
    apply emits_u32.
Qed.

Lemma emits_each {A} (f : A -> Writes) (w : A -> list Z) (l : list A) :
  (forall a, a ∈ l -> emits (f a) (w a)) -> emits (writes_each f l) (concat (w <$> l)).
Proof.
  induction l as [|a l IH]; intros H; [apply emits_nil|].
  apply emits_seq; [apply H; constructor|]. apply IH. intros. apply H. by constructor.
Qed.

Lemma emits_fixed_bytes l : emits (writer_fixed_bytes l) l.
Proof. by apply (emits_bytes (View l)). Qed.

#[export] Hint Resolve emits_nil emits_seq emits_u8 emits_u16 emits_u32 emits_u64
  emits_i32 emits_bytes emits_fixed_bytes : px4.

(** What an encoder does, given the bytes its writer program emits. *)
Definition encode_reference (output : ByteView) (wire : list Z) : Result Z * ByteView :=
  if negb (valid_view output) then (failure INVALID_ARGUMENT, output)
  else if view_size output <? zlen wire then (failure BUFFER_TOO_SMALL, output)
  else (success (zlen wire), with_bytes output (wire ++ zdrop (zlen wire) (view_bytes output))).

Lemma write_payload_emits output body wire required :
  emits body wire -> zlen wire = required ->
  write_payload output required body = Some (encode_reference output wire).
Proof.
  intros B <-. unfold write_payload, prepare_output, encode_reference.
  destruct (valid_view output) eqn:V; [|done]. simpl.
  destruct (Z.ltb_spec (view_size output) (zlen wire)) as [|S]; [done|].
  unfold init_Writer. specialize (B [] (view_bytes output)). rewrite zlen_nil in B. simpl in B.
  rewrite B by (destruct output as [n|l]; simpl in *; [apply Z.eqb_eq in V; zlen_lia|done]).
  done.
Qed.

Lemma encode_reference_success output wire n buf :
  encode_reference output wire = (success n, buf) ->
  n = zlen wire /\ ztake n (view_bytes buf) = wire.
Proof.
  unfold encode_reference. destruct (valid_view output) eqn:V; [simpl|done].
  destruct (Z.ltb_spec (view_size output) (zlen wire)) as [|S]; [done|].
  intros [= <- <-]. split; [done|]. destruct output as [k|l]; simpl in *.
  - apply Z.eqb_eq in V as ->. pose proof (zlen_nonneg wire).
    by rewrite (zlen_0 wire) by lia.
  - by rewrite ztake_app.
Qed.

(** * What a reader program consumes *)

(** The reader that stands before [l] with [pre] behind it. *)
Definition reader_at (pre l : list Z) : Reader :=
  {| rd_input := pre ++ l; rd_offset := zlen pre |}.

Definition reads {A} (p : ReaderM A) (bs : list Z) (v : A) : Prop :=
  forall pre tl, p (reader_at pre (bs ++ tl)) = Some (v, reader_at (pre ++ bs) tl).

(** The same at the end of the input. *)
Definition parses {A} (p : ReaderM A) (bs : list Z) (v : A) : Prop :=
  forall pre, p (reader_at pre bs) = Some (v, reader_at (pre ++ bs) []).

Lemma reads_bind {A B} (p : ReaderM A) (k : A -> ReaderM B) b1 b2 a v :
  reads p b1 a -> reads (k a) b2 v -> reads (p ≫= k) (b1 ++ b2) v.
Proof.
  intros P K pre tl. unfold mbind, ReaderM_bind. rewrite <-app_assoc, P, K.
  by rewrite app_assoc.
Qed.

Lemma parses_bind {A B} (p : ReaderM A) (k : A -> ReaderM B) b1 b2 a v :
  reads p b1 a -> parses (k a) b2 v -> parses (p ≫= k) (b1 ++ b2) v.
Proof.
  intros P K pre. unfold mbind, ReaderM_bind. rewrite P, K. by rewrite app_assoc.
Qed.

Lemma reads_ret {A} (v : A) : reads (mret v) [] v.
Proof. intros pre tl. by rewrite app_nil_r. Qed.
Lemma parses_ret {A} (v : A) : parses (mret v) [] v.
Proof. intros pre. by rewrite app_nil_r. Qed.

Lemma parses_ret_eq {A} (v w : A) : v = w -> parses (mret v) [] w.
Proof. intros ->. apply parses_ret. Qed.

Lemma parses_check {B} c (k : unit -> ReaderM B) bs v :
  c = true -> parses (k tt) bs v -> parses (reader_check c ≫= k) bs v.
Proof. intros -> K pre. apply K. Qed.

Lemma parses_finished {B} (k : unit -> ReaderM B) v :
  parses (k tt) [] v -> parses (reader_finished ≫= k) [] v.
Proof.
  intros K pre. unfold mbind, ReaderM_bind, reader_finished, finished.
  assert ((rd_offset (reader_at pre []) =? zlen (rd_input (reader_at pre []))) = true) as ->
    by (apply Z.eqb_eq; simpl; by rewrite app_nil_r).
  exact (K pre).
Qed.

Lemma remaining_at pre l : remaining (reader_at pre l) = zlen l.
Proof. unfold remaining. simpl. zlen_lia. Qed.

Lemma data_at_at pre l i : 0 <= i -> data_at (reader_at pre l) i = byte_at l i.
Proof. intros. unfold data_at. simpl. rewrite byte_at_app_r by lia. f_equal. lia. Qed.

Lemma advance_at pre bs tl n :
  zlen bs = n -> advance n (reader_at pre (bs ++ tl)) = reader_at (pre ++ bs) tl.
Proof. intros <-. unfold advance, reader_at. simpl. by rewrite app_assoc, zlen_app. Qed.

(** The value of little-endian bytes, as the reader computes it. *)
Lemma le_value4 b0 b1 b2 b3 :
  is_u8 b0 -> is_u8 b1 -> is_u8 b2 -> is_u8 b3 ->
  Z.lor (Z.lor (Z.lor b0 (cast_u32 (Z.shiftl b1 8))) (cast_u32 (Z.shiftl b2 16)))
    (cast_u32 (Z.shiftl b3 24)) = b0 + b1 * 2 ^ 8 + b2 * 2 ^ 16 + b3 * 2 ^ 24.
Proof.
  unfold is_u8. intros. unfold cast_u32.
  rewrite !(Z.mod_small (Z.shiftl _ _)) by (rewrite Z.shiftl_mul_pow2 by lia; lia).
  rewrite (lor_shiftl_add b0 b1 8), (lor_shiftl_add _ b2 16), (lor_shiftl_add _ b3 24) by lia.
  done.
Qed.

Lemma le_value2 b0 b1 :
  is_u8 b0 -> is_u8 b1 -> Z.lor b0 (cast_u16 (Z.shiftl b1 8)) = b0 + b1 * 2 ^ 8.
Proof.
  unfold is_u8. intros. unfold cast_u16.
  rewrite Z.mod_small by (rewrite Z.shiftl_mul_pow2 by lia; lia).
  by rewrite lor_shiftl_add by lia.
Qed.

Lemma le2_of_bytes b0 b1 : is_u8 b0 -> is_u8 b1 -> le 2 (b0 + b1 * 2 ^ 8) = [b0; b1].
Proof. unfold is_u8. intros. simpl. repeat f_equal; Z.to_euclidean_division_equations; lia. Qed.

Lemma le4_of_bytes b0 b1 b2 b3 :
  is_u8 b0 -> is_u8 b1 -> is_u8 b2 -> is_u8 b3 ->
  le 4 (b0 + b1 * 2 ^ 8 + b2 * 2 ^ 16 + b3 * 2 ^ 24) = [b0; b1; b2; b3].
Proof. unfold is_u8. intros. simpl. repeat f_equal; Z.to_euclidean_division_equations; lia. Qed.

Lemma le_split4 v : is_u32 v -> exists b0 b1 b2 b3,
  le 4 v = [b0; b1; b2; b3] /\ is_u8 b0 /\ is_u8 b1 /\ is_u8 b2 /\ is_u8 b3 /\
  v = b0 + b1 * 2 ^ 8 + b2 * 2 ^ 16 + b3 * 2 ^ 24.
Proof.
  intros H. simpl. do 4 eexists. split; [done|].
  repeat (split; [apply cast_u8_ok|]). unfold is_u32 in H.
  Z.to_euclidean_division_equations; lia.
Qed.

Lemma le_split2 v : is_u16 v -> exists b0 b1,
  le 2 v = [b0; b1] /\ is_u8 b0 /\ is_u8 b1 /\ v = b0 + b1 * 2 ^ 8.
Proof.
  intros H. simpl. do 2 eexists. split; [done|].
  repeat (split; [apply cast_u8_ok|]). unfold is_u16 in H.
  Z.to_euclidean_division_equations; lia.
Qed.

Lemma reads_u8 v : reads reader_u8 [v] v.
Proof.
  intros pre tl. unfold reader_u8. rewrite remaining_at, data_at_at by lia.
  rewrite (proj2 (Z.ltb_ge _ _)) by zlen_lia. by rewrite advance_at.
Qed.

Lemma reads_u16 v : is_u16 v -> reads reader_u16 (le 2 v) v.
Proof.
  intros H pre tl. destruct (le_split2 v H) as (b0 & b1 & -> & ? & ? & ->).
  unfold reader_u16. rewrite remaining_at, !data_at_at by lia.
  rewrite (proj2 (Z.ltb_ge _ _)) by zlen_lia. rewrite advance_at by done.
  change (byte_at _ 0) with b0. change (byte_at _ 1) with b1. by rewrite le_value2.
Qed.

Lemma reads_u32 v : is_u32 v -> reads reader_u32 (le 4 v) v.
Proof.
  intros H pre tl. destruct (le_split4 v H) as (b0 & b1 & b2 & b3 & -> & ? & ? & ? & ? & ->).
  unfold reader_u32. rewrite remaining_at, !data_at_at by lia.
  rewrite (proj2 (Z.ltb_ge _ _)) by zlen_lia. rewrite advance_at by done.
  change (byte_at _ 0) with b0. change (byte_at _ 1) with b1.
  change (byte_at _ 2) with b2. change (byte_at _ 3) with b3. by rewrite le_value4.
Qed.

Lemma reads_map {A B} (p : ReaderM A) (f : A -> B) bs a v :
  reads p bs a -> f a = v -> reads (a ← p; mret (f a)) bs v.
Proof. intros P <- pre tl. unfold mbind, ReaderM_bind. by rewrite P. Qed.

Lemma reads_i32 v : is_i32 v -> reads reader_i32 (le 4 v) v.
Proof.
  intros H pre tl. unfold reader_i32, mbind, ReaderM_bind. unfold is_i32 in H.
  rewrite <-(le_mod 4 v). change (256 ^ Z.of_nat 4) with (2 ^ 32).
  rewrite reads_u32 by (unfold is_u32; apply Z.mod_pos_bound; lia).
  destruct (Z_lt_ge_dec v 0) as [Hv|Hv].
  - assert (v mod 2 ^ 32 = v + 2 ^ 32) as ->.
    { rewrite <-(Z_mod_plus_full v 1). apply Z.mod_small. lia. }
    rewrite (proj2 (Z.leb_gt _ _)) by lia. unfold mret, ReaderM_ret. do 2 f_equal.
    unfold cast_u32. rewrite Zplus_mod_idemp_l.
    replace (Z.lnot (v + 2 ^ 32) + 1) with (- v + (- 1) * 2 ^ 32)
      by (pose proof (Z.add_lnot_diag (v + 2 ^ 32)); lia).
    rewrite Z_mod_plus_full, Z.mod_small by lia. lia.
  - rewrite Z.mod_small by lia. by rewrite (proj2 (Z.leb_le _ _)) by lia.
Qed.

Lemma reads_u64 v : is_u64 v -> reads reader_u64 (le 8 v) v.
Proof.
  intros H. unfold is_u64 in H. change 8%nat with (4 + 4)%nat. rewrite le_app.
  rewrite <-(le_mod 4 v). change (256 ^ Z.of_nat 4) with (2 ^ 32).
  assert (0 <= v / 2 ^ 32 < 2 ^ 32).
  { split; [apply Z.div_pos; lia|]. apply Z.div_lt_upper_bound; lia. }
  pose proof (Z.mod_pos_bound v (2 ^ 32) ltac:(lia)).
  apply (reads_bind _ _ _ _ (v mod 2 ^ 32)); [by apply reads_u32|].
  apply (reads_map _ _ _ (v / 2 ^ 32)); [by apply reads_u32|].
  unfold cast_u64. rewrite (Z.mod_small (Z.shiftl _ _)).
  - rewrite lor_shiftl_add by lia. pose proof (Z.div_mod v (2 ^ 32) ltac:(lia)). lia.
  - rewrite Z.shiftl_mul_pow2 by lia. lia.
Qed.

Lemma reads_bytes l n : zlen l = n -> reads (reader_bytes n) l (View l).
Proof.
  intros <- pre tl. unfold reader_bytes. rewrite remaining_at, advance_at by done.
  rewrite (proj2 (Z.ltb_ge _ _)) by zlen_lia. simpl.
  by rewrite zdrop_app, ztake_app by done.
Qed.

Lemma reads_fixed_bytes l n : zlen l = n -> reads (reader_fixed_bytes n) l l.
Proof. intros H. by apply (reads_map _ view_bytes _ (View l)); [apply reads_bytes|]. Qed.

Lemma reads_each {A B} (f : A -> ReaderM B) (w : B -> list Z) (l : list A) (bs : list B) :
  Forall2 (fun a b => reads (f a) (w b) b) l bs ->
  reads (reader_each f l) (concat (w <$> bs)) bs.
Proof.
  induction 1 as [|a b l bs H _ IH]; [apply reads_ret|]. simpl.
  eapply reads_bind; [exact H|]. rewrite <-(app_nil_r (concat _)).
  eapply reads_bind; [exact IH|]. apply reads_ret.
Qed.

(** * Inversion of a reader program *)

Lemma bind_inv {A B} (p : ReaderM A) (k : A -> ReaderM B) r v r' :
  (p ≫= k) r = Some (v, r') -> exists a r1, p r = Some (a, r1) /\ k a r1 = Some (v, r').
Proof. unfold mbind, ReaderM_bind. intros H. destruct (p r) as [[a r1]|]; naive_solver. Qed.

Lemma ret_inv {A} (a : A) r v r' : mret (M := ReaderM) a r = Some (v, r') -> v = a /\ r' = r.
Proof. unfold mret, ReaderM_ret. naive_solver. Qed.

Lemma check_inv c r v r' : reader_check c r = Some (v, r') -> c = true /\ r' = r.
Proof. unfold reader_check. destruct c; naive_solver. Qed.

Lemma finished_inv pre l v r' :
  reader_finished (reader_at pre l) = Some (v, r') -> l = [] /\ r' = reader_at pre [].
Proof.
  unfold reader_finished, finished. destruct (Z.eqb_spec (rd_offset (reader_at pre l)) (zlen (rd_input (reader_at pre l))))
    as [E|]; [|done].
  intros [= <- <-]. simpl in E. rewrite zlen_app in E. assert (l = []) as -> by (apply zlen_0; lia).
  done.
Qed.

(** What a primitive read returns and leaves. *)
Definition read_result {A} (pre l : list Z) (v : A) (bs : list Z) (r' : Reader) : Prop :=
  exists tl, l = bs ++ tl /\ r' = reader_at (pre ++ bs) tl /\ (bytes_ok l -> bytes_ok tl).

Lemma read_result_intro {A} pre l (v : A) bs n :
  ztake n l = bs -> 0 <= n <= zlen l -> read_result pre l v bs (advance n (reader_at pre l)).
Proof.
  intros <- Hn. exists (zdrop n l). rewrite ztake_zdrop. split; [done|]. split; [|apply bytes_ok_drop].
  rewrite <-(ztake_zdrop n l) at 1. apply advance_at. zlen_lia.
Qed.

Lemma u8_inv pre l v r' :
  bytes_ok l -> reader_u8 (reader_at pre l) = Some (v, r') ->
  is_u8 v /\ read_result pre l v [v] r'.
Proof.
  unfold reader_u8. intros OK. rewrite remaining_at. destruct (Z.ltb_spec (zlen l) 1); [done|].
  intros [= <- <-]. rewrite data_at_at by lia. split; [by apply byte_at_ok|].
  apply read_result_intro; [|lia]. destruct l; [done|]. reflexivity.
Qed.

Lemma u16_inv pre l v r' :
  bytes_ok l -> reader_u16 (reader_at pre l) = Some (v, r') ->
  is_u16 v /\ read_result pre l v (le 2 v) r'.
Proof.
  unfold reader_u16. intros OK. rewrite remaining_at. destruct (Z.ltb_spec (zlen l) 2) as [|L]; [done|].
  intros [= <- <-]. rewrite !data_at_at by lia.
  destruct l as [|b0 [|b1 l]]; [done..|]. change (byte_at _ 0) with b0. change (byte_at _ 1) with b1.
  apply Forall_cons in OK as [? OK]. apply Forall_cons in OK as [? OK]. rewrite le_value2 by done.
  split; [width_lia|]. apply read_result_intro; [|lia]. by rewrite le2_of_bytes.
Qed.

Lemma u32_inv pre l v r' :
  bytes_ok l -> reader_u32 (reader_at pre l) = Some (v, r') ->
  is_u32 v /\ read_result pre l v (le 4 v) r'.
Proof.
  unfold reader_u32. intros OK. rewrite remaining_at. destruct (Z.ltb_spec (zlen l) 4) as [|L]; [done|].
  intros [= <- <-]. rewrite !data_at_at by lia.
  destruct l as [|b0 [|b1 [|b2 [|b3 l]]]]; [done..|].
  change (byte_at _ 0) with b0. change (byte_at _ 1) with b1.
  change (byte_at _ 2) with b2. change (byte_at _ 3) with b3.
  repeat (apply Forall_cons in OK as [? OK]). rewrite le_value4 by done.
  split; [width_lia|]. apply read_result_intro; [|lia]. by rewrite le4_of_bytes.
Qed.

Lemma i32_inv pre l v r' :
  bytes_ok l -> reader_i32 (reader_at pre l) = Some (v, r') ->
  is_i32 v /\ read_result pre l v (le 4 v) r'.
Proof.
  intros OK H. unfold reader_i32 in H. apply bind_inv in H as (raw & r1 & H1 & H).
  apply u32_inv in H1 as [R (tl & -> & -> & OK')]; [|done].
  unfold is_u32 in R. destruct (Z.leb_spec raw (2 ^ 31 - 1)); apply ret_inv in H as [-> ->].
  - split; [unfold is_i32; lia|]. by exists tl.
  - assert (cast_u32 (cast_u32 (Z.lnot raw) + 1) = 2 ^ 32 - raw) as ->.
    { unfold cast_u32. rewrite Zplus_mod_idemp_l.
      pose proof (Z.add_lnot_diag raw). rewrite <-(Z_mod_plus_full _ 1).
      rewrite Z.mod_small; lia. }
    split; [unfold is_i32; lia|]. exists tl. split; [|split; [|done]].
    all: assert (le 4 raw = le 4 (- (2 ^ 32 - raw))) as <-; [|done].
    all: rewrite <-(le_mod 4 (- _)); change (256 ^ Z.of_nat 4) with (2 ^ 32).
    all: rewrite <-(Z_mod_plus_full _ 1), Z.mod_small by lia; f_equal; lia.
Qed.

Lemma u64_inv pre l v r' :
  bytes_ok l -> reader_u64 (reader_at pre l) = Some (v, r') ->
  is_u64 v /\ read_result pre l v (le 8 v) r'.
Proof.
  intros OK H. unfold reader_u64 in H.
  apply bind_inv in H as (lo & r1 & H1 & H). apply bind_inv in H as (hi & r2 & H2 & H).
  apply u32_inv in H1 as [R (tl & -> & -> & OK1)]; [|done].
  apply u32_inv in H2 as [R2 (tl2 & -> & -> & OK2)]; [|by apply OK1].
  apply ret_inv in H as [-> ->]. unfold is_u32 in *.
  unfold cast_u64. rewrite (Z.mod_small (Z.shiftl _ _)) by (rewrite Z.shiftl_mul_pow2; lia).
  rewrite lor_shiftl_add by lia. split; [unfold is_u64; lia|].
  exists tl2. assert (le 8 (lo + hi * 2 ^ 32) = le 4 lo ++ le 4 hi) as ->.
  { change 8%nat with (4 + 4)%nat. rewrite le_app, <-(le_mod 4 (lo + _)).
    change (256 ^ Z.of_nat 4) with (2 ^ 32).
    rewrite Z_mod_plus_full, Z.mod_small, Z.div_add, Z.div_small by lia. done. }
  rewrite <-!app_assoc. repeat split; auto.
Qed.

Lemma bytes_inv pre l n v r' :
  0 <= n -> bytes_ok l -> reader_bytes n (reader_at pre l) = Some (v, r') ->
  exists bs, v = View bs /\ zlen bs = n /\ bytes_ok bs /\ read_result pre l v bs r'.
Proof.
  unfold reader_bytes. intros Hn OK. rewrite remaining_at.
  destruct (Z.ltb_spec (zlen l) n) as [|L]; [done|].
  intros [= <- <-]. simpl. rewrite zdrop_app by done.
  exists (ztake n l). split; [done|]. split; [zlen_lia|]. split; [by apply bytes_ok_take|].
  by apply read_result_intro.
Qed.

Lemma fixed_bytes_inv pre l n v r' :
  0 <= n -> bytes_ok l -> reader_fixed_bytes n (reader_at pre l) = Some (v, r') ->
  zlen v = n /\ bytes_ok v /\ read_result pre l v v r'.
Proof.
  intros Hn OK H. unfold reader_fixed_bytes in H. apply bind_inv in H as (w & r1 & H1 & H).
  apply bytes_inv in H1 as (bs & -> & L & B & R); [|done..]. apply ret_inv in H as [-> ->].
  done.
Qed.

Lemma each_inv {A B} (f : A -> ReaderM B) (w : B -> list Z) (P : A -> B -> Prop) (xs : list A) :
  (forall a, a ∈ xs -> forall pre l b r', bytes_ok l -> f a (reader_at pre l) = Some (b, r') ->
     P a b /\ read_result pre l b (w b) r') ->
  forall pre l bs r', bytes_ok l -> reader_each f xs (reader_at pre l) = Some (bs, r') ->
    Forall2 P xs bs /\ read_result pre l bs (concat (w <$> bs)) r'.
Proof.
  induction xs as [|a xs IH]; intros F pre l bs r' OK H; simpl in H.
  - apply ret_inv in H as [-> ->]. split; [constructor|]. exists l. simpl.
    by rewrite app_nil_r.
  - apply bind_inv in H as (b & r1 & H1 & H). apply bind_inv in H as (bs' & r2 & H2 & H).
    apply ret_inv in H as [-> ->].
    apply F in H1 as [Pb (tl & -> & -> & OK1)]; [|constructor|done].
    apply IH in H2 as [Pbs (tl2 & -> & -> & OK2)];
      [|intros; apply F; [by constructor|done..]|auto].
    split; [by constructor|]. exists tl2. simpl. rewrite <-!app_assoc. repeat split; auto.
Qed.

(** Discharges the premises of [OK], the bytes left after a primitive read. *)
Ltac read_rest OK :=
  repeat match type of OK with
  | ?P -> _ => let K := fresh in assert P as K by (assumption || by auto); specialize (OK K)
  end.

(** Splits one use of a primitive read. *)
Ltac read_step H lem :=
  let tl := fresh "tl" in let OK := fresh "OK" in
  apply lem in H as [? (tl & -> & -> & OK)]; [read_rest OK | assumption].
Ltac read_step_bytes H :=
  let tl := fresh "tl" in let OK := fresh "OK" in
  apply bytes_inv in H as (? & -> & ? & ? & (tl & -> & -> & OK));
  [read_rest OK | width_lia | assumption].
Ltac read_step_fixed H :=
  let tl := fresh "tl" in let OK := fresh "OK" in
  apply fixed_bytes_inv in H as (? & ? & (tl & -> & -> & OK));
  [read_rest OK | done | assumption].

(** Takes a successful run of a reader program apart, field by field. *)
Ltac inv_reads :=
  repeat match goal with
  | H : (_ ≫= _) _ = Some _ |- _ => apply bind_inv in H as (? & ? & ? & H)
  | H : (let _ := _ in _) _ = Some _ |- _ => cbv zeta in H
  | H : mret _ _ = Some _ |- _ => apply ret_inv in H as [-> ->]
  | H : reader_check _ _ = Some _ |- _ => apply check_inv in H as [? ->]
  | H : reader_finished (reader_at _ _) = Some _ |- _ => apply finished_inv in H as [-> ->]
  | H : reader_u8 (reader_at _ _) = Some _ |- _ => read_step H u8_inv
  | H : reader_u16 (reader_at _ _) = Some _ |- _ => read_step H u16_inv
  | H : reader_u32 (reader_at _ _) = Some _ |- _ => read_step H u32_inv
  | H : reader_i32 (reader_at _ _) = Some _ |- _ => read_step H i32_inv
  | H : reader_u64 (reader_at _ _) = Some _ |- _ => read_step H u64_inv
  | H : reader_bytes _ (reader_at _ _) = Some _ |- _ => read_step_bytes H
  | H : reader_fixed_bytes _ (reader_at _ _) = Some _ |- _ => read_step_fixed H
  end; subst.

Lemma read_payload_success {A} l (body : ReaderM A) v :
  parses body l v -> read_payload (View l) body = success v.
Proof.
  intros P. unfold read_payload. simpl. change (init_Reader (View l)) with (reader_at [] l).
  by rewrite P.
Qed.

Lemma read_payload_success_nil {A} l (body : ReaderM A) v :
  parses body (l ++ []) v -> read_payload (View l) body = success v.
Proof. rewrite app_nil_r. apply read_payload_success. Qed.

Lemma read_payload_inv {A} l (body : ReaderM A) v :
  read_payload (View l) body = success v ->
  exists r, body (reader_at [] l) = Some (v, r).
Proof.
  unfold read_payload. simpl. change (init_Reader (View l)) with (reader_at [] l). intros H.
  destruct (body _) as [[v' r]|] eqn:E; [|done]. injection H as ->. by exists r.
Qed.

Lemma read_payload_failure {A} input (body : ReaderM A) e :
  read_payload input body = failure e -> e = PROTOCOL_ERROR.
Proof. unfold read_payload. repeat case_match; naive_solver. Qed.

#[global] Arguments le : simpl never.
