(* ===== verification/IpcCodecs.v ===== *)
(** The typed payload encoders and decoders of [src/ipc.cpp], one pair per
    payload struct, as writer and reader programs of [IpcWire]. *)

From S2P Require Import Prelude IpcTypes IpcWire.

(** Bits of a mask outside the allowed ones: [(value & ~mask) != 0U]. *)
Definition outside_mask (value mask : Z) : bool := negb (Z.land value (Z.lnot mask) =? 0).

(** * EmptyPayload *)

Definition encode_empty_payload (output : ByteView) : Encoded :=
  match prepare_output output 0 with
  | failure e => Some (failure e, output)
  | success _ => Some (success 0, output)
  end.

Definition decode_empty_payload (input : ByteView) : Result EmptyPayload :=
  if negb (valid_view input) || negb (view_size input =? 0) then failure PROTOCOL_ERROR
  else success empty_payload.

(** * HELLO *)

Definition version_range (value : HelloRequestPayload) : bool :=
  (min_major value <? max_major value)
  || ((min_major value =? max_major value) && (min_minor value <=? max_minor value)).

Definition encode_hello_request_payload (value : HelloRequestPayload) (output : ByteView) : Encoded :=
  if negb (version_range value) then invalid output
  else write_payload output 12
    (writer_u16 (min_major value) ;;; writer_u16 (min_minor value) ;;;
     writer_u16 (max_major value) ;;; writer_u16 (max_minor value) ;;;
     writer_u32 (requested_capabilities value)).

Definition decode_hello_request_payload (input : ByteView) : Result HelloRequestPayload :=
  read_payload input (
    min_major ← reader_u16;
    min_minor ← reader_u16;
    max_major ← reader_u16;
    max_minor ← reader_u16;
    requested_capabilities ← reader_u32;
    _ ← reader_finished;
    let value := {| min_major := min_major; min_minor := min_minor;
      max_major := max_major; max_minor := max_minor;
      requested_capabilities := requested_capabilities |} in
    _ ← reader_check (version_range value);
    mret value).

Definition hello_version (value : HelloResponsePayload) : bool :=
  (hello_major value =? kProtocolMajor) && (hello_minor value =? kProtocolMinor).

Definition encode_hello_response_payload (value : HelloResponsePayload) (output : ByteView) : Encoded :=
  if negb (hello_version value) then invalid output
  else write_payload output 8
    (writer_u16 (hello_major value) ;;; writer_u16 (hello_minor value) ;;;
     writer_u32 (capabilities value)).

Definition decode_hello_response_payload (input : ByteView) : Result HelloResponsePayload :=
  read_payload input (
    major ← reader_u16;
    minor ← reader_u16;
    capabilities ← reader_u32;
    _ ← reader_finished;
    let value := {| hello_major := major; hello_minor := minor;
      capabilities := capabilities |} in
    _ ← reader_check (hello_version value);
    mret value).

(** * LIST *)

(** [value.receivers[index]]. *)
Definition receiver_of (value : ListResponsePayload) (index : Z) : ReceiverRecord :=
  nth (Z.to_nat index) (receivers value) default_ReceiverRecord.

Definition valid_list_receivers (value : ListResponsePayload) : bool :=
  forallb (fun index => valid_receiver_record (receiver_of value index) (receiver_count value) index)
    (receiver_indices (receiver_count value)).

Definition write_receiver (receiver : ReceiverRecord) : Writes :=
  writer_u8 (global_id receiver) ;;; writer_u8 (dev_id receiver) ;;;
  writer_u8 (local_id receiver) ;;; writer_u8 (to_raw (receiver_system receiver)).

Definition list_required (value : ListResponsePayload) : Z :=
  14 + 4 * receiver_count value + view_size (serial_utf8 value).

Definition encode_list_response_payload (value : ListResponsePayload) (output : ByteView) : Encoded :=
  if negb (valid_utf8 (serial_utf8 value)) || (2 ^ 16 - 1 <? view_size (serial_utf8 value))
     || negb (valid_boolean (list_ready value))
     || outside_mask (list_usb_present_mask value) kUsbPresentMask
  then invalid output
  else if negb (valid_receiver_count (receiver_count value))
     || outside_mask (list_usb_present_mask value) (usb_present_mask_for (receiver_count value))
  then invalid output
  else if negb (valid_list_receivers value) then invalid output
  else if kMaxControlPayload <? list_required value then invalid output
  else write_payload output (list_required value)
    (writer_u64 (list_generation value) ;;;
     writer_u16 (cast_u16 (view_size (serial_utf8 value))) ;;;
     writer_bytes (serial_utf8 value) ;;;
     writer_u8 (list_ready value) ;;;
     writer_u8 (list_usb_present_mask value) ;;;
     writer_u8 (receiver_count value) ;;;
     writer_u8 kCardReaderCount ;;;
     writes_each (fun index => write_receiver (receiver_of value index))
       (receiver_indices (receiver_count value))).

Definition read_receiver (receiver_count index : Z) : ReaderM ReceiverRecord :=
  global_id ← reader_u8;
  dev_id ← reader_u8;
  local_id ← reader_u8;
  system ← reader_u8;
  let receiver := {| global_id := global_id; dev_id := dev_id; local_id := local_id;
    receiver_system := of_raw system |} in
  _ ← reader_check (valid_receiver_record receiver receiver_count index);
  mret receiver.

(** The records read, in the array of default records. *)
Definition fill_receivers (rs : list ReceiverRecord) : list ReceiverRecord :=
  rs ++ drop (length rs) (replicate (Z.to_nat kReceiverCount) default_ReceiverRecord).

Definition decode_list_response_payload (input : ByteView) : Result ListResponsePayload :=
  read_payload input (
    _ ← reader_check (view_size input <=? kMaxControlPayload);
    generation ← reader_u64;
    serial_length ← reader_u16;
    serial_utf8 ← reader_bytes serial_length;
    _ ← reader_check (valid_utf8 serial_utf8);
    ready ← reader_u8;
    usb_present_mask ← reader_u8;
    receiver_count ← reader_u8;
    card_count ← reader_u8;
    _ ← reader_check (valid_boolean ready
          && negb (outside_mask usb_present_mask kUsbPresentMask)
          && valid_receiver_count receiver_count && (card_count =? kCardReaderCount)
          && negb (outside_mask usb_present_mask (usb_present_mask_for receiver_count)));
    rs ← reader_each (read_receiver receiver_count) (receiver_indices receiver_count);
    _ ← reader_finished;
    mret {| list_generation := generation; serial_utf8 := serial_utf8; list_ready := ready;
      list_usb_present_mask := usb_present_mask; receivers := fill_receivers rs;
      receiver_count := receiver_count |}).

(** * STATUS *)

Definition encode_status_response_payload (value : StatusResponsePayload) (output : ByteView) : Encoded :=
  if negb (valid_boolean (status_ready value)) || negb (valid_boolean (card_present value))
     || negb (valid_boolean (card_initialized value))
     || outside_mask (status_usb_present_mask value) kUsbPresentMask
  then invalid output
  else if negb (forallb valid_receiver_state (receiver_states value)) then invalid output
  else write_payload output 36
    (writer_u64 (status_generation value) ;;;
     writer_u8 (status_ready value) ;;;
     writer_u8 (status_usb_present_mask value) ;;;
     writer_u8 (card_present value) ;;;
     writer_u8 (card_initialized value) ;;;
     writes_each (fun state => writer_u8 (to_raw state)) (receiver_states value) ;;;
     writer_u64 (status_usb_errors value) ;;;
     writer_u64 (protocol_errors value)).

Definition read_receiver_state (_ : Z) : ReaderM ReceiverState :=
  raw ← reader_u8;
  let state := of_raw raw in
  _ ← reader_check (valid_receiver_state state);
  mret state.

Definition decode_status_response_payload (input : ByteView) : Result StatusResponsePayload :=
  read_payload input (
    generation ← reader_u64;
    ready ← reader_u8;
    usb_present_mask ← reader_u8;
    card_present ← reader_u8;
    card_initialized ← reader_u8;
    _ ← reader_check (valid_boolean ready && valid_boolean card_present
          && valid_boolean card_initialized
          && negb (outside_mask usb_present_mask kUsbPresentMask));
    states ← reader_each read_receiver_state (seqZ 0 kReceiverCount);
    usb_errors ← reader_u64;
    protocol_errors ← reader_u64;
    _ ← reader_finished;
    mret {| status_generation := generation; status_ready := ready;
      status_usb_present_mask := usb_present_mask; card_present := card_present;
      card_initialized := card_initialized; receiver_states := states;
      status_usb_errors := usb_errors; protocol_errors := protocol_errors |}).

(** * ACQUIRE, leases and card handles *)

Definition encode_acquire_request_payload (value : AcquireRequestPayload) (output : ByteView) : Encoded :=
  if kReceiverCount <=? receiver_id value then invalid output
  else write_payload output 1 (writer_u8 (receiver_id value)).

Definition decode_acquire_request_payload (input : ByteView) : Result AcquireRequestPayload :=
  read_payload input (
    receiver_id ← reader_u8;
    _ ← reader_finished;
    _ ← reader_check (negb (kReceiverCount <=? receiver_id));
    mret {| receiver_id := receiver_id |}).

Definition encode_acquire_response_payload (value : AcquireResponsePayload) (output : ByteView) : Encoded :=
  write_payload output 24
    (writer_u64 (acquire_lease_id value) ;;; writer_fixed_bytes (acquire_nonce value)).

Definition decode_acquire_response_payload (input : ByteView) : Result AcquireResponsePayload :=
  read_payload input (
    lease_id ← reader_u64;
    nonce ← reader_fixed_bytes kNonceLength;
    _ ← reader_finished;
    mret {| acquire_lease_id := lease_id; acquire_nonce := nonce |}).

Definition encode_lease_request_payload (value : LeaseRequestPayload) (output : ByteView) : Encoded :=
  write_payload output 8 (writer_u64 (lease_id value)).

Definition decode_lease_request_payload (input : ByteView) : Result LeaseRequestPayload :=
  read_payload input (
    lease_id ← reader_u64;
    _ ← reader_finished;
    mret {| lease_id := lease_id |}).

Definition encode_card_handle_request_payload (value : CardHandleRequestPayload) (output : ByteView) : Encoded :=
  write_payload output 8 (writer_u64 (card_handle value)).

Definition decode_card_handle_request_payload (input : ByteView) : Result CardHandleRequestPayload :=
  read_payload input (
    card_handle ← reader_u64;
    _ ← reader_finished;
    mret {| card_handle := card_handle |}).

(** * TUNE *)

Definition encode_tune_request_payload (value : TuneRequestPayload) (output : ByteView) : Encoded :=
  if negb (valid_tune value) then invalid output
  else write_payload output 30
    (writer_u64 (tune_lease_id value) ;;;
     writer_u8 (to_raw (tune_system value)) ;;;
     writer_u64 (frequency_khz value) ;;;
     writer_u16 (stream_id value) ;;;
     writer_u16 (slot value) ;;;
     writer_u32 (bandwidth_hz value) ;;;
     writer_u8 (lnb_voltage value) ;;;
     writer_u32 (timeout_ms value)).

Definition decode_tune_request_payload (input : ByteView) : Result TuneRequestPayload :=
  read_payload input (
    lease_id ← reader_u64;
    system ← reader_u8;
    frequency_khz ← reader_u64;
    stream_id ← reader_u16;
    slot ← reader_u16;
    bandwidth_hz ← reader_u32;
    lnb_voltage ← reader_u8;
    timeout_ms ← reader_u32;
    _ ← reader_finished;
    let value := {| tune_lease_id := lease_id; tune_system := of_raw system;
      frequency_khz := frequency_khz; stream_id := stream_id; slot := slot;
      bandwidth_hz := bandwidth_hz; lnb_voltage := lnb_voltage; timeout_ms := timeout_ms |} in
    _ ← reader_check (negb (negb (valid_system (tune_system value))
          || negb (lnb_voltage =? 0) && negb (lnb_voltage =? 15)));
    mret value).

Definition encode_tune_response_payload (value : TuneResponsePayload) (output : ByteView) : Encoded :=
  if negb (valid_boolean (locked value)) then invalid output
  else write_payload output 5 (writer_u8 (locked value) ;;; writer_i32 (cnr_mdb value)).

Definition decode_tune_response_payload (input : ByteView) : Result TuneResponsePayload :=
  read_payload input (
    locked ← reader_u8;
    cnr_mdb ← reader_i32;
    _ ← reader_finished;
    _ ← reader_check (valid_boolean locked);
    mret {| locked := locked; cnr_mdb := cnr_mdb |}).

(** * Counters *)

Definition write_counters (value : CountersPayload) : Writes :=
  writer_u64 (packets value) ;;;
  writer_u64 (counter_bytes value) ;;;
  writer_u64 (sync_errors value) ;;;
  writer_u64 (tei_packets value) ;;;
  writer_u64 (continuity_errors value) ;;;
  writer_u64 (queue_drops value) ;;;
  writer_u64 (usb_errors value) ;;;
  writer_u64 (empty_intervals value).

(** Reads into a default-initialised payload. *)
Definition read_counters : ReaderM CountersPayload :=
  packets ← reader_u64;
  bytes ← reader_u64;
  sync_errors ← reader_u64;
  tei_packets ← reader_u64;
  continuity_errors ← reader_u64;
  queue_drops ← reader_u64;
  usb_errors ← reader_u64;
  empty_intervals ← reader_u64;
  mret {| packets := packets; counter_bytes := bytes; sync_errors := sync_errors;
    tei_packets := tei_packets; continuity_errors := continuity_errors;
    queue_drops := queue_drops; usb_errors := usb_errors;
    empty_intervals := empty_intervals; availability := default_availability |}.

Definition encode_counters_payload (value : CountersPayload) (output : ByteView) : Encoded :=
  write_payload output kCountersPayloadSize (write_counters value).

Definition decode_counters_payload (input : ByteView) : Result CountersPayload :=
  read_payload input (
    value ← read_counters;
    _ ← reader_finished;
    mret value).

(** * CARD *)

(** The guards of the card-status codec on [initialized], [present] and the ATR size. *)
Definition card_status_consistent (initialized present atr_size : Z) : bool :=
  negb ((initialized =? 0) && negb (atr_size =? 0))
  && negb (negb (initialized =? 0) && ((present =? 0) || (atr_size =? 0))).

Definition encode_card_status_response_payload (value : CardStatusResponsePayload) (output : ByteView) : Encoded :=
  if negb (valid_boolean (present value)) || negb (valid_boolean (initialized value))
     || negb (valid_atr (card_status_atr value))
     || negb (card_status_consistent (initialized value) (present value)
                (view_size (card_status_atr value)))
  then invalid output
  else write_payload output (11 + view_size (card_status_atr value))
    (writer_u8 (present value) ;;;
     writer_u8 (initialized value) ;;;
     writer_u64 (reader_generation value) ;;;
     writer_u8 (cast_u8 (view_size (card_status_atr value))) ;;;
     writer_bytes (card_status_atr value)).

Definition decode_card_status_response_payload (input : ByteView) : Result CardStatusResponsePayload :=
  read_payload input (
    present ← reader_u8;
    initialized ← reader_u8;
    reader_generation ← reader_u64;
    atr_length ← reader_u8;
    _ ← reader_check (atr_length <=? kMaxAtrLength);
    atr ← reader_bytes atr_length;
    _ ← reader_finished;
    _ ← reader_check (valid_boolean present && valid_boolean initialized
          && card_status_consistent initialized present (view_size atr));
    mret {| present := present; initialized := initialized;
      reader_generation := reader_generation; card_status_atr := atr |}).

Definition encode_card_connect_request_payload (value : CardConnectRequestPayload) (output : ByteView) : Encoded :=
  if negb (valid_share_mode (connect_share_mode value)) then invalid output
  else write_payload output 1 (writer_u8 (to_raw (connect_share_mode value))).

Definition decode_card_connect_request_payload (input : ByteView) : Result CardConnectRequestPayload :=
  read_payload input (
    raw ← reader_u8;
    _ ← reader_finished;
    let share_mode := of_raw raw in
    _ ← reader_check (valid_share_mode share_mode);
    mret {| connect_share_mode := share_mode |}).

Definition encode_card_connect_response_payload (value : CardConnectResponsePayload) (output : ByteView) : Encoded :=
  if negb (valid_atr (connect_atr value)) then invalid output
  else write_payload output (9 + view_size (connect_atr value))
    (writer_u64 (connect_card_handle value) ;;;
     writer_u8 (cast_u8 (view_size (connect_atr value))) ;;;
     writer_bytes (connect_atr value)).

Definition decode_card_connect_response_payload (input : ByteView) : Result CardConnectResponsePayload :=
  read_payload input (
    card_handle ← reader_u64;
    atr_length ← reader_u8;
    _ ← reader_check (atr_length <=? kMaxAtrLength);
    atr ← reader_bytes atr_length;
    _ ← reader_finished;
    mret {| connect_card_handle := card_handle; connect_atr := atr |}).

Definition encode_card_reconnect_request_payload (value : CardReconnectRequestPayload) (output : ByteView) : Encoded :=
  if negb (valid_share_mode (reconnect_share_mode value))
     || negb (valid_disposition (reconnect_disposition value)) then invalid output
  else write_payload output 10
    (writer_u64 (reconnect_card_handle value) ;;;
     writer_u8 (to_raw (reconnect_share_mode value)) ;;;
     writer_u8 (to_raw (reconnect_disposition value))).

Definition decode_card_reconnect_request_payload (input : ByteView) : Result CardReconnectRequestPayload :=
  read_payload input (
    card_handle ← reader_u64;
    share_mode ← reader_u8;
    disposition ← reader_u8;
    _ ← reader_finished;
    let value := {| reconnect_card_handle := card_handle;
      reconnect_share_mode := of_raw share_mode;
      reconnect_disposition := of_raw disposition |} in
    _ ← reader_check (valid_share_mode (reconnect_share_mode value)
          && valid_disposition (reconnect_disposition value));
    mret value).

Definition encode_atr_payload (value : AtrPayload) (output : ByteView) : Encoded :=
  if negb (valid_atr (atr value)) then invalid output
  else write_payload output (1 + view_size (atr value))
    (writer_u8 (cast_u8 (view_size (atr value))) ;;; writer_bytes (atr value)).

Definition decode_atr_payload (input : ByteView) : Result AtrPayload :=
  read_payload input (
    length ← reader_u8;
    _ ← reader_check (length <=? kMaxAtrLength);
    atr ← reader_bytes length;
    _ ← reader_finished;
    mret {| atr := atr |}).

Definition encode_card_disposition_request_payload (value : CardDispositionRequestPayload) (output : ByteView) : Encoded :=
  if negb (valid_disposition (disposition value)) then invalid output
  else write_payload output 9
    (writer_u64 (disposition_card_handle value) ;;; writer_u8 (to_raw (disposition value))).

Definition decode_card_disposition_request_payload (input : ByteView) : Result CardDispositionRequestPayload :=
  read_payload input (
    card_handle ← reader_u64;
    raw ← reader_u8;
    _ ← reader_finished;
    let disposition := of_raw raw in
    _ ← reader_check (valid_disposition disposition);
    mret {| disposition_card_handle := card_handle; disposition := disposition |}).

Definition encode_card_transmit_request_payload (value : CardTransmitRequestPayload) (output : ByteView) : Encoded :=
  if negb (valid_view (apdu value)) || (kMaxCardPayload <? view_size (apdu value)) then invalid output
  else write_payload output (12 + view_size (apdu value))
    (writer_u64 (transmit_card_handle value) ;;;
     writer_u32 (cast_u32 (view_size (apdu value))) ;;;
     writer_bytes (apdu value)).

Definition decode_card_transmit_request_payload (input : ByteView) : Result CardTransmitRequestPayload :=
  read_payload input (
    card_handle ← reader_u64;
    length ← reader_u32;
    _ ← reader_check (length <=? kMaxCardPayload);
    apdu ← reader_bytes length;
    _ ← reader_finished;
    mret {| transmit_card_handle := card_handle; apdu := apdu |}).

Definition encode_card_transmit_response_payload (value : CardTransmitResponsePayload) (output : ByteView) : Encoded :=
  if negb (valid_view (transmit_response value))
     || (kMaxCardPayload <? view_size (transmit_response value)) then invalid output
  else write_payload output (4 + view_size (transmit_response value))
    (writer_u32 (cast_u32 (view_size (transmit_response value))) ;;;
     writer_bytes (transmit_response value)).

Definition decode_card_transmit_response_payload (input : ByteView) : Result CardTransmitResponsePayload :=
  read_payload input (
    length ← reader_u32;
    _ ← reader_check (length <=? kMaxCardPayload);
    response ← reader_bytes length;
    _ ← reader_finished;
    mret {| transmit_response := response |}).

(** * Streams *)

Definition encode_attach_stream_request_payload (value : AttachStreamRequestPayload) (output : ByteView) : Encoded :=
  write_payload output 24
    (writer_u64 (attach_lease_id value) ;;; writer_fixed_bytes (attach_nonce value)).

Definition decode_attach_stream_request_payload (input : ByteView) : Result AttachStreamRequestPayload :=
  read_payload input (
    lease_id ← reader_u64;
    nonce ← reader_fixed_bytes kNonceLength;
    _ ← reader_finished;
    mret {| attach_lease_id := lease_id; attach_nonce := nonce |}).

Definition encode_ts_data_event_payload (value : TsDataEventPayload) (output : ByteView) : Encoded :=
  if negb (valid_view (ts_bytes value)) || (kMaxTsBytes <? view_size (ts_bytes value))
     || negb (view_size (ts_bytes value) mod 188 =? 0) then invalid output
  else write_payload output (20 + view_size (ts_bytes value))
    (writer_u64 (sequence value) ;;;
     writer_u64 (cumulative_drop_count value) ;;;
     writer_u32 (cast_u32 (view_size (ts_bytes value))) ;;;
     writer_bytes (ts_bytes value)).

Definition decode_ts_data_event_payload (input : ByteView) : Result TsDataEventPayload :=
  read_payload input (
    sequence ← reader_u64;
    cumulative_drop_count ← reader_u64;
    length ← reader_u32;
    _ ← reader_check ((length <=? kMaxTsBytes) && (length mod 188 =? 0));
    bytes ← reader_bytes length;
    _ ← reader_finished;
    mret {| sequence := sequence; cumulative_drop_count := cumulative_drop_count;
      ts_bytes := bytes |}).

Definition encode_device_event_payload (value : DeviceEventPayload) (output : ByteView) : Encoded :=
  if negb (valid_device_event_kind (event_kind value))
     || negb (valid_event_target (target_type value) (target_id value)) then invalid output
  else write_payload output 11
    (writer_u64 (event_generation value) ;;;
     writer_u8 (to_raw (event_kind value)) ;;;
     writer_u8 (to_raw (target_type value)) ;;;
     writer_u8 (target_id value)).

Definition decode_device_event_payload (input : ByteView) : Result DeviceEventPayload :=
  read_payload input (
    generation ← reader_u64;
    kind ← reader_u8;
    target_type ← reader_u8;
    target_id ← reader_u8;
    _ ← reader_finished;
    let value := {| event_generation := generation; event_kind := of_raw kind;
      target_type := of_raw target_type; target_id := target_id |} in
    _ ← reader_check (valid_device_event_kind (event_kind value)
          && valid_event_target (IpcTypes.target_type value) target_id);
    mret value).

Definition encode_stream_end_event_payload (value : StreamEndEventPayload) (output : ByteView) : Encoded :=
  if negb (is_known_error_code (stream_error_code value)) then invalid output
  else write_payload output 68
    (write_counters (counters value) ;;; writer_u32 (to_raw (stream_error_code value))).

Definition decode_stream_end_event_payload (input : ByteView) : Result StreamEndEventPayload :=
  read_payload input (
    counters ← read_counters;
    raw ← reader_u32;
    _ ← reader_finished;
    let error_code := of_raw raw in
    _ ← reader_check (is_known_error_code error_code);
    mret {| counters := counters; stream_error_code := error_code |}).

(** * Error responses *)

Definition encode_error_response_payload (value : ErrorResponsePayload) (output : ByteView) : Encoded :=
  if eqb (error_code value) EC_OK || negb (is_known_error_code (error_code value))
     || negb (valid_utf8 (detail_utf8 value))
     || (2 ^ 16 - 1 <? view_size (detail_utf8 value))
     || (kMaxControlPayload - 6 <? view_size (detail_utf8 value)) then invalid output
  else write_payload output (6 + view_size (detail_utf8 value))
    (writer_u32 (to_raw (error_code value)) ;;;
     writer_u16 (cast_u16 (view_size (detail_utf8 value))) ;;;
     writer_bytes (detail_utf8 value)).

Definition decode_error_response_payload (input : ByteView) : Result ErrorResponsePayload :=
  read_payload input (
    _ ← reader_check (view_size input <=? kMaxControlPayload);
    raw ← reader_u32;
    detail_length ← reader_u16;
    detail_utf8 ← reader_bytes detail_length;
    _ ← reader_finished;
    _ ← reader_check (valid_utf8 detail_utf8);
    let error_code := of_raw raw in
    _ ← reader_check (negb (eqb error_code EC_OK) && is_known_error_code error_code);
    mret {| error_code := error_code; detail_utf8 := detail_utf8 |}).
