(* ===== verification/IpcPayload.v ===== *)
(** Correctness of the payload codecs: every payload struct is an instance of
    one interface, [CodecLaws], and the theorems about encoding and decoding are
    proved once, against the interface, for all the payloads the header
    declares a codec for. *)

From S2P Require Import Prelude IpcTypes IpcWire IpcCodecs.

#[local] Arguments app : simpl never.
#[local] Arguments to_raw : simpl never.
#[local] Arguments of_raw : simpl never.

(** * The interface *)

Class Codec (A : Type) := {
  encode_payload : A -> ByteView -> Encoded;
  decode_payload : ByteView -> Result A;
}.

(** [typed] says that the fields fit their C++ types; [encodable] and
    [decodable] are what encoder and decoder accept; [normal] is the form in
    which the decoder returns a value. *)
Class CodecLaws (A : Type) `{Codec A} := {
  wire : A -> list Z;
  typed : A -> Prop;
  encodable : A -> bool;
  decodable : A -> bool;
  normal : A -> A;
  encode_spec : forall v output, typed v ->
    encode_payload v output =
    Some (if encodable v then encode_reference output (wire v)
          else (failure INVALID_ARGUMENT, output));
  encodable_decodable : forall v, typed v -> encodable v = true -> decodable v = true;
  decode_complete : forall v, typed v -> decodable v = true ->
    decode_payload (View (wire v)) = success (normal v);
  decode_sound : forall l v, bytes_ok l -> decode_payload (View l) = success v ->
    l = wire v /\ typed v /\ decodable v = true /\ normal v = v;
}.

(** * Views inside payloads *)

Definition view_ok (v : ByteView) : Prop :=
  match v with NullView n => 0 <= n < 2 ^ 64 | View l => bytes_ok l end.

(** A null view without bytes comes back as a view of no bytes. *)
Definition normal_view (v : ByteView) : ByteView := View (view_bytes v).

Lemma valid_view_size v : valid_view v = true -> view_size v = zlen (view_bytes v).
Proof. destruct v; simpl; [intros E; by apply Z.eqb_eq in E as ->|done]. Qed.

Lemma valid_utf8_view v : valid_utf8 v = true -> valid_view v = true.
Proof. unfold valid_utf8. by destruct (valid_view v). Qed.

Lemma valid_utf8_normal v : valid_utf8 v = true -> valid_utf8 (normal_view v) = true.
Proof.
  intros U. pose proof (valid_utf8_view _ U) as V. revert U. unfold valid_utf8, normal_view.
  rewrite V. simpl. by rewrite (valid_view_size _ V).
Qed.

Lemma valid_atr_view v : valid_atr v = true -> valid_view v = true /\ view_size v <= kMaxAtrLength.
Proof. unfold valid_atr. intros. bool_hyps. split; [done|by apply Z.leb_le]. Qed.

Lemma cast_u8_small z : 0 <= z < 2 ^ 8 -> cast_u8 z = z.
Proof. apply Z.mod_small. Qed.
Lemma cast_u16_small z : 0 <= z < 2 ^ 16 -> cast_u16 z = z.
Proof. apply Z.mod_small. Qed.
Lemma cast_u32_small z : 0 <= z < 2 ^ 32 -> cast_u32 z = z.
Proof. apply Z.mod_small. Qed.

(** * Automation for the instances *)

(** A writer program emits the concatenation of its fields. *)
Ltac solve_emits :=
  repeat first [ apply emits_seq | apply emits_u16 | apply emits_u32 | apply emits_u64
    | apply emits_u8 | apply emits_fixed_bytes ];
  eauto with px4.

(** The shape of most encoders: a guard, then the writer program. *)
Ltac solve_encode :=
  lazymatch goal with
  | |- (if negb ?c then invalid _ else _) = _ => destruct c eqn:?; [simpl|done]
  | |- (if ?c then invalid _ else _) = _ => destruct c eqn:?; [done|simpl]
  | _ => idtac
  end;
  bool_hyps;
  apply write_payload_emits; [solve_emits|zlen_lia].

Ltac reads_field :=
  first [ apply reads_u8 | apply reads_u16 | apply reads_u32 | apply reads_u64 | apply reads_i32
        | apply reads_bytes | apply reads_fixed_bytes ].

(** Runs a reader program over the concatenation of its fields. *)
Ltac solve_parses :=
  repeat first
  [ apply parses_finished
  | apply parses_check
  | eapply parses_bind; [reads_field|]
  | apply parses_ret_eq ].

(** Rewrites the enumeration values a typed payload holds. *)
Ltac enum_rewrite :=
  repeat match goal with
  | H : enum_ok _ ?x |- _ => let E := fresh in destruct H as [E ?]; rewrite ?E
  end.

(** [decode_complete]: the fields of the value are read back. *)
Ltac solve_complete :=
  apply read_payload_success_nil; rewrite <-?app_assoc; solve_parses;
  enum_rewrite; try assumption; try reflexivity; try congruence; try zlen_lia.

(** A boolean goal from its parts. *)
Ltac solve_bool :=
  repeat first [ assumption | reflexivity | apply andb_true_intro; split | apply orb_false_intro
               | apply (proj2 (negb_true_iff _)) | apply (proj2 (negb_false_iff _)) ].

(** [decode_sound]: the bytes read are the wire form of the value returned. *)
Ltac start_sound :=
  intros ?l ?v ?OK H; simpl in H; apply read_payload_inv in H as (? & H); inv_reads;
  bool_hyps; simpl; rewrite ?app_nil_r, ?to_of_raw.
Ltac solve_sound :=
  start_sound; split_and!;
  try assumption; try reflexivity; try (apply enum_ok_of_raw; assumption); try solve [solve_bool].

(** * Payloads of fixed size *)

#[export] Instance HelloRequest_codec : Codec HelloRequestPayload := {
  encode_payload := encode_hello_request_payload;
  decode_payload := decode_hello_request_payload;
}.
#[export] Program Instance HelloRequest_laws : CodecLaws HelloRequestPayload := {
  wire v := le 2 (min_major v) ++ le 2 (min_minor v) ++ le 2 (max_major v) ++
    le 2 (max_minor v) ++ le 4 (requested_capabilities v);
  typed v := is_u16 (min_major v) /\ is_u16 (min_minor v) /\ is_u16 (max_major v) /\
    is_u16 (max_minor v) /\ is_u32 (requested_capabilities v);
  encodable := version_range;
  decodable := version_range;
  normal v := v;
}.
Next Obligation. intros v output T. simpl. unfold encode_hello_request_payload. solve_encode. Qed.
Next Obligation. done. Qed.
Next Obligation. intros [] (?&?&?&?&?) D; simpl in *. solve_complete. Qed.
Next Obligation. solve_sound. Qed.

#[export] Instance HelloResponse_codec : Codec HelloResponsePayload := {
  encode_payload := encode_hello_response_payload;
  decode_payload := decode_hello_response_payload;
}.
#[export] Program Instance HelloResponse_laws : CodecLaws HelloResponsePayload := {
  wire v := le 2 (hello_major v) ++ le 2 (hello_minor v) ++ le 4 (capabilities v);
  typed v := is_u16 (hello_major v) /\ is_u16 (hello_minor v) /\ is_u32 (capabilities v);
  encodable := hello_version;
  decodable := hello_version;
  normal v := v;
}.
Next Obligation. intros v output T. simpl. unfold encode_hello_response_payload. solve_encode. Qed.
Next Obligation. done. Qed.
Next Obligation. intros [] (?&?&?) D; simpl in *. solve_complete. Qed.
Next Obligation. solve_sound. Qed.

#[export] Instance AcquireRequest_codec : Codec AcquireRequestPayload := {
  encode_payload := encode_acquire_request_payload;
  decode_payload := decode_acquire_request_payload;
}.
#[export] Program Instance AcquireRequest_laws : CodecLaws AcquireRequestPayload := {
  wire v := [receiver_id v];
  typed v := is_u8 (receiver_id v);
  encodable v := negb (kReceiverCount <=? receiver_id v);
  decodable v := negb (kReceiverCount <=? receiver_id v);
  normal v := v;
}.
Next Obligation. intros v output T. simpl. unfold encode_acquire_request_payload. solve_encode. Qed.
Next Obligation. done. Qed.
Next Obligation. intros [] ? D; simpl in *. solve_complete. Qed.
Next Obligation. solve_sound. Qed.

#[export] Instance AcquireResponse_codec : Codec AcquireResponsePayload := {
  encode_payload := encode_acquire_response_payload;
  decode_payload := decode_acquire_response_payload;
}.
#[export] Program Instance AcquireResponse_laws : CodecLaws AcquireResponsePayload := {
  wire v := le 8 (acquire_lease_id v) ++ acquire_nonce v;
  typed v := is_u64 (acquire_lease_id v) /\ zlen (acquire_nonce v) = kNonceLength /\
    bytes_ok (acquire_nonce v);
  encodable v := true;
  decodable v := true;
  normal v := v;
}.
Next Obligation.
  intros v output (?&N&?). simpl. unfold encode_acquire_response_payload.
  unfold kNonceLength in N. solve_encode.
Qed.
Next Obligation. done. Qed.
Next Obligation. intros [] (?&?&?) D; simpl in *. solve_complete. Qed.
Next Obligation. solve_sound. Qed.

#[export] Instance LeaseRequest_codec : Codec LeaseRequestPayload := {
  encode_payload := encode_lease_request_payload;
  decode_payload := decode_lease_request_payload;
}.
#[export] Program Instance LeaseRequest_laws : CodecLaws LeaseRequestPayload := {
  wire v := le 8 (lease_id v);
  typed v := is_u64 (lease_id v);
  encodable v := true;
  decodable v := true;
  normal v := v;
}.
Next Obligation. intros v output T. simpl. unfold encode_lease_request_payload. solve_encode. Qed.
Next Obligation. done. Qed.
Next Obligation. intros [] ? D; simpl in *. solve_complete. Qed.
Next Obligation. solve_sound. Qed.

#[export] Instance CardHandleRequest_codec : Codec CardHandleRequestPayload := {
  encode_payload := encode_card_handle_request_payload;
  decode_payload := decode_card_handle_request_payload;
}.
#[export] Program Instance CardHandleRequest_laws : CodecLaws CardHandleRequestPayload := {
  wire v := le 8 (card_handle v);
  typed v := is_u64 (card_handle v);
  encodable v := true;
  decodable v := true;
  normal v := v;
}.
Next Obligation. intros v output T. simpl. unfold encode_card_handle_request_payload. solve_encode. Qed.
Next Obligation. done. Qed.
Next Obligation. intros [] ? D; simpl in *. solve_complete. Qed.
Next Obligation. solve_sound. Qed.

#[export] Instance TuneRequest_codec : Codec TuneRequestPayload := {
  encode_payload := encode_tune_request_payload;
  decode_payload := decode_tune_request_payload;
}.
#[export] Program Instance TuneRequest_laws : CodecLaws TuneRequestPayload := {
  wire v := le 8 (tune_lease_id v) ++ [to_raw (tune_system v)] ++ le 8 (frequency_khz v) ++
    le 2 (stream_id v) ++ le 2 (slot v) ++ le 4 (bandwidth_hz v) ++ [lnb_voltage v] ++
    le 4 (timeout_ms v);
  typed v := is_u64 (tune_lease_id v) /\ enum_ok 8 (tune_system v) /\
    is_u64 (frequency_khz v) /\ is_u16 (stream_id v) /\ is_u16 (slot v) /\
    is_u32 (bandwidth_hz v) /\ is_u8 (lnb_voltage v) /\ is_u32 (timeout_ms v);
  encodable := valid_tune;
  decodable v := negb (negb (valid_system (tune_system v))
    || negb (lnb_voltage v =? 0) && negb (lnb_voltage v =? 15));
  normal v := v;
}.
Next Obligation. intros v output T. simpl. unfold encode_tune_request_payload. solve_encode. Qed.
Next Obligation.
  intros v T H. unfold valid_tune in H. destruct (_ || _ || _ || _) eqn:E in H; [done|].
  bool_hyps. solve_bool.
Qed.
Next Obligation.
  intros [] (?&?&?&?&?&?&?&?) D; simpl in *. solve_complete.
Qed.
Next Obligation. solve_sound. Qed.

#[export] Instance TuneResponse_codec : Codec TuneResponsePayload := {
  encode_payload := encode_tune_response_payload;
  decode_payload := decode_tune_response_payload;
}.
#[export] Program Instance TuneResponse_laws : CodecLaws TuneResponsePayload := {
  wire v := [locked v] ++ le 4 (cnr_mdb v);
  typed v := is_u8 (locked v) /\ is_i32 (cnr_mdb v);
  encodable v := valid_boolean (locked v);
  decodable v := valid_boolean (locked v);
  normal v := v;
}.
Next Obligation. intros v output [? ?]. simpl. unfold encode_tune_response_payload. solve_encode. Qed.
Next Obligation. done. Qed.
Next Obligation. intros [] (?&?) D; simpl in *. solve_complete. Qed.
Next Obligation. solve_sound. Qed.

#[export] Instance CardConnectRequest_codec : Codec CardConnectRequestPayload := {
  encode_payload := encode_card_connect_request_payload;
  decode_payload := decode_card_connect_request_payload;
}.
#[export] Program Instance CardConnectRequest_laws : CodecLaws CardConnectRequestPayload := {
  wire v := [to_raw (connect_share_mode v)];
  typed v := enum_ok 8 (connect_share_mode v);
  encodable v := valid_share_mode (connect_share_mode v);
  decodable v := valid_share_mode (connect_share_mode v);
  normal v := v;
}.
Next Obligation. intros v output T. simpl. unfold encode_card_connect_request_payload. solve_encode. Qed.
Next Obligation. done. Qed.
Next Obligation. intros [] ? D; simpl in *. solve_complete. Qed.
Next Obligation. solve_sound. Qed.

#[export] Instance CardReconnectRequest_codec : Codec CardReconnectRequestPayload := {
  encode_payload := encode_card_reconnect_request_payload;
  decode_payload := decode_card_reconnect_request_payload;
}.
#[export] Program Instance CardReconnectRequest_laws : CodecLaws CardReconnectRequestPayload := {
  wire v := le 8 (reconnect_card_handle v) ++ [to_raw (reconnect_share_mode v)] ++
    [to_raw (reconnect_disposition v)];
  typed v := is_u64 (reconnect_card_handle v) /\ enum_ok 8 (reconnect_share_mode v) /\
    enum_ok 8 (reconnect_disposition v);
  encodable v := valid_share_mode (reconnect_share_mode v)
    && valid_disposition (reconnect_disposition v);
  decodable v := valid_share_mode (reconnect_share_mode v)
    && valid_disposition (reconnect_disposition v);
  normal v := v;
}.
Next Obligation.
  intros v output T. simpl. unfold encode_card_reconnect_request_payload.
  rewrite <-negb_andb. solve_encode.
Qed.
Next Obligation. done. Qed.
Next Obligation.
  intros [] (?&?&?) D; simpl in *. solve_complete.
Qed.
Next Obligation. solve_sound. Qed.

#[export] Instance CardDispositionRequest_codec : Codec CardDispositionRequestPayload := {
  encode_payload := encode_card_disposition_request_payload;
  decode_payload := decode_card_disposition_request_payload;
}.
#[export] Program Instance CardDispositionRequest_laws : CodecLaws CardDispositionRequestPayload := {
  wire v := le 8 (disposition_card_handle v) ++ [to_raw (disposition v)];
  typed v := is_u64 (disposition_card_handle v) /\ enum_ok 8 (disposition v);
  encodable v := valid_disposition (disposition v);
  decodable v := valid_disposition (disposition v);
  normal v := v;
}.
Next Obligation.
  intros v output T. simpl. unfold encode_card_disposition_request_payload. solve_encode.
Qed.
Next Obligation. done. Qed.
Next Obligation. intros [] (?&?) D; simpl in *. solve_complete. Qed.
Next Obligation. solve_sound. Qed.

#[export] Instance AttachStreamRequest_codec : Codec AttachStreamRequestPayload := {
  encode_payload := encode_attach_stream_request_payload;
  decode_payload := decode_attach_stream_request_payload;
}.
#[export] Program Instance AttachStreamRequest_laws : CodecLaws AttachStreamRequestPayload := {
  wire v := le 8 (attach_lease_id v) ++ attach_nonce v;
  typed v := is_u64 (attach_lease_id v) /\ zlen (attach_nonce v) = kNonceLength /\
    bytes_ok (attach_nonce v);
  encodable v := true;
  decodable v := true;
  normal v := v;
}.
Next Obligation.
  intros v output (?&N&?). simpl. unfold encode_attach_stream_request_payload.
  unfold kNonceLength in N. solve_encode.
Qed.
Next Obligation. done. Qed.
Next Obligation. intros [] (?&?&?) D; simpl in *. solve_complete. Qed.
Next Obligation. solve_sound. Qed.

#[export] Instance DeviceEvent_codec : Codec DeviceEventPayload := {
  encode_payload := encode_device_event_payload;
  decode_payload := decode_device_event_payload;
}.
#[export] Program Instance DeviceEvent_laws : CodecLaws DeviceEventPayload := {
  wire v := le 8 (event_generation v) ++ [to_raw (event_kind v)] ++
    [to_raw (target_type v)] ++ [target_id v];
  typed v := is_u64 (event_generation v) /\ enum_ok 8 (event_kind v) /\
    enum_ok 8 (target_type v) /\ is_u8 (target_id v);
  encodable v := valid_device_event_kind (event_kind v)
    && valid_event_target (target_type v) (target_id v);
  decodable v := valid_device_event_kind (event_kind v)
    && valid_event_target (target_type v) (target_id v);
  normal v := v;
}.
Next Obligation.
  intros v output T. simpl. unfold encode_device_event_payload. rewrite <-negb_andb. solve_encode.
Qed.
Next Obligation. done. Qed.
Next Obligation. intros [] (?&?&?&?) D; simpl in *. solve_complete. Qed.
Next Obligation. solve_sound. Qed.

(** * Counters *)

Definition wire_counters (v : CountersPayload) : list Z :=
  le 8 (packets v) ++ le 8 (counter_bytes v) ++ le 8 (sync_errors v) ++ le 8 (tei_packets v) ++
  le 8 (continuity_errors v) ++ le 8 (queue_drops v) ++ le 8 (usb_errors v) ++
  le 8 (empty_intervals v).
Definition typed_counters (v : CountersPayload) : Prop :=
  is_u64 (packets v) /\ is_u64 (counter_bytes v) /\ is_u64 (sync_errors v) /\
  is_u64 (tei_packets v) /\ is_u64 (continuity_errors v) /\ is_u64 (queue_drops v) /\
  is_u64 (usb_errors v) /\ is_u64 (empty_intervals v).
(** The availability flags do not travel. *)
Definition normal_counters (v : CountersPayload) : CountersPayload := {|
  packets := packets v; counter_bytes := counter_bytes v; sync_errors := sync_errors v;
  tei_packets := tei_packets v; continuity_errors := continuity_errors v;
  queue_drops := queue_drops v; usb_errors := usb_errors v;
  empty_intervals := empty_intervals v; availability := default_availability;
|}.

Lemma emits_counters v : emits (write_counters v) (wire_counters v).
Proof. unfold write_counters, wire_counters. solve_emits. Qed.

Lemma reads_counters v :
  typed_counters v -> reads read_counters (wire_counters v) (normal_counters v).
Proof.
  intros (?&?&?&?&?&?&?&?). unfold read_counters, wire_counters.
  rewrite <-(app_nil_r (le 8 (empty_intervals v))).
  do 8 (eapply reads_bind; [by apply reads_u64|]). apply reads_ret.
Qed.

Lemma counters_inv pre l v r :
  bytes_ok l -> read_counters (reader_at pre l) = Some (v, r) ->
  (typed_counters v /\ normal_counters v = v) /\ read_result pre l v (wire_counters v) r.
Proof.
  intros OK H. unfold read_counters in H. inv_reads.
  split; [done|]. unfold read_result. eexists. unfold wire_counters. simpl.
  rewrite <-!app_assoc. done.
Qed.

#[export] Instance Counters_codec : Codec CountersPayload := {
  encode_payload := encode_counters_payload;
  decode_payload := decode_counters_payload;
}.
#[export] Program Instance Counters_laws : CodecLaws CountersPayload := {
  wire := wire_counters;
  typed := typed_counters;
  encodable v := true;
  decodable v := true;
  normal := normal_counters;
}.
Next Obligation.
  intros v output T. simpl. unfold encode_counters_payload.
  apply write_payload_emits; [apply emits_counters|].
  unfold wire_counters, kCountersPayloadSize. zlen_lia.
Qed.
Next Obligation. done. Qed.
Next Obligation.
  intros v T D. simpl. apply read_payload_success_nil. eapply parses_bind.
  { by apply reads_counters. } solve_parses. done.
Qed.
Next Obligation.
  intros l v OK H. simpl in H. apply read_payload_inv in H as (r & H). inv_reads.
  apply counters_inv in H0 as [[? ?] (tl & -> & -> & ?)]; [|done]. inv_reads.
  by rewrite app_nil_r.
Qed.

#[export] Instance StreamEndEvent_codec : Codec StreamEndEventPayload := {
  encode_payload := encode_stream_end_event_payload;
  decode_payload := decode_stream_end_event_payload;
}.
#[export] Program Instance StreamEndEvent_laws : CodecLaws StreamEndEventPayload := {
  wire v := wire_counters (counters v) ++ le 4 (to_raw (stream_error_code v));
  typed v := typed_counters (counters v) /\ enum_ok 32 (stream_error_code v);
  encodable v := is_known_error_code (stream_error_code v);
  decodable v := is_known_error_code (stream_error_code v);
  normal v := {| counters := normal_counters (counters v);
                 stream_error_code := stream_error_code v |};
}.
Next Obligation.
  intros v output T. simpl. unfold encode_stream_end_event_payload.
  destruct (is_known_error_code _); [simpl|done].
  apply write_payload_emits; [|unfold wire_counters; zlen_lia].
  apply emits_seq; [apply emits_counters|apply emits_u32].
Qed.
Next Obligation. done. Qed.
Next Obligation.
  intros v [T E] D. simpl in *. apply read_payload_success_nil. rewrite <-app_assoc.
  eapply parses_bind; [by apply reads_counters|]. solve_parses; enum_rewrite; done.
Qed.
Next Obligation.
  intros l v OK H. simpl in H. apply read_payload_inv in H as (r & H). inv_reads.
  apply counters_inv in H0 as [[? ?] (tl & -> & -> & OK')]; [|done].
  specialize (OK' OK). inv_reads. simpl. rewrite app_nil_r, to_of_raw.
  split_and!; try done; [by apply enum_ok_of_raw|congruence].
Qed.

(** * Payloads that carry a view *)

(** Brings the size of a valid view to the length of its bytes. *)
Ltac view_rewrite V := rewrite ?(valid_view_size _ V) in *.
Ltac cast_rewrite :=
  rewrite ?cast_u8_small, ?cast_u16_small, ?cast_u32_small by
    (unfold kMaxAtrLength, kMaxCardPayload, kMaxTsBytes in *; zlen_lia).
(** The bytes of a typed and valid view. *)
Ltac view_cases v :=
  let V := fresh in
  assert (valid_view v = true) as V by assumption; view_rewrite V;
  unfold normal_view; clear V.

Lemma view_ok_bytes v : view_ok v -> bytes_ok (view_bytes v).
Proof. destruct v; [constructor|done]. Qed.

Lemma valid_atr_intro bs : zlen bs <= kMaxAtrLength -> valid_atr (View bs) = true.
Proof. intros. unfold valid_atr. simpl. by apply Z.leb_le. Qed.

#[export] Instance Atr_codec : Codec AtrPayload := {
  encode_payload := encode_atr_payload;
  decode_payload := decode_atr_payload;
}.
#[export] Program Instance Atr_laws : CodecLaws AtrPayload := {
  wire v := [zlen (view_bytes (atr v))] ++ view_bytes (atr v);
  typed v := view_ok (atr v);
  encodable v := valid_atr (atr v);
  decodable v := valid_atr (atr v);
  normal v := {| atr := normal_view (atr v) |};
}.
Next Obligation.
  intros v output T. simpl. unfold encode_atr_payload.
  destruct (valid_atr (atr v)) eqn:A; [simpl|done]. apply valid_atr_view in A as [V A].
  view_rewrite V. cast_rewrite. apply write_payload_emits; [solve_emits|zlen_lia].
Qed.
Next Obligation. done. Qed.
Next Obligation.
  intros [a] T A; simpl in *. apply valid_atr_view in A as [V A]. view_rewrite V.
  solve_complete; by apply Z.leb_le.
Qed.
Next Obligation. solve_sound; apply valid_atr_intro; lia. Qed.

#[export] Instance CardConnectResponse_codec : Codec CardConnectResponsePayload := {
  encode_payload := encode_card_connect_response_payload;
  decode_payload := decode_card_connect_response_payload;
}.
#[export] Program Instance CardConnectResponse_laws : CodecLaws CardConnectResponsePayload := {
  wire v := le 8 (connect_card_handle v) ++ [zlen (view_bytes (connect_atr v))] ++
    view_bytes (connect_atr v);
  typed v := is_u64 (connect_card_handle v) /\ view_ok (connect_atr v);
  encodable v := valid_atr (connect_atr v);
  decodable v := valid_atr (connect_atr v);
  normal v := {| connect_card_handle := connect_card_handle v;
                 connect_atr := normal_view (connect_atr v) |};
}.
Next Obligation.
  intros v output T. simpl. unfold encode_card_connect_response_payload.
  destruct (valid_atr (connect_atr v)) eqn:A; [simpl|done]. apply valid_atr_view in A as [V A].
  view_rewrite V. cast_rewrite. apply write_payload_emits; [solve_emits|zlen_lia].
Qed.
Next Obligation. done. Qed.
Next Obligation.
  intros [h a] [? T] A; simpl in *. apply valid_atr_view in A as [V A]. view_rewrite V.
  solve_complete; by apply Z.leb_le.
Qed.
Next Obligation. solve_sound; apply valid_atr_intro; lia. Qed.

#[export] Instance CardStatusResponse_codec : Codec CardStatusResponsePayload := {
  encode_payload := encode_card_status_response_payload;
  decode_payload := decode_card_status_response_payload;
}.
#[export] Program Instance CardStatusResponse_laws : CodecLaws CardStatusResponsePayload := {
  wire v := [present v] ++ [initialized v] ++ le 8 (reader_generation v) ++
    [zlen (view_bytes (card_status_atr v))] ++ view_bytes (card_status_atr v);
  typed v := is_u8 (present v) /\ is_u8 (initialized v) /\ is_u64 (reader_generation v) /\
    view_ok (card_status_atr v);
  encodable v := valid_boolean (present v) && valid_boolean (initialized v)
    && valid_atr (card_status_atr v)
    && card_status_consistent (initialized v) (present v) (view_size (card_status_atr v));
  decodable v := valid_boolean (present v) && valid_boolean (initialized v)
    && valid_atr (card_status_atr v)
    && card_status_consistent (initialized v) (present v) (view_size (card_status_atr v));
  normal v := {| present := present v; initialized := initialized v;
    reader_generation := reader_generation v;
    card_status_atr := normal_view (card_status_atr v) |};
}.
Next Obligation.
  intros v output T. simpl. unfold encode_card_status_response_payload.
  rewrite <-!negb_andb.
  destruct (_ && _ && _ && _) eqn:A; [simpl|done]. bool_hyps.
  apply valid_atr_view in H1 as [V A].
  view_rewrite V. cast_rewrite. apply write_payload_emits; [solve_emits|zlen_lia].
Qed.
Next Obligation. done. Qed.
Next Obligation.
  intros [p i g a] (?&?&?&T) A; simpl in *. bool_hyps.
  apply valid_atr_view in H4 as [V A]. view_rewrite V.
  solve_complete; first [by apply Z.leb_le | solve_bool].
Qed.
Next Obligation.
  solve_sound; solve_bool; apply valid_atr_intro; lia.
Qed.

#[export] Instance CardTransmitRequest_codec : Codec CardTransmitRequestPayload := {
  encode_payload := encode_card_transmit_request_payload;
  decode_payload := decode_card_transmit_request_payload;
}.
#[export] Program Instance CardTransmitRequest_laws : CodecLaws CardTransmitRequestPayload := {
  wire v := le 8 (transmit_card_handle v) ++ le 4 (zlen (view_bytes (apdu v))) ++
    view_bytes (apdu v);
  typed v := is_u64 (transmit_card_handle v) /\ view_ok (apdu v);
  encodable v := valid_view (apdu v) && (view_size (apdu v) <=? kMaxCardPayload);
  decodable v := valid_view (apdu v) && (view_size (apdu v) <=? kMaxCardPayload);
  normal v := {| transmit_card_handle := transmit_card_handle v; apdu := normal_view (apdu v) |};
}.
Next Obligation.
  intros v output T. simpl. unfold encode_card_transmit_request_payload.
  rewrite Z.ltb_antisym, <-negb_andb.
  destruct (_ && _) eqn:A; [simpl|done]. bool_hyps. apply Z.leb_le in H0.
  view_rewrite H. cast_rewrite. apply write_payload_emits; [solve_emits|zlen_lia].
Qed.
Next Obligation. done. Qed.
Next Obligation.
  intros [h a] [? T] A; simpl in *. bool_hyps. view_rewrite H0.
  solve_complete; unfold is_u32, kMaxCardPayload in *; zlen_lia.
Qed.
Next Obligation. solve_sound. Qed.

#[export] Instance CardTransmitResponse_codec : Codec CardTransmitResponsePayload := {
  encode_payload := encode_card_transmit_response_payload;
  decode_payload := decode_card_transmit_response_payload;
}.
#[export] Program Instance CardTransmitResponse_laws : CodecLaws CardTransmitResponsePayload := {
  wire v := le 4 (zlen (view_bytes (transmit_response v))) ++ view_bytes (transmit_response v);
  typed v := view_ok (transmit_response v);
  encodable v := valid_view (transmit_response v)
    && (view_size (transmit_response v) <=? kMaxCardPayload);
  decodable v := valid_view (transmit_response v)
    && (view_size (transmit_response v) <=? kMaxCardPayload);
  normal v := {| transmit_response := normal_view (transmit_response v) |};
}.
Next Obligation.
  intros v output T. simpl. unfold encode_card_transmit_response_payload.
  rewrite Z.ltb_antisym, <-negb_andb.
  destruct (_ && _) eqn:A; [simpl|done]. bool_hyps. apply Z.leb_le in H0.
  view_rewrite H. cast_rewrite. apply write_payload_emits; [solve_emits|zlen_lia].
Qed.
Next Obligation. done. Qed.
Next Obligation.
  intros [a] T A; simpl in *. bool_hyps. view_rewrite H.
  solve_complete; unfold is_u32, kMaxCardPayload in *; zlen_lia.
Qed.
Next Obligation. solve_sound. Qed.

#[export] Instance TsDataEvent_codec : Codec TsDataEventPayload := {
  encode_payload := encode_ts_data_event_payload;
  decode_payload := decode_ts_data_event_payload;
}.
#[export] Program Instance TsDataEvent_laws : CodecLaws TsDataEventPayload := {
  wire v := le 8 (sequence v) ++ le 8 (cumulative_drop_count v) ++
    le 4 (zlen (view_bytes (ts_bytes v))) ++ view_bytes (ts_bytes v);
  typed v := is_u64 (sequence v) /\ is_u64 (cumulative_drop_count v) /\ view_ok (ts_bytes v);
  encodable v := valid_view (ts_bytes v) && (view_size (ts_bytes v) <=? kMaxTsBytes)
    && (view_size (ts_bytes v) mod 188 =? 0);
  decodable v := valid_view (ts_bytes v) && (view_size (ts_bytes v) <=? kMaxTsBytes)
    && (view_size (ts_bytes v) mod 188 =? 0);
  normal v := {| sequence := sequence v; cumulative_drop_count := cumulative_drop_count v;
                 ts_bytes := normal_view (ts_bytes v) |};
}.
Next Obligation.
  intros v output T. simpl. unfold encode_ts_data_event_payload.
  rewrite Z.ltb_antisym, <-!negb_andb.
  destruct (_ && _ && _) eqn:A; [simpl|done]. bool_hyps. apply Z.leb_le in H1.
  view_rewrite H. cast_rewrite. apply write_payload_emits; [solve_emits|zlen_lia].
Qed.
Next Obligation. done. Qed.
Next Obligation.
  intros [s c a] (?&?&T) A; simpl in *. bool_hyps. view_rewrite H1.
  solve_complete; first [solve [solve_bool] | unfold is_u32, kMaxTsBytes in *; zlen_lia].
Qed.
Next Obligation. solve_sound. Qed.

(** * Payloads with a text *)

#[export] Instance ErrorResponse_codec : Codec ErrorResponsePayload := {
  encode_payload := encode_error_response_payload;
  decode_payload := decode_error_response_payload;
}.
#[export] Program Instance ErrorResponse_laws : CodecLaws ErrorResponsePayload := {
  wire v := le 4 (to_raw (error_code v)) ++ le 2 (zlen (view_bytes (detail_utf8 v))) ++
    view_bytes (detail_utf8 v);
  typed v := enum_ok 32 (error_code v) /\ view_ok (detail_utf8 v);
  encodable v := negb (eqb (error_code v) EC_OK) && is_known_error_code (error_code v)
    && valid_utf8 (detail_utf8 v) && (view_size (detail_utf8 v) <=? kMaxControlPayload - 6);
  decodable v := negb (eqb (error_code v) EC_OK) && is_known_error_code (error_code v)
    && valid_utf8 (detail_utf8 v) && (view_size (detail_utf8 v) <=? kMaxControlPayload - 6);
  normal v := {| error_code := error_code v; detail_utf8 := normal_view (detail_utf8 v) |};
}.
Next Obligation.
  intros v output T. simpl. unfold encode_error_response_payload.
  destruct (eqb (error_code v) EC_OK); [done|]. destruct (is_known_error_code _); [|done].
  destruct (valid_utf8 _) eqn:U; [|done]. apply valid_utf8_view in U as V. simpl.
  unfold kMaxControlPayload in *.
  destruct (Z.leb_spec (view_size (detail_utf8 v)) (65536 - 6)) as [S|S].
  - rewrite !(proj2 (Z.ltb_ge _ _)) by lia. simpl. view_rewrite V. cast_rewrite.
    apply write_payload_emits; [solve_emits|zlen_lia].
  - by rewrite (proj2 (Z.ltb_lt (65536 - 6) _)), orb_true_r by lia.
Qed.
Next Obligation. done. Qed.
Next Obligation.
  intros [c d] [E T] A; simpl in *. bool_hyps. assert (valid_utf8 d = true) as U by assumption.
  apply valid_utf8_view in U as V. apply valid_utf8_normal in U.
  unfold kMaxControlPayload in *. view_rewrite V. unfold normal_view in U.
  destruct E as [E R].
  apply read_payload_success_nil. rewrite <-!app_assoc.
  solve_parses; rewrite ?E; try done; try solve [solve_bool].
  - unfold kMaxControlPayload. simpl. apply Z.leb_le. zlen_lia.
  - unfold is_u16. zlen_lia.
Qed.
Next Obligation.
  solve_sound; solve_bool. match goal with H : (_ <=? kMaxControlPayload) = true |- _ =>
    apply Z.leb_le in H; unfold kMaxControlPayload in *; simpl in H end.
  apply Z.leb_le. zlen_lia.
Qed.

(** * STATUS *)

Lemma zlen_concat_single {A} (f : A -> Z) (l : list A) :
  zlen (concat ((fun s => [f s]) <$> l)) = zlen l.
Proof.
  induction l as [|a l IH]; [done|]. rewrite fmap_cons. cbn [concat].
  rewrite zlen_app, IH. by rewrite !zlen_cons.
Qed.

Lemma reads_receiver_state i s :
  enum_ok 8 s -> valid_receiver_state s = true ->
  reads (read_receiver_state i) [to_raw s] s.
Proof.
  intros [E R] V. unfold read_receiver_state. rewrite <-(app_nil_r [_]).
  eapply reads_bind; [apply reads_u8|]. rewrite E. intros pre tl.
  unfold mbind, ReaderM_bind, reader_check. rewrite V. apply (reads_ret s).
Qed.

Lemma receiver_state_inv i pre l s r :
  bytes_ok l -> read_receiver_state i (reader_at pre l) = Some (s, r) ->
  (enum_ok 8 s /\ valid_receiver_state s = true) /\ read_result pre l s [to_raw s] r.
Proof.
  intros OK H. unfold read_receiver_state in H. inv_reads.
  split; [split; [by apply enum_ok_of_raw|done]|]. rewrite to_of_raw. by eexists.
Qed.

#[export] Instance StatusResponse_codec : Codec StatusResponsePayload := {
  encode_payload := encode_status_response_payload;
  decode_payload := decode_status_response_payload;
}.
#[export] Program Instance StatusResponse_laws : CodecLaws StatusResponsePayload := {
  wire v := le 8 (status_generation v) ++ [status_ready v] ++ [status_usb_present_mask v] ++
    [card_present v] ++ [card_initialized v] ++
    concat ((fun s => [to_raw s]) <$> receiver_states v) ++
    le 8 (status_usb_errors v) ++ le 8 (protocol_errors v);
  typed v := is_u64 (status_generation v) /\ is_u8 (status_ready v) /\
    is_u8 (status_usb_present_mask v) /\ is_u8 (card_present v) /\
    is_u8 (card_initialized v) /\ zlen (receiver_states v) = kReceiverCount /\
    Forall (enum_ok 8) (receiver_states v) /\ is_u64 (status_usb_errors v) /\
    is_u64 (protocol_errors v);
  encodable v := valid_boolean (status_ready v) && valid_boolean (card_present v)
    && valid_boolean (card_initialized v)
    && negb (outside_mask (status_usb_present_mask v) kUsbPresentMask)
    && forallb valid_receiver_state (receiver_states v);
  decodable v := valid_boolean (status_ready v) && valid_boolean (card_present v)
    && valid_boolean (card_initialized v)
    && negb (outside_mask (status_usb_present_mask v) kUsbPresentMask)
    && forallb valid_receiver_state (receiver_states v);
  normal v := v;
}.
Next Obligation.
  intros v output (_&_&_&_&_&N&_). simpl. unfold encode_status_response_payload.
  destruct (valid_boolean (status_ready v)); [|done].
  destruct (valid_boolean (card_present v)); [|done].
  destruct (valid_boolean (card_initialized v)); [|done].
  destruct (outside_mask _ _); [done|]. destruct (forallb _ _); [simpl|done].
  apply write_payload_emits.
  - repeat apply emits_seq; eauto with px4. apply emits_each. intros; apply emits_u8.
  - autorewrite with zlen. rewrite zlen_concat_single, N. unfold kReceiverCount. lia.
Qed.
Next Obligation. done. Qed.
Next Obligation.
  intros [] (?&?&?&?&?&N&S&?&?) D; simpl in *. bool_hyps.
  assert (forallb valid_receiver_state receiver_states = true) as F by assumption.
  assert (length (seqZ 0 kReceiverCount) = length receiver_states) as L
    by (unfold zlen in N; rewrite length_seqZ; lia).
  apply read_payload_success_nil. rewrite <-!app_assoc. unfold decode_status_response_payload.
  do 5 (eapply parses_bind; [reads_field; done|]).
  apply parses_check; [solve_bool|]. eapply parses_bind.
  { apply (reads_each read_receiver_state (fun s => [to_raw s])).
    eapply Forall2_impl.
    - apply (Forall2_const_l (fun s => enum_ok 8 s /\ valid_receiver_state s = true)).
      split; [exact L|]. apply Forall_and. split; [done|]. by apply forallb_Forall.
    - simpl. intros i s [? ?]. by apply reads_receiver_state. }
  solve_parses; done.
Qed.
Next Obligation.
  intros l v OK H. simpl in H. apply read_payload_inv in H as (r & H). inv_reads. bool_hyps.
  match goal with H : reader_each _ _ _ = Some _ |- _ => rename H into E end.
  apply (each_inv _ (fun s => [to_raw s])
    (fun _ s => enum_ok 8 s /\ valid_receiver_state s = true)) in E as [F (tl' & -> & -> & OK')];
    [|intros; by eapply receiver_state_inv|done].
  apply Forall2_const_l in F as [L F]. apply Forall_and in F as [F1 F2].
  read_rest OK'. inv_reads. simpl. rewrite app_nil_r. rewrite length_seqZ in L.
  split_and!; try done.
  - unfold zlen, kReceiverCount in *. lia.
  - solve_bool. by apply forallb_Forall.
Qed.

(** * LIST *)

Definition wire_receiver (r : ReceiverRecord) : list Z :=
  [global_id r] ++ [dev_id r] ++ [local_id r] ++ [to_raw (receiver_system r)].
Definition typed_receiver (r : ReceiverRecord) : Prop :=
  is_u8 (global_id r) /\ is_u8 (dev_id r) /\ is_u8 (local_id r) /\ enum_ok 8 (receiver_system r).

(** The meaningful records. *)
Definition list_receivers (v : ListResponsePayload) : list ReceiverRecord :=
  receiver_of v <$> receiver_indices (receiver_count v).

Definition list_valid (v : ListResponsePayload) : bool :=
  valid_utf8 (serial_utf8 v) && (view_size (serial_utf8 v) <=? 2 ^ 16 - 1)
  && valid_boolean (list_ready v)
  && negb (outside_mask (list_usb_present_mask v) kUsbPresentMask)
  && valid_receiver_count (receiver_count v)
  && negb (outside_mask (list_usb_present_mask v) (usb_present_mask_for (receiver_count v)))
  && valid_list_receivers v && (list_required v <=? kMaxControlPayload).

Lemma valid_receiver_count_cases n :
  valid_receiver_count n = true -> n = 1 \/ n = 3 \/ n = 4 \/ n = 5 \/ n = 8.
Proof.
  unfold valid_receiver_count, kSingleReceiverCount, kMlt3PeReceiverCount, kW3U4ReceiverCount,
    kMlt5PeReceiverCount, kQ3U4ReceiverCount. lia.
Qed.

Lemma emits_receiver r : emits (write_receiver r) (wire_receiver r).
Proof. unfold write_receiver, wire_receiver. solve_emits. Qed.

Lemma reads_receiver count index r :
  typed_receiver r -> valid_receiver_record r count index = true ->
  reads (read_receiver count index) (wire_receiver r) r.
Proof.
  destruct r as [g d l s]. intros (?&?&?&E&R) V. simpl in *. unfold read_receiver, wire_receiver.
  rewrite <-(app_nil_r [to_raw (receiver_system _)]).
  do 4 (eapply reads_bind; [apply reads_u8|]). simpl. rewrite E. intros pre tl.
  unfold mbind, ReaderM_bind, reader_check. rewrite V. apply (reads_ret _).
Qed.

Lemma receiver_inv count index pre l r rd :
  bytes_ok l -> read_receiver count index (reader_at pre l) = Some (r, rd) ->
  (typed_receiver r /\ valid_receiver_record r count index = true) /\
  read_result pre l r (wire_receiver r) rd.
Proof.
  intros OK H. unfold read_receiver in H. inv_reads.
  split; [split; [split_and!; try done; by apply enum_ok_of_raw|done]|].
  unfold wire_receiver. simpl. rewrite to_of_raw. eexists. rewrite <-!app_assoc. done.
Qed.

Lemma nth_indices {A} (l : list A) d n :
  0 <= n <= zlen l -> (fun i => nth (Z.to_nat i) l d) <$> seqZ 0 n = ztake n l.
Proof.
  unfold zlen, ztake. intros H. apply list_eq. intros i.
  rewrite list_lookup_fmap. destruct (decide (i < Z.to_nat n)%nat) as [Hi|Hi].
  - rewrite lookup_seqZ_lt by lia. simpl. rewrite lookup_take_lt by lia.
    replace (Z.to_nat (0 + Z.of_nat i)) with i by lia. symmetry.
    destruct (nth_lookup_or_length l i d) as [-> |]; [done|lia].
  - rewrite lookup_seqZ_ge by lia. rewrite lookup_ge_None_2; [done|]. rewrite length_take. lia.
Qed.

Lemma list_receivers_take v :
  valid_receiver_count (receiver_count v) = true -> zlen (receivers v) = kReceiverCount ->
  list_receivers v = ztake (receiver_count v) (receivers v).
Proof.
  intros C L. unfold list_receivers, receiver_indices, receiver_of.
  apply valid_receiver_count_cases in C. unfold kReceiverCount in *.
  rewrite nth_indices by lia. f_equal. lia.
Qed.

Lemma zlen_receiver_indices n :
  valid_receiver_count n = true -> length (receiver_indices n) = Z.to_nat n.
Proof.
  intros C. apply valid_receiver_count_cases in C. unfold receiver_indices, kReceiverCount.
  rewrite length_seqZ. lia.
Qed.

Lemma zlen_concat_receivers (l : list ReceiverRecord) :
  zlen (concat (wire_receiver <$> l)) = 4 * zlen l.
Proof.
  induction l as [|r l IH]; [done|]. rewrite fmap_cons. cbn [concat].
  rewrite zlen_app, IH, zlen_cons. change (zlen (wire_receiver r)) with 4. lia.
Qed.

Lemma zlen_list_receivers v :
  valid_receiver_count (receiver_count v) = true -> zlen (list_receivers v) = receiver_count v.
Proof.
  intros C. unfold list_receivers, zlen. rewrite length_fmap, zlen_receiver_indices by done.
  apply valid_receiver_count_cases in C. lia.
Qed.

Lemma valid_list_receivers_iff v :
  valid_list_receivers v = true <->
  Forall2 (fun i r => valid_receiver_record r (receiver_count v) i = true)
    (receiver_indices (receiver_count v)) (list_receivers v).
Proof.
  unfold valid_list_receivers, list_receivers. rewrite forallb_Forall.
  generalize (receiver_indices (receiver_count v)) as l. induction l as [|i l IH]; simpl.
  { done. }
  rewrite Forall_cons, Forall2_cons, IH. done.
Qed.

Lemma Forall2_and_r {A B} (P : A -> B -> Prop) (Q : B -> Prop) l bs :
  Forall2 P l bs -> Forall Q bs -> Forall2 (fun a b => P a b /\ Q b) l bs.
Proof. induction 1; intros F; [constructor|]. apply Forall_cons in F as []. by constructor; auto. Qed.

Lemma list_payload_required v :
  valid_view (serial_utf8 v) = true -> valid_receiver_count (receiver_count v) = true ->
  zlen (le 8 (list_generation v) ++ le 2 (zlen (view_bytes (serial_utf8 v))) ++
    view_bytes (serial_utf8 v) ++ [list_ready v] ++ [list_usb_present_mask v] ++
    [receiver_count v] ++ [kCardReaderCount] ++ concat (wire_receiver <$> list_receivers v)) =
  list_required v.
Proof.
  intros V C. unfold list_required. rewrite (valid_view_size _ V). autorewrite with zlen.
  rewrite zlen_concat_receivers, zlen_list_receivers by done. lia.
Qed.

#[export] Instance ListResponse_codec : Codec ListResponsePayload := {
  encode_payload := encode_list_response_payload;
  decode_payload := decode_list_response_payload;
}.
#[export] Program Instance ListResponse_laws : CodecLaws ListResponsePayload := {
  wire v := le 8 (list_generation v) ++ le 2 (zlen (view_bytes (serial_utf8 v))) ++
    view_bytes (serial_utf8 v) ++ [list_ready v] ++ [list_usb_present_mask v] ++
    [receiver_count v] ++ [kCardReaderCount] ++ concat (wire_receiver <$> list_receivers v);
  typed v := is_u64 (list_generation v) /\ view_ok (serial_utf8 v) /\ is_u8 (list_ready v) /\
    is_u8 (list_usb_present_mask v) /\ zlen (receivers v) = kReceiverCount /\
    Forall typed_receiver (receivers v) /\ is_u8 (receiver_count v);
  encodable := list_valid;
  decodable := list_valid;
  normal v := {| list_generation := list_generation v;
    serial_utf8 := normal_view (serial_utf8 v); list_ready := list_ready v;
    list_usb_present_mask := list_usb_present_mask v;
    receivers := fill_receivers (list_receivers v); receiver_count := receiver_count v |};
}.
Next Obligation.
  intros v output (_&_&_&_&L&_). simpl. unfold encode_list_response_payload, list_valid.
  rewrite !Z.ltb_antisym.
  destruct (valid_utf8 _) eqn:U; [|done]. apply valid_utf8_view in U as V.
  destruct (view_size (serial_utf8 v) <=? 2 ^ 16 - 1) eqn:S; [|done]. apply Z.leb_le in S.
  destruct (valid_boolean _); [|done].
  destruct (outside_mask _ kUsbPresentMask); [done|].
  destruct (valid_receiver_count _) eqn:C; [|done].
  destruct (outside_mask _ (usb_present_mask_for _)); [done|].
  destruct (valid_list_receivers v); [|done].
  destruct (list_required v <=? kMaxControlPayload); [simpl|done].
  apply write_payload_emits; [|by apply list_payload_required].
  view_rewrite V. rewrite cast_u16_small by zlen_lia.
  do 7 (apply emits_seq; [eauto with px4|]).
  unfold list_receivers. rewrite <-list_fmap_compose. apply emits_each.
  intros. apply emits_receiver.
Qed.
Next Obligation. done. Qed.
Next Obligation.
  intros v (?&T&?&?&L&R&?) D. simpl in *. unfold list_valid in D. bool_hyps.
  assert (valid_utf8 (serial_utf8 v) = true) as U by assumption.
  assert (valid_receiver_count (receiver_count v) = true) as C by assumption.
  assert (view_size (serial_utf8 v) <= 2 ^ 16 - 1) as S by (by apply Z.leb_le).
  assert (list_required v <= kMaxControlPayload) as Q by (by apply Z.leb_le).
  apply valid_utf8_view in U as V. apply valid_utf8_normal in U. view_rewrite V.
  apply read_payload_success. unfold decode_list_response_payload.
  apply parses_check.
  { simpl. rewrite list_payload_required by done. by apply Z.leb_le. }
  eapply parses_bind; [by apply reads_u64|].
  eapply parses_bind; [apply reads_u16; unfold is_u16; zlen_lia|].
  eapply parses_bind; [by apply reads_bytes|]. apply parses_check; [done|].
  do 4 (eapply parses_bind; [apply reads_u8|]). apply parses_check; [solve_bool|].
  rewrite <-(app_nil_r (concat _)). eapply parses_bind.
  { apply (reads_each (read_receiver (receiver_count v)) wire_receiver).
    match goal with H : valid_list_receivers v = true |- _ =>
      apply valid_list_receivers_iff in H as F end.
    assert (Forall typed_receiver (list_receivers v)) as TR
      by (rewrite list_receivers_take by done; by apply Forall_take).
    eapply Forall2_impl; [exact (Forall2_and_r _ _ _ _ F TR)|].
    intros i r [? ?]. by apply reads_receiver. }
  apply parses_finished, parses_ret.
Qed.
Next Obligation.
  intros l v OK H. simpl in H. apply read_payload_inv in H as (r & H). inv_reads. bool_hyps.
  match goal with H : reader_each _ _ _ = Some _ |- _ => rename H into E end.
  match goal with H : valid_receiver_count ?n = true |- _ => rename n into count, H into C end.
  apply (each_inv _ wire_receiver
    (fun i r => typed_receiver r /\ valid_receiver_record r count i = true))
    in E as [F (tl' & -> & -> & OK')]; [|intros; by eapply receiver_inv|done].
  read_rest OK'. inv_reads.
  match type of F with Forall2 _ _ ?l => rename l into rs end.
  match goal with |- context [{| list_generation := ?g; serial_utf8 := ?s; list_ready := ?y;
      list_usb_present_mask := ?m; receivers := ?rr; receiver_count := ?c |}] =>
    set (v := {| list_generation := g; serial_utf8 := s; list_ready := y;
      list_usb_present_mask := m; receivers := rr; receiver_count := c |}) end.
  pose proof (Forall2_length _ _ _ F) as L. rewrite zlen_receiver_indices in L by done.
  assert (zlen (receivers v) = kReceiverCount) as N.
  { apply valid_receiver_count_cases in C. unfold v, fill_receivers, zlen, kReceiverCount. cbn [receivers].
    rewrite length_app, length_drop, length_replicate. lia. }
  assert (list_receivers v = rs) as R.
  { rewrite list_receivers_take by done. simpl. unfold fill_receivers, ztake.
    by rewrite L, take_app_length. }
  match goal with H : (_ =? kCardReaderCount) = true |- _ => apply Z.eqb_eq in H as -> end.
  assert (Forall typed_receiver rs) as TR.
  { clear -F. induction F as [|a b l bs [? ?] _ IH]; by constructor. }
  assert (Forall2 (fun i r => valid_receiver_record r count i = true) (receiver_indices count) rs) as VR
    by (eapply Forall2_impl; [exact F|]; by intros ? ? [? ?]).
  match goal with H : (view_size _ <=? _) = true |- _ => rename H into S end.
  split_and!; try assumption.
  - by rewrite R, app_nil_r.
  - simpl. unfold fill_receivers. apply Forall_app. split; [done|]. apply Forall_drop.
    apply Forall_replicate. by split_and!; vm_compute.
  - unfold list_valid. rewrite (proj2 (valid_list_receivers_iff v)) by (by rewrite R).
    solve_bool; [apply Z.leb_le; simpl; width_lia|].
    rewrite <-list_payload_required by done. rewrite R, <-(app_nil_r (concat _)). exact S.
  - unfold normal. rewrite R. reflexivity.
Qed.
