(* ===== verification/IpcRoundtrip.v ===== *)
(** The theorems about the payload codecs, over the list of payload types the
    header declares a codec for ([PX4_DECLARE_PAYLOAD_CODEC]). *)

From S2P Require Import Prelude IpcTypes IpcWire IpcCodecs IpcPayload.

(** * The codecs the header declares *)

Inductive PayloadType :=
  | HelloRequest | HelloResponse | ListResponse | StatusResponse | AcquireRequest
  | AcquireResponse | LeaseRequest | CardHandleRequest | TuneRequest | TuneResponse
  | Counters | CardStatusResponse | CardConnectRequest | CardConnectResponse
  | CardReconnectRequest | Atr | CardDispositionRequest | CardTransmitRequest
  | CardTransmitResponse | AttachStreamRequest | TsDataEvent | DeviceEvent
  | StreamEndEvent | ErrorResponse.

Definition payload_of (t : PayloadType) : Type :=
  match t with
  | HelloRequest => HelloRequestPayload | HelloResponse => HelloResponsePayload
  | ListResponse => ListResponsePayload | StatusResponse => StatusResponsePayload
  | AcquireRequest => AcquireRequestPayload | AcquireResponse => AcquireResponsePayload
  | LeaseRequest => LeaseRequestPayload | CardHandleRequest => CardHandleRequestPayload
  | TuneRequest => TuneRequestPayload | TuneResponse => TuneResponsePayload
  | Counters => CountersPayload | CardStatusResponse => CardStatusResponsePayload
  | CardConnectRequest => CardConnectRequestPayload
  | CardConnectResponse => CardConnectResponsePayload
  | CardReconnectRequest => CardReconnectRequestPayload | Atr => AtrPayload
  | CardDispositionRequest => CardDispositionRequestPayload
  | CardTransmitRequest => CardTransmitRequestPayload
  | CardTransmitResponse => CardTransmitResponsePayload
  | AttachStreamRequest => AttachStreamRequestPayload
  | TsDataEvent => TsDataEventPayload | DeviceEvent => DeviceEventPayload
  | StreamEndEvent => StreamEndEventPayload | ErrorResponse => ErrorResponsePayload
  end.

(** The overload set [encode_payload] and the [decode_..._payload] functions. *)
#[export] Instance payload_codec (t : PayloadType) : Codec (payload_of t) :=
  match t with
  | HelloRequest => HelloRequest_codec | HelloResponse => HelloResponse_codec
  | ListResponse => ListResponse_codec | StatusResponse => StatusResponse_codec
  | AcquireRequest => AcquireRequest_codec | AcquireResponse => AcquireResponse_codec
  | LeaseRequest => LeaseRequest_codec | CardHandleRequest => CardHandleRequest_codec
  | TuneRequest => TuneRequest_codec | TuneResponse => TuneResponse_codec
  | Counters => Counters_codec | CardStatusResponse => CardStatusResponse_codec
  | CardConnectRequest => CardConnectRequest_codec
  | CardConnectResponse => CardConnectResponse_codec
  | CardReconnectRequest => CardReconnectRequest_codec | Atr => Atr_codec
  | CardDispositionRequest => CardDispositionRequest_codec
  | CardTransmitRequest => CardTransmitRequest_codec
  | CardTransmitResponse => CardTransmitResponse_codec
  | AttachStreamRequest => AttachStreamRequest_codec
  | TsDataEvent => TsDataEvent_codec | DeviceEvent => DeviceEvent_codec
  | StreamEndEvent => StreamEndEvent_codec | ErrorResponse => ErrorResponse_codec
  end.

#[export] Instance payload_laws (t : PayloadType) : CodecLaws (payload_of t) :=
  match t with
  | HelloRequest => HelloRequest_laws | HelloResponse => HelloResponse_laws
  | ListResponse => ListResponse_laws | StatusResponse => StatusResponse_laws
  | AcquireRequest => AcquireRequest_laws | AcquireResponse => AcquireResponse_laws
  | LeaseRequest => LeaseRequest_laws | CardHandleRequest => CardHandleRequest_laws
  | TuneRequest => TuneRequest_laws | TuneResponse => TuneResponse_laws
  | Counters => Counters_laws | CardStatusResponse => CardStatusResponse_laws
  | CardConnectRequest => CardConnectRequest_laws
  | CardConnectResponse => CardConnectResponse_laws
  | CardReconnectRequest => CardReconnectRequest_laws | Atr => Atr_laws
  | CardDispositionRequest => CardDispositionRequest_laws
  | CardTransmitRequest => CardTransmitRequest_laws
  | CardTransmitResponse => CardTransmitResponse_laws
  | AttachStreamRequest => AttachStreamRequest_laws
  | TsDataEvent => TsDataEvent_laws | DeviceEvent => DeviceEvent_laws
  | StreamEndEvent => StreamEndEvent_laws | ErrorResponse => ErrorResponse_laws
  end.

(** * Encoding *)

(** C36 Every encoder is total and safe: for a value whose fields fit their C++
    types it never stores outside the output, returns INVALID_ARGUMENT for a
    value outside its contract or an unreadable output and BUFFER_TOO_SMALL for
    a short output, leaving the output as it was, and otherwise writes exactly
    the wire form at the front of the output and returns its length. *)
Theorem encode_outcome (t : PayloadType) (v : payload_of t) (output : ByteView) :
  typed v ->
  (encode_payload v output = Some (failure INVALID_ARGUMENT, output) /\
   (encodable v = false \/ valid_view output = false)) \/
  (encode_payload v output = Some (failure BUFFER_TOO_SMALL, output) /\
   encodable v = true /\ view_size output < zlen (wire v)) \/
  (encode_payload v output =
     Some (success (zlen (wire v)),
           with_bytes output (wire v ++ zdrop (zlen (wire v)) (view_bytes output))) /\
   encodable v = true /\ zlen (wire v) <= view_size output).
Proof.
  intros T. rewrite (encode_spec v output T). destruct (encodable v); [|by left; auto].
  unfold encode_reference. destruct (valid_view output); simpl; [|by left; auto].
  destruct (Z.ltb_spec (view_size output) (zlen (wire v))); auto.
Qed.

Definition sample_tune : TuneRequestPayload := {|
  tune_lease_id := 7; tune_system := ISDB_S; frequency_khz := 1049480; stream_id := 0x4010;
  slot := 0xffff; bandwidth_hz := 0; lnb_voltage := 15; timeout_ms := 5000;
|}.

Lemma sample_tune_typed : typed (A := payload_of TuneRequest) sample_tune.
Proof. split_and!; [unfold is_u64; simpl; lia|split; [reflexivity|simpl; lia]|..];
  unfold is_u64, is_u16, is_u32, is_u8; simpl; lia. Qed.

Lemma encode_outcome_witness :
  typed (A := payload_of TuneRequest) sample_tune /\
  exists r, encode_payload (A := payload_of TuneRequest) sample_tune (View (replicate 32 0)) = Some r /\
    fst r = success 30.
Proof.
  split; [exact sample_tune_typed|].
  destruct (encode_outcome TuneRequest sample_tune (View (replicate 32 0)) sample_tune_typed)
    as [[E _]|[[E _]|[E _]]].
  - exfalso. revert E. vm_compute. discriminate.
  - exfalso. revert E. vm_compute. discriminate.
  - eexists. split; [exact E|]. vm_compute. reflexivity.
Defined.

(** * Round trips *)

(** C10 Decoding what an encoder wrote returns the value: null views come back as
    empty views, unused LIST records as default records, and the availability
    flags of counters, which do not travel, at their default. *)
Theorem payload_roundtrip (t : PayloadType) (v : payload_of t) (output buf : ByteView) (n : Z) :
  typed v -> encode_payload v output = Some (success n, buf) ->
  decode_payload (View (ztake n (view_bytes buf))) = success (normal v).
Proof.
  intros T E. rewrite (encode_spec v output T) in E. destruct (encodable v) eqn:A; [|done].
  injection E as E. apply encode_reference_success in E as [-> ->].
  apply decode_complete; [done|]. by apply encodable_decodable.
Qed.

Lemma payload_roundtrip_witness :
  exists buf, encode_payload (A := payload_of TuneRequest) sample_tune (View (replicate 32 0)) =
    Some (success 30, buf) /\
  decode_payload (A := payload_of TuneRequest) (View (ztake 30 (view_bytes buf))) =
    success sample_tune.
Proof.
  eexists. split; [vm_compute; reflexivity|].
  apply (payload_roundtrip TuneRequest sample_tune (View (replicate 32 0))).
  - exact sample_tune_typed.
  - vm_compute. reflexivity.
Defined.

(** The wire form of a value is unique: two byte strings that decode to the same
    value are the same, and encoding the decoded value reproduces the bytes. *)
Theorem decode_reencode (t : PayloadType) (v : payload_of t) (l buf : list Z) :
  bytes_ok l -> decode_payload (View l) = success v ->
  (forall l', bytes_ok l' -> decode_payload (View l') = success v -> l' = l) /\
  (encodable v = true -> zlen l <= zlen buf ->
   encode_payload v (View buf) = Some (success (zlen l), View (l ++ zdrop (zlen l) buf))).
Proof.
  intros OK D. destruct (decode_sound l v OK D) as (-> & T & A & N). split.
  - intros l' OK' D'. by destruct (decode_sound l' v OK' D') as (-> & _).
  - intros E L. rewrite (encode_spec v _ T), E. unfold encode_reference. simpl.
    by rewrite (proj2 (Z.ltb_ge _ _)).
Qed.

Definition sample_list_bytes : list Z :=
  [1; 0; 0; 0; 0; 0; 0; 0; 2; 0; 65; 66; 1; 1; 1; 1; 0; 1; 0; 1].

Lemma decode_reencode_witness :
  exists v : payload_of ListResponse,
    decode_payload (View sample_list_bytes) = success v /\
    encode_payload v (View (replicate 20 0)) = Some (success 20, View sample_list_bytes).
Proof.
  eexists. split; [vm_compute; reflexivity|].
  refine (proj2 (decode_reencode ListResponse _ sample_list_bytes (replicate 20 0) _ _) _ _).
  - apply bytes_okb_ok. reflexivity.
  - vm_compute. reflexivity.
  - vm_compute. reflexivity.
  - vm_compute. discriminate.
Defined.

(** Every decoded payload can be encoded again, but for TUNE requests: their
    decoder leaves the semantic checks of [valid_tune] to the control service. *)
Theorem decoded_encodable (t : PayloadType) (v : payload_of t) (l : list Z) :
  bytes_ok l -> decode_payload (View l) = success v ->
  encodable v = true \/ t = TuneRequest.
Proof.
  intros OK D. destruct (decode_sound l v OK D) as (_ & _ & A & _).
  destruct t; try (left; exact A). by right.
Qed.

Lemma decoded_encodable_witness :
  exists v : payload_of Atr, decode_payload (View [2; 59; 240]) = success v /\
    (encodable v = true \/ Atr = TuneRequest).
Proof.
  eexists. split; [vm_compute; reflexivity|].
  apply (decoded_encodable Atr _ [2; 59; 240]).
  - apply bytes_okb_ok. reflexivity.
  - vm_compute. reflexivity.
Defined.

Example tune_decoder_is_wider :
  exists v : payload_of TuneRequest,
    decode_payload (View (ztake 26 (wire (A := payload_of TuneRequest) sample_tune) ++ [0; 0; 0; 0])) =
      success v /\ encodable v = false.
Proof. eexists. split; vm_compute; reflexivity. Qed.

(** * Decoding failures *)

(** Every decoder rejects what it does not accept with PROTOCOL_ERROR only. *)
Lemma decode_failure (t : PayloadType) (input : ByteView) e :
  decode_payload (A := payload_of t) input = failure e -> e = PROTOCOL_ERROR.
Proof. destruct t; apply read_payload_failure. Qed.
