(* ===== verification/IpcFrame.v ===== *)
(** Frames ([src/ipc.cpp]): payload and header validation, the 20-byte frame
    header, and whole frames, with the round trips between them.  The payload
    and the output of [encode_frame] are separate buffers here; the code also
    allows a payload staged in place, 20 bytes into the output. *)

From S2P Require Import Prelude IpcTypes IpcWire IpcCodecs IpcPayload IpcRoundtrip.

(** * Validation *)

(** The [switch] of [validate_payload]. *)
Definition payload_decodes (t : MessageType) (k : MessageKind) (p : ByteView) : bool :=
  let select (req resp : bool) := if eqb k request then req else resp in
  match t with
  | HELLO => select (is_success (decode_hello_request_payload p))
                    (is_success (decode_hello_response_payload p))
  | LIST => select (is_success (decode_empty_payload p))
                   (is_success (decode_list_response_payload p))
  | STATUS => select (is_success (decode_empty_payload p))
                     (is_success (decode_status_response_payload p))
  | ACQUIRE => select (is_success (decode_acquire_request_payload p))
                      (is_success (decode_acquire_response_payload p))
  | RELEASE | START_STREAM => select (is_success (decode_lease_request_payload p))
                                     (is_success (decode_empty_payload p))
  | BEGIN_TRANSACTION => select (is_success (decode_card_handle_request_payload p))
                                (is_success (decode_empty_payload p))
  | TUNE => select (is_success (decode_tune_request_payload p))
                   (is_success (decode_tune_response_payload p))
  | STOP_STREAM | STATS => select (is_success (decode_lease_request_payload p))
                                  (is_success (decode_counters_payload p))
  | CARD_STATUS => select (is_success (decode_empty_payload p))
                          (is_success (decode_card_status_response_payload p))
  | CARD_HANDLE_STATUS => select (is_success (decode_card_handle_request_payload p))
                                 (is_success (decode_card_status_response_payload p))
  | CARD_CONNECT => select (is_success (decode_card_connect_request_payload p))
                           (is_success (decode_card_connect_response_payload p))
  | CARD_RECONNECT => select (is_success (decode_card_reconnect_request_payload p))
                             (is_success (decode_atr_payload p))
  | CARD_DISCONNECT | END_TRANSACTION =>
      select (is_success (decode_card_disposition_request_payload p))
             (is_success (decode_empty_payload p))
  | CARD_RESET => select (is_success (decode_card_handle_request_payload p))
                         (is_success (decode_atr_payload p))
  | CARD_TRANSMIT => select (is_success (decode_card_transmit_request_payload p))
                            (is_success (decode_card_transmit_response_payload p))
  | ATTACH_STREAM => select (is_success (decode_attach_stream_request_payload p))
                            (is_success (decode_empty_payload p))
  | TS_DATA => is_success (decode_ts_data_event_payload p)
  | DEVICE_EVENT => is_success (decode_device_event_payload p)
  | STREAM_END => is_success (decode_stream_end_event_payload p)
  | MessageType_other _ => false
  end.

Definition validate_payload (t : MessageType) (k : MessageKind) (p : ByteView) : Result unit :=
  if negb (valid_view p) || negb (is_known_message_type t) || (payload_limit t <? view_size p)
  then failure PROTOCOL_ERROR
  else if eqb k error_response then
    if is_event_message t || negb (is_success (decode_error_response_payload p))
    then failure PROTOCOL_ERROR else success tt
  else if (if is_event_message t then negb (eqb k event)
           else negb (eqb k request) && negb (eqb k response))
  then failure PROTOCOL_ERROR
  else if payload_decodes t k p then success tt else failure PROTOCOL_ERROR.

Definition validate_header_fields (h : FrameHeader) (error : Error) : Result unit :=
  if negb (is_known_message_type (type h)) || negb (major h =? kProtocolMajor)
     || negb (minor h =? kProtocolMinor) || (payload_limit (type h) <? payload_length h)
  then failure error
  else if is_event_message (type h) then
    if negb (eqb (kind h) event) || negb (request_id h =? 0) then failure error else success tt
  else if negb (eqb (kind h) request) && negb (eqb (kind h) response)
          && negb (eqb (kind h) error_response) then failure error
  else success tt.

Definition validate_frame_view (f : FrameView) : Result unit :=
  if negb (valid_view (payload f)) || negb (payload_length (header f) =? view_size (payload f))
  then failure PROTOCOL_ERROR
  else if negb (is_success (validate_header_fields (header f) PROTOCOL_ERROR))
     || negb (is_success (validate_payload (type (header f)) (kind (header f)) (payload f)))
  then failure PROTOCOL_ERROR
  else success tt.

Definition validate_response_to_request (req resp : FrameHeader) : Result unit :=
  if is_event_message (type req) || negb (eqb (kind req) request)
     || negb (eqb (kind resp) response) && negb (eqb (kind resp) error_response)
     || negb (major req =? major resp) || negb (minor req =? minor resp)
     || negb (eqb (type req) (type resp)) || negb (request_id req =? request_id resp)
  then failure PROTOCOL_ERROR else success tt.

(** * The frame header *)

(** The fields after the magic: major, minor, type, flags, request id, length. *)
Definition read_header_fields : ReaderM (Z * Z * Z * Z * Z * Z) :=
  major ← reader_u16;
  minor ← reader_u16;
  type ← reader_u16;
  flags ← reader_u16;
  request_id ← reader_u32;
  payload_length ← reader_u32;
  _ ← reader_finished;
  mret (major, minor, type, flags, request_id, payload_length).

(** The message kind the flags and the type stand for. *)
Definition kind_of_flags (t : MessageType) (flags : Z) : MessageKind :=
  if flags =? Z.lor kResponseFlag kErrorFlag then error_response
  else if flags =? kResponseFlag then response
  else if is_event_message t then event
  else request.

Definition decode_frame_header (input : ByteView) : Result FrameHeader :=
  if negb (valid_view input) || negb (view_size input =? kFrameHeaderSize)
  then failure PROTOCOL_ERROR
  else if negb (bytes_eqb (ztake 4 (view_bytes input)) kMagic) then failure PROTOCOL_ERROR
  else match read_header_fields (init_Reader (View (zdrop 4 (view_bytes input)))) with
  | None => failure PROTOCOL_ERROR
  | Some ((major, minor, raw_type, flags, request_id, payload_length), _) =>
      if negb (major =? kProtocolMajor) || negb (minor =? kProtocolMinor)
      then failure VERSION_MISMATCH
      else
        let t := of_raw raw_type in
        if negb (is_known_message_type t) || outside_mask flags kKnownFlags
           || (flags =? kErrorFlag)
        then failure PROTOCOL_ERROR
        else
          let h := {| major := major; minor := minor; type := t;
            kind := kind_of_flags t flags; request_id := request_id;
            payload_length := payload_length |} in
          match validate_header_fields h PROTOCOL_ERROR with
          | failure e => failure e
          | success _ => success h
          end
  end.

(** * Frames *)

Definition flags_of_kind (k : MessageKind) : Z :=
  if eqb k response then kResponseFlag
  else if eqb k error_response then Z.lor kResponseFlag kErrorFlag
  else 0.

Definition encode_frame (h : FrameHeader) (p output : ByteView) : Encoded :=
  if negb (valid_view p) || negb (payload_length h =? view_size p) then invalid output
  else if negb (is_success (validate_header_fields h INVALID_ARGUMENT))
          || negb (is_success (validate_payload (type h) (kind h) p)) then invalid output
  else write_payload output (kFrameHeaderSize + view_size p)
    (writer_fixed_bytes kMagic ;;;
     writer_u16 (major h) ;;;
     writer_u16 (minor h) ;;;
     writer_u16 (to_raw (type h)) ;;;
     writer_u16 (flags_of_kind (kind h)) ;;;
     writer_u32 (request_id h) ;;;
     writer_u32 (payload_length h) ;;;
     writer_bytes p).

Definition decode_frame (frame : ByteView) : Result FrameView :=
  if negb (valid_view frame) || (view_size frame <? kFrameHeaderSize)
  then failure PROTOCOL_ERROR
  else match decode_frame_header (View (ztake kFrameHeaderSize (view_bytes frame))) with
  | failure e => failure e
  | success h =>
      if negb (view_size frame - kFrameHeaderSize =? payload_length h)
      then failure PROTOCOL_ERROR
      else
        let p := View (ztake (payload_length h) (zdrop kFrameHeaderSize (view_bytes frame))) in
        if negb (is_success (validate_payload (type h) (kind h) p)) then failure PROTOCOL_ERROR
        else success {| header := h; payload := p |}
  end.

(** * The wire form of a header *)

Definition wire_header (h : FrameHeader) : list Z :=
  kMagic ++ le 2 (major h) ++ le 2 (minor h) ++ le 2 (to_raw (type h)) ++
  le 2 (flags_of_kind (kind h)) ++ le 4 (request_id h) ++ le 4 (payload_length h).

Definition typed_header (h : FrameHeader) : Prop :=
  is_u16 (major h) /\ is_u16 (minor h) /\ enum_ok 16 (type h) /\ is_u32 (request_id h) /\
  is_u32 (payload_length h).

(** What [validate_header_fields] accepts. *)
Definition header_valid (h : FrameHeader) : bool :=
  is_success (validate_header_fields h PROTOCOL_ERROR).

Lemma header_valid_error h e : is_success (validate_header_fields h e) = header_valid h.
Proof. 
  unfold header_valid, validate_header_fields. destruct (_ || _ || _ || _); [done|].
  destruct (is_event_message _).
  - by destruct (_ || _).
  - by destruct (_ && _ && _).
Qed.

Lemma header_valid_inv h :
  header_valid h = true ->
  is_known_message_type (type h) = true /\ major h = kProtocolMajor /\ minor h = kProtocolMinor /\
  payload_length h <= payload_limit (type h) /\
  (if is_event_message (type h) then kind h = event /\ request_id h = 0
   else kind h <> event).
Proof.
  unfold header_valid, validate_header_fields. intros H.
  destruct (is_known_message_type (type h)); [|done].
  destruct (Z.eqb_spec (major h) kProtocolMajor); [|done].
  destruct (Z.eqb_spec (minor h) kProtocolMinor); [|done]. simpl in H.
  destruct (Z.ltb_spec (payload_limit (type h)) (payload_length h)); [done|].
  split_and!; try done. destruct (is_event_message (type h)).
  - destruct (eqb (kind h) event) eqn:K; [|done]. destruct (Z.eqb_spec (request_id h) 0); [|done].
    split; [by apply eqb_true_1 in K|done].
  - intros K. rewrite K in H. by vm_compute in H.
Qed.

Lemma header_valid_success h e :
  header_valid h = true -> validate_header_fields h e = success tt.
Proof.
  rewrite <-(header_valid_error h e). destruct (validate_header_fields h e) as [[]|]; done.
Qed.

Lemma kind_of_flags_of_kind h :
  header_valid h = true -> kind_of_flags (type h) (flags_of_kind (kind h)) = kind h.
Proof.
  intros H. apply header_valid_inv in H as (_ & _ & _ & _ & H).
  unfold kind_of_flags, flags_of_kind. destruct (is_event_message (type h)).
  - destruct H as [-> _]. done.
  - destruct (kind h); done.
Qed.

Lemma flags_of_kind_u16 k : is_u16 (flags_of_kind k).
Proof. destruct k; unfold is_u16; vm_compute; intuition discriminate. Qed.

Lemma zlen_wire_header h : zlen (wire_header h) = kFrameHeaderSize.
Proof. unfold wire_header, kFrameHeaderSize, kMagic. zlen_lia. Qed.

Lemma outside_known_flags flags :
  is_u16 flags -> outside_mask flags kKnownFlags = false -> 0 <= flags < 4.
Proof.
  unfold outside_mask, is_u16. intros F H. apply negb_false_iff, Z.eqb_eq in H.
  change (Z.lnot kKnownFlags) with (Z.lnot (Z.ones 2)) in H. rewrite <-Z.ldiff_land in H.
  rewrite Z.ldiff_ones_r in H by lia.
  rewrite Z.shiftl_mul_pow2, Z.shiftr_div_pow2 in H by lia.
  Z.to_euclidean_division_equations; lia.
Qed.

Lemma flags_of_kind_of_flags t flags :
  is_u16 flags -> outside_mask flags kKnownFlags = false -> (flags =? kErrorFlag) = false ->
  flags_of_kind (kind_of_flags t flags) = flags.
Proof.
  intros F O E. pose proof (outside_known_flags _ F O). apply Z.eqb_neq in E.
  unfold kErrorFlag in E. assert (flags = 0 \/ flags = 1 \/ flags = 3) as [->|[->| ->]] by lia.
  - unfold kind_of_flags. simpl. by destruct (is_event_message t).
  - done.
  - done.
Qed.

Lemma flags_of_kind_known k :
  outside_mask (flags_of_kind k) kKnownFlags = false /\ (flags_of_kind k =? kErrorFlag) = false.
Proof. by destruct k. Qed.

Lemma decode_header_complete h :
  typed_header h -> header_valid h = true ->
  decode_frame_header (View (wire_header h)) = success h.
Proof.
  intros (?&?&E&?&?) V. unfold decode_frame_header.
  cbn [valid_view view_size view_bytes negb orb]. rewrite zlen_wire_header, Z.eqb_refl.
  assert (ztake 4 (wire_header h) = kMagic) as -> by (by apply ztake_app).
  unfold bytes_eqb. rewrite bool_decide_true by done. cbn [negb].
  assert (parses read_header_fields (zdrop 4 (wire_header h) ++ [])
    (major h, minor h, to_raw (type h), flags_of_kind (kind h), request_id h, payload_length h))
    as P.
  { destruct E as [_ R]. unfold wire_header. rewrite zdrop_app by done. rewrite <-!app_assoc.
    unfold read_header_fields. pose proof (flags_of_kind_u16 (kind h)). solve_parses; done. }
  rewrite app_nil_r in P. specialize (P []).
  change (init_Reader (View (zdrop 4 (wire_header h)))) with (reader_at [] (zdrop 4 (wire_header h))).
  rewrite P. destruct E as [E _]. rewrite E.
  destruct (header_valid_inv _ V) as (K & M & N & _ & _). rewrite M, N. simpl.
  destruct (flags_of_kind_known (kind h)) as [-> ->]. rewrite K, kind_of_flags_of_kind by done.
  simpl. rewrite <-M, <-N. destruct h as [ma mi t k r l]. simpl in *.
  by rewrite (header_valid_success _ _ V).
Qed.

Lemma decode_header_sound l h :
  bytes_ok l -> decode_frame_header (View l) = success h ->
  l = wire_header h /\ typed_header h /\ header_valid h = true.
Proof.
  unfold decode_frame_header. simpl. intros OK H.
  destruct (Z.eqb_spec (zlen l) kFrameHeaderSize) as [L|]; [simpl in H|done].
  unfold bytes_eqb in H. destruct (bool_decide (ztake 4 l = kMagic)) eqn:M; [simpl in H|done].
  apply bool_decide_eq_true in M.
  change (init_Reader (View (zdrop 4 l))) with (reader_at [] (zdrop 4 l)) in H.
  destruct (read_header_fields _) as [[v rd]|] eqn:E; [|done].
  pose proof (bytes_ok_drop 4 _ OK) as OK'. pose proof (ztake_zdrop 4 l) as S. rewrite M in S.
  revert S. generalize dependent (zdrop 4 l). intros l' E OK' S.
  unfold read_header_fields in E. inv_reads.
  destruct (Z.eqb_spec x kProtocolMajor) as [M1|]; [|done].
  destruct (Z.eqb_spec x1 kProtocolMinor) as [M2|]; [simpl in H|done].
  destruct (is_known_message_type (of_raw x3)); [simpl in H|done].
  destruct (outside_mask x5 kKnownFlags) eqn:O; [done|].
  destruct (x5 =? kErrorFlag) eqn:F; [done|]. simpl in H.
  destruct (validate_header_fields _ _) as [[]|] eqn:V; [|done]. injection H as <-.
  split; [|split].
  - unfold wire_header. simpl major. simpl minor. simpl type. simpl kind. simpl request_id.
    simpl payload_length. rewrite to_of_raw, flags_of_kind_of_flags by done.
    by rewrite app_nil_r.
  - split_and!; try done. by apply enum_ok_of_raw.
  - unfold header_valid. by rewrite V.
Qed.

(** * Whole frames *)

Definition frame_valid (f : FrameView) : bool := is_success (validate_frame_view f).

Lemma frame_valid_inv f :
  frame_valid f = true ->
  valid_view (payload f) = true /\ payload_length (header f) = view_size (payload f) /\
  header_valid (header f) = true /\
  validate_payload (type (header f)) (kind (header f)) (payload f) = success tt.
Proof.
  unfold frame_valid, validate_frame_view. fold (header_valid (header f)). intros H.
  destruct (valid_view (payload f)); [|done].
  destruct (Z.eqb_spec (payload_length (header f)) (view_size (payload f))); [|done]. simpl in H.
  destruct (header_valid (header f)); [|done].
  destruct (validate_payload _ _ _) as [[]|]; [|done]. done.
Qed.

Lemma frame_valid_intro f :
  valid_view (payload f) = true -> payload_length (header f) = view_size (payload f) ->
  header_valid (header f) = true ->
  validate_payload (type (header f)) (kind (header f)) (payload f) = success tt ->
  validate_frame_view f = success tt.
Proof.
  intros V L H P. unfold validate_frame_view. fold (header_valid (header f)).
  by rewrite V, L, Z.eqb_refl, H, P.
Qed.

Lemma encode_frame_spec h p output :
  encode_frame h p output =
  Some (if frame_valid {| header := h; payload := p |}
        then encode_reference output (wire_header h ++ view_bytes p)
        else (failure INVALID_ARGUMENT, output)).
Proof.
  unfold encode_frame, frame_valid, validate_frame_view. cbn [header payload].
  rewrite header_valid_error. fold (header_valid h).
  destruct (valid_view p) eqn:V; [|done].
  destruct (Z.eqb_spec (payload_length h) (view_size p)) as [L|]; [|done].
  cbn [negb orb]. destruct (header_valid h); [|done].
  destruct (is_success (validate_payload _ _ p)); [|done]. cbn [negb orb is_success].
  apply write_payload_emits.
  - unfold wire_header. rewrite <-!app_assoc. do 7 (apply emits_seq; [eauto with px4|]).
    by apply emits_bytes.
  - rewrite zlen_app, zlen_wire_header, (valid_view_size _ V). done.
Qed.

(** [View []] and a null view without bytes are validated alike. *)
Lemma validate_payload_normal t k p :
  valid_view p = true -> validate_payload t k (normal_view p) = validate_payload t k p.
Proof.
  destruct p as [n|l]; [|done]. simpl. intros E. apply Z.eqb_eq in E as ->. reflexivity.
Qed.

Lemma decode_frame_complete h l :
  typed_header h -> validate_frame_view {| header := h; payload := View l |} = success tt ->
  decode_frame (View (wire_header h ++ l)) = success {| header := h; payload := View l |}.
Proof.
  intros T V. assert (frame_valid {| header := h; payload := View l |} = true) as F
    by (unfold frame_valid; by rewrite V).
  apply frame_valid_inv in F as (_ & L & H & P). cbn [header payload view_size] in *.
  unfold decode_frame. cbn [valid_view view_size view_bytes negb orb].
  rewrite zlen_app, zlen_wire_header.
  rewrite (proj2 (Z.ltb_ge _ _)) by zlen_lia.
  rewrite ztake_app, zdrop_app by apply zlen_wire_header.
  rewrite decode_header_complete by done. rewrite L.
  replace (kFrameHeaderSize + zlen l - kFrameHeaderSize) with (zlen l) by lia.
  rewrite Z.eqb_refl, ztake_ge by lia. cbn [negb]. by rewrite P.
Qed.

Lemma decode_frame_sound l f :
  bytes_ok l -> decode_frame (View l) = success f ->
  exists p, payload f = View p /\ bytes_ok p /\ l = wire_header (header f) ++ p /\
    typed_header (header f) /\ validate_frame_view f = success tt.
Proof.
  unfold decode_frame. cbn [valid_view view_size view_bytes negb orb]. intros OK H.
  destruct (Z.ltb_spec (zlen l) kFrameHeaderSize) as [|S]; [done|].
  destruct (decode_frame_header _) as [h|e] eqn:D; [|done].
  apply decode_header_sound in D as (W & T & V); [|by apply bytes_ok_take].
  destruct (Z.eqb_spec (zlen l - kFrameHeaderSize) (payload_length h)) as [L|]; [|done].
  cbn [negb] in H. assert (zlen (zdrop kFrameHeaderSize l) = payload_length h) as L'.
  { rewrite zlen_drop. unfold kFrameHeaderSize in *. lia. }
  rewrite ztake_ge in H by lia.
  destruct (validate_payload _ _ _) as [[]|] eqn:P; [|done]. injection H as <-.
  exists (zdrop kFrameHeaderSize l). cbn [header payload]. split; [done|].
  split; [by apply bytes_ok_drop|]. rewrite <-W, ztake_zdrop. split; [done|].
  split; [done|]. by apply frame_valid_intro.
Qed.

(** * Theorems *)

(** C28 What [encode_frame] writes, [decode_frame] reads back: the same header and
    the same payload bytes, for requests, responses, error responses and events
    of every message type. *)
Theorem frame_roundtrip h p output buf n :
  typed_header h -> encode_frame h p output = Some (success n, buf) ->
  decode_frame (View (ztake n (view_bytes buf))) =
    success {| header := h; payload := normal_view p |}.
Proof.
  rewrite encode_frame_spec. intros T E.
  destruct (frame_valid _) eqn:F; [|done]. apply frame_valid_inv in F as (V & L & H & P).
  cbn [header payload] in *. injection E as E.
  apply encode_reference_success in E as [-> ->]. unfold normal_view.
  apply decode_frame_complete; [done|]. apply frame_valid_intro; cbn [header payload]; try done.
  - rewrite L. by apply valid_view_size.
  - change (View (view_bytes p)) with (normal_view p). by rewrite validate_payload_normal.
Qed.

Definition sample_header : FrameHeader := {|
  major := 1; minor := 0; type := ACQUIRE; kind := request; request_id := 77; payload_length := 1;
|}.

Lemma sample_header_typed : typed_header sample_header.
Proof.
  repeat split; try reflexivity; try (simpl; lia); try discriminate.
Qed.

Lemma frame_roundtrip_witness :
  exists buf, encode_frame sample_header (View [3]) (View (replicate 24 0)) = Some (success 21, buf) /\
    decode_frame (View (ztake 21 (view_bytes buf))) =
      success {| header := sample_header; payload := View [3] |}.
Proof.
  eexists. split; [vm_compute; reflexivity|].
  apply (frame_roundtrip sample_header (View [3]) (View (replicate 24 0))).
  - exact sample_header_typed.
  - vm_compute. reflexivity.
Defined.

(** A byte string that decodes to a frame is the only one that does: the frame
    passes [validate_frame_view], obeys the frame size limit, and encoding it
    reproduces the bytes. *)
Theorem frame_reencode l f buf :
  bytes_ok l -> decode_frame (View l) = success f ->
  validate_frame_view f = success tt /\
  kFrameHeaderSize <= zlen l <= kMaxFrameSize /\
  (zlen l <= zlen buf ->
   encode_frame (header f) (payload f) (View buf) =
     Some (success (zlen l), View (l ++ zdrop (zlen l) buf))).
Proof.
  intros OK D. destruct (decode_frame_sound l f OK D) as (p & P & _ & -> & T & V).
  assert (frame_valid f = true) as F by (unfold frame_valid; by rewrite V).
  split; [done|]. split.
  - apply frame_valid_inv in F as (_ & L & H & _). rewrite P in L. cbn [view_size] in L.
    apply header_valid_inv in H as (_ & _ & _ & B & _).
    rewrite zlen_app, zlen_wire_header. unfold kMaxFrameSize, payload_limit in *.
    pose proof (zlen_nonneg p).
    unfold kMaxTsDataPayload, kMaxControlPayload in *. case_match; lia.
  - intros S. rewrite encode_frame_spec, P. destruct f as [h p']. cbn [header payload] in *. subst p'.
    rewrite F. unfold encode_reference. cbn [valid_view view_size view_bytes negb with_bytes].
    by rewrite (proj2 (Z.ltb_ge _ _)).
Qed.

Definition sample_frame : list Z :=
  [80; 88; 52; 85; 1; 0; 0; 0; 32; 0; 0; 0; 77; 0; 0; 0; 1; 0; 0; 0; 3].

Lemma frame_reencode_witness :
  exists f, decode_frame (View sample_frame) = success f /\
    encode_frame (header f) (payload f) (View (replicate 21 0)) =
      Some (success 21, View sample_frame).
Proof.
  eexists. split; [vm_compute; reflexivity|].
  refine (proj2 (proj2 (frame_reencode sample_frame _ (replicate 21 0) _ _)) _).
  - apply bytes_okb_ok. reflexivity.
  - vm_compute. reflexivity.
  - vm_compute. discriminate.
Defined.

Lemma le2_inj a b : is_u16 a -> is_u16 b -> le 2 a = le 2 b -> a = b.
Proof.
  unfold is_u16. intros A B E. unfold le in E. injection E as E0 E1.
  Z.to_euclidean_division_equations; lia.
Qed.

Lemma version_bytes ma mi :
  is_u16 ma -> is_u16 mi ->
  bytes_eqb (le 2 ma ++ le 2 mi) (le 2 kProtocolMajor ++ le 2 kProtocolMinor) =
  (ma =? kProtocolMajor) && (mi =? kProtocolMinor).
Proof.
  intros A B. unfold bytes_eqb.
  destruct (Z.eqb_spec ma kProtocolMajor) as [-> |NA], (Z.eqb_spec mi kProtocolMinor) as [-> |NB];
    [by apply bool_decide_true|apply bool_decide_false..]; intros E;
    apply app_inj_1 in E as [E1 E2]; try done;
    first [ apply le2_inj in E1; [|done|unfold is_u16, kProtocolMajor; lia]; by apply NA
          | apply le2_inj in E2; [|done|unfold is_u16, kProtocolMinor; lia]; by apply NB ].
Qed.

(** Sixteen bytes always parse as header fields. *)
Lemma read_header_fields_total l :
  bytes_ok l -> zlen l = 16 ->
  exists ma mi t fl r len rd, read_header_fields (reader_at [] l) =
    Some ((ma, mi, t, fl, r, len), rd) /\ is_u16 ma /\ is_u16 mi /\ ztake 4 l = le 2 ma ++ le 2 mi.
Proof.
  intros OK L. unfold zlen in L.
  do 16 (destruct l as [|? l]; [simpl in L; lia|]). destruct l; [|simpl in L; lia].
  repeat (apply Forall_cons in OK as [? OK]).
  eexists _, _, _, _, _, _, _. split.
  - match goal with |- read_header_fields (reader_at [] [?a; ?b; ?c; ?d; ?e; ?f; ?g; ?h; ?i; ?j; ?k;
        ?m; ?n; ?o; ?p; ?q]) = _ =>
      assert (parses read_header_fields [a; b; c; d; e; f; g; h; i; j; k; m; n; o; p; q]
        (a + b * 2 ^ 8, c + d * 2 ^ 8, e + f * 2 ^ 8, g + h * 2 ^ 8,
         i + j * 2 ^ 8 + k * 2 ^ 16 + m * 2 ^ 24, n + o * 2 ^ 8 + p * 2 ^ 16 + q * 2 ^ 24)) as P;
      [change [a; b; c; d; e; f; g; h; i; j; k; m; n; o; p; q] with
         ([a; b] ++ [c; d] ++ [e; f] ++ [g; h] ++ [i; j; k; m] ++ [n; o; p; q] ++ [])|]
    end; [|exact (P [])].
    rewrite <-!le4_of_bytes, <-!le2_of_bytes by done. unfold read_header_fields.
    solve_parses; first [reflexivity|width_lia].
  - split; [width_lia|]. split; [width_lia|]. by rewrite !le2_of_bytes.
Qed.

(** A frame of another protocol version is told apart from a malformed one: on a
    buffer that holds a header, VERSION_MISMATCH is returned exactly when the
    magic is right and the version is not 1.0; every other failure is
    PROTOCOL_ERROR. *)
Theorem decode_frame_errors l e :
  bytes_ok l -> kFrameHeaderSize <= zlen l -> decode_frame (View l) = failure e ->
  e = if bytes_eqb (ztake 4 l) kMagic
         && negb (bytes_eqb (window l 4 4) (le 2 kProtocolMajor ++ le 2 kProtocolMinor))
      then VERSION_MISMATCH else PROTOCOL_ERROR.
Proof.
  unfold kFrameHeaderSize at 1. intros OK L H. unfold decode_frame, decode_frame_header in H.
  cbn [valid_view view_size view_bytes negb orb] in H.
  rewrite (proj2 (Z.ltb_ge _ _)), zlen_take in H by (unfold kFrameHeaderSize; lia).
  replace (Z.min _ _) with kFrameHeaderSize in H by (unfold kFrameHeaderSize; lia).
  rewrite Z.eqb_refl in H. cbn [negb] in H.
  change (ztake kFrameHeaderSize l) with (window l 0 20) in H.
  rewrite ztake_window, zdrop_window in H by lia. change (window l 0 4) with (ztake 4 l) in H.
  destruct (bytes_eqb (ztake 4 l) kMagic); [cbn [negb andb] in *|by injection H].
  destruct (read_header_fields_total (window l (0 + 4) (20 - 4))) as
    (ma & mi & t & fl & r & len & rd & E & A & B & W).
  { by apply bytes_ok_take, bytes_ok_drop. } { apply zlen_window; lia. }
  rewrite ztake_window in W by lia. change (window l (0 + 4) 4) with (window l 4 4) in W.
  change (init_Reader (View ?x)) with (reader_at [] x) in H. rewrite E in H.
  rewrite W, version_bytes, negb_andb by done.
  destruct (_ || _); [by injection H|].
  destruct (_ || _ || _) in H; [by injection H|].
  destruct (validate_header_fields _ _) as [[]|e'] eqn:V in H.
  - destruct (negb _) in H; [by injection H|]. destruct (negb _) in H; [by injection H|done].
  - injection H as <-. revert V. unfold validate_header_fields. repeat case_match; congruence.
Qed.

Lemma decode_frame_errors_witness :
  exists e, decode_frame (View (ztake 4 sample_frame ++ [2; 0] ++ zdrop 6 sample_frame)) = failure e /\
    e = VERSION_MISMATCH.
Proof.
  eexists. split; [vm_compute; reflexivity|].
  refine (decode_frame_errors (ztake 4 sample_frame ++ [2; 0] ++ zdrop 6 sample_frame) _ _ _ _).
  - apply bytes_okb_ok. reflexivity.
  - vm_compute. discriminate.
  - vm_compute. reflexivity.
Defined.
