(* ===== verification/IpcFramer.v ===== *)
(** [StreamFramer] ([src/ipc.cpp]): cuts a byte stream into frames in
    caller-owned storage.  The consumer is any state machine that answers a
    frame with a result.  A copy outside the storage or the input is undefined
    behaviour, and running out of fuel is [None] too; the refinement theorem
    shows that neither happens. *)

From S2P Require Import Prelude IpcTypes IpcWire IpcCodecs IpcPayload IpcRoundtrip IpcFrame.

Record StreamFramer := {
  storage : ByteView;
  buffered : Z;
  expected : Z;
  failed : bool;
  failure_ : Error;
}.

Definition init_StreamFramer (storage : ByteView) : StreamFramer :=
  {| storage := storage; buffered := 0; expected := 0; failed := false; failure_ := OK |}.

(** [fail]. *)
Definition fail (f : StreamFramer) (error : Error) : StreamFramer :=
  {| storage := storage f; buffered := buffered f; expected := expected f;
     failed := true; failure_ := error |}.

Definition reset (f : StreamFramer) : StreamFramer :=
  {| storage := storage f; buffered := 0; expected := 0; failed := false; failure_ := OK |}.

Definition set_expected (f : StreamFramer) (n : Z) : StreamFramer :=
  {| storage := storage f; buffered := buffered f; expected := n;
     failed := failed f; failure_ := failure_ f |}.

(** [buffered_ = 0U; expected_ = 0U] after a frame. *)
Definition next_frame (f : StreamFramer) : StreamFramer :=
  {| storage := storage f; buffered := 0; expected := 0;
     failed := failed f; failure_ := failure_ f |}.

(** How an iteration of the loop goes on. *)
Inductive Flow := Continue | Return (e : Error) | Proceed.

(** Copies input behind the buffered bytes, up to [limit] bytes in all. *)
Definition copy_in (f : StreamFramer) (input : list Z) (offset limit : Z)
  : option (StreamFramer * Z) :=
  let amount := Z.min (limit - buffered f) (zlen input - offset) in
  chunk ← mem_load input offset amount;
  st ← mem_store (view_bytes (storage f)) (buffered f) chunk;
  Some ({| storage := with_bytes (storage f) st; buffered := buffered f + amount;
           expected := expected f; failed := failed f; failure_ := failure_ f |},
        offset + amount).

(** The first part of an iteration: the header. *)
Definition read_header (f : StreamFramer) (input : list Z) (offset : Z)
  : option (StreamFramer * Z * Flow) :=
  if buffered f <? kFrameHeaderSize then
    '(f, offset) ← copy_in f input offset kFrameHeaderSize;
    if buffered f <? kFrameHeaderSize then Some (f, offset, Continue)
    else
      bytes ← mem_load (view_bytes (storage f)) 0 kFrameHeaderSize;
      match decode_frame_header (View bytes) with
      | failure e => Some (fail f e, offset, Return e)
      | success h =>
          let f := set_expected f (kFrameHeaderSize + payload_length h) in
          if view_size (storage f) <? expected f
          then Some (fail f BUFFER_TOO_SMALL, offset, Return BUFFER_TOO_SMALL)
          else Some (f, offset, Proceed)
      end
  else Some (f, offset, Proceed).

Section Feed.
Context {C : Type} (on_frame : C -> FrameView -> Result unit * C).

Fixpoint feed_loop (fuel : nat) (f : StreamFramer) (c : C) (input : list Z)
    (offset completed : Z) : option (Result Z * StreamFramer * C) :=
  if offset <? zlen input then
    match fuel with
    | O => None
    | S fuel =>
        '(f, offset, flow) ← read_header f input offset;
        match flow with
        | Continue => feed_loop fuel f c input offset completed
        | Return e => Some (failure e, f, c)
        | Proceed =>
            '(f, offset) ← (if buffered f <? expected f then copy_in f input offset (expected f)
                            else Some (f, offset));
            if buffered f <? expected f then feed_loop fuel f c input offset completed
            else
              bytes ← mem_load (view_bytes (storage f)) 0 (expected f);
              match decode_frame (View bytes) with
              | failure e => Some (failure e, fail f e, c)
              | success frame =>
                  match on_frame c frame with
                  | (failure e, c) => Some (failure e, fail f e, c)
                  | (success _, c) => feed_loop fuel (next_frame f) c input offset (completed + 1)
                  end
              end
        end
    end
  else Some (success completed, f, c).

Definition feed (f : StreamFramer) (c : C) (input : ByteView)
  : option (Result Z * StreamFramer * C) :=
  if failed f then Some (failure (failure_ f), f, c)
  else if negb (valid_view input) || negb (valid_view (storage f))
          || (view_size (storage f) <? kFrameHeaderSize)
  then Some (failure INVALID_ARGUMENT, f, c)
  else feed_loop (Z.to_nat (view_size input)) f c (view_bytes input) 0 0.

(** * The specification: one byte at a time *)

Inductive Framing :=
  | Pending (bytes : list Z)
  | Poisoned (e : Error).

Definition deliver (c : C) (n : Z) (bytes : list Z) : Framing * C * Z :=
  match decode_frame (View bytes) with
  | failure e => (Poisoned e, c, n)
  | success frame =>
      match on_frame c frame with
      | (failure e, c) => (Poisoned e, c, n)
      | (success _, c) => (Pending [], c, n + 1)
      end
  end.

(** One byte of the stream arrives; [capacity] is the size of the storage. *)
Definition push_byte (capacity : Z) (s : Framing * C * Z) (b : Z) : Framing * C * Z :=
  match s with
  | (Poisoned e, c, n) => (Poisoned e, c, n)
  | (Pending p, c, n) =>
      let p := p ++ [b] in
      if zlen p <? kFrameHeaderSize then (Pending p, c, n)
      else match decode_frame_header (View (ztake kFrameHeaderSize p)) with
      | failure e => (Poisoned e, c, n)
      | success h =>
          let size := kFrameHeaderSize + payload_length h in
          if capacity <? size then (Poisoned BUFFER_TOO_SMALL, c, n)
          else if zlen p <? size then (Pending p, c, n)
          else deliver c n p
      end
  end.

Definition push (capacity : Z) (s : Framing * C * Z) (l : list Z) : Framing * C * Z :=
  foldl (push_byte capacity) s l.

(** What the framer's fields stand for. *)
Definition represents (capacity : Z) (f : StreamFramer) (s : Framing) : Prop :=
  (exists st, storage f = View st /\ zlen st = capacity /\ kFrameHeaderSize <= capacity /\ bytes_ok st /\
    match s with
    | Poisoned e => failed f = true /\ failure_ f = e
    | Pending p =>
        failed f = false /\ buffered f = zlen p /\ ztake (zlen p) st = p /\ zlen p <= capacity /\
        (kFrameHeaderSize <= zlen p -> exists h,
           decode_frame_header (View (ztake kFrameHeaderSize p)) = success h /\
           expected f = kFrameHeaderSize + payload_length h /\
           zlen p < expected f <= capacity)
    end).

(** The result of a call in terms of the specification. *)
Definition outcome (s : Framing) (n : Z) : Result Z :=
  match s with Pending _ => success n | Poisoned e => failure e end.
End Feed.

(** * Lemmas on the specification *)

Section Spec.
Context {C : Type} (on_frame : C -> FrameView -> Result unit * C) (capacity : Z).
Implicit Types (c : C) (n : Z) (p l : list Z).

Lemma push_app s l1 l2 :
  push on_frame capacity s (l1 ++ l2) = push on_frame capacity (push on_frame capacity s l1) l2.
Proof. apply foldl_app. Qed.

Lemma push_cons s b l :
  push on_frame capacity s (b :: l) = push on_frame capacity (push_byte on_frame capacity s b) l.
Proof. done. Qed.

Lemma push_one s b : push on_frame capacity s [b] = push_byte on_frame capacity s b.
Proof. done. Qed.

Lemma push_poisoned e c n l :
  push on_frame capacity (Poisoned e, c, n) l = (Poisoned e, c, n).
Proof. unfold push. by induction l. Qed.

Lemma push_short p c n l :
  zlen p + zlen l < kFrameHeaderSize ->
  push on_frame capacity (Pending p, c, n) l = (Pending (p ++ l), c, n).
Proof.
  revert p. induction l as [|b l IH]; intros p H; [by rewrite app_nil_r|].
  rewrite zlen_cons in H. pose proof (zlen_nonneg l).
  rewrite push_cons. cbn [push_byte]. rewrite (proj2 (Z.ltb_lt _ _)) by zlen_lia.
  rewrite IH by zlen_lia. by rewrite <-app_assoc.
Qed.

Lemma push_body p h c n l :
  kFrameHeaderSize <= zlen p ->
  decode_frame_header (View (ztake kFrameHeaderSize p)) = success h ->
  kFrameHeaderSize + payload_length h <= capacity ->
  zlen p + zlen l < kFrameHeaderSize + payload_length h ->
  push on_frame capacity (Pending p, c, n) l = (Pending (p ++ l), c, n).
Proof.
  revert p. induction l as [|b l IH]; intros p P D Cap H; [by rewrite app_nil_r|].
  rewrite zlen_cons in H. pose proof (zlen_nonneg l).
  rewrite push_cons. cbn [push_byte]. rewrite (proj2 (Z.ltb_ge _ _)) by zlen_lia.
  rewrite ztake_app_le, D by lia. cbv zeta. rewrite (proj2 (Z.ltb_ge _ _)) by lia.
  rewrite (proj2 (Z.ltb_lt _ _)) by zlen_lia.
  rewrite IH; [by rewrite <-app_assoc| zlen_lia | by rewrite ztake_app_le by lia | lia | zlen_lia].
Qed.

(** Splits the last byte off. *)
Lemma zlen_snoc l : 0 < zlen l -> exists l' b, l = l' ++ [b] /\ zlen l = zlen l' + 1.
Proof.
  intros H. destruct l as [|b l] using rev_ind; [done|]. exists l, b.
  split; [done|]. by rewrite zlen_app.
Qed.

Lemma push_complete p h c n l :
  kFrameHeaderSize <= zlen p ->
  decode_frame_header (View (ztake kFrameHeaderSize p)) = success h ->
  kFrameHeaderSize + payload_length h <= capacity ->
  0 < zlen l -> zlen p + zlen l = kFrameHeaderSize + payload_length h ->
  push on_frame capacity (Pending p, c, n) l = deliver on_frame c n (p ++ l).
Proof.
  intros P D Cap L H. destruct (zlen_snoc l L) as (l' & b & -> & L').
  rewrite push_app, (push_body p h) by (done || lia). rewrite push_one. cbn [push_byte].
  rewrite (proj2 (Z.ltb_ge _ _)) by zlen_lia.
  rewrite <-app_assoc, ztake_app_le, D by lia.
  cbv zeta. rewrite !(proj2 (Z.ltb_ge _ _)) by zlen_lia. done.
Qed.

Lemma push_header p c n l :
  0 < zlen l -> zlen p + zlen l = kFrameHeaderSize ->
  push on_frame capacity (Pending p, c, n) l =
    match decode_frame_header (View (p ++ l)) with
    | failure e => (Poisoned e, c, n)
    | success h =>
        let size := kFrameHeaderSize + payload_length h in
        if capacity <? size then (Poisoned BUFFER_TOO_SMALL, c, n)
        else if kFrameHeaderSize <? size then (Pending (p ++ l), c, n)
        else deliver on_frame c n (p ++ l)
    end.
Proof.
  intros L H. destruct (zlen_snoc l L) as (l' & b & -> & L').
  rewrite push_app, push_short by lia. rewrite push_one. cbn [push_byte]. rewrite <-app_assoc.
  rewrite (proj2 (Z.ltb_ge _ _)) by zlen_lia. rewrite ztake_ge by zlen_lia.
  replace (zlen (p ++ l' ++ [b])) with kFrameHeaderSize by zlen_lia. done.
Qed.
End Spec.

(** * Refinement *)

(** The fields [copy_in] relies on. *)
Definition holds (capacity : Z) (f : StreamFramer) (p : list Z) : Prop :=
  exists st, storage f = View st /\ zlen st = capacity /\ bytes_ok st /\
    failed f = false /\ buffered f = zlen p /\ ztake (zlen p) st = p.

Lemma copy_in_spec capacity f p input offset limit :
  holds capacity f p -> bytes_ok input -> zlen p < limit <= capacity ->
  0 <= offset <= zlen input ->
  exists f' chunk, copy_in f input offset limit = Some (f', offset + zlen chunk) /\
    (offset < zlen input -> 0 < zlen chunk) /\ zlen p + zlen chunk <= limit /\
    offset + zlen chunk <= zlen input /\
    (zlen p + zlen chunk < limit -> offset + zlen chunk = zlen input) /\
    zdrop offset input = chunk ++ zdrop (offset + zlen chunk) input /\
    holds capacity f' (p ++ chunk) /\ expected f' = expected f.
Proof.
  intros (st & S & N & OK & F & B & T) OKi L O. unfold copy_in. rewrite S, B.
  set (k := Z.min (limit - zlen p) (zlen input - offset)).
  assert (0 <= k <= limit - zlen p /\ k <= zlen input - offset) as K by lia.
  set (chunk := ztake k (zdrop offset input)).
  assert (zlen chunk = k) as Ck by (unfold chunk; rewrite zlen_take, zlen_drop; lia).
  unfold mem_load. rewrite !(proj2 (Z.leb_le _ _)) by lia. simpl. fold chunk.
  assert (zlen p <= zlen st) by lia.
  rewrite mem_store_ok by (try apply zlen_nonneg; lia). simpl.
  eexists _, chunk. split; [by rewrite Ck|]. do 4 (split; [lia|]).
  split. { unfold chunk at 1. rewrite Ck, <-(zdrop_zdrop k) by lia. by rewrite ztake_zdrop. }
  split; [|done]. exists (ztake (zlen p) st ++ chunk ++ zdrop (zlen p + zlen chunk) st).
  split; [simpl; by rewrite Ck|]. split.
  { by rewrite zlen_store by (try apply zlen_nonneg; lia). }
  split. { rewrite !bytes_ok_app. unfold chunk. auto with px4. }
  split; [done|]. split; [simpl; zlen_lia|].
  rewrite T, app_assoc. apply ztake_app. done.
Qed.

Lemma load_front st p n :
  ztake (zlen p) st = p -> n <= zlen p -> 0 <= n -> zlen p <= zlen st ->
  mem_load st 0 n = Some (ztake n p).
Proof.
  intros T L N S. unfold mem_load. rewrite !(proj2 (Z.leb_le _ _)) by lia. simpl.
  rewrite zdrop_0. f_equal. rewrite <-T. unfold ztake. rewrite take_take. f_equal.
  unfold zlen in *. lia.
Qed.

Definition header_known (capacity : Z) (f : StreamFramer) (p : list Z) : Prop :=
  exists h, decode_frame_header (View (ztake kFrameHeaderSize p)) = success h /\
    expected f = kFrameHeaderSize + payload_length h /\ zlen p <= expected f <= capacity.

Lemma represents_pending capacity f p :
  kFrameHeaderSize <= capacity -> zlen p <= capacity ->
  holds capacity f p -> (kFrameHeaderSize <= zlen p -> header_known capacity f p /\ zlen p < expected f) ->
  represents capacity f (Pending p).
Proof.
  intros K L Hf HK. destruct Hf as (st & ? & ? & ? & ? & ? & ?).
  exists st. split_and!; try done. intros P. destruct (HK P) as [(h & ? & ? & ?) ?]. exists h. split_and!; try done; lia.
Qed.

Lemma represents_fail capacity f p e :
  kFrameHeaderSize <= capacity -> holds capacity f p -> represents capacity (fail f e) (Poisoned e).
Proof. intros K (st & ? & ? & ? & ? & ? & ?). by exists st. Qed.

Lemma header_length_nonneg l h :
  bytes_ok l -> decode_frame_header (View l) = success h -> 0 <= payload_length h.
Proof.
  intros OK D. apply decode_header_sound in D as (_ & (_ & _ & _ & _ & R) & _); [|done].
  unfold is_u32 in R. lia.
Qed.

Section Refinement.
Context {C : Type} (on_frame : C -> FrameView -> Result unit * C) (capacity : Z).
Hypothesis capacity_ok : kFrameHeaderSize <= capacity.

(** The end of an iteration, once [p] holds the whole frame. *)
Definition finish (fuel : nat) (f : StreamFramer) (c : C) (input : list Z) (offset n : Z) :=
  bytes ← mem_load (view_bytes (storage f)) 0 (expected f);
  match decode_frame (View bytes) with
  | failure e => Some (failure e, fail f e, c)
  | success frame =>
      match on_frame c frame with
      | (failure e, c) => Some (failure e, fail f e, c)
      | (success _, c) => feed_loop on_frame fuel (next_frame f) c input offset (n + 1)
      end
  end.

(** The statement the loop is proved against. *)
Definition refines (fuel : nat) : Prop := forall f c input offset n p,
  represents capacity f (Pending p) -> bytes_ok input -> 0 <= offset <= zlen input ->
  zlen input - offset <= Z.of_nat fuel ->
  exists f' s' c' n',
    push on_frame capacity (Pending p, c, n) (zdrop offset input) = (s', c', n') /\
    feed_loop on_frame fuel f c input offset n = Some (outcome s' n', f', c') /\
    represents capacity f' s'.

Lemma holds_bytes f p : holds capacity f p -> bytes_ok p.
Proof. intros (st & _ & _ & OK & _ & _ & T). rewrite <-T. by apply bytes_ok_take. Qed.

Lemma finish_refines fuel f c input offset n p :
  refines fuel -> holds capacity f p -> expected f = zlen p -> zlen p <= capacity ->
  bytes_ok input -> 0 <= offset <= zlen input -> zlen input - offset <= Z.of_nat fuel ->
  exists f' s' c' n',
    push on_frame capacity (deliver on_frame c n p) (zdrop offset input) = (s', c', n') /\
    finish fuel f c input offset n = Some (outcome s' n', f', c') /\
    represents capacity f' s'.
Proof.
  intros R H E L OK O F. pose proof H as (st & S & N & OKs & Fl & B & T).
  unfold finish. rewrite E, S. cbn [view_bytes].
  rewrite (load_front st p (zlen p)) by (done || lia || apply zlen_nonneg).
  rewrite ztake_ge by lia. simpl. unfold deliver.
  destruct (decode_frame (View p)) as [frame|e].
  2:{ rewrite push_poisoned. eexists _, _, _, _. split; [done|]. split; [done|].
      by eapply represents_fail. }
  destruct (on_frame c frame) as [[[]|e] c1].
  2:{ rewrite push_poisoned. eexists _, _, _, _. split; [done|]. split; [done|].
      by eapply represents_fail. }
  apply R; [|done|done|done]. exists st. split_and!; try done.
  unfold kFrameHeaderSize in *. rewrite zlen_nil. lia.
Qed.

(** The state of the specification once the header is known. *)
Definition settled (c : C) (n size : Z) (p : list Z) : Framing * C * Z :=
  if zlen p <? size then (Pending p, c, n) else deliver on_frame c n p.

(** The second part of an iteration, with the header known. *)
Definition body (fuel : nat) (f : StreamFramer) (c : C) (input : list Z) (offset n : Z) :=
  '(f, offset) ← (if buffered f <? expected f then copy_in f input offset (expected f)
                  else Some (f, offset));
  if buffered f <? expected f then feed_loop on_frame fuel f c input offset n
  else finish fuel f c input offset n.

Lemma body_refines fuel f c input offset n p :
  refines fuel -> holds capacity f p -> header_known capacity f p ->
  kFrameHeaderSize <= zlen p -> bytes_ok input -> 0 <= offset <= zlen input ->
  zlen input - offset <= Z.of_nat (if zlen p <? expected f then S fuel else fuel) ->
  exists f' s' c' n',
    push on_frame capacity (settled c n (expected f) p) (zdrop offset input) = (s', c', n') /\
    body fuel f c input offset n = Some (outcome s' n', f', c') /\
    represents capacity f' s'.
Proof.
  intros R H K P OK O F. pose proof K as (h & D & E & L).
  assert (buffered f = zlen p) as B by (by destruct H as (? & ? & ? & ? & ? & ? & ?)).
  unfold body, settled. rewrite B. destruct (Z.ltb_spec (zlen p) (expected f)) as [S|S].
  2:{ simpl. rewrite B, (proj2 (Z.ltb_ge _ _)) by lia. apply finish_refines; done || lia. }
  destruct (copy_in_spec capacity f p input offset (expected f))
    as (f1 & chunk & -> & C1 & C2 & C3 & C4 & C5 & H1 & E1); [done|done|lia|lia|].
  simpl. assert (buffered f1 = zlen p + zlen chunk) as B1.
  { destruct H1 as (? & _ & _ & _ & _ & -> & _). by rewrite zlen_app. }
  rewrite B1, E1, C5, push_app. pose proof (zlen_nonneg chunk).
  destruct (Z.ltb_spec (zlen p + zlen chunk) (expected f)) as [T|T].
  - rewrite (push_body on_frame capacity p h) by (done || lia).
    apply R; [|done|lia|lia]. apply represents_pending; [done|zlen_lia|done|].
    intros _. split; [|rewrite zlen_app; lia]. exists h.
    rewrite ztake_app_le by lia. split_and!; [done|congruence|zlen_lia..].
  - assert (0 < zlen chunk) by lia.
    rewrite (push_complete on_frame capacity p h) by (done || lia).
    apply finish_refines; [done|done|rewrite zlen_app; lia|zlen_lia|done|lia|lia].
Qed.

Lemma loop_unfold fuel f c input offset n :
  offset < zlen input ->
  feed_loop on_frame (S fuel) f c input offset n =
    ('(f, offset, flow) ← read_header f input offset;
     match flow with
     | Continue => feed_loop on_frame fuel f c input offset n
     | Return e => Some (failure e, f, c)
     | Proceed => body fuel f c input offset n
     end).
Proof. intros H. simpl. by rewrite (proj2 (Z.ltb_lt _ _)). Qed.

Lemma loop_end fuel f c input n :
  feed_loop on_frame fuel f c input (zlen input) n = Some (success n, f, c).
Proof. destruct fuel; simpl; by rewrite Z.ltb_irrefl. Qed.

Lemma feed_loop_refines fuel : refines fuel.
Proof.
  induction fuel as [|fuel IH]; intros f c input offset n p Rp OK O F.
  { assert (offset = zlen input) as -> by lia. rewrite loop_end, zdrop_ge by lia.
    by eexists _, (Pending p), _, _. }
  destruct (Z.eq_dec offset (zlen input)) as [->|].
  { rewrite loop_end, zdrop_ge by lia. by eexists _, (Pending p), _, _. }
  rewrite loop_unfold by lia.
  destruct Rp as (st & S & N & _ & OKs & Fl & B & T & L & K).
  assert (holds capacity f p) as H by (by exists st).
  unfold read_header. rewrite B. destruct (Z.ltb_spec (zlen p) kFrameHeaderSize) as [Sh|Sh].
  2:{ destruct (K Sh) as (h & D & E & L').
      destruct (body_refines fuel f c input offset n p) as (f' & s' & c' & n' & P' & B' & R');
        try done; [exists h; split_and!; try done; lia|rewrite (proj2 (Z.ltb_lt _ _)); lia|].
      exists f', s', c', n'. unfold settled in P'. by rewrite (proj2 (Z.ltb_lt _ _)) in P' by lia. }
  destruct (copy_in_spec capacity f p input offset kFrameHeaderSize)
    as (f1 & chunk & -> & C1 & C2 & C3 & C4 & C5 & H1 & E1); [done|done|lia|lia|].
  simpl. assert (buffered f1 = zlen p + zlen chunk) as B1.
  { destruct H1 as (? & _ & _ & _ & _ & -> & _). by rewrite zlen_app. }
  rewrite B1, C5, push_app.
  destruct (Z.ltb_spec (zlen p + zlen chunk) kFrameHeaderSize) as [Sh1|Sh1].
  { rewrite push_short by lia. apply IH; [|done|lia|lia].
    apply represents_pending; [done|zlen_lia|done|]. rewrite zlen_app. lia. }
  rewrite push_header by lia. pose proof H1 as (st1 & S1 & N1 & OK1 & _ & B1' & T1).
  rewrite S1. cbn [view_bytes].
  rewrite (load_front st1 (p ++ chunk)) by (done || rewrite ?zlen_app; unfold kFrameHeaderSize in *; lia).
  rewrite ztake_ge by zlen_lia. simpl.
  destruct (decode_frame_header (View (p ++ chunk))) as [h|e] eqn:D.
  2:{ rewrite push_poisoned. eexists _, _, _, _. split; [done|]. split; [done|].
      by eapply represents_fail. }
  assert (0 <= payload_length h).
  { apply header_length_nonneg in D; [done|]. by eapply holds_bytes. }
  rewrite N1.
  destruct (Z.ltb_spec capacity (kFrameHeaderSize + payload_length h)) as [Big|Fit].
  { rewrite push_poisoned. eexists _, _, _, _. split; [done|]. split; [done|].
    by apply (represents_fail capacity (set_expected f1 _) (p ++ chunk)). }
  destruct (body_refines fuel (set_expected f1 (kFrameHeaderSize + payload_length h)) c input
    (offset + zlen chunk) n (p ++ chunk)) as (f' & s' & c' & n' & P' & B' & R'); try done.
  - exists h. rewrite ztake_ge by zlen_lia. simpl. split_and!; [done|done|zlen_lia..].
  - zlen_lia.
  - lia.
  - case_match; lia.
  - exists f', s', c', n'. unfold settled in P'. simpl in P'.
    replace (zlen (p ++ chunk)) with kFrameHeaderSize in P' by zlen_lia. by split_and!.
Qed.
End Refinement.

(** * Theorems *)

Section Theorems.
Context {C : Type} (on_frame : C -> FrameView -> Result unit * C) (capacity : Z).

Lemma represents_capacity f s : represents capacity f s -> kFrameHeaderSize <= capacity.
Proof. by intros (st & _ & _ & K & _). Qed.

(** C1 [feed] implements the byte-at-a-time specification: from any state the
    framer can be in and on any input it terminates without touching memory
    outside the storage or the input, hands the consumer the frames the
    specification delivers, in order, returns their number or the error that
    poisoned it, and stays poisoned afterwards. *)
Theorem feed_refines f s c l :
  represents capacity f s -> bytes_ok l ->
  exists f' s' c' n,
    push on_frame capacity (s, c, 0) l = (s', c', n) /\
    feed on_frame f c (View l) = Some (outcome s' n, f', c') /\
    represents capacity f' s'.
Proof.
  intros R OK. pose proof (represents_capacity _ _ R) as K. unfold feed.
  destruct s as [p|e].
  - pose proof R as (st & S & N & _ & _ & F & _). rewrite F, S. cbn [valid_view view_size negb orb].
    rewrite N, (proj2 (Z.ltb_ge _ _)) by lia. cbn [view_bytes].
    destruct (feed_loop_refines on_frame capacity K (Z.to_nat (zlen l)) f c l 0 0 p)
      as (f' & s' & c' & n' & P & L & R'); try done; try zlen_lia.
    rewrite zdrop_0 in P. by exists f', s', c', n'.
  - pose proof R as (st & _ & _ & _ & _ & F & E). rewrite F, E, push_poisoned.
    by exists f, (Poisoned e), c, 0.
Qed.

Lemma reset_represents f s : represents capacity f s -> represents capacity (reset f) (Pending []).
Proof.
  intros (st & S & N & K & OK & _). exists st. split_and!; try done.
  unfold kFrameHeaderSize in *. rewrite zlen_nil. lia.
Qed.

Lemma init_represents st :
  kFrameHeaderSize <= zlen st -> zlen st = capacity -> bytes_ok st ->
  represents capacity (init_StreamFramer (View st)) (Pending []).
Proof.
  intros K N OK. exists st. split_and!; try done; unfold kFrameHeaderSize in *;
    rewrite ?zlen_nil; lia.
Qed.

(** Counting is additive. *)
Lemma push_shift s c n l :
  push on_frame capacity (s, c, n) l =
  let '(s', c', k) := push on_frame capacity (s, c, 0) l in (s', c', n + k).
Proof.
  revert s c n. induction l as [|b l IH]; intros s c n; [unfold push; simpl; by rewrite Z.add_0_r|].
  rewrite !push_cons. destruct s as [p|e].
  2:{ cbn [push_byte]. rewrite !push_poisoned. by rewrite Z.add_0_r. }
  assert (exists s1 c1 d, forall k, push_byte on_frame capacity (Pending p, c, k) b = (s1, c1, k + d))
    as (s1 & c1 & d & E).
  { cbn [push_byte]. unfold deliver. cbv zeta.
    destruct (_ <? _); [exists (Pending (p ++ [b])), c, 0; intros; by rewrite Z.add_0_r|].
    destruct (decode_frame_header _) as [h|e]; [|exists (Poisoned e), c, 0; intros; by rewrite Z.add_0_r].
    destruct (capacity <? _); [exists (Poisoned BUFFER_TOO_SMALL), c, 0; intros; by rewrite Z.add_0_r|].
    destruct (_ <? _); [exists (Pending (p ++ [b])), c, 0; intros; by rewrite Z.add_0_r|].
    destruct (decode_frame _) as [fr|e]; [|exists (Poisoned e), c, 0; intros; by rewrite Z.add_0_r].
    destruct (on_frame c fr) as [[u|e] c1]; [by exists (Pending []), c1, 1|].
    exists (Poisoned e), c1, 0; intros; by rewrite Z.add_0_r. }
  rewrite !E, IH, (IH s1 c1 (0 + d)). destruct (push on_frame capacity (s1, c1, 0) l) as [[s2 c2] k].
  f_equal. lia.
Qed.

(** Feeding fragments one after the other. *)
Definition add_results (r1 r2 : Result Z) : Result Z :=
  n1 ← r1; n2 ← r2; success (n1 + n2).

Fixpoint feed_all (f : StreamFramer) (c : C) (chunks : list (list Z))
  : option (Result Z * StreamFramer * C) :=
  match chunks with
  | [] => Some (if failed f then failure (failure_ f) else success 0, f, c)
  | l :: chunks =>
      '(r1, f, c) ← feed on_frame f c (View l);
      '(r2, f, c) ← feed_all f c chunks;
      Some (add_results r1 r2, f, c)
  end.

(** Fragmentation does not matter: however a stream is cut, even inside headers
    or with several frames in a fragment, the consumer sees the same frames, the
    same total or error is returned and the framer ends in the same state. *)
Theorem fragmentation_invariance f s c chunks :
  represents capacity f s -> Forall bytes_ok chunks ->
  exists r f1 f2 c' s',
    feed_all f c chunks = Some (r, f1, c') /\
    feed on_frame f c (View (concat chunks)) = Some (r, f2, c') /\
    represents capacity f1 s' /\ represents capacity f2 s'.
Proof.
  intros R F. destruct (feed_refines f s c (concat chunks) R) as (f2 & s' & c' & n & P & -> & R2).
  { induction F; [constructor|]. by apply bytes_ok_app. }
  exists (outcome s' n). enough (exists f1, feed_all f c chunks = Some (outcome s' n, f1, c') /\
    represents capacity f1 s') as (f1 & A & R1) by (by exists f1, f2, c', s').
  clear f2 R2. revert f s c s' c' n R P. induction F as [|l chunks OK _ IH]; intros.
  - injection P as <- <- <-. exists f. split; [|done]. simpl. destruct s as [p|e].
    + by destruct R as (st & _ & _ & _ & _ & -> & _).
    + by destruct R as (st & _ & _ & _ & _ & -> & ->).
  - cbn [feed_all concat] in *. destruct (feed_refines f s c l R OK) as (f1 & s1 & c1 & n1 & P1 & -> & R1).
    rewrite push_app, P1, push_shift in P.
    destruct (push on_frame capacity (s1, c1, 0) (concat chunks)) as [[s2 c2] n2] eqn:P2.
    injection P as -> -> <-.
    destruct (IH f1 s1 c1 s' c' n2 R1 P2) as (f3 & A & R3). simpl. rewrite A. simpl.
    exists f3. split; [|done]. do 2 f_equal. destruct s1 as [p|e].
    + destruct s'; done.
    + rewrite push_poisoned in P2. injection P2 as <- _ _. done.
Qed.

(** * Streams of frames *)

Definition wire_frame (f : FrameView) : list Z := wire_header (header f) ++ view_bytes (payload f).

(** A frame the encoder can produce and the storage can hold. *)
Definition sendable (f : FrameView) : Prop :=
  typed_header (header f) /\ (exists p, payload f = View p /\ bytes_ok p) /\
  validate_frame_view f = success tt /\ kFrameHeaderSize + payload_length (header f) <= capacity.

Lemma push_frame c n f :
  sendable f ->
  push on_frame capacity (Pending [], c, n) (wire_frame f) =
    match on_frame c f with
    | (failure e, c) => (Poisoned e, c, n)
    | (success _, c) => (Pending [], c, n + 1)
    end.
Proof.
  intros (T & (p & P & OK) & V & Cap). destruct f as [h pl]. cbn [header payload] in *. subst pl.
  assert (frame_valid {| header := h; payload := View p |} = true) as F
    by (unfold frame_valid; by rewrite V).
  apply frame_valid_inv in F as (_ & L & H & _). cbn [header payload view_size] in *.
  assert (deliver on_frame c n (wire_header h ++ p) =
    match on_frame c {| header := h; payload := View p |} with
    | (failure e, c) => (Poisoned e, c, n)
    | (success _, c) => (Pending [], c, n + 1)
    end) as <-. { unfold deliver. by rewrite decode_frame_complete. }
  unfold wire_frame. cbn [header payload view_bytes]. rewrite push_app, push_header; cycle 1.
  { rewrite zlen_wire_header. done. } { by rewrite zlen_wire_header. }
  rewrite app_nil_l, decode_header_complete by done. cbv zeta.
  rewrite (proj2 (Z.ltb_ge capacity _)) by lia. rewrite L in *.
  destruct (Z.ltb_spec kFrameHeaderSize (kFrameHeaderSize + zlen p)) as [N|N].
  - apply (push_complete on_frame capacity _ h).
    + by rewrite zlen_wire_header.
    + rewrite ztake_ge by (rewrite zlen_wire_header; lia). by apply decode_header_complete.
    + lia.
    + lia.
    + rewrite zlen_wire_header. lia.
  - assert (p = []) as -> by (apply zlen_0; zlen_lia). by rewrite app_nil_r.
Qed.

(** C14 Every frame arrives: when the peer sends any sequence of frames that fit
    the storage and the consumer accepts them, the consumer has received
    exactly that sequence, in order, after any fragmentation of the stream. *)
Theorem frames_delivered (step : C -> FrameView -> C) st c frames chunks :
  (forall c f, on_frame c f = (success tt, step c f)) ->
  zlen st = capacity -> kFrameHeaderSize <= capacity -> bytes_ok st ->
  Forall sendable frames -> concat chunks = concat (wire_frame <$> frames) -> Forall bytes_ok chunks ->
  exists f', feed_all (init_StreamFramer (View st)) c chunks =
    Some (success (zlen frames), f', foldl step c frames).
Proof.
  intros A N K OK F E OKc.
  assert (represents capacity (init_StreamFramer (View st)) (Pending [])) as R
    by (apply init_represents; try done; lia).
  destruct (fragmentation_invariance _ _ c chunks R OKc) as (r & f1 & f2 & c' & s' & FA & FB & _ & _).
  rewrite FA. assert (bytes_ok (concat chunks)) as OKs by (clear -OKc; induction OKc; [constructor|by apply bytes_ok_app]).
  destruct (feed_refines _ _ c _ R OKs) as (f3 & s3 & c3 & n & P & FC & _).
  rewrite FC in FB. injection FB as Er Ef Ec. subst. exists f1. f_equal.
  assert (forall n0 c0, push on_frame capacity (Pending [], c0, n0) (concat (wire_frame <$> frames)) =
    (Pending [], foldl step c0 frames, n0 + zlen frames)) as PF.
  { clear -F A. induction F as [|f frames S _ IH]; intros n0 c0.
    - simpl. by rewrite Z.add_0_r.
    - rewrite fmap_cons. cbn [concat foldl]. rewrite push_app, push_frame, A by done.
      rewrite IH, zlen_cons. f_equal. lia. }
  rewrite E, PF in P. injection P as Es Ec En. by subst.
Qed.
End Theorems.

(** * Instances *)

(** A consumer that keeps the frames. *)
Definition log_frames (c : list FrameView) (f : FrameView) : Result unit * list FrameView :=
  (success tt, c ++ [f]).

Lemma sample_storage_represents :
  represents 64 (init_StreamFramer (View (replicate 64 0))) (Pending []).
Proof. apply init_represents; [vm_compute; discriminate|done|by apply bytes_okb_ok]. Qed.

Lemma sample_frame_sendable :
  sendable 64 {| header := sample_header; payload := View [3] |}.
Proof.
  split; [exact sample_header_typed|]. split; [exists [3]; split; [done|by apply bytes_okb_ok]|].
  split; [by vm_compute|]. vm_compute. discriminate.
Qed.

Lemma feed_refines_witness :
  represents 64 (init_StreamFramer (View (replicate 64 0))) (Pending []) /\
  exists f' s' c' n,
    push log_frames 64 (Pending [], [], 0) (sample_frame ++ [80; 88]) = (s', c', n) /\
    feed log_frames (init_StreamFramer (View (replicate 64 0))) [] (View (sample_frame ++ [80; 88])) =
      Some (outcome s' n, f', c') /\
    represents 64 f' s'.
Proof.
  split; [exact sample_storage_represents|].
  apply (feed_refines log_frames 64 (init_StreamFramer (View (replicate 64 0))) (Pending [])).
  - exact sample_storage_represents.
  - apply bytes_okb_ok. reflexivity.
Defined.

Lemma fragmentation_invariance_witness :
  exists r f1 f2 c' s',
    feed_all log_frames (init_StreamFramer (View (replicate 64 0))) []
      [ztake 3 sample_frame; zdrop 3 sample_frame; [0]] = Some (r, f1, c') /\
    feed log_frames (init_StreamFramer (View (replicate 64 0))) []
      (View (concat [ztake 3 sample_frame; zdrop 3 sample_frame; [0]])) = Some (r, f2, c') /\
    represents 64 f1 s' /\ represents 64 f2 s'.
Proof.
  apply (fragmentation_invariance log_frames 64 _ (Pending [])).
  - exact sample_storage_represents.
  - repeat (apply Forall_cons; split; [apply bytes_okb_ok; reflexivity|]). by apply Forall_nil.
Defined.

Lemma frames_delivered_witness :
  exists f', feed_all log_frames (init_StreamFramer (View (replicate 64 0))) []
      [ztake 25 (sample_frame ++ sample_frame); zdrop 25 (sample_frame ++ sample_frame)] =
    Some (success 2, f', [{| header := sample_header; payload := View [3] |};
                          {| header := sample_header; payload := View [3] |}]).
Proof.
  apply (frames_delivered log_frames 64 (fun c f => c ++ [f]) (replicate 64 0) []
    [{| header := sample_header; payload := View [3] |};
     {| header := sample_header; payload := View [3] |}]).
  - reflexivity.
  - reflexivity.
  - vm_compute. discriminate.
  - apply bytes_okb_ok. reflexivity.
  - repeat (apply Forall_cons; split; [exact sample_frame_sendable|]). by apply Forall_nil.
  - reflexivity.
  - repeat (apply Forall_cons; split; [apply bytes_okb_ok; reflexivity|]). by apply Forall_nil.
Defined.
