(* ===== verification/IpcConnection.v ===== *)
(** [ConnectionStateMachine] ([src/ipc.cpp]): the ordering, correlation and
    capability rules of a connection, for the four roles.  A method is a
    function from the state and a frame to a result and the next state. *)

From S2P Require Import Prelude IpcTypes IpcWire IpcCodecs IpcPayload IpcRoundtrip IpcFrame.

Inductive ConnectionRole := control_client | control_server | stream_client | stream_server.
Inductive ConnectionPhase := initial | handshake | active | closed | poisoned.
Inductive ConnectionEvent :=
  | request_accepted | response_accepted | event_accepted | hello_response_required
  | version_mismatch_response_required | attach_response_required | ts_data_accepted
  | stream_end_accepted.

#[export] Instance ConnectionRole_eq_dec : EqDecision ConnectionRole.
Proof. solve_decision. Defined.
#[export] Instance ConnectionPhase_eq_dec : EqDecision ConnectionPhase.
Proof. solve_decision. Defined.

Record ConnectionResult := {
  result_event : ConnectionEvent;
  result_type : MessageType;
  result_capabilities : Z;
}.

Record ConnectionStateMachine := {
  role_ : ConnectionRole;
  phase_ : ConnectionPhase;
  server_supported_capabilities_ : Z;
  requested_capabilities_ : Z;
  negotiated_capabilities_ : Z;
  pending_header_ : FrameHeader;
  pending_ : bool;
  hello_compatible_ : bool;
  ts_sequence_seen_ : bool;
  last_ts_sequence_ : Z;
}.

Definition init_ConnectionStateMachine (role : ConnectionRole) (server_supported_capabilities : Z)
  : ConnectionStateMachine := {|
  role_ := role;
  phase_ := initial;
  server_supported_capabilities_ := Z.land server_supported_capabilities kKnownCapabilities;
  requested_capabilities_ := 0;
  negotiated_capabilities_ := 0;
  pending_header_ := default_FrameHeader;
  pending_ := false;
  hello_compatible_ := false;
  ts_sequence_seen_ := false;
  last_ts_sequence_ := 0;
|}.

(** * Assignments to the members *)

Definition set_phase (m : ConnectionStateMachine) (phase : ConnectionPhase) : ConnectionStateMachine :=
  {| role_ := role_ m; phase_ := phase;
     server_supported_capabilities_ := server_supported_capabilities_ m;
     requested_capabilities_ := requested_capabilities_ m;
     negotiated_capabilities_ := negotiated_capabilities_ m;
     pending_header_ := pending_header_ m; pending_ := pending_ m;
     hello_compatible_ := hello_compatible_ m; ts_sequence_seen_ := ts_sequence_seen_ m;
     last_ts_sequence_ := last_ts_sequence_ m |}.

Definition set_capabilities (m : ConnectionStateMachine) (requested negotiated : Z)
  (compatible : bool) : ConnectionStateMachine :=
  {| role_ := role_ m; phase_ := phase_ m;
     server_supported_capabilities_ := server_supported_capabilities_ m;
     requested_capabilities_ := requested; negotiated_capabilities_ := negotiated;
     pending_header_ := pending_header_ m; pending_ := pending_ m;
     hello_compatible_ := compatible; ts_sequence_seen_ := ts_sequence_seen_ m;
     last_ts_sequence_ := last_ts_sequence_ m |}.

Definition set_ts (m : ConnectionStateMachine) (seen : bool) (last : Z) : ConnectionStateMachine :=
  {| role_ := role_ m; phase_ := phase_ m;
     server_supported_capabilities_ := server_supported_capabilities_ m;
     requested_capabilities_ := requested_capabilities_ m;
     negotiated_capabilities_ := negotiated_capabilities_ m;
     pending_header_ := pending_header_ m; pending_ := pending_ m;
     hello_compatible_ := hello_compatible_ m; ts_sequence_seen_ := seen;
     last_ts_sequence_ := last |}.

Definition assign_pending (m : ConnectionStateMachine) (h : FrameHeader) (pending : bool)
  : ConnectionStateMachine :=
  {| role_ := role_ m; phase_ := phase_ m;
     server_supported_capabilities_ := server_supported_capabilities_ m;
     requested_capabilities_ := requested_capabilities_ m;
     negotiated_capabilities_ := negotiated_capabilities_ m;
     pending_header_ := h; pending_ := pending;
     hello_compatible_ := hello_compatible_ m; ts_sequence_seen_ := ts_sequence_seen_ m;
     last_ts_sequence_ := last_ts_sequence_ m |}.

(** * The private operations *)

Definition set_pending (m : ConnectionStateMachine) (h : FrameHeader) := assign_pending m h true.
Definition clear_pending (m : ConnectionStateMachine) := assign_pending m default_FrameHeader false.

Definition Step : Type := Result ConnectionResult * ConnectionStateMachine.

(** [Result::success(accepted(event, type))], evaluated in the final state. *)
Definition accepted (m : ConnectionStateMachine) (e : ConnectionEvent) (t : MessageType) : Step :=
  (success {| result_event := e; result_type := t;
              result_capabilities := negotiated_capabilities_ m |}, m).

(** [violation()], with its default error. *)
Definition violation (m : ConnectionStateMachine) : Step :=
  (failure PROTOCOL_ERROR, clear_pending (set_phase m poisoned)).

Definition is_response_kind (k : MessageKind) : bool := eqb k response || eqb k error_response.

(** The guard on an inbound or outbound answer. *)
Definition answers_pending (m : ConnectionStateMachine) (f : FrameView) : bool :=
  pending_ m && is_response_kind (kind (header f))
  && is_success (validate_response_to_request (pending_header_ m) (header f)).

(** * The four roles *)

(** The part of the control roles after the handshake; [requests] says whether
    this direction carries requests. *)
Definition process_control_active (m : ConnectionStateMachine) (f : FrameView) (requests : bool) : Step :=
  if requests then
    if pending_ m || negb (eqb (kind (header f)) request) || negb (is_control_request (type (header f)))
    then violation m
    else
      let capability := required_capability (type (header f)) in
      if negb (Z.land (negotiated_capabilities_ m) capability =? capability) then violation m
      else accepted (set_pending m (header f)) request_accepted (type (header f))
  else if eqb (kind (header f)) event && eqb (type (header f)) DEVICE_EVENT then
    if Z.land (negotiated_capabilities_ m) kCapabilityEvents =? 0 then violation m
    else accepted m event_accepted (type (header f))
  else if negb (answers_pending m f) then violation m
  else accepted (clear_pending m) response_accepted (type (header f)).

Definition process_control_client (m : ConnectionStateMachine) (f : FrameView) (outbound : bool) : Step :=
  match phase_ m with
  | initial =>
      if negb outbound || negb (eqb (kind (header f)) request) || negb (eqb (type (header f)) HELLO)
      then violation m
      else match decode_hello_request_payload (payload f) with
      | failure _ => violation m
      | success hello =>
          let m := set_capabilities m (requested_capabilities hello) (negotiated_capabilities_ m)
                     (hello_compatible_ m) in
          let m := set_phase (set_pending m (header f)) handshake in
          accepted m request_accepted (type (header f))
      end
  | handshake =>
      if outbound || negb (answers_pending m f) then violation m
      else if eqb (kind (header f)) error_response then
        accepted (set_phase (clear_pending m) closed) response_accepted (type (header f))
      else match decode_hello_response_payload (payload f) with
      | failure _ => violation m
      | success hello =>
          let known_response := Z.land (capabilities hello) kKnownCapabilities in
          let known_requested := Z.land (requested_capabilities_ m) kKnownCapabilities in
          if outside_mask known_response known_requested then violation m
          else
            let m := set_capabilities m (requested_capabilities_ m) known_response
                       (hello_compatible_ m) in
            accepted (set_phase (clear_pending m) active) response_accepted (type (header f))
      end
  | _ => process_control_active m f outbound
  end.

Definition process_control_server (m : ConnectionStateMachine) (f : FrameView) (outbound : bool) : Step :=
  match phase_ m with
  | initial =>
      if outbound || negb (eqb (kind (header f)) request) || negb (eqb (type (header f)) HELLO)
      then violation m
      else match decode_hello_request_payload (payload f) with
      | failure _ => violation m
      | success hello =>
          let requested := requested_capabilities hello in
          let compatible := includes_protocol_v1 hello in
          let negotiated := Z.land (Z.land requested kKnownCapabilities)
                              (server_supported_capabilities_ m) in
          let m := set_capabilities m requested negotiated compatible in
          let m := set_phase (set_pending m (header f)) handshake in
          accepted m (if compatible then hello_response_required
                      else version_mismatch_response_required) (type (header f))
      end
  | handshake =>
      if negb outbound || negb (answers_pending m f) then violation m
      else if hello_compatible_ m then
        if negb (eqb (kind (header f)) response) then violation m
        else match decode_hello_response_payload (payload f) with
        | failure _ => violation m
        | success hello =>
            if negb (hello_major hello =? kProtocolMajor) || negb (hello_minor hello =? kProtocolMinor)
               || negb (capabilities hello =? negotiated_capabilities_ m) then violation m
            else accepted (set_phase (clear_pending m) active) response_accepted (type (header f))
        end
      else
        if negb (eqb (kind (header f)) error_response) then violation m
        else match decode_error_response_payload (payload f) with
        | failure _ => violation m
        | success error =>
            if negb (eqb (error_code error) EC_VERSION_MISMATCH) then violation m
            else accepted (set_phase (clear_pending m) closed) response_accepted (type (header f))
        end
  | _ => process_control_active m f (negb outbound)
  end.

Definition process_ts_event (m : ConnectionStateMachine) (f : FrameView) : Step :=
  if eqb (type (header f)) STREAM_END then
    accepted (set_phase m closed) stream_end_accepted (type (header f))
  else match decode_ts_data_event_payload (payload f) with
  | failure _ => violation m
  | success data =>
      if negb (cumulative_drop_count data =? 0) then violation m
      else if ts_sequence_seen_ m
              && ((last_ts_sequence_ m =? 2 ^ 64 - 1)
                  || negb (sequence data =? cast_u64 (last_ts_sequence_ m + 1))) then violation m
      else accepted (set_ts m true (sequence data)) ts_data_accepted (type (header f))
  end.

(** The guard of the stream roles after the handshake. *)
Definition is_ts_event (h : FrameHeader) : bool :=
  eqb (kind h) event && (eqb (type h) TS_DATA || eqb (type h) STREAM_END).

(** The end of the handshake of the stream roles. *)
Definition attach_answered (m : ConnectionStateMachine) (f : FrameView) : Step :=
  accepted (set_phase (clear_pending m)
              (if eqb (kind (header f)) response then active else closed))
    response_accepted (type (header f)).

Definition process_stream_client (m : ConnectionStateMachine) (f : FrameView) (outbound : bool) : Step :=
  match phase_ m with
  | initial =>
      if negb outbound || negb (eqb (kind (header f)) request)
         || negb (eqb (type (header f)) ATTACH_STREAM) then violation m
      else accepted (set_phase (set_pending m (header f)) handshake) request_accepted (type (header f))
  | handshake =>
      if outbound || negb (answers_pending m f) then violation m else attach_answered m f
  | _ =>
      if outbound || negb (is_ts_event (header f)) then violation m else process_ts_event m f
  end.

Definition process_stream_server (m : ConnectionStateMachine) (f : FrameView) (outbound : bool) : Step :=
  match phase_ m with
  | initial =>
      if outbound || negb (eqb (kind (header f)) request)
         || negb (eqb (type (header f)) ATTACH_STREAM) then violation m
      else accepted (set_phase (set_pending m (header f)) handshake) attach_response_required
             (type (header f))
  | handshake =>
      if negb outbound || negb (answers_pending m f) then violation m else attach_answered m f
  | _ =>
      if negb outbound || negb (is_ts_event (header f)) then violation m else process_ts_event m f
  end.

(** * The public operations *)

(** [process_outbound] and [process_inbound] only differ in the flag. *)
Definition process (m : ConnectionStateMachine) (f : FrameView) (outbound : bool) : Step :=
  match phase_ m with
  | poisoned => (failure PROTOCOL_ERROR, m)
  | closed => (failure DISCONNECTED, m)
  | _ =>
      if negb (is_success (validate_frame_view f)) then violation m
      else match role_ m with
      | control_client => process_control_client m f outbound
      | control_server => process_control_server m f outbound
      | stream_client => process_stream_client m f outbound
      | stream_server => process_stream_server m f outbound
      end
  end.

Definition process_outbound (m : ConnectionStateMachine) (f : FrameView) : Step := process m f true.
Definition process_inbound (m : ConnectionStateMachine) (f : FrameView) : Step := process m f false.

Definition pending_hello_response (m : ConnectionStateMachine) : Result HelloResponsePayload :=
  if negb (eqb (role_ m) control_server) || negb (eqb (phase_ m) handshake) || negb (pending_ m)
     || negb (eqb (type (pending_header_ m)) HELLO) || negb (hello_compatible_ m)
  then failure NOT_READY
  else success {| hello_major := kProtocolMajor; hello_minor := kProtocolMinor;
                  capabilities := negotiated_capabilities_ m |}.

Definition reset (m : ConnectionStateMachine) : ConnectionStateMachine :=
  set_ts (clear_pending (set_capabilities (set_phase m initial) 0 0 false)) false 0.

(** * Lemmas *)

Lemma response_kind_inv k : is_response_kind k = true -> k = response \/ k = error_response.
Proof. by destruct k; auto. Qed.

Lemma validate_response_inv req resp :
  validate_response_to_request req resp = success tt ->
  kind req = request /\ (kind resp = response \/ kind resp = error_response) /\
  type req = type resp /\ request_id req = request_id resp /\ is_event_message (type req) = false.
Proof.
  unfold validate_response_to_request. destruct (_ || _) eqn:E; [done|]. intros _. bool_hyps.
  assert (kind resp = response \/ kind resp = error_response)
    by (by destruct (kind resp); auto).
  split_and!; try done; first [by apply eqb_true_1 | by apply Z.eqb_eq].
Qed.

Lemma answers_pending_inv m f :
  answers_pending m f = true ->
  pending_ m = true /\ (kind (header f) = response \/ kind (header f) = error_response) /\
  type (pending_header_ m) = type (header f) /\
  request_id (pending_header_ m) = request_id (header f).
Proof.
  unfold answers_pending. intros H. bool_hyps.
  destruct (validate_response_to_request _ _) as [[]|] eqn:V; [|done].
  apply validate_response_inv in V as (_ & ? & ? & ? & _). auto.
Qed.

(** ** Capability masks *)

Definition within (a b : Z) : Prop := Z.land a b = a.

Lemma within_land_l a b : within (Z.land a b) a.
Proof. unfold within. by rewrite (Z.land_comm a b), <-Z.land_assoc, Z.land_diag. Qed.
Lemma within_land_r a b : within (Z.land a b) b.
Proof. unfold within. by rewrite <-Z.land_assoc, Z.land_diag. Qed.
Lemma within_trans a b c : within a b -> within b c -> within a c.
Proof. unfold within. intros A B. by rewrite <-A, <-Z.land_assoc, B. Qed.
Lemma within_0 b : within 0 b.
Proof. apply Z.land_0_l. Qed.

Lemma outside_mask_within a b : outside_mask a b = false <-> within a b.
Proof.
  unfold outside_mask, within. rewrite negb_false_iff, Z.eqb_eq. split; intros H.
  - apply Z.bits_inj'. intros i Hi. apply (f_equal (fun x => Z.testbit x i)) in H.
    rewrite Z.land_spec, Z.lnot_spec, Z.bits_0 in H by done. rewrite Z.land_spec.
    by destruct (Z.testbit a i), (Z.testbit b i).
  - apply Z.bits_inj'. intros i Hi. apply (f_equal (fun x => Z.testbit x i)) in H.
    rewrite Z.land_spec in H. rewrite Z.land_spec, Z.lnot_spec, Z.bits_0 by done.
    by destruct (Z.testbit a i), (Z.testbit b i).
Qed.

(** ** Case analysis of a step *)

(** Follows a successful step through the guards. *)
Ltac follow H :=
  repeat first
  [ discriminate H
  | match type of H with
    | context [match ?x with _ => _ end] => destruct x eqn:?; simpl in H
    end ].

(** The direction in which a role's requests travel. *)
Definition requester (r : ConnectionRole) : bool :=
  match r with control_client | stream_client => true | _ => false end.

(** The request type of the handshake of a role. *)
Definition opening (r : ConnectionRole) : MessageType :=
  match r with control_client | control_server => HELLO | _ => ATTACH_STREAM end.
Definition is_control (r : ConnectionRole) : bool :=
  match r with control_client | control_server => true | _ => false end.

(** * The invariant *)

Record invariant (m : ConnectionStateMachine) : Prop := {
  inv_known : within (negotiated_capabilities_ m) kKnownCapabilities;
  inv_requested : within (negotiated_capabilities_ m) (requested_capabilities_ m);
  inv_supported : role_ m = control_server ->
    within (negotiated_capabilities_ m) (server_supported_capabilities_ m);
  inv_client : role_ m = control_client -> phase_ m = handshake -> negotiated_capabilities_ m = 0;
  inv_phase :
    match phase_ m with
    | initial => pending_ m = false /\ ts_sequence_seen_ m = false /\ negotiated_capabilities_ m = 0
    | handshake => pending_ m = true /\ kind (pending_header_ m) = request /\
        type (pending_header_ m) = opening (role_ m) /\ ts_sequence_seen_ m = false
    | active =>
        if pending_ m then
          is_control (role_ m) = true /\ kind (pending_header_ m) = request /\
          is_control_request (type (pending_header_ m)) = true /\
          within (required_capability (type (pending_header_ m))) (negotiated_capabilities_ m)
        else True
    | closed | poisoned => pending_ m = false
    end;
}.

Lemma init_invariant role caps : invariant (init_ConnectionStateMachine role caps).
Proof. split; try done; intros; apply within_0. Qed.

Lemma reset_invariant m : invariant (reset m).
Proof. split; try done; intros; apply within_0. Qed.

Lemma violation_invariant m : invariant m -> invariant (clear_pending (set_phase m poisoned)).
Proof. intros []. by split. Qed.

(** A guard [if c then violation m else k]: its two outcomes. *)
Ltac guard_step :=
  match goal with
  | |- context [if ?c then violation _ else _] => destruct c eqn:?; [by apply violation_invariant|]
  end.

Lemma capability_within n c : (Z.land n c =? c) = true -> within c n.
Proof. intros H. apply Z.eqb_eq in H. unfold within. by rewrite Z.land_comm. Qed.

Lemma control_active_invariant m f requests :
  invariant m -> phase_ m = active -> is_control (role_ m) = true ->
  invariant (process_control_active m f requests).2.
Proof.
  intros I P R. unfold process_control_active. destruct requests.
  - guard_step. cbv zeta. guard_step. destruct I. split; try done.
    simpl. rewrite P. bool_hyps. split_and!; try done; [by apply eqb_true_1|].
    by apply capability_within.
  - destruct (_ && _). { guard_step. done. }
    guard_step. destruct I. split; try done. simpl. by rewrite P.
Qed.

Lemma ts_event_invariant m f :
  invariant m -> phase_ m = active -> is_control (role_ m) = false ->
  invariant (process_ts_event m f).2.
Proof.
  intros I P R. assert (pending_ m = false) as Pd.
  { destruct I as [_ _ _ _ X]. rewrite P in X. destruct (pending_ m); [|done].
    rewrite R in X. by destruct X. }
  unfold process_ts_event. destruct (eqb _ _).
  - destruct I. by split.
  - destruct (decode_ts_data_event_payload _); [|by apply violation_invariant].
    guard_step. guard_step. destruct I. split; try done. simpl. by rewrite P, Pd.
Qed.

Lemma attach_answered_invariant m f : invariant m -> invariant (attach_answered m f).2.
Proof. intros []. unfold attach_answered. destruct (eqb _ _); by split. Qed.

Lemma step_invariant m f o : invariant m -> invariant (process m f o).2.
Proof.
  intros I. unfold process. destruct (phase_ m) eqn:P; try done.
  all: destruct (negb _); [by apply violation_invariant|].
  all: destruct (role_ m) eqn:R.
  all: unfold process_control_client, process_control_server, process_stream_client,
         process_stream_server; rewrite P.
  all: try (apply control_active_invariant; [done..|by rewrite R]).
  all: guard_step; bool_hyps.
  all: try by apply attach_answered_invariant.
  all: try (apply ts_event_invariant; [done..|by rewrite R]).
  all: pose proof I as [I1 I2 I3 I4 I5]; rewrite P in I5.
  - destruct (decode_hello_request_payload _); [|by apply violation_invariant].
    destruct I5 as (? & ? & N).
    split; simpl; intros; try done; rewrite ?N; try apply within_0.
    split_and!; try done; [by apply eqb_true_1|]. rewrite R. by apply eqb_true_1.
  - destruct (decode_hello_request_payload _) as [hello|]; [|by apply violation_invariant].
    destruct I5 as (? & ? & N). split; simpl.
    + eapply within_trans; [apply within_land_l|apply within_land_r].
    + eapply within_trans; [apply within_land_l|apply within_land_l].
    + intros _. apply within_land_r.
    + rewrite R. done.
    + split_and!; try done; [by apply eqb_true_1|]. rewrite R. by apply eqb_true_1.
  - destruct I5 as (? & ? & N). split; try done; simpl. rewrite R.
    split_and!; try done; by apply eqb_true_1.
  - destruct I5 as (? & ? & N). split; try done; simpl. rewrite R.
    split_and!; try done; by apply eqb_true_1.
  - destruct (eqb _ error_response). { by split. }
    destruct (decode_hello_response_payload _) as [hello|]; [|by apply violation_invariant].
    cbv zeta. guard_step. apply outside_mask_within in Heqb. split; simpl; try done.
    + apply within_land_r.
    + eapply within_trans; [exact Heqb|apply within_land_l].
    + by rewrite R.
  - destruct (hello_compatible_ m).
    + guard_step. destruct (decode_hello_response_payload _) as [hello|]; [|by apply violation_invariant].
      guard_step. by split.
    + guard_step. destruct (decode_error_response_payload _) as [er|]; [|by apply violation_invariant].
      guard_step. by split.
Qed.

(** * Runs *)

(** A call of the owner of the machine. *)
Inductive Call :=
  | Process (outbound : bool) (f : FrameView)
  | Reset.

Definition call (m : ConnectionStateMachine) (c : Call) : ConnectionStateMachine :=
  match c with Process outbound f => (process m f outbound).2 | Reset => reset m end.

(** C17 After any calls in any order the machine is in a sane state: a request is
    outstanding exactly during the handshake or after an accepted control
    request whose capability was granted; the negotiated capabilities are known
    ones, were requested and, on a server, are supported by it; a closed or
    poisoned machine has nothing outstanding. *)
Theorem connection_invariant role caps calls :
  invariant (foldl call (init_ConnectionStateMachine role caps) calls).
Proof.
  assert (forall m, invariant m -> invariant (foldl call m calls)) as H.
  { induction calls as [|c calls IH]; intros m I; [done|]. apply IH.
    destruct c; [by apply step_invariant|apply reset_invariant]. }
  apply H, init_invariant.
Qed.

(** ** Failing closed *)

Lemma process_failure m f o e :
  (process m f o).1 = failure e ->
  phase_ (process m f o).2 = poisoned \/ phase_ (process m f o).2 = closed.
Proof.
  assert (forall m0 e', (violation m0).1 = failure e' ->
    phase_ (violation m0).2 = poisoned \/ phase_ (violation m0).2 = closed) as V by (by left).
  unfold process. destruct (phase_ m) eqn:P.
  4: by right. 4: by left.
  all: destruct (negb _); [apply V|].
  all: destruct (role_ m).
  all: unfold process_control_client, process_control_server, process_stream_client,
         process_stream_server, process_control_active, process_ts_event, attach_answered;
       rewrite P; cbv zeta.
  all: repeat match goal with
       | |- (violation _).1 = _ -> _ => apply V
       | |- (accepted _ _ _).1 = _ -> _ => done
       | |- context [if ?c then _ else _] => destruct c
       | |- context [match ?x with success _ => _ | failure _ => _ end] => destruct x
       end.
Qed.

(** The machine fails closed: once a frame has been refused, every later frame
    is refused too and changes nothing, until [reset], which restores the
    initial state of the role. *)
Theorem refusal_is_final m f o e f' o' :
  (process m f o).1 = failure e ->
  let m' := (process m f o).2 in
  (exists e', process m' f' o' = (failure e', m')) /\
  forall caps, server_supported_capabilities_ m' = Z.land caps kKnownCapabilities ->
    reset m' = init_ConnectionStateMachine (role_ m') caps.
Proof.
  intros E m'. split.
  - apply process_failure in E. fold m' in E. unfold process. destruct E as [-> | ->]; by eexists.
  - intros caps S. unfold init_ConnectionStateMachine. rewrite <-S. done.
Qed.

Definition event_frame : FrameView := {|
  header := {| major := 1; minor := 0; type := DEVICE_EVENT; kind := event; request_id := 0;
               payload_length := 11 |};
  payload := View [1; 0; 0; 0; 0; 0; 0; 0; 5; 1; 1];
|}.

Lemma refusal_is_final_witness :
  let m := init_ConnectionStateMachine control_client 0 in
  (process m event_frame false).1 = failure PROTOCOL_ERROR /\
  exists e', process (process m event_frame false).2 event_frame true =
    (failure e', (process m event_frame false).2).
Proof.
  intros m. assert ((process m event_frame false).1 = failure PROTOCOL_ERROR) as E by (by vm_compute).
  split; [exact E|]. exact (proj1 (refusal_is_final m event_frame false _ event_frame true E)).
Defined.

(** ** One successful step *)

Lemma step_cases m f o r m' :
  invariant m -> process m f o = (success r, m') ->
  role_ m' = role_ m /\
  match kind (header f) with
  | request => o = requester (role_ m) /\ pending_ m = false /\ pending_ m' = true /\
      pending_header_ m' = header f
  | response | error_response => o = negb (requester (role_ m)) /\ pending_ m = true /\
      type (pending_header_ m) = type (header f) /\
      request_id (pending_header_ m) = request_id (header f) /\ pending_ m' = false
  | event => o = negb (requester (role_ m)) /\ pending_ m' = pending_ m /\
      pending_header_ m' = pending_header_ m
  end.
Proof.
  intros I. unfold process. destruct (phase_ m) eqn:P; try done.
  all: destruct (negb (is_success _)); [done|].
  all: destruct I as [_ _ _ _ X]; rewrite P in X.
  all: destruct (role_ m) eqn:R.
  all: unfold process_control_client, process_control_server, process_stream_client,
         process_stream_server, process_control_active, process_ts_event, attach_answered,
         is_ts_event; rewrite P; cbv zeta; intros H.
  all: repeat match type of H with
       | violation _ = _ => discriminate H
       | accepted _ _ _ = _ => injection H as <- <-
       | context [if ?c then violation _ else _] => destruct c eqn:?; [discriminate H|]
       | context [if ?o then _ else _] => is_var o; destruct o
       | context [if ?c then _ else _] => destruct c eqn:?
       | context [match ?x with success _ => _ | failure _ => _ end] =>
           destruct x; [|discriminate H]
       end.
  all: bool_hyps; repeat match goal with
       | H : answers_pending _ _ = true |- _ => apply answers_pending_inv in H as (? & [K|K] & ? & ?)
       | H : eqb (kind _) _ = true |- _ => apply eqb_true_1 in H
       end; simplify_eq.
  all: simpl; rewrite ?R; try match goal with K : kind _ = _ |- _ => rewrite K end.
  all: try destruct o; try done; split_and!; try done; intuition congruence.
Qed.

(** ** Correlation *)

(** [run m trace m']: every frame of the trace is accepted. *)
Inductive run : ConnectionStateMachine -> list (bool * FrameView) -> ConnectionStateMachine -> Prop :=
  | run_nil m : run m [] m
  | run_cons m outbound f r m1 trace m2 :
      process m f outbound = (success r, m1) -> run m1 trace m2 ->
      run m ((outbound, f) :: trace) m2.

(** Requests and answers alternate; an answer comes back against the direction
    of its request with the same type and id; [outstanding] is the request that
    waits. *)
Fixpoint correlated (requests : bool) (outstanding : option FrameHeader)
    (trace : list (bool * FrameView)) : Prop :=
  match trace with
  | [] => True
  | (outbound, f) :: trace =>
      match kind (header f), outstanding with
      | request, None => outbound = requests /\ correlated requests (Some (header f)) trace
      | (response | error_response), Some h =>
          outbound = negb requests /\ type h = type (header f) /\
          request_id h = request_id (header f) /\ correlated requests None trace
      | event, _ => outbound = negb requests /\ correlated requests outstanding trace
      | _, _ => False
      end
  end.

Lemma run_correlated m trace m' :
  invariant m -> run m trace m' ->
  correlated (requester (role_ m)) (if pending_ m then Some (pending_header_ m) else None) trace.
Proof.
  intros I R. induction R as [|m o f r m1 trace m2 E R IH]; [done|].
  pose proof (step_invariant m f o I) as I1. rewrite E in I1. specialize (IH I1).
  apply step_cases in E as [Ro E]; [|done]. rewrite Ro in IH. simpl.
  destruct (kind (header f)).
  - destruct E as (-> & -> & P & H). rewrite P, H in IH. done.
  - destruct E as (-> & -> & ? & ? & P). rewrite P in IH. done.
  - destruct E as (-> & -> & ? & ? & P). rewrite P in IH. done.
  - destruct E as (-> & P & H). rewrite P, H in IH. done.
Qed.

(** C20 On every connection, whatever the peer sends, the accepted frames are
    correlated: one request at a time, each answer after its request, in the
    opposite direction, with its type and request id. *)
Theorem accepted_frames_correlated role caps trace m :
  run (init_ConnectionStateMachine role caps) trace m ->
  correlated (requester role) None trace.
Proof. apply (run_correlated _ _ _ (init_invariant role caps)). Qed.

Definition attach_request : FrameView := {|
  header := {| major := 1; minor := 0; type := ATTACH_STREAM; kind := request; request_id := 9;
               payload_length := 24 |};
  payload := View (replicate 24 7);
|}.
Definition attach_response : FrameView := {|
  header := {| major := 1; minor := 0; type := ATTACH_STREAM; kind := response; request_id := 9;
               payload_length := 0 |};
  payload := View [];
|}.
(** A TS_DATA event without packets. *)
Definition ts_frame (seq : Z) : FrameView := {|
  header := {| major := 1; minor := 0; type := TS_DATA; kind := event; request_id := 0;
               payload_length := 20 |};
  payload := View (le 8 seq ++ replicate 12 0);
|}.

Definition sample_stream : list (bool * FrameView) :=
  [(true, attach_request); (false, attach_response); (false, ts_frame 5); (false, ts_frame 6)].

Lemma sample_stream_runs :
  exists m, run (init_ConnectionStateMachine stream_client 0) sample_stream m.
Proof.
  eexists. repeat (eapply run_cons; [vm_compute; reflexivity|]). apply run_nil.
Qed.

Lemma accepted_frames_correlated_witness :
  exists m, run (init_ConnectionStateMachine stream_client 0) sample_stream m /\
    correlated true None sample_stream.
Proof.
  destruct sample_stream_runs as [m R]. exists m. split; [exact R|].
  exact (accepted_frames_correlated stream_client 0 sample_stream m R).
Defined.

(** ** TS sequence numbers *)

(** The TS_DATA events of a trace. *)
Definition ts_event_of (call : bool * FrameView) : option TsDataEventPayload :=
  if eqb (type (header call.2)) TS_DATA then
    match decode_ts_data_event_payload (payload call.2) with
    | success data => Some data
    | failure _ => None
    end
  else None.

Definition ts_sequence_ok (last : option Z) (data : TsDataEventPayload) : Prop :=
  cumulative_drop_count data = 0 /\
  match last with None => True | Some k => sequence data = k + 1 end.

(** Consecutive numbers, without drops. *)
Fixpoint consecutive (last : option Z) (l : list TsDataEventPayload) : Prop :=
  match l with
  | [] => True
  | data :: l => ts_sequence_ok last data /\ consecutive (Some (sequence data)) l
  end.

Definition last_sequence (m : ConnectionStateMachine) : option Z :=
  if ts_sequence_seen_ m then Some (last_ts_sequence_ m) else None.

(** The last sequence number is a 64-bit one. *)
Definition ts_ok (m : ConnectionStateMachine) : Prop := is_u64 (last_ts_sequence_ m).

Lemma decoded_sequence_u64 p data :
  bytes_ok (view_bytes p) -> valid_view p = true ->
  decode_ts_data_event_payload p = success data -> is_u64 (sequence data).
Proof.
  intros OK V D. assert (decode_ts_data_event_payload (View (view_bytes p)) = success data) as D'.
  { destruct p as [n|l]; [|done]. simpl in V. apply Z.eqb_eq in V as ->. exact D. }
  by destruct (@decode_sound _ _ TsDataEvent_laws (view_bytes p) data OK D') as (_ & (U & _) & _).
Qed.

Lemma ts_step m f o r m' :
  is_control (role_ m) = false -> invariant m -> ts_ok m ->
  bytes_ok (view_bytes (payload f)) -> process m f o = (success r, m') ->
  role_ m' = role_ m /\ ts_ok m' /\
  match ts_event_of (o, f) with
  | None => last_sequence m' = last_sequence m
  | Some data => ts_sequence_ok (last_sequence m) data /\ last_sequence m' = Some (sequence data)
  end.
Proof.
  intros NC I T OK. unfold process, ts_event_of. cbn [snd]. destruct (phase_ m) eqn:P; try done.
  all: destruct (is_success (validate_frame_view f)) eqn:V; [cbn [negb]|done].
  all: fold (frame_valid f) in V; apply frame_valid_inv in V as (V & _).
  all: destruct I as [_ _ _ _ X]; rewrite P in X.
  all: destruct (role_ m) eqn:R; try done.
  all: unfold process_stream_client, process_stream_server; rewrite P.
  all: match goal with |- context [if ?c then violation _ else _] =>
         destruct c eqn:G; [done|] end; bool_hyps.
  all: repeat match goal with
       | H : answers_pending _ _ = true |- _ => apply answers_pending_inv in H as (_ & _ & Ty & _)
       | H : eqb (type _) ATTACH_STREAM = true |- _ => apply eqb_true_1 in H; rewrite H
       end.
  1,2: intros [= <- <-]; done.
  1,2: destruct X as (_ & _ & O & _); simpl in O; rewrite <-Ty, O; unfold attach_answered;
       intros [= <- <-]; by destruct (eqb _ _).
  all: unfold process_ts_event.
  all: destruct (eqb (type (header f)) STREAM_END) eqn:TE;
       [apply eqb_true_1 in TE; rewrite TE; by intros [= <- <-]|].
  all: match goal with H : is_ts_event _ = true |- _ =>
         unfold is_ts_event in H; rewrite TE, orb_false_r in H; bool_hyps end.
  all: match goal with H : eqb _ TS_DATA = true |- _ => rewrite H end.
  all: destruct (decode_ts_data_event_payload (payload f)) as [data|] eqn:D; [|done].
  all: pose proof (decoded_sequence_u64 _ _ OK V D) as U.
  all: destruct (Z.eqb_spec (cumulative_drop_count data) 0) as [D0|]; [cbn [negb]|done].
  all: unfold ts_sequence_ok, last_sequence, ts_ok in *.
  all: destruct (ts_sequence_seen_ m); [cbn [andb]|by intros [= <- <-]].
  all: destruct (Z.eqb_spec (last_ts_sequence_ m) (2 ^ 64 - 1)); [done|cbn [orb]].
  all: rewrite cast_u64_small by (unfold is_u64 in *; lia).
  all: destruct (Z.eqb_spec (sequence data) (last_ts_sequence_ m + 1)); [|done].
  all: by intros [= <- <-].
Qed.

(** On an attached stream the TS_DATA events that are accepted carry consecutive
    sequence numbers, which do not wrap, and no drop count; a gap, a repetition
    or a reported drop ends the connection. *)
Theorem ts_sequences_consecutive role caps trace m :
  is_control role = false ->
  Forall (fun call => bytes_ok (view_bytes (payload call.2))) trace ->
  run (init_ConnectionStateMachine role caps) trace m ->
  consecutive None (omap ts_event_of trace).
Proof.
  intros NC OK R.
  assert (forall m0, is_control (role_ m0) = false -> invariant m0 -> ts_ok m0 ->
    run m0 trace m -> consecutive (last_sequence m0) (omap ts_event_of trace)) as H.
  { clear NC R. induction OK as [|[o f] trace OKf _ IH]; intros m0 NC I T R; [done|].
    inversion R as [|? ? ? r m1 ? ? E R1]; subst.
    pose proof (step_invariant m0 f o I) as I1. rewrite E in I1. cbn [snd] in I1.
    destruct (ts_step m0 f o r m1 NC I T OKf E) as (Ro & T1 & S).
    specialize (IH m1 ltac:(by rewrite Ro) I1 T1 R1). simpl.
    destruct (ts_event_of (o, f)) as [data|]; [|by rewrite <-S].
    destruct S as [S1 S2]. rewrite S2 in IH. by split. }
  apply (H (init_ConnectionStateMachine role caps) NC (init_invariant role caps)); [|exact R]. unfold ts_ok, is_u64. simpl. lia.
Qed.

Lemma ts_sequences_consecutive_witness :
  exists m, run (init_ConnectionStateMachine stream_client 0) sample_stream m /\
    consecutive None (omap ts_event_of sample_stream).
Proof.
  destruct sample_stream_runs as [m R]. exists m. split; [exact R|].
  apply (ts_sequences_consecutive stream_client 0 sample_stream m); [reflexivity| |exact R].
  repeat (apply Forall_cons; split; [apply bytes_okb_ok; vm_compute; reflexivity|]).
  by apply Forall_nil.
Defined.

(** ** The two ends of a connection *)

(** What the two ends agree on while frames are delivered in order. *)
Definition peers (c s : ConnectionStateMachine) : Prop :=
  ((role_ c = control_client /\ role_ s = control_server) \/
   (role_ c = stream_client /\ role_ s = stream_server)) /\
  phase_ c = phase_ s /\ pending_ c = pending_ s /\ pending_header_ c = pending_header_ s /\
  requested_capabilities_ c = requested_capabilities_ s /\
  ts_sequence_seen_ c = ts_sequence_seen_ s /\ last_ts_sequence_ c = last_ts_sequence_ s /\
  (phase_ c = active \/ is_control (role_ c) = false ->
   negotiated_capabilities_ c = negotiated_capabilities_ s) /\
  phase_ c <> poisoned.

(** One frame: sent by one end, received by the other. *)
Definition transfer (c s : ConnectionStateMachine) (from_client : bool) (f : FrameView)
  : Result ConnectionResult * Result ConnectionResult * ConnectionStateMachine * ConnectionStateMachine :=
  if from_client then
    let '(sent, c) := process_outbound c f in
    let '(received, s) := process_inbound s f in
    (sent, received, c, s)
  else
    let '(sent, s) := process_outbound s f in
    let '(received, c) := process_inbound c f in
    (sent, received, c, s).

Lemma peers_answers c s f : peers c s -> answers_pending c f = answers_pending s f.
Proof. intros (_ & _ & P & H & _). unfold answers_pending. by rewrite P, H. Qed.

(** With the same state both ends treat a frame alike. *)
Lemma control_active_alike c s f requests :
  peers c s -> phase_ c = active ->
  (exists r r' c' s', process_control_active c f requests = (success r, c') /\
     process_control_active s f requests = (success r', s') /\ peers c' s') \/
  (process_control_active c f requests = violation c /\
   process_control_active s f requests = violation s).
Proof.
  intros P A. pose proof (peers_answers c s f P) as Q.
  destruct P as (Ro & Ph & Pd & Hd & Rq & Ts & Ls & Ng & NP). specialize (Ng (or_introl A)).
  unfold process_control_active. rewrite Pd, Ng, Q. cbv zeta.
  repeat match goal with |- context [if ?c then violation _ else _] => destruct c; [by right|]
         | |- context [if ?c then _ else _] => destruct c end; left;
    eexists _, _, _, _; (split; [reflexivity|]); (split; [reflexivity|]);
    unfold peers; simpl; rewrite <-?Ph; split_and!; try done; rewrite ?A; done.
Qed.

Lemma ts_event_alike c s f :
  peers c s -> phase_ c = active ->
  (exists r r' c' s', process_ts_event c f = (success r, c') /\
     process_ts_event s f = (success r', s') /\ peers c' s') \/
  (process_ts_event c f = violation c /\ process_ts_event s f = violation s).
Proof.
  intros P A. destruct P as (Ro & Ph & Pd & Hd & Rq & Ts & Ls & Ng & NP).
  specialize (Ng (or_introl A)). unfold process_ts_event. rewrite Ts, Ls.
  repeat match goal with |- context [if ?c then violation _ else _] => destruct c; [by right|]
         | |- context [if ?c then _ else _] => destruct c
         | |- context [match ?x with success _ => _ | failure _ => _ end] =>
             destruct x; [|by right] end; left;
    eexists _, _, _, _; (split; [reflexivity|]); (split; [reflexivity|]);
    unfold peers; simpl; rewrite <-?Ph; by split_and!.
Qed.

Lemma attach_answered_peers c s f :
  peers c s -> role_ c = stream_client -> peers (attach_answered c f).2 (attach_answered s f).2.
Proof.
  intros (Ro & Ph & Pd & Hd & Rq & Ts & Ls & Ng & NP) R.
  specialize (Ng ltac:(right; by rewrite R)). unfold peers, attach_answered. simpl.
  split_and!; try done. by destruct (eqb _ _).
Qed.

(** A frame the client may send is one the server accepts. *)
Lemma client_to_server c s f r c' :
  peers c s -> process c f true = (success r, c') ->
  exists r' s', process s f false = (success r', s') /\ peers c' s'.
Proof.
  intros P. pose proof P as (Ro & Ph & Pd & Hd & Rq & Ts & Ls & Ng & NP).
  unfold process. rewrite <-Ph. destruct (phase_ c) eqn:A; try done.
  all: destruct (negb (is_success _)); [done|].
  all: destruct Ro as [[Rc Rs]|[Rc Rs]]; rewrite Rc, Rs.
  all: unfold process_control_client, process_control_server, process_stream_client,
         process_stream_server; rewrite <-Ph, A; cbn [negb orb].
  all: intros H; try done.
  - destruct (negb (eqb (kind _) request) || _); [done|].
    destruct (decode_hello_request_payload _) as [hello|]; [|done]. injection H as _ <-.
    eexists _, _. split; [reflexivity|]. unfold peers. simpl. rewrite Rc, Rs.
    split_and!; try done; [by left|]. by intros [?|?].
  - destruct (negb (eqb (kind _) request) || _); [done|]. injection H as _ <-.
    eexists _, _. split; [reflexivity|]. unfold peers. simpl. rewrite Rc, Rs.
    split_and!; try done; [by right|]. intros _. apply Ng. by rewrite Rc; right.
  - destruct (control_active_alike c s f true P A) as [(?&?&?&?&E&?&?)|[E _]];
      rewrite E in H; [injection H as _ <-; by eexists _, _|done].
Qed.

(** A frame the server may send is one the client accepts. *)
Lemma server_to_client c s f r s' :
  peers c s -> invariant s -> process s f true = (success r, s') ->
  exists r' c', process c f false = (success r', c') /\ peers c' s'.
Proof.
  intros P I. pose proof P as (Ro & Ph & Pd & Hd & Rq & Ts & Ls & Ng & NP).
  pose proof (peers_answers c s f P) as Q.
  unfold process. rewrite <-Ph. destruct (phase_ c) eqn:A; try done.
  all: destruct (negb (is_success _)); [done|].
  all: destruct Ro as [[Rc Rs]|[Rc Rs]]; rewrite Rc, Rs.
  all: unfold process_control_client, process_control_server, process_stream_client,
         process_stream_server; rewrite <-Ph, A; cbn [negb orb]; rewrite ?Q.
  all: intros H; try done.
  - destruct (answers_pending s f); [cbn [negb] in *|done].
    destruct (hello_compatible_ s).
    + destruct (eqb (kind (header f)) response) eqn:K; [|done]. apply eqb_true_1 in K.
      rewrite K. change (eqb response error_response) with false. cbv beta iota in *.
      destruct (decode_hello_response_payload _) as [hello|]; [|done].
      destruct (_ || _) eqn:G in H; [done|]. bool_hyps.
      match goal with H : (capabilities hello =? _) = true |- _ => apply Z.eqb_eq in H; rewrite H end.
      injection H as _ <-. destruct I as [I1 I2 _ _ _].
      assert (within (negotiated_capabilities_ s)
        (Z.land (requested_capabilities_ c) kKnownCapabilities)) as W.
      { unfold within. by rewrite Rq, Z.land_assoc, I2, I1. }
      rewrite I1. apply outside_mask_within in W. rewrite W.
      eexists _, _. split; [reflexivity|]. unfold peers. simpl. rewrite Rc, Rs.
      split_and!; try done. by left.
    + destruct (eqb (kind (header f)) error_response) eqn:K; [|done]. cbn [negb] in *.
      destruct (decode_error_response_payload _) as [er|]; [|done].
      destruct (negb _) in H; [done|]. injection H as _ <-.
      eexists _, _. split; [reflexivity|]. unfold peers. simpl. rewrite Rc, Rs.
      split_and!; try done; [by left|]. by intros [?|?].
  - destruct (answers_pending s f); [cbn [negb] in *|done].
    pose proof (attach_answered_peers c s f P Rc) as Pa.
    destruct (attach_answered c f) as [rc c'] eqn:E. rewrite H in Pa.
    unfold attach_answered, accepted in E. injection E as <- <-. by eexists _, _.
  - destruct (control_active_alike c s f false P A) as [(?&?&?&?&?&E&?)|[_ E]];
      rewrite E in H; [injection H as _ <-; by eexists _, _|done].
  - destruct (negb (is_ts_event _)); [done|].
    destruct (ts_event_alike c s f P A) as [(?&?&?&?&?&E&?)|[_ E]];
      rewrite E in H; [injection H as _ <-; by eexists _, _|done].
Qed.

(** [exchange c s frames]: whenever the sender's machine lets a frame out, the
    receiver's machine accepts it, and both agree on what was negotiated. *)
Fixpoint exchange (c s : ConnectionStateMachine) (frames : list (bool * FrameView)) : Prop :=
  match frames with
  | [] => True
  | (from_client, f) :: frames =>
      let '(sent, received, c', s') := transfer c s from_client f in
      is_success sent = true ->
      is_success received = true /\ phase_ c' = phase_ s' /\
      (phase_ c' = active -> negotiated_capabilities_ c' = negotiated_capabilities_ s') /\
      exchange c' s' frames
  end.

(** C3 The two ends never disagree: starting from fresh machines and delivering
    frames in order, every frame the client's machine lets out is accepted by
    the server's machine and the other way round, through version negotiation,
    requests, answers, events and stream data; both are always in the same
    phase, with the same negotiated capabilities. *)
Theorem ends_agree frames :
  forall control supported,
  exchange
    (init_ConnectionStateMachine (if control : bool then control_client else stream_client) 0)
    (init_ConnectionStateMachine (if control : bool then control_server else stream_server) supported)
    frames.
Proof.
  intros control supported.
  assert (forall c s, peers c s -> invariant s -> exchange c s frames) as H.
  { induction frames as [|[[] f] frames IH]; intros c s P I; [done|..]; simpl; unfold transfer,
      process_outbound, process_inbound.
    - destruct (process c f true) as [[r|e] c'] eqn:E;
        [|by destruct (process s f false)].
      destruct (client_to_server c s f r c' P E) as (r' & s' & E' & P').
      pose proof (step_invariant s f false I) as I'. rewrite E' in *. intros _.
      specialize (IH _ _ P' I'). destruct P' as (_ & ? & _ & _ & _ & _ & _ & Ng & _).
      split_and!; try done. intros. apply Ng. by left.
    - destruct (process s f true) as [[r|e] s'] eqn:E;
        [|by destruct (process c f false)].
      destruct (server_to_client c s f r s' P I E) as (r' & c' & E' & P').
      pose proof (step_invariant s f true I) as I'. rewrite E in I'. rewrite E'. intros _.
      specialize (IH _ _ P' I'). destruct P' as (_ & ? & _ & _ & _ & _ & _ & Ng & _).
      split_and!; try done. intros. apply Ng. by left. }
  apply H; [|apply init_invariant].
  unfold peers. destruct control; simpl; split_and!; try done; auto.
Qed.

(** ** The handshake completes *)

(** A compatible HELLO is answered: the server's machine names the response to
    send, that response takes both ends to the active phase, and exactly the
    requested, known and supported capabilities are negotiated; for an
    incompatible version range the server's machine offers no response. *)
Theorem hello_completes supported f hello :
  validate_frame_view f = success tt -> kind (header f) = request -> type (header f) = HELLO ->
  decode_hello_request_payload (payload f) = success hello ->
  let s := (process_inbound (init_ConnectionStateMachine control_server supported) f).2 in
  let negotiated := Z.land (Z.land (requested_capabilities hello) kKnownCapabilities)
                      (Z.land supported kKnownCapabilities) in
  pending_hello_response s =
    (if includes_protocol_v1 hello
     then success {| hello_major := kProtocolMajor; hello_minor := kProtocolMinor;
                     capabilities := negotiated |}
     else failure NOT_READY) /\
  forall g, includes_protocol_v1 hello = true -> validate_frame_view g = success tt ->
    kind (header g) = response -> validate_response_to_request (header f) (header g) = success tt ->
    decode_hello_response_payload (payload g) = success {| hello_major := kProtocolMajor;
      hello_minor := kProtocolMinor; capabilities := negotiated |} ->
    (process_outbound s g).2 = set_phase (clear_pending s) active /\
    negotiated_capabilities_ (process_outbound s g).2 = negotiated.
Proof.
  intros V K T D. unfold process_inbound, process. simpl. rewrite V.
  unfold process_control_server. simpl. rewrite K, T, !eqb_refl, D. simpl.
  unfold pending_hello_response. simpl. rewrite T, !eqb_refl. simpl.
  destruct (includes_protocol_v1 hello); [|done]. split; [done|].
  intros g _ Vg Kg Rg Dg. unfold process_outbound, process. simpl. rewrite Vg. simpl.
  unfold process_control_server. simpl. unfold answers_pending. simpl. rewrite Kg, Rg.
  unfold is_response_kind. rewrite !eqb_refl, Dg. simpl. by rewrite Z.eqb_refl.
Qed.

Definition hello_frame : FrameView := {|
  header := {| major := 1; minor := 0; type := HELLO; kind := request; request_id := 1;
               payload_length := 12 |};
  payload := View [1; 0; 0; 0; 1; 0; 0; 0; 15; 0; 0; 0];
|}.

Lemma hello_completes_witness :
  exists hello, decode_hello_request_payload (payload hello_frame) = success hello /\
    pending_hello_response
      (process_inbound (init_ConnectionStateMachine control_server 5) hello_frame).2 =
    success {| hello_major := 1; hello_minor := 0; capabilities := 5 |}.
Proof.
  eexists. split; [vm_compute; reflexivity|].
  refine (eq_trans (proj1 (hello_completes 5 hello_frame _ _ _ _ _)) _).
  - vm_compute. reflexivity.
  - reflexivity.
  - reflexivity.
  - vm_compute. reflexivity.
  - vm_compute. reflexivity.
Defined.
