(* ===== verification/Q3u4Power.v ===== *)
(** The backend-power authority of a Q3U4 enclosure ([src/q3u4_power.h/.cpp]).
    Every public operation holds the coordinator's mutex from its first use of
    the state to its return, so an operation is one function from the state of
    coordinator and hardware to the next; concurrent callers are a sequence of
    operations.  The backends are an interface over a hardware state. *)

From S2P Require Import Prelude.

(** [enum class : std::uint8_t], with the values that name no bridge. *)
Inductive Q3U4Bridge := dev1 | dev2 | Q3U4Bridge_other (raw : Z).
Inductive Q3U4PowerState := PS_unknown | PS_off | PS_on | PS_disconnected.

#[export] Instance Q3U4Bridge_eq_dec : EqDecision Q3U4Bridge.
Proof. solve_decision. Defined.
#[export] Instance Q3U4PowerState_eq_dec : EqDecision Q3U4PowerState.
Proof. solve_decision. Defined.

Definition valid_bridge (b : Q3U4Bridge) : bool :=
  match b with dev1 | dev2 => true | Q3U4Bridge_other _ => false end.

(** [std::array<A, 2U>] indexed by bridge. *)
Record PerBridge (A : Type) := { at_dev1 : A; at_dev2 : A }.
Arguments at_dev1 {A} _.
Arguments at_dev2 {A} _.
Arguments Build_PerBridge {A} _ _.

Definition get {A} (p : PerBridge A) (b : Q3U4Bridge) : A :=
  match b with dev1 => at_dev1 p | _ => at_dev2 p end.
Definition set {A} (p : PerBridge A) (b : Q3U4Bridge) (a : A) : PerBridge A :=
  match b with
  | dev1 => {| at_dev1 := a; at_dev2 := at_dev2 p |}
  | _ => {| at_dev1 := at_dev1 p; at_dev2 := a |}
  end.

(** The backends behind [dev1_] and [dev2_], with the hardware as a state. *)
Class Q3U4BackendPower (HW : Type) := {
  set_backend_power : Q3U4Bridge -> bool -> HW -> Result unit * HW;
}.

(** What a backend promises: a successful write takes effect, and no write
    touches the other bridge. *)
Class BackendPowerLaws (HW : Type) `{Q3U4BackendPower HW} := {
  powered : HW -> Q3U4Bridge -> bool;
  set_power_success : forall b on hw, valid_bridge b = true ->
    (set_backend_power b on hw).1 = success tt -> powered (set_backend_power b on hw).2 b = on;
  set_power_other : forall b b' on hw,
    valid_bridge b = true -> valid_bridge b' = true -> b <> b' -> powered (set_backend_power b on hw).2 b' = powered hw b';
}.

Record Q3U4PowerSnapshot := {
  receiver_mask : Z;
  card_acquired : bool;
  backend_state : PerBridge Q3U4PowerState;
}.

Definition init_snapshot : Q3U4PowerSnapshot :=
  {| receiver_mask := 0; card_acquired := false;
     backend_state := {| at_dev1 := PS_off; at_dev2 := PS_off |} |}.

Definition with_logical (s : Q3U4PowerSnapshot) (mask : Z) (card : bool) : Q3U4PowerSnapshot :=
  {| receiver_mask := mask; card_acquired := card; backend_state := backend_state s |}.
Definition with_state (s : Q3U4PowerSnapshot) (b : Q3U4Bridge) (p : Q3U4PowerState)
  : Q3U4PowerSnapshot :=
  {| receiver_mask := receiver_mask s; card_acquired := card_acquired s;
     backend_state := set (backend_state s) b p |}.

Definition desired_power_locked (s : Q3U4PowerSnapshot) (b : Q3U4Bridge) : bool :=
  if negb (receiver_mask s =? 0) then true
  else bool_decide (b = dev1) && card_acquired s.

Definition is_disconnected (p : Q3U4PowerState) : bool := bool_decide (p = PS_disconnected).

Definition enclosure_disconnected_locked (s : Q3U4PowerSnapshot) : bool :=
  is_disconnected (get (backend_state s) dev1) || is_disconnected (get (backend_state s) dev2).
Definition enclosure_disconnected := enclosure_disconnected_locked.

Definition other_bridge (b : Q3U4Bridge) : Q3U4Bridge :=
  if bool_decide (b = dev1) then dev2 else dev1.

(** [1U << id] of a receiver and its bridge. *)
Definition receiver_bit (id : Z) : Z := cast_u8 (Z.shiftl 1 id).
Definition receiver_bridge (id : Z) : Q3U4Bridge := if id <? 4 then dev1 else dev2.

Section Coordinator.
Context {HW : Type} `{Q3U4BackendPower HW}.

Definition World : Type := Q3U4PowerSnapshot * HW.
Definition Outcome : Type := Result unit * World.

Definition set_bridge_locked (b : Q3U4Bridge) (on : bool) (w : World) : Outcome :=
  let '(s, hw) := w in
  let current := get (backend_state s) b in
  if is_disconnected current then
    (if on then failure DISCONNECTED else success tt, w)
  else if (on && bool_decide (current = PS_on)) || (negb on && bool_decide (current = PS_off))
  then (success tt, w)
  else
    let '(result, hw) := set_backend_power b on hw in
    match result with
    | success _ => (success tt, (with_state s b (if on then PS_on else PS_off), hw))
    | failure e =>
        (failure e,
         (with_state s b (if bool_decide (e = DISCONNECTED) then PS_disconnected else PS_unknown), hw))
    end.

Definition apply_desired_locked (first : Q3U4Bridge) (w : World) : Outcome :=
  let second := other_bridge first in
  match set_bridge_locked first (desired_power_locked w.1 first) w with
  | (failure e, w) => (failure e, w)
  | (success _, w) => set_bridge_locked second (desired_power_locked w.1 second) w
  end.

Definition rollback_logical_locked (prior : Q3U4PowerSnapshot) (first : Q3U4Bridge) (w : World) : World :=
  (apply_desired_locked first
     (with_logical w.1 (receiver_mask prior) (card_acquired prior), w.2)).2.

(** The common end of the two acquire operations. *)
Definition acquire_locked (prior : Q3U4PowerSnapshot) (first : Q3U4Bridge) (w : World) : Outcome :=
  match apply_desired_locked first w with
  | (success _, w) => (success tt, w)
  | (failure e, w) => (failure e, rollback_logical_locked prior first w)
  end.

Definition acquire_receiver (id : Z) (w : World) : Outcome :=
  let '(s, hw) := w in
  if enclosure_disconnected_locked s then (failure DISCONNECTED, w)
  else if 7 <? id then (failure INVALID_ARGUMENT, w)
  else
    let bit := receiver_bit id in
    if negb (Z.land (receiver_mask s) bit =? 0) then (failure BUSY, w)
    else acquire_locked s (receiver_bridge id)
           (with_logical s (cast_u8 (Z.lor (receiver_mask s) bit)) (card_acquired s), hw).

Definition release_receiver (id : Z) (w : World) : Outcome :=
  let '(s, hw) := w in
  if 7 <? id then (failure INVALID_ARGUMENT, w)
  else
    let bit := receiver_bit id in
    if Z.land (receiver_mask s) bit =? 0 then (failure INVALID_ARGUMENT, w)
    else apply_desired_locked (receiver_bridge id)
           (with_logical s (cast_u8 (Z.land (receiver_mask s) (Z.lnot bit))) (card_acquired s), hw).

Definition acquire_card (w : World) : Outcome :=
  let '(s, hw) := w in
  if enclosure_disconnected_locked s then (failure DISCONNECTED, w)
  else if card_acquired s then (failure BUSY, w)
  else acquire_locked s dev1 (with_logical s (receiver_mask s) true, hw).

Definition release_card (w : World) : Outcome :=
  let '(s, hw) := w in
  if negb (card_acquired s) then (failure INVALID_ARGUMENT, w)
  else apply_desired_locked dev1 (with_logical s (receiver_mask s) false, hw).

Definition reconcile (w : World) : Outcome :=
  let '(s, hw) := w in
  if enclosure_disconnected_locked s then (failure DISCONNECTED, w)
  else apply_desired_locked dev1 w.

Definition disconnect (b : Q3U4Bridge) (w : World) : Outcome :=
  let '(s, hw) := w in
  if negb (valid_bridge b) then (failure INVALID_ARGUMENT, w)
  else
    let s := with_logical (with_state s b PS_disconnected) 0 false in
    let other := other_bridge b in
    let s := if bool_decide (get (backend_state s) other = PS_on)
             then with_state s other PS_unknown else s in
    (success tt, (s, hw)).

(** The public operations. *)
Inductive PowerOp :=
  | AcquireReceiver (id : Z)
  | ReleaseReceiver (id : Z)
  | AcquireCard
  | ReleaseCard
  | Reconcile
  | Disconnect (b : Q3U4Bridge).

Definition run_op (op : PowerOp) (w : World) : Outcome :=
  match op with
  | AcquireReceiver id => acquire_receiver id w
  | ReleaseReceiver id => release_receiver id w
  | AcquireCard => acquire_card w
  | ReleaseCard => release_card w
  | Reconcile => reconcile w
  | Disconnect b => disconnect b w
  end.

Definition run_ops (ops : list PowerOp) (w : World) : World :=
  foldl (fun w op => (run_op op w).2) w ops.
End Coordinator.

Arguments World : clear implicits.
Arguments Outcome : clear implicits.

(** * Lemmas *)

Lemma get_set_eq {A} (p : PerBridge A) b a : get (set p b a) b = a.
Proof. by destruct b. Qed.
Lemma get_set_other {A} (p : PerBridge A) b b' a :
  valid_bridge b = true -> valid_bridge b' = true -> b <> b' -> get (set p b a) b' = get p b'.
Proof. by destruct b, b'. Qed.
Lemma other_bridge_valid b : valid_bridge (other_bridge b) = true.
Proof. unfold other_bridge. by case_bool_decide. Qed.
Lemma other_bridge_ne b : other_bridge b <> b.
Proof. by destruct b. Qed.
Lemma bridge_cases b b' :
  valid_bridge b = true -> valid_bridge b' = true -> b' = b \/ b' = other_bridge b.
Proof. intros. destruct b, b'; first [done | by left | by right]. Qed.
Lemma receiver_bridge_valid id : valid_bridge (receiver_bridge id) = true.
Proof. unfold receiver_bridge. by destruct (_ <? _). Qed.

Lemma receiver_bit_spec id i :
  0 <= id < 8 -> 0 <= i < 8 -> Z.testbit (receiver_bit id) i = (i =? id).
Proof.
  intros Hid Hi. unfold receiver_bit, cast_u8. rewrite Z.mod_pow2_bits_low by lia.
  rewrite Z.shiftl_spec by lia. destruct (Z.eqb_spec i id) as [->|N].
  - by rewrite Z.sub_diag.
  - destruct (Z.lt_ge_cases i id); [by apply Z.testbit_neg_r; lia|].
    apply (testbit_small 1 1); lia.
Qed.

Lemma receiver_bit_high id i : 0 <= id < 8 -> 8 <= i -> Z.testbit (receiver_bit id) i = false.
Proof. intros. unfold receiver_bit, cast_u8. apply Z.mod_pow2_bits_high. lia. Qed.

Lemma mask_bit_test mask id :
  0 <= id < 8 -> (Z.land mask (receiver_bit id) =? 0) = negb (Z.testbit mask id).
Proof.
  intros Hid. destruct (Z.eqb_spec (Z.land mask (receiver_bit id)) 0) as [E|N].
  - apply (f_equal (fun x => Z.testbit x id)) in E.
    rewrite Z.land_spec, receiver_bit_spec, Z.eqb_refl, andb_true_r, Z.bits_0 in E by lia.
    by rewrite E.
  - destruct (Z.testbit mask id) eqn:T; [done|]. exfalso. apply N.
    apply Z.bits_inj'. intros i Hi. rewrite Z.land_spec, Z.bits_0.
    destruct (Z.lt_ge_cases i 8); [|by rewrite receiver_bit_high, andb_false_r by lia].
    rewrite receiver_bit_spec by lia. destruct (Z.eqb_spec i id) as [->|]; [by rewrite T|].
    apply andb_false_r.
Qed.

Section Facts.
Context {HW : Type} `{Q3U4BackendPower HW}.
Implicit Types (w : World HW) (b : Q3U4Bridge).

(** A property kept by every hardware write the coordinator performs is kept by
    every operation; [P] sees the state through its logical part only as far as
    it says. *)
Section Preservation.
Variable P : World HW -> Prop.
Hypothesis P_bridge : forall b on w, valid_bridge b = true -> P w -> P (set_bridge_locked b on w).2.
Hypothesis P_logical : forall s hw mask card, P (s, hw) -> P (with_logical s mask card, hw).

Lemma apply_preserves b w : valid_bridge b = true -> P w -> P (apply_desired_locked b w).2.
Proof.
  intros V Pw. unfold apply_desired_locked. pose proof (P_bridge b (desired_power_locked w.1 b) w V Pw) as P1.
  destruct (set_bridge_locked b _ w) as [[u|e] w1]; [|done].
  apply P_bridge; [apply other_bridge_valid|done].
Qed.

Lemma acquire_preserves prior b w : valid_bridge b = true -> P w -> P (acquire_locked prior b w).2.
Proof.
  intros V Pw. unfold acquire_locked. pose proof (apply_preserves b w V Pw) as P1.
  destruct (apply_desired_locked b w) as [[u|e] [s1 hw1]]; [done|].
  unfold rollback_logical_locked. apply apply_preserves; [done|]. by apply P_logical.
Qed.

Lemma op_preserves op w :
  (forall b s hw, valid_bridge b = true -> P (s, hw) -> P (disconnect b (s, hw)).2) ->
  P w -> P (run_op op w).2.
Proof.
  intros D Pw. destruct w as [s hw]. destruct op as [id|id| | | |b]; simpl.
  - unfold acquire_receiver. repeat case_match; try done.
    apply acquire_preserves; [apply receiver_bridge_valid|]. by apply P_logical.
  - unfold release_receiver. repeat case_match; try done.
    apply apply_preserves; [apply receiver_bridge_valid|]. by apply P_logical.
  - unfold acquire_card. repeat case_match; try done.
    apply acquire_preserves; [done|]. by apply P_logical.
  - unfold release_card. repeat case_match; try done.
    apply apply_preserves; [done|]. by apply P_logical.
  - unfold reconcile. repeat case_match; try done. by apply apply_preserves.
  - specialize (D b s hw). unfold disconnect in *. destruct (valid_bridge b); [by apply D|done].
Qed.

Lemma ops_preserve ops w :
  (forall b s hw, valid_bridge b = true -> P (s, hw) -> P (disconnect b (s, hw)).2) ->
  P w -> P (run_ops ops w).
Proof.
  intros D. revert w. induction ops as [|op ops IH]; intros w Pw; [done|].
  apply IH. by apply op_preserves.
Qed.
End Preservation.

(** ** One bridge *)

Lemma set_bridge_logical b on w :
  receiver_mask (set_bridge_locked b on w).2.1 = receiver_mask w.1 /\
  card_acquired (set_bridge_locked b on w).2.1 = card_acquired w.1.
Proof.
  destruct w as [s hw]. unfold set_bridge_locked. repeat case_match; by simplify_eq.
Qed.

Lemma set_bridge_other b b' on w :
  valid_bridge b = true -> valid_bridge b' = true -> b <> b' ->
  get (backend_state (set_bridge_locked b on w).2.1) b' = get (backend_state w.1) b'.
Proof.
  intros V V' N. destruct w as [s hw]. unfold set_bridge_locked.
  destruct (is_disconnected _); [done|]. destruct (_ || _); [done|].
  destruct (set_backend_power b on hw) as [[u|e] hw']; simpl; by apply get_set_other.
Qed.

Lemma set_bridge_success b on w :
  (set_bridge_locked b on w).1 = success tt ->
  let p := get (backend_state (set_bridge_locked b on w).2.1) b in
  (p = PS_disconnected /\ on = false) \/ p = (if on then PS_on else PS_off).
Proof.
  destruct w as [s hw]. unfold set_bridge_locked, is_disconnected.
  case_bool_decide as D; [destruct on; [done|by left]|].
  destruct (_ || _) eqn:E.
  - intros _. right. simpl. destruct on; simpl in E; rewrite ?orb_false_r in E;
      by apply bool_decide_eq_true in E.
  - destruct (set_backend_power b on hw) as [[u|e] hw']; [|done]. intros _. right.
    simpl. apply get_set_eq.
Qed.

Lemma apply_logical b w :
  receiver_mask (apply_desired_locked b w).2.1 = receiver_mask w.1 /\
  card_acquired (apply_desired_locked b w).2.1 = card_acquired w.1.
Proof.
  unfold apply_desired_locked.
  destruct (set_bridge_logical b (desired_power_locked w.1 b) w) as [M C].
  destruct (set_bridge_locked b _ w) as [[u|e] w1]; [|done]. simpl in *.
  destruct (set_bridge_logical (other_bridge b) (desired_power_locked w1.1 (other_bridge b)) w1) as [M1 C1].
  by rewrite M1, C1.
Qed.

Lemma desired_logical s s' b :
  receiver_mask s' = receiver_mask s -> card_acquired s' = card_acquired s ->
  desired_power_locked s' b = desired_power_locked s b.
Proof. unfold desired_power_locked. by intros -> ->. Qed.

(** What a bridge's recorded state should be. *)
Definition converged (s : Q3U4PowerSnapshot) (b : Q3U4Bridge) : Prop :=
  (get (backend_state s) b = PS_disconnected /\ desired_power_locked s b = false) \/
  get (backend_state s) b = (if desired_power_locked s b then PS_on else PS_off).

Lemma apply_converges first b w :
  valid_bridge first = true -> valid_bridge b = true ->
  (apply_desired_locked first w).1 = success tt -> converged (apply_desired_locked first w).2.1 b.
Proof.
  intros V Vb E. pose proof (apply_logical first w) as [M C].
  revert E M C. unfold apply_desired_locked, converged.
  set (on := desired_power_locked w.1 first).
  pose proof (set_bridge_success first on w) as S1.
  destruct (set_bridge_logical first on w) as [M1 C1].
  destruct (set_bridge_locked first on w) as [[[]|e] w1]; [|done]. simpl in *. specialize (S1 eq_refl).
  set (second := other_bridge first) in *. set (on2 := desired_power_locked w1.1 second).
  pose proof (set_bridge_success second on2 w1) as S2.
  pose proof (set_bridge_other second first on2 w1 (other_bridge_valid first) V (other_bridge_ne first)) as O.
  destruct (set_bridge_logical second on2 w1) as [M2 C2].
  destruct (set_bridge_locked second on2 w1) as [r2 w2]. simpl in *. intros E M C. specialize (S2 E).
  destruct (bridge_cases first b V Vb) as [->|Eb].
  - rewrite O. rewrite (desired_logical w.1 w2.1 first) by done. fold on.
    destruct S1 as [[? ?]|?]; auto.
  - subst b. fold second. rewrite (desired_logical w1.1 w2.1 second) by done. fold on2.
    destruct S2 as [[? ?]|?]; auto.
Qed.
End Facts.

(** * Theorems *)

(** ** The recorded state and the hardware *)

Section Agreement.
Context {HW : Type} `{BackendPowerLaws HW}.

Definition agrees (w : World HW) : Prop :=
  forall b, valid_bridge b = true ->
    (get (backend_state w.1) b = PS_on -> powered w.2 b = true) /\
    (get (backend_state w.1) b = PS_off -> powered w.2 b = false).

Lemma set_bridge_agrees b on w :
  valid_bridge b = true -> agrees w -> agrees (set_bridge_locked b on w).2.
Proof.
  intros V A. destruct w as [s hw]. unfold set_bridge_locked.
  destruct (is_disconnected _); [done|]. destruct (_ || _); [done|].
  pose proof (set_power_success b on hw V) as E.
  assert (forall b', valid_bridge b' = true -> b' <> b ->
    powered (set_backend_power b on hw).2 b' = powered hw b') as O.
  { intros b' V' N. by apply set_power_other. }
  destruct (set_backend_power b on hw) as [r hw']. simpl in *.
  destruct r as [[]|e]; simpl; intros b' V'; simpl; destruct (decide (b' = b)) as [->|N].
  - rewrite get_set_eq, E by done. by destruct on.
  - rewrite get_set_other by congruence. rewrite O by done. by apply A.
  - rewrite get_set_eq. by case_bool_decide.
  - rewrite get_set_other by congruence. rewrite O by done. by apply A.
Qed.

Lemma disconnect_agrees b s hw :
  valid_bridge b = true -> agrees (s, hw) -> agrees (disconnect b (s, hw)).2.
Proof.
  intros V A b' V'. pose proof (A dev1 eq_refl) as A1. pose proof (A dev2 eq_refl) as A2.
  destruct b, b'; try done; simpl in *; case_bool_decide; simpl; intuition congruence.
Qed.

(** The coordinator is never wrong about the hardware: after any sequence of
    operations, with any failures of the backends, a bridge recorded as on is
    powered and a bridge recorded as off is not; what it does not know it
    records as unknown or disconnected. *)
Theorem power_state_agrees ops hw :
  powered hw dev1 = false -> powered hw dev2 = false ->
  agrees (run_ops ops (init_snapshot, hw)).
Proof.
  intros P1 P2. apply (ops_preserve agrees).
  - intros. by apply set_bridge_agrees.
  - done.
  - intros. by apply disconnect_agrees.
  - intros b V. split; [by destruct b|]. by destruct b.
Qed.
End Agreement.

(** ** Convergence *)

Section Convergence.
Context {HW : Type} `{Q3U4BackendPower HW}.
Implicit Types w : World HW.

Definition is_disconnect (op : PowerOp) : bool :=
  match op with Disconnect _ => true | _ => false end.

(** When an operation reports success both bridges are recorded exactly as the
    references ask: on while a receiver is open anywhere, the first bridge also
    while the card is, and off otherwise; only a lost bridge that nobody needs
    stays recorded as disconnected. *)
Theorem success_converges op w b :
  is_disconnect op = false -> valid_bridge b = true ->
  (run_op op w).1 = success tt -> converged (run_op op w).2.1 b.
Proof.
  intros D V. destruct w as [s hw].
  assert (forall first w, valid_bridge first = true ->
    (apply_desired_locked first w).1 = success tt -> converged (apply_desired_locked first w).2.1 b)
    as C by (intros; by apply apply_converges).
  assert (forall prior first w, valid_bridge first = true ->
    (acquire_locked prior first w).1 = success tt -> converged (acquire_locked prior first w).2.1 b)
    as CA.
  { intros prior first w Vf. unfold acquire_locked. specialize (C first w Vf).
    destruct (apply_desired_locked first w) as [[[]|e] w']; [exact C|done]. }
  pose proof receiver_bridge_valid as RV.
  destruct op as [id|id| | | |b']; [..|done]; simpl.
  - unfold acquire_receiver. repeat (case_match; try done). by apply CA.
  - unfold release_receiver. repeat (case_match; try done). by apply C.
  - unfold acquire_card. repeat (case_match; try done). by apply CA.
  - unfold release_card. repeat (case_match; try done). by apply C.
  - unfold reconcile. repeat (case_match; try done). by apply C.
Qed.

(** ** References *)

(** Receiver [i] holds a reference. *)
Definition holds (s : Q3U4PowerSnapshot) (i : Z) : bool := Z.testbit (receiver_mask s) i.

Lemma bit_test s id :
  0 <= id < 8 -> (Z.land (receiver_mask s) (receiver_bit id) =? 0) = negb (holds s id).
Proof. apply mask_bit_test. Qed.

(** The references after an operation, as a set of receivers and the card. *)
Definition references (op : PowerOp) (ok : bool) (s : Q3U4PowerSnapshot) : (Z -> bool) * bool :=
  let keep := (holds s, card_acquired s) in
  match op with
  | AcquireReceiver id => if ok then (fun i => (i =? id) || holds s i, card_acquired s) else keep
  | ReleaseReceiver id =>
      if id <=? 7 then (fun i => negb (i =? id) && holds s i, card_acquired s) else keep
  | AcquireCard => if ok then (holds s, true) else keep
  | ReleaseCard => (holds s, false)
  | Reconcile => keep
  | Disconnect b => if valid_bridge b then (fun _ => false, false) else keep
  end.

Lemma acquire_logical prior first w :
  receiver_mask (acquire_locked prior first w).2.1 =
    (if is_success (acquire_locked prior first w).1 then receiver_mask w.1 else receiver_mask prior) /\
  card_acquired (acquire_locked prior first w).2.1 =
    (if is_success (acquire_locked prior first w).1 then card_acquired w.1 else card_acquired prior).
Proof.
  unfold acquire_locked. pose proof (apply_logical first w) as L.
  destruct (apply_desired_locked first w) as [[u|e] w1]; [exact L|]. simpl.
  unfold rollback_logical_locked. apply apply_logical.
Qed.

(** The coordinator's references are exact on every path: a successful acquire
    adds its receiver or the card, a failed one leaves all references as they
    were, a release drops its reference even when the hardware fails, and a
    disconnect drops all of them. *)
Theorem references_tracked op w i :
  is_u8 (receiver_mask w.1) -> 0 <= i < 8 ->
  match op with AcquireReceiver id | ReleaseReceiver id => is_u8 id | _ => True end ->
  holds (run_op op w).2.1 i = (references op (is_success (run_op op w).1) w.1).1 i /\
  card_acquired (run_op op w).2.1 = (references op (is_success (run_op op w).1) w.1).2.
Proof.
  intros M Hi Id. destruct w as [s hw]. destruct op as [id|id| | | |b]; simpl; unfold is_u8 in Id.
  - unfold acquire_receiver. case_match; [done|]. destruct (Z.ltb_spec 7 id); [done|].
    rewrite bit_test by lia. destruct (holds s id); [done|]. simpl.
    match goal with |- context [acquire_locked s ?f ?w] =>
      destruct (acquire_logical s f w) as [LM LC] end.
    unfold holds. rewrite LM, LC. destruct (is_success _); [|done]. simpl. split; [|done].
    unfold cast_u8. rewrite Z.mod_pow2_bits_low by lia.
    rewrite Z.lor_spec, receiver_bit_spec by lia. apply orb_comm.
  - unfold release_receiver. destruct (Z.ltb_spec 7 id).
    { by rewrite (proj2 (Z.leb_gt _ _)) by lia. }
    rewrite (proj2 (Z.leb_le _ _)), bit_test by lia. destruct (holds s id) eqn:Hd; simpl.
    + match goal with |- context [apply_desired_locked ?f ?w] =>
        destruct (apply_logical f w) as [LM LC] end.
      unfold holds. rewrite LM, LC. split; [|done]. simpl. unfold cast_u8.
      rewrite Z.mod_pow2_bits_low, Z.land_spec, Z.lnot_spec, receiver_bit_spec by lia.
      apply andb_comm.
    + split; [|done]. destruct (Z.eqb_spec i id) as [->|]; [by rewrite Hd|done].
  - unfold acquire_card. case_match; [done|]. case_match; [done|].
    match goal with |- context [acquire_locked s ?f ?w] =>
      destruct (acquire_logical s f w) as [LM LC] end.
    unfold holds. rewrite LM, LC. destruct (is_success _); [done|]. simpl. done.
  - unfold release_card. destruct (card_acquired s) eqn:C; simpl; [|done].
    match goal with |- context [apply_desired_locked ?f ?w] =>
      destruct (apply_logical f w) as [LM LC] end.
    unfold holds. by rewrite LM, LC.
  - unfold reconcile. case_match; [done|]. destruct (apply_logical dev1 (s, hw)) as [LM LC].
    unfold holds. by rewrite LM, LC.
  - unfold disconnect. destruct (valid_bridge b); [|done]. simpl.
    unfold holds. case_bool_decide; simpl; by rewrite Z.bits_0.
Qed.
End Convergence.

(** ** Silence after a loss *)

(** The hardware with a record of the writes. *)
Definition Logged (HW : Type) : Type := HW * list (Q3U4Bridge * bool).
#[export] Instance Logged_backend {HW} `{Q3U4BackendPower HW} : Q3U4BackendPower (Logged HW) := {
  set_backend_power b on hw :=
    let '(r, hw') := set_backend_power b on hw.1 in (r, (hw', hw.2 ++ [(b, on)]));
}.

Section Silence.
Context {HW : Type} `{Q3U4BackendPower HW}.

(** The writes to one bridge. *)
Definition writes_to (b : Q3U4Bridge) (log : list (Q3U4Bridge * bool)) : list (Q3U4Bridge * bool) :=
  filter (fun e => e.1 = b) log.

Definition lost (b : Q3U4Bridge) (log : list (Q3U4Bridge * bool)) (w : World (Logged HW)) : Prop :=
  get (backend_state w.1) b = PS_disconnected /\ writes_to b w.2.2 = log.

Lemma set_bridge_lost b log b' on w :
  valid_bridge b = true -> valid_bridge b' = true -> lost b log w ->
  lost b log (set_bridge_locked b' on w).2.
Proof.
  intros V V' [L W]. destruct w as [s [hw lg]]. unfold set_bridge_locked, is_disconnected. simpl in *.
  case_bool_decide as D; [done|]. destruct (_ || _); [done|].
  assert (b' <> b) as N by (intros ->; done).
  assert (writes_to b (lg ++ [(b', on)]) = log) as W'.
  { unfold writes_to in *. rewrite filter_app, W. rewrite filter_cons_False by done.
    apply app_nil_r. }
  destruct (set_backend_power b' on hw) as [[u|e] hw']; simpl; (split; [|done]); simpl;
    by rewrite get_set_other.
Qed.

(** Once a bridge is recorded as lost it stays so and is never written again,
    whatever the clients do; the other bridge is not held back. *)
Theorem lost_bridge_untouched b ops s hw lg :
  valid_bridge b = true -> get (backend_state s) b = PS_disconnected ->
  let w := run_ops ops (s, (hw, lg) : Logged HW) in
  get (backend_state w.1) b = PS_disconnected /\ writes_to b w.2.2 = writes_to b lg.
Proof.
  intros V L. apply (ops_preserve (lost b (writes_to b lg))).
  - intros. by apply set_bridge_lost.
  - done.
  - intros b' s' [hw' lg'] V' [L' W']. unfold disconnect. rewrite V'. split; [|done]. simpl in *.
    destruct b, b'; try done; simpl in *; case_bool_decide; simpl; congruence.
  - done.
Qed.

(** After a transport loss was reported no operation touches the hardware of
    either bridge any more. *)
Theorem disconnect_silences b ops s hw lg :
  valid_bridge b = true ->
  (run_ops ops (disconnect b (s, (hw, lg) : Logged HW)).2).2 = (hw, lg).
Proof.
  intros V.
  set (quiet := fun w : World (Logged HW) => w.2 = (hw, lg) /\ receiver_mask w.1 = 0 /\
    card_acquired w.1 = false /\ enclosure_disconnected_locked w.1 = true).
  assert (quiet (disconnect b (s, (hw, lg))).2) as Q.
  { unfold quiet, disconnect. rewrite V. simpl. split; [done|].
    destruct b; [..|done]; case_bool_decide; (split; [done|]); split; try done;
      unfold enclosure_disconnected_locked; simpl; by rewrite ?orb_true_r. }
  enough (forall w, quiet w -> quiet (run_ops ops w)) as E by apply (E _ Q).
  clear Q. induction ops as [|op ops IH]; intros w Qw; [done|]. apply IH.
  destruct w as [s' hw']. destruct Qw as (W & M & C & D). simpl in *. subst hw'.
  destruct op as [id|id| | | |b']; simpl.
  - unfold acquire_receiver. by rewrite D.
  - unfold release_receiver. rewrite M. by case_match.
  - unfold acquire_card. by rewrite D.
  - unfold release_card. by rewrite C.
  - unfold reconcile. by rewrite D.
  - unfold disconnect. destruct (valid_bridge b') eqn:V'; [|done]. split; [done|]. simpl.
    destruct b'; [..|done]; case_bool_decide; split; try done; split; try done;
      unfold enclosure_disconnected_locked; simpl; by rewrite ?orb_true_r.
Qed.
End Silence.

(** * Instances *)

(** Two supplies and a script of the failures to come. *)
Definition ScriptedHW : Type := PerBridge bool * list (option Error).
#[export] Instance Scripted_backend : Q3U4BackendPower ScriptedHW := {
  set_backend_power b on hw :=
    match hw.2 with
    | Some e :: rest => (failure e, (hw.1, rest))
    | None :: rest => (success tt, (set hw.1 b on, rest))
    | [] => (success tt, (set hw.1 b on, []))
    end;
}.
#[export] Program Instance Scripted_laws : BackendPowerLaws ScriptedHW := {
  powered hw b := get hw.1 b;
}.
Next Obligation.
  intros b on [p [|[e|] rest]] V; simpl; intros E; try done; apply get_set_eq.
Qed.
Next Obligation.
  intros b b' on [p [|[e|] rest]] V V' N; simpl; by rewrite ?get_set_other.
Qed.

Definition cold : PerBridge bool := {| at_dev1 := false; at_dev2 := false |}.

Lemma power_state_agrees_witness :
  agrees (run_ops [AcquireReceiver 5; AcquireCard; ReleaseReceiver 5]
    (init_snapshot, (cold, [None; Some USB_IO; Some TIMEOUT]) : ScriptedHW)).
Proof. apply power_state_agrees; reflexivity. Defined.

Lemma success_converges_witness :
  converged (run_op (AcquireReceiver 6) (init_snapshot, (cold, []) : ScriptedHW)).2.1 dev1.
Proof. apply success_converges; reflexivity. Defined.

Lemma references_tracked_witness :
  let w : World ScriptedHW := (init_snapshot, (cold, [None; Some USB_IO])) in
  is_success (run_op (AcquireReceiver 6) w).1 = false /\
  holds (run_op (AcquireReceiver 6) w).2.1 6 = false.
Proof.
  intros w. split; [reflexivity|].
  refine (eq_trans (proj1 (references_tracked (AcquireReceiver 6) w 6 _ _ _)) _).
  - unfold is_u8. simpl. lia.
  - lia.
  - unfold is_u8. lia.
  - reflexivity.
Defined.

Definition dev2_lost : Q3U4PowerSnapshot :=
  {| receiver_mask := 1; card_acquired := true;
     backend_state := {| at_dev1 := PS_on; at_dev2 := PS_disconnected |} |}.

Lemma lost_bridge_untouched_witness :
  let w := run_ops [ReleaseReceiver 0; ReleaseCard]
    (dev2_lost, (({| at_dev1 := true; at_dev2 := false |}, []), []) : Logged ScriptedHW) in
  w.2.2 = [(dev1, false)] /\ writes_to dev2 w.2.2 = [].
Proof.
  intros w. split; [reflexivity|].
  refine (proj2 (lost_bridge_untouched dev2 [ReleaseReceiver 0; ReleaseCard] dev2_lost
    ({| at_dev1 := true; at_dev2 := false |}, []) [] _ _)); reflexivity.
Defined.

Lemma disconnect_silences_witness :
  (run_ops [ReleaseReceiver 0; ReleaseCard; Reconcile; AcquireCard]
    (disconnect dev1 (dev2_lost, ((cold, []), []) : Logged ScriptedHW)).2).2 = ((cold, []), []).
Proof. apply disconnect_silences; reflexivity. Defined.
