(* ===== verification/Q3u4LnbPower.v ===== *)
(** The LNB supply authority of a Q3U4 enclosure ([src/q3u4_lnb_power.h/.cpp]):
    transactional 15 V requests per satellite receiver, an independent request,
    and the physical state of GPIO 11 on the two bridges.  Operations are atomic
    under the coordinator's mutex; the supplies are an interface over a hardware
    state, whose implementation [It930xLnbPower] only forwards to the controller. *)

From S2P Require Import Prelude Q3u4Power.

Inductive Q3U4LnbPhysicalState := LS_unknown | LS_off | LS_on | LS_disconnected.

#[export] Instance Q3U4LnbPhysicalState_eq_dec : EqDecision Q3U4LnbPhysicalState.
Proof. solve_decision. Defined.

(** The supplies behind [dev1_] and [dev2_], by bridge index. *)
Class Q3U4LnbPower (HW : Type) := {
  set_lnb_power : Q3U4Bridge -> bool -> HW -> Result unit * HW;
}.

(** A successful write takes effect; no write touches the other bridge. *)
Class LnbPowerLaws (HW : Type) `{Q3U4LnbPower HW} := {
  lnb_on : HW -> Q3U4Bridge -> bool;
  set_lnb_success : forall b on hw, valid_bridge b = true ->
    (set_lnb_power b on hw).1 = success tt -> lnb_on (set_lnb_power b on hw).2 b = on;
  set_lnb_other : forall b b' on hw,
    valid_bridge b = true -> valid_bridge b' = true -> b <> b' ->
    lnb_on (set_lnb_power b on hw).2 b' = lnb_on hw b';
}.

Record ReceiverRequest := {
  committed : bool;
  committed_15v : bool;
  pending : bool;
  pending_15v : bool;
}.

Definition no_request : ReceiverRequest :=
  {| committed := false; committed_15v := false; pending := false; pending_15v := false |}.

(** The state but for [allow_15v_], which never changes; [receivers] is the
    array of eight. *)
Record LnbState := {
  receivers : list ReceiverRequest;
  independent_15v : bool;
  physical_state : PerBridge Q3U4LnbPhysicalState;
  cleanup_debt : PerBridge bool;
}.

Definition init_lnb : LnbState := {|
  receivers := replicate 8 no_request;
  independent_15v := false;
  physical_state := {| at_dev1 := LS_off; at_dev2 := LS_off |};
  cleanup_debt := {| at_dev1 := false; at_dev2 := false |};
|}.

Record Q3U4LnbPowerSnapshot := {
  snapshot_ref_count : PerBridge Z;
  snapshot_physical_state : PerBridge Q3U4LnbPhysicalState;
  snapshot_cleanup_debt : PerBridge bool;
}.

Definition with_receivers (s : LnbState) (rs : list ReceiverRequest) : LnbState :=
  {| receivers := rs; independent_15v := independent_15v s;
     physical_state := physical_state s; cleanup_debt := cleanup_debt s |}.
Definition with_independent (s : LnbState) (v : bool) : LnbState :=
  {| receivers := receivers s; independent_15v := v;
     physical_state := physical_state s; cleanup_debt := cleanup_debt s |}.
Definition with_physical (s : LnbState) (b : Q3U4Bridge) (p : Q3U4LnbPhysicalState) (debt : bool)
  : LnbState :=
  {| receivers := receivers s; independent_15v := independent_15v s;
     physical_state := set (physical_state s) b p; cleanup_debt := set (cleanup_debt s) b debt |}.

(** [receivers_[i]], and the assignment to it. *)
Definition request_of (s : LnbState) (i : Z) : ReceiverRequest :=
  nth (Z.to_nat i) (receivers s) no_request.
Definition set_request (s : LnbState) (i : Z) (r : ReceiverRequest) : LnbState :=
  with_receivers s (<[Z.to_nat i := r]> (receivers s)).

Definition set_pending_request (r : ReceiverRequest) (p p15 : bool) : ReceiverRequest :=
  {| committed := committed r; committed_15v := committed_15v r; pending := p; pending_15v := p15 |}.

Definition valid_satellite_receiver (receiver : Z) : bool :=
  (receiver =? 0) || (receiver =? 1) || (receiver =? 4) || (receiver =? 5).

Definition bridge_for_receiver (receiver : Z) : Q3U4Bridge :=
  if receiver <? 4 then dev1 else dev2.

(** The effective request of a receiver. *)
Definition enabled (r : ReceiverRequest) : bool :=
  if pending r then pending_15v r else committed r && committed_15v r.

Definition first_receiver (b : Q3U4Bridge) : Z := if bool_decide (b = dev1) then 0 else 4.

Definition ref_count_locked (s : LnbState) (b : Q3U4Bridge) : Z :=
  let first := first_receiver b in
  let count := foldl (fun count local =>
    if enabled (request_of s (first + local)) then cast_u8 (count + 1) else count) 0 [0; 1] in
  if independent_15v s then cast_u8 (count + 1) else count.

Definition lnb_disconnected (p : Q3U4LnbPhysicalState) : bool := bool_decide (p = LS_disconnected).

Definition any_disconnected (s : LnbState) : bool :=
  lnb_disconnected (get (physical_state s) dev1) || lnb_disconnected (get (physical_state s) dev2).

Section Coordinator.
Context {HW : Type} `{Q3U4LnbPower HW}.

Definition LnbWorld : Type := LnbState * HW.
Definition LnbOutcome : Type := Result unit * LnbWorld.

Definition apply_bridge_locked (b : Q3U4Bridge) (w : LnbWorld) : LnbOutcome :=
  let '(s, hw) := w in
  let state := get (physical_state s) b in
  let desired_on := negb (ref_count_locked s b =? 0) in
  if lnb_disconnected state then (failure DISCONNECTED, w)
  else if (desired_on && bool_decide (state = LS_on))
          || (negb desired_on && bool_decide (state = LS_off) && negb (get (cleanup_debt s) b))
  then (success tt, w)
  else
    let '(result, hw) := set_lnb_power b desired_on hw in
    match result with
    | success _ => (success tt, (with_physical s b (if desired_on then LS_on else LS_off) false, hw))
    | failure e =>
        if bool_decide (e = DISCONNECTED)
        then (failure e, (with_physical s b LS_disconnected false, hw))
        else (failure e, (with_physical s b LS_unknown true, hw))
    end.

(** Both bridges, in order; the first error is the result. *)
Definition apply_both_locked (w : LnbWorld) : LnbOutcome :=
  let '(r1, w) := apply_bridge_locked dev1 w in
  let '(r2, w) := apply_bridge_locked dev2 w in
  let first := match r1 with failure e => e | success _ => OK end in
  let first := match r2 with
    | failure e => if bool_decide (first = OK) then e else first
    | success _ => first end in
  ((if bool_decide (first = OK) then success tt else failure first), w).

(** The result of a transaction that was undone. *)
Definition undone (applied restored : Result unit) : Result unit :=
  match restored with
  | failure DISCONNECTED => failure DISCONNECTED
  | _ => applied
  end.

Definition begin_tune (allow_15v : bool) (receiver voltage : Z) (w : LnbWorld) : LnbOutcome :=
  let '(s, hw) := w in
  if negb (valid_satellite_receiver receiver) || (negb (voltage =? 0) && negb (voltage =? 15))
  then (failure INVALID_ARGUMENT, w)
  else if (voltage =? 15) && negb allow_15v then (failure UNSUPPORTED, w)
  else if any_disconnected s then (failure DISCONNECTED, w)
  else
    let request := request_of s receiver in
    if pending request then (failure BUSY, w)
    else
      let s := set_request s receiver (set_pending_request request true (voltage =? 15)) in
      let b := bridge_for_receiver receiver in
      match apply_bridge_locked b (s, hw) with
      | (success _, w) => (success tt, w)
      | (failure e, (s, hw)) =>
          let request := request_of s receiver in
          let s := set_request s receiver (set_pending_request request false (pending_15v request)) in
          let '(restored, w) := apply_bridge_locked b (s, hw) in
          (undone (failure e) restored, w)
      end.

Definition set_independent_power (allow_15v on : bool) (w : LnbWorld) : LnbOutcome :=
  let '(s, hw) := w in
  if on && negb allow_15v then (failure UNSUPPORTED, w)
  else if on && any_disconnected s then (failure DISCONNECTED, w)
  else
    let previous := independent_15v s in
    match apply_both_locked (with_independent s on, hw) with
    | (success _, w) => (success tt, w)
    | (failure e, (s, hw)) =>
        if negb on then (failure e, (s, hw))
        else
          let '(restored, w) := apply_both_locked (with_independent s previous, hw) in
          (undone (failure e) restored, w)
    end.

Definition commit_tune (receiver : Z) (w : LnbWorld) : LnbOutcome :=
  let '(s, hw) := w in
  if negb (valid_satellite_receiver receiver) then (failure INVALID_ARGUMENT, w)
  else
    let request := request_of s receiver in
    if negb (pending request) then (failure INVALID_ARGUMENT, w)
    else (success tt, (set_request s receiver
      {| committed := true; committed_15v := pending_15v request;
         pending := false; pending_15v := pending_15v request |}, hw)).

Definition rollback_tune (receiver : Z) (w : LnbWorld) : LnbOutcome :=
  let '(s, hw) := w in
  if negb (valid_satellite_receiver receiver) then (failure INVALID_ARGUMENT, w)
  else
    let request := request_of s receiver in
    if negb (pending request) then (failure INVALID_ARGUMENT, w)
    else apply_bridge_locked (bridge_for_receiver receiver)
      (set_request s receiver (set_pending_request request false (pending_15v request)), hw).

Definition release_receiver (receiver : Z) (w : LnbWorld) : LnbOutcome :=
  let '(s, hw) := w in
  if negb (valid_satellite_receiver receiver) then (failure INVALID_ARGUMENT, w)
  else apply_bridge_locked (bridge_for_receiver receiver) (set_request s receiver no_request, hw).

Definition reconcile (w : LnbWorld) : LnbOutcome := apply_both_locked w.

Definition shutdown (w : LnbWorld) : LnbOutcome :=
  let '(s, hw) := w in
  let s := with_independent s false in
  let s := with_receivers s (replicate (length (receivers s)) no_request) in
  apply_both_locked (s, hw).

Definition disconnect (b : Q3U4Bridge) (w : LnbWorld) : LnbOutcome :=
  let '(s, hw) := w in
  if negb (valid_bridge b) then (failure INVALID_ARGUMENT, w)
  else
    let s := with_independent (with_physical s b LS_disconnected false) false in
    let first := first_receiver b in
    let s := set_request s first no_request in
    let s := set_request s (first + 1) no_request in
    (success tt, (s, hw)).

Definition snapshot (s : LnbState) : Q3U4LnbPowerSnapshot := {|
  snapshot_ref_count :=
    {| at_dev1 := ref_count_locked s dev1; at_dev2 := ref_count_locked s dev2 |};
  snapshot_physical_state := physical_state s;
  snapshot_cleanup_debt := cleanup_debt s;
|}.

(** The public operations. *)
Inductive LnbOp :=
  | BeginTune (receiver voltage : Z)
  | SetIndependent (on : bool)
  | CommitTune (receiver : Z)
  | RollbackTune (receiver : Z)
  | ReleaseReceiver (receiver : Z)
  | Reconcile
  | Shutdown
  | Disconnect (b : Q3U4Bridge).

Definition run_op (allow_15v : bool) (op : LnbOp) (w : LnbWorld) : LnbOutcome :=
  match op with
  | BeginTune receiver voltage => begin_tune allow_15v receiver voltage w
  | SetIndependent on => set_independent_power allow_15v on w
  | CommitTune receiver => commit_tune receiver w
  | RollbackTune receiver => rollback_tune receiver w
  | ReleaseReceiver receiver => release_receiver receiver w
  | Reconcile => reconcile w
  | Shutdown => shutdown w
  | Disconnect b => disconnect b w
  end.

Definition run_ops (allow_15v : bool) (ops : list LnbOp) (w : LnbWorld) : LnbWorld :=
  foldl (fun w op => (run_op allow_15v op w).2) w ops.
End Coordinator.

Arguments LnbWorld : clear implicits.
Arguments LnbOutcome : clear implicits.

(** * Lemmas *)

(** The logical part of the state. *)
Definition logical (s : LnbState) : list ReceiverRequest * bool := (receivers s, independent_15v s).

Section Facts.
Context {HW : Type} `{Q3U4LnbPower HW}.

Lemma apply_bridge_logical b (w : LnbWorld HW) :
  logical (apply_bridge_locked b w).2.1 = logical w.1.
Proof.
  destruct w as [s hw]. unfold apply_bridge_locked.
  destruct (lnb_disconnected _); [done|]. destruct (_ || _); [done|].
  destruct (set_lnb_power _ _ _) as [[u|e] hw']; [done|]. by case_bool_decide.
Qed.

Lemma apply_both_logical (w : LnbWorld HW) : logical (apply_both_locked w).2.1 = logical w.1.
Proof.
  unfold apply_both_locked. pose proof (apply_bridge_logical dev1 w) as L1.
  destruct (apply_bridge_locked dev1 w) as [r1 w1].
  pose proof (apply_bridge_logical dev2 w1) as L2.
  destruct (apply_bridge_locked dev2 w1) as [r2 w2]. simpl in *. congruence.
Qed.

(** What every operation keeps. *)
Section Preservation.
Variable P : LnbWorld HW -> Prop.
Hypothesis P_bridge : forall b w, valid_bridge b = true -> P w -> P (apply_bridge_locked b w).2.

Lemma apply_both_preserves w : P w -> P (apply_both_locked w).2.
Proof.
  intros Pw. unfold apply_both_locked. pose proof (P_bridge dev1 w eq_refl Pw) as P1.
  destruct (apply_bridge_locked dev1 w) as [r1 w1].
  pose proof (P_bridge dev2 w1 eq_refl P1) as P2.
  by destruct (apply_bridge_locked dev2 w1) as [r2 w2].
Qed.

Lemma bridge_for_receiver_valid i : valid_bridge (bridge_for_receiver i) = true.
Proof. unfold bridge_for_receiver. by destruct (_ <? _). Qed.

(** Changes of the requests, by a predicate on the requests an operation may install. *)
Variable Q : ReceiverRequest -> Prop.
Variable R : bool -> Prop.
Hypothesis P_request : forall s hw i r, Q r -> P (s, hw) -> P (set_request s i r, hw).
Hypothesis P_independent : forall s hw v, R v -> P (s, hw) -> P (with_independent s v, hw).
Hypothesis P_request_of : forall s hw i, P (s, hw) -> Q (request_of s i) /\ R (independent_15v s).
Hypothesis P_clear : forall s hw,
  P (s, hw) -> P (with_receivers s (replicate (length (receivers s)) no_request), hw).
Hypothesis Q_none : Q no_request.
Hypothesis Q_idle : forall r, Q r -> Q (set_pending_request r false (pending_15v r)).
Hypothesis Q_commit : forall r, Q r ->
  Q {| committed := true; committed_15v := pending_15v r; pending := false; pending_15v := pending_15v r |}.
Hypothesis R_false : R false.
Hypothesis P_lost : forall s hw b, valid_bridge b = true -> P (s, hw) ->
  P (with_physical s b LS_disconnected false, hw).

Lemma lnb_op_preserves allow op w :
  (forall r v15, (v15 = true -> allow = true) -> Q r -> Q (set_pending_request r true v15)) ->
  (forall on, (on = true -> allow = true) -> R on) ->
  P w -> P (run_op allow op w).2.
Proof.
  intros Qb Rb Pw. destruct w as [s hw]. destruct op as [i v|on|i|i|i| | |b]; unfold run_op.
  - unfold begin_tune. cbv zeta. case_match; [done|].
    destruct ((v =? 15) && negb allow) eqn:A; [done|]. case_match; [done|]. case_match; [done|].
    match goal with |- context [apply_bridge_locked ?b (?s1, hw)] =>
      assert (P (s1, hw)) as P1;
      [apply P_request; [|done]; apply Qb; [by intros E; rewrite E in A; destruct allow|
        by apply (P_request_of s hw)]|
       pose proof (P_bridge b _ (bridge_for_receiver_valid i) P1) as P2;
       destruct (apply_bridge_locked b (s1, hw)) as [[u|e] [s2 hw2]]; [done|]] end.
    match goal with |- context [apply_bridge_locked ?b (?s3, hw2)] =>
      assert (P (s3, hw2)) as P3;
      [apply P_request; [|done]; apply Q_idle; by apply (P_request_of s2 hw2)|
       pose proof (P_bridge b _ (bridge_for_receiver_valid i) P3) as P4;
       by destruct (apply_bridge_locked b (s3, hw2)) as [r4 w4]] end.
  - unfold set_independent_power. cbv zeta. destruct (on && negb allow) eqn:A; [done|]. case_match; [done|].
    assert (P (with_independent s on, hw)) as P1.
    { apply P_independent; [|done]. apply Rb. intros E. rewrite E in A. by destruct allow. }
    pose proof (apply_both_preserves _ P1) as P2.
    destruct (apply_both_locked (with_independent s on, hw)) as [[u|e] [s2 hw2]]; [done|].
    case_match; [done|].
    assert (P (with_independent s2 (independent_15v s), hw2)) as P3.
    { apply P_independent; [|done]. by apply (P_request_of s hw 0). }
    pose proof (apply_both_preserves _ P3) as P4. by destruct (apply_both_locked _) as [r4 w4].
  - unfold commit_tune. cbv zeta. repeat (case_match; try done). apply P_request; [|done].
    apply Q_commit. by apply (P_request_of s hw).
  - unfold rollback_tune. cbv zeta. repeat (case_match; try done).
    apply P_bridge; [apply bridge_for_receiver_valid|]. apply P_request; [|done].
    apply Q_idle. by apply (P_request_of s hw).
  - unfold release_receiver. case_match; [done|].
    apply P_bridge; [apply bridge_for_receiver_valid|]. by apply P_request.
  - by apply apply_both_preserves.
  - unfold shutdown. cbv zeta. apply apply_both_preserves.
    apply (P_clear (with_independent s false) hw). by apply P_independent.
  - unfold disconnect. cbv zeta. destruct (valid_bridge b) eqn:V; [|done]. simpl.
    apply P_request; [done|]. apply P_request; [done|]. apply P_independent; [done|]. by apply P_lost.
Qed.

Lemma lnb_ops_preserve allow ops w :
  (forall r v15, (v15 = true -> allow = true) -> Q r -> Q (set_pending_request r true v15)) ->
  (forall on, (on = true -> allow = true) -> R on) ->
  P w -> P (run_ops allow ops w).
Proof.
  intros Qb Rb. revert w. induction ops as [|op ops IH]; intros w Pw; [done|].
  apply IH. by apply lnb_op_preserves.
Qed.
End Preservation.
End Facts.

(** * Theorems *)

(** ** The 15 V permission *)

(** The hardware with a record of the writes. *)
#[export] Instance Logged_lnb {HW} `{Q3U4LnbPower HW} : Q3U4LnbPower (Logged HW) := {
  set_lnb_power b on hw :=
    let '(r, hw') := set_lnb_power b on hw.1 in (r, (hw', hw.2 ++ [(b, on)]));
}.

Lemma request_of_Forall (P : ReceiverRequest -> Prop) s i :
  P no_request -> Forall P (receivers s) -> P (request_of s i).
Proof.
  intros N F. unfold request_of. rewrite nth_lookup.
  destruct (receivers s !! Z.to_nat i) as [r|] eqn:E; [|done].
  by apply (Forall_lookup_1 _ _ _ _ F E).
Qed.

Lemma set_request_Forall (P : ReceiverRequest -> Prop) s i r :
  P r -> Forall P (receivers s) -> Forall P (receivers (set_request s i r)).
Proof. intros Pr F. by apply Forall_insert. Qed.

Section Permission.
Context {HW : Type} `{Q3U4LnbPower HW}.

(** No request for 15 V, pending or committed. *)
Definition asks_0v (r : ReceiverRequest) : Prop := committed_15v r = false /\ pending_15v r = false.

Definition unpowered (w : LnbWorld (Logged HW)) : Prop :=
  Forall asks_0v (receivers w.1) /\ independent_15v w.1 = false /\
  Forall (fun e => e.2 = false) w.2.2.

Lemma ref_count_unpowered s b :
  Forall asks_0v (receivers s) -> independent_15v s = false -> ref_count_locked s b = 0.
Proof.
  intros F I. unfold ref_count_locked. rewrite I.
  assert (forall i, enabled (request_of s i) = false) as E.
  { intros i. apply (request_of_Forall (fun r => enabled r = false)); [done|].
    eapply Forall_impl; [exact F|]. intros r [C P]. unfold enabled. rewrite C, P, andb_false_r.
    by destruct (pending r). }
  cbn [foldl]. by rewrite !E.
Qed.

Lemma apply_bridge_unpowered b w : unpowered w -> unpowered (apply_bridge_locked b w).2.
Proof.
  destruct w as [s [hw lg]]. intros (F & I & L). cbn [fst snd] in *.
  unfold apply_bridge_locked. cbv zeta. rewrite (ref_count_unpowered s b F I).
  destruct (lnb_disconnected _); [done|]. destruct (_ || _); [done|].
  cbn [set_lnb_power Logged_lnb fst snd Z.eqb negb].
  assert (Forall (fun e : Q3U4Bridge * bool => e.2 = false) (lg ++ [(b, false)])) as L'.
  { apply Forall_app. split; [done|]. by constructor. }
  destruct (set_lnb_power b false hw) as [[u|e] hw']; [done|]. by case_bool_decide.
Qed.

(** C35 A coordinator without the 15 V permission never switches a supply on,
    whatever is requested of it and however the hardware fails. *)
Theorem no_15v_without_permission ops (hw : HW) :
  Forall (fun e => e.2 = false) (run_ops false ops (init_lnb, (hw, []) : Logged HW)).2.2.
Proof.
  enough (unpowered (run_ops false ops (init_lnb, (hw, []) : Logged HW))) as U by apply U.
  apply (lnb_ops_preserve unpowered) with (Q := asks_0v) (R := fun v => v = false).
  - intros. by apply apply_bridge_unpowered.
  - intros s h i r Qr (F & I & L). split; [|done]. by apply set_request_Forall.
  - intros s h v -> (F & I & L). done.
  - intros s h i (F & I & L). split; [|done]. by apply request_of_Forall.
  - intros s h (F & I & L). split; [|done]. by apply Forall_replicate.
  - done.
  - by intros r [C P].
  - by intros r [C P].
  - done.
  - by intros s h b _ U.
  - intros r v15 A [C P]. split; [done|]. simpl. destruct v15; [by specialize (A eq_refl)|done].
  - intros [] A; [by specialize (A eq_refl)|done].
  - split; [|done]. by apply Forall_replicate.
Qed.
End Permission.

(** ** The recorded state and the hardware *)

Section Ledger.
Context {HW : Type} `{LnbPowerLaws HW}.

Definition ledger (w : LnbWorld HW) : Prop :=
  forall b, valid_bridge b = true ->
    (get (physical_state w.1) b = LS_on -> lnb_on w.2 b = true) /\
    (get (physical_state w.1) b = LS_off -> lnb_on w.2 b = false) /\
    (get (cleanup_debt w.1) b = true <-> get (physical_state w.1) b = LS_unknown).

Lemma apply_bridge_ledger b w :
  valid_bridge b = true -> ledger w -> ledger (apply_bridge_locked b w).2.
Proof.
  intros V A. destruct w as [s hw]. unfold apply_bridge_locked. cbv zeta.
  destruct (lnb_disconnected _); [done|]. destruct (_ || _); [done|].
  set (on := negb (ref_count_locked s b =? 0)).
  pose proof (set_lnb_success b on hw V) as E.
  assert (forall b', valid_bridge b' = true -> b' <> b ->
    lnb_on (set_lnb_power b on hw).2 b' = lnb_on hw b') as O.
  { intros b' V' N. by apply set_lnb_other. }
  destruct (set_lnb_power b on hw) as [r hw']. cbn [fst snd] in *.
  assert (forall p d, ledger (with_physical s b p d, hw') <->
    (p = LS_on -> lnb_on hw' b = true) /\ (p = LS_off -> lnb_on hw' b = false) /\
    (d = true <-> p = LS_unknown)) as Step.
  { intros p d. split.
    - intros L. specialize (L b V). simpl in L. by rewrite !get_set_eq in L.
    - intros L b' V'. simpl. destruct (decide (b' = b)) as [->|N].
      + by rewrite !get_set_eq.
      + rewrite !get_set_other by congruence. rewrite O by done. by apply A. }
  destruct r as [[]|e].
  - apply Step. rewrite E by done. by destruct on.
  - by case_bool_decide; apply Step.
Qed.

(** The coordinator never has a wrong idea of a supply, and owes a cleanup write
    exactly to the bridges whose supply it does not know. *)
Theorem lnb_ledger_holds allow ops hw :
  lnb_on hw dev1 = false -> lnb_on hw dev2 = false -> ledger (run_ops allow ops (init_lnb, hw)).
Proof.
  intros P1 P2.
  apply (lnb_ops_preserve ledger) with (Q := fun _ => True) (R := fun _ => True); try done.
  - intros. by apply apply_bridge_ledger.
  - intros s h b V L b' V'. simpl. destruct (decide (b' = b)) as [->|N].
    + by rewrite !get_set_eq.
    + rewrite !get_set_other by congruence. by apply L.
  - intros b V. simpl. by destruct b.
Qed.
End Ledger.

(** ** Transactions *)

(** What a receiver asks for: its settled request, and the one of an open
    transaction. *)
Definition tune_state (r : ReceiverRequest) : bool * option bool :=
  (committed r && committed_15v r, if pending r then Some (pending_15v r) else None).
Definition tunes (s : LnbState) (i : Z) : bool * option bool := tune_state (request_of s i).

Definition update (f : Z -> bool * option bool) (j : Z) (v : bool * option bool) (i : Z)
  : bool * option bool := if i =? j then v else f i.

(** The specification: what an operation makes of the transactions and of the
    independent request, given whether it succeeded. *)
Definition spec_tunes (op : LnbOp) (ok : bool) (f : Z -> bool * option bool) (independent : bool)
  : (Z -> bool * option bool) * bool :=
  match op with
  | BeginTune i v => (if ok then update f i ((f i).1, Some (v =? 15)) else f, independent)
  | SetIndependent on => (f, if ok then on else if on then independent else false)
  | CommitTune i => (if ok then update f i (default (f i).1 (f i).2, None) else f, independent)
  | RollbackTune i =>
      (if valid_satellite_receiver i then update f i ((f i).1, None) else f, independent)
  | ReleaseReceiver i =>
      (if valid_satellite_receiver i then update f i (false, None) else f, independent)
  | Reconcile => (f, independent)
  | Shutdown => (fun _ => (false, None), false)
  | Disconnect b =>
      if valid_bridge b
      then (update (update f (first_receiver b) (false, None)) (first_receiver b + 1) (false, None), false)
      else (f, independent)
  end.

Lemma valid_receiver_range i : valid_satellite_receiver i = true -> 0 <= i < 8.
Proof.
  unfold valid_satellite_receiver. rewrite !orb_true_iff, !Z.eqb_eq. lia.
Qed.

Lemma request_of_set s i j r :
  length (receivers s) = 8%nat -> 0 <= i < 8 -> 0 <= j < 8 ->
  request_of (set_request s j r) i = if i =? j then r else request_of s i.
Proof.
  intros Len Hi Hj. unfold request_of, set_request. cbn [receivers with_receivers].
  rewrite !nth_lookup. destruct (Z.eqb_spec i j) as [->|N].
  - by rewrite list_lookup_insert_eq by lia.
  - by rewrite list_lookup_insert_ne by lia.
Qed.

Lemma tunes_set s i j r :
  length (receivers s) = 8%nat -> 0 <= i < 8 -> 0 <= j < 8 ->
  tunes (set_request s j r) i = update (tunes s) j (tune_state r) i.
Proof.
  intros. unfold tunes, update. rewrite request_of_set by done. by destruct (i =? j).
Qed.

Lemma length_set_request s i r : length (receivers (set_request s i r)) = length (receivers s).
Proof. apply length_insert. Qed.

Lemma tunes_logical s s' : logical s' = logical s ->
  (forall i, tunes s' i = tunes s i) /\ independent_15v s' = independent_15v s /\
  length (receivers s') = length (receivers s) /\ forall i, request_of s' i = request_of s i.
Proof. unfold logical, tunes, request_of. intros E. injection E as -> ->. done. Qed.

Section Transactions.
Context {HW : Type} `{Q3U4LnbPower HW}.
Implicit Types w : LnbWorld HW.

Lemma begin_tune_transaction allow j v s hw i :
  length (receivers s) = 8%nat -> 0 <= i < 8 ->
  let r := begin_tune allow j v (s, hw) in
  tunes r.2.1 i = (spec_tunes (BeginTune j v) (is_success r.1) (tunes s) (independent_15v s)).1 i /\
  independent_15v r.2.1 = independent_15v s.
Proof.
  intros Len Hi. unfold begin_tune. cbv zeta.
  destruct (valid_satellite_receiver j) eqn:V; [|done]. apply valid_receiver_range in V.
  simpl negb. cbn [orb]. case_match; [done|]. case_match; [done|]. case_match; [done|].
  destruct (pending (request_of s j)) eqn:Pj; [done|].
  set (s1 := set_request s j _). pose proof (apply_bridge_logical (bridge_for_receiver j) (s1, hw)) as L1.
  destruct (apply_bridge_locked (bridge_for_receiver j) (s1, hw)) as [[u|e] [s2 hw2]];
    cbn [fst snd] in *; destruct (tunes_logical _ _ L1) as (T1 & I1 & N1 & R1).
  - split; [|exact I1]. rewrite T1. unfold s1. rewrite tunes_set by done. done.
  - set (s3 := set_request s2 j _). pose proof (apply_bridge_logical (bridge_for_receiver j) (s3, hw2)) as L3.
    destruct (apply_bridge_locked (bridge_for_receiver j) (s3, hw2)) as [r4 [s4 hw4]].
    cbn [fst snd] in *. destruct (tunes_logical _ _ L3) as (T3 & I3 & N3 & R3).
    assert (is_success (undone (failure e) r4) = false) as ->.
    { destruct r4 as [|e4]; [done|]. by destruct e4. }
    split; [|by rewrite I3]. simpl. rewrite T3. unfold s3.
    rewrite tunes_set by (rewrite ?N1; unfold s1; rewrite ?length_set_request; done).
    unfold update. rewrite T1. unfold s1. rewrite tunes_set by done. unfold update.
    destruct (Z.eqb_spec i j) as [->|N]; [|done].
    rewrite R1. unfold s1. rewrite request_of_set, Z.eqb_refl by done.
    unfold tunes, tune_state. cbn. by rewrite Pj.
Qed.


Lemma set_independent_transaction allow on s hw :
  let r := set_independent_power allow on (s, hw) in
  (forall i, tunes r.2.1 i = tunes s i) /\
  independent_15v r.2.1 = (if is_success r.1 then on else if on then independent_15v s else false).
Proof.
  unfold set_independent_power. cbv zeta.
  destruct (on && negb allow) eqn:A; [by destruct on|].
  destruct (on && any_disconnected s) eqn:D; [by destruct on|].
  pose proof (apply_both_logical (with_independent s on, hw)) as L1.
  destruct (apply_both_locked (with_independent s on, hw)) as [[u|e] [s2 hw2]];
    cbn [fst snd] in *; destruct (tunes_logical _ _ L1) as (T1 & I1 & _).
  - split; [exact T1|exact I1].
  - destruct on; [|split; [exact T1|exact I1]]. cbn [negb].
    pose proof (apply_both_logical (with_independent s2 (independent_15v s), hw2)) as L3.
    destruct (apply_both_locked (with_independent s2 (independent_15v s), hw2)) as [r4 [s4 hw4]].
    cbn [fst snd] in *. destruct (tunes_logical _ _ L3) as (T3 & I3 & _).
    assert (is_success (undone (failure e) r4) = false) as ->.
    { destruct r4 as [|e4]; [done|]. by destruct e4. }
    split; [|exact I3]. intros i. rewrite T3. exact (T1 i).
Qed.

(** The tail of the operations that change a request and apply the bridge. *)
Lemma apply_changed_request j r b s hw i :
  length (receivers s) = 8%nat -> 0 <= i < 8 -> 0 <= j < 8 ->
  let o := apply_bridge_locked b (set_request s j r, hw) in
  tunes o.2.1 i = update (tunes s) j (tune_state r) i /\ independent_15v o.2.1 = independent_15v s.
Proof.
  intros Len Hi Hj. pose proof (apply_bridge_logical b (set_request s j r, hw)) as L1.
  destruct (tunes_logical _ _ L1) as (T1 & I1 & _). cbv zeta. rewrite T1, I1.
  split; [|done]. by apply tunes_set.
Qed.

(** C37 Tuning is transactional, on every path of every operation: a failed
    [begin_tune] changes no request, commit settles the open request, rollback
    returns to the settled one, whatever the supply answers, and no operation
    touches another receiver's request. *)
Theorem tunes_transactional allow op w i :
  length (receivers w.1) = 8%nat -> 0 <= i < 8 ->
  let r := run_op allow op w in
  let spec := spec_tunes op (is_success r.1) (tunes w.1) (independent_15v w.1) in
  tunes r.2.1 i = spec.1 i /\ independent_15v r.2.1 = spec.2.
Proof.
  intros Len Hi. destruct w as [s hw]. cbn [fst] in *.
  assert (forall j, negb (pending (request_of s j)) = true -> update (tunes s) j ((tunes s j).1, None) i = tunes s i) as Idle.
  { intros j Pj. unfold update. destruct (Z.eqb_spec i j) as [->|]; [|done].
    unfold tunes, tune_state. cbn. apply negb_true_iff in Pj. by rewrite Pj. }
  destruct op as [j v|on|j|j|j| | |b]; unfold run_op.
  - by apply begin_tune_transaction.
  - destruct (set_independent_transaction allow on s hw) as [T I]. split; [apply T|exact I].
  - unfold commit_tune. cbv zeta. destruct (valid_satellite_receiver j) eqn:V; [|done].
    apply valid_receiver_range in V. cbn [negb]. destruct (pending (request_of s j)) eqn:Pj; [|done].
    cbn [negb fst snd is_success spec_tunes]. split; [|done]. rewrite tunes_set by done.
    unfold update. destruct (Z.eqb_spec i j) as [->|]; [|done].
    unfold tunes, tune_state. cbn. by rewrite Pj.
  - unfold rollback_tune. cbv zeta. destruct (valid_satellite_receiver j) eqn:V; cbn [negb];
      cbn [spec_tunes fst snd]; rewrite V; [|done]. apply valid_receiver_range in V.
    specialize (Idle j). destruct (pending (request_of s j)) eqn:Pj; cbn [negb];
      [|by rewrite Idle].
    apply (apply_changed_request j (set_pending_request (request_of s j) false (pending_15v (request_of s j))));
      done.
  - unfold release_receiver. cbv zeta. destruct (valid_satellite_receiver j) eqn:V; cbn [negb];
      cbn [spec_tunes fst snd]; rewrite V; [|done]. apply valid_receiver_range in V.
    by apply (apply_changed_request j no_request).
  - destruct (tunes_logical _ _ (apply_both_logical (s, hw))) as (T & I & _).
    unfold reconcile. rewrite T, I. done.
  - unfold shutdown. cbv zeta. match goal with |- context [apply_both_locked ?w] =>
      destruct (tunes_logical _ _ (apply_both_logical w)) as (T & I & _) end.
    rewrite T, I. cbn. split; [|done]. unfold tunes, request_of. cbn. rewrite nth_lookup.
    destruct (replicate _ _ !! _) eqn:E; [|done]. by apply lookup_replicate in E as [-> _].
  - unfold disconnect. cbv zeta. destruct (valid_bridge b) eqn:V; cbn [negb spec_tunes fst snd];
      rewrite V; [|done]. assert (first_receiver b = 0 \/ first_receiver b = 4) as F.
    { unfold first_receiver. case_bool_decide; auto. }
    split; [|done]. cbn [fst]. rewrite tunes_set by (rewrite ?length_set_request; done || lia).
    unfold update. destruct (i =? first_receiver b + 1); [done|].
    rewrite tunes_set by (done || lia). done.
Qed.
End Transactions.

(** ** Physical effect *)

Section Effect.
Context {HW : Type} `{LnbPowerLaws HW}.
Implicit Types w : LnbWorld HW.

(** The bridge is recorded, and by the ledger is, as the requests ask. *)
Definition settled (w : LnbWorld HW) (b : Q3U4Bridge) : Prop :=
  get (physical_state w.1) b = (if ref_count_locked w.1 b =? 0 then LS_off else LS_on) /\
  get (cleanup_debt w.1) b = false.

Lemma apply_bridge_other b b' w :
  valid_bridge b = true -> valid_bridge b' = true -> b' <> b ->
  get (physical_state (apply_bridge_locked b w).2.1) b' = get (physical_state w.1) b' /\
  get (cleanup_debt (apply_bridge_locked b w).2.1) b' = get (cleanup_debt w.1) b'.
Proof.
  intros V V' N. destruct w as [s hw]. unfold apply_bridge_locked. cbv zeta.
  destruct (lnb_disconnected _); [done|]. destruct (_ || _); [done|].
  destruct (set_lnb_power _ _ _) as [[u|e] hw']; [|case_bool_decide]; simpl;
    by rewrite !get_set_other by congruence.
Qed.

Lemma ref_count_logical s s' b : logical s' = logical s -> ref_count_locked s' b = ref_count_locked s b.
Proof.
  intros L. destruct (tunes_logical _ _ L) as (_ & I & _ & R). unfold ref_count_locked.
  cbn [foldl]. by rewrite I, !R.
Qed.

Lemma apply_bridge_success b w :
  valid_bridge b = true -> ledger w ->
  (apply_bridge_locked b w).1 = success tt -> settled (apply_bridge_locked b w).2 b.
Proof.
  intros V A E. unfold settled. rewrite (ref_count_logical w.1) by apply apply_bridge_logical.
  revert E. destruct (A b V) as (_ & _ & D). destruct w as [s hw]. cbn [fst snd] in *.
  unfold apply_bridge_locked, lnb_disconnected. cbv zeta. case_bool_decide; [done|].
  destruct (ref_count_locked s b =? 0); cbn [negb andb orb].
  - destruct (bool_decide (get (physical_state s) b = LS_off)) eqn:P; cbn [andb].
    + apply bool_decide_eq_true in P. destruct (get (cleanup_debt s) b) eqn:C; cbn [negb].
      * rewrite P in D. destruct D as [D _]. by specialize (D eq_refl).
      * intros _. done.
    + destruct (set_lnb_power b false hw) as [[u|e] hw']; [|by destruct (bool_decide (e = _))].
      intros _. simpl. by rewrite !get_set_eq.
  - destruct (bool_decide (get (physical_state s) b = LS_on)) eqn:P; cbn [andb orb].
    + apply bool_decide_eq_true in P. intros _. simpl. split; [done|].
      apply not_true_is_false. intros C. apply D in C. congruence.
    + destruct (set_lnb_power b true hw) as [[u|e] hw']; [|by destruct (bool_decide (e = _))].
      intros _. simpl. by rewrite !get_set_eq.
Qed.

Lemma settled_other b b' w :
  valid_bridge b = true -> valid_bridge b' = true -> b' <> b ->
  settled w b' -> settled (apply_bridge_locked b w).2 b'.
Proof.
  intros V V' N [S1 S2]. destruct (apply_bridge_other b b' w V V' N) as [P D].
  unfold settled. rewrite P, D. by rewrite (ref_count_logical w.1) by apply apply_bridge_logical.
Qed.

(** A failed result carries an error. *)
Definition errors_are_errors : Prop := forall b on (hw : HW), (set_lnb_power b on hw).1 <> failure OK.

Lemma apply_bridge_error b w : errors_are_errors -> (apply_bridge_locked b w).1 <> failure OK.
Proof.
  intros N. destruct w as [s hw]. unfold apply_bridge_locked. cbv zeta.
  destruct (lnb_disconnected _); [done|]. destruct (_ || _); [done|].
  specialize (N b (negb (ref_count_locked s b =? 0)) hw).
  destruct (set_lnb_power _ _ _) as [[u|e] hw']; [done|]. case_bool_decide; by simpl in *.
Qed.

Lemma apply_both_success w b :
  errors_are_errors -> valid_bridge b = true -> ledger w ->
  (apply_both_locked w).1 = success tt -> settled (apply_both_locked w).2 b.
Proof.
  intros N V A. unfold apply_both_locked.
  pose proof (apply_bridge_success dev1 w eq_refl A) as S1.
  pose proof (apply_bridge_ledger dev1 w eq_refl A) as A1.
  pose proof (apply_bridge_error dev1 w N) as E1.
  destruct (apply_bridge_locked dev1 w) as [r1 w1]. cbn [fst snd] in *.
  pose proof (apply_bridge_success dev2 w1 eq_refl A1) as S2.
  pose proof (settled_other dev2 dev1 w1 eq_refl eq_refl (ltac:(done))) as O.
  pose proof (apply_bridge_error dev2 w1 N) as E2.
  destruct (apply_bridge_locked dev2 w1) as [r2 w2]. cbn [fst snd] in *. cbv zeta.
  destruct r1 as [[]|e1], r2 as [[]|e2]; repeat case_bool_decide; try congruence; try done.
  intros _. destruct b; [|by apply S2|done]. apply O. by apply S1.
Qed.

(** The bridges an operation brings up to date. *)
Definition op_bridge (op : LnbOp) (b : Q3U4Bridge) : bool :=
  match op with
  | BeginTune i _ | RollbackTune i | ReleaseReceiver i => bool_decide (b = bridge_for_receiver i)
  | SetIndependent _ | Reconcile | Shutdown => valid_bridge b
  | CommitTune _ | Disconnect _ => false
  end.

(** An operation that reports success leaves its bridges exactly as the requests
    ask: 15 V while a request for it is effective, off otherwise, no debt. *)
Theorem lnb_success_settles allow op w b :
  errors_are_errors -> ledger w -> op_bridge op b = true ->
  (run_op allow op w).1 = success tt -> settled (run_op allow op w).2 b.
Proof.
  intros N A B. destruct w as [s hw].
  assert (forall i s', physical_state s' = physical_state s -> cleanup_debt s' = cleanup_debt s ->
    bool_decide (b = bridge_for_receiver i) = true ->
    (apply_bridge_locked (bridge_for_receiver i) (s', hw)).1 = success tt ->
    settled (apply_bridge_locked (bridge_for_receiver i) (s', hw)).2 b) as One.
  { intros i s' P D E. apply bool_decide_eq_true in E as ->.
    apply apply_bridge_success; [apply bridge_for_receiver_valid|].
    intros b' V'. simpl. rewrite P, D. by apply A. }
  assert (forall s', physical_state s' = physical_state s -> cleanup_debt s' = cleanup_debt s ->
    valid_bridge b = true -> (apply_both_locked (s', hw)).1 = success tt ->
    settled (apply_both_locked (s', hw)).2 b) as Both.
  { intros s' P D V. apply apply_both_success; [done..|].
    intros b' V'. simpl. rewrite P, D. by apply A. }
  destruct op as [i v|on|i|i|i| | |b']; unfold run_op; cbn [op_bridge] in B; try done.
  - unfold begin_tune. cbv zeta. repeat (case_match; [done|]).
    set (s1 := set_request s i _). specialize (One i s1 eq_refl eq_refl B).
    destruct (apply_bridge_locked _ (s1, hw)) as [[[]|e] [s2 hw2]]; [exact One|].
    destruct (apply_bridge_locked _ _) as [[[]|[]] w4]; done.
  - unfold set_independent_power. cbv zeta. repeat (case_match; [done|]).
    specialize (Both (with_independent s on) eq_refl eq_refl B).
    destruct (apply_both_locked (with_independent s on, hw)) as [[[]|e] [s2 hw2]]; [exact Both|].
    destruct on; [|done]. cbn [negb].
    destruct (apply_both_locked _) as [[[]|[]] w4]; done.
  - unfold rollback_tune. cbv zeta. repeat (case_match; [done|]). by apply One.
  - unfold release_receiver. cbv zeta. case_match; [done|]. by apply One.
  - unfold reconcile. by apply Both.
  - unfold shutdown. cbv zeta. by apply Both.
Qed.

Lemma apply_bridge_off b w :
  valid_bridge b = true -> ledger w -> ref_count_locked w.1 b = 0 ->
  get (physical_state w.1) b <> LS_disconnected ->
  (forall hw, (set_lnb_power b false hw).1 = success tt) ->
  (apply_bridge_locked b w).1 = success tt.
Proof.
  intros V A Z0 C E. destruct w as [s hw]. cbn [fst snd] in *.
  unfold apply_bridge_locked, lnb_disconnected. cbv zeta. rewrite Z0.
  rewrite bool_decide_false by done. destruct (_ || _); [done|].
  cbn [Z.eqb negb]. specialize (E hw).
  by destruct (set_lnb_power b false hw) as [[[]|e] hw'].
Qed.

(** Shutting down switches off the supply of every bridge that still answers,
    also when the other bridge is lost or fails. *)
Theorem shutdown_reaches_sibling b w :
  valid_bridge b = true -> ledger w -> get (physical_state w.1) b <> LS_disconnected ->
  (forall hw, (set_lnb_power b false hw).1 = success tt) ->
  get (physical_state (shutdown w).2.1) b = LS_off /\ lnb_on (shutdown w).2.2 b = false.
Proof.
  intros V A C E. destruct w as [s hw]. cbn [fst snd] in *.
  assert (ledger (shutdown (s, hw)).2) as A'.
  { unfold shutdown. cbv zeta. apply apply_both_preserves; [|done]. intros. by apply apply_bridge_ledger. }
  enough (get (physical_state (shutdown (s, hw)).2.1) b = LS_off) as P
    by (split; [done|]; by apply A').
  clear A'. unfold shutdown. cbv zeta. set (s0 := with_receivers _ _).
  assert (Z0 : forall s', logical s' = logical s0 -> ref_count_locked s' b = 0).
  { intros s' L. rewrite (ref_count_logical s0) by done. apply ref_count_unpowered; [|done].
    by apply Forall_replicate. }
  assert (ledger (s0, hw)) as A0 by exact A.
  unfold apply_both_locked.
  pose proof (apply_bridge_ledger dev1 (s0, hw) eq_refl A0) as A1.
  pose proof (apply_bridge_logical dev1 (s0, hw)) as L1.
  assert (b = dev1 -> settled (apply_bridge_locked dev1 (s0, hw)).2 dev1) as S1.
  { intros ->. apply apply_bridge_success; [done..|]. apply apply_bridge_off; try done.
    by apply Z0. }
  assert (b = dev2 -> get (physical_state (apply_bridge_locked dev1 (s0, hw)).2.1) dev2 <> LS_disconnected) as C1.
  { intros ->. by rewrite (proj1 (apply_bridge_other dev1 dev2 (s0, hw) eq_refl eq_refl (ltac:(done)))). }
  destruct (apply_bridge_locked dev1 (s0, hw)) as [r1 w1]. cbn [fst snd] in *.
  pose proof (settled_other dev2 dev1 w1 eq_refl eq_refl (ltac:(done))) as O.
  assert (b = dev2 -> settled (apply_bridge_locked dev2 w1).2 dev2) as S2.
  { intros ->. apply apply_bridge_success; [done..|]. apply apply_bridge_off; try done.
    - by apply Z0.
    - by apply C1. }
  pose proof (apply_bridge_logical dev2 w1) as L2.
  destruct (apply_bridge_locked dev2 w1) as [r2 w2]. cbn [fst snd] in *.
  assert (settled w2 b) as [P _].
  { destruct b; [apply O; by apply S1|by apply S2|done]. }
  rewrite P, Z0; [done|]. congruence.
Qed.
End Effect.

(** * Instances *)

#[export] Instance Scripted_lnb : Q3U4LnbPower ScriptedHW := {
  set_lnb_power := set_backend_power;
}.
#[export] Program Instance Scripted_lnb_laws : LnbPowerLaws ScriptedHW := {
  lnb_on hw b := get hw.1 b;
}.
Next Obligation. intros b on hw. exact (set_power_success b on hw). Qed.
Next Obligation. intros b b' on hw. exact (set_power_other b b' on hw). Qed.

Lemma lnb_ledger_holds_witness :
  ledger (run_ops true [BeginTune 0 15; CommitTune 0; BeginTune 5 15; Shutdown]
    (init_lnb, (cold, [None; Some TIMEOUT; Some USB_IO; Some USB_IO]) : ScriptedHW)).
Proof. apply lnb_ledger_holds; reflexivity. Defined.

Lemma tunes_transactional_witness :
  let w : LnbWorld ScriptedHW := (init_lnb, (cold, [Some TIMEOUT])) in
  (run_op true (BeginTune 4 15) w).1 = failure TIMEOUT /\
  tunes (run_op true (BeginTune 4 15) w).2.1 4 = (false, None).
Proof.
  intros w. split; [reflexivity|].
  refine (proj1 (tunes_transactional true (BeginTune 4 15) w 4 _ _)); [reflexivity|lia].
Defined.

(** A supply that always obeys. *)
Definition ObedientHW : Type := PerBridge bool.
#[export] Instance Obedient_lnb : Q3U4LnbPower ObedientHW := {
  set_lnb_power b on hw := (success tt, set hw b on);
}.
#[export] Program Instance Obedient_laws : LnbPowerLaws ObedientHW := {
  lnb_on hw b := get hw b;
}.
Next Obligation. intros. apply get_set_eq. Qed.
Next Obligation. intros. by apply get_set_other. Qed.

Lemma init_ledger : ledger (init_lnb, cold : ObedientHW).
Proof. intros b V. destruct b; done. Qed.

Lemma lnb_success_settles_witness :
  settled (run_op true (BeginTune 4 15) (init_lnb, cold : ObedientHW)).2 dev2 /\
  get (physical_state (run_op true (BeginTune 4 15) (init_lnb, cold : ObedientHW)).2.1) dev2 = LS_on.
Proof.
  split; [|reflexivity]. apply lnb_success_settles;
    [intros b on hw; discriminate|exact init_ledger|reflexivity|reflexivity].
Defined.

(** The first bridge lost, the second at 15 V. *)
Definition dev1_gone : LnbState := {|
  receivers := replicate 8 no_request; independent_15v := true;
  physical_state := {| at_dev1 := LS_disconnected; at_dev2 := LS_on |};
  cleanup_debt := {| at_dev1 := false; at_dev2 := false |} |}.

Lemma dev1_gone_ledger : ledger (dev1_gone, {| at_dev1 := true; at_dev2 := true |} : ObedientHW).
Proof. intros b V. destruct b; done. Qed.

Lemma shutdown_reaches_sibling_witness :
  let w : LnbWorld ObedientHW := (dev1_gone, {| at_dev1 := true; at_dev2 := true |}) in
  (shutdown w).1 = failure DISCONNECTED /\
  get (physical_state (shutdown w).2.1) dev2 = LS_off.
Proof.
  intros w. split; [reflexivity|].
  refine (proj1 (shutdown_reaches_sibling dev2 w _ _ _ _));
    [reflexivity|exact dev1_gone_ledger|discriminate|reflexivity].
Defined.
