(* ===== verification/Mlt5pePower.v ===== *)
(** The backend-power authority of an MLT5-family board
    ([Mlt5PePowerCoordinator] of [src/mlt5pe_power.h/.cpp]): the single-bridge
    relative of the Q3U4 coordinator, behind the same interface; [power_] names
    the object behind the reference the coordinator holds.  Operations are
    atomic under the coordinator's mutex. *)

From S2P Require Import Prelude Q3u4Power.

Definition kMlt5PeReceiverCount : Z := 5.

Record Mlt5PePowerSnapshot := {
  receiver_mask : Z;
  card_acquired : bool;
  backend_state : Q3U4PowerState;
}.

Definition init_snapshot : Mlt5PePowerSnapshot :=
  {| receiver_mask := 0; card_acquired := false; backend_state := PS_off |}.

Definition with_mask (s : Mlt5PePowerSnapshot) (mask : Z) : Mlt5PePowerSnapshot :=
  {| receiver_mask := mask; card_acquired := card_acquired s; backend_state := backend_state s |}.
Definition with_card (s : Mlt5PePowerSnapshot) (card : bool) : Mlt5PePowerSnapshot :=
  {| receiver_mask := receiver_mask s; card_acquired := card; backend_state := backend_state s |}.
Definition with_state (s : Mlt5PePowerSnapshot) (p : Q3U4PowerState) : Mlt5PePowerSnapshot :=
  {| receiver_mask := receiver_mask s; card_acquired := card_acquired s; backend_state := p |}.

Definition desired_on (s : Mlt5PePowerSnapshot) : bool :=
  negb (receiver_mask s =? 0) || card_acquired s.

(** [mask | bit] and [mask & ~bit] as [std::uint8_t]. *)
Definition set_bit (mask bit : Z) : Z := cast_u8 (Z.lor mask bit).
Definition clear_bit (mask bit : Z) : Z := cast_u8 (Z.land mask (Z.lnot bit)).

Section Coordinator.
Context {HW : Type} `{Q3U4BackendPower HW}.
Variable power_ : Q3U4Bridge.

Definition World : Type := Mlt5PePowerSnapshot * HW.
Definition Outcome : Type := Result unit * World.

Definition apply_locked (w : World) : Outcome :=
  let '(s, hw) := w in
  let current := backend_state s in
  let on := desired_on s in
  if is_disconnected current then
    (if on then failure DISCONNECTED else success tt, w)
  else if (on && bool_decide (current = PS_on)) || (negb on && bool_decide (current = PS_off))
  then (success tt, w)
  else
    let '(result, hw) := set_backend_power power_ on hw in
    match result with
    | success _ => (result, (with_state s (if on then PS_on else PS_off), hw))
    | failure e =>
        (result, (with_state s (if bool_decide (e = DISCONNECTED) then PS_disconnected else PS_unknown), hw))
    end.

Definition acquire_receiver (receiver : Z) (w : World) : Outcome :=
  let '(s, hw) := w in
  if kMlt5PeReceiverCount <=? receiver then (failure INVALID_ARGUMENT, w)
  else if is_disconnected (backend_state s) then (failure DISCONNECTED, w)
  else
    let bit := receiver_bit receiver in
    if negb (Z.land (receiver_mask s) bit =? 0) then (failure BUSY, w)
    else
      match apply_locked (with_mask s (set_bit (receiver_mask s) bit), hw) with
      | (success _, w) => (success tt, w)
      | (failure e, (s, hw)) =>
          (failure e, (apply_locked (with_mask s (clear_bit (receiver_mask s) bit), hw)).2)
      end.

Definition release_receiver (receiver : Z) (w : World) : Outcome :=
  let '(s, hw) := w in
  if kMlt5PeReceiverCount <=? receiver then (failure INVALID_ARGUMENT, w)
  else
    let bit := receiver_bit receiver in
    if Z.land (receiver_mask s) bit =? 0 then (failure INVALID_ARGUMENT, w)
    else apply_locked (with_mask s (clear_bit (receiver_mask s) bit), hw).

Definition acquire_card (w : World) : Outcome :=
  let '(s, hw) := w in
  if is_disconnected (backend_state s) then (failure DISCONNECTED, w)
  else if card_acquired s then (failure BUSY, w)
  else
    match apply_locked (with_card s true, hw) with
    | (success _, w) => (success tt, w)
    | (failure e, (s, hw)) => (failure e, (apply_locked (with_card s false, hw)).2)
    end.

Definition release_card (w : World) : Outcome :=
  let '(s, hw) := w in
  if negb (card_acquired s) then (failure INVALID_ARGUMENT, w)
  else apply_locked (with_card s false, hw).

Definition reconcile (w : World) : Outcome :=
  if is_disconnected (backend_state w.1) then (failure DISCONNECTED, w)
  else apply_locked w.

Definition disconnect (w : World) : World :=
  ({| receiver_mask := 0; card_acquired := false; backend_state := PS_disconnected |}, w.2).

(** The public operations; [disconnect] returns nothing. *)
Inductive PowerOp :=
  | AcquireReceiver (receiver : Z)
  | ReleaseReceiver (receiver : Z)
  | AcquireCard
  | ReleaseCard
  | Reconcile
  | Disconnect.

Definition run_op (op : PowerOp) (w : World) : Outcome :=
  match op with
  | AcquireReceiver receiver => acquire_receiver receiver w
  | ReleaseReceiver receiver => release_receiver receiver w
  | AcquireCard => acquire_card w
  | ReleaseCard => release_card w
  | Reconcile => reconcile w
  | Disconnect => (success tt, disconnect w)
  end.

Definition run_ops (ops : list PowerOp) (w : World) : World :=
  foldl (fun w op => (run_op op w).2) w ops.
End Coordinator.

Arguments World : clear implicits.
Arguments Outcome : clear implicits.

(** * Lemmas *)

(** What an operation should make of the references: the set of receivers and
    the card. *)
Definition spec_references (op : PowerOp) (ok : bool) (f : Z -> bool) (card : bool) : (Z -> bool) * bool :=
  match op with
  | AcquireReceiver id => (if ok then (fun i => (i =? id) || f i) else f, card)
  | ReleaseReceiver id =>
      (if id <? kMlt5PeReceiverCount then (fun i => negb (i =? id) && f i) else f, card)
  | AcquireCard => (f, ok || card)
  | ReleaseCard => (f, false)
  | Reconcile => (f, card)
  | Disconnect => (fun _ => false, false)
  end.

Lemma set_bit_spec mask id i :
  0 <= id < 8 -> 0 <= i < 8 ->
  Z.testbit (set_bit mask (receiver_bit id)) i = (i =? id) || Z.testbit mask i.
Proof.
  intros Hid Hi. unfold set_bit, cast_u8. rewrite Z.mod_pow2_bits_low by lia.
  rewrite Z.lor_spec, receiver_bit_spec by lia. apply orb_comm.
Qed.

Lemma clear_bit_spec mask id i :
  0 <= id < 8 -> 0 <= i < 8 ->
  Z.testbit (clear_bit mask (receiver_bit id)) i = negb (i =? id) && Z.testbit mask i.
Proof.
  intros Hid Hi. unfold clear_bit, cast_u8. rewrite Z.mod_pow2_bits_low by lia.
  rewrite Z.land_spec, Z.lnot_spec, receiver_bit_spec by lia. apply andb_comm.
Qed.

(** The recorded state is what the references ask for; a lost bridge that nobody
    needs stays recorded as disconnected. *)
Definition converged (s : Mlt5PePowerSnapshot) : Prop :=
  (backend_state s = PS_disconnected /\ desired_on s = false) \/
  backend_state s = (if desired_on s then PS_on else PS_off).

Section Facts.
Context {HW : Type} `{Q3U4BackendPower HW}.
Variable power_ : Q3U4Bridge.
Implicit Types w : World HW.

Lemma backend_logical w :
  receiver_mask (apply_locked power_ w).2.1 = receiver_mask w.1 /\
  card_acquired (apply_locked power_ w).2.1 = card_acquired w.1.
Proof.
  destruct w as [s hw]. unfold apply_locked. cbv zeta.
  destruct (is_disconnected _); [done|]. destruct (_ || _); [done|].
  by destruct (set_backend_power _ _ _) as [[u|e] hw'].
Qed.

Lemma backend_converges w :
  is_success (apply_locked power_ w).1 = true -> converged (apply_locked power_ w).2.1.
Proof.
  destruct w as [s hw]. unfold apply_locked, is_disconnected, converged. cbv zeta.
  case_bool_decide as D.
  { intros E. left. cbn [fst snd] in *. split; [done|]. by destruct (desired_on s). }
  destruct (_ || _) eqn:E.
  - intros _. right. cbn [fst snd]. destruct (desired_on s); cbn [andb negb orb] in E;
      rewrite ?orb_false_r in E; by apply bool_decide_eq_true in E.
  - destruct (set_backend_power _ _ _) as [[u|e] hw']; [|done]. intros _. by right.
Qed.

(** The references of a state, as a set. *)
Definition refs (s : Mlt5PePowerSnapshot) : Z -> bool := Z.testbit (receiver_mask s).

(** Every operation does to the references exactly what it should, on every
    path, errors of the hardware included: a failed acquire leaves them as they
    were, a release always gives its reference up.  When it reports success, the
    backend is recorded as on exactly while a reference is held. *)
Theorem mlt5pe_power_step op w i :
  match op with AcquireReceiver id | ReleaseReceiver id => is_u8 id | _ => True end ->
  0 <= i < 8 ->
  let r := run_op power_ op w in
  let spec := spec_references op (is_success r.1) (refs w.1) (card_acquired w.1) in
  refs r.2.1 i = spec.1 i /\ card_acquired r.2.1 = spec.2 /\
  (is_success r.1 = true -> converged r.2.1 \/ op = Disconnect).
Proof.
  intros Id Hi. destruct w as [s hw].
  assert (forall w, is_success (apply_locked power_ w).1 = true ->
    converged (apply_locked power_ w).2.1 \/ op = Disconnect) as C
    by (intros w E; left; by apply backend_converges).
  destruct op as [id|id| | | |]; unfold run_op; unfold is_u8 in Id; unfold refs.
  - unfold acquire_receiver, kMlt5PeReceiverCount. destruct (Z.leb_spec 5 id); [done|].
    case_match; [done|]. cbv zeta. rewrite mask_bit_test by lia.
    destruct (Z.testbit (receiver_mask s) id) eqn:T; [done|]. cbn [negb].
    set (w1 := (with_mask s _, hw)). destruct (backend_logical w1) as [M1 C1]. specialize (C w1).
    destruct (apply_locked power_ w1) as [[[]|e] [s2 hw2]]; cbn [fst snd is_success spec_references] in *.
    + rewrite M1, C1. split; [by apply set_bit_spec; lia|]. auto.
    + set (w3 := (with_mask s2 _, hw2)). destruct (backend_logical w3) as [M3 C3]. rewrite M3, C3.
      cbn [w3 with_mask fst receiver_mask card_acquired]. rewrite clear_bit_spec, M1 by lia.
      cbn [w1 with_mask fst receiver_mask]. rewrite set_bit_spec by lia. split; [|done].
      destruct (Z.eqb_spec i id) as [->|]; [by rewrite T|done].
  - unfold release_receiver, spec_references, kMlt5PeReceiverCount. destruct (Z.leb_spec 5 id).
    { by rewrite (proj2 (Z.ltb_ge _ _)) by lia. }
    rewrite (proj2 (Z.ltb_lt _ _)) by lia. cbv zeta. rewrite mask_bit_test by lia.
    destruct (Z.testbit (receiver_mask s) id) eqn:T; cbn [negb fst snd].
    + set (w1 := (with_mask s _, hw)). destruct (backend_logical w1) as [M1 C1]. rewrite M1, C1.
      split; [by apply clear_bit_spec; lia|]. auto.
    + split; [|done]. destruct (Z.eqb_spec i id) as [->|]; [by rewrite T|done].
  - unfold acquire_card. case_match; [done|]. destruct (card_acquired s) eqn:T; [by cbn; rewrite T|].
    set (w1 := (with_card s _, hw)). destruct (backend_logical w1) as [M1 C1]. specialize (C w1).
    destruct (apply_locked power_ w1) as [[[]|e] [s2 hw2]]; cbn [fst snd is_success spec_references] in *.
    + rewrite M1, C1. auto.
    + set (w3 := (with_card s2 _, hw2)). destruct (backend_logical w3) as [M3 C3]. rewrite M3, C3.
      cbn. by rewrite M1, T.
  - unfold release_card. destruct (card_acquired s) eqn:T; [|by cbn; rewrite T].
    cbn [negb]. set (w1 := (with_card s _, hw)). destruct (backend_logical w1) as [M1 C1]. rewrite M1, C1.
    auto.
  - unfold reconcile. case_match; [done|]. destruct (backend_logical (s, hw)) as [M1 C1]. rewrite M1, C1. auto.
  - cbn. rewrite Z.bits_0. auto.
Qed.
End Facts.

Section Agreement.
Context {HW : Type} `{BackendPowerLaws HW}.
Variable power_ : Q3U4Bridge.
Hypothesis power_valid : valid_bridge power_ = true.

Definition agrees (w : World HW) : Prop :=
  (backend_state w.1 = PS_on -> powered w.2 power_ = true) /\
  (backend_state w.1 = PS_off -> powered w.2 power_ = false).

Lemma apply_agrees w : agrees w -> agrees (apply_locked power_ w).2.
Proof.
  intros A. destruct w as [s hw]. unfold apply_locked. cbv zeta.
  destruct (is_disconnected _); [done|]. destruct (_ || _); [done|].
  pose proof (set_power_success power_ (desired_on s) hw power_valid) as E.
  destruct (set_backend_power _ _ _) as [[[]|e] hw']; cbn [fst snd] in *; unfold agrees; cbn.
  - rewrite E by done. by destruct (desired_on s).
  - by case_bool_decide.
Qed.

Lemma run_op_agrees op w : agrees w -> agrees (run_op power_ op w).2.
Proof.
  intros A. pose proof apply_agrees as P. destruct w as [s hw].
  destruct op as [id|id| | | |]; unfold run_op.
  - unfold acquire_receiver. cbv zeta. repeat (case_match; [done|]).
    set (w1 := (with_mask s _, hw)). specialize (P w1) as P1.
    destruct (apply_locked power_ w1) as [[u|e] [s2 hw2]]; [by apply P1|]. apply P. by apply P1.
  - unfold release_receiver. cbv zeta. repeat (case_match; [done|]). by apply P.
  - unfold acquire_card. repeat (case_match; [done|]).
    set (w1 := (with_card s _, hw)). specialize (P w1) as P1.
    destruct (apply_locked power_ w1) as [[u|e] [s2 hw2]]; [by apply P1|]. apply P. by apply P1.
  - unfold release_card. case_match; [done|]. by apply P.
  - unfold reconcile. case_match; [done|]. by apply P.
  - done.
Qed.

(** The coordinator is never wrong about its backend: recorded as on it is
    powered, recorded as off it is not, after any operations with any failures. *)
Theorem mlt5pe_power_agrees ops hw :
  powered hw power_ = false -> agrees (run_ops power_ ops (init_snapshot, hw)).
Proof.
  intros P. assert (A : agrees (init_snapshot, hw)) by done. revert A.
  generalize (init_snapshot, hw). clear P. induction ops as [|op ops IH]; intros w A; [done|].
  apply IH. by apply run_op_agrees.
Qed.
End Agreement.

(** * Instances *)

Lemma mlt5pe_power_step_witness :
  let w : World ScriptedHW := (init_snapshot, (cold, [Some USB_IO])) in
  let r := run_op dev1 (AcquireReceiver 3) w in
  r.1 = failure USB_IO /\ refs r.2.1 3 = false.
Proof.
  intros w r. split; [reflexivity|].
  refine (proj1 (mlt5pe_power_step dev1 (AcquireReceiver 3) w 3 _ _)); [unfold is_u8; lia|lia].
Defined.

Lemma mlt5pe_power_agrees_witness :
  agrees dev1 (run_ops dev1 [AcquireReceiver 3; AcquireCard; ReleaseReceiver 3]
    (init_snapshot, (cold, [None; Some USB_IO]) : ScriptedHW)).
Proof. apply mlt5pe_power_agrees; reflexivity. Defined.
