(* ===== verification/Mlt5peLnbPower.v ===== *)
(** The LNB supply authority of an MLT5-family board
    ([Mlt5PeLnbPowerCoordinator] of [src/mlt5pe_power.h/.cpp]): five receivers,
    one supply, the transactional rules of the Q3U4 coordinator.  Operations are
    atomic under the coordinator's mutex. *)

From S2P Require Import Prelude Q3u4Power Q3u4LnbPower Mlt5pePower.

Record ReceiverRequest := { committed_15v : bool; pending : bool; pending_15v : bool }.

Definition no_request : ReceiverRequest :=
  {| committed_15v := false; pending := false; pending_15v := false |}.

Record LnbState := {
  receivers : list ReceiverRequest;
  independent_15v : bool;
  physical_state : Q3U4LnbPhysicalState;
  cleanup_debt : bool;
}.

Definition init_lnb : LnbState := {|
  receivers := replicate (Z.to_nat kMlt5PeReceiverCount) no_request;
  independent_15v := false;
  physical_state := LS_off;
  cleanup_debt := false;
|}.

Record Mlt5PeLnbPowerSnapshot := {
  snapshot_ref_count : Z;
  snapshot_physical_state : Q3U4LnbPhysicalState;
  snapshot_cleanup_debt : bool;
}.

Definition with_receivers (s : LnbState) (rs : list ReceiverRequest) : LnbState :=
  {| receivers := rs; independent_15v := independent_15v s;
     physical_state := physical_state s; cleanup_debt := cleanup_debt s |}.
Definition with_independent (s : LnbState) (v : bool) : LnbState :=
  {| receivers := receivers s; independent_15v := v;
     physical_state := physical_state s; cleanup_debt := cleanup_debt s |}.
Definition with_physical (s : LnbState) (p : Q3U4LnbPhysicalState) (debt : bool) : LnbState :=
  {| receivers := receivers s; independent_15v := independent_15v s;
     physical_state := p; cleanup_debt := debt |}.

(** [receivers_[i]], and the assignment to it. *)
Definition request_of (s : LnbState) (i : Z) : ReceiverRequest :=
  nth (Z.to_nat i) (receivers s) no_request.
Definition set_request (s : LnbState) (i : Z) (r : ReceiverRequest) : LnbState :=
  with_receivers s (<[Z.to_nat i := r]> (receivers s)).

Definition set_pending_request (r : ReceiverRequest) (p p15 : bool) : ReceiverRequest :=
  {| committed_15v := committed_15v r; pending := p; pending_15v := p15 |}.

(** The effective request of a receiver. *)
Definition enabled (r : ReceiverRequest) : bool :=
  if pending r then pending_15v r else committed_15v r.

Definition ref_count_locked (s : LnbState) : Z :=
  let count := foldl (fun count r => if enabled r then cast_u8 (count + 1) else count) 0 (receivers s) in
  if independent_15v s then cast_u8 (count + 1) else count.

Section Coordinator.
Context {HW : Type} `{Q3U4LnbPower HW}.
Variable power_ : Q3U4Bridge.

Definition LnbWorld : Type := LnbState * HW.
Definition LnbOutcome : Type := Result unit * LnbWorld.

Definition apply_locked (w : LnbWorld) : LnbOutcome :=
  let '(s, hw) := w in
  let state := physical_state s in
  let desired_on := negb (ref_count_locked s =? 0) in
  if lnb_disconnected state then (failure DISCONNECTED, w)
  else if (desired_on && bool_decide (state = LS_on))
          || (negb desired_on && bool_decide (state = LS_off) && negb (cleanup_debt s))
  then (success tt, w)
  else
    let '(result, hw) := set_lnb_power power_ desired_on hw in
    match result with
    | success _ => (result, (with_physical s (if desired_on then LS_on else LS_off) false, hw))
    | failure e =>
        if bool_decide (e = DISCONNECTED)
        then (result, (with_physical s LS_disconnected false, hw))
        else (result, (with_physical s LS_unknown true, hw))
    end.

Definition begin_tune (allow_15v : bool) (receiver voltage : Z) (w : LnbWorld) : LnbOutcome :=
  let '(s, hw) := w in
  if (kMlt5PeReceiverCount <=? receiver) || (negb (voltage =? 0) && negb (voltage =? 15))
  then (failure INVALID_ARGUMENT, w)
  else if (voltage =? 15) && negb allow_15v then (failure UNSUPPORTED, w)
  else if lnb_disconnected (physical_state s) then (failure DISCONNECTED, w)
  else
    let request := request_of s receiver in
    if pending request then (failure BUSY, w)
    else
      let s := set_request s receiver (set_pending_request request true (voltage =? 15)) in
      match apply_locked (s, hw) with
      | (success u, w) => (success u, w)
      | (failure e, (s, hw)) =>
          let request := request_of s receiver in
          let s := set_request s receiver (set_pending_request request false (pending_15v request)) in
          let '(restored, w) := apply_locked (s, hw) in
          (undone (failure e) restored, w)
      end.

Definition set_independent_power (allow_15v on : bool) (w : LnbWorld) : LnbOutcome :=
  let '(s, hw) := w in
  if on && negb allow_15v then (failure UNSUPPORTED, w)
  else if on && lnb_disconnected (physical_state s) then (failure DISCONNECTED, w)
  else
    let previous := independent_15v s in
    match apply_locked (with_independent s on, hw) with
    | (success u, w) => (success u, w)
    | (failure e, (s, hw)) =>
        if negb on then (failure e, (s, hw))
        else
          let '(restored, w) := apply_locked (with_independent s previous, hw) in
          (undone (failure e) restored, w)
    end.

Definition commit_tune (receiver : Z) (w : LnbWorld) : LnbOutcome :=
  let '(s, hw) := w in
  if kMlt5PeReceiverCount <=? receiver then (failure INVALID_ARGUMENT, w)
  else
    let request := request_of s receiver in
    if negb (pending request) then (failure INVALID_ARGUMENT, w)
    else (success tt, (set_request s receiver
      {| committed_15v := pending_15v request; pending := false; pending_15v := pending_15v request |}, hw)).

Definition rollback_tune (receiver : Z) (w : LnbWorld) : LnbOutcome :=
  let '(s, hw) := w in
  if kMlt5PeReceiverCount <=? receiver then (failure INVALID_ARGUMENT, w)
  else
    let request := request_of s receiver in
    if negb (pending request) then (failure INVALID_ARGUMENT, w)
    else apply_locked
      (set_request s receiver (set_pending_request request false (pending_15v request)), hw).

Definition release_receiver (receiver : Z) (w : LnbWorld) : LnbOutcome :=
  let '(s, hw) := w in
  if kMlt5PeReceiverCount <=? receiver then (failure INVALID_ARGUMENT, w)
  else apply_locked (set_request s receiver no_request, hw).

Definition shutdown (w : LnbWorld) : LnbOutcome :=
  let '(s, hw) := w in
  let s := with_independent s false in
  let s := with_receivers s (replicate (length (receivers s)) no_request) in
  apply_locked (s, hw).

Definition disconnect (w : LnbWorld) : LnbWorld :=
  let '(s, hw) := w in
  let s := with_independent (with_physical s LS_disconnected false) false in
  (with_receivers s (replicate (length (receivers s)) no_request), hw).

Definition snapshot (s : LnbState) : Mlt5PeLnbPowerSnapshot := {|
  snapshot_ref_count := ref_count_locked s;
  snapshot_physical_state := physical_state s;
  snapshot_cleanup_debt := cleanup_debt s;
|}.

(** The public operations; [disconnect] returns nothing. *)
Inductive LnbOp :=
  | BeginTune (receiver voltage : Z)
  | SetIndependent (on : bool)
  | CommitTune (receiver : Z)
  | RollbackTune (receiver : Z)
  | ReleaseReceiver (receiver : Z)
  | Shutdown
  | Disconnect.

Definition run_op (allow_15v : bool) (op : LnbOp) (w : LnbWorld) : LnbOutcome :=
  match op with
  | BeginTune receiver voltage => begin_tune allow_15v receiver voltage w
  | SetIndependent on => set_independent_power allow_15v on w
  | CommitTune receiver => commit_tune receiver w
  | RollbackTune receiver => rollback_tune receiver w
  | ReleaseReceiver receiver => release_receiver receiver w
  | Shutdown => shutdown w
  | Disconnect => (success tt, disconnect w)
  end.

Definition run_ops (allow_15v : bool) (ops : list LnbOp) (w : LnbWorld) : LnbWorld :=
  foldl (fun w op => (run_op allow_15v op w).2) w ops.
End Coordinator.

Arguments LnbWorld : clear implicits.
Arguments LnbOutcome : clear implicits.

(** * Lemmas *)

(** What a receiver asks for: its settled request, and the one of an open
    transaction. *)
Definition tune_state (r : ReceiverRequest) : bool * option bool :=
  (committed_15v r, if pending r then Some (pending_15v r) else None).
Definition tunes (s : LnbState) (i : Z) : bool * option bool := tune_state (request_of s i).

Definition has_receiver (i : Z) : bool := i <? kMlt5PeReceiverCount.

(** The specification: what an operation makes of the transactions and of the
    independent request, given whether it succeeded. *)
Definition spec_tunes (op : LnbOp) (ok : bool) (f : Z -> bool * option bool) (independent : bool)
  : (Z -> bool * option bool) * bool :=
  match op with
  | BeginTune i v => (if ok then update f i ((f i).1, Some (v =? 15)) else f, independent)
  | SetIndependent on => (f, if ok then on else if on then independent else false)
  | CommitTune i => (if ok then update f i (default (f i).1 (f i).2, None) else f, independent)
  | RollbackTune i => (if has_receiver i then update f i ((f i).1, None) else f, independent)
  | ReleaseReceiver i => (if has_receiver i then update f i (false, None) else f, independent)
  | Shutdown | Disconnect => (fun _ => (false, None), false)
  end.

(** The supply is recorded as the requests ask, without cleanup debt. *)
Definition settled (s : LnbState) : Prop :=
  physical_state s = (if ref_count_locked s =? 0 then LS_off else LS_on) /\ cleanup_debt s = false.

(** A cleanup write is owed exactly while the supply's state is unknown. *)
Definition debt_ok (s : LnbState) : Prop := cleanup_debt s = true <-> physical_state s = LS_unknown.

(** The logical part of the state. *)
Definition logical (s : LnbState) : list ReceiverRequest * bool := (receivers s, independent_15v s).

Lemma supply_tunes_logical s s' : logical s' = logical s ->
  (forall i, tunes s' i = tunes s i) /\ independent_15v s' = independent_15v s /\
  length (receivers s') = length (receivers s) /\ forall i, request_of s' i = request_of s i.
Proof. unfold logical, tunes, request_of. intros E. injection E as -> ->. done. Qed.

Lemma supply_request_set s i j r :
  length (receivers s) = 5%nat -> 0 <= i < 5 -> 0 <= j < 5 ->
  request_of (set_request s j r) i = if i =? j then r else request_of s i.
Proof.
  intros Len Hi Hj. unfold request_of, set_request. cbn [receivers with_receivers].
  rewrite !nth_lookup. destruct (Z.eqb_spec i j) as [->|N].
  - by rewrite list_lookup_insert_eq by lia.
  - by rewrite list_lookup_insert_ne by lia.
Qed.

Lemma supply_tunes_set s i j r :
  length (receivers s) = 5%nat -> 0 <= i < 5 -> 0 <= j < 5 ->
  tunes (set_request s j r) i = update (tunes s) j (tune_state r) i.
Proof. intros. unfold tunes, update. rewrite supply_request_set by done. by destruct (i =? j). Qed.

Lemma tunes_cleared s s' i :
  receivers s' = replicate (length (receivers s)) no_request -> tunes s' i = (false, None).
Proof.
  intros E. unfold tunes, request_of. rewrite E, nth_lookup.
  destruct (replicate _ _ !! _) eqn:L; [|done]. by apply lookup_replicate in L as [-> _].
Qed.

Section Facts.
Context {HW : Type} `{Q3U4LnbPower HW}.
Variable power_ : Q3U4Bridge.
Implicit Types w : LnbWorld HW.

Lemma supply_logical w : logical (apply_locked power_ w).2.1 = logical w.1.
Proof.
  destruct w as [s hw]. unfold apply_locked. cbv zeta.
  destruct (lnb_disconnected _); [done|]. destruct (_ || _); [done|].
  destruct (set_lnb_power _ _ _) as [[u|e] hw']; [done|]. by case_bool_decide.
Qed.

Lemma supply_count_logical s s' : logical s' = logical s -> ref_count_locked s' = ref_count_locked s.
Proof. unfold logical, ref_count_locked. intros E. injection E as -> ->. done. Qed.

Lemma apply_settles w :
  debt_ok w.1 -> debt_ok (apply_locked power_ w).2.1 /\
  (is_success (apply_locked power_ w).1 = true -> settled (apply_locked power_ w).2.1).
Proof.
  intros D. unfold settled. rewrite (supply_count_logical w.1) by apply supply_logical.
  destruct w as [s hw]. unfold debt_ok in *. cbn [fst] in D.
  unfold apply_locked, lnb_disconnected. cbv zeta.
  destruct (bool_decide (physical_state s = LS_disconnected)); [done|].
  destruct (_ || _) eqn:E.
  - split; [done|]. intros _. cbn [fst snd]. destruct (ref_count_locked s =? 0);
      cbn [andb negb orb] in E; rewrite ?orb_false_r in E; cbn [andb negb orb] in E.
    + apply andb_true_iff in E as [P C]. apply bool_decide_eq_true in P. by apply negb_true_iff in C.
    + apply bool_decide_eq_true in E. split; [done|]. apply not_true_is_false. intros C.
      apply D in C. congruence.
  - destruct (set_lnb_power _ _ _) as [[u|e] hw']; cbn.
    + by destruct (ref_count_locked s =? 0).
    + by destruct (bool_decide (e = DISCONNECTED)).
Qed.

(** What every operation with a tail through [apply_locked] comes to. *)
Definition step_ok (w : LnbWorld HW) (o : LnbOutcome HW) (f : Z -> bool * option bool)
  (independent : bool) (i : Z) : Prop :=
  tunes o.2.1 i = f i /\ independent_15v o.2.1 = independent /\
  length (receivers o.2.1) = length (receivers w.1) /\
  (debt_ok w.1 -> debt_ok o.2.1).

Lemma apply_step w i : step_ok w (apply_locked power_ w) (tunes w.1) (independent_15v w.1) i.
Proof.
  destruct (supply_tunes_logical _ _ (supply_logical w)) as (T & I & N & _).
  split; [apply T|]. split; [done|]. split; [done|]. intros D. by apply apply_settles.
Qed.

Lemma apply_set_step j r s hw i :
  length (receivers s) = 5%nat -> 0 <= i < 5 -> 0 <= j < 5 ->
  step_ok (s, hw) (apply_locked power_ (set_request s j r, hw)) (update (tunes s) j (tune_state r))
    (independent_15v s) i.
Proof.
  intros Len Hi Hj. destruct (apply_step (set_request s j r, hw) i) as (T & I & N & D).
  cbn [fst] in *. split; [by rewrite T, supply_tunes_set|]. split; [done|].
  split; [by rewrite N; apply length_insert|done].
Qed.

Lemma undone_failure e restored : is_success (undone (failure e) restored) = false.
Proof. by destruct restored as [|[]]. Qed.

Lemma begin_tune_step allow j v s hw i :
  length (receivers s) = 5%nat -> 0 <= i < 5 -> 0 <= j ->
  let o := begin_tune power_ allow j v (s, hw) in
  step_ok (s, hw) o (spec_tunes (BeginTune j v) (is_success o.1) (tunes s) (independent_15v s)).1
    (independent_15v s) i.
Proof.
  intros Len Hi Hj. unfold begin_tune, kMlt5PeReceiverCount. cbv zeta.
  destruct (Z.leb_spec 5 j); [done|]. cbn [orb]. case_match; [done|]. case_match; [done|]. case_match; [done|].
  destruct (pending (request_of s j)) eqn:Pj; [done|].
  set (r1 := set_pending_request (request_of s j) true (v =? 15)).
  destruct (apply_set_step j r1 s hw i) as (T1 & I1 & N1 & D1); [done..|lia|].
  pose proof (supply_logical (set_request s j r1, hw)) as L1.
  destruct (supply_tunes_logical _ _ L1) as (_ & _ & _ & R1).
  destruct (apply_locked power_ (set_request s j r1, hw)) as [[u|e] [s2 hw2]]; cbn [fst snd] in *.
  - done.
  - set (r3 := set_pending_request (request_of s2 j) false (pending_15v (request_of s2 j))).
    destruct (apply_set_step j r3 s2 hw2 i) as (T3 & I3 & N3 & D3); [lia|done|lia|].
    destruct (apply_locked power_ (set_request s2 j r3, hw2)) as [r4 [s4 hw4]]; cbn [fst snd] in *.
    rewrite undone_failure. unfold step_ok. cbn [fst snd]. rewrite T3, I3, N3.
    split; [|split; [done|split; [done|auto]]].
    cbn [spec_tunes fst]. unfold update in *. destruct (Z.eqb_spec i j) as [->|]; [|done].
    unfold r3. rewrite R1, supply_request_set, Z.eqb_refl by (done || lia).
    unfold tunes, tune_state. cbn. by rewrite Pj.
Qed.

Lemma set_independent_step allow on s hw i :
  let o := set_independent_power power_ allow on (s, hw) in
  step_ok (s, hw) o (tunes s) (if is_success o.1 then on else if on then independent_15v s else false) i.
Proof.
  unfold set_independent_power. cbv zeta.
  destruct (on && negb allow) eqn:A; [by destruct on|].
  destruct (on && lnb_disconnected _) eqn:E; [by destruct on|].
  destruct (apply_step (with_independent s on, hw) i) as (T1 & I1 & N1 & D1).
  destruct (apply_locked power_ (with_independent s on, hw)) as [[u|e] [s2 hw2]]; cbn [fst snd] in *.
  - done.
  - destruct on; [|done]. cbn [negb].
    destruct (apply_step (with_independent s2 (independent_15v s), hw2) i) as (T3 & I3 & N3 & D3).
    destruct (apply_locked power_ _) as [r4 [s4 hw4]]; cbn [fst snd] in *.
    rewrite undone_failure. unfold step_ok. cbn [fst snd]. rewrite T3, I3, N3.
    split; [exact T1|]. split; [done|]. split; [exact N1|]. auto.
Qed.

(** Tuning is transactional on every path of every operation: a failed
    [begin_tune] changes no request, commit settles the open request, rollback
    returns to the settled one, no other receiver is touched. *)
Theorem mlt5pe_tunes_step allow op w i :
  length (receivers w.1) = 5%nat -> 0 <= i < 5 ->
  match op with BeginTune j _ | CommitTune j | RollbackTune j | ReleaseReceiver j => is_u8 j | _ => True end ->
  let o := run_op power_ allow op w in
  let spec := spec_tunes op (is_success o.1) (tunes w.1) (independent_15v w.1) in
  tunes o.2.1 i = spec.1 i /\ independent_15v o.2.1 = spec.2 /\
  length (receivers o.2.1) = 5%nat /\ (debt_ok w.1 -> debt_ok o.2.1).
Proof.
  intros Len Hi Hj. destruct w as [s hw]. cbn [fst] in *.
  enough (let o := run_op power_ allow op (s, hw) in
    let spec := spec_tunes op (is_success o.1) (tunes s) (independent_15v s) in
    step_ok (s, hw) o spec.1 spec.2 i) as (T & I & N & D) by (rewrite <- Len; auto).
  destruct op as [j v|on|j|j|j| |]; unfold run_op; unfold is_u8 in Hj.
  - apply begin_tune_step; lia.
  - apply set_independent_step.
  - unfold commit_tune, kMlt5PeReceiverCount. cbv zeta. destruct (Z.leb_spec 5 j); [done|].
    destruct (pending (request_of s j)) eqn:Pj; [|done]. cbn [negb fst snd is_success spec_tunes].
    unfold step_ok. cbn [fst snd]. rewrite supply_tunes_set by (done || lia).
    split; [|split; [done|split; [apply length_insert|done]]].
    unfold update. destruct (Z.eqb_spec i j) as [->|]; [|done].
    unfold tunes, tune_state. cbn. by rewrite Pj.
  - unfold rollback_tune. cbn [spec_tunes fst snd]. unfold has_receiver, kMlt5PeReceiverCount. cbv zeta.
    destruct (Z.leb_spec 5 j); [by rewrite (proj2 (Z.ltb_ge _ _)) by lia|].
    rewrite (proj2 (Z.ltb_lt _ _)) by lia. destruct (pending (request_of s j)) eqn:Pj; cbn [negb].
    + apply (apply_set_step j (set_pending_request (request_of s j) false (pending_15v (request_of s j))));
        [done..|lia].
    + unfold step_ok. cbn [fst snd]. split; [|done]. unfold update.
      destruct (Z.eqb_spec i j) as [->|]; [|done]. unfold tunes, tune_state. cbn. by rewrite Pj.
  - unfold release_receiver. cbn [spec_tunes fst snd]. unfold has_receiver, kMlt5PeReceiverCount.
    destruct (Z.leb_spec 5 j); [by rewrite (proj2 (Z.ltb_ge _ _)) by lia|].
    rewrite (proj2 (Z.ltb_lt _ _)) by lia. apply (apply_set_step j no_request); [done..|lia].
  - unfold shutdown. cbv zeta. set (s0 := with_receivers _ _).
    destruct (apply_step (s0, hw) i) as (T & I & N & D). cbn [fst] in *.
    split; [by rewrite T; by apply (tunes_cleared s)|]. split; [done|].
    split; [|done]. rewrite N. apply length_replicate.
  - unfold disconnect. cbv zeta. cbn [fst snd]. split; [by apply (tunes_cleared s)|]. split; [done|].
    split; [apply length_replicate|]. intros _. by split.
Qed.
End Facts.

(** ** The 15 V permission *)

Section Permission.
Context {HW : Type} `{Q3U4LnbPower HW}.
Variable power_ : Q3U4Bridge.

(** No request for 15 V, pending or committed. *)
Definition asks_0v (r : ReceiverRequest) : Prop := committed_15v r = false /\ pending_15v r = false.

Definition unpowered (w : LnbWorld (Logged HW)) : Prop :=
  Forall asks_0v (receivers w.1) /\ independent_15v w.1 = false /\
  Forall (fun e => e.2 = false) w.2.2.

Lemma supply_count_unpowered s :
  Forall asks_0v (receivers s) -> independent_15v s = false -> ref_count_locked s = 0.
Proof.
  intros F I. unfold ref_count_locked. rewrite I. cbv zeta.
  induction F as [|r rs [C P] F IH]; [done|]. cbn [foldl]. unfold enabled at 2. rewrite C, P.
  by destruct (pending r).
Qed.

Lemma apply_unpowered w : unpowered w -> unpowered (apply_locked power_ w).2.
Proof.
  destruct w as [s [hw lg]]. intros (F & I & L). cbn [fst snd] in *.
  unfold apply_locked. cbv zeta. rewrite (supply_count_unpowered s F I).
  destruct (lnb_disconnected _); [done|]. destruct (_ || _); [done|].
  cbn [set_lnb_power Logged_lnb fst snd Z.eqb negb].
  assert (Forall (fun e : Q3U4Bridge * bool => e.2 = false) (lg ++ [(power_, false)])) as L'.
  { apply Forall_app. split; [done|]. by constructor. }
  destruct (set_lnb_power power_ false hw) as [[u|e] hw']; [done|]. by case_bool_decide.
Qed.

Lemma set_request_unpowered s hw i r :
  asks_0v r -> unpowered (s, hw) -> unpowered (set_request s i r, hw).
Proof. intros A (F & I & L). split; [by apply Forall_insert|done]. Qed.

Lemma request_of_unpowered s hw i : unpowered (s, hw) -> asks_0v (request_of s i).
Proof.
  intros (F & _). unfold request_of. rewrite nth_lookup.
  destruct (receivers s !! Z.to_nat i) as [r|] eqn:E; [|done].
  by apply (Forall_lookup_1 _ _ _ _ F E).
Qed.

Lemma clear_unpowered s hw :
  unpowered (s, hw) -> unpowered (with_receivers s (replicate (length (receivers s)) no_request), hw).
Proof. intros (F & I & L). split; [by apply Forall_replicate|done]. Qed.

Lemma run_op_unpowered op w : unpowered w -> unpowered (run_op power_ false op w).2.
Proof.
  intros U. destruct w as [s hw]. pose proof (fun i => request_of_unpowered s hw i U) as Q.
  destruct op as [j v|on|j|j|j| |]; unfold run_op.
  - unfold begin_tune. cbv zeta. case_match; [done|]. rewrite andb_true_r.
    destruct (v =? 15); [done|]. repeat (case_match; [done|]).
    set (w1 := (set_request s j _, hw)).
    assert (unpowered (apply_locked power_ w1).2) as U1.
    { apply apply_unpowered. apply set_request_unpowered; [|done]. split; [apply Q|done]. }
    destruct (apply_locked power_ w1) as [[u|e] [s2 hw2]]; [done|].
    set (w3 := (set_request s2 j _, hw2)).
    assert (unpowered (apply_locked power_ w3).2) as U3.
    { apply apply_unpowered. apply set_request_unpowered; [|done].
      destruct (request_of_unpowered s2 hw2 j U1) as [C P]. by split. }
    by destruct (apply_locked power_ w3) as [r4 w4].
  - unfold set_independent_power. cbv zeta. destruct on; [done|]. cbn [andb].
    assert (unpowered (apply_locked power_ (with_independent s false, hw)).2) as U1.
    { apply apply_unpowered. destruct U as (F & I & L). done. }
    by destruct (apply_locked power_ (with_independent s false, hw)) as [[u|e] [s2 hw2]].
  - unfold commit_tune. cbv zeta. repeat (case_match; [done|]).
    apply set_request_unpowered; [|done]. destruct (Q j). by split.
  - unfold rollback_tune. cbv zeta. repeat (case_match; [done|]). apply apply_unpowered.
    apply set_request_unpowered; [|done]. destruct (Q j). by split.
  - unfold release_receiver. case_match; [done|]. apply apply_unpowered. by apply set_request_unpowered.
  - unfold shutdown. cbv zeta. apply apply_unpowered.
    apply (clear_unpowered (with_independent s false)). by destruct U as (F & I & L).
  - unfold disconnect. cbv zeta.
    apply (clear_unpowered (with_independent (with_physical s LS_disconnected false) false)).
    by destruct U as (F & I & L).
Qed.

(** Without the 15 V permission the supply is never switched on, whatever is
    requested and however the hardware fails. *)
Theorem mlt5pe_no_15v_without_permission ops (hw : HW) :
  Forall (fun e => e.2 = false) (run_ops power_ false ops (init_lnb, (hw, []) : Logged HW)).2.2.
Proof.
  enough (unpowered (run_ops power_ false ops (init_lnb, (hw, []) : Logged HW))) as U by apply U.
  assert (unpowered (init_lnb, (hw, []) : Logged HW)) as U.
  { split; [by apply Forall_replicate|done]. }
  revert U. generalize (init_lnb, (hw, []) : Logged HW).
  induction ops as [|op ops IH]; intros w U; [done|]. apply IH. by apply run_op_unpowered.
Qed.
End Permission.

(** * Instances *)

Lemma mlt5pe_tunes_step_witness :
  let w : LnbWorld ScriptedHW := (init_lnb, (cold, [Some TIMEOUT])) in
  (run_op dev1 true (BeginTune 4 15) w).1 = failure TIMEOUT /\
  tunes (run_op dev1 true (BeginTune 4 15) w).2.1 4 = (false, None).
Proof.
  intros w. split; [reflexivity|].
  refine (proj1 (mlt5pe_tunes_step dev1 true (BeginTune 4 15) w 4 _ _ _));
    [reflexivity|lia|unfold is_u8; lia].
Defined.
