(* ===== verification/ScatterImage.v ===== *)
(** The IT930x scatter image of a firmware file ([src/it930x_protocol.h/.cpp]):
    a run of blocks, each with a header, segment descriptors and the data the
    descriptors announce.  The parser is modelled over an explicit buffer: a load
    outside the view would be [None]. *)

From S2P Require Import Prelude.

Record ScatterBlock := { sb_offset : Z; sb_size : Z }.

Definition kScatterHeaderSize : Z := 4.
Definition kScatterSegmentSize : Z := 3.
Definition kMaxCommandPayload : Z := 250.

(** [std::numeric_limits<std::size_t>::max()]. *)
Definition size_max : Z := 2 ^ 64 - 1.

(** [data[i]] with the bounds the pointer has. *)
Definition load (data : list Z) (i : Z) : option Z :=
  if 0 <=? i then data !! Z.to_nat i else None.

Definition rejected {A} : option (Result A) := Some (failure FIRMWARE_REJECTED).

(** The loop over the segment descriptors of the block at [offset]; [count]
    iterations are left. *)
Fixpoint sum_segments (data : list Z) (offset : Z) (count : nat) (index data_size : Z)
  : option (Result Z) :=
  match count with
  | O => Some (success data_size)
  | S count =>
      let length_offset := kScatterHeaderSize + index * kScatterSegmentSize + 2 in
      match load data (offset + length_offset) with
      | None => None
      | Some length =>
          if size_max - length <? data_size then rejected
          else sum_segments data offset count (index + 1) (data_size + length)
      end
  end.

Definition parse_scatter_block (image : ByteView) (offset : Z) : option (Result ScatterBlock) :=
  match image with
  | NullView _ => rejected
  | View data =>
      let size := zlen data in
      if size <? offset then rejected
      else if size - offset <? kScatterHeaderSize then rejected
      else
        match load data offset with
        | None => None
        | Some b0 =>
        if negb (b0 =? 3) then rejected
        else
        match load data (offset + 3) with
        | None => None
        | Some segment_count =>
            if (size_max - kScatterHeaderSize) / kScatterSegmentSize <? segment_count then rejected
            else
              let metadata_size := kScatterHeaderSize + segment_count * kScatterSegmentSize in
              if size - offset <? metadata_size then rejected
              else
                match sum_segments data offset (Z.to_nat segment_count) 0 0 with
                | None => None
                | Some (failure e) => Some (failure e)
                | Some (success data_size) =>
                    if (data_size =? 0) || (size_max - data_size <? metadata_size) then rejected
                    else
                      let block_size := metadata_size + data_size in
                      if (kMaxCommandPayload <? block_size) || (size - offset <? block_size) then rejected
                      else Some (success {| sb_offset := offset; sb_size := block_size |})
                end
        end
        end
  end.

(** The loop over the blocks; running out of [fuel] would be [None]. *)
Fixpoint validate_from (fuel : nat) (data : list Z) (offset : Z) : option (Result unit) :=
  match fuel with
  | O => None
  | S fuel =>
      if offset <? zlen data then
        match parse_scatter_block (View data) offset with
        | None => None
        | Some (failure e) => Some (failure e)
        | Some (success block) =>
            if (sb_size block =? 0) || (zlen data - offset <? sb_size block) then rejected
            else validate_from fuel data (offset + sb_size block)
        end
      else Some (success tt)
  end.

Definition validate_scatter_image (image : ByteView) : option (Result unit) :=
  match image with
  | NullView _ => rejected
  | View data =>
      if zlen data =? 0 then rejected
      else validate_from (S (length data)) data 0
  end.

(** * The format *)

(** A block: two bytes the parser does not look at, the descriptors, whose third
    byte is the length of a segment, and the data of all segments. *)
Record Block := {
  blk_unchecked : Z * Z;
  blk_segments : list (Z * Z * Z);
  blk_data : list Z;
}.

Definition segment_bytes (g : Z * Z * Z) : list Z := [g.1.1; g.1.2; g.2].
Definition announced (gs : list (Z * Z * Z)) : Z := foldr (fun g n => g.2 + n) 0 gs.

Definition encode_block (b : Block) : list Z :=
  [3; (blk_unchecked b).1; (blk_unchecked b).2; zlen (blk_segments b)] ++
  (blk_segments b ≫= segment_bytes) ++ blk_data b.

Definition well_formed (b : Block) : Prop :=
  announced (blk_segments b) = zlen (blk_data b) /\ 0 < zlen (blk_data b) /\
  zlen (encode_block b) <= kMaxCommandPayload.

(** * Lemmas *)

Lemma load_drop data o i rest :
  0 <= o -> 0 <= i -> zdrop o data = rest -> load data (o + i) = rest !! Z.to_nat i.
Proof.
  intros Ho Hi <-. unfold load, zdrop. rewrite (proj2 (Z.leb_le _ _)) by lia.
  rewrite lookup_drop. f_equal. lia.
Qed.

Lemma announced_bound gs :
  bytes_ok (gs ≫= segment_bytes) -> 0 <= announced gs <= 255 * zlen gs.
Proof.
  induction gs as [|[[x y] z] gs IH]; intros B; [done|].
  unfold bytes_ok in *. rewrite bind_cons in B.
  apply Forall_app in B as [B1 B2]. specialize (IH B2). rewrite zlen_cons. cbn [announced foldr snd] in *.
  fold (announced gs) in *. unfold segment_bytes in B1. cbn [fst snd] in B1.
  do 3 (apply Forall_cons in B1 as [? B1]). pose proof (zlen_nonneg gs). width_lia.
Qed.

Lemma zlen_segments gs : zlen (gs ≫= segment_bytes) = 3 * zlen gs.
Proof.
  induction gs as [|g gs IH]; [done|]. rewrite bind_cons.
  rewrite zlen_app, zlen_cons, IH. unfold zlen, segment_bytes. cbn [length]. lia.
Qed.

Lemma triples n (l : list Z) :
  length l = (3 * n)%nat -> exists gs, length gs = n /\ l = gs ≫= segment_bytes.
Proof.
  revert l. induction n as [|n IH]; intros l E.
  - exists []. by destruct l.
  - destruct l as [|x [|y [|z l]]]; simpl in E; try lia.
    destruct (IH l) as (gs & L & ->); [lia|]. exists ((x, y, z) :: gs). by rewrite <- L.
Qed.

Lemma sum_segments_ok data o gs index tail d :
  0 <= o -> 0 <= index -> 0 <= d -> d + 255 * zlen gs <= size_max ->
  bytes_ok (gs ≫= segment_bytes) ->
  zdrop (o + (4 + 3 * index)) data = (gs ≫= segment_bytes) ++ tail ->
  sum_segments data o (length gs) index d = Some (success (d + announced gs)).
Proof.
  intros Ho. revert index d. induction gs as [|[[x y] z] gs IH]; intros index d Hi Hd Hs B E.
  - cbn. do 2 f_equal. lia.
  - rewrite zlen_cons in Hs. pose proof (zlen_nonneg gs). cbn [length sum_segments].
    unfold kScatterHeaderSize, kScatterSegmentSize.
    replace (o + (4 + index * 3 + 2)) with (o + (4 + 3 * index) + 2) by lia.
    rewrite (load_drop data (o + (4 + 3 * index)) 2 _) by (done || lia).
    unfold bytes_ok in B. rewrite bind_cons in B. apply Forall_app in B as [B1 B2].
    pose proof B1 as Bz. unfold segment_bytes in Bz. cbn [fst snd] in Bz.
    repeat apply Forall_cons in Bz as [? Bz].
    change (((((x, y, z) :: gs) ≫= segment_bytes) ++ tail) !! Z.to_nat 2) with (Some z). cbv iota beta.
    destruct (Z.ltb_spec (size_max - z) d); [width_lia|].
    rewrite IH; [|lia|width_lia|width_lia|exact B2|].
    + cbn [announced foldr snd]. fold (announced gs). do 2 f_equal. lia.
    + replace (o + (4 + 3 * (index + 1))) with ((o + (4 + 3 * index)) + 3) by lia.
      rewrite <- zdrop_zdrop by lia. rewrite E. done.
Qed.

(** The whole function on the bytes from the block on. *)
Lemma parse_eval data o b0 x y gs tail :
  0 <= o -> bytes_ok (gs ≫= segment_bytes) -> zlen gs <= 255 ->
  zdrop o data = [b0; x; y; zlen gs] ++ (gs ≫= segment_bytes) ++ tail ->
  parse_scatter_block (View data) o =
    if (b0 =? 3) && (0 <? announced gs) && (4 + 3 * zlen gs + announced gs <=? 250)
       && (announced gs <=? zlen tail)
    then Some (success {| sb_offset := o; sb_size := 4 + 3 * zlen gs + announced gs |})
    else rejected.
Proof.
  intros Ho B Hn E. pose proof (announced_bound gs B) as A. pose proof (zlen_nonneg gs) as Hg.
  pose proof (zlen_nonneg tail) as Ht.
  assert (zlen data - o = 4 + 3 * zlen gs + zlen tail) as Len.
  { apply (f_equal zlen) in E. rewrite zlen_drop, !zlen_app, zlen_segments in E.
    change (zlen [b0; x; y; zlen gs]) with 4 in E. pose proof (zlen_nonneg data). lia. }
  unfold parse_scatter_block, kScatterHeaderSize, kScatterSegmentSize, kMaxCommandPayload. cbv zeta.
  destruct (Z.ltb_spec (zlen data) o); [lia|]. destruct (Z.ltb_spec (zlen data - o) 4); [lia|].
  replace (load data o) with (load data (o + 0)) by (f_equal; lia).
  rewrite (load_drop data o 0 _ Ho ltac:(lia) E), (load_drop data o 3 _ Ho ltac:(lia) E).
  change (([b0; x; y; zlen gs] ++ (gs ≫= segment_bytes) ++ tail) !! Z.to_nat 0) with (Some b0).
  change (([b0; x; y; zlen gs] ++ (gs ≫= segment_bytes) ++ tail) !! Z.to_nat 3) with (Some (zlen gs)).
  cbv iota beta. destruct (Z.eqb_spec b0 3); cbn [negb andb]; [|done].
  rewrite (proj2 (Z.ltb_ge _ _)) by (unfold size_max; Z.to_euclidean_division_equations; lia).
  destruct (Z.ltb_spec (zlen data - o) (4 + zlen gs * 3)); [lia|].
  replace (Z.to_nat (zlen gs)) with (length gs) by (unfold zlen; lia).
  assert (zdrop (o + (4 + 3 * 0)) data = (gs ≫= segment_bytes) ++ tail) as E4.
  { replace (o + (4 + 3 * 0)) with (o + 4) by lia. rewrite <- zdrop_zdrop by lia. by rewrite E. }
  rewrite (sum_segments_ok data o gs 0 tail 0 Ho); [|lia|lia|unfold size_max; lia|exact B|exact E4].
  rewrite Z.add_0_l. rewrite (proj2 (Z.ltb_ge (size_max - _) _)) by (unfold size_max; lia).
  rewrite orb_false_r, (Z.mul_comm (zlen gs) 3).
  destruct (Z.eqb_spec (announced gs) 0), (Z.ltb_spec 0 (announced gs)); try lia; cbn [andb orb]; [done|].
  destruct (Z.ltb_spec 250 (4 + 3 * zlen gs + announced gs)),
    (Z.leb_spec (4 + 3 * zlen gs + announced gs) 250); try lia; cbn [andb orb]; [done|].
  destruct (Z.ltb_spec (zlen data - o) (4 + 3 * zlen gs + announced gs)),
    (Z.leb_spec (announced gs) (zlen tail)); try lia; done.
Qed.

Lemma zlen_encode b : zlen (encode_block b) = 4 + 3 * zlen (blk_segments b) + zlen (blk_data b).
Proof. unfold encode_block. rewrite !zlen_app, zlen_segments. unfold zlen at 1. cbn [length]. lia. Qed.

Lemma parse_well_formed data o b tail :
  0 <= o -> bytes_ok data -> well_formed b -> zdrop o data = encode_block b ++ tail ->
  parse_scatter_block (View data) o = Some (success {| sb_offset := o; sb_size := zlen (encode_block b) |}).
Proof.
  intros Ho B (A & D & S) E. rewrite zlen_encode in *. unfold kMaxCommandPayload in S.
  pose proof (bytes_ok_drop o data B) as B'. rewrite E in B'. unfold encode_block in *.
  rewrite !bytes_ok_app in B'. destruct B' as ((_ & B' & _) & _).
  pose proof (zlen_nonneg tail). pose proof (zlen_nonneg (blk_segments b)).
  rewrite (parse_eval data o 3 (blk_unchecked b).1 (blk_unchecked b).2 (blk_segments b) (blk_data b ++ tail));
    [|done|done|lia|by rewrite E, <- !app_assoc].
  rewrite zlen_app, A. rewrite Z.eqb_refl.
  rewrite (proj2 (Z.ltb_lt _ _)), !(proj2 (Z.leb_le _ _)) by lia. done.
Qed.

Lemma parse_cases data o :
  0 <= o <= zlen data -> bytes_ok data ->
  parse_scatter_block (View data) o = rejected \/
  exists b tail, well_formed b /\ zdrop o data = encode_block b ++ tail.
Proof.
  intros Ho B. set (rest := zdrop o data). pose proof (bytes_ok_drop o data B) as B'.
  assert (zlen data - o = zlen rest) as Len by (unfold rest; rewrite zlen_drop; lia).
  destruct (Z.lt_ge_cases (zlen rest) 4) as [S|S].
  { left. unfold parse_scatter_block, kScatterHeaderSize. cbv zeta.
    rewrite (proj2 (Z.ltb_ge _ _)), (proj2 (Z.ltb_lt _ _)) by lia. done. }
  destruct rest as [|b0 [|x [|y [|n t]]]] eqn:Er; unfold zlen in S; cbn [length] in S; try lia. clear S.
  subst rest. rewrite Er in B'. unfold bytes_ok in B'. repeat apply Forall_cons in B' as [? B'].
  destruct (Z.lt_ge_cases (zlen t) (3 * n)) as [S|S].
  { left. unfold parse_scatter_block, kScatterHeaderSize, kScatterSegmentSize. cbv zeta.
    rewrite !zlen_cons in Len. pose proof (zlen_nonneg t).
    destruct (Z.ltb_spec (zlen data) o); [lia|]. destruct (Z.ltb_spec (zlen data - o) 4); [lia|].
    replace (load data o) with (load data (o + 0)) by (f_equal; lia).
    rewrite (load_drop data o 0 _ (proj1 Ho) ltac:(lia) Er), (load_drop data o 3 _ (proj1 Ho) ltac:(lia) Er). change ((b0 :: x :: y :: n :: t) !! Z.to_nat 0) with (Some b0).
    change ((b0 :: x :: y :: n :: t) !! Z.to_nat 3) with (Some n). cbv iota beta.
    case_match; [done|]. case_match; [done|].
    rewrite (proj2 (Z.ltb_lt _ _)) by lia. done. }
  destruct (triples (Z.to_nat n) (ztake (3 * n) t)) as (gs & Lg & Eg).
  { pose proof (zlen_take (3 * n) t) as Z3. unfold zlen in Z3 at 1. width_lia. }
  assert (zlen gs = n) as Zg by (unfold zlen; width_lia).
  assert (t = (gs ≫= segment_bytes) ++ zdrop (3 * n) t) as Et by (by rewrite <- Eg, ztake_zdrop).
  rewrite Et in B'. apply Forall_app in B' as [B1 B2].
  set (tail := zdrop (3 * n) t) in *. pose proof (announced_bound gs B1) as A.
  rewrite (parse_eval data o b0 x y gs tail); [|lia|done|width_lia|by rewrite Er, Zg, <- Et].
  destruct (_ && _) eqn:C; [right|by left].
  rewrite !andb_true_iff, Z.eqb_eq, Z.ltb_lt, !Z.leb_le in C. destruct C as (((-> & C1) & C2) & C3).
  exists {| blk_unchecked := (x, y); blk_segments := gs; blk_data := ztake (announced gs) tail |},
    (zdrop (announced gs) tail).
  assert (zlen (ztake (announced gs) tail) = announced gs) as Zt.
  { rewrite zlen_take. lia. }
  unfold well_formed. rewrite zlen_encode. cbn [blk_segments blk_data]. rewrite Zt.
  split; [unfold kMaxCommandPayload; lia|].
  unfold encode_block. cbn [blk_unchecked blk_segments blk_data fst snd].
  rewrite <- !app_assoc, ztake_zdrop, Zg, Et. done.
Qed.

(** The image from [o] on is a run of well-formed blocks. *)
Definition scatter_run (rest : list Z) : Prop :=
  exists blocks, Forall well_formed blocks /\ rest = blocks ≫= encode_block.

Lemma validate_from_spec fuel data o :
  bytes_ok data -> 0 <= o <= zlen data -> zlen data - o < Z.of_nat fuel ->
  (validate_from fuel data o = Some (success tt) /\ scatter_run (zdrop o data)) \/
  (validate_from fuel data o = rejected /\ ~ scatter_run (zdrop o data)).
Proof.
  intros B. revert o. induction fuel as [|fuel IH]; intros o Ho Hf; [lia|]. cbn [validate_from].
  destruct (Z.ltb_spec o (zlen data)).
  2:{ left. split; [done|]. exists []. split; [done|]. by rewrite zdrop_ge by lia. }
  assert (forall b rest, well_formed b -> zdrop o data = encode_block b ++ rest ->
    parse_scatter_block (View data) o = Some (success {| sb_offset := o; sb_size := zlen (encode_block b) |}))
    as P by (intros; eapply parse_well_formed; (done || lia)).
  destruct (parse_cases data o Ho B) as [R|(b & tail & W & E)].
  - right. rewrite R. split; [done|]. intros ([|b blocks] & F & E).
    + apply (f_equal zlen) in E. rewrite zlen_drop in E. change (zlen ([] ≫= encode_block)) with 0 in E. lia.
    + apply Forall_cons in F as [W F]. specialize (P b _ W E). rewrite R in P. discriminate P.
  - rewrite (P b tail W E). cbn [sb_size].
    assert (zlen data - o = zlen (encode_block b) + zlen tail) as Len.
    { apply (f_equal zlen) in E. rewrite zlen_drop, zlen_app in E. lia. }
    pose proof (zlen_nonneg tail). pose proof (zlen_encode b) as Z1. pose proof W as (W1 & W2 & W3).
    pose proof (zlen_nonneg (blk_segments b)).
    rewrite (proj2 (Z.eqb_neq _ _)), (proj2 (Z.ltb_ge _ _)) by lia. cbn [orb].
    assert (zdrop (o + zlen (encode_block b)) data = tail) as Et.
    { rewrite <- zdrop_zdrop by lia. rewrite E. by apply zdrop_app. }
    destruct (IH (o + zlen (encode_block b))) as [[V (bs & F & Ebs)]|[V N]]; [lia|lia|..]; rewrite V, Et in *.
    + left. split; [done|]. exists (b :: bs). split; [by constructor|]. by rewrite E, Ebs.
    + right. split; [done|]. intros ([|b' blocks] & F & E').
      * apply (f_equal zlen) in E'. rewrite zlen_drop in E'.
        change (zlen ([] ≫= encode_block)) with 0 in E'. lia.
      * apply Forall_cons in F as [W' F]. apply N. exists blocks. split; [done|].
        assert (zlen (encode_block b') = zlen (encode_block b)) as L.
        { pose proof (P b' _ W' E') as P1. rewrite (P b tail W E) in P1.
          revert P1. generalize (zlen (encode_block b)), (zlen (encode_block b')). congruence. }
        pose proof (zlen_nonneg (blk_segments b')) as Zb. rewrite <- Et, <- zdrop_zdrop, E' by lia. by apply zdrop_app.
Qed.

(** * Theorems *)

(** C31 The validation of a scatter image always answers, without a load outside the
    image, and accepts exactly the images that are a non-empty run of
    well-formed blocks, each small enough for one command; everything else is
    [FIRMWARE_REJECTED]. *)
Theorem validate_scatter_correct image :
  bytes_ok (view_bytes image) ->
  let accepted := exists blocks, blocks <> [] /\ Forall well_formed blocks /\
    image = View (blocks ≫= encode_block) in
  (validate_scatter_image image = Some (success tt) /\ accepted) \/
  (validate_scatter_image image = rejected /\ ~ accepted).
Proof.
  intros B accepted. destruct image as [n|data].
  { right. split; [done|]. by intros (bs & _ & _ & E). }
  cbn [view_bytes] in B. unfold validate_scatter_image. pose proof (zlen_nonneg data).
  destruct (Z.eqb_spec (zlen data) 0) as [Z0|Z0].
  - right. split; [done|]. intros ([|b bs] & N & F & E); [done|].
    assert (data = (b :: bs) ≫= encode_block) as -> by (by injection E).
    rewrite bind_cons in Z0. rewrite zlen_app, zlen_encode in Z0. revert Z0.
    match goal with |- context [zlen (?l ≫= ?f)] => pose proof (zlen_nonneg (l ≫= f)) end.
    pose proof (zlen_nonneg (blk_segments b)). pose proof (zlen_nonneg (blk_data b)). lia.
  - destruct (validate_from_spec (S (length data)) data 0 B) as [[V (bs & F & E)]|[V N]];
      [lia|unfold zlen; lia|..]; rewrite zdrop_0 in *; rewrite V.
    + left. split; [done|]. exists bs. split; [|by rewrite <- E]. intros ->. by rewrite E in Z0.
    + right. split; [done|]. intros (bs & _ & F & E). apply N. injection E as E. by exists bs.
Qed.

(** Two segments of two and one bytes. *)
Definition small_block : Block :=
  {| blk_unchecked := (0, 1); blk_segments := [(16, 0, 2); (16, 2, 1)]; blk_data := [170; 187; 204] |}.

Lemma validate_scatter_correct_witness :
  validate_scatter_image (View (encode_block small_block ++ encode_block small_block)) = Some (success tt) /\
  validate_scatter_image (View (encode_block small_block ++ [3])) = rejected.
Proof.
  split; [|reflexivity].
  destruct (validate_scatter_correct (View (encode_block small_block ++ encode_block small_block)))
    as [[V _]|[_ N]].
  - apply bytes_okb_ok. reflexivity.
  - exact V.
  - exfalso. apply N. exists [small_block; small_block].
    split; [discriminate|]. split; [|reflexivity].
    repeat constructor; discriminate.
Defined.
