(* ===== verification/IoMonad.v ===== *)
(** Code that talks to hardware: a computation takes a state to a result and the
    next state.  [None] is a loop that ran out of fuel; the components prove
    that theirs do not.  A failure ends the computation with the state it left,
    as an early return does; [attempt] is a call whose result the code inspects. *)

From S2P Require Import Prelude.

Definition Io (S A : Type) : Type := S -> option (Result A * S).

#[export] Instance Io_ret {S} : MRet (Io S) := fun A a s => Some (success a, s).
#[export] Instance Io_bind {S} : MBind (Io S) := fun A B k m s =>
  match m s with
  | None => None
  | Some (failure e, s) => Some (failure e, s)
  | Some (success a, s) => k a s
  end.

Section Operations.
Context {S : Type}.

Definition fail {A} (e : Error) : Io S A := fun s => Some (failure e, s).
Definition diverge {A} : Io S A := fun _ => None.
Definition attempt {A} (m : Io S A) : Io S (Result A) := fun s =>
  match m s with
  | None => None
  | Some (r, s) => Some (success r, s)
  end.
Definition from_result {A} (r : Result A) : Io S A := fun s => Some (r, s).
(** A primitive of the hardware. *)
Definition call {A} (f : S -> Result A * S) : Io S A := fun s => Some (f s).
Definition gets {A} (f : S -> A) : Io S A := fun s => Some (success (f s), s).
Definition modify (f : S -> S) : Io S unit := fun s => Some (success tt, f s).

(** [if (!c) return failure(e)]. *)
Definition require (c : bool) (e : Error) : Io S unit := if c then mret tt else fail e.
End Operations.

(** A computation on a part of the state. *)
Definition on_snd {S T A} (m : Io T A) : Io (S * T) A := fun st =>
  match m st.2 with
  | None => None
  | Some (r, t) => Some (r, (st.1, t))
  end.

(** * Lemmas *)

Section Facts.
Context {S : Type}.

Lemma bind_some {A B} (m : Io S A) (k : A -> Io S B) s r s' :
  (m ≫= k) s = Some (r, s') ->
  (exists e, m s = Some (failure e, s') /\ r = failure e) \/
  (exists a s1, m s = Some (success a, s1) /\ k a s1 = Some (r, s')).
Proof.
  unfold mbind, Io_bind. destruct (m s) as [[[a|e] s1]|] eqn:E; [|left|done].
  - intros K. right. eauto.
  - eexists. split; [|by injection H as <- <-]. by injection H as <- <-.
Qed.

Lemma bind_success {A B} (m : Io S A) (k : A -> Io S B) s a s1 :
  m s = Some (success a, s1) -> (m ≫= k) s = k a s1.
Proof. unfold mbind, Io_bind. by intros ->. Qed.

Lemma bind_failure {A B} (m : Io S A) (k : A -> Io S B) s e s1 :
  m s = Some (failure e, s1) -> (m ≫= k) s = Some (failure e, s1).
Proof. unfold mbind, Io_bind. by intros ->. Qed.

(** A computation that returns, with what holds of the result and the state. *)
Definition returns {A} (m : Io S A) (s : S) (Q : Result A -> S -> Prop) : Prop :=
  exists r s', m s = Some (r, s') /\ Q r s'.

Lemma returns_ret {A} (a : A) s (Q : Result A -> S -> Prop) : Q (success a) s -> returns (mret a) s Q.
Proof. intros H. by exists (success a), s. Qed.

Lemma returns_fail {A} e s (Q : Result A -> S -> Prop) : Q (failure e) s -> returns (fail e) s Q.
Proof. intros H. by exists (failure e), s. Qed.

Lemma returns_call {A} (f : S -> Result A * S) s (Q : Result A -> S -> Prop) :
  Q (f s).1 (f s).2 -> returns (call f) s Q.
Proof. intros H. exists (f s).1, (f s).2. split; [|done]. unfold call. by destruct (f s). Qed.

Lemma returns_modify f s (Q : Result unit -> S -> Prop) : Q (success tt) (f s) -> returns (modify f) s Q.
Proof. intros H. by exists (success tt), (f s). Qed.

Lemma returns_gets {A} (f : S -> A) s (Q : Result A -> S -> Prop) :
  Q (success (f s)) s -> returns (gets f) s Q.
Proof. intros H. by exists (success (f s)), s. Qed.

Lemma returns_bind {A B} (m : Io S A) (k : A -> Io S B) s (Q : Result B -> S -> Prop) :
  returns m s (fun r s' => match r with
    | success a => returns (k a) s' Q
    | failure e => Q (failure e) s' end) ->
  returns (m ≫= k) s Q.
Proof.
  intros (r & s' & E & H). destruct r as [a|e].
  - destruct H as (r2 & s2 & E2 & H). exists r2, s2. split; [|done]. by rewrite (bind_success _ _ _ _ _ E).
  - exists (failure e), s'. split; [|done]. by apply bind_failure.
Qed.

Lemma returns_attempt {A} (m : Io S A) s (Q : Result (Result A) -> S -> Prop) :
  returns m s (fun r s' => Q (success r) s') -> returns (attempt m) s Q.
Proof.
  intros (r & s' & E & H). exists (success r), s'. split; [|done]. unfold attempt. by rewrite E.
Qed.

Lemma returns_mono {A} (m : Io S A) s (Q Q' : Result A -> S -> Prop) :
  returns m s Q -> (forall r s', Q r s' -> Q' r s') -> returns m s Q'.
Proof. intros (r & s' & E & H) I. exists r, s'. split; [done|]. by apply I. Qed.
End Facts.

Lemma returns_on_snd {S T A} (m : Io T A) (st : S * T) (Q : Result A -> S * T -> Prop) :
  returns m st.2 (fun r t => Q r (st.1, t)) -> returns (on_snd m) st Q.
Proof.
  intros (r & t & E & H). exists r, (st.1, t). split; [|done]. unfold on_snd. by rewrite E.
Qed.
