(* ===== verification/CardAtr.v ===== *)
(** The answer-to-reset parser of [src/card.cpp] ([parse_card_atr]) against the
    grammar of ISO 7816-3: interface groups announced by T0 and the TD bytes,
    historical bytes, and a check byte unless T=0 is the only protocol. *)

From S2P Require Import Prelude.

Inductive It930xCardBaudRate := baud_9600 | baud_19200 | baud_38400.
Inductive CardEdc := lrc | crc.

#[export] Instance It930xCardBaudRate_eq_dec : EqDecision It930xCardBaudRate.
Proof. solve_decision. Defined.
#[export] Instance CardEdc_eq_dec : EqDecision CardEdc.
Proof. solve_decision. Defined.

Definition kPx4CardAtrMaxLength : Z := 33.
Definition kDefaultBlockTimeoutMs : Z := 500.
Definition kOperationTimeoutMs : Z := 3000.

(** The members the interface bytes decide. *)
Record AtrFields := {
  baud_rate : It930xCardBaudRate;
  ifsc : Z;
  edc : CardEdc;
  block_timeout_ms : Z;
}.

Definition default_fields : AtrFields :=
  {| baud_rate := baud_9600; ifsc := 32; edc := lrc; block_timeout_ms := kDefaultBlockTimeoutMs |}.

(** [CardAtr]: the array, the length of the ATR in it, and the fields. *)
Record CardAtr := {
  atr_bytes : list Z;
  atr_length : Z;
  atr_fields : AtrFields;
}.

Definition empty_atr : CardAtr :=
  {| atr_bytes := replicate 33 0; atr_length := 0; atr_fields := default_fields |}.

(** [CardAtr::view]. *)
Definition view (a : CardAtr) : ByteView := View (ztake (atr_length a) (atr_bytes a)).

Definition with_baud_rate (f : AtrFields) (b : It930xCardBaudRate) : AtrFields :=
  {| baud_rate := b; ifsc := ifsc f; edc := edc f; block_timeout_ms := block_timeout_ms f |}.
Definition with_ifsc (f : AtrFields) (n : Z) : AtrFields :=
  {| baud_rate := baud_rate f; ifsc := n; edc := edc f; block_timeout_ms := block_timeout_ms f |}.
Definition with_edc (f : AtrFields) (e : CardEdc) : AtrFields :=
  {| baud_rate := baud_rate f; ifsc := ifsc f; edc := e; block_timeout_ms := block_timeout_ms f |}.
Definition with_block_timeout (f : AtrFields) (n : Z) : AtrFields :=
  {| baud_rate := baud_rate f; ifsc := ifsc f; edc := edc f; block_timeout_ms := n |}.

(** An interface byte that is there when its bit of the group is set. *)
Definition interface_byte (data : list Z) (interfaces bit offset : Z) : Result (option Z * Z) :=
  if negb (Z.land interfaces bit =? 0) then
    if zlen data <=? offset then failure NOT_READY
    else success (Some (byte_at data offset), offset + 1)
  else success (None, offset).

(** TA of the first group chooses the baud rate. *)
Definition choose_baud_rate (group : Z) (ta : option Z) (f : AtrFields) : Result AtrFields :=
  match ta with
  | Some ta =>
      if group =? 1 then
        if ta =? 0x11 then success (with_baud_rate f baud_9600)
        else if ta =? 0x12 then success (with_baud_rate f baud_19200)
        else if ta =? 0x13 then success (with_baud_rate f baud_38400)
        else failure UNSUPPORTED
      else success f
  | None => success f
  end.

Definition block_timeout (tb : Z) : Z :=
  let bwi := Z.shiftr tb 4 in
  let waiting := if bwi <? 5 then Z.shiftl 100 bwi else kOperationTimeoutMs in
  Z.min kOperationTimeoutMs (Z.max kDefaultBlockTimeoutMs waiting).

(** TA, TB and TC of a later group of protocol T=1. *)
Definition t1_parameters (group : Z) (t1_group : bool) (ta tb tc : option Z) (f : AtrFields) : AtrFields :=
  if t1_group && (3 <=? group) then
    let f := match ta with
             | Some ta => if (1 <=? ta) && (ta <=? 254) then with_ifsc f ta else f
             | None => f end in
    let f := match tb with Some tb => with_block_timeout f (block_timeout tb) | None => f end in
    match tc with
    | Some tc => with_edc f (if negb (Z.land tc 0x01 =? 0) then crc else lrc)
    | None => f
    end
  else f.

(** The variables of the loop over the groups. *)
Record Groups := {
  interfaces : Z;
  offset : Z;
  group : Z;
  has_non_t0_protocol : bool;
  t1_group : bool;
  fields : AtrFields;
}.

(** One round of the loop. *)
Definition parse_group (data : list Z) (s : Groups) : Result Groups :=
  '(ta, offset) ← interface_byte data (interfaces s) 0x01 (offset s);
  '(tb, offset) ← interface_byte data (interfaces s) 0x02 offset;
  '(tc, offset) ← interface_byte data (interfaces s) 0x04 offset;
  f ← choose_baud_rate (group s) ta (fields s);
  let f := t1_parameters (group s) (t1_group s) ta tb tc f in
  '(td, offset) ← interface_byte data (interfaces s) 0x08 offset;
  match td with
  | Some td =>
      let protocol := Z.land td 0x0f in
      success {| interfaces := cast_u8 (Z.shiftr td 4); offset := offset; group := group s + 1;
        has_non_t0_protocol := has_non_t0_protocol s || negb (protocol =? 0);
        t1_group := protocol =? 1; fields := f |}
  | None =>
      success {| interfaces := 0; offset := offset; group := group s;
        has_non_t0_protocol := has_non_t0_protocol s; t1_group := t1_group s; fields := f |}
  end.

(** [while (interfaces != 0U)]; running out of fuel would be [None]. *)
Fixpoint parse_groups (fuel : nat) (data : list Z) (s : Groups) : option (Result Groups) :=
  if interfaces s =? 0 then Some (success s)
  else
    match fuel with
    | O => None
    | S fuel =>
        match parse_group data s with
        | failure e => Some (failure e)
        | success s => parse_groups fuel data s
        end
    end.

Definition xor_bytes (l : list Z) : Z := foldl (fun x b => cast_u8 (Z.lxor x b)) 0 l.

(** What follows the loop. *)
Definition finish_atr (data : list Z) (historical_length : Z) (s : Groups) : Result CardAtr :=
  let expected_length := offset s + historical_length + (if has_non_t0_protocol s then 1 else 0) in
  if kPx4CardAtrMaxLength <? expected_length then failure PROTOCOL_ERROR
  else if zlen data <? expected_length then failure NOT_READY
  else if expected_length <? zlen data then failure PROTOCOL_ERROR
  else if has_non_t0_protocol s && negb (xor_bytes (zdrop 1 data) =? 0) then failure PROTOCOL_ERROR
  else success {| atr_bytes := data ++ replicate (33 - length data) 0; atr_length := zlen data;
                  atr_fields := fields s |}.

Definition start_groups (t0 : Z) : Groups :=
  {| interfaces := cast_u8 (Z.shiftr t0 4); offset := 2; group := 1;
     has_non_t0_protocol := false; t1_group := false; fields := default_fields |}.

Definition parse_card_atr (bytes : ByteView) : option (Result CardAtr) :=
  match bytes with
  | NullView n =>
      if negb (n =? 0) then Some (failure INVALID_ARGUMENT) else Some (failure NOT_READY)
  | View data =>
      if kPx4CardAtrMaxLength <? zlen data then Some (failure PROTOCOL_ERROR)
      else if zlen data <? 2 then Some (failure NOT_READY)
      else if negb (byte_at data 0 =? 0x3b) && negb (byte_at data 0 =? 0x3f)
      then Some (failure PROTOCOL_ERROR)
      else
        let t0 := byte_at data 1 in
        match parse_groups (S (length data)) data (start_groups t0) with
        | None => None
        | Some (failure e) => Some (failure e)
        | Some (success s) => Some (finish_atr data (Z.land t0 0x0f) s)
        end
  end.

(** * The grammar *)

(** TA, TB and TC of a group. *)
Record InterfaceGroup := { g_ta : option Z; g_tb : option Z; g_tc : option Z }.

Definition opt_bytes (o : option Z) : list Z := match o with Some b => [b] | None => [] end.
Definition opt_bit (o : option Z) (bit : Z) : Z := match o with Some _ => bit | None => 0 end.

(** The groups after the first, each with the protocol its TD byte names. *)
Definition Chain : Type := list (Z * InterfaceGroup).

(** The bits that announce a group and whether another follows it. *)
Definition announce (g : InterfaceGroup) (rest : Chain) : Z :=
  opt_bit (g_ta g) 1 + opt_bit (g_tb g) 2 + opt_bit (g_tc g) 4 +
  match rest with [] => 0 | _ => 8 end.

Fixpoint encode_chain (rest : Chain) : list Z :=
  match rest with
  | [] => []
  | (protocol, g) :: rest =>
      (16 * announce g rest + protocol) ::
      opt_bytes (g_ta g) ++ opt_bytes (g_tb g) ++ opt_bytes (g_tc g) ++ encode_chain rest
  end.
Definition encode_groups (g : InterfaceGroup) (rest : Chain) : list Z :=
  opt_bytes (g_ta g) ++ opt_bytes (g_tb g) ++ opt_bytes (g_tc g) ++ encode_chain rest.

(** An answer to reset. *)
Record Atr := {
  a_inverse : bool;
  a_first : InterfaceGroup;
  a_rest : Chain;
  a_historical : list Z;
}.

Definition names_other_protocol (rest : Chain) : bool := existsb (fun p => negb (p.1 =? 0)) rest.

Definition encode_atr (a : Atr) : list Z :=
  let body := (16 * announce (a_first a) (a_rest a) + zlen (a_historical a)) ::
    encode_groups (a_first a) (a_rest a) ++ a_historical a in
  (if a_inverse a then 0x3f else 0x3b) :: body ++
    (if names_other_protocol (a_rest a) then [xor_bytes body] else []).

Definition group_ok (g : InterfaceGroup) : Prop :=
  bytes_ok (opt_bytes (g_ta g)) /\ bytes_ok (opt_bytes (g_tb g)) /\ bytes_ok (opt_bytes (g_tc g)).
Definition chain_ok (rest : Chain) : Prop :=
  Forall (fun p => 0 <= p.1 < 16 /\ group_ok p.2) rest.

Definition atr_ok (a : Atr) : Prop :=
  group_ok (a_first a) /\ chain_ok (a_rest a) /\ bytes_ok (a_historical a) /\
  zlen (a_historical a) < 16 /\ zlen (encode_atr a) <= kPx4CardAtrMaxLength.

(** The fields the groups decide, in order. *)
Fixpoint chain_fields (index : Z) (t1 : bool) (g : InterfaceGroup) (rest : Chain) (f : AtrFields)
  : Result AtrFields :=
  f ← choose_baud_rate index (g_ta g) f;
  let f := t1_parameters index t1 (g_ta g) (g_tb g) (g_tc g) f in
  match rest with
  | [] => success f
  | (protocol, g) :: rest => chain_fields (index + 1) (protocol =? 1) g rest f
  end.

Definition fields_of (a : Atr) : Result AtrFields :=
  chain_fields 1 false (a_first a) (a_rest a) default_fields.

(** The result of parsing an answer to reset. *)
Definition parsed (l : list Z) (f : AtrFields) : CardAtr :=
  {| atr_bytes := l ++ replicate (33 - length l) 0; atr_length := zlen l; atr_fields := f |}.

(** * Lemmas *)

Lemma zdrop_byte (l t : list Z) o b : 0 <= o -> zdrop o l = b :: t -> o < zlen l /\ byte_at l o = b /\ zdrop (o + 1) l = t.
Proof.
  intros Ho E. assert (o < zlen l) as L.
  { apply (f_equal zlen) in E. rewrite zlen_drop, zlen_cons in E. pose proof (zlen_nonneg t). lia. }
  split; [done|]. split.
  - replace o with (o + 0) by lia. rewrite <- byte_at_drop by lia. by rewrite E.
  - rewrite <- zdrop_zdrop by lia. by rewrite E.
Qed.

Lemma zdrop_more (l : list Z) o : 0 <= o < zlen l -> zdrop o l = byte_at l o :: zdrop (o + 1) l.
Proof.
  intros Ho. destruct (zdrop o l) as [|b t] eqn:E.
  - apply (f_equal zlen) in E. rewrite zlen_drop in E. change (zlen (@nil Z)) with 0 in E. lia.
  - by apply zdrop_byte in E as (_ & -> & ->); [|lia].
Qed.

(** An interface byte that is announced is the next byte. *)
Lemma interface_byte_at data y bit o r tail :
  0 <= o -> opt_bytes r ++ tail = zdrop o data -> negb (Z.land y bit =? 0) = bool_decide (is_Some r) ->
  interface_byte data y bit o = success (r, o + zlen (opt_bytes r)) /\ zdrop (o + zlen (opt_bytes r)) data = tail.
Proof.
  intros Ho E B. unfold interface_byte. rewrite B. destruct r as [b|]; cbn [opt_bytes app] in *.
  - rewrite bool_decide_true by by eexists. symmetry in E. apply zdrop_byte in E as (L & E1 & E2); [|done].
    change (zlen [b]) with 1. rewrite (proj2 (Z.leb_gt _ _)) by lia. by rewrite E1, E2.
  - rewrite bool_decide_false by by intros [? ?]. change (zlen (@nil Z)) with 0. by rewrite Z.add_0_r.
Qed.

Lemma interface_byte_inv data y bit o r o' :
  0 <= o <= zlen data -> interface_byte data y bit o = success (r, o') ->
  zdrop o data = opt_bytes r ++ zdrop o' data /\ o <= o' <= zlen data /\ o' = o + zlen (opt_bytes r) /\
  negb (Z.land y bit =? 0) = bool_decide (is_Some r).
Proof.
  intros Ho. unfold interface_byte. destruct (negb _).
  - destruct (Z.leb_spec (zlen data) o); [done|]. intros E. injection E as <- <-.
    rewrite bool_decide_true by by eexists. cbn [opt_bytes app]. change (zlen [_]) with 1.
    split; [apply zdrop_more; lia|]. split; [lia|done].
  - intros E. injection E as <- <-. rewrite bool_decide_false by by intros [? ?].
    cbn. change (zlen (@nil Z)) with 0. split; [done|]. split; [lia|]. split; [lia|done].
Qed.

Lemma announce_range g rest : 0 <= announce g rest < 16.
Proof. unfold announce. destruct (g_ta g), (g_tb g), (g_tc g), rest; cbn; lia. Qed.

(** The four bits of an announcement. *)
Lemma announce_bits g rest :
  negb (Z.land (announce g rest) 1 =? 0) = bool_decide (is_Some (g_ta g)) /\
  negb (Z.land (announce g rest) 2 =? 0) = bool_decide (is_Some (g_tb g)) /\
  negb (Z.land (announce g rest) 4 =? 0) = bool_decide (is_Some (g_tc g)) /\
  negb (Z.land (announce g rest) 8 =? 0) = match rest with [] => false | _ => true end.
Proof. unfold announce. by destruct (g_ta g), (g_tb g), (g_tc g), rest. Qed.

Lemma announce_of_bits y g rest :
  0 <= y < 16 ->
  negb (Z.land y 1 =? 0) = bool_decide (is_Some (g_ta g)) ->
  negb (Z.land y 2 =? 0) = bool_decide (is_Some (g_tb g)) ->
  negb (Z.land y 4 =? 0) = bool_decide (is_Some (g_tc g)) ->
  negb (Z.land y 8 =? 0) = match rest with [] => false | _ => true end ->
  y = announce g rest.
Proof.
  intros Hy. destruct (announce_bits g rest) as (<- & <- & <- & <-). pose proof (announce_range g rest) as Ha.
  revert Ha. generalize (announce g rest). intros z Hz B0 B1 B2 B3.
  assert (forall k v, 0 <= v < 16 -> 0 <= k < 4 -> negb (Z.land v (2 ^ k) =? 0) = Z.testbit v k) as T.
  { intros k v Hv Hk. destruct (Z.testbit v k) eqn:E.
    - apply negb_true_iff, Z.eqb_neq. intros Z0. apply (f_equal (fun x => Z.testbit x k)) in Z0.
      by rewrite Z.land_spec, E, Z.pow2_bits_true, Z.bits_0 in Z0 by lia.
    - apply negb_false_iff, Z.eqb_eq. apply Z.bits_inj'. intros i Hi.
      rewrite Z.land_spec, Z.pow2_bits_eqb, Z.bits_0 by lia. destruct (Z.eqb_spec k i) as [->|].
      + by rewrite E. + apply andb_false_r. }
  pose proof (T 0 y) as T0. pose proof (T 1 y) as T1. pose proof (T 2 y) as T2. pose proof (T 3 y) as T3.
  pose proof (T 0 z) as U0. pose proof (T 1 z) as U1. pose proof (T 2 z) as U2. pose proof (T 3 z) as U3.
  cbn [Z.pow Z.pow_pos Pos.iter Z.mul Pos.mul] in *.
  apply Z.bits_inj'. intros i Hi. destruct (Z.lt_ge_cases i 4).
  - assert (i = 0 \/ i = 1 \/ i = 2 \/ i = 3) as [->|[->|[->| ->]]] by lia.
    + rewrite <- T0, <- U0 by lia. done.
    + rewrite <- T1, <- U1 by lia. done.
    + rewrite <- T2, <- U2 by lia. done.
    + rewrite <- T3, <- U3 by lia. done.
  - rewrite !(testbit_small _ 4) by lia. done.
Qed.

Lemma td_split a p : 0 <= a < 16 -> 0 <= p < 16 ->
  cast_u8 (Z.shiftr (16 * a + p) 4) = a /\ Z.land (16 * a + p) 0x0f = p.
Proof.
  intros Ha Hp. unfold cast_u8. rewrite Z.shiftr_div_pow2 by lia.
  change 0x0f with (Z.ones 4). rewrite Z.land_ones by lia.
  split; Z.to_euclidean_division_equations; lia.
Qed.

Lemma td_join td : is_u8 td ->
  td = 16 * cast_u8 (Z.shiftr td 4) + Z.land td 0x0f /\ 0 <= cast_u8 (Z.shiftr td 4) < 16 /\
  0 <= Z.land td 0x0f < 16.
Proof.
  intros Hd. unfold cast_u8. rewrite Z.shiftr_div_pow2 by lia.
  change 0x0f with (Z.ones 4). rewrite Z.land_ones by lia. widths.
  Z.to_euclidean_division_equations. lia.
Qed.

(** A round of the loop at a group of the grammar. *)
Lemma parse_group_at data s g rest tail :
  0 <= offset s -> interfaces s = announce g rest -> chain_ok rest ->
  zdrop (offset s) data = encode_groups g rest ++ tail ->
  parse_group data s =
    (f ← choose_baud_rate (group s) (g_ta g) (fields s);
     let f := t1_parameters (group s) (t1_group s) (g_ta g) (g_tb g) (g_tc g) f in
     let o := offset s + zlen (opt_bytes (g_ta g)) + zlen (opt_bytes (g_tb g)) + zlen (opt_bytes (g_tc g)) in
     success match rest with
     | [] => {| interfaces := 0; offset := o; group := group s;
                has_non_t0_protocol := has_non_t0_protocol s; t1_group := t1_group s; fields := f |}
     | (p, g') :: rest' =>
         {| interfaces := announce g' rest'; offset := o + 1; group := group s + 1;
            has_non_t0_protocol := has_non_t0_protocol s || negb (p =? 0); t1_group := p =? 1; fields := f |}
     end).
Proof.
  intros Ho Hi C E. destruct (announce_bits g rest) as (B0 & B1 & B2 & B3). rewrite <- Hi in *.
  unfold encode_groups in E. rewrite <- !app_assoc in E. symmetry in E. unfold parse_group.
  destruct (interface_byte_at data (interfaces s) 1 (offset s) _ _ Ho E B0) as [R0 E0]. rewrite R0.
  cbn [mbind Result_bind]. pose proof (zlen_nonneg (opt_bytes (g_ta g))).
  destruct (interface_byte_at data (interfaces s) 2 (offset s + zlen (opt_bytes (g_ta g))) _ _ ltac:(lia) (eq_sym E0) B1) as [R1 E1].
  rewrite R1. cbn [mbind Result_bind]. pose proof (zlen_nonneg (opt_bytes (g_tb g))).
  destruct (interface_byte_at data (interfaces s) 4 (offset s + zlen (opt_bytes (g_ta g)) + zlen (opt_bytes (g_tb g))) _ _ ltac:(lia) (eq_sym E1) B2) as [R2 E2].
  rewrite R2. cbn [mbind Result_bind]. pose proof (zlen_nonneg (opt_bytes (g_tc g))).
  destruct (choose_baud_rate _ _ _) as [f|e]; [|done]. cbn [mbind Result_bind].
  unfold interface_byte. rewrite B3. set (o := offset s + _ + _ + _) in *.
  destruct rest as [|[p g'] rest']; [done|]. cbn [encode_chain app] in E2.
  apply zdrop_byte in E2 as (L & Eb & _); [|lia]. rewrite (proj2 (Z.leb_gt _ _)) by lia.
  cbn [mbind Result_bind]. rewrite Eb. apply Forall_cons in C as [[Hp _] _]. cbn [fst] in Hp.
  destruct (td_split (announce g' rest') p (announce_range g' rest') Hp) as [-> ->]. done.
Qed.

Lemma announce_0 g rest : announce g rest = 0 ->
  g_ta g = None /\ g_tb g = None /\ g_tc g = None /\ rest = [].
Proof. unfold announce. by destruct (g_ta g), (g_tb g), (g_tc g), rest. Qed.

Lemma t1_parameters_none index t1 f : t1_parameters index t1 None None None f = f.
Proof. unfold t1_parameters. by destruct (_ && _). Qed.

Lemma parse_groups_done fuel data s :
  interfaces s = 0 -> parse_groups fuel data s = Some (success s).
Proof. intros E. destruct fuel; cbn [parse_groups]; by rewrite E. Qed.

(** The loop on a chain of the grammar. *)
Lemma parse_groups_complete fuel data tail rest : forall s g f,
  0 <= offset s -> interfaces s = announce g rest -> chain_ok rest ->
  zdrop (offset s) data = encode_groups g rest ++ tail ->
  chain_fields (group s) (t1_group s) g rest (fields s) = success f ->
  (length rest < fuel)%nat ->
  exists s', parse_groups fuel data s = Some (success s') /\
    offset s' = offset s + zlen (encode_groups g rest) /\ fields s' = f /\
    has_non_t0_protocol s' = has_non_t0_protocol s || names_other_protocol rest.
Proof.
  revert fuel. induction rest as [|[p g'] rest IH]; intros fuel s g f Ho Hi C E F L;
    (destruct fuel as [|fuel]; [simpl in L; lia|]).
  - destruct (Z.eq_dec (interfaces s) 0) as [Z0|Z0].
    + rewrite parse_groups_done by done. exists s. rewrite Z0 in Hi. symmetry in Hi.
      apply announce_0 in Hi as (Ea & Eb & Ec & _). unfold encode_groups. cbn [chain_fields] in F.
      rewrite Ea, Eb, Ec in *. cbn [choose_baud_rate mbind Result_bind] in F.
      rewrite t1_parameters_none in F. injection F as <-.
      split; [done|]. split; [unfold zlen; cbn; lia|]. split; [done|]. by rewrite orb_false_r.
    + cbn [parse_groups]. rewrite (proj2 (Z.eqb_neq _ _)) by done.
      rewrite (parse_group_at data s g [] tail) by done. cbn [chain_fields] in F.
      destruct (choose_baud_rate _ _ _) as [f1|e]; [|done]. cbn [mbind Result_bind] in *. injection F as <-.
      rewrite parse_groups_done by done. eexists. split; [done|]. cbn [offset fields has_non_t0_protocol].
      unfold encode_groups. cbn [encode_chain]. rewrite !zlen_app, orb_false_r.
      split; [|done]. change (zlen (@nil Z)) with 0. lia.
  - assert (interfaces s <> 0) as Z0.
    { intros Z0. rewrite Z0 in Hi. symmetry in Hi. by apply announce_0 in Hi as (_ & _ & _ & ?). }
    cbn [parse_groups]. rewrite (proj2 (Z.eqb_neq _ _)) by done.
    rewrite (parse_group_at data s g ((p, g') :: rest) tail) by done. cbn [chain_fields] in F.
    destruct (choose_baud_rate _ _ _) as [f1|e]; [|done]. cbn [mbind Result_bind] in *.
    set (o := offset s + _ + _ + _). set (f2 := t1_parameters _ _ _ _ _ _) in *.
    pose proof (zlen_nonneg (opt_bytes (g_ta g))). pose proof (zlen_nonneg (opt_bytes (g_tb g))).
    pose proof (zlen_nonneg (opt_bytes (g_tc g))).
    apply Forall_cons in C as [C1 C].
    edestruct (IH fuel {| interfaces := announce g' rest; offset := o + 1; group := group s + 1;
      has_non_t0_protocol := has_non_t0_protocol s || negb (p =? 0); t1_group := p =? 1; fields := f2 |}
      g' f) as (s' & P & O & F' & N); cbn [interfaces offset group t1_group fields has_non_t0_protocol] in *.
    + lia.
    + done.
    + done.
    + unfold encode_groups in *. cbn [encode_chain] in E. rewrite <- !app_assoc in E.
      assert (zdrop o data = ((16 * announce g' rest + p) ::
        (opt_bytes (g_ta g') ++ opt_bytes (g_tb g') ++ opt_bytes (g_tc g') ++ encode_chain rest)) ++ tail) as Eo.
      { unfold o. rewrite <- !zdrop_zdrop by lia. rewrite E. by rewrite !zdrop_app. }
      cbn [app] in Eo. apply zdrop_byte in Eo as (_ & _ & Eo); [|lia]. rewrite <- !app_assoc in *. done.
    + done.
    + simpl in L. lia.
    + exists s'. split; [done|]. split; [|split; [done|]].
      * rewrite O. unfold o, encode_groups. cbn [encode_chain].
        rewrite ?zlen_app, ?zlen_cons, ?zlen_app. lia.
      * rewrite N. cbn [names_other_protocol existsb fst]. by rewrite orb_assoc.
Qed.

Lemma opt_bytes_u8 data o r o' :
  bytes_ok data -> 0 <= o -> zdrop o data = opt_bytes r ++ zdrop o' data -> bytes_ok (opt_bytes r).
Proof.
  intros B Ho E. pose proof (bytes_ok_drop o data B) as B'. rewrite E in B'. by apply bytes_ok_app in B' as [? _].
Qed.

(** A round of the loop comes from a group of the grammar. *)
Lemma parse_group_inv data s s' :
  bytes_ok data -> 0 <= interfaces s < 16 -> 0 <= offset s <= zlen data ->
  parse_group data s = success s' ->
  exists g f, group_ok g /\ choose_baud_rate (group s) (g_ta g) (fields s) = success f /\
    fields s' = t1_parameters (group s) (t1_group s) (g_ta g) (g_tb g) (g_tc g) f /\
    offset s <= offset s' <= zlen data /\ 0 <= interfaces s' < 16 /\
    ((forall rest, rest = [] -> interfaces s = announce g rest) /\ interfaces s' = 0 /\
      zdrop (offset s) data = opt_bytes (g_ta g) ++ opt_bytes (g_tb g) ++ opt_bytes (g_tc g) ++ zdrop (offset s') data /\
      has_non_t0_protocol s' = has_non_t0_protocol s \/
     exists p, 0 <= p < 16 /\ (forall rest, rest <> [] -> interfaces s = announce g rest) /\
      offset s < offset s' /\
      zdrop (offset s) data = opt_bytes (g_ta g) ++ opt_bytes (g_tb g) ++ opt_bytes (g_tc g) ++
        (16 * interfaces s' + p) :: zdrop (offset s') data /\
      has_non_t0_protocol s' = has_non_t0_protocol s || negb (p =? 0) /\
      t1_group s' = (p =? 1) /\ group s' = group s + 1).
Proof.
  intros B Hy Ho. unfold parse_group.
  destruct (interface_byte data (interfaces s) 1 (offset s)) as [[ta o1]|e] eqn:Ra; [|done].
  apply interface_byte_inv in Ra as (Ea & La & Na & Ba); [|done]. cbn [mbind Result_bind].
  destruct (interface_byte data (interfaces s) 2 o1) as [[tb o2]|e] eqn:Rb; [|done].
  apply interface_byte_inv in Rb as (Eb & Lb & Nb & Bb); [|lia]. cbn [mbind Result_bind].
  destruct (interface_byte data (interfaces s) 4 o2) as [[tc o3]|e] eqn:Rc; [|done].
  apply interface_byte_inv in Rc as (Ec & Lc & Nc & Bc); [|lia]. cbn [mbind Result_bind].
  destruct (choose_baud_rate _ _ _) as [f|e] eqn:F; [|done]. cbn [mbind Result_bind].
  destruct (interface_byte data (interfaces s) 8 o3) as [[td o4]|e] eqn:Rd; [|done].
  apply interface_byte_inv in Rd as (Ed & Ld & Nd & Bd); [|lia]. cbn [mbind Result_bind].
  intros E. exists {| g_ta := ta; g_tb := tb; g_tc := tc |}, f. cbn [g_ta g_tb g_tc].
  split; [split; [|split]; (eapply opt_bytes_u8; [exact B| |first [exact Ea | exact Eb | exact Ec]]; lia)|].
  split; [done|].
  destruct td as [td|]; injection E as <-; cbn [fields offset interfaces has_non_t0_protocol t1_group group].
  - assert (is_u8 td) as Hd.
    { assert (bytes_ok (opt_bytes (Some td))) as Bt by (eapply opt_bytes_u8; [exact B| |exact Ed]; lia).
      by apply Forall_cons in Bt as [? _]. }
    destruct (td_join td Hd) as (J & Hi & Hp). cbn [opt_bytes app] in Ed, Nd. change (zlen [td]) with 1 in Nd.
    split; [done|]. split; [lia|]. split; [done|]. right. exists (Z.land td 0x0f). split; [done|].
    split; [intros rest Hr; apply announce_of_bits; try done; rewrite Bd; rewrite bool_decide_true by (by eexists);
      by destruct rest|]. split; [lia|]. rewrite <- J. split; [|done].
    by rewrite Ea, Eb, Ec, Ed.
  - split; [done|]. split; [lia|]. split; [lia|]. left.
    split; [intros rest ->; apply announce_of_bits; try done; rewrite Bd; rewrite bool_decide_false by (by intros [? ?]); done|].
    split; [done|]. split; [|done]. cbn [opt_bytes app] in Ed. rewrite Ea, Eb, Ec, Ed. done.
Qed.

(** The loop only accepts chains of the grammar. *)
Lemma parse_groups_sound fuel data : forall s s',
  bytes_ok data -> 0 <= interfaces s < 16 -> 0 <= offset s <= zlen data ->
  parse_groups fuel data s = Some (success s') ->
  exists g rest, group_ok g /\ chain_ok rest /\ interfaces s = announce g rest /\
    zdrop (offset s) data = encode_groups g rest ++ zdrop (offset s') data /\
    offset s <= offset s' <= zlen data /\
    has_non_t0_protocol s' = has_non_t0_protocol s || names_other_protocol rest /\
    chain_fields (group s) (t1_group s) g rest (fields s) = success (fields s').
Proof.
  assert (forall s, interfaces s = 0 -> 0 <= offset s <= zlen data -> exists g rest, group_ok g /\ chain_ok rest /\ interfaces s = announce g rest /\
    zdrop (offset s) data = encode_groups g rest ++ zdrop (offset s) data /\
    offset s <= offset s <= zlen data /\
    has_non_t0_protocol s = has_non_t0_protocol s || names_other_protocol rest /\
    chain_fields (group s) (t1_group s) g rest (fields s) = success (fields s)) as Done.
  { intros s Z0 Ho. exists {| g_ta := None; g_tb := None; g_tc := None |}, [].
    split; [repeat split; constructor|]. split; [constructor|]. split; [done|]. split; [done|].
    split; [lia|]. split; [by rewrite orb_false_r|]. cbn. by rewrite t1_parameters_none. }
  induction fuel as [|fuel IH]; intros s s' B Hy Ho; cbn [parse_groups];
    destruct (Z.eqb_spec (interfaces s) 0) as [Z0|Z0]; try done; try (intros E; injection E as <-; by apply Done).
  destruct (parse_group data s) as [s1|e] eqn:G; [|done]. intros P.
  destruct (parse_group_inv data s s1 B Hy Ho G) as (g & f & Og & F & Fs & Lo & Hi &
    [(Ai & I1 & E & N)|(p & Hp & Ai & Lt & E & N & T & Gr)]).
  - rewrite parse_groups_done in P by done. injection P as <-. exists g, [].
    split; [done|]. split; [constructor|]. split; [by apply Ai|].
    split; [unfold encode_groups; cbn [encode_chain]; by rewrite app_nil_r, <- !app_assoc|].
    split; [done|]. split; [by rewrite orb_false_r|]. cbn [chain_fields]. rewrite F. cbn. by rewrite Fs.
  - destruct (IH s1 s' B Hi ltac:(lia) P) as (g' & rest & Og' & C & I' & E' & Lo' & N' & F').
    exists g, ((p, g') :: rest). split; [done|]. split; [constructor; [by split|done]|].
    split; [by apply Ai|]. split.
    { rewrite E, E'. unfold encode_groups. cbn [encode_chain]. rewrite I', <- !app_assoc. cbn [app].
      by rewrite <- !app_assoc. }
    split; [lia|]. split; [rewrite N', N; cbn [names_other_protocol existsb fst]; by rewrite orb_assoc|].
    cbn [chain_fields]. rewrite F. cbn [mbind Result_bind]. rewrite <- Fs, <- T, <- Gr. done.
Qed.

(** A round either ends the loop or consumes a byte. *)
Lemma parse_group_progress data s s' :
  0 <= offset s <= zlen data -> parse_group data s = success s' ->
  offset s <= offset s' <= zlen data /\ (interfaces s' = 0 \/ offset s < offset s').
Proof.
  intros Ho G. unfold parse_group in G.
  destruct (interface_byte data (interfaces s) 1 (offset s)) as [[ta o1]|e] eqn:Ra; [|done].
  apply interface_byte_inv in Ra as (Ea & La & Na & Ba); [|done]. cbn [mbind Result_bind] in G.
  destruct (interface_byte data (interfaces s) 2 o1) as [[tb o2]|e] eqn:Rb; [|done].
  apply interface_byte_inv in Rb as (Eb & Lb & Nb & Bb); [|lia]. cbn [mbind Result_bind] in G.
  destruct (interface_byte data (interfaces s) 4 o2) as [[tc o3]|e] eqn:Rc; [|done].
  apply interface_byte_inv in Rc as (Ec & Lc & Nc & Bc); [|lia]. cbn [mbind Result_bind] in G.
  destruct (choose_baud_rate _ _ _) as [f|e]; [|done]. cbn [mbind Result_bind] in G.
  destruct (interface_byte data (interfaces s) 8 o3) as [[td o4]|e] eqn:Rd; [|done].
  apply interface_byte_inv in Rd as (Ed & Ld & Nd & Bd); [|lia]. cbn [mbind Result_bind] in G.
  destruct td as [td|]; injection G as <-; cbn [offset interfaces]; [|split; [lia|by left]].
  cbn [opt_bytes] in Nd. change (zlen [td]) with 1 in Nd. split; [lia|]. right. lia.
Qed.

Lemma parse_groups_total fuel data s :
  0 <= offset s <= zlen data -> zlen data - offset s < Z.of_nat fuel ->
  parse_groups fuel data s <> None.
Proof.
  revert s. induction fuel as [|fuel IH]; intros s Ho L; [lia|]. cbn [parse_groups].
  destruct (interfaces s =? 0); [done|].
  destruct (parse_group data s) as [s1|e] eqn:G; [|done].
  destruct (parse_group_progress data s s1 Ho G) as [L1 [Z1|P1]]; [by rewrite parse_groups_done|].
  apply IH; lia.
Qed.

Lemma xor_bytes_app l x : xor_bytes (l ++ [x]) = cast_u8 (Z.lxor (xor_bytes l) x).
Proof. unfold xor_bytes. by rewrite foldl_app. Qed.

Lemma xor_bytes_u8 l : is_u8 (xor_bytes l).
Proof. induction l as [|x l IH] using rev_ind; [done|]. rewrite xor_bytes_app. apply cast_u8_ok. Qed.

Lemma cast_lxor_zero a b : is_u8 a -> is_u8 b -> cast_u8 (Z.lxor a b) = 0 <-> a = b.
Proof.
  intros Ha Hb. split; [|intros ->; by rewrite Z.lxor_nilpotent].
  intros E. apply Z.bits_inj'. intros i Hi.
  destruct (Z.lt_ge_cases i 8).
  - apply (f_equal (fun x => Z.testbit x i)) in E. unfold cast_u8 in E.
    rewrite Z.mod_pow2_bits_low, Z.lxor_spec, Z.bits_0 in E by lia.
    by destruct (Z.testbit a i), (Z.testbit b i).
  - rewrite !(testbit_small _ 8) by done. done.
Qed.

(** The check byte. *)
Lemma xor_check body x : is_u8 x -> xor_bytes (body ++ [x]) = 0 <-> x = xor_bytes body.
Proof.
  intros Hx. rewrite xor_bytes_app, cast_lxor_zero by (done || apply xor_bytes_u8). by split.
Qed.

Lemma zlen_encode_atr a :
  zlen (encode_atr a) = 2 + zlen (encode_groups (a_first a) (a_rest a)) + zlen (a_historical a) +
    (if names_other_protocol (a_rest a) then 1 else 0).
Proof.
  unfold encode_atr. cbn zeta. rewrite zlen_cons, zlen_app, zlen_cons, zlen_app.
  destruct (names_other_protocol _); [change (zlen [_]) with 1|change (zlen (@nil Z)) with 0]; lia.
Qed.

Lemma parse_encoded a f :
  atr_ok a -> fields_of a = success f -> bytes_ok (encode_atr a) ->
  parse_card_atr (View (encode_atr a)) = Some (success (parsed (encode_atr a) f)).
Proof.
  intros (G & C & H & Hh & L) F B. pose proof (zlen_encode_atr a) as Z1. set (l := encode_atr a) in *.
  pose proof (zlen_nonneg (a_historical a)) as Zh. pose proof (zlen_nonneg (encode_groups (a_first a) (a_rest a))) as Zg.
  unfold parse_card_atr. unfold kPx4CardAtrMaxLength in *.
  rewrite (proj2 (Z.ltb_ge 33 (zlen l))) by done.
  rewrite (proj2 (Z.ltb_ge (zlen l) 2)) by (destruct (names_other_protocol _); lia).
  destruct (td_split (announce (a_first a) (a_rest a)) (zlen (a_historical a)) (announce_range _ _) ltac:(lia)) as [S1 S2].
  assert (byte_at l 0 = (if a_inverse a then 0x3f else 0x3b)) as -> by by (unfold l, encode_atr; destruct (a_inverse a)).
  assert (byte_at l 1 = 16 * announce (a_first a) (a_rest a) + zlen (a_historical a)) as -> by done.
  assert (negb ((if a_inverse a then 0x3f else 0x3b) =? 0x3b) && negb ((if a_inverse a then 0x3f else 0x3b) =? 0x3f) = false) as ->
    by by destruct (a_inverse a).
  cbv zeta. rewrite S2. unfold start_groups. rewrite S1.
  set (s := {| interfaces := _ |}).
  edestruct (parse_groups_complete (S (length l)) l
    (a_historical a ++ (if names_other_protocol (a_rest a)
      then [xor_bytes ((16 * announce (a_first a) (a_rest a) + zlen (a_historical a)) :: encode_groups (a_first a) (a_rest a) ++ a_historical a)] else []))
    (a_rest a) s (a_first a) f) as (s' & P & O & F' & N).
  - done.
  - done.
  - done.
  - cbn [offset s]. unfold l, encode_atr. cbn zeta. unfold zdrop. cbn [Z.to_nat Pos.to_nat Pos.iter_op Nat.add drop app].
    by rewrite <- app_assoc.
  - exact F.
  - assert (forall r, (length r <= length (encode_chain r))%nat) as LC.
    { induction r as [|[p g] r IH]; [done|]. cbn [encode_chain length]. rewrite !length_app. lia. }
    specialize (LC (a_rest a)). unfold encode_groups in Zg, Z1. rewrite !zlen_app in Z1.
    pose proof (zlen_nonneg (opt_bytes (g_ta (a_first a)))). pose proof (zlen_nonneg (opt_bytes (g_tb (a_first a)))).
    pose proof (zlen_nonneg (opt_bytes (g_tc (a_first a)))). unfold zlen in *. destruct (names_other_protocol _); lia.
  - rewrite P. unfold finish_atr. cbn [s offset has_non_t0_protocol orb] in *. rewrite N, O, F'.
    assert (2 + zlen (encode_groups (a_first a) (a_rest a)) + zlen (a_historical a) +
      (if names_other_protocol (a_rest a) then 1 else 0) = zlen l) as -> by lia.
    unfold kPx4CardAtrMaxLength. rewrite (proj2 (Z.ltb_ge 33 (zlen l))) by done.
    rewrite !(proj2 (Z.ltb_ge (zlen l) (zlen l))) by lia.
    destruct (names_other_protocol (a_rest a)) eqn:E; [|done]. cbn [andb].
    assert (xor_bytes (zdrop 1 l) = 0) as ->; [|done].
    unfold l, encode_atr. rewrite E. cbn zeta. unfold zdrop. cbn [Z.to_nat Pos.to_nat Pos.iter_op Nat.add drop].
    apply xor_check; [apply xor_bytes_u8|done].
Qed.

Lemma parse_sound l r :
  bytes_ok l -> parse_card_atr (View l) = Some (success r) ->
  exists a f, atr_ok a /\ l = encode_atr a /\ fields_of a = success f /\ r = parsed l f.
Proof.
  intros B. unfold parse_card_atr. destruct (Z.ltb_spec kPx4CardAtrMaxLength (zlen l)); [done|].
  destruct (Z.ltb_spec (zlen l) 2); [done|].
  destruct l as [|ts [|t0 l]]; try (unfold zlen in *; cbn in *; lia).
  change (byte_at (ts :: t0 :: l) 0) with ts. change (byte_at (ts :: t0 :: l) 1) with t0.
  set (data := ts :: t0 :: l) in *.
  destruct (negb (ts =? 0x3b) && negb (ts =? 0x3f)) eqn:T; [done|]. cbv zeta.
  assert (is_u8 t0) as Ht by (by apply Forall_cons in B as [_ [? _]%Forall_cons]).
  destruct (td_join t0 Ht) as (J & Hi & Hh).
  destruct (parse_groups _ _ _) as [[s|e]|] eqn:P; [|done|done]. intros E.
  assert (finish_atr data (Z.land t0 0x0f) s = success r) as Fin by congruence. clear E.
  apply parse_groups_sound in P as (g & rest & Og & C & I & E & Lo & N & F); [|done|done|cbn; lia].
  cbn [start_groups interfaces offset has_non_t0_protocol orb fields group t1_group] in *.
  change (zdrop 2 data) with l in E. revert Fin. unfold finish_atr. rewrite N.
  destruct (Z.ltb_spec kPx4CardAtrMaxLength (offset s + Z.land t0 0x0f + (if names_other_protocol rest then 1 else 0))); [done|].
  destruct (Z.ltb_spec (zlen data) (offset s + Z.land t0 0x0f + (if names_other_protocol rest then 1 else 0))); [done|].
  destruct (Z.ltb_spec (offset s + Z.land t0 0x0f + (if names_other_protocol rest then 1 else 0)) (zlen data)); [done|].
  destruct (names_other_protocol rest && negb (xor_bytes (zdrop 1 data) =? 0)) eqn:X; [done|].
  intros R. injection R as <-.
  set (tail := zdrop (offset s) data) in *. set (h := Z.land t0 0x0f) in *.
  assert (zlen tail = h + (if names_other_protocol rest then 1 else 0)) as Zt by (unfold tail; rewrite zlen_drop; lia).
  pose proof (bytes_ok_drop (offset s) data B) as Bt. fold tail in Bt.
  set (a := {| a_inverse := ts =? 0x3f; a_first := g; a_rest := rest; a_historical := ztake h tail |}).
  assert (zlen (ztake h tail) = h) as Zh by (rewrite zlen_take; destruct (names_other_protocol rest); lia).
  assert (data = encode_atr a) as Ed.
  { unfold encode_atr, data, a. cbn [a_inverse a_first a_rest a_historical]. cbn zeta. rewrite Zh, <- I, <- J.
    f_equal; [destruct (Z.eqb_spec ts 0x3f), (Z.eqb_spec ts 0x3b); done|]. cbn [app]. f_equal. rewrite E.
    rewrite <- app_assoc. f_equal. rewrite <- (ztake_zdrop h tail) at 1. f_equal.
    destruct (names_other_protocol rest).
    - destruct (zdrop h tail) as [|x [|y t]] eqn:Et;
        try (apply (f_equal zlen) in Et; rewrite zlen_drop, ?zlen_cons in Et; change (zlen (@nil Z)) with 0 in Et;
             try pose proof (zlen_nonneg t); lia).
      f_equal. apply xor_check.
      + rewrite <- (ztake_zdrop h tail), Et in Bt. apply bytes_ok_app in Bt as [_ Bt]. by apply Forall_cons in Bt as [? _].
      + cbn [andb] in X. apply negb_false_iff, Z.eqb_eq in X. transitivity (xor_bytes (zdrop 1 data)); [|exact X]. f_equal.
        change (zdrop 1 data) with (t0 :: l). rewrite E. cbn [app]. f_equal.
        rewrite <- app_assoc. f_equal. rewrite <- Et. apply ztake_zdrop.
    - apply zlen_0. rewrite zlen_drop. lia. }
  exists a, (fields s). split; [|split; [done|split; [exact F|done]]].
  split; [done|]. split; [done|]. split; [by apply bytes_ok_take|]. split; [cbn [a a_historical]; lia|].
  by rewrite <- Ed.
Qed.

(** * Theorems *)


(** ** Prefixes *)

(** An interface byte of a prefix is the one of the whole, or is not there yet. *)
Lemma interface_byte_prefix l m y bit o :
  0 <= o <= zlen l ->
  interface_byte l y bit o = failure NOT_READY \/
  (exists r o', interface_byte l y bit o = success (r, o') /\
    interface_byte (l ++ m) y bit o = success (r, o') /\ 0 <= o' <= zlen l).
Proof.
  intros Ho. unfold interface_byte. pose proof (zlen_nonneg m).
  destruct (negb _); [|by right; eexists _, _].
  destruct (Z.leb_spec (zlen l) o); [by left|]. right. rewrite zlen_app.
  rewrite (proj2 (Z.leb_gt _ _)), byte_at_app_l by lia. eexists _, _. split; [done|]. split; [done|]. lia.
Qed.

Lemma parse_group_prefix l m s :
  0 <= offset s <= zlen l ->
  parse_group l s = failure NOT_READY \/
  (parse_group l s = parse_group (l ++ m) s /\
   forall s', parse_group l s = success s' -> 0 <= offset s' <= zlen l).
Proof.
  intros Ho. unfold parse_group.
  destruct (interface_byte_prefix l m (interfaces s) 1 (offset s) Ho) as [->|(ta & o1 & -> & -> & L1)]; [by left|].
  cbn [mbind Result_bind].
  destruct (interface_byte_prefix l m (interfaces s) 2 o1 L1) as [->|(tb & o2 & -> & -> & L2)]; [by left|].
  cbn [mbind Result_bind].
  destruct (interface_byte_prefix l m (interfaces s) 4 o2 L2) as [->|(tc & o3 & -> & -> & L3)]; [by left|].
  cbn [mbind Result_bind]. destruct (choose_baud_rate _ _ _) as [f|e]; [|by right]. cbn [mbind Result_bind].
  destruct (interface_byte_prefix l m (interfaces s) 8 o3 L3) as [->|(td & o4 & -> & -> & L4)]; [by left|].
  cbn [mbind Result_bind]. right. split; [done|]. intros s' E.
  by destruct td; injection E as <-.
Qed.

Lemma parse_groups_prefix fuel l m : forall fuel' s r,
  0 <= offset s <= zlen l -> zlen l - offset s < Z.of_nat fuel ->
  parse_groups fuel' (l ++ m) s = Some (success r) ->
  parse_groups fuel l s = Some (failure NOT_READY) \/
  (parse_groups fuel l s = Some (success r) /\ offset r <= zlen l).
Proof.
  induction fuel as [|fuel IH]; intros fuel' s r Ho L P; [lia|].
  destruct (Z.eq_dec (interfaces s) 0) as [Z0|Z0].
  { rewrite parse_groups_done in P by done. injection P as <-. right.
    rewrite parse_groups_done by done. split; [done|lia]. }
  destruct fuel' as [|fuel']; cbn [parse_groups] in P; rewrite (proj2 (Z.eqb_neq _ _)) in P by done; [done|].
  pose proof (parse_groups_total (S fuel) l s Ho L) as Tot.
  cbn [parse_groups] in *. rewrite (proj2 (Z.eqb_neq _ _)) in * by done.
  destruct (parse_group_prefix l m s Ho) as [R|[R Lo]]; [by left; rewrite R|]. rewrite <- R in P.
  destruct (parse_group l s) as [s1|e] eqn:G; [|done].
  destruct (parse_group_progress l s s1 Ho G) as [L1 [Z1|P1]].
  - rewrite parse_groups_done in * by done. right. split; [done|]. injection P as <-. lia.
  - apply (IH fuel' s1 r); [lia|lia|done].
Qed.

(** Everything a successful parse needs is checked byte by byte, so that every
    proper prefix of an accepted answer is reported as incomplete; the reader,
    which parses after every chunk, therefore never gives up on an answer that
    is still arriving. *)
Theorem atr_prefix_not_ready l m r :
  m <> [] -> parse_card_atr (View (l ++ m)) = Some (success r) ->
  parse_card_atr (View l) = Some (failure NOT_READY).
Proof.
  intros Hm. unfold parse_card_atr, kPx4CardAtrMaxLength. pose proof (zlen_nonneg l) as L0.
  assert (0 < zlen m) as Lm by (destruct m; [done|]; rewrite zlen_cons; pose proof (zlen_nonneg m); lia).
  rewrite zlen_app. destruct (Z.ltb_spec 33 (zlen l + zlen m)); [done|].
  rewrite (proj2 (Z.ltb_ge 33 (zlen l))) by lia.
  destruct (Z.ltb_spec (zlen l + zlen m) 2); [done|].
  destruct (Z.ltb_spec (zlen l) 2); [done|]. rewrite !byte_at_app_l by lia.
  destruct (negb _ && _); [done|]. cbv zeta. set (s := start_groups (byte_at l 1)).
  destruct (parse_groups (S (length (l ++ m))) (l ++ m) s) as [[s'|e]|] eqn:P; [|done|done].
  intros E. assert (finish_atr (l ++ m) (Z.land (byte_at l 1) 0x0f) s' = success r) as Fin by congruence. clear E.
  destruct (parse_groups_prefix (S (length l)) l m _ s s' ltac:(cbn; lia) ltac:(cbn; unfold zlen; lia) P) as [->|[-> Lo]];
    [done|].
  revert Fin. unfold finish_atr. set (x := offset s' + _ + _). rewrite zlen_app.
  destruct (Z.ltb_spec kPx4CardAtrMaxLength x); [done|]. destruct (Z.ltb_spec (zlen l + zlen m) x); [done|].
  destruct (Z.ltb_spec x (zlen l + zlen m)); [done|]. intros _.
  by rewrite (proj2 (Z.ltb_lt (zlen l) x)) by lia.
Qed.

(** The parser always answers. *)
Lemma parse_atr_total v : parse_card_atr v <> None.
Proof.
  destruct v as [n|l]; cbn [parse_card_atr]; [by case_match|].
  unfold parse_card_atr. repeat (case_match; [done|]). cbv zeta.
  pose proof (parse_groups_total (S (length l)) l (start_groups (byte_at l 1))) as T.
  destruct (Z.ltb_spec (zlen l) 2); [done|]. cbn [start_groups offset] in T.
  specialize (T ltac:(lia) ltac:(unfold zlen; lia)).
  by destruct (parse_groups _ _ _) as [[s|e]|].
Qed.

(** A B-CAS card: T=1, 19200 baud, check byte by exclusive or. *)
Definition bcas_atr : list Z := [0x3b; 0xf0; 0x12; 0x00; 0xff; 0x91; 0x81; 0xb1; 0x7c; 0x45; 0x1f; 0x03; 0x99].


Lemma atr_prefix_not_ready_witness :
  parse_card_atr (View (ztake 9 bcas_atr)) = Some (failure NOT_READY).
Proof.
  refine (atr_prefix_not_ready (ztake 9 bcas_atr) (zdrop 9 bcas_atr)
    (parsed bcas_atr {| baud_rate := baud_19200; ifsc := 124; edc := lrc; block_timeout_ms := 1600 |}) _ _);
    [discriminate|reflexivity].
Defined.

(** 33 bytes that announce another interface byte. *)
Definition endless_atr : list Z := [0x3b; 0x80] ++ replicate 31 0x80.
(** Not every "incomplete" answer can be completed: when 33 bytes announce yet
    another interface byte the parser still asks for more, although nothing that
    starts with them is accepted. *)
Theorem endless_atr_not_ready m r :
  parse_card_atr (View endless_atr) = Some (failure NOT_READY) /\
  parse_card_atr (View (endless_atr ++ m)) <> Some (success r).
Proof.
  assert (parse_card_atr (View endless_atr) = Some (failure NOT_READY)) as E by reflexivity.
  split; [exact E|]. destruct m as [|b m]; [rewrite app_nil_r, E; congruence|].
  unfold parse_card_atr, kPx4CardAtrMaxLength.
  rewrite zlen_app, zlen_cons. change (zlen endless_atr) with 33. pose proof (zlen_nonneg m).
  by rewrite (proj2 (Z.ltb_lt 33 _)) by lia.
Qed.
