(* ===== verification/CardT1.v ===== *)
(** T=1 blocks over the card's UART ([CardSession::send_block],
    [receive_block], [discard_pending_data], [exchange_block] and the reading of
    the ATR in [src/card.cpp]).  The card hardware and the clock are an interface
    over a hardware state; reading the clock may change it, as time passes. *)

From S2P Require Import Prelude IoMonad CardAtr.

(** * The interfaces *)

(** [CardHardware] and [CardTime].  [read_data n] gives the bytes the call
    reports to have put at the start of its output of [n] bytes. *)
Class CardHardware (HW : Type) := {
  detect_card : HW -> Result bool * HW;
  reset_card : HW -> Result unit * HW;
  data_ready : HW -> Result bool * HW;
  read_data : Z -> HW -> Result (list Z) * HW;
  write_data : list Z -> HW -> Result unit * HW;
  set_baud_rate : It930xCardBaudRate -> HW -> Result unit * HW;
  monotonic_ms : HW -> Z * HW;
  sleep_ms : Z -> HW -> HW;
}.

(** What the termination of the loops needs of time: the clock never runs
    backwards, a sleep lasts as long as asked, and a block that was written has
    taken time on the UART. *)
Class CardTimeLaws (HW : Type) `{CardHardware HW} := {
  clock : HW -> Z;
  monotonic_clock : forall hw, clock hw <= (monotonic_ms hw).1 <= clock (monotonic_ms hw).2;
  sleep_clock : forall n hw, 0 <= n -> clock hw + n <= clock (sleep_ms n hw);
  detect_clock : forall hw, clock hw <= clock (detect_card hw).2;
  reset_clock : forall hw, clock hw <= clock (reset_card hw).2;
  ready_clock : forall hw, clock hw <= clock (data_ready hw).2;
  read_clock : forall n hw, clock hw <= clock (read_data n hw).2;
  baud_clock : forall b hw, clock hw <= clock (set_baud_rate b hw).2;
  write_clock : forall l hw, clock hw <= clock (write_data l hw).2;
  write_takes_time : forall l hw,
    (write_data l hw).1 = success tt -> clock hw + 1 <= clock (write_data l hw).2;
}.

(** * Constants *)

Definition kAtrTimeoutMs : Z := 1000.
Definition kPollIntervalMs : Z := 5.
Definition kT1Nad : Z := 0x00.
Definition kT1IBlock : Z := 0x00.
Definition kT1ISequence : Z := 0x40.
Definition kT1IChain : Z := 0x20.
Definition kT1RBlock : Z := 0x80.
Definition kT1RSequence : Z := 0x10.
Definition kT1SBlock : Z := 0xc0.
Definition kT1SResponse : Z := 0x20.
Definition kT1SResynchronize : Z := 0x00.
Definition kT1SIfs : Z := 0x01.
Definition kT1SWtx : Z := 0x03.
Definition kCardUartFrameMaxLength : Z := 255.
Definition kMaxRetries : nat := 3.
Definition kMaxDiscardChunks : nat := 4.

(** * Frames *)

(** One step of the division of [calculate_crc]. *)
Definition crc_bit (s : Z * Z) : Z * Z :=
  let '(c, value) := s in
  (if negb (Z.land (Z.lxor c value) 0x8000 =? 0)
   then cast_u16 (Z.lxor (Z.shiftl c 1) 0x1021)
   else cast_u16 (Z.shiftl c 1),
   cast_u16 (Z.shiftl value 1)).
Definition crc_byte (c b : Z) : Z := (Nat.iter 8 crc_bit (c, cast_u16 (Z.shiftl b 8))).1.
Definition calculate_crc (data : list Z) : Z := foldl crc_byte 0xffff data.

(** A block; [b_data] is the first [length] bytes of its array, the only ones
    the code looks at. *)
Record Block := { b_pcb : Z; b_data : list Z }.
Definition b_length (b : Block) : Z := zlen (b_data b).

Definition edc_length (use_crc : bool) : Z := if use_crc then 2 else 1.

(** The error detection code of the first part of a frame. *)
Definition edc_bytes (use_crc : bool) (l : list Z) : list Z :=
  if use_crc then
    let c := calculate_crc l in [cast_u8 (Z.shiftr c 8); cast_u8 c]
  else [xor_bytes l].

Definition frame_body (pcb : Z) (data : list Z) : list Z :=
  [kT1Nad; pcb; cast_u8 (zlen data)] ++ data.
Definition frame_of (use_crc : bool) (pcb : Z) (data : list Z) : list Z :=
  frame_body pcb data ++ edc_bytes use_crc (frame_body pcb data).

(** The comparison of the error detection code. *)
Definition edc_wrong (use_crc : bool) (frame : list Z) : bool :=
  let size := zlen frame in
  if use_crc then
    negb (calculate_crc (ztake (size - 2) frame) =?
          cast_u16 (Z.lor (Z.shiftl (byte_at frame (size - 2)) 8) (byte_at frame (size - 1))))
  else negb (xor_bytes frame =? 0).

(** The checks of [receive_block] on a frame cut to its announced length. *)
Definition check_frame (use_crc : bool) (frame : list Z) : Result Block :=
  if negb (byte_at frame 0 =? kT1Nad) then failure PROTOCOL_ERROR
  else if edc_wrong use_crc frame then failure PROTOCOL_ERROR
  else
    let length := byte_at frame 2 in
    if 254 <? length then failure PROTOCOL_ERROR
    else success {| b_pcb := byte_at frame 1; b_data := ztake length (zdrop 3 frame) |}.

(** * Operations *)

Section Operations.
Context {HW : Type} `{CardHardware HW}.
(** The bound on the rounds of a loop. *)
Variable fuel : nat.

Definition get_time : Io HW Z := fun hw => let '(t, hw) := monotonic_ms hw in Some (success t, hw).

Definition deadline_after (milliseconds : Z) : Io HW Z :=
  now ← get_time;
  let maximum := 2 ^ 64 - 1 in
  mret (if maximum - milliseconds <? now then maximum else now + milliseconds).

Definition deadline_expired (deadline : Z) : Io HW bool :=
  now ← get_time;
  mret (deadline <=? now).

Fixpoint wait_loop (n : nat) (deadline : Z) : Io HW unit :=
  match n with
  | O => diverge
  | S n =>
      expired ← deadline_expired deadline;
      if (expired : bool) then fail TIMEOUT
      else
        ready ← call data_ready;
        if (ready : bool) then mret tt
        else
          _ ← modify (sleep_ms kPollIntervalMs);
          wait_loop n deadline
  end.
Definition wait_data_ready (deadline : Z) : Io HW unit := wait_loop fuel deadline.

(** [atr] is what has been read so far. *)
Fixpoint read_atr_loop (n : nat) (deadline : Z) (atr : list Z) : Io HW CardAtr :=
  match n with
  | O => diverge
  | S n =>
      expired ← deadline_expired deadline;
      if (expired : bool) then fail TIMEOUT
      else
        _ ← wait_data_ready deadline;
        if zlen atr =? kPx4CardAtrMaxLength then fail PROTOCOL_ERROR
        else
          bytes ← call (read_data (kPx4CardAtrMaxLength - zlen atr));
          if kPx4CardAtrMaxLength - zlen atr <? zlen bytes then fail PROTOCOL_ERROR
          else
            let atr := atr ++ bytes in
            let continue :=
              _ ← modify (sleep_ms kPollIntervalMs);
              read_atr_loop n deadline atr in
            if zlen bytes =? 0 then continue
            else
              match parse_card_atr (View atr) with
              | None => diverge
              | Some (success parsed) => mret parsed
              | Some (failure e) => if bool_decide (e = NOT_READY) then continue else fail e
              end
  end.

Definition read_atr_once : Io HW CardAtr :=
  deadline ← deadline_after kAtrTimeoutMs;
  read_atr_loop fuel deadline [].

(** The attempts of [reset_and_read_card_atr]; the last one keeps its error. *)
Fixpoint reset_attempts (n : nat) (attempt_no : Z) : Io HW CardAtr :=
  match n with
  | O => fail INTERNAL
  | S n =>
      _ ← call reset_card;
      atr ← attempt read_atr_once;
      match atr with
      | success a =>
          _ ← call (set_baud_rate (baud_rate (atr_fields a)));
          mret a
      | failure e =>
          if negb (bool_decide (e = PROTOCOL_ERROR)) || negb (attempt_no =? 0) then fail e
          else reset_attempts n (attempt_no + 1)
      end
  end.

Definition reset_and_read_card_atr : Io HW CardAtr :=
  detected ← call detect_card;
  if negb detected then fail NO_CARD else reset_attempts 2 0.

Definition send_block (use_crc : bool) (pcb : Z) (data : list Z) : Io HW unit :=
  if 254 <? zlen data then fail INVALID_ARGUMENT
  else if kCardUartFrameMaxLength <? 3 + zlen data + edc_length use_crc then fail INVALID_ARGUMENT
  else call (write_data (frame_of use_crc pcb data)).

Fixpoint discard_loop (n : nat) : Io HW unit :=
  match n with
  | O => fail PROTOCOL_ERROR
  | S n =>
      ready ← call data_ready;
      if negb ready then mret tt
      else
        bytes ← call (read_data kCardUartFrameMaxLength);
        if kCardUartFrameMaxLength <? zlen bytes then fail PROTOCOL_ERROR
        else if zlen bytes =? 0 then mret tt
        else discard_loop n
  end.
Definition discard_pending_data : Io HW unit := discard_loop kMaxDiscardChunks.

(** The variables of the loop of [receive_block]. *)
Record Receiving := { frame : list Z; expected_length : Z; read_filled_chunk : bool }.

Fixpoint receive_loop (n : nat) (use_crc : bool) (deadline : Z) (r : Receiving) : Io HW Receiving :=
  match n with
  | O => diverge
  | S n =>
      expired ← deadline_expired deadline;
      if (expired : bool) then mret r
      else
        _ ← wait_data_ready deadline;
        chunk ← call (read_data kCardUartFrameMaxLength);
        let again r :=
          _ ← modify (sleep_ms kPollIntervalMs);
          receive_loop n use_crc deadline r in
        if kCardUartFrameMaxLength <? zlen chunk then fail PROTOCOL_ERROR
        else if zlen chunk =? 0 then again r
        else
          let filled := zlen chunk =? kCardUartFrameMaxLength in
          let f := frame r ++ chunk in
          let expected := if 3 <=? zlen f then 3 + byte_at f 2 + edc_length use_crc
                          else expected_length r in
          let r := {| frame := f; expected_length := expected; read_filled_chunk := filled |} in
          if (3 <=? zlen f) && (kCardUartFrameMaxLength <? expected) then fail PROTOCOL_ERROR
          else if negb (expected =? 0) && (expected <=? zlen f) then mret r
          else if negb (expected =? 0) && (zlen chunk <? kCardUartFrameMaxLength) then fail PROTOCOL_ERROR
          else again r
  end.

Definition receive_block (use_crc : bool) (deadline : Z) : Io HW Block :=
  r ← receive_loop fuel use_crc deadline
        {| frame := []; expected_length := 0; read_filled_chunk := false |};
  if (expected_length r =? 0) || (zlen (frame r) <? expected_length r) then fail TIMEOUT
  else
    _ ← (if (expected_length r <? zlen (frame r)) || read_filled_chunk r
         then discard_pending_data else mret tt);
    from_result (check_frame use_crc (ztake (expected_length r) (frame r))).

(** The loop over requests for more waiting time; a failed receive is left to
    the caller, the other failures end [exchange_block]. *)
Fixpoint wtx_loop (n : nat) (use_crc : bool) (deadline : Z) (response : Block) : Io HW (Result Block) :=
  match n with
  | O => diverge
  | S n =>
      if b_pcb response =? Z.lor kT1SBlock kT1SWtx then
        if negb (b_length response =? 1) || (byte_at (b_data response) 0 =? 0) then fail PROTOCOL_ERROR
        else
          _ ← send_block use_crc (Z.lor (Z.lor kT1SBlock kT1SResponse) kT1SWtx)
                [byte_at (b_data response) 0];
          received ← attempt (receive_block use_crc deadline);
          match received with
          | failure e => mret (failure e)
          | success response => wtx_loop n use_crc deadline response
          end
      else mret (success response)
  end.

Fixpoint exchange_block (max_retries : nat) (use_crc : bool) (block_timeout_ms : Z)
    (pcb : Z) (data : list Z) (deadline : Z) : Io HW Block :=
  match max_retries with
  | O =>
      expired ← deadline_expired deadline;
      if (expired : bool) then fail TIMEOUT else fail PROTOCOL_ERROR
  | S retries =>
      expired ← deadline_expired deadline;
      if (expired : bool) then fail TIMEOUT
      else
        _ ← send_block use_crc pcb data;
        block_deadline ← deadline_after block_timeout_ms;
        received ← attempt (receive_block use_crc (Z.min deadline block_deadline));
        response ← match received with
                   | success response => wtx_loop fuel use_crc deadline response
                   | failure e => mret (failure e)
                   end;
        match (response : Result Block) with
        | success response => mret response
        | failure e =>
            if negb (bool_decide (e = TIMEOUT)) && negb (bool_decide (e = PROTOCOL_ERROR)) then fail e
            else exchange_block retries use_crc block_timeout_ms pcb data deadline
        end
  end.
End Operations.

(** * Error detection *)

Lemma mask_top_bit x : negb (Z.land x 0x8000 =? 0) = Z.testbit x 15.
Proof.
  destruct (Z.testbit x 15) eqn:E.
  - apply negb_true_iff, Z.eqb_neq. intros Z0. apply (f_equal (fun y => Z.testbit y 15)) in Z0.
    rewrite Z.land_spec, E in Z0. discriminate Z0.
  - apply negb_false_iff, Z.eqb_eq. apply Z.bits_inj'. intros i Hi. rewrite Z.land_spec, Z.bits_0.
    change 0x8000 with (2 ^ 15). rewrite Z.pow2_bits_eqb by lia.
    destruct (Z.eqb_spec 15 i) as [<-|]; [by rewrite E|apply andb_false_r].
Qed.

(** What a step does to the difference of register and input. *)
Definition crc_shift (x : Z) : Z :=
  Z.lxor (cast_u16 (Z.shiftl x 1)) (if Z.testbit x 15 then 0x1021 else 0).

Lemma cast_u16_bit x i : 0 <= i -> Z.testbit (cast_u16 x) i = (i <? 16) && Z.testbit x i.
Proof.
  intros Hi. unfold cast_u16. destruct (Z.ltb_spec i 16).
  - by rewrite Z.mod_pow2_bits_low by lia.
  - by rewrite Z.mod_pow2_bits_high by lia.
Qed.

Lemma crc_shift_bit x i : 0 <= i ->
  Z.testbit (crc_shift x) i =
    xorb ((i <? 16) && (if i =? 0 then false else Z.testbit x (i - 1))) (Z.testbit x 15 && Z.testbit 0x1021 i).
Proof.
  intros Hi. unfold crc_shift. rewrite Z.lxor_spec, cast_u16_bit, Z.shiftl_spec by done. f_equal.
  - f_equal. destruct (Z.eqb_spec i 0) as [->|]; [done|done].
  - destruct (Z.testbit x 15); [done|]. apply Z.bits_0.
Qed.

Lemma crc_shift_u16 x : is_u16 (crc_shift x).
Proof.
  assert (crc_shift x = cast_u16 (crc_shift x)) as ->.
  { apply Z.bits_inj'. intros i Hi. rewrite cast_u16_bit by done.
    destruct (Z.ltb_spec i 16); [done|]. cbn [andb]. rewrite crc_shift_bit by done.
    rewrite (proj2 (Z.ltb_ge _ _)) by lia. cbn [andb xorb].
    rewrite (testbit_small 0x1021 16) by lia. apply andb_false_r. }
  unfold is_u16, cast_u16. apply Z.mod_pos_bound. lia.
Qed.

Lemma u16_ext x y : is_u16 x -> is_u16 y -> (forall i, 0 <= i < 16 -> Z.testbit x i = Z.testbit y i) -> x = y.
Proof.
  intros Hx Hy E. apply Z.bits_inj'. intros i Hi. destruct (Z.lt_ge_cases i 16); [by apply E|].
  by rewrite !(testbit_small _ 16) by done.
Qed.

(** The step loses nothing: the polynomial is odd. *)
Lemma crc_shift_inj x y : is_u16 x -> is_u16 y -> crc_shift x = crc_shift y -> x = y.
Proof.
  intros Hx Hy E. apply u16_ext; [done..|]. intros i Hi.
  assert (forall k, 0 <= k -> Z.testbit (crc_shift x) k = Z.testbit (crc_shift y) k) as B by (intros; by rewrite E).
  assert (Z.testbit x 15 = Z.testbit y 15) as T.
  { specialize (B 0 ltac:(lia)). rewrite !crc_shift_bit in B by lia.
    change (Z.testbit 0x1021 0) with true in B. change (0 =? 0) with true in B.
    by rewrite !andb_false_r, !andb_true_r, !xorb_false_l in B. }
  destruct (Z.eq_dec i 15) as [->|N]; [done|].
  specialize (B (i + 1) ltac:(lia)). rewrite !crc_shift_bit, T in B by lia.
  rewrite (proj2 (Z.ltb_lt _ _)), (proj2 (Z.eqb_neq _ _)) in B by lia. cbn [andb] in B.
  replace (i + 1 - 1) with i in B by lia.
  destruct (Z.testbit x i), (Z.testbit y i); try done; destruct (_ && _) in B; done.
Qed.

Lemma crc_bit_difference s :
  is_u16 s.1 -> is_u16 s.2 ->
  Z.lxor (crc_bit s).1 (crc_bit s).2 = crc_shift (Z.lxor s.1 s.2) /\
  is_u16 (crc_bit s).1 /\ (crc_bit s).2 = cast_u16 (Z.shiftl s.2 1).
Proof.
  destruct s as [c v]. cbn [fst snd]. intros Hc Hv. unfold crc_bit. rewrite mask_top_bit. cbn [fst snd].
  split; [|split; [|done]].
  - apply Z.bits_inj'. intros i Hi. rewrite crc_shift_bit, Z.lxor_spec by done.
    rewrite (cast_u16_bit (Z.shiftl v 1)), Z.shiftl_spec by done.
    assert (forall x, Z.testbit (cast_u16 (Z.shiftl x 1)) i = (i <? 16) && Z.testbit x (i - 1)) as S
      by (intros x; by rewrite cast_u16_bit, Z.shiftl_spec by done).
    assert (Z.testbit (if Z.testbit (Z.lxor c v) 15 then cast_u16 (Z.lxor (Z.shiftl c 1) 0x1021)
      else cast_u16 (Z.shiftl c 1)) i =
      xorb ((i <? 16) && Z.testbit c (i - 1)) (Z.testbit (Z.lxor c v) 15 && Z.testbit 0x1021 i)) as ->.
    { destruct (Z.testbit (Z.lxor c v) 15); cbn [andb].
      - rewrite cast_u16_bit, Z.lxor_spec, Z.shiftl_spec by done. destruct (Z.ltb_spec i 16); [done|].
        by rewrite (testbit_small 0x1021 16) by lia.
      - rewrite S. by rewrite xorb_false_r. }
    destruct (Z.eqb_spec i 0) as [->|N].
    + rewrite (Z.testbit_neg_r c (0 - 1)), (Z.testbit_neg_r v (0 - 1)) by lia. by destruct (Z.testbit (Z.lxor c v) 15).
    + rewrite (Z.lxor_spec c v (i - 1)). destruct (i <? 16), (Z.testbit c (i - 1)), (Z.testbit v (i - 1)),
        (Z.testbit (Z.lxor c v) 15), (Z.testbit 0x1021 i); done.
  - destruct (Z.testbit _ _); apply Z.mod_pos_bound; lia.
Qed.

Lemma lxor_u16 a b : is_u16 a -> is_u16 b -> is_u16 (Z.lxor a b).
Proof.
  intros Ha Hb. destruct (Z.eq_dec (Z.lxor a b) 0) as [->|N]; [width_lia|].
  assert (0 <= Z.lxor a b) by (apply Z.lxor_nonneg; width_lia). split; [done|].
  apply Z.log2_lt_pow2; [lia|].
  pose proof (Z.log2_lxor a b ltac:(width_lia) ltac:(width_lia)).
  enough (Z.log2 a < 16 /\ Z.log2 b < 16) by lia. widths.
  split; (destruct (Z.eq_dec a 0) as [->|], (Z.eq_dec b 0) as [->|]; try (cbn; lia); apply Z.log2_lt_pow2; lia).
Qed.

Lemma crc_byte_shift c b : is_u16 c -> is_u8 b ->
  crc_byte c b = Nat.iter 8 crc_shift (Z.lxor c (Z.shiftl b 8)).
Proof.
  intros Hc Hb. unfold crc_byte.
  assert (forall n s, is_u16 s.1 -> is_u16 s.2 ->
    is_u16 (Nat.iter n crc_bit s).1 /\ is_u16 (Nat.iter n crc_bit s).2 /\
    Z.lxor (Nat.iter n crc_bit s).1 (Nat.iter n crc_bit s).2 = Nat.iter n crc_shift (Z.lxor s.1 s.2) /\
    (Nat.iter n crc_bit s).2 = cast_u16 (Z.shiftl s.2 (Z.of_nat n))) as I.
  { intros n s H1 H2. induction n as [|n (I1 & I2 & I3 & I4)].
    - cbn. rewrite Z.shiftl_0_r. unfold cast_u16. rewrite Z.mod_small by width_lia. done.
    - rewrite !Nat.iter_succ. destruct (crc_bit_difference _ I1 I2) as (D & U & V). split; [done|].
      split; [rewrite V; apply Z.mod_pos_bound; lia|]. split; [by rewrite D, I3|].
      rewrite V, I4. apply Z.bits_inj'. intros i Hi. rewrite !cast_u16_bit, !Z.shiftl_spec by done.
      destruct (Z.ltb_spec i 16); [|done]. cbn [andb].
      destruct (Z.lt_ge_cases (i - 1) 0).
      + rewrite (Z.testbit_neg_r (cast_u16 _)) by lia. by rewrite Z.testbit_neg_r by lia.
      + rewrite cast_u16_bit, Z.shiftl_spec, (proj2 (Z.ltb_lt _ _)) by lia. cbn [andb]. f_equal. lia. }
  assert (cast_u16 (Z.shiftl b 8) = Z.shiftl b 8) as E.
  { unfold cast_u16. rewrite Z.shiftl_mul_pow2, Z.mod_small by width_lia. done. }
  assert (is_u16 (Z.shiftl b 8)) as U by (rewrite Z.shiftl_mul_pow2; width_lia).
  rewrite E. destruct (I 8%nat (c, Z.shiftl b 8) Hc U) as (I1 & _ & I3 & I4).
  cbn [fst snd] in I3, I4. rewrite <- I3, I4.
  assert (cast_u16 (Z.shiftl (Z.shiftl b 8) (Z.of_nat 8)) = 0) as ->; [|by rewrite Z.lxor_0_r].
  unfold cast_u16. rewrite !Z.shiftl_mul_pow2 by lia. cbn [Z.of_nat Pos.of_succ_nat Pos.succ].
  rewrite <- Z.mul_assoc. change (2 ^ 8 * 2 ^ 8) with (2 ^ 16). apply Z.mod_mul. lia.
Qed.

Lemma iter_shift_inj n x y : is_u16 x -> is_u16 y ->
  Nat.iter n crc_shift x = Nat.iter n crc_shift y -> x = y.
Proof.
  intros Hx Hy. induction n as [|n IH]; [done|]. rewrite !Nat.iter_succ. intros E. apply IH.
  apply crc_shift_inj; [..|done].
  - destruct n; [done|apply crc_shift_u16].
  - destruct n; [done|apply crc_shift_u16].
Qed.

Lemma crc_byte_u16 c b : is_u16 c -> is_u8 b -> is_u16 (crc_byte c b).
Proof. intros. rewrite crc_byte_shift by done. apply crc_shift_u16. Qed.

Lemma calculate_crc_u16 l : bytes_ok l -> is_u16 (calculate_crc l).
Proof.
  intros B. unfold calculate_crc. assert (is_u16 0xffff) as H by done. revert H. generalize 0xffff.
  induction B as [|b l Hb B IH]; intros c Hc; [done|]. cbn [foldl]. apply IH. by apply crc_byte_u16.
Qed.

(** A step of a digest that separates registers and inputs; a changed byte is
    then never forgotten. *)
Section Digest.
Variables (step : Z -> Z -> Z) (ok : Z -> Prop).
Hypothesis step_ok : forall c b, ok c -> is_u8 b -> ok (step c b).
Hypothesis step_inj_l : forall c c' b, ok c -> ok c' -> is_u8 b -> step c b = step c' b -> c = c'.
Hypothesis step_inj_r : forall c b b', ok c -> is_u8 b -> is_u8 b' -> step c b = step c b' -> b = b'.

Lemma foldl_ok l c : bytes_ok l -> ok c -> ok (foldl step c l).
Proof. intros B. revert c. induction B as [|b l Hb B IH]; intros c Hc; [done|]. apply IH. by apply step_ok. Qed.

Lemma foldl_separates l c c' : bytes_ok l -> ok c -> ok c' -> foldl step c l = foldl step c' l -> c = c'.
Proof.
  intros B. revert c c'. induction B as [|b l Hb B IH]; intros c c' Hc Hc' E; [done|].
  apply (step_inj_l c c' b); [done..|]. apply IH; [by apply step_ok|by apply step_ok|done].
Qed.

Lemma digest_detects l1 l2 b b' c :
  bytes_ok (l1 ++ b :: l2) -> is_u8 b' -> ok c ->
  foldl step c (l1 ++ b :: l2) = foldl step c (l1 ++ b' :: l2) -> b = b'.
Proof.
  intros B Hb' Hc. rewrite bytes_ok_app in B. destruct B as [B1 B2]. apply Forall_cons in B2 as [Hb B2].
  rewrite !foldl_app. cbn [foldl]. pose proof (foldl_ok l1 c B1 Hc) as H1. intros E.
  apply foldl_separates in E; [|done|by apply step_ok|by apply step_ok]. by apply step_inj_r in E.
Qed.
End Digest.

Lemma lxor_cancel a b c : Z.lxor a b = Z.lxor a c -> b = c.
Proof.
  intros E. apply (f_equal (Z.lxor a)) in E. by rewrite <- !Z.lxor_assoc, Z.lxor_nilpotent, !Z.lxor_0_l in E.
Qed.

Lemma crc_detects l1 l2 b b' :
  bytes_ok (l1 ++ b :: l2) -> is_u8 b' ->
  calculate_crc (l1 ++ b :: l2) = calculate_crc (l1 ++ b' :: l2) -> b = b'.
Proof.
  assert (forall b, is_u8 b -> is_u16 (Z.shiftl b 8)) as S by (intros; rewrite Z.shiftl_mul_pow2; width_lia).
  intros B Hb'. apply (digest_detects crc_byte is_u16); try done.
  - intros. by apply crc_byte_u16.
  - intros c c' x Hc Hc' Hx E. rewrite !crc_byte_shift in E by done.
    apply iter_shift_inj in E; [|apply lxor_u16; auto..].
    rewrite !(Z.lxor_comm _ (Z.shiftl x 8)) in E. by apply lxor_cancel in E.
  - intros c x y Hc Hx Hy E. rewrite !crc_byte_shift in E by done.
    apply iter_shift_inj in E; [|apply lxor_u16; auto..].
    apply lxor_cancel in E. rewrite !Z.shiftl_mul_pow2 in E by lia. lia.
Qed.

Lemma xor_detects l1 l2 b b' :
  bytes_ok (l1 ++ b :: l2) -> is_u8 b' ->
  xor_bytes (l1 ++ b :: l2) = xor_bytes (l1 ++ b' :: l2) -> b = b'.
Proof.
  assert (forall a b, is_u8 a -> is_u8 b -> cast_u8 (Z.lxor a b) = Z.lxor a b) as S.
  { intros x y Hx Hy. apply Z.bits_inj'. intros i Hi. unfold cast_u8. destruct (Z.lt_ge_cases i 8).
    - by rewrite Z.mod_pow2_bits_low by lia.
    - rewrite Z.mod_pow2_bits_high, Z.lxor_spec, !(testbit_small _ 8) by (done || lia). done. }
  intros B Hb'. apply (digest_detects (fun x b => cast_u8 (Z.lxor x b)) is_u8); try done.
  - intros. apply cast_u8_ok.
  - intros c c' x Hc Hc' Hx E. rewrite !S, !(Z.lxor_comm _ x) in E by done. by apply lxor_cancel in E.
  - intros c x y Hc Hx Hy E. rewrite !S in E by done. by apply lxor_cancel in E.
Qed.

Definition edc_limit (use_crc : bool) : Z := 252 - edc_length use_crc.

Lemma zlen_body pcb data : zlen (frame_body pcb data) = 3 + zlen data.
Proof. unfold frame_body. rewrite zlen_app. done. Qed.

Lemma zlen_frame use_crc pcb data : zlen (frame_of use_crc pcb data) = 3 + zlen data + edc_length use_crc.
Proof. unfold frame_of. rewrite zlen_app, zlen_body. by destruct use_crc. Qed.

Lemma body_ok pcb data : is_u8 pcb -> bytes_ok data -> bytes_ok (frame_body pcb data).
Proof.
  intros. unfold frame_body. apply bytes_ok_app. split; [|done].
  apply Forall_cons. split; [done|]. apply Forall_cons. split; [done|]. apply Forall_singleton, cast_u8_ok.
Qed.

(** Two big-endian bytes. *)
Lemma crc_join c : is_u16 c ->
  cast_u16 (Z.lor (Z.shiftl (cast_u8 (Z.shiftr c 8)) 8) (cast_u8 c)) = c.
Proof.
  intros Hc. rewrite Z.lor_comm, lor_shiftl_add by (try apply cast_u8_ok; lia).
  unfold cast_u16, cast_u8. rewrite Z.shiftr_div_pow2 by lia. widths.
  Z.to_euclidean_division_equations. lia.
Qed.

Lemma edc_bytes_ok use_crc l : bytes_ok l -> bytes_ok (edc_bytes use_crc l).
Proof.
  intros B. unfold edc_bytes. destruct use_crc.
  - apply Forall_cons. split; [apply cast_u8_ok|]. apply Forall_singleton, cast_u8_ok.
  - apply Forall_singleton, xor_bytes_u8.
Qed.

(** The code is right exactly when it is the one of the body. *)
Lemma edc_wrong_split use_crc l code :
  bytes_ok l -> bytes_ok code -> zlen code = edc_length use_crc ->
  edc_wrong use_crc (l ++ code) = negb (bool_decide (code = edc_bytes use_crc l)).
Proof.
  intros Bl Bc Lc. unfold edc_wrong. rewrite zlen_app, Lc. cbv zeta. destruct use_crc; cbn [edc_length] in *; f_equal.
  - destruct code as [|x [|y [|z t]]]; try (unfold zlen in Lc; cbn in Lc; lia).
    replace (zlen l + 2 - 2) with (zlen l) by lia. replace (zlen l + 2 - 1) with (zlen l + 1) by lia.
    pose proof (zlen_nonneg l). rewrite ztake_app by done. rewrite !byte_at_app_r by lia.
    replace (zlen l - zlen l) with 0 by lia. replace (zlen l + 1 - zlen l) with 1 by lia.
    change (byte_at [x; y] 0) with x. change (byte_at [x; y] 1) with y.
    apply Forall_cons in Bc as [Hx Bc]. apply Forall_cons in Bc as [Hy _].
    pose proof (calculate_crc_u16 l Bl) as Hc. unfold edc_bytes. cbv zeta. revert Hc.
    generalize (calculate_crc l). intros c Hc.
    rewrite Z.lor_comm, lor_shiftl_add by (width_lia || lia).
    unfold cast_u16, cast_u8. rewrite Z.shiftr_div_pow2 by lia. case_bool_decide as E.
    + apply Z.eqb_eq. injection E as -> ->. widths. Z.to_euclidean_division_equations. lia.
    + apply Z.eqb_neq. intros E'. apply E. f_equal; [|f_equal]; widths; Z.to_euclidean_division_equations; lia.
  - destruct code as [|x [|y t]];
      try (unfold zlen in Lc; cbn in Lc; lia).
    apply Forall_cons in Bc as [Hx _]. pose proof (xor_check l x Hx) as X. unfold edc_bytes.
    case_bool_decide as E.
    + injection E as ->. apply Z.eqb_eq. by apply X.
    + apply Z.eqb_neq. intros E'. apply E. f_equal. by apply X.
Qed.

(** A block survives its frame, with both error detection codes. *)
Lemma check_frame_of use_crc pcb data :
  is_u8 pcb -> bytes_ok data -> zlen data <= edc_limit use_crc ->
  check_frame use_crc (frame_of use_crc pcb data) = success {| b_pcb := pcb; b_data := data |}.
Proof.
  intros Hp B L. unfold edc_limit in L. pose proof (zlen_nonneg data). unfold check_frame, frame_of.
  rewrite edc_wrong_split; [|by apply body_ok|by apply edc_bytes_ok, body_ok|by destruct use_crc].
  rewrite bool_decide_true by done. set (code := edc_bytes use_crc _).
  change (byte_at (frame_body pcb data ++ code) 0) with 0.
  change (byte_at (frame_body pcb data ++ code) 1) with pcb.
  change (byte_at (frame_body pcb data ++ code) 2) with (cast_u8 (zlen data)).
  assert (cast_u8 (zlen data) = zlen data) as ->
    by (unfold cast_u8; apply Z.mod_small; destruct use_crc; cbn in L; lia).
  cbn [Z.eqb kT1Nad negb]. cbv zeta. rewrite (proj2 (Z.ltb_ge _ _)) by (destruct use_crc; cbn in L; lia).
  do 2 f_equal. unfold frame_body. rewrite <- app_assoc. cbn [app].
  unfold zdrop. cbn [Z.to_nat Pos.to_nat Pos.iter_op Nat.add drop]. by apply ztake_app.
Qed.

Lemma insert_split {A} (l : list A) i (x : A) :
  (i < length l)%nat -> exists l1 y l2, l = l1 ++ y :: l2 /\ <[i:=x]> l = l1 ++ x :: l2 /\ length l1 = i.
Proof.
  intros Hi. destruct (lookup_lt_is_Some_2 l i Hi) as [y Hy].
  exists (take i l), y, (drop (S i) l). split; [by rewrite take_drop_middle|].
  split; [by rewrite insert_take_drop by done|]. rewrite length_take. lia.
Qed.

(** The code of a body with one changed byte is another one. *)
Lemma edc_detects use_crc l1 l2 b x :
  bytes_ok (l1 ++ b :: l2) -> is_u8 x -> b <> x ->
  edc_bytes use_crc (l1 ++ b :: l2) <> edc_bytes use_crc (l1 ++ x :: l2).
Proof.
  intros B Hx N E. assert (bytes_ok (l1 ++ x :: l2)) as B'.
  { rewrite bytes_ok_app in *. destruct B as [B1 B2]. split; [done|].
    apply Forall_cons in B2 as [_ B2]. by constructor. }
  apply N. unfold edc_bytes in E. destruct use_crc.
  - apply (crc_detects l1 l2); [done..|]. pose proof (calculate_crc_u16 _ B) as U. pose proof (calculate_crc_u16 _ B') as U'.
    injection E as E1 E2. rewrite <- (crc_join _ U), <- (crc_join _ U'). by rewrite E1, E2.
  - apply (xor_detects l1 l2); [done..|]. by injection E.
Qed.

(** No frame with one wrong byte is taken for a block, whichever byte it is. *)
Theorem corrupted_frame_rejected use_crc pcb data i x :
  is_u8 pcb -> bytes_ok data -> is_u8 x ->
  0 <= i < zlen (frame_of use_crc pcb data) -> byte_at (frame_of use_crc pcb data) i <> x ->
  check_frame use_crc (<[Z.to_nat i := x]> (frame_of use_crc pcb data)) = failure PROTOCOL_ERROR.
Proof.
  intros Hp B Hx Hi N. assert (bytes_ok (frame_body pcb data)) as Bl by by apply body_ok.
  unfold frame_of in *. set (l := frame_body pcb data) in *.
  assert (bytes_ok (edc_bytes use_crc l)) as Bc by by apply edc_bytes_ok.
  assert (zlen (edc_bytes use_crc l) = edc_length use_crc) as Lc by by destruct use_crc.
  enough (edc_wrong use_crc (<[Z.to_nat i:=x]> (l ++ edc_bytes use_crc l)) = true) as W
    by (unfold check_frame; rewrite W; by destruct (negb _)).
  rewrite zlen_app in Hi. destruct (Z.lt_ge_cases i (zlen l)) as [Hl|Hl].
  - rewrite byte_at_app_l in N by lia. rewrite insert_app_l by (unfold zlen in *; lia).
    destruct (insert_split l (Z.to_nat i) x) as (l1 & y & l2 & E & -> & Len); [unfold zlen in *; lia|].
    assert (y <> x) as Nyx.
    { intros ->. apply N. rewrite E. unfold byte_at. rewrite nth_lookup, <- Len.
      by rewrite lookup_app_r, Nat.sub_diag by lia. }
    rewrite edc_wrong_split; [|rewrite E in Bl|done|done].
    + rewrite bool_decide_false; [done|]. intros E'. rewrite E in E'.
      rewrite E in Bl. by eapply edc_detects in E'.
    + rewrite bytes_ok_app in *. destruct Bl as [B1 B2]. split; [done|].
      apply Forall_cons in B2 as [_ B2]. by constructor.
  - rewrite byte_at_app_r in N by lia.
    rewrite insert_app_r_alt by (unfold zlen in *; lia).
    destruct (insert_split (edc_bytes use_crc l) (Z.to_nat i - length l) x) as (c1 & y & c2 & E & Ei & Len);
      [unfold zlen in *; lia|].
    rewrite edc_wrong_split; [|done| |].
    + rewrite bool_decide_false; [done|]. rewrite Ei. intros E'. apply N. rewrite <- E'.
      unfold byte_at. rewrite nth_lookup. replace (Z.to_nat (i - zlen l)) with (length c1) by (unfold zlen in *; lia).
      by rewrite lookup_app_r, Nat.sub_diag by lia.
    + by apply Forall_insert.
    + unfold zlen. by rewrite length_insert.
Qed.

(** * Termination *)

Section Termination.
Context {HW : Type} `{CardTimeLaws HW}.
Variable fuel : nat.

(** The fuel outlasts the time to the deadline. *)
Definition outlasts (n : nat) (deadline : Z) (hw : HW) : Prop := Z.max 0 (deadline - clock hw) < Z.of_nat n.

(** [m] returns, and the clock has not gone back. *)
Definition finishes {A} (m : Io HW A) (hw : HW) : Prop :=
  returns m hw (fun _ hw' => clock hw <= clock hw').

Lemma finishes_bind {A B} (m : Io HW A) (k : A -> Io HW B) hw :
  finishes m hw -> (forall a hw', m hw = Some (success a, hw') -> clock hw <= clock hw' -> finishes (k a) hw') ->
  finishes (m ≫= k) hw.
Proof.
  intros (r & hw1 & E & L) K. apply returns_bind. exists r, hw1. split; [done|].
  destruct r as [a|e]; [|done]. specialize (K a hw1 E L).
  eapply returns_mono; [exact K|]. cbn. lia.
Qed.

Lemma finishes_ret {A} (a : A) hw : finishes (mret a) hw.
Proof. apply returns_ret. lia. Qed.
Lemma finishes_fail {A} e hw : finishes (fail e : Io HW A) hw.
Proof. apply returns_fail. lia. Qed.
Lemma finishes_call {A} (f : HW -> Result A * HW) hw : clock hw <= clock (f hw).2 -> finishes (call f) hw.
Proof. intros L. by apply returns_call. Qed.
Lemma finishes_sleep n hw : 0 <= n -> finishes (modify (sleep_ms n)) hw.
Proof. intros Hn. apply returns_modify. pose proof (sleep_clock n hw Hn). lia. Qed.
Lemma finishes_attempt {A} (m : Io HW A) hw : finishes m hw -> finishes (attempt m) hw.
Proof. intros F. by apply returns_attempt. Qed.

Lemma get_time_eq hw : get_time hw = Some (success (monotonic_ms hw).1, (monotonic_ms hw).2).
Proof. unfold get_time. by destruct (monotonic_ms hw). Qed.

Lemma deadline_expired_eq deadline hw :
  deadline_expired deadline hw = Some (success (deadline <=? (monotonic_ms hw).1), (monotonic_ms hw).2).
Proof. unfold deadline_expired. by rewrite (bind_success _ _ _ _ _ (get_time_eq hw)). Qed.

(** The guard of every loop: it ends at the deadline. *)
Lemma finishes_expired {B} (k : bool -> Io HW B) deadline hw :
  finishes (k true) (monotonic_ms hw).2 ->
  (clock hw < deadline -> finishes (k false) (monotonic_ms hw).2) ->
  finishes (deadline_expired deadline ≫= k) hw.
Proof.
  intros T F. pose proof (monotonic_clock hw). apply finishes_bind.
  - eexists _, _. split; [apply deadline_expired_eq|lia].
  - intros b hw'. rewrite deadline_expired_eq. intros E _. injection E as <- <-.
    destruct (Z.leb_spec deadline (monotonic_ms hw).1); [done|]. apply F. lia.
Qed.

Lemma outlasts_mono n deadline deadline' hw hw' :
  clock hw <= clock hw' -> deadline' <= deadline -> outlasts n deadline hw -> outlasts n deadline' hw'.
Proof. unfold outlasts. lia. Qed.

Lemma deadline_after_bound ms hw d hw' :
  0 <= ms -> deadline_after ms hw = Some (success d, hw') -> clock hw <= clock hw' /\ d <= clock hw' + ms.
Proof.
  unfold deadline_after. intros Hms. rewrite (bind_success _ _ _ _ _ (get_time_eq hw)).
  pose proof (monotonic_clock hw). cbv zeta. intros E. injection E as <- <-. split; [lia|].
  destruct (Z.ltb_spec (2 ^ 64 - 1 - ms) (monotonic_ms hw).1); lia.
Qed.

Lemma finishes_deadline_after ms hw : finishes (deadline_after ms) hw.
Proof.
  apply finishes_bind; [|intros; apply finishes_ret]. eexists _, _. split; [apply get_time_eq|].
  pose proof (monotonic_clock hw). lia.
Qed.

Lemma wait_finishes n deadline hw : outlasts n deadline hw -> finishes (wait_loop n deadline) hw.
Proof.
  revert hw. induction n as [|n IH]; intros hw O; [unfold outlasts in O; lia|]. cbn [wait_loop].
  pose proof (monotonic_clock hw). apply finishes_expired; [apply finishes_fail|]. intros L.
  apply finishes_bind; [by apply finishes_call, ready_clock|]. intros [] hw1 _ L1; [apply finishes_ret|].
  pose proof (sleep_clock kPollIntervalMs hw1 ltac:(done)) as S.
  apply finishes_bind; [by apply finishes_sleep|]. intros u hw2 E _. injection E as _ <-.
  apply IH. unfold outlasts, kPollIntervalMs in *. lia.
Qed.

(** The step that every round of a polling loop ends with. *)
Lemma finishes_poll {A} (k : Io HW A) hw hw0 n deadline :
  clock hw0 <= clock hw -> clock hw0 < deadline -> outlasts (S n) deadline hw0 ->
  (forall hw', clock hw0 <= clock hw' -> outlasts n deadline hw' -> finishes k hw') ->
  finishes (_ ← modify (sleep_ms kPollIntervalMs); k) hw.
Proof.
  intros L1 L O K. pose proof (sleep_clock kPollIntervalMs hw ltac:(done)) as S.
  apply finishes_bind; [by apply finishes_sleep|]. intros u hw2 E _. injection E as _ <-.
  unfold outlasts, kPollIntervalMs in *. apply K; lia.
Qed.

Lemma read_atr_finishes n deadline atr hw :
  outlasts n deadline hw -> outlasts fuel deadline hw -> finishes (read_atr_loop fuel n deadline atr) hw.
Proof.
  revert atr hw. induction n as [|n IH]; intros atr hw O Of; [unfold outlasts in O; lia|].
  cbn [read_atr_loop]. pose proof (monotonic_clock hw). apply finishes_expired; [apply finishes_fail|]. intros L.
  apply finishes_bind; [apply wait_finishes; eapply outlasts_mono; [| |exact Of]; lia|]. intros _ hw1 _ L1.
  destruct (_ =? kPx4CardAtrMaxLength); [apply finishes_fail|].
  apply finishes_bind; [by apply finishes_call, read_clock|]. intros bytes hw2 _ L2.
  destruct (_ <? zlen bytes); [apply finishes_fail|]. cbv zeta.
  assert (forall atr, finishes (_ ← modify (sleep_ms kPollIntervalMs); read_atr_loop fuel n deadline atr) hw2) as Poll.
  { intros a. apply (finishes_poll _ hw2 hw n deadline); [lia|lia|done|].
    intros hw' L' O'. apply IH; [done|]. eapply outlasts_mono; [| |exact Of]; lia. }
  destruct (zlen bytes =? 0); [apply Poll|].
  destruct (parse_card_atr _) as [[a|e]|] eqn:P; [apply finishes_ret| |by apply parse_atr_total in P].
  destruct (bool_decide _); [apply Poll|apply finishes_fail].
Qed.

Lemma discard_finishes n hw : finishes (discard_loop n) hw.
Proof.
  revert hw. induction n as [|n IH]; intros hw; [apply finishes_fail|]. cbn [discard_loop].
  apply finishes_bind; [by apply finishes_call, ready_clock|]. intros [] hw1 _ L1; [|apply finishes_ret].
  apply finishes_bind; [by apply finishes_call, read_clock|]. intros bytes hw2 _ L2.
  destruct (_ <? _); [apply finishes_fail|]. destruct (_ =? 0); [apply finishes_ret|apply IH].
Qed.

Lemma receive_loop_finishes n use_crc deadline r hw :
  outlasts n deadline hw -> outlasts fuel deadline hw ->
  finishes (receive_loop fuel n use_crc deadline r) hw.
Proof.
  revert r hw. induction n as [|n IH]; intros r hw O Of; [unfold outlasts in O; lia|].
  cbn [receive_loop]. pose proof (monotonic_clock hw). apply finishes_expired; [apply finishes_ret|]. intros L.
  apply finishes_bind; [apply wait_finishes; eapply outlasts_mono; [| |exact Of]; lia|]. intros _ hw1 _ L1.
  apply finishes_bind; [by apply finishes_call, read_clock|]. intros chunk hw2 _ L2. cbv zeta.
  assert (forall r, finishes (_ ← modify (sleep_ms kPollIntervalMs); receive_loop fuel n use_crc deadline r) hw2) as Poll.
  { intros r'. apply (finishes_poll _ hw2 hw n deadline); [lia|lia|done|].
    intros hw' L' O'. apply IH; [done|]. eapply outlasts_mono; [| |exact Of]; lia. }
  destruct (_ <? zlen chunk); [apply finishes_fail|]. destruct (zlen chunk =? 0); [apply Poll|].
  destruct (_ && (_ <? _)); [apply finishes_fail|]. destruct (_ && _); [apply finishes_ret|].
  destruct (_ && _); [apply finishes_fail|apply Poll].
Qed.

Lemma from_result_finishes {A} (r : Result A) hw : finishes (from_result r) hw.
Proof. exists r, hw. split; [done|]. lia. Qed.

Lemma receive_finishes use_crc deadline hw :
  outlasts fuel deadline hw -> finishes (receive_block fuel use_crc deadline) hw.
Proof.
  intros O. apply finishes_bind; [by apply receive_loop_finishes|]. intros r hw1 _ L1.
  destruct (_ || _); [apply finishes_fail|].
  apply finishes_bind; [destruct (_ || _); [apply discard_finishes|apply finishes_ret]|].
  intros _ hw2 _ L2. apply from_result_finishes.
Qed.

Lemma send_finishes use_crc pcb data hw : finishes (send_block use_crc pcb data) hw.
Proof.
  unfold send_block. destruct (_ <? _); [apply finishes_fail|]. destruct (_ <? _); [apply finishes_fail|].
  apply finishes_call, write_clock.
Qed.

(** A block that was sent took time. *)
Lemma send_takes_time use_crc pcb data hw u hw' :
  send_block use_crc pcb data hw = Some (success u, hw') -> clock hw + 1 <= clock hw'.
Proof.
  unfold send_block. destruct (_ <? _); [done|]. destruct (_ <? _); [done|].
  unfold call. destruct (write_data _ hw) as [[[]|e] hw1] eqn:E; [|done]. intros E'. injection E' as <-.
  pose proof (write_takes_time (frame_of use_crc pcb data) hw) as W. rewrite E in W. subst hw1. by apply W.
Qed.

(** Every request for more time is answered with a block, so that the requests
    end with the operation's deadline. *)
Lemma wtx_finishes n use_crc deadline response hw :
  outlasts n deadline hw -> outlasts fuel deadline hw ->
  finishes (wtx_loop fuel n use_crc deadline response) hw.
Proof.
  revert response hw. induction n as [|n IH]; intros response hw O Of; [unfold outlasts in O; lia|].
  cbn [wtx_loop]. destruct (_ =? _); [|apply finishes_ret]. destruct (_ || _); [apply finishes_fail|].
  apply finishes_bind; [apply send_finishes|]. intros u hw1 E L1. apply send_takes_time in E.
  assert (outlasts fuel deadline hw1) as Of1 by (eapply outlasts_mono; [| |exact Of]; lia).
  destruct (Z.lt_ge_cases (clock hw1) deadline) as [B|B].
  - apply finishes_bind; [by apply finishes_attempt, receive_finishes|]. intros [b|e] hw2 _ L2; [|apply finishes_ret].
    apply IH; [unfold outlasts in *; lia|]. eapply outlasts_mono; [| |exact Of1]; lia.
  - (* the deadline has passed: nothing more is received *)
    apply finishes_bind; [by apply finishes_attempt, receive_finishes|]. intros r hw2 E2 L2.
    assert (exists e, r = failure e) as [e ->]; [|apply finishes_ret].
    unfold attempt in E2. destruct (receive_block fuel use_crc deadline hw1) as [[r' s']|] eqn:R; [|done].
    injection E2 as E2 _. rewrite <- E2. clear E2. unfold receive_block in R. apply bind_some in R as [(e & _ & ->)|(rc & hw3 & R & K)]; [by eexists|].
    destruct fuel as [|fuel']; [done|]. cbn [receive_loop] in R.
    rewrite (bind_success _ _ _ _ _ (deadline_expired_eq deadline hw1)) in R.
    pose proof (monotonic_clock hw1). rewrite (proj2 (Z.leb_le _ _)) in R by lia.
    unfold mret, Io_ret in R. injection R as <- <-. cbn in K. injection K as <- _. by eexists.
Qed.

(** An exchange always ends, and one that succeeds has sent a block before the
    deadline. *)
Lemma exchange_finishes retries use_crc timeout pcb data deadline hw :
  outlasts fuel deadline hw ->
  returns (exchange_block fuel retries use_crc timeout pcb data deadline) hw
    (fun r hw' => clock hw <= clock hw' /\
      (is_success r = true -> clock hw < deadline /\ clock hw + 1 <= clock hw')).
Proof.
  revert hw. induction retries as [|retries IH]; intros hw O; cbn [exchange_block].
  - apply returns_bind. eexists _, _. split; [apply deadline_expired_eq|]. pose proof (monotonic_clock hw).
    destruct (_ <=? _); apply returns_fail; (split; [lia|done]).
  - apply returns_bind. eexists _, _. split; [apply deadline_expired_eq|]. pose proof (monotonic_clock hw) as M.
    set (hw0 := (monotonic_ms hw).2) in *.
    destruct (Z.leb_spec deadline (monotonic_ms hw).1) as [|B]; [apply returns_fail; split; [lia|done]|].
    apply returns_bind. destruct (send_finishes use_crc pcb data hw0) as (r & hw1 & E & L1).
    exists r, hw1. split; [done|]. destruct r as [u|e]; [|split; [lia|done]]. apply send_takes_time in E.
    enough (returns (block_deadline ← deadline_after timeout;
      received ← attempt (receive_block fuel use_crc (Z.min deadline block_deadline));
      response ← match received with
                 | success response => wtx_loop fuel fuel use_crc deadline response
                 | failure e => mret (failure e)
                 end;
      match (response : Result Block) with
      | success response => mret response
      | failure e =>
          if negb (bool_decide (e = TIMEOUT)) && negb (bool_decide (e = PROTOCOL_ERROR)) then fail e
          else exchange_block fuel retries use_crc timeout pcb data deadline
      end) hw1 (fun _ hw' => clock hw1 <= clock hw')) as R.
    { eapply returns_mono; [exact R|]. cbn. lia. }
    assert (outlasts fuel deadline hw1) as O1 by (eapply outlasts_mono; [| |exact O]; lia).
    apply finishes_bind; [apply finishes_deadline_after|]. intros d hw2 _ L2.
    apply finishes_bind.
    { apply finishes_attempt, receive_finishes. eapply outlasts_mono; [| |exact O1]; lia. }
    intros received hw3 _ L3.
    assert (outlasts fuel deadline hw3) as O3 by (eapply outlasts_mono; [| |exact O1]; lia).
    apply finishes_bind.
    { destruct received; [by apply wtx_finishes|apply finishes_ret]. }
    intros response hw4 _ L4. destruct response as [b|e]; [apply finishes_ret|].
    destruct (_ && _); [apply finishes_fail|].
    eapply returns_mono; [apply IH; eapply outlasts_mono; [| |exact O3]; lia|]. cbn. lia.
Qed.

Lemma reset_attempts_finish n k hw :
  kAtrTimeoutMs < Z.of_nat fuel -> finishes (reset_attempts fuel n k) hw.
Proof.
  intros Hf. revert k hw. induction n as [|n IH]; intros k hw; [apply finishes_fail|]. cbn [reset_attempts].
  apply finishes_bind; [by apply finishes_call, reset_clock|]. intros _ hw1 _ L1.
  apply finishes_bind.
  - apply finishes_attempt. apply finishes_bind; [apply finishes_deadline_after|]. intros d hw2 E L2.
    apply deadline_after_bound in E as [_ D]; [|done].
    apply read_atr_finishes; unfold outlasts, kAtrTimeoutMs in *; lia.
  - intros [a|e] hw2 _ L2.
    + apply finishes_bind; [by apply finishes_call, baud_clock|]. intros. apply finishes_ret.
    + destruct (_ || _); [apply finishes_fail|apply IH].
Qed.

Lemma reset_and_read_finishes hw :
  kAtrTimeoutMs < Z.of_nat fuel -> finishes (reset_and_read_card_atr fuel) hw.
Proof.
  intros Hf. apply finishes_bind; [by apply finishes_call, detect_clock|]. intros [] hw1 _ L1; cbn [negb].
  - by apply reset_attempts_finish.
  - apply finishes_fail.
Qed.
End Termination.

(** A bit that flips on the way in the middle of a command. *)
Lemma corrupted_frame_rejected_witness :
  check_frame true (<[5%nat := 0x31]> (frame_of true 0x40 [0x90; 0x30; 0x00; 0x00])) = failure PROTOCOL_ERROR.
Proof.
  refine (corrupted_frame_rejected true 0x40 [0x90; 0x30; 0x00; 0x00] 5 0x31 _ _ _ _ _).
  - done.
  - by apply bytes_okb_ok.
  - done.
  - split; [discriminate|reflexivity].
  - discriminate.
Defined.
