(* ===== verification/CardSession.v ===== *)
(** The card session of [src/card.cpp] ([CardSession]): initialisation of the
    T=1 protocol and the transmission of an APDU in chained blocks.  The state of
    an operation is the session, the caller's response buffer and the hardware. *)

From S2P Require Import Prelude IoMonad CardAtr CardT1.

Record CardSession := {
  atr_ : CardAtr;
  initialized_ : bool;
  use_crc_ : bool;
  card_ifsc_ : Z;
  block_timeout_ms_ : Z;
  send_sequence_ : Z;
  receive_sequence_ : Z;
}.

(** The state after [invalidate], also that of a new session. *)
Definition invalid_session : CardSession := {|
  atr_ := empty_atr; initialized_ := false; use_crc_ := false; card_ifsc_ := 32;
  block_timeout_ms_ := kDefaultBlockTimeoutMs; send_sequence_ := 0; receive_sequence_ := 0;
|}.

Definition with_sequences (s : CardSession) (send receive : Z) : CardSession := {|
  atr_ := atr_ s; initialized_ := initialized_ s; use_crc_ := use_crc_ s; card_ifsc_ := card_ifsc_ s;
  block_timeout_ms_ := block_timeout_ms_ s; send_sequence_ := send; receive_sequence_ := receive;
|}.
Definition with_initialized (s : CardSession) (b : bool) : CardSession := {|
  atr_ := atr_ s; initialized_ := b; use_crc_ := use_crc_ s; card_ifsc_ := card_ifsc_ s;
  block_timeout_ms_ := block_timeout_ms_ s; send_sequence_ := send_sequence_ s;
  receive_sequence_ := receive_sequence_ s;
|}.
(** [initialize] takes the parameters of the ATR over. *)
Definition with_atr (s : CardSession) (a : CardAtr) : CardSession := {|
  atr_ := a; initialized_ := initialized_ s; use_crc_ := bool_decide (edc (atr_fields a) = crc);
  card_ifsc_ := ifsc (atr_fields a); block_timeout_ms_ := block_timeout_ms (atr_fields a);
  send_sequence_ := send_sequence_ s; receive_sequence_ := receive_sequence_ s;
|}.

(** The kinds of block, by the bits of the PCB the code tests. *)
Definition is_i_block (b : Block) : bool := Z.land (b_pcb b) 0x80 =? kT1IBlock.
Definition is_r_block (b : Block) : bool := Z.land (b_pcb b) 0xc0 =? kT1RBlock.
Definition has_bit (z mask : Z) : bool := negb (Z.land z mask =? 0).

Definition i_pcb (send_sequence : Z) (has_more : bool) : Z :=
  Z.lor (Z.lor kT1IBlock (if negb (send_sequence =? 0) then kT1ISequence else 0))
    (if has_more then kT1IChain else 0).
Definition r_pcb (receive_sequence : Z) : Z :=
  Z.lor kT1RBlock (if negb (receive_sequence =? 0) then kT1RSequence else 0).

Section Session.
Context {HW : Type} `{CardHardware HW}.
Variable fuel : nat.

(** Session and response buffer, and the hardware. *)
Definition St : Type := (CardSession * list Z) * HW.

Definition hardware {A} (m : Io HW A) : Io St A := on_snd m.
Definition get_session : Io St CardSession := gets (fun st => st.1.1).
Definition set_session (f : CardSession -> CardSession) : Io St unit :=
  modify (fun st => ((f st.1.1, st.1.2), st.2)).
Definition invalidate : Io St unit := set_session (fun _ => invalid_session).

(** [exchange_block] with the members it reads. *)
Definition exchange (max_retries : nat) (pcb : Z) (data : list Z) (deadline : Z) : Io St Block :=
  s ← get_session;
  hardware (exchange_block fuel max_retries (use_crc_ s) (block_timeout_ms_ s) pcb data deadline).

(** * Initialisation *)

(** RESYNCH and the check of its answer. *)
Definition resynchronize_card (max_retries : nat) (deadline : Z) : Io St unit :=
  response ← exchange max_retries (Z.lor kT1SBlock kT1SResynchronize) [] deadline;
  require ((b_pcb response =? Z.lor (Z.lor kT1SBlock kT1SResponse) kT1SResynchronize)
            && (b_length response =? 0)) PROTOCOL_ERROR.

Definition initialize_t1 (resynchronize : bool) (ifsd : Z) : Io St unit :=
  _ ← set_session (fun s => with_sequences s 0 0);
  deadline ← hardware (deadline_after kOperationTimeoutMs);
  _ ← (if resynchronize then resynchronize_card kMaxRetries deadline else mret tt);
  response ← attempt (exchange (if resynchronize then kMaxRetries else 1%nat)
                        (Z.lor kT1SBlock kT1SIfs) [ifsd] deadline);
  response ← (match response with
    | failure e =>
        if negb resynchronize && (bool_decide (e = TIMEOUT) || bool_decide (e = PROTOCOL_ERROR)) then
          _ ← resynchronize_card 1%nat deadline;
          exchange kMaxRetries (Z.lor kT1SBlock kT1SIfs) [ifsd] deadline
        else fail e
    | success b => mret b
    end);
  require ((b_pcb response =? Z.lor (Z.lor kT1SBlock kT1SResponse) kT1SIfs)
            && (b_length response =? 1) && (byte_at (b_data response) 0 =? ifsd)) PROTOCOL_ERROR.

Definition initialize : Io St unit :=
  _ ← invalidate;
  atr ← hardware (reset_and_read_card_atr fuel);
  _ ← set_session (fun s => with_atr s atr);
  s ← get_session;
  let is_acas := bool_decide (baud_rate (atr_fields (atr_ s)) = baud_38400) in
  let ifsd := if is_acas then 254 else if use_crc_ s then 250 else 251 in
  initialized ← attempt (initialize_t1 (negb is_acas) ifsd);
  match initialized with
  | failure e =>
      _ ← invalidate;
      fail e
  | success _ => set_session (fun s => with_initialized s true)
  end.

(** * Transmission *)

(** The attempts to have one block accepted. *)
Fixpoint send_chunk (retries : nat) (pcb : Z) (chunk : list Z) (has_more : bool) (deadline : Z) : Io St Block :=
  match retries with
  | O => fail PROTOCOL_ERROR
  | S retries =>
      last_block ← exchange kMaxRetries pcb chunk deadline;
      s ← get_session;
      if is_r_block last_block then
        if eqb (has_bit (b_pcb last_block) kT1RSequence) (negb (send_sequence_ s =? 0))
        then send_chunk retries pcb chunk has_more deadline
        else mret last_block
      else if is_i_block last_block && negb has_more then mret last_block
      else fail PROTOCOL_ERROR
  end.

(** The attempts to fetch the response after the last block was acknowledged. *)
Fixpoint fetch_response (retries : nat) (deadline : Z) : Io St Block :=
  match retries with
  | O => fail PROTOCOL_ERROR
  | S retries =>
      s ← get_session;
      last_block ← exchange kMaxRetries (r_pcb (receive_sequence_ s)) [] deadline;
      if is_i_block last_block then mret last_block
      else if negb (is_r_block last_block) then fail PROTOCOL_ERROR
      else fetch_response retries deadline
  end.

Definition toggle_send (s : CardSession) : CardSession :=
  with_sequences s (Z.lxor (send_sequence_ s) 1) (receive_sequence_ s).
Definition toggle_receive (s : CardSession) : CardSession :=
  with_sequences s (send_sequence_ s) (Z.lxor (receive_sequence_ s) 1).

(** The loop over the blocks of the APDU. *)
Fixpoint send_loop (n : nat) (apdu : list Z) (max_inf_length : Z) (deadline : Z)
    (send_offset : Z) (last_block : Block) : Io St Block :=
  if send_offset <? zlen apdu then
    match n with
    | O => diverge
    | S n =>
        s ← get_session;
        let chunk_length := Z.min (Z.min (card_ifsc_ s) max_inf_length) (zlen apdu - send_offset) in
        let has_more := send_offset + chunk_length <? zlen apdu in
        last_block ← send_chunk kMaxRetries (i_pcb (send_sequence_ s) has_more)
                       (ztake chunk_length (zdrop send_offset apdu)) has_more deadline;
        last_block ← (if negb has_more && is_r_block last_block
                      then fetch_response kMaxRetries deadline else mret last_block);
        _ ← set_session toggle_send;
        send_loop n apdu max_inf_length deadline (send_offset + chunk_length) last_block
    end
  else mret last_block.

(** The copy into the response buffer; outside of it would be undefined. *)
Definition store_response (pos : Z) (data : list Z) : Io St unit := fun st =>
  match mem_store st.1.2 pos data with
  | None => None
  | Some buf => Some (success tt, ((st.1.1, buf), st.2))
  end.

(** The loop over the blocks of the response. *)
Fixpoint receive_response (n : nat) (deadline : Z) (response_length : Z) (last_block : Block) : Io St Z :=
  match n with
  | O => diverge
  | S n =>
      s ← get_session;
      buf ← gets (fun st : St => st.1.2);
      if negb (eqb (has_bit (b_pcb last_block) kT1ISequence) (negb (receive_sequence_ s =? 0)))
      then fail PROTOCOL_ERROR
      else if zlen buf <? response_length + b_length last_block then fail BUFFER_TOO_SMALL
      else
        _ ← store_response response_length (b_data last_block);
        _ ← set_session toggle_receive;
        if negb (has_bit (b_pcb last_block) kT1IChain)
        then mret (response_length + b_length last_block)
        else
          s ← get_session;
          next ← exchange kMaxRetries (r_pcb (receive_sequence_ s)) [] deadline;
          if negb (is_i_block next) then fail PROTOCOL_ERROR
          else receive_response n deadline (response_length + b_length last_block) next
  end.

(** [response_null] says that the response pointer is null. *)
Definition transmit_initialized (apdu : ByteView) (response_null : bool) (deadline : Z) : Io St Z :=
  match apdu with
  | NullView _ => fail INVALID_ARGUMENT
  | View apdu =>
      if (zlen apdu =? 0) || response_null then fail INVALID_ARGUMENT
      else
        s ← get_session;
        let max_inf_length := kCardUartFrameMaxLength - 3 - edc_length (use_crc_ s) in
        last_block ← send_loop fuel apdu max_inf_length deadline 0 {| b_pcb := 0; b_data := [] |};
        receive_response fuel deadline 0 last_block
  end.

Definition transmit (apdu : ByteView) (response_null : bool) : Io St Z :=
  s ← get_session;
  let was_initialized := initialized_ s in
  detected ← attempt (hardware (call detect_card));
  match detected with
  | failure e =>
      _ ← invalidate;
      fail e
  | success false =>
      _ ← invalidate;
      fail (if was_initialized then CARD_REMOVED else NO_CARD)
  | success true =>
      _ ← (if initialized_ s then mret tt else initialize);
      deadline ← hardware (deadline_after kOperationTimeoutMs);
      transmitted ← attempt (transmit_initialized apdu response_null deadline);
      match transmitted with
      | failure e =>
          _ ← invalidate;
          fail e
      | success n => mret n
      end
  end.
End Session.

(** * Lemmas *)

Section Facts.
Context {HW : Type} `{CardHardware HW}.
Variable fuel : nat.

(** ** What an operation leaves of the session *)

(** [m] neither initialises nor invalidates the session. *)
Definition keeps {A} (m : Io (@St HW) A) : Prop :=
  forall st r st', m st = Some (r, st') -> initialized_ st'.1.1 = initialized_ st.1.1.

Lemma keeps_bind {A B} (m : Io (@St HW) A) (k : A -> Io (@St HW) B) :
  keeps m -> (forall a, keeps (k a)) -> keeps (m ≫= k).
Proof.
  intros M K st r st' E. apply bind_some in E as [(e & E & _)|(a & st1 & E & E')].
  - by apply M in E.
  - apply M in E. apply K in E'. congruence.
Qed.
Lemma keeps_ret {A} (a : A) : keeps (mret a).
Proof. intros st r st' E. by injection E as <- <-. Qed.
Lemma keeps_fail {A} e : keeps (fail e : Io (@St HW) A).
Proof. intros st r st' E. by injection E as <- <-. Qed.
Lemma keeps_diverge {A} : keeps (diverge : Io (@St HW) A).
Proof. by intros st r st' E. Qed.
Lemma keeps_gets {A} (f : @St HW -> A) : keeps (gets f).
Proof. intros st r st' E. by injection E as <- <-. Qed.
Lemma keeps_session : keeps (get_session (HW := HW)).
Proof. apply keeps_gets. Qed.
Lemma keeps_set f : (forall s, initialized_ (f s) = initialized_ s) -> keeps (set_session f).
Proof. intros F st r st' E. injection E as <- <-. apply F. Qed.
Lemma keeps_hardware {A} (m : Io HW A) : keeps (hardware m).
Proof.
  intros st r st' E. unfold hardware, on_snd in E. destruct (m st.2) as [[r1 hw]|]; [|done]. by injection E as <- <-.
Qed.
Lemma keeps_attempt {A} (m : Io (@St HW) A) : keeps m -> keeps (attempt m).
Proof.
  intros M st r st' E. unfold attempt in E. destruct (m st) as [[r1 st1]|] eqn:E1; [|done].
  injection E as <- <-. by apply M in E1.
Qed.
Lemma keeps_store pos data : keeps (store_response (HW := HW) pos data).
Proof. intros st r st' E. unfold store_response in E. by destruct (mem_store _ _ _); [injection E as <- <-|]. Qed.
Lemma keeps_require c e : keeps (require c e).
Proof. destruct c; [apply keeps_ret|apply keeps_fail]. Qed.
End Facts.

Create HintDb session.
#[export] Hint Resolve keeps_ret keeps_fail keeps_diverge keeps_gets keeps_session keeps_hardware keeps_attempt
  keeps_store keeps_require : session.
#[export] Hint Extern 5 (keeps (set_session _)) => (apply keeps_set; reflexivity) : session.

(** Walks through a computation by its structure. *)
Ltac walk_keeps :=
  repeat first
    [ apply keeps_bind; [|intros ?]
    | progress intros
    | solve [auto with session]
    | match goal with |- keeps (match ?x with _ => _ end) => destruct x end ].

Section Outcome.
Context {HW : Type} `{CardHardware HW}.
Variable fuel : nat.

Lemma exchange_keeps n pcb data deadline : keeps (exchange fuel n pcb data deadline).
Proof. unfold exchange. walk_keeps. Qed.
#[local] Hint Resolve exchange_keeps : session.

Lemma send_chunk_keeps n pcb chunk more deadline : keeps (send_chunk fuel n pcb chunk more deadline).
Proof. induction n; cbn [send_chunk]; walk_keeps. Qed.
#[local] Hint Resolve send_chunk_keeps : session.

Lemma fetch_keeps n deadline : keeps (fetch_response fuel n deadline).
Proof. induction n; cbn [fetch_response]; walk_keeps. Qed.
#[local] Hint Resolve fetch_keeps : session.

Lemma send_loop_keeps n apdu limit deadline o b : keeps (send_loop fuel n apdu limit deadline o b).
Proof.
  revert o b. induction n as [|n IH]; intros o b; cbn [send_loop]; walk_keeps.
Qed.
#[local] Hint Resolve send_loop_keeps : session.

Lemma receive_keeps n deadline len b : keeps (receive_response fuel n deadline len b).
Proof.
  revert len b. induction n as [|n IH]; intros len b; cbn [receive_response]; walk_keeps.
Qed.
#[local] Hint Resolve receive_keeps : session.

Lemma transmit_initialized_keeps apdu null deadline : keeps (transmit_initialized fuel apdu null deadline).
Proof. unfold transmit_initialized. walk_keeps. Qed.

Lemma initialize_outcome st r st' :
  initialize (HW := HW) fuel st = Some (r, st') ->
  if is_success r then initialized_ st'.1.1 = true else st'.1.1 = invalid_session.
Proof.
  unfold initialize. intros E. apply bind_some in E as [(e & E & ->)|(u & st1 & E & E1)].
  { discriminate E. }
  assert (st1.1.1 = invalid_session) as S1 by by injection E as _ <-.
  apply bind_some in E1 as [(e & E1 & ->)|(atr & st2 & E1 & E2)].
  { unfold hardware, on_snd in E1. destruct (reset_and_read_card_atr _ _) as [[r1 hw]|]; [|done].
    injection E1 as _ <-. exact S1. }
  apply bind_some in E2 as [(e & E2 & ->)|(u2 & st3 & E2 & E3)]; [done|].
  apply bind_some in E3 as [(e & E3 & ->)|(s & st4 & E3 & E4)]; [done|].
  apply bind_some in E4 as [(e & E4 & ->)|(i & st5 & E4 & E5)].
  { unfold attempt in E4. by destruct (initialize_t1 _ _ _ _) as [[]|]. }
  destruct i as [u5|e].
  - injection E5 as <- <-. done.
  - injection E5 as <- <-. done.
Qed.

(** C38 After a transmission the session is usable exactly when it succeeded: every
    failure, whether of the card, of the protocol or of the caller's buffer,
    leaves the state of a new session behind, so that the next transmission
    resets the card. *)
Theorem transmit_outcome apdu null st r st' :
  transmit (HW := HW) fuel apdu null st = Some (r, st') ->
  if is_success r then initialized_ st'.1.1 = true else st'.1.1 = invalid_session.
Proof.
  unfold transmit. intros E. apply bind_some in E as [(e & E & ->)|(s & st1 & E & E1)]; [done|].
  injection E as <- <-.
  apply bind_some in E1 as [(e & E1 & ->)|(d & st2 & E1 & E2)].
  { unfold attempt in E1. by destruct (hardware _ _) as [[]|]. }
  assert (st2.1.1 = st.1.1) as S2.
  { unfold attempt, hardware, on_snd, call in E1. destruct (detect_card st.2). by injection E1 as _ <-. }
  destruct d as [[]|e].
  - apply bind_some in E2 as [(e & E2 & ->)|(u & st3 & E2 & E3)].
    + destruct (initialized_ st.1.1); [done|]. by apply initialize_outcome in E2.
    + assert (initialized_ st3.1.1 = true) as I3.
      { destruct (initialized_ st.1.1) eqn:I; [injection E2 as _ <-; by rewrite S2|].
        by apply initialize_outcome in E2. }
      apply bind_some in E3 as [(e & E3 & ->)|(d & st4 & E3 & E4)].
      { unfold hardware, on_snd, deadline_after in E3.
        by rewrite (bind_success _ _ _ _ _ (get_time_eq st3.2)) in E3. }
      apply (keeps_hardware (deadline_after kOperationTimeoutMs)) in E3.
      apply bind_some in E4 as [(e & E4 & ->)|(t & st5 & E4 & E5)].
      { unfold attempt in E4. by destruct (transmit_initialized _ _ _ _ _) as [[]|]. }
      apply (keeps_attempt _ (transmit_initialized_keeps apdu null d)) in E4.
      destruct t as [n|e]; injection E5 as <- <-; cbn; congruence.
  - injection E2 as <- <-. done.
  - injection E2 as <- <-. done.
Qed.
End Outcome.

(** ** Termination *)

Section Termination.
Context {HW : Type} `{CardTimeLaws HW}.
Variable fuel : nat.

Definition time (st : St (HW := HW)) : Z := clock st.2.

(** [m] returns, and the clock has not gone back. *)
Definition ends {A} (m : Io (St (HW := HW)) A) (st : St) : Prop :=
  returns m st (fun _ st' => time st <= time st').

(** If it succeeds, it began before the deadline and took time. *)
Definition ends_by {A} (deadline : Z) (m : Io (St (HW := HW)) A) (st : St) : Prop :=
  returns m st (fun r st' => time st <= time st' /\
    (is_success r = true -> time st < deadline /\ time st + 1 <= time st')).

Lemma ends_bind {A B} (m : Io (St (HW := HW)) A) (f : A -> Io St B) st :
  ends m st -> (forall a st', m st = Some (success a, st') -> time st <= time st' -> ends (f a) st') ->
  ends (m ≫= f) st.
Proof.
  intros (r & st1 & E & L) F. apply returns_bind. exists r, st1. split; [done|].
  destruct r as [a|e]; [|done]. eapply returns_mono; [exact (F a st1 E L)|]. cbn. lia.
Qed.

Lemma ends_by_bind {A B} d (m : Io (St (HW := HW)) A) (f : A -> Io St B) st :
  ends_by d m st ->
  (forall a st', m st = Some (success a, st') -> time st < d -> time st + 1 <= time st' -> ends (f a) st') ->
  ends_by d (m ≫= f) st.
Proof.
  intros (r & st1 & E & L & S) F. apply returns_bind. exists r, st1. split; [done|].
  destruct r as [a|e]; [|done]. destruct (S eq_refl) as [S1 S2].
  eapply returns_mono; [exact (F a st1 E S1 S2)|]. cbn. lia.
Qed.

Lemma ends_by_ends {A} d (m : Io (St (HW := HW)) A) st : ends_by d m st -> ends m st.
Proof. intros E. eapply returns_mono; [exact E|]. cbn. tauto. Qed.

Lemma ends_ret {A} (a : A) st : ends (mret a) st.
Proof. apply returns_ret. lia. Qed.
Lemma ends_fail {A} e st : ends (fail e : Io _ A) st.
Proof. apply returns_fail. lia. Qed.
Lemma ends_gets {A} (f : St (HW := HW) -> A) st : ends (gets f) st.
Proof. apply returns_gets. lia. Qed.
Lemma ends_set f st : ends (set_session f) st.
Proof. apply returns_modify. unfold time. cbn. lia. Qed.
Lemma ends_require c e st : ends (require c e) st.
Proof. destruct c; [apply ends_ret|apply ends_fail]. Qed.
Lemma ends_attempt {A} (m : Io (St (HW := HW)) A) st : ends m st -> ends (attempt m) st.
Proof. intros E. apply returns_attempt. eapply returns_mono; [exact E|]. cbn. lia. Qed.
Lemma ends_hardware {A} (m : Io HW A) st : finishes m st.2 -> ends (hardware m) st.
Proof. intros F. apply returns_on_snd. eapply returns_mono; [exact F|]. unfold time. cbn. lia. Qed.

Lemma exchange_ends n pcb data deadline st :
  outlasts fuel deadline st.2 -> ends_by deadline (exchange fuel n pcb data deadline) st.
Proof.
  intros O. unfold exchange. apply returns_bind. eexists _, st. split; [done|].
  apply returns_on_snd. eapply returns_mono; [by apply exchange_finishes|]. unfold time. cbn. tauto.
Qed.

Lemma outlasts_later deadline (st st' : St (HW := HW)) :
  time st <= time st' -> outlasts fuel deadline st.2 -> outlasts fuel deadline st'.2.
Proof. unfold time. intros L. by apply outlasts_mono. Qed.

Lemma send_chunk_ends n pcb chunk more deadline st :
  outlasts fuel deadline st.2 -> ends_by deadline (send_chunk fuel n pcb chunk more deadline) st.
Proof.
  revert st. induction n as [|n IH]; intros st O; [by apply returns_fail|]. cbn [send_chunk].
  apply ends_by_bind; [by apply exchange_ends|]. intros b st1 _ B L1.
  apply ends_bind; [apply ends_gets|]. intros s st2 E L2.
  assert (outlasts fuel deadline st2.2) as O2 by (eapply outlasts_later; [|exact O]; lia).
  destruct (is_r_block b).
  - destruct (eqb _ _); [|apply ends_ret]. eapply ends_by_ends. by apply IH.
  - destruct (_ && _); [apply ends_ret|apply ends_fail].
Qed.

Lemma fetch_ends n deadline st :
  outlasts fuel deadline st.2 -> ends (fetch_response fuel n deadline) st.
Proof.
  revert st. induction n as [|n IH]; intros st O; [apply ends_fail|]. cbn [fetch_response].
  apply ends_bind; [apply ends_gets|]. intros s st1 E L1. injection E as _ <-.
  apply ends_bind; [eapply ends_by_ends; by apply exchange_ends|]. intros b st2 _ L2.
  destruct (is_i_block b); [apply ends_ret|]. destruct (negb _); [apply ends_fail|].
  apply IH. by eapply outlasts_later.
Qed.

(** A round that began before the deadline and took time leaves enough fuel. *)
Lemma outlasts_round n deadline (st st' : St (HW := HW)) :
  outlasts (S n) deadline st.2 -> time st < deadline -> time st + 1 <= time st' -> outlasts n deadline st'.2.
Proof. unfold outlasts, time. lia. Qed.

Lemma send_loop_ends n apdu limit deadline o b st :
  outlasts n deadline st.2 -> outlasts fuel deadline st.2 ->
  ends (send_loop fuel n apdu limit deadline o b) st.
Proof.
  revert o b st. induction n as [|n IH]; intros o b st O Of; [unfold outlasts in O; lia|]. cbn [send_loop].
  destruct (o <? zlen apdu); [|apply ends_ret].
  apply ends_bind; [apply ends_gets|]. intros s st1 E _. injection E as _ <-. cbv zeta.
  eapply ends_by_ends, ends_by_bind; [by apply send_chunk_ends|]. intros b1 st1 _ B L.
  assert (outlasts fuel deadline st1.2) as O1 by (eapply outlasts_later; [|exact Of]; lia).
  apply ends_bind.
  { destruct (_ && _); [by apply fetch_ends|apply ends_ret]. }
  intros b2 st2 _ L2. apply ends_bind; [apply ends_set|]. intros u st3 _ L3.
  apply IH; [eapply outlasts_round; [exact O|exact B|lia]|]. eapply outlasts_later; [|exact O1]. lia.
Qed.

Lemma store_ends pos data st :
  0 <= pos -> pos + zlen data <= zlen st.1.2 -> ends (store_response (HW := HW) pos data) st.
Proof.
  intros P L. unfold ends, returns, store_response. destruct (mem_store st.1.2 pos data) as [buf|] eqn:E.
  - eexists _, _. split; [done|]. unfold time. cbn. lia.
  - unfold mem_store in E. rewrite !(proj2 (Z.leb_le _ _)) in E by lia. done.
Qed.

(** The copies stay inside the response buffer, and the chain ends with the
    deadline. *)
Lemma receive_ends n deadline len b st :
  0 <= len -> outlasts n deadline st.2 -> outlasts fuel deadline st.2 ->
  ends (receive_response fuel n deadline len b) st.
Proof.
  revert len b st. induction n as [|n IH]; intros len b st Hl O Of; [unfold outlasts in O; lia|].
  cbn [receive_response]. apply ends_bind; [apply ends_gets|]. intros s st1 E _. injection E as _ <-.
  apply ends_bind; [apply ends_gets|]. intros buf st1 E _. injection E as <- <-.
  destruct (negb _); [apply ends_fail|]. destruct (Z.ltb_spec (zlen st.1.2) (len + b_length b)); [apply ends_fail|].
  unfold b_length in *. apply ends_bind; [by apply store_ends|]. intros u st1 _ L1.
  apply ends_bind; [apply ends_set|]. intros u2 st2 _ L2.
  destruct (negb _); [apply ends_ret|]. apply ends_bind; [apply ends_gets|]. intros s2 st3 E3 L3. injection E3 as _ <-.
  assert (outlasts fuel deadline st2.2) as O2 by (eapply outlasts_later; [|exact Of]; lia).
  eapply ends_by_ends, ends_by_bind; [by apply exchange_ends|]. intros nb st4 _ B L4.
  destruct (negb _); [apply ends_fail|]. pose proof (zlen_nonneg (b_data b)).
  assert (outlasts (S n) deadline st2.2) as O2' by (unfold time in *; eapply outlasts_mono; [| |exact O]; lia).
  apply IH; [lia|by eapply outlasts_round|]. eapply outlasts_later; [|exact O2]. lia.
Qed.

Lemma transmit_initialized_ends apdu null deadline st :
  outlasts fuel deadline st.2 -> ends (transmit_initialized fuel apdu null deadline) st.
Proof.
  intros O. unfold transmit_initialized. destruct apdu as [n|apdu]; [apply ends_fail|].
  destruct (_ || _); [apply ends_fail|]. apply ends_bind; [apply ends_gets|]. intros s st1 E _. injection E as _ <-.
  apply ends_bind; [by apply send_loop_ends|]. intros b st1 _ L.
  apply receive_ends; [done|by eapply outlasts_later..].
Qed.

Hypothesis enough_fuel : kOperationTimeoutMs < Z.of_nat fuel.

Lemma deadline_after_ends {A} (f : Z -> Io (St (HW := HW)) A) st :
  (forall d st', time st <= time st' -> outlasts fuel d st'.2 -> ends (f d) st') ->
  ends (d ← hardware (deadline_after kOperationTimeoutMs); f d) st.
Proof.
  intros F. apply ends_bind; [apply ends_hardware, finishes_deadline_after|]. intros d st1 E L. apply F; [done|].
  unfold hardware, on_snd in E. destruct (deadline_after _ _) as [[r hw]|] eqn:D; [|done]. injection E as -> <-.
  apply deadline_after_bound in D as [_ D]; [|done]. unfold outlasts, kOperationTimeoutMs in *. cbn. lia.
Qed.

Lemma resynchronize_ends n deadline st :
  outlasts fuel deadline st.2 -> ends (resynchronize_card fuel n deadline) st.
Proof.
  intros O. apply ends_bind; [eapply ends_by_ends; by apply exchange_ends|]. intros. apply ends_require.
Qed.

Lemma initialize_t1_ends resync ifsd st : ends (initialize_t1 fuel resync ifsd) st.
Proof.
  unfold initialize_t1. apply ends_bind; [apply ends_set|]. intros _u st1 _ _.
  apply deadline_after_ends. intros d st2 _ O. apply ends_bind.
  { destruct resync; [by apply resynchronize_ends|apply ends_ret]. }
  intros _u3 st3 _ L3. assert (outlasts fuel d st3.2) as O3 by by eapply outlasts_later.
  apply ends_bind; [apply ends_attempt; eapply ends_by_ends; by apply exchange_ends|]. intros r st4 _ L4.
  assert (outlasts fuel d st4.2) as O4 by by eapply outlasts_later.
  apply ends_bind; [|intros; apply ends_require].
  destruct r as [b|e]; [apply ends_ret|]. destruct (_ && _); [|apply ends_fail].
  apply ends_bind; [by apply resynchronize_ends|]. intros _u5 st5 _ L5.
  eapply ends_by_ends, exchange_ends. by eapply outlasts_later.
Qed.

Lemma initialize_ends st : ends (initialize fuel) st.
Proof.
  unfold initialize. apply ends_bind; [apply ends_set|]. intros _u st1 _ _.
  apply ends_bind.
  { apply ends_hardware, reset_and_read_finishes. unfold kAtrTimeoutMs, kOperationTimeoutMs in *. lia. }
  intros atr st2 _ _. apply ends_bind; [apply ends_set|]. intros _u3 st3 _ _.
  apply ends_bind; [apply ends_gets|]. intros s st4 _ _. cbv zeta.
  apply ends_bind; [apply ends_attempt, initialize_t1_ends|]. intros [u5|e] st5 _ _; [apply ends_set|].
  apply ends_bind; [apply ends_set|]. intros. apply ends_fail.
Qed.

(** C26 A transmission ends whatever the card does: with a clock that does not run
    backwards and a UART that needs time for a block, a bound of 3001 rounds per
    loop is enough, even for a card that asks for more time for ever, answers
    with an endless chain of empty blocks, or is never ready. *)
Theorem transmit_terminates apdu null st :
  exists r st', transmit fuel apdu null st = Some (r, st').
Proof.
  enough (ends (transmit fuel apdu null) st) as (r & st' & E & _) by eauto.
  unfold transmit. apply ends_bind; [apply ends_gets|]. intros s st1 _ _.
  apply ends_bind; [apply ends_attempt, ends_hardware, finishes_call, detect_clock|].
  intros [[]|e] st2 _ _.
  - apply ends_bind; [destruct (initialized_ s); [apply ends_ret|apply initialize_ends]|]. intros _u st3 _ _.
    apply deadline_after_ends. intros d st4 _ O.
    apply ends_bind; [by apply ends_attempt, transmit_initialized_ends|]. intros [n|e] st5 _ _; [apply ends_ret|].
    apply ends_bind; [apply ends_set|]. intros. apply ends_fail.
  - apply ends_bind; [apply ends_set|]. intros. apply ends_fail.
  - apply ends_bind; [apply ends_set|]. intros. apply ends_fail.
Qed.
End Termination.

(** * A card at the other end

    The T=1 side of a card: it collects the chained blocks of an APDU,
    acknowledges all but the last, and answers with the chained blocks of the
    response, each fetched by an acknowledgement. *)

Record Card := {
  c_receive : bool;          (** the N(S) it expects *)
  c_send : bool;             (** the N(S) of its next block *)
  c_apdu : list Z;           (** the blocks collected so far *)
  c_pending : list (list Z); (** the blocks of the response still to send *)
}.

Definition seq_of (b : bool) : Z := if b then 1 else 0.

(** The first of the pending blocks is sent, the others stay. *)
Definition card_send (receive send : bool) (chunks : list (list Z)) : Card * Block :=
  match chunks with
  | [] => ({| c_receive := receive; c_send := negb send; c_apdu := []; c_pending := [] |},
           {| b_pcb := i_pcb (seq_of send) false; b_data := [] |})
  | chunk :: rest =>
      ({| c_receive := receive; c_send := negb send; c_apdu := []; c_pending := rest |},
       {| b_pcb := i_pcb (seq_of send) (match rest with [] => false | _ => true end); b_data := chunk |})
  end.

Definition card_answer (respond : list Z -> list (list Z)) (c : Card) (pcb : Z) (data : list Z) : Card * Block :=
  if Z.land pcb 0x80 =? 0 then
    if eqb (has_bit pcb kT1ISequence) (c_receive c) then
      let apdu := c_apdu c ++ data in
      if has_bit pcb kT1IChain then
        ({| c_receive := negb (c_receive c); c_send := c_send c; c_apdu := apdu; c_pending := [] |},
         {| b_pcb := r_pcb (seq_of (negb (c_receive c))); b_data := [] |})
      else card_send (negb (c_receive c)) (c_send c) (respond apdu)
    else (c, {| b_pcb := r_pcb (seq_of (c_receive c)); b_data := [] |})
  else if eqb (has_bit pcb kT1RSequence) (c_send c) then card_send (c_receive c) (c_send c) (c_pending c)
  else (c, {| b_pcb := r_pcb (seq_of (c_receive c)); b_data := [] |}).

(** A UART with such a card and no errors, where no deadline passes: what a
    frame that was written asks for is at once ready to be read. *)
Class CardUart (HW : Type) `{CardHardware HW} := {
  card : HW -> Card;
  rx : HW -> list Z;
  crc_mode : bool;
  respond : list Z -> list (list Z);
  uart_now : Z;
  respond_blocks : forall apdu, respond apdu <> [] /\
    Forall (fun chunk => bytes_ok chunk /\ zlen chunk <= edc_limit crc_mode) (respond apdu);
  uart_time : forall hw, monotonic_ms hw = (uart_now, hw);
  uart_time_range : is_u64 uart_now /\ uart_now < 2 ^ 64 - 1;
  uart_detect : forall hw, detect_card hw = (success true, hw);
  uart_ready : forall hw, data_ready hw = (success (negb (zlen (rx hw) =? 0)), hw);
  uart_read : forall n hw, exists hw',
    read_data n hw = (success (ztake n (rx hw)), hw') /\ card hw' = card hw /\ rx hw' = zdrop n (rx hw);
  uart_write : forall pcb data hw, rx hw = [] -> is_u8 pcb -> bytes_ok data -> zlen data <= edc_limit crc_mode ->
    exists hw', write_data (frame_of crc_mode pcb data) hw = (success tt, hw') /\
      card hw' = (card_answer respond (card hw) pcb data).1 /\
      rx hw' = frame_of crc_mode (b_pcb (card_answer respond (card hw) pcb data).2)
                 (b_data (card_answer respond (card hw) pcb data).2);
}.

Section Delivery.
Context {HW : Type} `{CardUart HW}.
Variable fuel : nat.
Hypothesis some_fuel : (0 < fuel)%nat.

(** What is still to be sent can be framed. *)
Definition blocks_ok (chunks : list (list Z)) : Prop :=
  Forall (fun chunk => bytes_ok chunk /\ zlen chunk <= edc_limit crc_mode) chunks.

Lemma i_pcb_u8 s more : is_u8 (i_pcb s more).
Proof. unfold i_pcb. destruct (negb _), more; by vm_compute. Qed.
Lemma r_pcb_u8 s : is_u8 (r_pcb s).
Proof. unfold r_pcb. destruct (negb _); by vm_compute. Qed.

Lemma limit_nonneg : 0 <= edc_limit crc_mode.
Proof. by destruct crc_mode. Qed.

Lemma card_answer_ok c pcb data :
  blocks_ok (c_pending c) ->
  let a := card_answer respond c pcb data in
  is_u8 (b_pcb a.2) /\ bytes_ok (b_data a.2) /\ zlen (b_data a.2) <= edc_limit crc_mode /\
  blocks_ok (c_pending a.1).
Proof.
  intros P. pose proof limit_nonneg as L.
  assert (forall r s chunks, blocks_ok chunks -> let a := card_send r s chunks in
    is_u8 (b_pcb a.2) /\ bytes_ok (b_data a.2) /\ zlen (b_data a.2) <= edc_limit crc_mode /\
    blocks_ok (c_pending a.1)) as S.
  { intros r s [|chunk rest] B; cbn.
    - split; [apply i_pcb_u8|]. split; [constructor|]. split; [done|constructor].
    - apply Forall_cons in B as [[B1 B2] B]. split; [apply i_pcb_u8|]. done. }
  unfold card_answer. destruct (_ =? 0); destruct (eqb _ _).
  - cbv zeta. destruct (has_bit _ _); [|apply S, respond_blocks].
    cbn. split; [apply r_pcb_u8|]. split; [constructor|]. split; [done|constructor].
  - cbn. split; [apply r_pcb_u8|]. split; [constructor|]. done.
  - by apply S.
  - cbn. split; [apply r_pcb_u8|]. split; [constructor|]. done.
Qed.

Lemma uart_get_time hw : get_time hw = Some (success uart_now, hw).
Proof. unfold get_time. by rewrite uart_time. Qed.

Lemma uart_expired deadline hw :
  uart_now < deadline -> deadline_expired deadline hw = Some (success false, hw).
Proof.
  intros L. unfold deadline_expired. rewrite (bind_success _ _ _ _ _ (uart_get_time hw)).
  rewrite (proj2 (Z.leb_gt _ _)) by done. done.
Qed.

Lemma uart_deadline ms hw : 0 < ms ->
  exists d, deadline_after ms hw = Some (success d, hw) /\ uart_now < d.
Proof.
  intros Hms. unfold deadline_after. rewrite (bind_success _ _ _ _ _ (uart_get_time hw)). cbv zeta.
  eexists. split; [done|]. pose proof uart_time_range as [_ R].
  destruct (Z.ltb_spec (2 ^ 64 - 1 - ms) uart_now); lia.
Qed.

Lemma uart_wait deadline hw : uart_now < deadline -> rx hw <> [] ->
  wait_data_ready fuel deadline hw = Some (success tt, hw).
Proof.
  intros L R. unfold wait_data_ready. destruct fuel as [|n]; [lia|]. cbn [wait_loop].
  rewrite (bind_success _ _ _ _ _ (uart_expired deadline hw L)).
  rewrite (bind_success _ _ hw true hw).
  - done.
  - unfold call. rewrite uart_ready. rewrite (proj2 (Z.eqb_neq _ _)); [done|].
    intros Z0. by apply zlen_0 in Z0.
Qed.

(** A frame that is ready is received as its block. *)
Lemma uart_receive pcb data deadline hw :
  uart_now < deadline -> is_u8 pcb -> bytes_ok data -> zlen data <= edc_limit crc_mode ->
  rx hw = frame_of crc_mode pcb data ->
  exists hw', receive_block fuel crc_mode deadline hw =
      Some (success {| b_pcb := pcb; b_data := data |}, hw') /\
    card hw' = card hw /\ rx hw' = [].
Proof.
  intros L Hp B Ld R. pose proof (zlen_frame crc_mode pcb data) as Zf. pose proof (zlen_nonneg data).
  set (f := frame_of crc_mode pcb data) in *. unfold edc_limit in Ld.
  assert (0 < edc_length crc_mode) as E0 by by destruct crc_mode.
  assert (rx hw <> []) as NE by (intros E; rewrite R in E; rewrite E in Zf; change (zlen (@nil Z)) with 0 in Zf; lia).
  destruct (uart_read kCardUartFrameMaxLength hw) as (hw1 & Rd & C1 & R1).
  rewrite R in Rd, R1. unfold kCardUartFrameMaxLength in *. rewrite ztake_ge in Rd by lia. rewrite zdrop_ge in R1 by lia.
  assert (byte_at f 2 = zlen data) as F2.
  { unfold f, frame_of, frame_body. change (byte_at _ 2) with (cast_u8 (zlen data)).
    unfold cast_u8. apply Z.mod_small. lia. }
  assert (receive_loop fuel fuel crc_mode deadline {| frame := []; expected_length := 0; read_filled_chunk := false |} hw =
    Some (success {| frame := f; expected_length := zlen f; read_filled_chunk := zlen f =? 255 |}, hw1)) as Loop.
  { assert (exists n, fuel = S n) as [n Fu] by (destruct fuel; [lia|eauto]). rewrite Fu at 2. cbn [receive_loop].
    rewrite (bind_success _ _ _ _ _ (uart_expired deadline hw L)).
    rewrite (bind_success _ _ hw tt hw) by by apply uart_wait.
    rewrite (bind_success _ _ hw f hw1) by (unfold call, kCardUartFrameMaxLength; by rewrite Rd). cbv zeta. cbn [frame app].
    unfold kCardUartFrameMaxLength. rewrite (proj2 (Z.ltb_ge 255 (zlen f))) by lia.
    rewrite (proj2 (Z.eqb_neq (zlen f) 0)) by lia. rewrite (proj2 (Z.leb_le 3 (zlen f))) by lia.
    rewrite F2. replace (3 + zlen data + edc_length crc_mode) with (zlen f) by lia.
    rewrite (proj2 (Z.ltb_ge 255 (zlen f))) by lia. cbn [andb].
    rewrite (proj2 (Z.eqb_neq (zlen f) 0)), Z.leb_refl by lia. done. }
  unfold receive_block. rewrite (bind_success _ _ _ _ _ Loop). cbn [expected_length frame read_filled_chunk].
  rewrite (proj2 (Z.eqb_neq (zlen f) 0)), Z.ltb_irrefl by lia. cbn [orb].
  assert ((if zlen f =? 255 then discard_pending_data else mret tt) hw1 = Some (success tt, hw1)) as Disc.
  { destruct (_ =? _); [|done]. unfold discard_pending_data, kMaxDiscardChunks. cbn [discard_loop].
    rewrite (bind_success _ _ hw1 false hw1); [done|]. unfold call. by rewrite uart_ready, R1. }
  rewrite (bind_success _ _ _ _ _ Disc). rewrite ztake_ge by done. exists hw1. split; [|done].
  unfold from_result, f. by rewrite check_frame_of.
Qed.

(** An exchange with the card gives its answer. *)
Lemma uart_exchange retries timeout pcb data deadline hw :
  (0 < retries)%nat -> 0 < timeout -> uart_now < deadline -> rx hw = [] -> blocks_ok (c_pending (card hw)) ->
  is_u8 pcb -> bytes_ok data -> zlen data <= edc_limit crc_mode ->
  let a := card_answer respond (card hw) pcb data in
  exists hw', exchange_block fuel retries crc_mode timeout pcb data deadline hw = Some (success a.2, hw') /\
    card hw' = a.1 /\ rx hw' = [] /\ blocks_ok (c_pending (card hw')).
Proof.
  intros Hr Ht L R P Hp B Ld a. destruct (card_answer_ok (card hw) pcb data P) as (A1 & A2 & A3 & A4). fold a in A1, A2, A3, A4.
  destruct (uart_write pcb data hw R Hp B Ld) as (hw1 & W & C1 & R1). fold a in C1, R1.
  destruct retries as [|n]; [lia|]. cbn [exchange_block].
  rewrite (bind_success _ _ _ _ _ (uart_expired deadline hw L)).
  assert (send_block crc_mode pcb data hw = Some (success tt, hw1)) as Send.
  { unfold send_block. unfold edc_limit in Ld. assert (0 < edc_length crc_mode) by by destruct crc_mode.
    unfold kCardUartFrameMaxLength. rewrite !(proj2 (Z.ltb_ge _ _)) by lia. unfold call. by rewrite W. }
  rewrite (bind_success _ _ _ _ _ Send).
  destruct (uart_deadline timeout hw1 Ht) as (d & D & Ld').
  rewrite (bind_success _ _ _ _ _ D).
  destruct (uart_receive (b_pcb a.2) (b_data a.2) (Z.min deadline d) hw1) as (hw2 & Rc & C2 & R2); try done; [lia|].
  assert (attempt (receive_block fuel crc_mode (Z.min deadline d)) hw1 = Some (success (success a.2), hw2)) as At.
  { unfold attempt. rewrite Rc. by destruct a.2. }
  rewrite (bind_success _ _ _ _ _ At).
  assert ((b_pcb a.2 =? Z.lor kT1SBlock kT1SWtx) = false) as NW.
  { assert (forall s more, (i_pcb s more =? Z.lor kT1SBlock kT1SWtx) = false) as I
      by (intros s more; unfold i_pcb; by destruct (negb _), more).
    assert (forall s, (r_pcb s =? Z.lor kT1SBlock kT1SWtx) = false) as J by (intros s; unfold r_pcb; by destruct (negb _)).
    unfold a, card_answer, card_send. repeat case_match; cbn; auto. }
  assert (wtx_loop fuel fuel crc_mode deadline a.2 hw2 = Some (success (success a.2), hw2)) as Wt.
  { destruct fuel as [|k]; [lia|]. cbn [wtx_loop]. by rewrite NW. }
  rewrite (bind_success _ _ _ _ _ Wt). exists hw2. split; [done|]. rewrite C2, C1. done.
Qed.

Lemma pcb_bits b more :
  has_bit (i_pcb (seq_of b) more) kT1ISequence = b /\ has_bit (i_pcb (seq_of b) more) kT1IChain = more /\
  (Z.land (i_pcb (seq_of b) more) 0x80 =? 0) = true /\ (Z.land (i_pcb (seq_of b) more) 0xc0 =? kT1RBlock) = false /\
  has_bit (r_pcb (seq_of b)) kT1RSequence = b /\ (Z.land (r_pcb (seq_of b)) 0x80 =? 0) = false /\
  (Z.land (r_pcb (seq_of b)) 0xc0 =? kT1RBlock) = true.
Proof. by destruct b, more. Qed.

Lemma seq_toggle b : Z.lxor (seq_of b) 1 = seq_of (negb b).
Proof. by destruct b. Qed.
Lemma seq_nonzero b : negb (seq_of b =? 0) = b.
Proof. by destruct b. Qed.

(** The parameters of the session fit the card. *)
Definition suited (s : CardSession) : Prop :=
  initialized_ s = true /\ use_crc_ s = crc_mode /\ 1 <= card_ifsc_ s /\ 0 < block_timeout_ms_ s.

Definition quiet (hw : HW) : Prop := rx hw = [] /\ blocks_ok (c_pending (card hw)).

Lemma session_exchange pcb data deadline (s : CardSession) (buf : list Z) hw :
  suited s -> uart_now < deadline -> quiet hw ->
  is_u8 pcb -> bytes_ok data -> zlen data <= edc_limit crc_mode ->
  let a := card_answer respond (card hw) pcb data in
  exists hw', exchange fuel kMaxRetries pcb data deadline ((s, buf), hw) = Some (success a.2, ((s, buf), hw')) /\
    card hw' = a.1 /\ quiet hw'.
Proof.
  intros (_ & Cr & _ & T) L (R & P) Hp B Ld a.
  destruct (uart_exchange kMaxRetries (block_timeout_ms_ s) pcb data deadline hw) as (hw1 & E & C & R1 & P1);
    try done; [unfold kMaxRetries; lia|].
  exists hw1. split; [|done]. unfold exchange, get_session. rewrite (bind_success _ _ _ s ((s, buf), hw)) by done.
  unfold hardware, on_snd. rewrite Cr. cbn [snd fst]. by rewrite E.
Qed.

(** Sending the APDU from [o] on: the card collects it and answers the last
    block with the first one of the response. *)
Lemma send_loop_delivers n apdu deadline o b s buf hw :
  suited s -> uart_now < deadline -> quiet hw -> bytes_ok apdu ->
  0 <= o < zlen apdu -> zlen apdu - o <= Z.of_nat n ->
  send_sequence_ s = seq_of (c_receive (card hw)) -> c_apdu (card hw) = ztake o apdu ->
  exists s' hw' chunk rest, respond apdu = chunk :: rest /\
    send_loop fuel n apdu (edc_limit crc_mode) deadline o b ((s, buf), hw) =
      Some (success {| b_pcb := i_pcb (seq_of (c_send (card hw))) (match rest with [] => false | _ => true end);
                       b_data := chunk |}, ((s', buf), hw')) /\
    suited s' /\ quiet hw' /\ send_sequence_ s' = seq_of (c_receive (card hw')) /\
    receive_sequence_ s' = receive_sequence_ s /\ c_apdu (card hw') = [] /\
    c_send (card hw') = negb (c_send (card hw)) /\ c_pending (card hw') = rest.
Proof.
  revert o b s hw. induction n as [|n IH]; intros o b s hw Su L Q B Ho Hn Sq Ca; [lia|]. cbn [send_loop].
  rewrite (proj2 (Z.ltb_lt _ _)) by lia. unfold get_session at 1.
  rewrite (bind_success _ _ _ s ((s, buf), hw)) by done. cbv zeta.
  pose proof Su as (_ & _ & Hi & _). 
  assert (1 <= edc_limit crc_mode) as Lm1 by by destruct crc_mode.
  set (k := Z.min (Z.min (card_ifsc_ s) (edc_limit crc_mode)) (zlen apdu - o)).
  assert (1 <= k <= zlen apdu - o) as Hk by lia. set (more := o + k <? zlen apdu).
  set (chunk := ztake k (zdrop o apdu)).
  assert (bytes_ok chunk) as Bc by by apply bytes_ok_take, bytes_ok_drop.
  assert (zlen chunk = k) as Zc by (unfold chunk; rewrite zlen_take, zlen_drop; lia).
  assert (ztake o apdu ++ chunk = ztake (o + k) apdu) as Cat.
  { unfold chunk, ztake, zdrop. rewrite Z2Nat.inj_add by lia. by rewrite <- take_take_drop. }
  set (c := card hw) in *. set (pcb := i_pcb (send_sequence_ s) more).
  destruct (pcb_bits (c_receive c) more) as (B1 & B2 & B3 & B4 & _). rewrite <- Sq in B1, B2, B3, B4. fold pcb in B1, B2, B3, B4.
  destruct (session_exchange pcb chunk deadline s buf hw Su L Q (i_pcb_u8 _ _) Bc ltac:(lia)) as (hw1 & E & C & Q1).
  fold c in E, C. unfold card_answer in E, C. rewrite B3, B1, eqb_reflx, B2, Ca, Cat in E, C.
  pose proof (seq_nonzero (c_receive c)) as Nz. rewrite <- Sq in Nz.
  set (st1 := ((s, buf), hw1)) in *.
  destruct more eqn:M.
  - (* an acknowledgement, and the next block *)
    apply Z.ltb_lt in M. cbn [fst snd] in E, C.
    destruct (pcb_bits (negb (c_receive c)) true) as (_ & _ & _ & _ & R1 & R2 & R3).
    assert (send_chunk fuel kMaxRetries pcb chunk true deadline ((s, buf), hw) =
      Some (success {| b_pcb := r_pcb (seq_of (negb (c_receive c))); b_data := [] |}, st1)) as Sc.
    { unfold kMaxRetries. cbn [send_chunk]. rewrite (bind_success _ _ _ _ _ E).
      unfold get_session. rewrite (bind_success _ _ _ s st1) by done. unfold is_r_block. cbn [b_pcb].
      rewrite R3, R1, Nz. by destruct (c_receive c). }
    rewrite (bind_success _ _ _ _ _ Sc). cbn [negb andb].
    rewrite (bind_success _ _ _ {| b_pcb := r_pcb (seq_of (negb (c_receive c))); b_data := [] |} st1) by done.
    rewrite (bind_success _ _ _ tt ((toggle_send s, buf), hw1)) by done.
    destruct (IH (o + k) {| b_pcb := r_pcb (seq_of (negb (c_receive c))); b_data := [] |} (toggle_send s) hw1)
      as (s' & hw' & ch & rest & Er & El & Su' & Q' & Sq' & Rq' & Ca' & Cs' & Cp'); try done; [lia|lia| | |].
    + cbn [toggle_send with_sequences send_sequence_]. by rewrite Sq, C, seq_toggle.
    + by rewrite C.
    + exists s', hw', ch, rest. rewrite C in El, Cs'. cbn [c_send] in El, Cs'. done.
  - (* the last block: the answer begins the response *)
    apply Z.ltb_ge in M. assert (ztake (o + k) apdu = apdu) as Full by (apply ztake_ge; lia). rewrite Full in *.
    destruct (respond apdu) as [|ch rest] eqn:Er; [by destruct (respond_blocks apdu)|].
    cbn [card_send fst snd] in E, C. set (blk := {| b_pcb := i_pcb (seq_of (c_send c)) _; b_data := ch |}) in *.
    destruct (pcb_bits (c_send c) (match rest with [] => false | _ => true end)) as (_ & _ & I1 & I2 & _).
    assert (send_chunk fuel kMaxRetries pcb chunk false deadline ((s, buf), hw) = Some (success blk, st1)) as Sc.
    { unfold kMaxRetries. cbn [send_chunk]. rewrite (bind_success _ _ _ _ _ E).
      unfold get_session. rewrite (bind_success _ _ _ s st1) by done. unfold is_r_block, is_i_block, kT1IBlock. cbn [b_pcb blk].
      rewrite I2, I1. done. }
    rewrite (bind_success _ _ _ _ _ Sc). cbn [negb andb]. unfold is_r_block at 1. cbn [b_pcb blk]. rewrite I2.
    rewrite (bind_success _ _ _ blk st1) by done.
    rewrite (bind_success _ _ _ tt ((toggle_send s, buf), hw1)) by done.
    exists (toggle_send s), hw1, ch, rest. split; [done|]. split.
    { destruct n; cbn [send_loop]; by rewrite (proj2 (Z.ltb_ge _ _)) by lia. }
    rewrite C. cbn. split; [done|]. split; [done|]. split; [by rewrite Sq, seq_toggle|]. done.
Qed.

Lemma mem_store_response (buf l : list Z) len :
  0 <= len -> len + zlen l <= zlen buf ->
  mem_store buf len l = Some (ztake len buf ++ l ++ zdrop (len + zlen l) buf).
Proof. intros H1 H2. unfold mem_store. by rewrite !(proj2 (Z.leb_le _ _)) by lia. Qed.

(** Receiving the response from a block on that is in hand. *)
Lemma receive_delivers n deadline len s buf hw sq chunk rest :
  suited s -> uart_now < deadline -> quiet hw -> 0 <= len ->
  len + zlen (chunk ++ mjoin rest) <= zlen buf -> (length rest < n)%nat ->
  send_sequence_ s = seq_of (c_receive (card hw)) -> receive_sequence_ s = seq_of sq ->
  c_send (card hw) = negb sq -> c_apdu (card hw) = [] -> c_pending (card hw) = rest ->
  exists s' hw',
    receive_response fuel n deadline len
      {| b_pcb := i_pcb (seq_of sq) (match rest with [] => false | _ => true end); b_data := chunk |}
      ((s, buf), hw) =
    Some (success (len + zlen (chunk ++ mjoin rest)),
      ((s', ztake len buf ++ (chunk ++ mjoin rest) ++ zdrop (len + zlen (chunk ++ mjoin rest)) buf), hw')) /\
    suited s' /\ quiet hw' /\ send_sequence_ s' = seq_of (c_receive (card hw')) /\
    receive_sequence_ s' = seq_of (c_send (card hw')) /\ c_apdu (card hw') = [].
Proof.
  revert len s buf hw sq chunk rest.
  induction n as [|n IH]; intros len s buf hw sq chunk rest Su L Q Hl Hb Hn Sq Rq Cs Ca Cp; [lia|].
  pose proof (zlen_nonneg chunk). pose proof (zlen_nonneg (mjoin rest)) as Zr. rewrite zlen_app in Hb.
  cbn [receive_response]. unfold get_session at 1. rewrite (bind_success _ _ _ s ((s, buf), hw)) by done.
  rewrite (bind_success _ _ _ buf ((s, buf), hw)) by done.
  destruct (pcb_bits sq (match rest with [] => false | _ => true end)) as (B1 & B2 & _). cbn [b_pcb]. rewrite B1, B2.
  rewrite Rq, seq_nonzero, eqb_reflx. cbn [negb]. unfold b_length. cbn [b_data].
  rewrite (proj2 (Z.ltb_ge _ _)) by lia.
  set (buf1 := ztake len buf ++ chunk ++ zdrop (len + zlen chunk) buf).
  assert (store_response len chunk ((s, buf), hw) = Some (success tt, ((s, buf1), hw))) as St.
  { unfold store_response. cbn [fst snd]. by rewrite mem_store_response by lia. }
  rewrite (bind_success _ _ _ _ _ St).
  rewrite (bind_success _ _ _ tt ((toggle_receive s, buf1), hw)) by done.
  assert (zlen (ztake len buf) = len) as Zt by (rewrite zlen_take; lia).
  assert (zlen buf1 = zlen buf) as Zb1 by (unfold buf1; rewrite !zlen_app, zlen_drop; lia).
  destruct rest as [|ch rest]; cbn [negb].
  - exists (toggle_receive s), hw. cbn [mjoin list_join]. rewrite app_nil_r. unfold mret, Io_ret. split; [done|].
    cbn. rewrite Rq, seq_toggle, Cs. done.
  - unfold get_session. rewrite (bind_success _ _ _ (toggle_receive s) ((toggle_receive s, buf1), hw)) by done.
    assert (receive_sequence_ (toggle_receive s) = seq_of (negb sq)) as Rt by (cbn; by rewrite Rq, seq_toggle).
    rewrite Rt.
    destruct (session_exchange (r_pcb (seq_of (negb sq))) [] deadline (toggle_receive s) buf1 hw) as (hw1 & E & C & Q1);
      try done; [apply r_pcb_u8|constructor|apply limit_nonneg|].
    destruct (pcb_bits (negb sq) true) as (_ & _ & _ & _ & R1 & R2 & _).
    unfold card_answer in E, C. rewrite R2, R1, Cs, eqb_reflx, Cp in E, C. cbn [card_send fst snd] in E, C.
    rewrite (bind_success _ _ _ _ _ E).
    destruct (pcb_bits (negb sq) (match rest with [] => false | _ => true end)) as (_ & _ & I1 & _).
    unfold is_i_block, kT1IBlock. cbn [b_pcb]. rewrite I1. cbn [negb].
    assert (mjoin (ch :: rest) = ch ++ mjoin rest) as J by done. rewrite J in *.
    destruct (IH (len + zlen chunk) (toggle_receive s) buf1 hw1 (negb sq) ch rest)
      as (s' & hw' & Er & Su' & Q' & Sq' & Rq' & Ca'); try done; try (rewrite C; done).
    + lia.
    + rewrite Zb1. lia.
    + simpl in Hn. lia.
    + exists s', hw'. split; [|done]. rewrite Er. rewrite !zlen_app in *. do 2 f_equal; [f_equal; lia|].
      do 2 f_equal. rewrite <- (app_assoc chunk).
      assert (ztake (len + zlen chunk) buf1 = ztake len buf ++ chunk) as ->.
      { unfold buf1. rewrite app_assoc. apply ztake_app. rewrite zlen_app. lia. }
      assert (zdrop (len + zlen chunk + (zlen ch + zlen (mjoin rest))) buf1 =
        zdrop (len + (zlen chunk + (zlen ch + zlen (mjoin rest)))) buf) as ->.
      { pose proof (zlen_nonneg ch). pose proof (zlen_nonneg (mjoin rest)). unfold buf1. rewrite app_assoc.
        rewrite <- (zdrop_zdrop (zlen ch + zlen (mjoin rest)) (len + zlen chunk)) by lia.
        rewrite zdrop_app by (rewrite zlen_app; lia). rewrite zdrop_zdrop by lia. f_equal. lia. }
      by rewrite <- !app_assoc.
Qed.

(** The session and the card agree on the sequence numbers, and nothing is on
    its way. *)
Definition in_sync (st : St (HW := HW)) : Prop :=
  let s := st.1.1 in let c := card st.2 in
  suited s /\ quiet st.2 /\ send_sequence_ s = seq_of (c_receive c) /\
  receive_sequence_ s = seq_of (c_send c) /\ c_apdu c = [].

(** C6 End to end: over an error-free UART, a transmission brings the whole APDU to
    the card and the card's whole response to the caller, in as many chained
    blocks as the sizes of card and UART ask for, leaves the rest of the buffer
    alone, and leaves both sides in step for the next one. *)
Theorem transmit_delivers apdu st :
  in_sync st -> apdu <> [] -> bytes_ok apdu -> zlen apdu < Z.of_nat fuel ->
  (length (respond apdu) <= fuel)%nat -> zlen (mjoin (respond apdu)) <= zlen st.1.2 ->
  exists st', transmit fuel (View apdu) false st = Some (success (zlen (mjoin (respond apdu))), st') /\
    st'.1.2 = mjoin (respond apdu) ++ zdrop (zlen (mjoin (respond apdu))) st.1.2 /\ in_sync st'.
Proof.
  destruct st as [[s buf] hw]. intros (Su & Q & Sq & Rq & Ca) NE B F1 F2 Zb. cbn [fst snd] in *.
  destruct Su as (I & Cr & Hi & Ht). assert (suited s) as Su by done.
  assert (0 < zlen apdu) as La by (destruct apdu; [done|]; rewrite zlen_cons; pose proof (zlen_nonneg apdu); lia).
  destruct (uart_deadline kOperationTimeoutMs hw ltac:(done)) as (d & D & Ld).
  destruct (send_loop_delivers fuel apdu d 0 {| b_pcb := 0; b_data := [] |} s buf hw Su Ld Q B ltac:(lia) ltac:(lia) Sq ltac:(done))
    as (s1 & hw1 & ch & rest & Er & El & Su1 & Q1 & Sq1 & Rq1 & Ca1 & Cs1 & Cp1).
  rewrite Er in *. assert (mjoin (ch :: rest) = ch ++ mjoin rest) as J by done. rewrite J in *.
  destruct (receive_delivers fuel d 0 s1 buf hw1 (c_send (card hw)) ch rest)
    as (s2 & hw2 & E2 & Su2 & Q2 & Sq2 & Rq2 & Ca2); try done; [by rewrite Rq1|].
  exists ((s2, (ch ++ mjoin rest) ++ zdrop (zlen (ch ++ mjoin rest)) buf), hw2).
  split; [|split; [done|done]]. unfold transmit, get_session at 1.
  rewrite (bind_success _ _ _ s ((s, buf), hw)) by done. cbv zeta.
  rewrite (bind_success _ _ _ (success true) ((s, buf), hw))
    by (unfold attempt, hardware, on_snd, call; cbn [fst snd]; by rewrite uart_detect).
  rewrite I. rewrite (bind_success _ _ _ tt ((s, buf), hw)) by done.
  rewrite (bind_success _ _ _ d ((s, buf), hw)) by (unfold hardware, on_snd; cbn [fst snd]; by rewrite D).
  assert (transmit_initialized fuel (View apdu) false d ((s, buf), hw) =
    Some (success (zlen (ch ++ mjoin rest)), ((s2, (ch ++ mjoin rest) ++ zdrop (zlen (ch ++ mjoin rest)) buf), hw2))) as T.
  { unfold transmit_initialized. rewrite (proj2 (Z.eqb_neq _ _)) by lia. cbn [orb].
    unfold get_session. rewrite (bind_success _ _ _ s ((s, buf), hw)) by done. cbv zeta. rewrite Cr.
    change (kCardUartFrameMaxLength - 3 - edc_length crc_mode) with (edc_limit crc_mode).
    rewrite (bind_success _ _ _ _ _ El). rewrite E2. rewrite ztake_0. cbn [app]. by rewrite Z.add_0_l. }
  pose proof (f_equal (fun o => match o with None => None | Some (r, st) => Some (success r, st) end) T) as At.
  rewrite (bind_success _ _ _ _ _ At). done.
Qed.
End Delivery.

(** * Concrete hardware *)

(** A card behind a perfect UART whose answer tells the length of the APDU and
    a status; the clock stands. *)
Record SimUart := { sim_card : Card; sim_rx : list Z }.
Definition sim_respond (apdu : list Z) : list (list Z) := [[cast_u8 (zlen apdu)]; [0x90; 0x00]].

Section Simulation.
#[local] Instance sim_hardware : CardHardware SimUart := {
  detect_card hw := (success true, hw);
  reset_card hw := (success tt, hw);
  data_ready hw := (success (negb (zlen (sim_rx hw) =? 0)), hw);
  read_data n hw := (success (ztake n (sim_rx hw)), {| sim_card := sim_card hw; sim_rx := zdrop n (sim_rx hw) |});
  write_data f hw :=
    match check_frame false f with
    | success b =>
        let a := card_answer sim_respond (sim_card hw) (b_pcb b) (b_data b) in
        (success tt, {| sim_card := a.1; sim_rx := frame_of false (b_pcb a.2) (b_data a.2) |})
    | failure e => (failure e, hw)
    end;
  set_baud_rate _ hw := (success tt, hw);
  monotonic_ms hw := (0, hw);
  sleep_ms _ hw := hw;
}.

#[local] Instance sim_uart : CardUart SimUart.
Proof.
  refine {| card := sim_card; rx := sim_rx; crc_mode := false; respond := sim_respond; uart_now := 0 |}.
  - intros apdu. split; [done|].
    apply Forall_cons. split; [|apply Forall_singleton]; (split; [|done]).
    + apply Forall_singleton, cast_u8_ok.
    + by apply bytes_okb_ok.
  - done.
  - done.
  - done.
  - done.
  - intros n hw. by eexists.
  - intros pcb data hw _ Hp B L. eexists. unfold write_data, sim_hardware. by rewrite check_frame_of.
Defined.

(** A session that takes two bytes per block, in step with the card. *)
Definition sim_session : CardSession := {|
  atr_ := empty_atr; initialized_ := true; use_crc_ := false; card_ifsc_ := 2;
  block_timeout_ms_ := 1600; send_sequence_ := 0; receive_sequence_ := 1;
|}.
Definition sim_start : SimUart :=
  {| sim_card := {| c_receive := false; c_send := true; c_apdu := []; c_pending := [] |}; sim_rx := [] |}.
Definition sim_state (space : nat) : St (HW := SimUart) := ((sim_session, replicate space 0xee), sim_start).

Lemma transmit_delivers_witness :
  exists st', transmit 10 (View [0x90; 0x30; 0; 0; 0]) false (sim_state 5) = Some (success 3, st') /\
    st'.1.2 = [5; 0x90; 0; 0xee; 0xee].
Proof.
  destruct (transmit_delivers (HW := SimUart) 10 ltac:(lia) [0x90; 0x30; 0; 0; 0] (sim_state 5)) as (st' & E & B & _).
  - split; [done|]. split; [split; [done|constructor]|]. done.
  - discriminate.
  - by apply bytes_okb_ok.
  - reflexivity.
  - cbn. lia.
  - vm_compute. discriminate.
  - exists st'. split; [exact E|exact B].
Defined.

(** A response that does not fit ends the session. *)
Lemma transmit_outcome_witness :
  exists st', transmit 10 (View [0x90; 0x30; 0; 0; 0]) false (sim_state 2) =
    Some (failure BUFFER_TOO_SMALL, st') /\ st'.1.1 = invalid_session.
Proof.
  assert (exists st', transmit 10 (View [0x90; 0x30; 0; 0; 0]) false (sim_state 2) =
    Some (failure BUFFER_TOO_SMALL, st')) as [st' E] by (eexists; lazy; reflexivity).
  exists st'. split; [exact E|]. exact (transmit_outcome 10 _ _ _ _ _ E).
Defined.
End Simulation.

(** A card that answers nothing, on a clock that a written block and a sleep
    advance. *)
Section Silence.
#[local] Instance silent_hardware : CardHardware Z := {
  detect_card t := (success true, t);
  reset_card t := (success tt, t);
  data_ready t := (success false, t);
  read_data _ t := (success [], t);
  write_data _ t := (success tt, t + 1);
  set_baud_rate _ t := (success tt, t);
  monotonic_ms t := (t, t);
  sleep_ms n t := t + n;
}.
#[local] Instance silent_laws : CardTimeLaws Z.
Proof. refine {| clock := fun t => t |}; intros; cbn; lia. Defined.

Lemma transmit_terminates_witness :
  exists r st', transmit 3001 (View [0x90; 0x30; 0; 0; 0]) false ((sim_session, []), 0) = Some (r, st').
Proof. apply (transmit_terminates (HW := Z)). reflexivity. Defined.
End Silence.
