(* ===== verification/It930xCommand.v ===== *)
(** The command layer of the IT930x controller ([It930xController] in
    [src/it930x.cpp]): framing, checksum, sequence numbers and the validation of
    responses.  The state of an operation is the controller's members and the
    transport; operations hold [transaction_mutex_] throughout, so that they are
    atomic. *)

From S2P Require Import Prelude IoMonad.

(** * The interface of the transport *)

Record BulkReadObservation := { completion_error : Error; transferred : Z }.

(** [Transport], of which the controller uses the synchronous transfers, and the
    pauses of the pacing.  A read gives the bytes it put into its buffer of the
    given size. *)
Class Transport (HW : Type) := {
  bulk_write : Z -> list Z -> Z -> HW -> Result Z * HW;
  bulk_read : Z -> Z -> Z -> HW -> (Result (list Z) * BulkReadObservation) * HW;
  pause_ms : Z -> HW -> HW;
}.

(** * Constants *)

Definition kFrameOverhead : Z := 6.
Definition kResponseOverhead : Z := 5.
Definition kMaxCommandPayload : Z := 250.
Definition kMaxResponsePayload : Z := 251.
Definition kCommandTimeout : Z := 3000.
Definition kCommandInEndpoint : Z := 0x81.
Definition kCommandOutEndpoint : Z := 0x02.
Definition kTsInEndpoint : Z := 0x84.
Definition kQueryInfo : Z := 0x22.

(** * The controller *)

Inductive CommandPacingMode :=
  | no_delay
  | linux_reference_1ms
  | pacing_other (raw : Z).

Inductive Q3U4BackendPowerState := power_unknown | power_off | power_on | power_disconnected.

#[export] Instance Q3U4BackendPowerState_eq_dec : EqDecision Q3U4BackendPowerState.
Proof. solve_decision. Defined.

Record It930xController := {
  pacing_mode : CommandPacingMode;
  sequence_ : Z;
  q3u4_backend_power_state_ : Q3U4BackendPowerState;
  q3u4_lnb_disconnected_ : bool;
}.

Definition new_controller (mode : CommandPacingMode) : It930xController := {|
  pacing_mode := mode; sequence_ := 0; q3u4_backend_power_state_ := power_unknown;
  q3u4_lnb_disconnected_ := false;
|}.

Definition with_sequence (c : It930xController) (n : Z) : It930xController := {|
  pacing_mode := pacing_mode c; sequence_ := n;
  q3u4_backend_power_state_ := q3u4_backend_power_state_ c;
  q3u4_lnb_disconnected_ := q3u4_lnb_disconnected_ c;
|}.
Definition with_power_state (c : It930xController) (s : Q3U4BackendPowerState) : It930xController := {|
  pacing_mode := pacing_mode c; sequence_ := sequence_ c; q3u4_backend_power_state_ := s;
  q3u4_lnb_disconnected_ := q3u4_lnb_disconnected_ c;
|}.
Definition with_lnb_disconnected (c : It930xController) (b : bool) : It930xController := {|
  pacing_mode := pacing_mode c; sequence_ := sequence_ c;
  q3u4_backend_power_state_ := q3u4_backend_power_state_ c; q3u4_lnb_disconnected_ := b;
|}.

Definition valid_pacing_mode (c : It930xController) : bool :=
  match pacing_mode c with no_delay | linux_reference_1ms => true | pacing_other _ => false end.

(** * Frames *)

(** The loop of [checksum]: big-endian words, the last one padded. *)
Fixpoint checksum_sum (sum : Z) (data : list Z) : Z :=
  match data with
  | a :: b :: data => checksum_sum (cast_u16 (sum + cast_u16 (Z.lor (Z.shiftl a 8) b))) data
  | [a] => cast_u16 (sum + cast_u16 (Z.shiftl a 8))
  | [] => sum
  end.
Definition checksum (data : list Z) : Z := cast_u16 (Z.lnot (checksum_sum 0 data)).

Definition u16_be (v : Z) : list Z := [cast_u8 (Z.shiftr v 8); cast_u8 v].
(** [put_u32_be] and [get_u32_be]. *)
Definition put_u32_be (v : Z) : list Z :=
  [cast_u8 (Z.shiftr v 24); cast_u8 (Z.shiftr v 16); cast_u8 (Z.shiftr v 8); cast_u8 v].
Definition get_u32_be (l : list Z) : Z :=
  Z.lor (Z.lor (Z.lor (Z.shiftl (byte_at l 0) 24) (Z.shiftl (byte_at l 1) 16))
    (Z.shiftl (byte_at l 2) 8)) (byte_at l 3).

(** The request that [transact_locked] assembles. *)
Definition request_frame (sequence command : Z) (payload : list Z) : list Z :=
  let body := u16_be command ++ [sequence] ++ payload in
  [cast_u8 (zlen payload + kFrameOverhead - 1)] ++ body ++ u16_be (checksum body).

(** The validation of a response. *)
Definition check_response (sequence : Z) (response : list Z) : Result (list Z) :=
  let size := zlen response in
  if (size <? kResponseOverhead) || (byte_at response 0 =? 0) then failure PROTOCOL_ERROR
  else
    let declared := byte_at response 0 + 1 in
    if size <? declared then failure USB_IO
    else if negb (size =? declared) then failure PROTOCOL_ERROR
    else
      let received_checksum :=
        cast_u16 (Z.lor (Z.shiftl (byte_at response (size - 2)) 8) (byte_at response (size - 1))) in
      if negb (checksum (ztake (size - 3) (zdrop 1 response)) =? received_checksum)
         || negb (byte_at response 1 =? sequence) then failure PROTOCOL_ERROR
      else if negb (byte_at response 2 =? 0) then failure USB_IO
      else success (ztake (size - kResponseOverhead) (zdrop 3 response)).

(** * Transactions *)

Section Operations.
Context {HW : Type} `{Transport HW}.

Definition St : Type := It930xController * HW.

Definition transport {A} (f : HW -> Result A * HW) : Io St A := on_snd (call f).
Definition controller : Io St It930xController := gets fst.
Definition set_controller (f : It930xController -> It930xController) : Io St unit :=
  modify (fun st => (f st.1, st.2)).

Definition pace_after_control_transfer : Io St unit :=
  c ← controller;
  match pacing_mode c with
  | linux_reference_1ms => modify (fun st => (st.1, pause_ms 1 st.2))
  | _ => mret tt
  end.

(** [sequence_++]. *)
Definition next_sequence : Io St Z :=
  c ← controller;
  _ ← set_controller (fun c => with_sequence c (cast_u8 (sequence_ c + 1)));
  mret (sequence_ c).

(** A read whose observation the caller ignores. *)
Definition read_plain (endpoint size timeout : Z) (hw : HW) : Result (list Z) * HW :=
  let '((r, _), hw) := bulk_read endpoint size timeout hw in (r, hw).

Definition transact_locked (command : Z) (payload : ByteView) : Io St (list Z) :=
  c ← controller;
  if negb (valid_pacing_mode c) then fail INVALID_ARGUMENT
  else if (kMaxCommandPayload <? view_size payload)
          || (negb (view_size payload =? 0) && match payload with NullView _ => true | View _ => false end)
  then fail INVALID_ARGUMENT
  else
    sequence ← next_sequence;
    let request := request_frame sequence command (view_bytes payload) in
    written ← attempt (transport (bulk_write kCommandOutEndpoint request kCommandTimeout));
    _ ← pace_after_control_transfer;
    written ← from_result written;
    _ ← require (written =? zlen request) USB_IO;
    response ← attempt (transport (read_plain kCommandInEndpoint (kMaxCommandPayload + kFrameOverhead) kCommandTimeout));
    _ ← pace_after_control_transfer;
    response ← from_result response;
    from_result (check_response sequence response).

(** A response that has to be empty. *)
Definition acknowledged (command : Z) (payload : ByteView) : Io St unit :=
  response ← transact_locked command payload;
  require (zlen response =? 0) PROTOCOL_ERROR.

Definition firmware_version_locked : Io St Z :=
  response ← transact_locked kQueryInfo (View [1]);
  _ ← require (zlen response =? 4) PROTOCOL_ERROR;
  mret (get_u32_be response).
Definition firmware_version : Io St Z := firmware_version_locked.
Definition transact (command : Z) (payload : ByteView) : Io St (list Z) := transact_locked command payload.
End Operations.

(** * The frames of the bridge *)

(** A response as the bridge sends it. *)
Definition response_frame (sequence status : Z) (data : list Z) : list Z :=
  let body := [sequence; status] ++ data in
  [cast_u8 (zlen data + kResponseOverhead - 1)] ++ body ++ u16_be (checksum body).

Record Request := { rq_sequence : Z; rq_command : Z; rq_payload : list Z }.

Definition request_ok (r : Request) : Prop :=
  is_u8 (rq_sequence r) /\ is_u16 (rq_command r) /\ bytes_ok (rq_payload r) /\
  zlen (rq_payload r) <= kMaxCommandPayload.
Definition frame_of_request (r : Request) : list Z :=
  request_frame (rq_sequence r) (rq_command r) (rq_payload r).

(** Reads a request as a bridge has to: length, checksum, sequence, command. *)
Definition parse_request (l : list Z) : option Request :=
  let size := zlen l in
  if (kFrameOverhead <=? size) && (byte_at l 0 + 1 =? size)
     && bool_decide (zdrop (size - 2) l = u16_be (checksum (ztake (size - 3) (zdrop 1 l))))
  then Some {| rq_sequence := byte_at l 3;
               rq_command := Z.lor (Z.shiftl (byte_at l 1) 8) (byte_at l 2);
               rq_payload := ztake (size - kFrameOverhead) (zdrop 4 l) |}
  else None.

(** * Lemmas on frames *)

Lemma u16_be_join v : is_u16 v -> cast_u16 (Z.lor (Z.shiftl (byte_at (u16_be v) 0) 8) (byte_at (u16_be v) 1)) = v.
Proof.
  intros Hv. unfold u16_be. change (byte_at [_; _] 0) with (cast_u8 (Z.shiftr v 8)).
  change (byte_at [cast_u8 (Z.shiftr v 8); cast_u8 v] 1) with (cast_u8 v).
  rewrite Z.lor_comm, lor_shiftl_add by (try apply cast_u8_ok; lia).
  unfold cast_u16, cast_u8. rewrite Z.shiftr_div_pow2 by lia. widths.
  Z.to_euclidean_division_equations. lia.
Qed.

(** Two bytes that join to a word are its big-endian bytes. *)
Lemma u16_be_split a b v : is_u8 a -> is_u8 b -> cast_u16 (Z.lor (Z.shiftl a 8) b) = v -> [a; b] = u16_be v.
Proof.
  intros Ha Hb. rewrite Z.lor_comm, lor_shiftl_add by (done || lia). intros <-.
  unfold u16_be, cast_u16, cast_u8. rewrite Z.shiftr_div_pow2 by lia.
  f_equal; [|f_equal]; widths; Z.to_euclidean_division_equations; lia.
Qed.

Lemma checksum_u16 l : is_u16 (checksum l).
Proof. unfold is_u16, checksum, cast_u16. apply Z.mod_pos_bound. lia. Qed.

Lemma u16_be_ok v : bytes_ok (u16_be v).
Proof. apply Forall_cons. split; [apply cast_u8_ok|]. apply Forall_singleton, cast_u8_ok. Qed.

Lemma zlen_request sequence command payload : zlen (request_frame sequence command payload) = zlen payload + kFrameOverhead.
Proof. unfold request_frame, kFrameOverhead, u16_be. rewrite !zlen_app. unfold zlen. simpl length. lia. Qed.

Lemma zlen_response sequence status data : zlen (response_frame sequence status data) = zlen data + kResponseOverhead.
Proof. unfold response_frame, kResponseOverhead, u16_be. rewrite !zlen_app. unfold zlen. simpl length. lia. Qed.

Lemma zdrop_succ {A} n (a : A) l : 0 <= n -> zdrop (n + 1) (a :: l) = zdrop n l.
Proof. intros. unfold zdrop. by rewrite Z.add_1_r, Z2Nat.inj_succ. Qed.

(** Every request can be read back, so that no two requests share a frame. *)
Lemma parse_request_frame r : request_ok r -> parse_request (frame_of_request r) = Some r.
Proof.
  destruct r as [q c p]. intros (Hq & Hc & Hp & Hl). cbn [rq_sequence rq_command rq_payload] in *.
  unfold frame_of_request. cbn [rq_sequence rq_command rq_payload].
  unfold parse_request. rewrite zlen_request. pose proof (zlen_nonneg p). unfold kFrameOverhead, kMaxCommandPayload in *.
  rewrite (proj2 (Z.leb_le 6 _)) by lia.
  unfold request_frame. set (body := u16_be c ++ [q] ++ p).
  change (byte_at ([cast_u8 (zlen p + kFrameOverhead - 1)] ++ body ++ u16_be (checksum body)) 0) with (cast_u8 (zlen p + kFrameOverhead - 1)).
  assert (cast_u8 (zlen p + kFrameOverhead - 1) = zlen p + 5) as ->
    by (unfold kFrameOverhead, cast_u8; rewrite Z.mod_small by lia; lia).
  rewrite (proj2 (Z.eqb_eq _ _)) by lia. cbn [andb].
  assert (zlen body = zlen p + 3) as Lb by (unfold body, u16_be; rewrite !zlen_app; unfold zlen; simpl length; lia).
  change (zdrop 1 ([zlen p + 5] ++ body ++ u16_be (checksum body))) with (body ++ u16_be (checksum body)).
  rewrite (ztake_app _ body) by lia.
  replace (zlen p + 6 - 2) with ((zlen p + 3) + 1) by lia. cbn [app]. rewrite zdrop_succ by lia.
  rewrite (zdrop_app _ body) by lia. rewrite bool_decide_true by done. f_equal.
  unfold body, u16_be. f_equal.
  - change (byte_at _ 1) with (cast_u8 (Z.shiftr c 8)). change (byte_at _ 2) with (cast_u8 c).
    rewrite Z.lor_comm, lor_shiftl_add by (try apply cast_u8_ok; lia).
    unfold cast_u8. rewrite Z.shiftr_div_pow2 by lia. widths. Z.to_euclidean_division_equations. lia.
  - unfold zdrop. cbn [Z.to_nat Pos.to_nat Pos.iter_op Nat.add drop app]. apply ztake_app. lia.
Qed.

Lemma check_response_frame sequence status data :
  is_u8 sequence -> bytes_ok data -> zlen data <= kMaxResponsePayload ->
  check_response sequence (response_frame sequence status data) =
    if status =? 0 then success data else failure USB_IO.
Proof.
  intros Hs Hd Hl. unfold check_response. rewrite zlen_response.
  pose proof (zlen_nonneg data). unfold kResponseOverhead, kMaxResponsePayload in *.
  unfold response_frame. set (body := [sequence; status] ++ data).
  set (l0 := cast_u8 (zlen data + kResponseOverhead - 1)).
  assert (l0 = zlen data + 4) as E0 by (unfold l0, kResponseOverhead, cast_u8; rewrite Z.mod_small by lia; lia).
  change (byte_at ([l0] ++ body ++ u16_be (checksum body)) 0) with l0. rewrite E0.
  rewrite (proj2 (Z.ltb_ge _ _)), (proj2 (Z.eqb_neq _ _)) by lia. cbn [orb]. cbv zeta.
  rewrite (proj2 (Z.ltb_ge _ _)), (proj2 (Z.eqb_eq _ _)) by lia. cbn [negb].
  assert (zlen body = zlen data + 2) as Lb by (unfold body; rewrite !zlen_app; unfold zlen; simpl length; lia).
  change (zdrop 1 ([zlen data + 4] ++ body ++ u16_be (checksum body))) with (body ++ u16_be (checksum body)).
  rewrite (ztake_app _ body) by lia.
  assert (forall k, 0 <= k -> byte_at ([zlen data + 4] ++ body ++ u16_be (checksum body)) (zlen data + 3 + k) =
    byte_at (u16_be (checksum body)) k) as Bk.
  { intros k Hk. rewrite app_assoc, byte_at_app_r; rewrite zlen_app; change (zlen [_]) with 1; [f_equal; lia|lia]. }
  replace (zlen data + 5 - 2) with (zlen data + 3 + 0) by lia. replace (zlen data + 5 - 1) with (zlen data + 3 + 1) by lia.
  rewrite !Bk, u16_be_join, Z.eqb_refl by (lia || apply checksum_u16).
  change (byte_at ([zlen data + 4] ++ body ++ u16_be (checksum body)) 1) with sequence.
  change (byte_at ([zlen data + 4] ++ body ++ u16_be (checksum body)) 2) with status.
  rewrite Z.eqb_refl. cbn [negb orb]. destruct (status =? 0); [|done]. cbn [negb].
  f_equal. unfold body. cbn [app]. unfold zdrop. cbn [Z.to_nat Pos.to_nat Pos.iter_op Nat.add drop].
  apply ztake_app. lia.
Qed.

(** The last two bytes of a list. *)
Lemma split_last2 (l : list Z) n :
  zlen l = n + 2 -> 0 <= n -> l = ztake n l ++ [byte_at l n; byte_at l (n + 1)].
Proof.
  intros L Hn. rewrite <- (ztake_zdrop n l) at 1. f_equal.
  assert (zlen (zdrop n l) = 2) as Ld by (rewrite zlen_drop; lia).
  replace n with (n + 0) at 2 by lia. rewrite <- !byte_at_drop by lia.
  destruct (zdrop n l) as [|a [|b [|c t]]]; try (unfold zlen in Ld; simpl in Ld; lia). done.
Qed.

Lemma check_response_sound sequence l d :
  bytes_ok l -> check_response sequence l = success d ->
  l = response_frame sequence 0 d /\ bytes_ok d /\ zlen d <= kMaxResponsePayload.
Proof.
  intros B. unfold check_response. unfold kResponseOverhead. set (n := zlen l).
  destruct (Z.ltb_spec n 5) as [|L5]; [done|]. cbn [orb]. destruct (byte_at l 0 =? 0); [done|].
  destruct (_ <? _); [done|]. destruct (Z.eqb_spec n (byte_at l 0 + 1)) as [E0|]; [|done]. cbn [negb].
  destruct (Z.eqb_spec (checksum (ztake (n - 3) (zdrop 1 l)))
    (cast_u16 (Z.lor (Z.shiftl (byte_at l (n - 2)) 8) (byte_at l (n - 1))))) as [Ec|]; [|done]. cbn [negb orb].
  destruct (Z.eqb_spec (byte_at l 1) sequence) as [Es|]; [|done]. cbn [negb].
  destruct (Z.eqb_spec (byte_at l 2) 0) as [Ez|]; [|done]. cbn [negb]. intros E. injection E as <-.
  pose proof (byte_at_ok l 0 B) as B0.
  assert (bytes_ok (ztake (n - 5) (zdrop 3 l))) as Bd by by apply bytes_ok_take, bytes_ok_drop.
  assert (zlen (ztake (n - 5) (zdrop 3 l)) = n - 5) as Ld by (rewrite zlen_take, zlen_drop; unfold n in *; lia).
  split; [|split; [done|rewrite Ld; unfold kMaxResponsePayload; widths; lia]].
  symmetry in Ec. apply u16_be_split in Ec; [|by apply byte_at_ok..].
  destruct l as [|l0 [|l1 [|l2 t]]]; try (unfold n, zlen in L5; simpl in L5; lia).
  assert (zlen t = n - 3) as Lt by (unfold n; rewrite !zlen_cons; lia).
  change (byte_at (l0 :: l1 :: l2 :: t) 0) with l0 in *. change (byte_at (l0 :: l1 :: l2 :: t) 1) with l1 in Es.
  change (byte_at (l0 :: l1 :: l2 :: t) 2) with l2 in Ez. subst l1 l2.
  change (zdrop 3 (l0 :: sequence :: 0 :: t)) with t in *.
  change (zdrop 1 (l0 :: sequence :: 0 :: t)) with (sequence :: 0 :: t) in Ec.
  assert (forall k, 0 <= k -> byte_at (l0 :: sequence :: 0 :: t) (k + 3) = byte_at t k) as Bt.
  { intros k Hk. replace (k + 3) with (3 + k) by lia. rewrite <- byte_at_drop by lia. done. }
  replace (n - 2) with ((n - 5) + 3) in Ec by lia. replace (n - 1) with ((n - 5 + 1) + 3) in Ec by lia.
  rewrite !Bt in Ec by lia.
  assert (ztake (n - 3) (sequence :: 0 :: t) = sequence :: 0 :: ztake (n - 5) t) as Tk.
  { unfold ztake. replace (Z.to_nat (n - 3)) with (S (S (Z.to_nat (n - 5)))) by lia. done. }
  rewrite Tk in Ec. unfold response_frame. rewrite Ld.
  assert (cast_u8 (n - 5 + kResponseOverhead - 1) = l0) as ->
    by (unfold kResponseOverhead, cast_u8; rewrite Z.mod_small; widths; lia).
  cbn [app]. rewrite <- Ec. do 3 f_equal. apply split_last2; lia.
Qed.

Lemma check_response_error sequence l : check_response sequence l <> failure OK.
Proof. unfold check_response. by repeat case_match. Qed.

(** A response is accepted exactly when it is the frame the bridge sends for a
    completed request with this sequence number: no other length, checksum,
    sequence number or status passes, and the payload is the one sent. *)
Theorem check_response_correct sequence l d :
  is_u8 sequence -> bytes_ok l ->
  check_response sequence l = success d <->
    l = response_frame sequence 0 d /\ bytes_ok d /\ zlen d <= kMaxResponsePayload.
Proof.
  intros Hs B. split; [by apply check_response_sound|].
  intros (-> & Bd & L). by rewrite check_response_frame by done.
Qed.

Lemma check_response_correct_witness :
  check_response 7 [0x08; 0x07; 0x00; 0x01; 0x02; 0x03; 0x04; 0xf4; 0xfb] = failure PROTOCOL_ERROR /\
  check_response 7 (response_frame 7 0 [1; 2; 3; 4]) = success [1; 2; 3; 4].
Proof.
  split; [reflexivity|].
  apply (check_response_correct 7 (response_frame 7 0 [1; 2; 3; 4]) [1; 2; 3; 4]);
    [done|by apply bytes_okb_ok|]. split; [reflexivity|]. split; [by apply bytes_okb_ok|discriminate].
Defined.

(** * A bridge at the other end

    What an unreliable connection may do to a transaction: the request is lost,
    or received and carried out at once or while its response is awaited, or
    dropped when the next one arrives; the response is lost, damaged or stale.
    A response with the current sequence number and status zero is only sent for
    the request that was carried out. *)

Definition Outcome : Type := Z * list Z.

Class Device (Dev : Type) := {
  (** [executes command payload d outcome d']: what carrying out a command may do. *)
  executes : Z -> list Z -> Dev -> Outcome -> Dev -> Prop;
}.

Class Bridge (HW Dev : Type) `{Transport HW} `{Device Dev} := {
  device : HW -> Dev;
  (** The last request that arrived, and its outcome once carried out. *)
  received : HW -> option (Request * option Outcome);
  write_law : forall r t hw, request_ok r ->
    let hw' := (bulk_write kCommandOutEndpoint (frame_of_request r) t hw).2 in
    (device hw' = device hw /\ (received hw' = None \/ received hw' = Some (r, None))) \/
    (exists o, received hw' = Some (r, Some o) /\ executes (rq_command r) (rq_payload r) (device hw) o (device hw'));
  read_law : forall n t hw,
    let '((r, _), hw') := bulk_read kCommandInEndpoint n t hw in
    ((device hw' = device hw /\ received hw' = received hw) \/
     (exists q o, received hw = Some (q, None) /\ received hw' = Some (q, Some o) /\
        executes (rq_command q) (rq_payload q) (device hw) o (device hw'))) /\
    (forall l, r = success l -> bytes_ok l) /\
    (forall s d, is_u8 s -> r = success (response_frame s 0 d) ->
       exists q, received hw' = Some (q, Some (0, d)) /\ rq_sequence q = s);
  (** A failure has an error. *)
  write_error : forall f t hw, (bulk_write kCommandOutEndpoint f t hw).1 <> failure OK;
  read_error : forall n t hw, (bulk_read kCommandInEndpoint n t hw).1.1 <> failure OK;
  pause_law : forall n hw, device (pause_ms n hw) = device hw /\ received (pause_ms n hw) = received hw;
}.

Section Effects.
Context {HW Dev : Type} `{Bridge HW Dev}.

Definition dev (st : St (HW := HW)) : Dev := device st.2.

(** The controller's members that a transaction keeps. *)
Definition same_but_sequence (c c' : It930xController) : Prop :=
  exists n, is_u8 n /\ c' = with_sequence c n.

(** What a transaction does, whatever the connection does to it. *)
Definition transacted (command : Z) (payload : list Z) (st : St) (r : Result (list Z)) (st' : St) : Prop :=
  same_but_sequence st.1 st'.1 /\
  (dev st' = dev st \/ exists o, executes command payload (dev st) o (dev st')) /\
  (forall d, r = success d -> executes command payload (dev st) (0, d) (dev st') /\ bytes_ok d) /\
  r <> failure OK.

Lemma pace_eq (st : St (HW := HW)) :
  exists st', pace_after_control_transfer st = Some (success tt, st') /\ st'.1 = st.1 /\
    dev st' = dev st /\ received st'.2 = received st.2.
Proof.
  unfold pace_after_control_transfer. rewrite (bind_success _ _ st st.1 st) by done.
  destruct (pacing_mode st.1); try (by exists st).
  eexists. split; [done|]. cbn. unfold dev. cbn. destruct (pause_law 1 st.2). done.
Qed.

Lemma same_but_sequence_refl c : is_u8 (sequence_ c) -> same_but_sequence c c.
Proof. intros S. exists (sequence_ c). split; [done|]. by destruct c. Qed.

Lemma transact_effect command payload st :
  is_u8 (sequence_ st.1) -> is_u16 command -> bytes_ok (view_bytes payload) ->
  returns (transact_locked command payload) st (fun r st' => transacted command (view_bytes payload) st r st').
Proof.
  intros Hs Hc Hp. unfold transact_locked. apply returns_bind. exists (success st.1), st. split; [done|].
  assert (forall e, e <> OK -> transacted command (view_bytes payload) st (failure e) st) as Same.
  { intros e N. split; [by apply same_but_sequence_refl|]. split; [by left|]. split; [done|congruence]. }
  destruct (negb _); [by apply returns_fail, Same|].
  destruct (Z.ltb_spec kMaxCommandPayload (view_size payload)) as [|Lp]; [by apply returns_fail, Same|]. cbn [orb].
  destruct (negb (view_size payload =? 0) && _) eqn:Null; [by apply returns_fail, Same|].
  assert (zlen (view_bytes payload) <= kMaxCommandPayload) as Lb.
  { destruct payload as [n|l]; cbn in *; [|done]. unfold kMaxCommandPayload, zlen. simpl. lia. }
  set (p := view_bytes payload) in *. set (q := sequence_ st.1) in *.
  set (c1 := with_sequence st.1 (cast_u8 (q + 1))).
  apply returns_bind. exists (success q), (c1, st.2). split; [done|].
  set (rq := {| rq_sequence := q; rq_command := command; rq_payload := p |}).
  assert (request_ok rq) as Ok by done.
  change (request_frame q command p) with (frame_of_request rq).
  pose proof (write_law rq kCommandTimeout st.2 Ok) as W. cbv zeta in W.
  destruct (bulk_write kCommandOutEndpoint (frame_of_request rq) kCommandTimeout st.2) as [w hw1] eqn:Ew. cbn [snd] in W.
  apply returns_bind. exists (success w), (c1, hw1). split.
  { unfold attempt, transport, on_snd, call. cbn [snd fst]. by rewrite Ew. }
  apply returns_bind. destruct (pace_eq (c1, hw1)) as ([c2 hw2] & Ep & E1 & E2 & E3). cbn [fst snd] in E1, E3. subst c2.
  exists (success tt), (c1, hw2). split; [done|].
  assert (same_but_sequence st.1 c1) as Sq by (exists (cast_u8 (q + 1)); split; [apply cast_u8_ok|done]).
  assert (dev (c1, hw2) = dev st \/ exists o, executes command p (dev st) o (dev (c1, hw2))) as D2.
  { rewrite E2. unfold dev. cbn [snd]. destruct W as [[-> _]|(o & _ & X)]; [by left|]. right. by exists o. }
  assert (forall e, e <> OK -> transacted command p st (failure e) (c1, hw2)) as F2
    by (intros e N; split; [done|]; split; [exact D2|]; split; [done|congruence]).
  pose proof (write_error (frame_of_request rq) kCommandTimeout st.2) as We. rewrite Ew in We. cbn [fst] in We.
  destruct w as [w|e]; [|apply returns_bind; eexists _, _; split; [done|]; apply F2; congruence].
  apply returns_bind. eexists _, _. split; [done|]. cbn beta iota.
  destruct (w =? _); [|apply returns_bind; eexists _, _; split; [done|]; by apply F2].
  apply returns_bind. eexists _, _. split; [done|]. cbn beta iota.
  pose proof (read_law (kMaxCommandPayload + kFrameOverhead) kCommandTimeout hw2) as Rl.
  pose proof (read_error (kMaxCommandPayload + kFrameOverhead) kCommandTimeout hw2) as Re.
  destruct (bulk_read kCommandInEndpoint (kMaxCommandPayload + kFrameOverhead) kCommandTimeout hw2) as [[rd ob] hw3] eqn:Er.
  cbn [fst] in Re.
  destruct Rl as (R1 & R2 & R3).
  apply returns_bind. exists (success rd), (c1, hw3). split.
  { unfold attempt, transport, on_snd, call, read_plain. cbn [snd fst]. by rewrite Er. }
  apply returns_bind. destruct (pace_eq (c1, hw3)) as ([c4 hw4] & Ep4 & G1 & G2 & G3). cbn [fst snd] in G1, G3. subst c4.
  exists (success tt), (c1, hw4). split; [done|].
  (* what the device has done by now *)
  assert ((dev (c1, hw4) = dev st /\ (received hw4 = None \/ received hw4 = Some (rq, None))) \/
    exists o, received hw4 = Some (rq, Some o) /\ executes command p (dev st) o (dev (c1, hw4))) as D4.
  { rewrite G2, G3. unfold dev. cbn [snd]. unfold dev in E2. cbn [snd] in E2. rewrite E3, E2 in R1.
    destruct R1 as [[-> ->]|(q' & o & Eq & -> & X)].
    - destruct W as [[Wd Wr]|(o & Wr & X)]; [left; by rewrite Wd|right; by exists o].
    - right. destruct W as [[Wd [Wr|Wr]]|(o' & Wr & _)]; rewrite Wr in Eq; try done.
      injection Eq as <-. exists o. split; [done|]. by rewrite Wd in X. }
  assert (dev (c1, hw4) = dev st \/ exists o, executes command p (dev st) o (dev (c1, hw4))) as D4'.
  { destruct D4 as [[? _]|(o & _ & X)]; [by left|right; by exists o]. }
  destruct rd as [l|e]; (apply returns_bind; eexists _, _; split; [done|]; cbn beta iota).
  - eexists _, _. split; [done|]. split; [done|]. split; [exact D4'|]. split; [|by apply check_response_error]. intros d E.
    destruct (check_response_sound q l d (R2 l eq_refl) E) as (-> & Bd & _).
    destruct (R3 q d Hs eq_refl) as (q' & Rq & Sq'). rewrite <- G3 in Rq.
    destruct D4 as [[_ [Wr|Wr]]|(o & Wr & X)]; rewrite Wr in Rq; try done.
    injection Rq as _ Eo. rewrite Eo in X. by split.
  - split; [done|]. split; [exact D4'|]. split; [done|congruence].
Qed.
End Effects.
