(* ===== verification/It930xRegisters.v ===== *)
(** Registers of the IT930x ([read_registers], [write_registers] and
    [modify_q3u4_register_locked] in [src/it930x.cpp]) and I2C over the
    controller ([i2c_read] and [i2c_write]). *)

From S2P Require Import Prelude IoMonad It930xCommand.

Definition kRegRead : Z := 0x00.
Definition kRegWrite : Z := 0x01.
Definition kI2cRead : Z := 0x2a.
Definition kI2cWrite : Z := 0x2b.

Definition register_length (reg : Z) : Z :=
  if negb (Z.land reg 0xff000000 =? 0) then 4
  else if negb (Z.land reg 0x00ff0000 =? 0) then 3
  else if negb (Z.land reg 0x0000ff00 =? 0) then 2
  else 1.

(** The head of the payload of a register command. *)
Definition register_head (length reg : Z) : list Z := [cast_u8 length; register_length reg] ++ put_u32_be reg.

Section Operations.
Context {HW : Type} `{Transport HW}.

Definition read_registers_locked (reg length : Z) : Io (St (HW := HW)) (list Z) :=
  if (length =? 0) || (kMaxResponsePayload <? length) then fail INVALID_ARGUMENT
  else
    response ← transact_locked kRegRead (View (register_head length reg));
    _ ← require (zlen response =? length) PROTOCOL_ERROR;
    mret response.
Definition read_registers (reg length : Z) : Io (St (HW := HW)) (list Z) := read_registers_locked reg length.

Definition read_register (reg : Z) : Io (St (HW := HW)) Z :=
  response ← read_registers reg 1;
  mret (byte_at response 0).

Definition write_registers_locked (reg : Z) (values : ByteView) : Io (St (HW := HW)) unit :=
  match values with
  | NullView _ => fail INVALID_ARGUMENT
  | View values =>
      if (zlen values =? 0) || (kMaxCommandPayload - 6 <? zlen values) then fail INVALID_ARGUMENT
      else
        acknowledged kRegWrite (View (register_head (zlen values) reg ++ values))
  end.
Definition write_registers (reg : Z) (values : ByteView) : Io (St (HW := HW)) unit := write_registers_locked reg values.
Definition write_register (reg value : Z) : Io (St (HW := HW)) unit := write_registers reg (View [value]).

Definition write_q3u4_registers_locked (reg : Z) (values : ByteView) : Io (St (HW := HW)) unit :=
  write_registers_locked reg values.
Definition write_q3u4_register_locked (reg value : Z) : Io (St (HW := HW)) unit :=
  write_registers_locked reg (View [value]).

Definition modify_q3u4_register_locked (reg value mask : Z) : Io (St (HW := HW)) unit :=
  if mask =? 0 then fail INVALID_ARGUMENT
  else if mask =? 0xff then write_q3u4_register_locked reg value
  else
    current ← read_registers_locked reg 1;
    let modified := cast_u8 (Z.lor (Z.land (byte_at current 0) (cast_u8 (Z.lnot mask))) (Z.land value mask)) in
    write_q3u4_register_locked reg modified.

(** * I2C *)

Definition i2c_read (bus address length : Z) : Io (St (HW := HW)) (list Z) :=
  if (bus <? 1) || (3 <? bus) || (0x7f <? address) || (length =? 0) || (kMaxResponsePayload <? length)
  then fail INVALID_ARGUMENT
  else
    response ← transact_locked kI2cRead (View [cast_u8 length; bus; cast_u8 (Z.shiftl address 1)]);
    _ ← require (zlen response =? length) PROTOCOL_ERROR;
    mret response.

Definition i2c_write (bus address : Z) (values : ByteView) : Io (St (HW := HW)) unit :=
  match values with
  | NullView _ => fail INVALID_ARGUMENT
  | View values =>
      if (bus <? 1) || (3 <? bus) || (0x7f <? address) || (zlen values =? 0) || (kMaxCommandPayload - 3 <? zlen values)
      then fail INVALID_ARGUMENT
      else
        acknowledged kI2cWrite
          (View ([cast_u8 (zlen values); bus; cast_u8 (Z.shiftl address 1)] ++ values))
  end.
End Operations.

(** * Register files

    [plain] names the registers that are memory: they hold what was last written
    to them.  Other commands and other registers have effects of their own. *)

Class RegisterFile (Dev : Type) `{Device Dev} := {
  reg : Dev -> Z -> Z;
  plain : Z -> bool;
  reg_u8 : forall d x, is_u8 (reg d x);
  read_register_law : forall r n d status l d', is_u32 r -> 0 < n < 256 ->
    executes kRegRead (register_head n r) d (status, l) d' ->
    (forall x, plain x = true -> reg d' x = reg d x) /\
    (status = 0 -> forall i, 0 <= i < n -> plain (r + i) = true -> byte_at l i = reg d (r + i));
  (** A write that was refused may have happened in part. *)
  write_register_law : forall r values d status l d', is_u32 r -> bytes_ok values -> zlen values < 256 ->
    executes kRegWrite (register_head (zlen values) r ++ values) d (status, l) d' ->
    forall x, plain x = true ->
      reg d' x = reg d x \/ (r <= x < r + zlen values /\ reg d' x = byte_at values (x - r));
  write_register_done : forall r values d l d', is_u32 r -> bytes_ok values -> zlen values < 256 ->
    executes kRegWrite (register_head (zlen values) r ++ values) d (0, l) d' ->
    forall i, 0 <= i < zlen values -> plain (r + i) = true -> reg d' (r + i) = byte_at values i;
}.

Section Effects.
Context {HW Dev : Type} `{Bridge HW Dev} `{!RegisterFile Dev}.

(** The sequence number is one byte. *)
Definition steady (st : St (HW := HW)) : Prop := is_u8 (sequence_ st.1).

Lemma same_steady (st st' : St (HW := HW)) : same_but_sequence st.1 st'.1 -> steady st'.
Proof. unfold steady. by intros (n & Hn & ->). Qed.

Lemma same_but_sequence_trans c1 c2 c3 :
  same_but_sequence c1 c2 -> same_but_sequence c2 c3 -> same_but_sequence c1 c3.
Proof. intros (n & Hn & ->) (m & Hm & ->). by exists m. Qed.

Lemma head_ok n r : bytes_ok (register_head n r).
Proof.
  unfold register_head, put_u32_be.
  repeat (apply Forall_cons; split; [first [apply cast_u8_ok | unfold register_length; by repeat case_match]|]).
  constructor.
Qed.

(** What a write of [values] from [r] on leaves behind. *)
Definition written (r : Z) (values : list Z) (st : St (HW := HW)) (res : Result unit) (st' : St) : Prop :=
  same_but_sequence st.1 st'.1 /\
  (forall x, plain x = true ->
     reg (dev st') x = reg (dev st) x \/
     (r <= x < r + zlen values /\ reg (dev st') x = byte_at values (x - r))) /\
  (res = success tt -> forall i, 0 <= i < zlen values -> plain (r + i) = true ->
     reg (dev st') (r + i) = byte_at values i) /\
  res <> failure OK.

Lemma acknowledged_effect command payload st :
  steady st -> is_u16 command -> bytes_ok payload ->
  returns (acknowledged command (View payload)) st (fun r st' =>
    same_but_sequence st.1 st'.1 /\
    (dev st' = dev st \/ exists o, executes command payload (dev st) o (dev st')) /\
    (r = success tt -> executes command payload (dev st) (0, []) (dev st')) /\ r <> failure OK).
Proof.
  intros Hs Hc Hp. apply returns_bind.
  destruct (transact_effect command (View payload) st Hs Hc Hp) as (r & st' & E & Sq & D & S & N).
  exists r, st'. split; [done|]. destruct r as [l|e]; [|split; [done|]; split; [done|]; split; [done|congruence]].
  destruct (Z.eqb_spec (zlen l) 0) as [L|]; [|by apply returns_fail].
  apply zlen_0 in L as ->. apply returns_ret. split; [done|]. split; [done|]. split; [|done]. intros _. by apply S.
Qed.

Lemma write_registers_effect r values st :
  steady st -> is_u32 r -> bytes_ok values ->
  returns (write_registers_locked r (View values)) st (fun res st' => written r values st res st').
Proof.
  intros Hs Hr Hv. cbn [write_registers_locked].
  assert (forall e, e <> OK -> written r values st (failure e) st) as Same.
  { intros e N. split; [by apply same_but_sequence_refl|]. split; [by left|]. split; [done|congruence]. }
  destruct (zlen values =? 0); [by apply returns_fail, Same|].
  destruct (Z.ltb_spec (kMaxCommandPayload - 6) (zlen values)) as [|L]; [by apply returns_fail, Same|]. cbn [orb].
  assert (zlen values < 256) as L' by (unfold kMaxCommandPayload in L; lia).
  destruct (acknowledged_effect kRegWrite (register_head (zlen values) r ++ values) st Hs) as (res & st' & E & Sq & D & S & N);
    [done|apply bytes_ok_app; split; [apply head_ok|done]|].
  exists res, st'. split; [done|]. split; [done|]. split.
  - intros x Px. destruct D as [->|([status l] & X)]; [by left|]. by eapply write_register_law; [| | |exact X|].
  - split; [|done]. intros ->. by eapply write_register_done; [| | |apply S].
Qed.

Lemma write_register_effect r v st :
  steady st -> is_u32 r -> is_u8 v ->
  returns (write_q3u4_register_locked r v) st (fun res st' => written r [v] st res st').
Proof. intros. apply write_registers_effect; [done|done|]. by apply Forall_singleton. Qed.

(** A write of one register. *)
Lemma written_one r v st res st' :
  written r [v] st res st' ->
  same_but_sequence st.1 st'.1 /\
  (forall x, plain x = true -> x <> r -> reg (dev st') x = reg (dev st) x) /\
  (plain r = true -> reg (dev st') r = reg (dev st) r \/ reg (dev st') r = v) /\
  (plain r = true -> res = success tt -> reg (dev st') r = v) /\
  res <> failure OK.
Proof.
  intros (Sq & W & D & N). change (zlen [v]) with 1 in *. split; [done|]. split; [|split; [|split; [|done]]].
  - intros x Px Nx. destruct (W x Px) as [?|[? _]]; [done|lia].
  - intros P. destruct (W r P) as [?|[_ ->]]; [by left|]. right. by rewrite Z.sub_diag.
  - intros P E. specialize (D E 0 ltac:(lia)). rewrite Z.add_0_r in D. by apply D.
Qed.

Lemma read_registers_effect r n st :
  steady st -> is_u32 r -> 0 <= n ->
  returns (read_registers_locked r n) st (fun res st' =>
    same_but_sequence st.1 st'.1 /\
    (forall x, plain x = true -> reg (dev st') x = reg (dev st) x) /\
    (forall l, res = success l -> zlen l = n /\
       forall i, 0 <= i < n -> plain (r + i) = true -> byte_at l i = reg (dev st) (r + i))).
Proof.
  intros Hs Hr Hn. unfold read_registers_locked.
  destruct (Z.eqb_spec n 0) as [|N0]; [apply returns_fail; split; [by apply same_but_sequence_refl|done]|].
  destruct (Z.ltb_spec kMaxResponsePayload n) as [|L]; [apply returns_fail; split; [by apply same_but_sequence_refl|done]|].
  cbn [orb]. unfold kMaxResponsePayload in L.
  apply returns_bind.
  destruct (transact_effect kRegRead (View (register_head n r)) st Hs ltac:(done) (head_ok _ _)) as (res & st' & E & Sq & D & S & N).
  exists res, st'. split; [done|].
  assert (forall x, plain x = true -> reg (dev st') x = reg (dev st) x) as Keep.
  { destruct D as [->|([status l] & X)]; [done|]. eapply (read_register_law r n); [done|lia|exact X]. }
  destruct res as [l|e]; [|done]. apply returns_bind.
  destruct (Z.eqb_spec (zlen l) n) as [Ll|]; [|by apply returns_fail].
  apply returns_ret. apply returns_ret. split; [done|]. split; [done|]. intros l' E'. injection E' as <-.
  split; [done|]. eapply (read_register_law r n); [done|lia|by apply S|done].
Qed.

(** What a masked write leaves of a register. *)
Definition masked (old value mask : Z) : Z := cast_u8 (Z.lor (Z.land old (cast_u8 (Z.lnot mask))) (Z.land value mask)).

Lemma masked_bit old value mask i :
  0 <= i < 8 -> Z.testbit (masked old value mask) i =
    if Z.testbit mask i then Z.testbit value i else Z.testbit old i.
Proof.
  intros Hi. unfold masked, cast_u8. rewrite Z.mod_pow2_bits_low by lia.
  rewrite Z.lor_spec, !Z.land_spec, Z.mod_pow2_bits_low, Z.lnot_spec by lia.
  by destruct (Z.testbit mask i), (Z.testbit old i), (Z.testbit value i).
Qed.

Lemma masked_full old value : is_u8 value -> masked old value 0xff = value.
Proof.
  intros Hv. apply Z.bits_inj'. intros i Hi. destruct (Z.lt_ge_cases i 8).
  - rewrite masked_bit by done. change 0xff with (Z.ones 8). by rewrite Z.ones_spec_low by lia.
  - rewrite (testbit_small value 8) by done. apply (testbit_small _ 8); [apply cast_u8_ok|done].
Qed.

Lemma modify_effect r value mask st :
  steady st -> is_u32 r -> is_u8 value -> plain r = true ->
  returns (modify_q3u4_register_locked r value mask) st (fun res st' =>
    same_but_sequence st.1 st'.1 /\
    (forall x, plain x = true -> x <> r -> reg (dev st') x = reg (dev st) x) /\
    (reg (dev st') r = reg (dev st) r \/ reg (dev st') r = masked (reg (dev st) r) value mask) /\
    (res = success tt -> reg (dev st') r = masked (reg (dev st) r) value mask)).
Proof.
  intros Hs Hr Hv P. unfold modify_q3u4_register_locked.
  destruct (mask =? 0).
  { apply returns_fail. split; [by apply same_but_sequence_refl|]. split; [done|]. split; [by left|done]. }
  destruct (Z.eqb_spec mask 0xff) as [->|].
  { eapply returns_mono; [by apply write_register_effect|]. intros res st' W.
    destruct (written_one _ _ _ _ _ W) as (A & B & C & D & _). rewrite masked_full by done.
    split; [done|]. split; [done|]. split; [by apply C|by apply D]. }
  apply returns_bind.
  destruct (read_registers_effect r 1 st Hs Hr ltac:(lia)) as (res & st1 & E & Sq & K & R).
  exists res, st1. split; [done|]. destruct res as [l|e].
  - destruct (R l eq_refl) as [L B]. specialize (B 0 ltac:(lia)). rewrite Z.add_0_r in B. rewrite (B P).
    cbv zeta. change (cast_u8 _) with (masked (reg (dev st) r) value mask).
    eapply returns_mono; [apply write_register_effect; [by eapply same_steady|done|apply cast_u8_ok]|].
    intros res st' W. destruct (written_one _ _ _ _ _ W) as (A & B' & C & D & _).
    split; [by eapply same_but_sequence_trans|]. split; [intros x Px N; rewrite B' by done; by apply K|].
    split; [rewrite <- (K r P) at 1; by apply C|by apply D].
  - split; [done|]. split; [intros; by apply K|]. split; [left; by apply K|done].
Qed.

(** A masked write never changes a bit outside of its mask, in this or another
    register, however it ends; once it succeeds the bits of the mask have their
    new values. *)
Theorem modify_register_correct r value mask st res st' :
  steady st -> is_u32 r -> is_u8 value -> plain r = true ->
  modify_q3u4_register_locked r value mask st = Some (res, st') ->
  (forall x, plain x = true -> x <> r -> reg (dev st') x = reg (dev st) x) /\
  (forall i, 0 <= i < 8 -> Z.testbit mask i = false ->
     Z.testbit (reg (dev st') r) i = Z.testbit (reg (dev st) r) i) /\
  (res = success tt -> forall i, 0 <= i < 8 -> Z.testbit mask i = true ->
     Z.testbit (reg (dev st') r) i = Z.testbit value i).
Proof.
  intros Hs Hr Hv P E. destruct (modify_effect r value mask st Hs Hr Hv P) as (res' & st1 & E' & _ & K & C & D).
  rewrite E in E'. injection E' as <- <-. split; [done|]. split.
  - intros i Hi M. destruct C as [->| ->]; [done|]. by rewrite masked_bit, M by done.
  - intros -> i Hi M. by rewrite D, masked_bit, M by done.
Qed.
End Effects.

(** * A simulated bridge

    A device with registers that takes every other command and remembers what it
    was sent, behind a connection that fails by a script: an entry [Some e] lets
    the request through and reports [e]. *)

Record SimDevice := { sim_regs : Z -> Z; sim_log : list (Z * list Z * Outcome) }.

Record SimBridge := {
  sim_device : SimDevice;
  sim_last : option (Request * option Outcome);
  sim_script : list (option Error);
}.

Definition answer (command : Z) (payload : list Z) (d : SimDevice) : Outcome * (Z -> Z) :=
  let r := get_u32_be (zdrop 2 payload) in
  if command =? kRegRead then ((0, (fun i => cast_u8 (sim_regs d (r + i))) <$> seqZ 0 (byte_at payload 0)), sim_regs d)
  else if command =? kRegWrite then
    let values := zdrop 6 payload in
    ((0, []), fun x => if (r <=? x) && (x <? r + zlen values) then byte_at values (x - r) else sim_regs d x)
  else if command =? kQueryInfo then ((0, [0; 0; 0; 1]), sim_regs d)
  else ((0, []), sim_regs d).

Definition perform (command : Z) (payload : list Z) (d : SimDevice) : Outcome * SimDevice :=
  let '(o, regs) := answer command payload d in
  (o, {| sim_regs := regs; sim_log := sim_log d ++ [((command, payload), o)] |}).

#[export] Instance sim_transport : Transport SimBridge := {
  bulk_write _ f _ hw :=
    match parse_request f with
    | None => (failure USB_IO, hw)
    | Some q =>
        let '(o, d) := perform (rq_command q) (rq_payload q) (sim_device hw) in
        (match sim_script hw with
         | Some e :: _ => if decide (e = OK) then success (zlen f) else failure e
         | _ => success (zlen f) end,
         {| sim_device := d; sim_last := Some (q, Some o); sim_script := tail (sim_script hw) |})
    end;
  bulk_read _ _ _ hw :=
    (match sim_last hw with
     | Some (q, Some (status, data)) =>
         let f := response_frame (rq_sequence q) status data in
         if bytes_okb f then success f else failure USB_IO
     | _ => failure TIMEOUT
     end, {| completion_error := OK; transferred := 0 |}, hw);
  pause_ms _ hw := hw;
}.

#[export] Instance sim_executes : Device SimDevice := {
  executes command payload d o d' := perform command payload d = (o, d');
}.

Lemma response_frame_inj s status d s' status' d' :
  response_frame s status d = response_frame s' status' d' -> s = s' /\ status = status' /\ d = d'.
Proof.
  unfold response_frame. cbn [app]. intros E. injection E as _ -> -> E.
  apply app_inj_2 in E as [-> _]; done.
Qed.

#[export] Instance sim_bridge : Bridge SimBridge SimDevice.
Proof.
  refine {| device := sim_device; received := sim_last |}.
  - intros r t hw Ok. right. unfold bulk_write, sim_transport. rewrite parse_request_frame by done.
    destruct (perform _ _ _) as [o d] eqn:E. exists o. done.
  - intros n t hw. unfold bulk_read, sim_transport. split; [by left|]. destruct (sim_last hw) as [[q [[status d]|]]|]; try done.
    cbv zeta. destruct (bytes_okb (response_frame (rq_sequence q) status d)) eqn:B; [|done]. split.
    + intros l E. injection E as <-. by apply bytes_okb_ok.
    + intros s d' _ E.
      assert (response_frame (rq_sequence q) status d = response_frame s 0 d') as E' by congruence.
      apply response_frame_inj in E' as (Es & -> & ->). by exists q.
  - intros f t hw. unfold bulk_write, sim_transport. repeat case_match; cbn; congruence.
  - intros n t hw. unfold bulk_read, sim_transport. repeat case_match; cbn; congruence.
  - done.
Defined.

Lemma u32_be_join r t : is_u32 r -> get_u32_be (put_u32_be r ++ t) = r.
Proof.
  intros Hr. unfold get_u32_be, put_u32_be.
  change (byte_at _ 0) with (cast_u8 (Z.shiftr r 24)). change (byte_at _ 1) with (cast_u8 (Z.shiftr r 16)).
  change (byte_at _ 2) with (cast_u8 (Z.shiftr r 8)). change (byte_at _ 3) with (cast_u8 r).
  apply Z.bits_inj'. intros i Hi. rewrite !Z.lor_spec, !Z.shiftl_spec by done.
  assert (forall x k, Z.testbit (cast_u8 x) k = (0 <=? k) && (k <? 8) && Z.testbit x k) as C.
  { intros x k. unfold cast_u8. destruct (Z.leb_spec 0 k); [|by rewrite Z.testbit_neg_r by lia].
    destruct (Z.ltb_spec k 8); [by rewrite Z.mod_pow2_bits_low by lia|by rewrite Z.mod_pow2_bits_high by lia]. }
  rewrite !C.
  destruct (Z.leb_spec 0 (i - 24)), (Z.leb_spec 0 (i - 16)), (Z.leb_spec 0 (i - 8)), (Z.leb_spec 0 i),
    (Z.ltb_spec (i - 24) 8), (Z.ltb_spec (i - 16) 8), (Z.ltb_spec (i - 8) 8), (Z.ltb_spec i 8); try lia; cbn [andb orb];
    rewrite ?Z.shiftr_spec by lia;
    rewrite ?Z.sub_add, ?orb_false_r; try done.
  symmetry. apply (testbit_small r 32); [done|lia].
Qed.

#[export] Instance sim_register_file : RegisterFile SimDevice.
Proof.
  refine {| reg := fun d x => cast_u8 (sim_regs d x); plain := fun _ => true |}.
  - intros. apply cast_u8_ok.
  - intros r n d status l d' Hr Hn E. unfold executes, sim_executes, perform, answer in E. cbv zeta in E.
    change (kRegRead =? kRegRead) with true in E. cbn iota in E. injection E as <- <- <-. split; [done|].
    intros _ i Hi _. unfold register_head.
    change (zdrop 2 ([cast_u8 n; register_length r] ++ put_u32_be r)) with (put_u32_be r).
    change (byte_at ([cast_u8 n; register_length r] ++ put_u32_be r) 0) with (cast_u8 n).
    pose proof (u32_be_join r [] Hr) as J. rewrite app_nil_r in J. rewrite J.
    unfold cast_u8 at 2. rewrite Z.mod_small by lia. unfold byte_at.
    rewrite nth_lookup, list_lookup_fmap, lookup_seqZ_lt by lia. cbn. by rewrite Z2Nat.id by lia.
  - intros r values d status l d' Hr Hv Hl E x _. unfold executes, sim_executes, perform, answer in E. cbv zeta in E.
    change (kRegWrite =? kRegRead) with false in E. change (kRegWrite =? kRegWrite) with true in E. cbn iota in E.
    unfold register_head in E. rewrite <- app_assoc in E.
    change (zdrop 2 ([cast_u8 (zlen values); register_length r] ++ put_u32_be r ++ values)) with (put_u32_be r ++ values) in E.
    change (zdrop 6 ([cast_u8 (zlen values); register_length r] ++ put_u32_be r ++ values)) with values in E.
    rewrite u32_be_join in E by done. injection E as <- <- <-.
    cbn [sim_regs]. destruct (Z.leb_spec r x), (Z.ltb_spec x (r + zlen values)); cbn [andb]; try by left. right. split; [lia|].
    unfold cast_u8. apply Z.mod_small. by apply byte_at_ok.
  - intros r values d l d' Hr Hv Hl E i Hi _. unfold executes, sim_executes, perform, answer in E. cbv zeta in E.
    change (kRegWrite =? kRegRead) with false in E. change (kRegWrite =? kRegWrite) with true in E. cbn iota in E.
    unfold register_head in E. rewrite <- app_assoc in E.
    change (zdrop 2 ([cast_u8 (zlen values); register_length r] ++ put_u32_be r ++ values)) with (put_u32_be r ++ values) in E.
    change (zdrop 6 ([cast_u8 (zlen values); register_length r] ++ put_u32_be r ++ values)) with values in E.
    rewrite u32_be_join in E by done. injection E as <- <-. cbn [sim_regs].
    rewrite (proj2 (Z.leb_le _ _)), (proj2 (Z.ltb_lt _ _)) by lia. cbn [andb].
    replace (r + i - r) with i by lia. unfold cast_u8. apply Z.mod_small. by apply byte_at_ok.
Defined.

(** A controller and a bridge whose registers are zero. *)
Definition sim_state (script : list (option Error)) : St (HW := SimBridge) :=
  (new_controller no_delay, {| sim_device := {| sim_regs := fun _ => 0; sim_log := [] |}; sim_last := None; sim_script := script |}).

Lemma modify_register_correct_witness :
  exists res st', modify_q3u4_register_locked 0xda1d 0xff 0x05 (sim_state [None; Some TIMEOUT]) = Some (res, st') /\
    Z.testbit (reg (dev st') 0xda1d) 1 = false.
Proof.
  destruct (modify_effect 0xda1d 0xff 0x05 (sim_state [None; Some TIMEOUT])) as (res & st' & E & _); [done..|].
  exists res, st'. split; [exact E|].
  destruct (modify_register_correct 0xda1d 0xff 0x05 (sim_state [None; Some TIMEOUT]) res st') as (_ & B & _);
    [done..|exact E|]. exact (B 1 ltac:(lia) eq_refl).
Defined.
