(* ===== verification/It930xEffects.v ===== *)
(** What operations of the IT930x controller do to the controller and tell the
    bridge, whatever they are made of: [stays] is for the sequence number, [sends]
    for the commands that a success has had carried out. *)

From S2P Require Import Prelude IoMonad It930xCommand It930xRegisters.

(** * The sequence number stays a byte *)

Section Steady.
Context {HW : Type} `{Transport HW}.

Definition stays {A} (m : Io (St (HW := HW)) A) : Prop :=
  forall st r st', steady st -> m st = Some (r, st') -> steady st'.

Lemma stays_bind {A B} (m : Io St A) (k : A -> Io St B) : stays m -> (forall a, stays (k a)) -> stays (m ≫= k).
Proof.
  intros M K st r st' S E. apply bind_some in E as [(e & E & _)|(a & st1 & E & E1)]; [by eapply M|].
  eapply K; [|exact E1]. by eapply M.
Qed.
Lemma stays_ret {A} (a : A) : stays (mret a).
Proof. intros st r st' S E. by injection E as <- <-. Qed.
Lemma stays_fail {A} e : stays (fail e : Io _ A).
Proof. intros st r st' S E. by injection E as <- <-. Qed.
Lemma stays_diverge {A} : stays (diverge : Io _ A).
Proof. by intros st r st' S E. Qed.
Lemma stays_from {A} (r : Result A) : stays (from_result r).
Proof. intros st r' st' S E. by injection E as <- <-. Qed.
Lemma stays_require c e : stays (require c e).
Proof. destruct c; [apply stays_ret|apply stays_fail]. Qed.
Lemma stays_attempt {A} (m : Io St A) : stays m -> stays (attempt m).
Proof.
  intros M st r st' S E. unfold attempt in E. destruct (m st) as [[r1 st1]|] eqn:E1; [|done].
  injection E as <- <-. by eapply M.
Qed.
Lemma stays_transport {A} (f : HW -> Result A * HW) : stays (transport f).
Proof.
  intros st r st' S E. unfold transport, on_snd, call in E. destruct (f st.2) as [r1 hw]. by injection E as <- <-.
Qed.
Lemma stays_controller : stays controller.
Proof. intros st r st' S E. by injection E as <- <-. Qed.
Lemma stays_set f : (forall c, is_u8 (sequence_ c) -> is_u8 (sequence_ (f c))) -> stays (set_controller f).
Proof. intros F st r st' S E. injection E as <- <-. by apply F. Qed.
Lemma stays_pause n : stays (modify (fun st : St => (st.1, pause_ms n st.2))).
Proof. intros st r st' S E. by injection E as <- <-. Qed.
End Steady.

Create HintDb steady.
#[export] Hint Resolve stays_ret stays_fail stays_diverge stays_from stays_require stays_attempt stays_transport
  stays_controller stays_pause : steady.

#[export] Hint Extern 5 (stays (set_controller _)) =>
  (apply stays_set; intros ? ?; first [assumption | apply cast_u8_ok]) : steady.

(** Walks through an operation by its structure. *)
Ltac walk_steady :=
  repeat first
    [ apply stays_bind; [|intros ?]
    | progress intros
    | progress cbv zeta
    | solve [auto with steady]
    | match goal with |- stays (match ?x with _ => _ end) => destruct x end
    | apply stays_attempt ].

Section Steady.
Context {HW : Type} `{Transport HW}.

Lemma stays_next : stays (HW := HW) next_sequence.
Proof. unfold next_sequence. walk_steady. Qed.
Lemma stays_pace : stays (HW := HW) pace_after_control_transfer.
Proof. unfold pace_after_control_transfer. walk_steady. Qed.
#[local] Hint Resolve stays_next stays_pace : steady.

Lemma transact_stays command payload : stays (HW := HW) (transact_locked command payload).
Proof. unfold transact_locked. walk_steady. Qed.
#[local] Hint Resolve transact_stays : steady.
Lemma acknowledged_stays command payload : stays (HW := HW) (acknowledged command payload).
Proof. unfold acknowledged. walk_steady. Qed.
#[local] Hint Resolve acknowledged_stays : steady.
Lemma version_stays : stays (HW := HW) firmware_version_locked.
Proof. unfold firmware_version_locked. walk_steady. Qed.
Lemma read_stays r n : stays (HW := HW) (read_registers_locked r n).
Proof. unfold read_registers_locked. walk_steady. Qed.
Lemma write_stays r v : stays (HW := HW) (write_registers_locked r v).
Proof. unfold write_registers_locked. walk_steady. Qed.
#[local] Hint Resolve version_stays read_stays write_stays : steady.
Lemma write_register_stays r v : stays (HW := HW) (write_q3u4_register_locked r v).
Proof. apply write_stays. Qed.
#[local] Hint Resolve write_register_stays : steady.
Lemma modify_stays r v m : stays (HW := HW) (modify_q3u4_register_locked r v m).
Proof. unfold modify_q3u4_register_locked. walk_steady. Qed.
#[local] Hint Resolve modify_stays : steady.
End Steady.

#[export] Hint Resolve transact_stays acknowledged_stays version_stays read_stays write_stays write_register_stays
  modify_stays : steady.

(** * What a bridge is sent *)

(** A device that remembers the commands it has carried out and what came of them. *)
Class CommandLog (Dev : Type) `{Device Dev} := {
  log : Dev -> list (Z * list Z * Outcome);
  log_law : forall command payload d o d', executes command payload d o d' -> log d' = log d ++ [((command, payload), o)];
}.

Section Log.
Context {HW Dev : Type} `{Bridge HW Dev} `{!CommandLog Dev}.

Definition sent (st : St (HW := HW)) : list (Z * list Z) := fst <$> log (dev st).

(** A success of [m] means that exactly [l] was carried out, once and in order. *)
Definition sends {A} (l : list (Z * list Z)) (m : Io (St (HW := HW)) A) : Prop :=
  forall st a st', steady st -> m st = Some (success a, st') -> sent st' = sent st ++ l /\ steady st'.

Lemma sends_bind {A B} l1 l2 (m : Io St A) (k : A -> Io St B) :
  sends l1 m -> (forall a, sends l2 (k a)) -> sends (l1 ++ l2) (m ≫= k).
Proof.
  intros M K st b st' S E. apply bind_some in E as [(e & _ & E)|(a & st1 & E1 & E)]; [done|].
  destruct (M _ _ _ S E1) as [L1 S1]. destruct (K _ _ _ _ S1 E) as [L2 S2]. by rewrite L2, L1, app_assoc.
Qed.
Lemma sends_ret {A} (a : A) : sends [] (mret a).
Proof. intros st b st' S E. injection E as _ <-. by rewrite app_nil_r. Qed.
Lemma sends_require c e : sends [] (require c e).
Proof. destruct c; [apply sends_ret|by intros st a st' S E]. Qed.

Lemma transact_sends command payload :
  is_u16 command -> bytes_ok (view_bytes payload) -> sends [(command, view_bytes payload)] (transact_locked command payload).
Proof.
  intros Hc Hp st d st' S E. destruct (transact_effect command payload st S Hc Hp) as (r & st1 & E1 & Q & _ & X & _).
  rewrite E in E1. injection E1 as <- <-. split; [|by eapply same_steady].
  unfold sent. rewrite (log_law _ _ _ _ _ (proj1 (X d eq_refl))). by rewrite fmap_app.
Qed.
Lemma acknowledged_sends command payload :
  is_u16 command -> bytes_ok (view_bytes payload) -> sends [(command, view_bytes payload)] (acknowledged command payload).
Proof.
  intros Hc Hp. unfold acknowledged. rewrite <- (app_nil_r [_]). apply sends_bind; [by apply transact_sends|].
  intros. apply sends_require.
Qed.

Lemma write_sends r values :
  bytes_ok values -> values <> [] -> sends [(kRegWrite, register_head (zlen values) r ++ values)] (write_registers_locked r (View values)).
Proof.
  intros B N. cbn [write_registers_locked]. destruct (_ || _); [by intros st a st' S X|].
  apply acknowledged_sends; [done|]. apply bytes_ok_app. split; [apply head_ok|done].
Qed.

End Log.

(** * Runs of the simulated bridge *)

#[export] Instance sim_command_log : CommandLog SimDevice.
Proof.
  refine {| log := sim_log |}. intros command payload d o d' E. unfold executes, sim_executes, perform in E.
  destruct (answer command payload d) as [a regs]. by injection E as -> <-.
Defined.

Definition succeeded {S A} (m : Io S A) (st : S) : bool :=
  match m st with Some (success _, _) => true | _ => false end.

Lemma succeeded_run {S A} (m : Io S A) st :
  succeeded m st = true -> exists a st', m st = Some (success a, st').
Proof. unfold succeeded. destruct (m st) as [[[a|e] st']|]; try done. by exists a, st'. Qed.

Lemma sim_steady script : steady (sim_state script).
Proof. done. Qed.
