(* ===== verification/It930xPower.v ===== *)
(** The power lines of a bridge ([set_q3u4_backend_power], [set_q3u4_lnb_power]
    and [set_single_receiver_backend_power] in [src/it930x.cpp]).  The theorems
    hold for every connection the interface [Bridge] allows: transactions that
    fail may have reached the lines or not. *)

From S2P Require Import Prelude IoMonad It930xCommand It930xRegisters.

Definition gpio7_output : Z := 0xd8c3.
Definition gpio2_output : Z := 0xd8b7.
Definition gpio3_output : Z := 0xd8b3.
Definition gpio11_output : Z := 0xd8d3.

Section Operations.
Context {HW : Type} `{Transport HW}.

Definition sleep (n : Z) : Io (St (HW := HW)) unit := modify (fun st => (st.1, pause_ms n st.2)).
Definition set_power_state (s : Q3U4BackendPowerState) : Io (St (HW := HW)) unit :=
  set_controller (fun c => with_power_state c s).

(** [terminal_disconnect]: a lost bridge is remembered. *)
Definition terminal_disconnect (r : Result unit) : Io (St (HW := HW)) bool :=
  if bool_decide (r = failure DISCONNECTED)
  then _ ← set_power_state power_disconnected; mret true
  else mret false.

(** Both lines back to off after a step of switching on has failed with [e]. *)
Definition power_on_cleanup (e : Error) : Io (St (HW := HW)) unit :=
  cleanup_backend ← attempt (write_q3u4_register_locked gpio2_output 0);
  lost ← terminal_disconnect cleanup_backend;
  if (lost : bool) then fail DISCONNECTED
  else
    cleanup_reset ← attempt (write_q3u4_register_locked gpio7_output 1);
    lost ← terminal_disconnect cleanup_reset;
    if (lost : bool) then fail DISCONNECTED
    else
      _ ← set_power_state (if is_success cleanup_backend && is_success cleanup_reset
                           then power_off else power_unknown);
      fail e.

(** A step of switching on: its failure cleans up. *)
Definition power_on_step (reg value : Z) (continue : Io (St (HW := HW)) unit) : Io (St (HW := HW)) unit :=
  written ← attempt (write_q3u4_register_locked reg value);
  match written with
  | failure e =>
      lost ← terminal_disconnect (failure e);
      if (lost : bool) then fail DISCONNECTED else power_on_cleanup e
  | success _ => continue
  end.

Definition switch_on : Io (St (HW := HW)) unit :=
  power_on_step gpio7_output 0 (
    _ ← sleep 80;
    power_on_step gpio2_output 1 (
      _ ← sleep 20;
      set_power_state power_on)).

Definition error_or_ok (r : Result unit) : Error := match r with failure e => e | success _ => OK end.

Definition switch_off : Io (St (HW := HW)) unit :=
  backend ← attempt (write_q3u4_register_locked gpio2_output 0);
  lost ← terminal_disconnect backend;
  if (lost : bool) then fail DISCONNECTED
  else
    reset ← attempt (write_q3u4_register_locked gpio7_output 1);
    lost ← terminal_disconnect reset;
    if (lost : bool) then fail DISCONNECTED
    else
      let first_error := error_or_ok backend in
      let first_error := if bool_decide (first_error = OK) then error_or_ok reset else first_error in
      _ ← set_power_state (if bool_decide (first_error = OK) then power_off
                           else if bool_decide (first_error = DISCONNECTED) then power_disconnected
                           else power_unknown);
      if bool_decide (first_error = OK) then mret tt else fail first_error.

Definition set_q3u4_backend_power (on : bool) : Io (St (HW := HW)) unit :=
  c ← controller;
  if bool_decide (q3u4_backend_power_state_ c = power_disconnected) then fail DISCONNECTED
  else if bool_decide (q3u4_backend_power_state_ c = if on then power_on else power_off) then mret tt
  else if on then switch_on else switch_off.

Definition set_q3u4_lnb_power (on : bool) : Io (St (HW := HW)) unit :=
  c ← controller;
  if q3u4_lnb_disconnected_ c then fail DISCONNECTED
  else
    result ← attempt (write_q3u4_register_locked gpio11_output (if on then 1 else 0));
    _ ← (if bool_decide (result = failure DISCONNECTED)
         then set_controller (fun c => with_lnb_disconnected c true) else mret tt);
    from_result result.

Definition set_single_receiver_backend_power (on : bool) : Io (St (HW := HW)) unit :=
  if on then
    _ ← write_q3u4_register_locked gpio3_output 0;
    _ ← sleep 100;
    _ ← write_q3u4_register_locked gpio2_output 1;
    sleep 20
  else
    _ ← write_q3u4_register_locked gpio2_output 0;
    write_q3u4_register_locked gpio3_output 1.
End Operations.

(** * Lemmas *)

Section Lines.
Context {HW Dev : Type} `{Bridge HW Dev} `{!RegisterFile Dev}.

Definition line (st : St (HW := HW)) (r : Z) : Z := reg (dev st) r.

Definition power_line (r : Z) : Prop := r = gpio2_output \/ r = gpio7_output.

(** The recorded state describes the lines; reset is active low. *)
Definition lines_agree (st : St (HW := HW)) : Prop :=
  match q3u4_backend_power_state_ st.1 with
  | power_on => line st gpio7_output = 0 /\ line st gpio2_output = 1
  | power_off => line st gpio7_output = 1 /\ line st gpio2_output = 0
  | power_unknown | power_disconnected => True
  end.

(** From [st] to [st'] only registers in [rs] have changed. *)
Definition touches (rs : Z -> Prop) (st st' : St (HW := HW)) : Prop :=
  steady st' /\ forall x, plain x = true -> ~ rs x -> line st' x = line st x.

Lemma touches_refl rs st : steady st -> touches rs st st.
Proof. done. Qed.
Lemma touches_trans rs st1 st2 st3 : touches rs st1 st2 -> touches rs st2 st3 -> touches rs st1 st3.
Proof. intros [S1 T1] [S2 T2]. split; [done|]. intros x P N. by rewrite T2, T1. Qed.
Lemma touches_controller rs st st' c :
  is_u8 (sequence_ c) -> touches rs st st' -> touches rs st (c, st'.2).
Proof. by intros S [S1 T1]. Qed.

(** An attempt to set a line, and what follows. *)
Lemma line_rule {A} (k : Result unit -> Io St A) (rs : Z -> Prop) r v st (Q : Result A -> St -> Prop) :
  steady st -> is_u32 r -> is_u8 v -> plain r = true -> rs r ->
  (forall w st', touches rs st st' -> same_but_sequence st.1 st'.1 ->
     (forall x, plain x = true -> x <> r -> line st' x = line st x) -> (w = success tt -> line st' r = v) ->
     w <> failure OK -> returns (k w) st' Q) ->
  returns (w ← attempt (write_q3u4_register_locked r v); k w) st Q.
Proof.
  intros S Hr Hv P R K. apply returns_bind.
  destruct (write_register_effect r v st S Hr Hv) as (w & st' & E & W).
  destruct (written_one _ _ _ _ _ W) as (A1 & B & _ & D & N).
  exists (success w), st'. split; [unfold attempt; by rewrite E|]. apply K; [|done|done|by apply D|done].
  split; [by eapply same_steady|]. intros x Px Nx. apply B; [done|]. by intros ->.
Qed.

Lemma disconnect_rule {A} (k : bool -> Io St A) r (st : St (HW := HW)) (Q : Result A -> St -> Prop) :
  (r = failure DISCONNECTED -> returns (k true) (with_power_state st.1 power_disconnected, st.2) Q) ->
  (r <> failure DISCONNECTED -> returns (k false) st Q) ->
  returns (lost ← terminal_disconnect r; k lost) st Q.
Proof.
  intros T F. apply returns_bind. unfold terminal_disconnect.
  destruct (bool_decide (r = failure DISCONNECTED)) eqn:B.
  - eexists _, _. split; [done|]. apply T. by apply bool_decide_eq_true in B.
  - eexists _, _. split; [done|]. apply F. by apply bool_decide_eq_false in B.
Qed.

Lemma set_power_state_rule {A} (k : unit -> Io St A) s (st : St (HW := HW)) (Q : Result A -> St -> Prop) :
  returns (k tt) (with_power_state st.1 s, st.2) Q -> returns (u ← set_power_state s; k u) st Q.
Proof. intros R. apply returns_bind. eexists _, _. split; [done|]. exact R. Qed.

Lemma sleep_rule {A} (k : unit -> Io St A) n st (Q : Result A -> St -> Prop) :
  (forall st', st'.1 = st.1 -> dev st' = dev st -> returns (k tt) st' Q) -> returns (u ← sleep n; k u) st Q.
Proof.
  intros R. apply returns_bind. eexists _, _. split; [done|]. apply R; [done|].
  unfold dev. cbn. by destruct (pause_law n st.2).
Qed.

Hypothesis plain2 : plain gpio2_output = true.
Hypothesis plain7 : plain gpio7_output = true.

(** How an operation of the power lines ends. *)
Definition power_ends (requested : Q3U4BackendPowerState) (st : St (HW := HW)) (r : Result unit) (st' : St) : Prop :=
  touches power_line st st' /\ lines_agree st' /\
  (is_success r = true <-> q3u4_backend_power_state_ st'.1 = requested).

Lemma ends_lost requested e st0 st :
  requested <> power_disconnected -> touches power_line st0 st ->
  power_ends requested st0 (failure e) (with_power_state st.1 power_disconnected, st.2).
Proof. intros N T. split; [done|]. split; [done|]. split; [done|]. cbn. by intros <-. Qed.

Lemma gpio_distinct : gpio2_output <> gpio7_output.
Proof. done. Qed.

Lemma cleanup_ends e st0 st :
  touches power_line st0 st -> returns (power_on_cleanup e) st (power_ends power_on st0).
Proof.
  intros T. pose proof T as [S _]. unfold power_on_cleanup.
  apply (line_rule _ power_line); [done|done|done|done|by left|]. intros w1 st1 T1 Q1 K1 L1 N1.
  assert (touches power_line st0 st1) as T01 by by eapply touches_trans.
  apply disconnect_rule; intros D1; [apply returns_fail, ends_lost; done|].
  apply (line_rule _ power_line); [apply T1|done|done|done|by right|]. intros w2 st2 T2 Q2 K2 L2 N2.
  assert (touches power_line st0 st2) as T02 by by eapply touches_trans.
  apply disconnect_rule; intros D2; [apply returns_fail, ends_lost; done|].
  apply set_power_state_rule, returns_fail. split; [done|].
  split; [|split; [done|]; cbn; by destruct (_ && _)].
  unfold lines_agree. cbn. destruct w1 as [[]|], w2 as [[]|]; cbn; try done.
  split; [by apply L2|]. change (line st2 gpio2_output = 0). rewrite K2 by done. by apply L1.
Qed.

Lemma step_ends r v k st0 st :
  touches power_line st0 st -> r = gpio2_output \/ r = gpio7_output -> is_u8 v ->
  (forall st', touches power_line st0 st' -> same_but_sequence st.1 st'.1 ->
     (forall x, plain x = true -> x <> r -> line st' x = line st x) -> line st' r = v ->
     returns k st' (power_ends power_on st0)) ->
  returns (power_on_step r v k) st (power_ends power_on st0).
Proof.
  intros T R Hv K. pose proof T as [S _]. unfold power_on_step.
  apply (line_rule _ power_line); [done|destruct R as [-> | ->]; done|done|destruct R as [-> | ->]; assumption|exact R|].
  intros w st1 T1 Q1 K1 L1 N1. assert (touches power_line st0 st1) as T01 by by eapply touches_trans.
  destruct w as [[]|e]; [apply K; [done..|by apply L1]|].
  apply disconnect_rule; intros D; [apply returns_fail, ends_lost; done|]. by apply cleanup_ends.
Qed.

Lemma touches_dev rs st0 st st' : st'.1 = st.1 -> dev st' = dev st -> touches rs st0 st -> touches rs st0 st'.
Proof. unfold touches, steady, line. by intros -> ->. Qed.

Lemma switch_on_ends st : steady st -> returns switch_on st (power_ends power_on st).
Proof.
  intros S. apply step_ends; [done|by right|done|]. intros st1 T1 _ _ L7.
  apply sleep_rule. intros st2 C2 D2. assert (touches power_line st st2) as T2 by by eapply touches_dev.
  apply step_ends; [done|by left|done|]. intros st3 T3 _ K3 L2.
  apply sleep_rule. intros st4 C4 D4. eexists _, _. split; [done|].
  assert (touches power_line st st4) as T4 by by eapply touches_dev. split; [exact T4|]. split; [|done].
  unfold lines_agree. cbn. unfold line, dev in *. cbn. rewrite D4. split; [|done].
  rewrite K3 by done. by rewrite D2.
Qed.

Lemma switch_off_ends st : steady st -> returns switch_off st (power_ends power_off st).
Proof.
  intros S. unfold switch_off.
  apply (line_rule _ power_line); [done|done|done|done|by left|]. intros w1 st1 T1 Q1 K1 L1 N1.
  apply disconnect_rule; intros D1; [apply returns_fail, ends_lost; done|].
  apply (line_rule _ power_line); [apply T1|done|done|done|by right|]. intros w2 st2 T2 Q2 K2 L2 N2.
  assert (touches power_line st st2) as T02 by by eapply touches_trans.
  apply disconnect_rule; intros D2; [apply returns_fail, ends_lost; done|]. cbv zeta.
  assert (forall e, e <> OK -> e <> DISCONNECTED ->
    returns (_ ← set_power_state (if bool_decide (e = OK) then power_off
                else if bool_decide (e = DISCONNECTED) then power_disconnected else power_unknown);
             if bool_decide (e = OK) then mret tt else fail e) st2 (power_ends power_off st)) as Fails.
  { intros e Ne De. apply set_power_state_rule. rewrite !(bool_decide_false (e = OK)) by done.
    rewrite bool_decide_false by done. apply returns_fail.
    split; [done|]. split; [done|]. by split. }
  destruct w1 as [[]|e1]; cbn [error_or_ok].
  - rewrite (bool_decide_true (OK = OK)) by done. destruct w2 as [[]|e2]; cbn [error_or_ok]; [|apply Fails; congruence].
    apply set_power_state_rule. rewrite !bool_decide_true by done. apply returns_ret.
    split; [done|]. split; [|done]. unfold lines_agree. cbn. split; [by apply L2|].
    change (line st2 gpio2_output = 0). rewrite K2 by done. by apply L1.
  - rewrite (bool_decide_false (e1 = OK)) by congruence. apply Fails; congruence.
Qed.

Lemma backend_power_ends on st :
  steady st -> lines_agree st ->
  returns (set_q3u4_backend_power on) st (power_ends (if on then power_on else power_off) st).
Proof.
  intros S A. unfold set_q3u4_backend_power. apply returns_bind. eexists _, _. split; [done|]. cbn beta iota.
  assert (forall r, (is_success r = true <-> q3u4_backend_power_state_ st.1 = if on then power_on else power_off) ->
    power_ends (if on then power_on else power_off) st r st) as Stay by done.
  destruct (bool_decide (q3u4_backend_power_state_ st.1 = power_disconnected)) eqn:Dc.
  { apply returns_fail, Stay. apply bool_decide_eq_true in Dc. rewrite Dc. by destruct on. }
  destruct (bool_decide (q3u4_backend_power_state_ st.1 = if on then power_on else power_off)) eqn:Same.
  { apply returns_ret, Stay. by apply bool_decide_eq_true in Same. }
  destruct on; [by apply switch_on_ends|by apply switch_off_ends].
Qed.

(** Whatever happens to the transactions, the state the controller records as
    on or off is the state of the reset and supply lines; it is the requested one
    exactly when the call succeeded, and no other configuration register is
    written. *)
Theorem backend_power_recorded on st r st' :
  steady st -> lines_agree st -> set_q3u4_backend_power on st = Some (r, st') ->
  lines_agree st' /\
  (is_success r = true <-> q3u4_backend_power_state_ st'.1 = if on then power_on else power_off) /\
  (forall x, plain x = true -> x <> gpio2_output -> x <> gpio7_output -> line st' x = line st x).
Proof.
  intros S A E. destruct (backend_power_ends on st S A) as (r' & st1 & E' & [_ T] & L & R).
  rewrite E in E'. injection E' as <- <-. split; [done|]. split; [done|].
  intros x P N2 N7. apply T; [done|]. by intros [-> | ->].
Qed.

Hypothesis plain11 : plain gpio11_output = true.

Lemma lnb_power_ends on st :
  steady st -> returns (set_q3u4_lnb_power on) st (fun r st' =>
    touches (eq gpio11_output) st st' /\
    q3u4_backend_power_state_ st'.1 = q3u4_backend_power_state_ st.1 /\
    (q3u4_lnb_disconnected_ st'.1 = q3u4_lnb_disconnected_ st.1 || bool_decide (r = failure DISCONNECTED)) /\
    (r = success tt -> line st' gpio11_output = if on then 1 else 0)).
Proof.
  intros S. unfold set_q3u4_lnb_power. apply returns_bind. eexists _, _. split; [done|]. cbn beta iota.
  destruct (q3u4_lnb_disconnected_ st.1) eqn:D.
  { apply returns_fail. split; [done|]. split; [done|]. split; [by rewrite D|done]. }
  apply (line_rule _ (eq gpio11_output)); [done|done|by destruct on|done|done|].
  intros w st1 T Q K L N. apply returns_bind. cbn [orb].
  destruct (bool_decide (w = failure DISCONNECTED)) eqn:B.
  - eexists _, _. split; [done|]. eexists _, _. split; [done|]. apply bool_decide_eq_true in B as ->.
    split; [exact T|]. destruct Q as (n & _ & Q). unfold set_controller, modify. cbn. rewrite Q. done.
  - eexists _, _. split; [done|]. eexists _, _. split; [done|]. rewrite B. split; [done|].
    destruct Q as (n & _ & ->). split; [done|]. by split.
Qed.

(** The antenna supply: no other configuration register is written, a successful
    call has set the line, a lost bridge is never written to again, and the
    backend's lines stay in agreement with their record. *)
Theorem lnb_power_confined on st r st' :
  steady st -> lines_agree st -> set_q3u4_lnb_power on st = Some (r, st') ->
  (forall x, plain x = true -> x <> gpio11_output -> line st' x = line st x) /\
  (r = success tt -> line st' gpio11_output = if on then 1 else 0) /\
  (q3u4_lnb_disconnected_ st.1 = true -> st' = st) /\
  (r = failure DISCONNECTED -> q3u4_lnb_disconnected_ st'.1 = true) /\
  lines_agree st'.
Proof.
  intros S A E. destruct (lnb_power_ends on st S) as (r' & st1 & E' & [_ T] & Q & D & L).
  pose proof E' as E2. rewrite E in E'. injection E' as <- <-.
  split; [intros x P N; by apply T|]. split; [done|]. split; [|split].
  - intros Dc. unfold set_q3u4_lnb_power in E. rewrite (bind_success _ _ _ st.1 st) in E by done.
    rewrite Dc in E. by injection E as _ <-.
  - intros ->. rewrite D. rewrite bool_decide_true by done. apply orb_true_r.
  - unfold lines_agree in *. rewrite Q. by destruct (q3u4_backend_power_state_ st.1); rewrite ?T by done.
Qed.
End Lines.

Lemma sim_plain r : plain (Dev := SimDevice) r = true.
Proof. done. Qed.

(** A failure of the supply while switching on, and one of the antenna supply. *)
Definition power_start : St (HW := SimBridge) := sim_state [None; Some TIMEOUT; None; None].
Lemma power_start_ok : steady power_start /\ lines_agree (Dev := SimDevice) power_start.
Proof. done. Qed.

Lemma backend_power_recorded_witness :
  exists r st', set_q3u4_backend_power true power_start = Some (r, st') /\ lines_agree (Dev := SimDevice) st'.
Proof.
  destruct power_start_ok as [S A].
  destruct (backend_power_ends (sim_plain _) (sim_plain _) true power_start S A) as (r & st' & E & _).
  exists r, st'. split; [exact E|].
  exact (proj1 (backend_power_recorded (sim_plain _) (sim_plain _) true power_start r st' S A E)).
Defined.

Lemma lnb_power_confined_witness :
  exists r st', set_q3u4_lnb_power true power_start = Some (r, st') /\
    line (Dev := SimDevice) st' gpio2_output = line (Dev := SimDevice) power_start gpio2_output.
Proof.
  destruct power_start_ok as [S A].
  destruct (lnb_power_ends (sim_plain _) true power_start S) as (r & st' & E & _).
  exists r, st'. split; [exact E|].
  refine (proj1 (lnb_power_confined (sim_plain _) (sim_plain _) (sim_plain _) true power_start r st' S A E) gpio2_output (sim_plain _) _).
  discriminate.
Defined.
