(* ===== verification/Q3u4Board.v ===== *)
(** The power coordinator of a Q3U4 on its two bridges: [It930xBackendPower] of
    [src/q3u4_frontend.cpp] forwards to the controller, so that the laws the
    coordinator relies on are discharged by the theorems on the power lines. *)

From S2P Require Import Prelude IoMonad It930xCommand It930xRegisters It930xPower Q3u4Power.

Section Board.
Context {HW Dev : Type} `{Bridge HW Dev} `{!RegisterFile Dev}.
Hypothesis plain2 : plain gpio2_output = true.
Hypothesis plain7 : plain gpio7_output = true.

(** A controller whose record of the backend is right, as initialisation leaves
    it and every operation keeps it. *)
Definition good (st : St (HW := HW)) : bool :=
  bool_decide (0 <= sequence_ st.1 < 2 ^ 8) &&
  match q3u4_backend_power_state_ st.1 with
  | power_on => (line st gpio7_output =? 0) && (line st gpio2_output =? 1)
  | power_off => (line st gpio7_output =? 1) && (line st gpio2_output =? 0)
  | _ => true
  end.

Lemma good_spec st : good st = true <-> steady st /\ lines_agree st.
Proof.
  unfold good, steady, lines_agree, is_u8. rewrite andb_true_iff, bool_decide_eq_true.
  destruct (q3u4_backend_power_state_ st.1); rewrite ?andb_true_iff, ?Z.eqb_eq; tauto.
Qed.

Definition Side : Type := { st : St (HW := HW) | good st = true }.

Definition drive (on : bool) (s : Side) : Result unit * Side :=
  match set_q3u4_backend_power on (`s) with
  | Some (r, st') =>
      match decide (good st' = true) with
      | left G => (r, st' ↾ G)
      | right _ => (failure INTERNAL, s)
      end
  | None => (failure INTERNAL, s)
  end.

(** The side has the controller's result and state. *)
Lemma drive_eq on (s : Side) :
  exists r st', set_q3u4_backend_power on (`s) = Some (r, st') /\ (drive on s).1 = r /\ proj1_sig (drive on s).2 = st' /\
    power_ends (if on then power_on else power_off) (`s) r st'.
Proof.
  destruct s as [st G]. pose proof (proj1 (good_spec st) G) as [S A].
  destruct (backend_power_ends plain2 plain7 on st S A) as (r & st' & E & P).
  exists r, st'. cbn [proj1_sig]. unfold drive. cbn [proj1_sig].
  rewrite E.
  assert (good st' = true) as G' by (apply good_spec; split; [apply P|apply P]).
  destruct (decide (good st' = true)); [done|done].
Qed.

(** The supply is high and the reset line is released. *)
Definition side_powered (s : Side) : bool := (line (`s) gpio2_output =? 1) && (line (`s) gpio7_output =? 0).

#[export] Instance board_power : Q3U4BackendPower (PerBridge Side) := {
  set_backend_power b on p := let '(r, s) := drive on (get p b) in (r, set p b s);
}.

#[export] Instance board_power_laws : BackendPowerLaws (PerBridge Side).
Proof.
  refine {| powered := fun p b => side_powered (get p b) |}.
  - intros b on p V. unfold set_backend_power, board_power.
    destruct (drive_eq on (get p b)) as (r & st' & _ & E1 & E2 & (_ & A & R)).
    destruct (drive on (get p b)) as [r' s]. cbn [fst snd] in *. intros ->. rewrite get_set_eq.
    unfold side_powered. rewrite E2. subst r. unfold lines_agree in A.
    rewrite (proj1 R eq_refl) in A. destruct on; destruct A as [A7 A2]; rewrite A2, A7; done.
  - intros b b' on p V V' N. unfold set_backend_power, board_power. destruct (drive on (get p b)) as [r s]. cbn [snd].
    rewrite get_set_other by done. done.
Defined.

End Board.

(** A board whose second bridge answers one transaction with an error. *)
Definition sim_side (script : list (option Error)) : Side (HW := SimBridge) (Dev := SimDevice) :=
  sim_state script ↾ eq_refl.

Definition sim_board : PerBridge (Side (HW := SimBridge) (Dev := SimDevice)) :=
  {| at_dev1 := sim_side []; at_dev2 := sim_side [None; Some TIMEOUT] |}.

