(* ===== verification/Identity.v ===== *)
(** Device identity ([src/identity.cpp], [include/px4/identity.h]): the table of
    models, the validation of what USB reports, the grouping of bridges into
    enclosures and the selection of one.  A [std::string] is the list of its
    bytes; [std::sort] is any function that sorts. *)

From S2P Require Import Prelude.
From stdpp Require Import strings.
From stdpp Require Export sorting.

Open Scope Z_scope.

(** * Models *)

Inductive DeviceModel :=
  | px_q3u4 | px_mlt5pe | dtv02a_5ts_p | px_w3u4 | px_w3pe4 | px_w3pe5 | px_q3pe4 | px_q3pe5
  | px_mlt8pe3 | px_mlt8pe5 | dtv02a_4ts_p | px_m1ur | px_s1ur | dtv03a_1tu | dtv02_1t1s_u | dtv02a_1t1s_u
  | DeviceModel_other (raw : Z).

#[export] Instance DeviceModel_eq_dec : EqDecision DeviceModel.
Proof. solve_decision. Defined.

(** The underlying value, by which models are ordered. *)
Definition model_raw (m : DeviceModel) : Z :=
  match m with
  | px_q3u4 => 0 | px_mlt5pe => 1 | dtv02a_5ts_p => 2 | px_w3u4 => 3 | px_w3pe4 => 4 | px_w3pe5 => 5
  | px_q3pe4 => 6 | px_q3pe5 => 7 | px_mlt8pe3 => 8 | px_mlt8pe5 => 9 | dtv02a_4ts_p => 10
  | px_m1ur => 11 | px_s1ur => 12 | dtv03a_1tu => 13 | dtv02_1t1s_u => 14 | dtv02a_1t1s_u => 15
  | DeviceModel_other raw => raw
  end.

Definition kQ3U4VendorId : Z := 0x0511.
Definition kQ3U4ProductId : Z := 0x084a.
Definition kW3U4ProductId : Z := 0x083f.
Definition kPxMlt5PeProductId : Z := 0x024e.
Definition kDtv02a5TsPProductId : Z := 0x924e.
Definition kPxW3Pe4ProductId : Z := 0x023f.
Definition kPxW3Pe5ProductId : Z := 0x073f.
Definition kPxQ3Pe4ProductId : Z := 0x024a.
Definition kPxQ3Pe5ProductId : Z := 0x074a.
Definition kPxMlt8Pe3ProductId : Z := 0x0252.
Definition kPxMlt8Pe5ProductId : Z := 0x0253.
Definition kDtv02a4TsPProductId : Z := 0x0254.
Definition kPxM1UrProductId : Z := 0x0854.
Definition kPxS1UrProductId : Z := 0x0855.
Definition kDtv03a1TuProductId : Z := 0x0052.
Definition kDtv021T1SuProductId : Z := 0x004b.
Definition kDtv02a1T1SuProductId : Z := 0x084b.

Record DeviceProfile := {
  profile_model : DeviceModel;
  profile_product_id : Z;
  profile_name : string;
  bridge_count : Z;
  receiver_count : Z;
  dual_system : bool;
  supports_lnb_15v : bool;
}.

Definition profile (m : DeviceModel) (id : Z) (name : string) (bridges receivers : Z) (dual lnb : bool) : DeviceProfile :=
  {| profile_model := m; profile_product_id := id; profile_name := name; bridge_count := bridges;
     receiver_count := receivers; dual_system := dual; supports_lnb_15v := lnb |}.

Definition kQ3U4Profile : DeviceProfile := profile px_q3u4 kQ3U4ProductId "PX-Q3U4" 2 8 false true.
Definition kDeviceProfiles : list DeviceProfile := [
  kQ3U4Profile;
  profile px_w3u4 kW3U4ProductId "PX-W3U4" 1 4 false true;
  profile px_mlt5pe kPxMlt5PeProductId "PX-MLT5PE" 1 5 true true;
  profile dtv02a_5ts_p kDtv02a5TsPProductId "DTV02A-5TS-P" 1 5 true true;
  profile px_w3pe4 kPxW3Pe4ProductId "PX-W3PE4" 1 4 false true;
  profile px_w3pe5 kPxW3Pe5ProductId "PX-W3PE5" 1 4 false true;
  profile px_q3pe4 kPxQ3Pe4ProductId "PX-Q3PE4" 2 8 false true;
  profile px_q3pe5 kPxQ3Pe5ProductId "PX-Q3PE5" 2 8 false true;
  profile px_mlt8pe3 kPxMlt8Pe3ProductId "PX-MLT8PE3" 1 3 true true;
  profile px_mlt8pe5 kPxMlt8Pe5ProductId "PX-MLT8PE5" 1 5 true true;
  profile dtv02a_4ts_p kDtv02a4TsPProductId "DTV02A-4TS-P" 1 4 true true;
  profile px_m1ur kPxM1UrProductId "PX-M1UR" 1 1 true false;
  profile px_s1ur kPxS1UrProductId "PX-S1UR" 1 1 false false;
  profile dtv03a_1tu kDtv03a1TuProductId "DTV03A-1TU" 1 1 false false;
  profile dtv02_1t1s_u kDtv021T1SuProductId "DTV02-1T1S-U" 1 1 true false;
  profile dtv02a_1t1s_u kDtv02a1T1SuProductId "DTV02A-1T1S-U" 1 1 true false ].

Definition device_profile_for_usb_id (vendor_id product_id : Z) : option DeviceProfile :=
  if negb (vendor_id =? kQ3U4VendorId) then None
  else find (fun p => profile_product_id p =? product_id) kDeviceProfiles.
Definition device_profile (m : DeviceModel) : DeviceProfile :=
  default kQ3U4Profile (find (fun p => bool_decide (profile_model p = m)) kDeviceProfiles).
Definition device_profile_at (index : Z) : option DeviceProfile :=
  if index <? zlen kDeviceProfiles then kDeviceProfiles !! Z.to_nat index else None.

(** * Serial numbers and instance names *)

Definition kQ3U4BaseSerialLength : Z := 14.
Definition kUsbSerialLength : Z := 15.

Definition is_digit (c : Z) : bool := (48 <=? c) && (c <=? 57).
Definition all_digits (value : list Z) : bool := forallb is_digit value.

Definition valid_device_instance (value : list Z) : bool :=
  ((zlen value =? kQ3U4BaseSerialLength) || (zlen value =? kUsbSerialLength)) && all_digits value.

Definition valid_runtime_instance (value : list Z) : bool :=
  if bool_decide (value = []) || (80 <? zlen value) || bool_decide (value = [46]) || bool_decide (value = [46; 46])
  then false
  else forallb (fun c => is_digit c || ((97 <=? c) && (c <=? 122)) || ((65 <=? c) && (c <=? 90))
                         || (c =? 95) || (c =? 45) || (c =? 46)) value.

Record ParsedQ3U4Serial := { parsed_base_serial : list Z; dev_id : Z }.

Definition parse_q3u4_serial (serial : list Z) : Result ParsedQ3U4Serial :=
  if negb (zlen serial =? 15) then failure INVALID_ARGUMENT
  else if negb (all_digits serial) then failure INVALID_ARGUMENT
  else
    let back := byte_at serial (zlen serial - 1) in
    if negb (back =? 49) && negb (back =? 50) then failure INVALID_ARGUMENT
    else success {| parsed_base_serial := ztake (zlen serial - 1) serial; dev_id := cast_u8 (back - 48) |}.

(** * What USB reports *)

Inductive UsbSpeed := speed_unknown | low | full | high | super | super_plus | super_plus_x2 | UsbSpeed_other (raw : Z).
Inductive EndpointType := endpoint_other | bulk | EndpointType_other (raw : Z).
#[export] Instance UsbSpeed_eq_dec : EqDecision UsbSpeed.
Proof. solve_decision. Defined.
#[export] Instance EndpointType_eq_dec : EqDecision EndpointType.
Proof. solve_decision. Defined.

Record UsbEndpointObservation := { ep_address : Z; ep_type : EndpointType; max_packet_size : Z }.
Record UsbInterfaceObservation := {
  if_number : Z;
  alternate_setting : Z;
  endpoints : list UsbEndpointObservation;
}.
Record UsbLocation := {
  has_bus : bool;
  has_address : bool;
  loc_bus : Z;
  loc_address : Z;
  port_path : list Z;  (** eight bytes *)
  loc_port_count : Z;
}.
Record DeviceObservation := {
  vendor_id : Z;
  product_id : Z;
  serial : list Z;
  speed : UsbSpeed;
  location : UsbLocation;
  interfaces : list UsbInterfaceObservation;
}.

Inductive ObservationStatus :=
  | usable | unsupported | invalid_serial | insufficient_speed | invalid_topology | open_failed
  | ObservationStatus_other (raw : Z).
#[export] Instance ObservationStatus_eq_dec : EqDecision ObservationStatus.
Proof. solve_decision. Defined.

Definition q3u4_speed_is_usable (s : UsbSpeed) : bool :=
  match s with high | super | super_plus | super_plus_x2 => true | _ => false end.

(** The loop counts the matches and stops at one of the wrong shape. *)
Fixpoint count_endpoints (l : list UsbEndpointObservation) (address matches : Z) : option Z :=
  match l with
  | [] => Some matches
  | e :: l =>
      if ep_address e =? address then
        if negb (bool_decide (ep_type e = bulk)) || negb (max_packet_size e =? 512) then None
        else count_endpoints l address (matches + 1)
      else count_endpoints l address matches
  end.
Definition endpoint_matches (i : UsbInterfaceObservation) (address : Z) : bool :=
  match count_endpoints (endpoints i) address 0 with Some n => n =? 1 | None => false end.

Definition is_zero_zero (i : UsbInterfaceObservation) : bool := (if_number i =? 0) && (alternate_setting i =? 0).
Fixpoint find_single (l : list UsbInterfaceObservation) (found : option UsbInterfaceObservation)
  : option UsbInterfaceObservation :=
  match l with
  | [] => found
  | i :: l =>
      if is_zero_zero i then match found with Some _ => None | None => find_single l (Some i) end
      else find_single l found
  end.
Definition interface_zero_alt_zero (topology : list UsbInterfaceObservation) : option UsbInterfaceObservation :=
  find_single topology None.

Definition q3u4_topology_is_usable (topology : list UsbInterfaceObservation) : bool :=
  match interface_zero_alt_zero topology with
  | None => false
  | Some i =>
      if negb (zlen (endpoints i) =? 4) then false
      else forallb (endpoint_matches i) [0x81; 0x02; 0x84; 0x85]
  end.

Record GroupKey := { key_serial : list Z; key_slot : Z; key_model : DeviceModel }.

Definition group_key (o : DeviceObservation) : Result GroupKey :=
  match device_profile_for_usb_id (vendor_id o) (product_id o) with
  | None => failure UNSUPPORTED
  | Some p =>
      if bridge_count p =? 2 then
        parsed ← parse_q3u4_serial (serial o);
        success {| key_serial := parsed_base_serial parsed; key_slot := dev_id parsed - 1; key_model := profile_model p |}
      else if negb (zlen (serial o) =? kUsbSerialLength) || negb (all_digits (serial o)) then failure INVALID_ARGUMENT
      else success {| key_serial := serial o; key_slot := 0; key_model := profile_model p |}
  end.

Definition validate_q3u4_observation (o : DeviceObservation) : ObservationStatus :=
  match device_profile_for_usb_id (vendor_id o) (product_id o) with
  | None => unsupported
  | Some _ =>
      if negb (is_success (group_key o)) then invalid_serial
      else if negb (q3u4_speed_is_usable (speed o)) then insufficient_speed
      else if negb (q3u4_topology_is_usable (interfaces o)) then invalid_topology
      else usable
  end.

Definition observation_status_error (s : ObservationStatus) : Error :=
  match s with
  | usable => OK
  | unsupported | insufficient_speed => UNSUPPORTED
  | invalid_serial | invalid_topology => INVALID_ARGUMENT
  | open_failed => USB_IO
  | ObservationStatus_other _ => INTERNAL
  end.

Definition observation_status_string (s : ObservationStatus) : string :=
  match s with
  | usable => "usable" | unsupported => "unsupported" | invalid_serial => "invalid_serial"
  | insufficient_speed => "insufficient_speed" | invalid_topology => "invalid_topology" | open_failed => "open_failed"
  | ObservationStatus_other _ => "unknown"
  end.

(** * Orders *)

(** [operator<] of arrays and strings. *)
Fixpoint lex_less (a b : list Z) : bool :=
  match a, b with
  | x :: a, y :: b => if x <? y then true else if y <? x then false else lex_less a b
  | [], _ :: _ => true
  | _, [] => false
  end.

Definition location_key (l : UsbLocation) : list Z :=
  [if has_bus l then loc_bus l else 0; if has_address l then loc_address l else 0; loc_port_count l].
Definition location_less (left right : UsbLocation) : bool :=
  if negb (bool_decide (location_key left = location_key right)) then lex_less (location_key left) (location_key right)
  else lex_less (port_path left) (port_path right).

(** [group_key(o).value()]; the caller has excluded failures. *)
Definition key_of (o : DeviceObservation) : GroupKey :=
  match group_key o with
  | success k => k
  | failure _ => {| key_serial := []; key_slot := 0; key_model := px_q3u4 |}
  end.
Definition observation_less (left right : DeviceObservation) : bool :=
  let l := key_of left in let r := key_of right in
  if negb (bool_decide (key_serial l = key_serial r)) then lex_less (key_serial l) (key_serial r)
  else if negb (bool_decide (key_model l = key_model r)) then model_raw (key_model l) <? model_raw (key_model r)
  else if negb (key_slot l =? key_slot r) then key_slot l <? key_slot r
  else location_less (location left) (location right).

(** * Groups *)

Inductive GroupStatus := ready | incomplete | duplicate | invalid_observation | GroupStatus_other (raw : Z).
#[export] Instance GroupStatus_eq_dec : EqDecision GroupStatus.
Proof. solve_decision. Defined.

Definition group_status_string (s : GroupStatus) : string :=
  match s with
  | ready => "ready" | incomplete => "incomplete" | duplicate => "duplicate"
  | invalid_observation => "invalid_observation" | GroupStatus_other _ => "unknown"
  end.

Record RejectedObservation := { rejected_status : ObservationStatus; rejected_observation : DeviceObservation }.
Record Candidate := { observation_index : Z; candidate_device : Z; candidate_observation : DeviceObservation }.

(** [devices] and [candidate_indices] are arrays of two. *)
Record Q3U4Group := {
  base_serial : list Z;
  devices : list (option DeviceObservation);
  candidate_indices : list (option Z);
  candidates : list Candidate;
  status : GroupStatus;
  model : DeviceModel;
}.

Definition new_group (serial : list Z) (m : DeviceModel) : Q3U4Group := {|
  base_serial := serial; devices := [None; None]; candidate_indices := [None; None]; candidates := [];
  status := incomplete; model := m;
|}.
Definition with_status (g : Q3U4Group) (s : GroupStatus) : Q3U4Group := {|
  base_serial := base_serial g; devices := devices g; candidate_indices := candidate_indices g;
  candidates := candidates g; status := s; model := model g;
|}.
Definition add_candidate (g : Q3U4Group) (c : Candidate) : Q3U4Group := {|
  base_serial := base_serial g; devices := devices g; candidate_indices := candidate_indices g;
  candidates := candidates g ++ [c]; status := status g; model := model g;
|}.
Definition fill_slot (g : Q3U4Group) (slot index : Z) (o : DeviceObservation) : Q3U4Group := {|
  base_serial := base_serial g; devices := <[Z.to_nat slot := Some o]> (devices g);
  candidate_indices := <[Z.to_nat slot := Some index]> (candidate_indices g);
  candidates := candidates g; status := status g; model := model g;
|}.

(** [group->devices[slot].has_value()]. *)
Definition occupied (g : Q3U4Group) (slot : Z) : bool :=
  match devices g !! Z.to_nat slot with Some (Some _) => true | _ => false end.

(** What the loop does to the group of the observation. *)
Definition join_group (index : Z) (o : DeviceObservation) (slot : Z) (g : Q3U4Group) : Q3U4Group :=
  let g := add_candidate g {| observation_index := index; candidate_device := cast_u8 (slot + 1);
                              candidate_observation := o |} in
  let g := if occupied g slot then with_status g duplicate else fill_slot g slot index o in
  if negb (bool_decide (validate_q3u4_observation o = usable)) && negb (bool_decide (status g = duplicate))
  then with_status g invalid_observation else g.

(** [find_if], and the group at the end when there is none. *)
Fixpoint update_group (belongs : Q3U4Group -> bool) (join : Q3U4Group -> Q3U4Group) (fresh : Q3U4Group)
    (groups : list Q3U4Group) : list Q3U4Group :=
  match groups with
  | [] => [join fresh]
  | g :: groups => if belongs g then join g :: groups else g :: update_group belongs join fresh groups
  end.

Definition same_enclosure (k : GroupKey) (g : Q3U4Group) : bool :=
  negb (bridge_count (device_profile (key_model k)) =? 1) &&
  (bool_decide (base_serial g = key_serial k) && bool_decide (model g = key_model k)).

Definition add_observation (groups : list Q3U4Group) (entry : Z * DeviceObservation) : Result (list Q3U4Group) :=
  match group_key entry.2 with
  | failure _ => failure INTERNAL
  | success k =>
      success (update_group (same_enclosure k) (join_group entry.1 entry.2 (key_slot k))
                 (new_group (key_serial k) (key_model k)) groups)
  end.

Fixpoint add_observations (groups : list Q3U4Group) (l : list (Z * DeviceObservation)) : Result (list Q3U4Group) :=
  match l with
  | [] => success groups
  | entry :: l =>
      groups ← add_observation groups entry;
      add_observations groups l
  end.

(** The status of a group that is neither ambiguous nor invalid. *)
Definition settle (g : Q3U4Group) : Q3U4Group :=
  if bool_decide (status g = duplicate) || bool_decide (status g = invalid_observation) then g
  else
    let complete := forallb (occupied g) (seqZ 0 (bridge_count (device_profile (model g)))) in
    with_status g (if complete then ready else incomplete).

Definition group_less (left right : Q3U4Group) : bool :=
  if negb (bool_decide (base_serial left = base_serial right)) then lex_less (base_serial left) (base_serial right)
  else if negb (bool_decide (model left = model right)) then model_raw (model left) <? model_raw (model right)
  else
    match candidates left, candidates right with
    | l :: _, r :: _ => location_less (location (candidate_observation l)) (location (candidate_observation r))
    | _, _ => false
    end.

Record GroupingResult := { groups : list Q3U4Group; rejected : list RejectedObservation; complete : bool }.

(** Neither the model nor the serial number is known. *)
Definition refused (o : DeviceObservation) : bool :=
  bool_decide (validate_q3u4_observation o = unsupported) || bool_decide (validate_q3u4_observation o = invalid_serial).

Section Grouping.
(** [std::sort] with a comparison. *)
Variable sort : forall {A : Type}, (A -> A -> bool) -> list A -> list A.

(** The observations with their indices. *)
Definition indexed (observations : list DeviceObservation) : list (Z * DeviceObservation) :=
  zip (seqZ 0 (zlen observations)) observations.

Definition group_q3u4_devices (observations : list DeviceObservation) : Result GroupingResult :=
  let rejected := (fun o => {| rejected_status := validate_q3u4_observation o; rejected_observation := o |})
                    <$> List.filter refused observations in
  let sorted := sort (fun l r => observation_less l.2 r.2)
                  (List.filter (fun e => negb (refused e.2)) (indexed observations)) in
  groups ← add_observations [] sorted;
  success {| groups := sort group_less (settle <$> groups); rejected := rejected; complete := true |}.
End Grouping.

(** * Selection *)

(** The counters of the loop over the groups. *)
Record Counts := { ready_count : Z; matching_count : Z; matching_ready_count : Z; selected_index : Z }.

Definition count_group (serial : list Z) (c : Counts) (entry : Z * Q3U4Group) : Counts :=
  let '(index, g) := entry in
  let named := negb (bool_decide (serial = [])) in
  let matching := named && bool_decide (base_serial g = serial) in
  let is_ready := bool_decide (status g = ready) in
  {| ready_count := ready_count c + (if is_ready then 1 else 0);
     matching_count := matching_count c + (if matching then 1 else 0);
     matching_ready_count := matching_ready_count c + (if matching && is_ready then 1 else 0);
     selected_index := if is_ready && (negb named || bool_decide (base_serial g = serial)) then index
                       else selected_index c |}.

Definition select_ready_q3u4_group (grouping : GroupingResult) (serial : list Z) : Result Z :=
  if negb (bool_decide (serial = [])) && negb (valid_device_instance serial) then failure INVALID_ARGUMENT
  else
    let c := foldl (count_group serial) {| ready_count := 0; matching_count := 0; matching_ready_count := 0; selected_index := 0 |}
               (zip (seqZ 0 (zlen (groups grouping))) (groups grouping)) in
    if negb (bool_decide (serial = [])) then
      if matching_count c =? 0 then failure NOT_FOUND
      else if (matching_count c =? 1) && (matching_ready_count c =? 1) then success (selected_index c)
      else failure INVALID_ARGUMENT
    else if ready_count c =? 0 then failure NOT_FOUND
    else if ready_count c =? 1 then success (selected_index c) else failure INVALID_ARGUMENT.

(** * USB paths *)

Record ParsedUsbPath := {
  path_bus : Z;
  path_address : Z;
  by_address : bool;
  path_ports : list Z;  (** the first [port_count] *)
}.

(** [std::from_chars] of an unsigned number: the digits at the start. *)
Fixpoint from_chars (text : list Z) (acc : Z) : Z * list Z :=
  match text with
  | c :: text' => if is_digit c then from_chars text' (acc * 10 + (c - 48)) else (acc, text)
  | [] => (acc, [])
  end.

Definition parse_byte (part : list Z) : option Z :=
  if bool_decide (part = []) then None
  else
    let '(number, rest) := from_chars part 0 in
    if bool_decide (length rest = length part) || (2 ^ 32 - 1 <? number) then None
    else if negb (bool_decide (rest = [])) || (number =? 0) || (255 <? number) then None
    else Some (cast_u8 number).

(** [find_first_of(":-")] and [find('.')]: what comes before, and what comes after. *)
Fixpoint split_at (stop : Z -> bool) (text : list Z) : list Z * option (Z * list Z) :=
  match text with
  | [] => ([], None)
  | c :: text' =>
      if stop c then ([], Some (c, text'))
      else let '(before, found) := split_at stop text' in (c :: before, found)
  end.

(** The loop over the ports; [text] is what begins at [begin]. *)
Fixpoint parse_ports (fuel : nat) (text : list Z) (ports : list Z) : option (Result (list Z)) :=
  match text with
  | [] => Some (failure INVALID_ARGUMENT)
  | _ =>
      match fuel with
      | O => None
      | S fuel =>
          let '(part, found) := split_at (Z.eqb 46) text in
          if zlen ports =? 8 then Some (failure INVALID_ARGUMENT)
          else
            match parse_byte part with
            | None => Some (failure INVALID_ARGUMENT)
            | Some p =>
                match found with
                | None => Some (success (ports ++ [p]))
                | Some (_, rest) => parse_ports fuel rest (ports ++ [p])
                end
            end
      end
  end.

Definition parse_usb_path (text : list Z) : option (Result ParsedUsbPath) :=
  match split_at (fun c => (c =? 58) || (c =? 45)) text with
  | (_, None) | ([], _) | (_, Some (_, [])) => Some (failure INVALID_ARGUMENT)
  | (part, Some (separator, rest)) =>
      match parse_byte part with
      | None => Some (failure INVALID_ARGUMENT)
      | Some bus =>
          if separator =? 58 then
            match parse_byte rest with
            | None => Some (failure INVALID_ARGUMENT)
            | Some address =>
                Some (success {| path_bus := bus; path_address := address; by_address := true; path_ports := [] |})
            end
          else
            match parse_ports (S (length rest)) rest [] with
            | None => None
            | Some (failure e) => Some (failure e)
            | Some (success ports) =>
                Some (success {| path_bus := bus; path_address := 0; by_address := false; path_ports := ports |})
            end
      end
  end.

Definition path_matches (path : ParsedUsbPath) (l : UsbLocation) : bool :=
  if negb (has_bus l) || negb (loc_bus l =? path_bus path) then false
  else if by_address path then has_address l && (loc_address l =? path_address path)
  else (loc_port_count l =? zlen (path_ports path)) && negb (zlen (path_ports path) =? 0)
       && bool_decide (path_ports path = ztake (zlen (path_ports path)) (port_path l)).

Record SelectedQ3U4Group := { group_index : Z; selected_candidates : list Z  (** two *) }.

(** All candidates a path names, as positions of group and candidate. *)
Definition matches_of (grouping : GroupingResult) (path : ParsedUsbPath) : list (Z * Z) :=
  zip (seqZ 0 (zlen (groups grouping))) (groups grouping) ≫= fun '(gi, g) =>
    fst <$> List.filter (fun e => path_matches path (location (candidate_observation e.2)))
      (zip ((fun ci => (gi, ci)) <$> seqZ 0 (zlen (candidates g))) (candidates g)).

(** The loop over the paths: the one candidate each of them names. *)
Fixpoint resolve_paths (grouping : GroupingResult) (paths : list (list Z)) : option (Result (list (Z * Z))) :=
  match paths with
  | [] => Some (success [])
  | text :: paths =>
      match parse_usb_path text with
      | None => None
      | Some (failure e) => Some (failure e)
      | Some (success path) =>
          match matches_of grouping path with
          | [] => Some (failure NOT_FOUND)
          | [m] =>
              match resolve_paths grouping paths with
              | Some (success ms) => Some (success (m :: ms))
              | other => other
              end
          | _ => Some (failure INVALID_ARGUMENT)
          end
      end
  end.

(** The slots of a ready group. *)
Fixpoint slots_filled (slots : list (option Z)) (n : nat) : option (list Z) :=
  match n, slots with
  | S n, Some i :: slots => cons i <$> slots_filled slots n
  | S _, _ => None
  | O, _ => Some []
  end.

(** The loop over two named candidates; [taken] and [chosen] by slot. *)
Fixpoint choose_candidates (g : Q3U4Group) (named : list Z) (taken : list bool) (chosen : list Z) : Result (list Z) :=
  match named with
  | [] => success chosen
  | position :: named =>
      match candidates g !! Z.to_nat position with
      | None => failure INTERNAL
      | Some c =>
          let slot := candidate_device c - 1 in
          if (bridge_count (device_profile (model g)) <=? slot) || (slot <? 0)
             || default false (taken !! Z.to_nat slot)
             || negb (bool_decide (validate_q3u4_observation (candidate_observation c) = usable))
          then failure INVALID_ARGUMENT
          else choose_candidates g named (<[Z.to_nat slot := true]> taken)
                 (<[Z.to_nat slot := observation_index c]> chosen)
      end
  end.

(** The checks once every path has been resolved. *)
Definition select_resolved (grouping : GroupingResult) (serial : list Z) (found : list (Z * Z)) : Result SelectedQ3U4Group :=
  match found with
  | [] => failure INTERNAL
  | (gi, _) :: others =>
      if negb (forallb (fun m => m.1 =? gi) others) then failure INVALID_ARGUMENT
      else
        match groups grouping !! Z.to_nat gi with
        | None => failure INTERNAL
        | Some g =>
            let bridges := bridge_count (device_profile (model g)) in
            if negb (bool_decide (serial = [])) && negb (bool_decide (base_serial g = serial)) then failure INVALID_ARGUMENT
            else if zlen found =? 1 then
              if negb (bool_decide (status g = ready)) then failure INVALID_ARGUMENT
              else
                match slots_filled (candidate_indices g) (Z.to_nat bridges) with
                | None => failure INVALID_ARGUMENT
                | Some l => success {| group_index := gi; selected_candidates := l ++ replicate (2 - length l) 0 |}
                end
            else if negb (bridges =? zlen found) then failure INVALID_ARGUMENT
            else
              chosen ← choose_candidates g (snd <$> found) [false; false] [0; 0];
              success {| group_index := gi; selected_candidates := chosen |}
        end
  end.

Definition select_q3u4_group_by_usb_paths (grouping : GroupingResult) (serial : list Z) (usb_paths : list (list Z))
  : option (Result SelectedQ3U4Group) :=
  if (negb (bool_decide (serial = [])) && negb (valid_device_instance serial))
     || bool_decide (usb_paths = []) || (2 <? zlen usb_paths)
  then Some (failure INVALID_ARGUMENT)
  else
    match resolve_paths grouping usb_paths with
    | None => None
    | Some (failure e) => Some (failure e)
    | Some (success found) => Some (select_resolved grouping serial found)
    end.

(** * Lemmas *)

(** ** Keys *)

Lemma profiles_consistent :
  Forall (fun p => device_profile (profile_model p) = p /\ (bridge_count p = 1 \/ bridge_count p = 2)) kDeviceProfiles.
Proof.
  repeat (apply Forall_cons; split; [split; [reflexivity|first [left; reflexivity|right; reflexivity]]|]). constructor.
Qed.

Lemma find_profile vendor product p :
  device_profile_for_usb_id vendor product = Some p ->
  device_profile (profile_model p) = p /\ (bridge_count p = 1 \/ bridge_count p = 2).
Proof.
  unfold device_profile_for_usb_id. destruct (negb _); [done|]. intros F. apply find_some in F as [I _].
  apply list_elem_of_In in I. exact (proj1 (Forall_forall _ _) profiles_consistent p I).
Qed.

Lemma parse_serial_slot l s : parse_q3u4_serial l = success s -> dev_id s = 1 \/ dev_id s = 2.
Proof.
  unfold parse_q3u4_serial. destruct (negb (zlen l =? 15)); [done|]. destruct (negb (all_digits l)); [done|]. cbv zeta.
  destruct (Z.eqb_spec (byte_at l (zlen l - 1)) 49) as [E1|N1].
  - cbn [negb andb]. intros E. injection E as <-. cbn. rewrite E1. by left.
  - destruct (Z.eqb_spec (byte_at l (zlen l - 1)) 50) as [E2|N2]; [|done].
    cbn [negb andb]. intros E. injection E as <-. cbn. rewrite E2. by right.
Qed.

Lemma key_slot_range o k :
  group_key o = success k -> 0 <= key_slot k < bridge_count (device_profile (key_model k)) /\
    bridge_count (device_profile (key_model k)) <= 2.
Proof.
  unfold group_key. destruct (device_profile_for_usb_id _ _) as [p|] eqn:F; [|done].
  apply find_profile in F as [P B]. destruct (Z.eqb_spec (bridge_count p) 2) as [B2|N2].
  - destruct (parse_q3u4_serial (serial o)) as [s|e] eqn:S; [|done]. intros E. injection E as <-. cbn [key_slot key_model]. rewrite P.
    apply parse_serial_slot in S as [-> | ->]; lia.
  - destruct (_ || _); [done|]. intros E. injection E as <-. cbn [key_slot key_model]. rewrite P. lia.
Qed.

Lemma refused_key o : refused o = false -> exists k, group_key o = success k.
Proof.
  unfold refused, validate_q3u4_observation. intros R. apply orb_false_iff in R as [R1 R2].
  apply bool_decide_eq_false in R1, R2. destruct (device_profile_for_usb_id _ _); [|done].
  destruct (group_key o) as [k|]; [by exists k|done].
Qed.

(** ** Groups *)

Definition belongs_to (g : Q3U4Group) (c : Candidate) : Prop :=
  exists k, group_key (candidate_observation c) = success k /\ key_serial k = base_serial g /\ key_model k = model g /\
    candidate_device c = key_slot k + 1.

(** The slot of a candidate is filled with it. *)
Definition fills (g : Q3U4Group) (c : Candidate) : Prop :=
  devices g !! Z.to_nat (candidate_device c - 1) = Some (Some (candidate_observation c)) /\
  candidate_indices g !! Z.to_nat (candidate_device c - 1) = Some (Some (observation_index c)).

Record group_ok (g : Q3U4Group) : Prop := {
  ok_devices : length (devices g) = 2%nat;
  ok_indices : length (candidate_indices g) = 2%nat;
  ok_candidates : Forall (belongs_to g) (candidates g);
  ok_filled : forall slot o, devices g !! slot = Some (Some o) ->
    exists c, c ∈ candidates g /\ candidate_observation c = o /\ candidate_device c = Z.of_nat slot + 1 /\ fills g c;
  ok_status : status g = incomplete \/ status g = duplicate \/ status g = invalid_observation;
  ok_clear : status g = incomplete ->
    Forall (fun c => validate_q3u4_observation (candidate_observation c) = usable /\ fills g c) (candidates g) /\
    NoDup (candidate_device <$> candidates g);
  ok_duplicate : status g = duplicate -> ~ NoDup (candidate_device <$> candidates g);
  ok_invalid : status g = invalid_observation ->
    ~ Forall (fun c => validate_q3u4_observation (candidate_observation c) = usable) (candidates g);
}.

Lemma new_group_ok serial m : group_ok (new_group serial m).
Proof.
  split; cbn; try done.
  - by intros [|[|slot]] o E.
  - by left.
  - intros _. split; [done|]. constructor.
Qed.

Lemma occupied_spec g slot : occupied g slot = true <-> exists o, devices g !! Z.to_nat slot = Some (Some o).
Proof.
  unfold occupied. destruct (devices g !! Z.to_nat slot) as [[o|]|]; split; try done; [by exists o|by intros [? ?]..].
Qed.

(** The group's own key is also the key of the observation that joins. *)
Lemma join_group_ok index o k g :
  group_key o = success k -> base_serial g = key_serial k -> model g = key_model k -> group_ok g ->
  group_ok (join_group index o (key_slot k) g).
Proof.
  intros K Bs Bm G. pose proof (key_slot_range o k K) as [Hs Hb].
  set (c := {| observation_index := index; candidate_device := cast_u8 (key_slot k + 1); candidate_observation := o |}).
  assert (candidate_device c = key_slot k + 1) as Dc by (cbn; unfold cast_u8; apply Z.mod_small; lia).
  assert (Forall (belongs_to g) (candidates g ++ [c])) as Cs.
  { apply Forall_app. split; [apply G|]. apply Forall_singleton. exists k. cbn. rewrite Bs, Bm. done. }
  assert (c ∈ candidates g ++ [c]) as Ic by (apply elem_of_app; right; by apply list_elem_of_singleton).
  unfold join_group. fold c. cbv zeta. destruct (occupied (add_candidate g c) (key_slot k)) eqn:Oc.
  - (* a second device in the slot *)
    change (status (with_status (add_candidate g c) duplicate)) with duplicate.
    rewrite (bool_decide_true (duplicate = duplicate)), andb_false_r by done.
    split; cbn; try apply G; try done; [|by auto|].
    2: { intros _. apply occupied_spec in Oc as [o' E]. destruct (ok_filled _ G _ o' E) as (c' & I & _ & D & _).
         rewrite fmap_app, NoDup_app. intros (_ & N & _). apply (N (candidate_device c')).
         - by apply list_elem_of_fmap_2.
         - apply list_elem_of_singleton. rewrite D, Dc. lia. }
    intros slot o' E. destruct (ok_filled _ G slot o' E) as (c' & I & O & D & F).
    exists c'. split; [apply elem_of_app; by left|done].
  - (* the slot was free *)
    assert (forall o', devices g !! Z.to_nat (key_slot k) <> Some (Some o')) as Free.
    { intros o' E. assert (occupied (add_candidate g c) (key_slot k) = true); [|congruence].
      apply occupied_spec. by exists o'. }
    set (g' := fill_slot (add_candidate g c) (key_slot k) index o).
    assert (fills g' c) as Fc.
    { unfold fills. rewrite Dc. replace (key_slot k + 1 - 1) with (key_slot k) by lia. cbn.
      rewrite !list_lookup_insert_eq; [done|rewrite (ok_indices _ G)|rewrite (ok_devices _ G)]; lia. }
    assert (forall c', fills g c' -> fills g' c') as Keep.
    { intros c' [F1 F2]. assert (Z.to_nat (candidate_device c' - 1) <> Z.to_nat (key_slot k)) as N.
      { intros E. rewrite E in F1. by apply Free in F1. }
      split; cbn; by rewrite list_lookup_insert_ne. }
    assert (forall slot o', devices g' !! slot = Some (Some o') ->
      exists c, c ∈ candidates g' /\ candidate_observation c = o' /\ candidate_device c = Z.of_nat slot + 1 /\ fills g' c) as Fl.
    { intros slot o' E. cbn in E. destruct (decide (slot = Z.to_nat (key_slot k))) as [->|N].
      + rewrite list_lookup_insert_eq in E by (rewrite (ok_devices _ G); lia). injection E as <-.
        exists c. split; [done|]. split; [done|]. split; [rewrite Dc; lia|done].
      + rewrite list_lookup_insert_ne in E by done. destruct (ok_filled _ G slot o' E) as (c' & I & O & D & F).
        exists c'. split; [apply elem_of_app; by left|]. split; [done|]. split; [done|]. by apply Keep. }
    destruct (bool_decide (validate_q3u4_observation o = usable)) eqn:U; cbn [negb andb].
    + (* a usable one *)
      apply bool_decide_eq_true in U.
      split; cbn; try apply G; try done; try by rewrite length_insert, ?(ok_devices _ G), ?(ok_indices _ G).
      2: { intros D N. rewrite fmap_app in N. apply NoDup_app in N as [N _]. by apply (ok_duplicate _ G D). }
      2: { intros I N. apply Forall_app in N as [N _]. by apply (ok_invalid _ G I). }
      intros Inc. destruct (ok_clear _ G Inc) as [V ND]. split.
      * apply Forall_app. split; [|by apply Forall_singleton].
        eapply Forall_impl; [exact V|]. intros c' [V' F']. split; [done|]. by apply Keep.
      * rewrite fmap_app. apply NoDup_app. split; [done|]. split; [|apply NoDup_singleton].
        intros d I I'. apply list_elem_of_singleton in I'. subst d. apply list_elem_of_fmap in I as (c' & E & I).
        rewrite Forall_forall in V. destruct (V c' I) as [_ [F _]].
        rewrite <- E, Dc in F. replace (key_slot k + 1 - 1) with (key_slot k) in F by lia. by apply Free in F.
    + (* one that cannot be used *)
      destruct (bool_decide (status g' = duplicate)) eqn:Dup; cbn [negb].
      * apply bool_decide_eq_true in Dup. change (status g') with (status g) in Dup.
        split; cbn; try apply G; try done; try by rewrite length_insert, ?(ok_devices _ G), ?(ok_indices _ G).
        -- by rewrite Dup.
        -- intros D N. rewrite fmap_app in N. apply NoDup_app in N as [N _]. by apply (ok_duplicate _ G D).
        -- by rewrite Dup.
      * split; cbn; try apply G; try done; try by rewrite length_insert, ?(ok_devices _ G), ?(ok_indices _ G).
        { by auto. }
        intros _ N. apply Forall_app in N as [_ N]. apply Forall_cons in N as [N _].
        apply bool_decide_eq_false in U. exact (U N).
Qed.

(** ** The list of groups *)

Definition entries (g : Q3U4Group) : list (Z * DeviceObservation) :=
  (fun c => (observation_index c, candidate_observation c)) <$> candidates g.

Lemma join_group_entries index o slot g :
  entries (join_group index o slot g) = entries g ++ [(index, o)] /\
  base_serial (join_group index o slot g) = base_serial g /\ model (join_group index o slot g) = model g.
Proof.
  unfold join_group. cbv zeta. destruct (occupied _ _), (_ && _); cbn; unfold entries; cbn; by rewrite fmap_app.
Qed.

(** The fold keeps groups well-formed and counts every observation once. *)
Lemma update_group_spec (P : Q3U4Group -> Prop) belongs join fresh groups e :
  (forall g, entries (join g) = entries g ++ [e]) -> entries fresh = [] ->
  (forall g, P g -> belongs g = true -> P (join g)) -> P (join fresh) -> Forall P groups ->
  Forall P (update_group belongs join fresh groups) /\
  (update_group belongs join fresh groups ≫= entries) ≡ₚ e :: (groups ≫= entries).
Proof.
  intros E F J PF. induction groups as [|g groups IH]; intros G.
  - cbn [update_group]. split; [by apply Forall_singleton|]. rewrite bind_cons, E, F. by rewrite app_nil_r.
  - apply Forall_cons in G as [Pg G]. cbn [update_group]. destruct (belongs g) eqn:B.
    + split; [by apply Forall_cons; split; [apply J|]|]. rewrite !bind_cons, E.
      rewrite <- app_assoc. cbn [app]. by rewrite <- Permutation_middle.
    + destruct (IH G) as [IH1 IH2]. split; [by apply Forall_cons|]. rewrite !bind_cons, IH2.
      by rewrite <- Permutation_middle.
Qed.

Lemma add_observations_spec l groups :
  Forall (fun e => refused e.2 = false) l ->
  Forall (fun g => group_ok g /\ candidates g <> []) groups ->
  exists groups', add_observations groups l = success groups' /\
    Forall (fun g => group_ok g /\ candidates g <> []) groups' /\
    (groups' ≫= entries) ≡ₚ l ++ (groups ≫= entries).
Proof.
  revert groups. induction l as [|[index o] l IH]; intros groups R G; [by exists groups|].
  apply Forall_cons in R as [R Rl]. cbn [snd] in R. apply refused_key in R as [k K].
  cbn [add_observations]. unfold add_observation. cbn [fst snd]. rewrite K. cbn [mbind Result_bind].
  destruct (update_group_spec (fun g => group_ok g /\ candidates g <> []) (same_enclosure k) (join_group index o (key_slot k))
    (new_group (key_serial k) (key_model k)) groups (index, o)) as [U1 U2]; try done.
  - intros g. apply join_group_entries.
  - intros g [Gk _] S. unfold same_enclosure in S. bool_hyps.
    destruct (join_group_entries index o (key_slot k) g) as (Je & _ & _).
    split; [apply join_group_ok; try done; by eapply bool_decide_eq_true_1|].
    intros N. unfold entries in Je. rewrite N in Je. by destruct (candidates g).
  - destruct (join_group_entries index o (key_slot k) (new_group (key_serial k) (key_model k))) as (Je & _ & _).
    split; [by apply join_group_ok, new_group_ok|].
    intros N. unfold entries in Je. rewrite N in Je. done.
  - destruct (IH _ Rl U1) as (groups' & E & G' & P). exists groups'. split; [exact E|]. split; [done|].
    rewrite P, U2. by rewrite <- Permutation_middle.
Qed.

Lemma settle_fields g :
  entries (settle g) = entries g /\ candidates (settle g) = candidates g /\ base_serial (settle g) = base_serial g /\
  model (settle g) = model g /\ devices (settle g) = devices g /\ candidate_indices (settle g) = candidate_indices g.
Proof. unfold settle. by destruct (_ || _). Qed.

(** One usable device in every slot. *)
Definition complete_set (g : Q3U4Group) : Prop :=
  Forall (fun c => validate_q3u4_observation (candidate_observation c) = usable) (candidates g) /\
  (candidate_device <$> candidates g) ≡ₚ seqZ 1 (bridge_count (device_profile (model g))).

Lemma candidate_range g c :
  group_ok g -> c ∈ candidates g -> 1 <= candidate_device c <= bridge_count (device_profile (model g)).
Proof.
  intros G I. pose proof (proj1 (Forall_forall _ _) (ok_candidates _ G) c I) as (k & K & _ & M & D).
  apply key_slot_range in K as [K _]. rewrite <- M, D. lia.
Qed.

Lemma settle_ready g : group_ok g -> status (settle g) = ready <-> complete_set g.
Proof.
  intros G. unfold settle, complete_set. set (n := bridge_count (device_profile (model g))).
  destruct (ok_status _ G) as [S|[S|S]]; rewrite S.
  - rewrite !bool_decide_false by done. cbn [orb with_status status].
    destruct (ok_clear _ G S) as [V ND].
    assert (forall slot, 0 <= slot < n -> occupied g slot = true <-> slot + 1 ∈ candidate_device <$> candidates g) as O.
    { intros slot Hs. rewrite occupied_spec. split.
      - intros [o E]. destruct (ok_filled _ G _ o E) as (c & I & _ & D & _). apply list_elem_of_fmap. exists c.
        split; [rewrite D; lia|done].
      - intros I. apply list_elem_of_fmap in I as (c & D & I). rewrite Forall_forall in V.
        destruct (V c I) as [_ [F _]]. exists (candidate_observation c). rewrite <- F. f_equal. lia. }
    assert (forallb (occupied g) (seqZ 0 n) = true <-> (candidate_device <$> candidates g) ≡ₚ seqZ 1 n) as C.
    { rewrite forallb_Forall, Forall_seqZ. split.
      - intros A. apply NoDup_Permutation; [done|apply NoDup_seqZ|]. intros d. rewrite elem_of_seqZ. split.
        + intros I. apply list_elem_of_fmap in I as (c & -> & I). pose proof (candidate_range g c G I). fold n in H. lia.
        + intros Hd. replace d with ((d - 1) + 1) by lia. apply O; [lia|]. apply A. lia.
      - intros P slot Hs. apply O; [lia|]. rewrite P. apply elem_of_seqZ. lia. }
    destruct (forallb _ _); split; try done.
    + intros _. split; [|by apply C]. eapply Forall_impl; [exact V|]. by intros c [? _].
    + intros [_ P]. by apply C in P.
  - rewrite bool_decide_true by done. cbn [orb]. rewrite S. split; [done|]. intros [_ P].
    exfalso. apply (ok_duplicate _ G S). rewrite P. apply NoDup_seqZ.
  - rewrite (bool_decide_true (invalid_observation = invalid_observation)), orb_true_r by done. rewrite S.
    split; [done|]. intros [V _]. by apply (ok_invalid _ G S) in V.
Qed.

Lemma indexed_lookup observations i o :
  (i, o) ∈ indexed observations -> 0 <= i /\ observations !! Z.to_nat i = Some o.
Proof.
  unfold indexed. intros I. apply list_elem_of_lookup in I as [n E].
  apply lookup_zip_with_Some in E as (j & o' & E & Ej & Eo). injection E as -> ->.
  apply lookup_seqZ in Ej as [-> Hj]. split; [lia|]. by rewrite Z.add_0_l, Nat2Z.id.
Qed.

Section Sorted.
Variable sort : forall {A : Type}, (A -> A -> bool) -> list A -> list A.
Hypothesis sort_permutes : forall A (less : A -> A -> bool) l, sort less l ≡ₚ l.

(** The groups come from well-formed ones by settling their status. *)
Lemma grouping_spec observations :
  exists r gs, group_q3u4_devices (@sort) observations = success r /\
    rejected_observation <$> rejected r = List.filter refused observations /\
    groups r ≡ₚ settle <$> gs /\ Forall (fun g => group_ok g /\ candidates g <> []) gs /\
    (groups r ≫= entries) ≡ₚ List.filter (fun e => negb (refused e.2)) (indexed observations).
Proof.
  unfold group_q3u4_devices. cbv zeta.
  set (l := sort (fun l r : Z * DeviceObservation => observation_less l.2 r.2) _).
  assert (l ≡ₚ List.filter (fun e => negb (refused e.2)) (indexed observations)) as Pl by apply sort_permutes.
  destruct (add_observations_spec l []) as (gs & E & G & P); [|constructor|].
  { rewrite Pl. apply Forall_forall. intros e I. apply list_elem_of_In, filter_In in I as [_ I]. by apply negb_true_iff. }
  rewrite E. cbn [mbind Result_bind]. eexists _, gs. split; [done|]. cbn [rejected groups].
  split; [|split; [|split]].
  - rewrite <- list_fmap_compose. rewrite list_fmap_id. done.
  - apply sort_permutes.
  - done.
  - rewrite sort_permutes. rewrite <- Pl, <- (app_nil_r l), <- P.
    clear. induction gs as [|g gs IH]; [done|]. rewrite fmap_cons, !bind_cons, IH. f_equiv.
    by rewrite (proj1 (settle_fields g)).
Qed.

(** Grouping accounts for every observation exactly once: those of unknown models
    or with unusable serial numbers are rejected, in order, and every other one
    is a candidate of exactly one group; a group only has candidates of its own
    serial number and model, and it is ready exactly when it has one usable
    device for each bridge of the enclosure and nothing else. *)
Theorem grouping_sound observations :
  exists r, group_q3u4_devices (@sort) observations = success r /\
    rejected_observation <$> rejected r = List.filter refused observations /\
    (groups r ≫= entries) ≡ₚ List.filter (fun e => negb (refused e.2)) (indexed observations) /\
    Forall (fun g => candidates g <> [] /\ Forall (belongs_to g) (candidates g) /\
      (status g = ready <-> complete_set g)) (groups r).
Proof.
  destruct (grouping_spec observations) as (r & gs & E & R & P & G & I). exists r. split; [done|]. split; [done|].
  split; [done|]. rewrite P. apply Forall_fmap. eapply Forall_impl; [exact G|]. intros g [Og N]. cbn.
  destruct (settle_fields g) as (_ & C & Bs & M & D & _). rewrite C. split; [done|]. split.
  - eapply Forall_impl; [apply Og|]. intros c (k & B). exists k. by rewrite Bs, M.
  - unfold complete_set. rewrite C, M. by apply settle_ready.
Qed.

(** A device that has been selected: usable, for that slot of that enclosure. *)
Definition serves (observations : list DeviceObservation) (g : Q3U4Group) (slot index : Z) : Prop :=
  exists o, observations !! Z.to_nat index = Some o /\ validate_q3u4_observation o = usable /\
    group_key o = success {| key_serial := base_serial g; key_slot := slot; key_model := model g |}.

Lemma candidate_serves observations r gs g0 c :
  group_q3u4_devices (@sort) observations = success r ->
  (groups r ≫= entries) ≡ₚ List.filter (fun e => negb (refused e.2)) (indexed observations) ->
  groups r ≡ₚ settle <$> gs -> g0 ∈ gs -> group_ok g0 -> c ∈ candidates g0 ->
  validate_q3u4_observation (candidate_observation c) = usable ->
  serves observations (settle g0) (candidate_device c - 1) (observation_index c).
Proof.
  intros E I P Ig G Ic U. exists (candidate_observation c).
  assert ((observation_index c, candidate_observation c) ∈ groups r ≫= entries) as In.
  { apply list_elem_of_bind. exists (settle g0). split.
    - rewrite (proj1 (settle_fields g0)). apply list_elem_of_fmap. by exists c.
    - rewrite P. by apply list_elem_of_fmap_2. }
  rewrite I in In. apply list_elem_of_In, filter_In in In as [In _]. apply list_elem_of_In, indexed_lookup in In as [_ L].
  split; [done|]. split; [done|].
  pose proof (proj1 (Forall_forall _ _) (ok_candidates _ G) c Ic) as (k & K & Ks & Km & D).
  destruct (settle_fields g0) as (_ & _ & -> & -> & _). rewrite K, D, <- Ks, <- Km.
  replace (key_slot k + 1 - 1) with (key_slot k) by lia. by destruct k.
Qed.
End Sorted.

(** ** Selection *)

Lemma filter_singleton {A} (P : A -> bool) (l : list A) x :
  NoDup l -> List.filter P l = [x] <-> x ∈ l /\ P x = true /\ forall y, y ∈ l -> P y = true -> y = x.
Proof.
  intros ND. assert (forall y, y ∈ List.filter P l <-> y ∈ l /\ P y = true) as F.
  { intros y. rewrite !list_elem_of_In. apply filter_In. }
  split.
  - intros E. rewrite E in F. assert (x ∈ l /\ P x = true) as [Ix Px] by by apply F, list_elem_of_singleton.
    split; [done|]. split; [done|]. intros y Iy Py. by apply list_elem_of_singleton, F.
  - intros (Ix & Px & U). apply Permutation_singleton_r. symmetry. apply NoDup_Permutation.
    + apply NoDup_singleton.
    + apply NoDup_ListNoDup, List.NoDup_filter. by apply NoDup_ListNoDup.
    + intros y. rewrite F, list_elem_of_singleton. split; [by intros ->|]. intros [Iy Py]. by apply U.
Qed.

Definition named (serial : list Z) : bool := negb (bool_decide (serial = [])).
(** The groups the loop counts. *)
Definition is_ready (e : Z * Q3U4Group) : bool := bool_decide (status e.2 = ready).
Definition has_serial (serial : list Z) (e : Z * Q3U4Group) : bool := bool_decide (base_serial e.2 = serial).

Lemma count_groups_spec serial l c :
  let r := foldl (count_group serial) c l in
  ready_count r = ready_count c + zlen (List.filter is_ready l) /\
  matching_count r = matching_count c + zlen (List.filter (fun e => named serial && has_serial serial e) l) /\
  matching_ready_count r = matching_ready_count c + zlen (List.filter (fun e => named serial && has_serial serial e && is_ready e) l) /\
  selected_index r = List.last (selected_index c :: map fst (List.filter (fun e => is_ready e && (negb (named serial) || has_serial serial e)) l)) 0.
Proof.
  revert c. induction l as [|[i g] l IH]; intros c.
  { repeat split; cbn [foldl List.filter map List.last]; rewrite ?zlen_nil; lia. }
  cbn [foldl]. cbv zeta in *.
  destruct (IH (count_group serial c (i, g))) as (-> & -> & -> & ->). clear IH.
  unfold count_group. cbn [ready_count matching_count matching_ready_count selected_index List.filter].
  change (bool_decide (status g = ready)) with (is_ready (i, g)).
  change (bool_decide (base_serial g = serial)) with (has_serial serial (i, g)). fold (named serial).
  destruct (is_ready (i, g)), (has_serial serial (i, g)), (named serial); cbn [andb orb negb]; rewrite ?zlen_cons;
    repeat split; try lia; cbn [map fst List.last]; by destruct (map fst _).
Qed.

Lemma indices_nodup {A} (l : list A) k n : NoDup (zip (seqZ k n) l).
Proof.
  apply (NoDup_fmap_1 fst). generalize (NoDup_seqZ k n). generalize (seqZ k n). clear.
  intros l' ND. revert l. induction ND as [|x l' N ND IH]; intros l; [constructor|].
  destruct l as [|a l]; [constructor|]. cbn. constructor; [|apply IH].
  intros I. apply N. apply list_elem_of_fmap in I as ([y b] & E & I). cbn in E. subst y.
  apply list_elem_of_lookup in I as [j I]. apply lookup_zip_with_Some in I as (y & b' & E & I & _).
  injection E as -> ->. by eapply list_elem_of_lookup_2.
Qed.

Lemma in_indexed {A} (l : list A) i a :
  (i, a) ∈ zip (seqZ 0 (zlen l)) l <-> 0 <= i /\ l !! Z.to_nat i = Some a.
Proof.
  split.
  - intros I. apply list_elem_of_lookup in I as [n E].
    apply lookup_zip_with_Some in E as (j & o' & E & Ej & Eo). injection E as -> ->.
    apply lookup_seqZ in Ej as [-> Hj]. split; [lia|]. by rewrite Z.add_0_l, Nat2Z.id.
  - intros [Hi E]. apply list_elem_of_lookup. exists (Z.to_nat i). apply lookup_zip_with_Some.
    exists i, a. split; [done|]. split; [|done]. apply lookup_lt_Some in E. rewrite lookup_seqZ_lt by (unfold zlen; lia).
    f_equal. lia.
Qed.

(** The group a call of [select_ready_q3u4_group] may return. *)
Definition the_ready_group (l : list Q3U4Group) (serial : list Z) (i : Z) : Prop :=
  0 <= i /\ exists g, l !! Z.to_nat i = Some g /\ status g = ready /\ (serial <> [] -> base_serial g = serial) /\
    forall j g', 0 <= j -> l !! Z.to_nat j = Some g' ->
      (if named serial then base_serial g' = serial else status g' = ready) -> j = i.

Lemma zlen_one {A} (l : list A) : zlen l = 1 <-> exists a, l = [a].
Proof.
  split.
  - destruct l as [|a [|b l]]; [done|by exists a|]. rewrite !zlen_cons. pose proof (zlen_nonneg l). lia.
  - by intros [a ->].
Qed.

(** The selection by serial number succeeds exactly when one group answers to
    it, and that group is ready; without a serial number, exactly when one group
    is ready.  Nothing is chosen between two candidates. *)
Theorem select_ready_correct grouping serial i :
  select_ready_q3u4_group grouping serial = success i <->
  (serial = [] \/ valid_device_instance serial = true) /\ the_ready_group (groups grouping) serial i.
Proof.
  unfold select_ready_q3u4_group, the_ready_group. fold (named serial). cbv zeta.
  set (l := zip _ _). assert (forall j g, (j, g) ∈ l <-> 0 <= j /\ groups grouping !! Z.to_nat j = Some g) as Il
    by (intros; apply in_indexed). assert (NoDup l) as ND by apply indices_nodup. clearbody l.
  destruct (count_groups_spec serial l {| ready_count := 0; matching_count := 0; matching_ready_count := 0; selected_index := 0 |})
    as (-> & -> & -> & ->). cbn [ready_count matching_count matching_ready_count selected_index].
  destruct (decide (serial = [])) as [->|Ns].
  - change (named []) with false. cbn [andb negb orb].
    assert (forall e : Z * Q3U4Group, is_ready e && true = is_ready e) as T by (intros; apply andb_true_r).
    rewrite (filter_ext _ _ T). rewrite Z.add_0_l.
    destruct (Z.eqb_spec (zlen (List.filter is_ready l)) 1) as [E|N].
    + apply zlen_one in E as [[i' g] E]. rewrite E. cbn. apply filter_singleton in E as (Ie & R & U); [|done].
      apply Il in Ie as [Hi Lg]. apply bool_decide_eq_true in R. cbn in R.
      split.
      * intros Ei. injection Ei as <-. split; [by left|]. split; [done|]. exists g. split; [done|]. split; [done|]. split; [done|].
        intros j g' Hj Lj Rj. assert ((j, g') = (i', g)) as Ej; [|by injection Ej].
        apply U; [by apply Il|]. by apply bool_decide_eq_true.
      * intros (_ & Hi' & g' & Lg' & R' & _ & _). assert ((i, g') = (i', g)) as Ej; [|by injection Ej as -> _].
        apply U; [by apply Il|]. by apply bool_decide_eq_true.
    + split; [by destruct (_ =? 0)|]. intros (_ & Hi & g & Lg & R & _ & U). exfalso. apply N, zlen_one.
      exists (i, g). apply filter_singleton; [done|]. split; [by apply Il|]. split; [by apply bool_decide_eq_true|].
      intros [j g'] Ij Rj. apply Il in Ij as [Hj Lj]. apply bool_decide_eq_true in Rj.
      assert (j = i) as -> by by apply (U j g'). congruence.
  - assert (named serial = true) as Nm by (unfold named; by rewrite bool_decide_false). rewrite Nm. cbn [andb negb orb].
    destruct (valid_device_instance serial) eqn:V; cbn [negb]; [|by split; [|intros [[?|?] _]]].
    assert (forall e : Z * Q3U4Group, is_ready e && has_serial serial e = has_serial serial e && is_ready e) as T
      by (intros; apply andb_comm). rewrite (filter_ext _ _ T). rewrite !Z.add_0_l.
    change (List.filter (fun e => has_serial serial e) l) with (List.filter (has_serial serial) l).
    destruct (Z.eqb_spec (zlen (List.filter (has_serial serial) l)) 1) as [E|N].
    + rewrite E. cbn [Z.eqb Pos.eqb andb]. apply zlen_one in E as [[i' g] E].
      assert (List.filter (fun e => has_serial serial e && is_ready e) l = if is_ready (i', g) then [(i', g)] else []) as ->.
      { transitivity (List.filter is_ready (List.filter (has_serial serial) l)).
        - clear. induction l as [|e l IH]; [done|]. cbn. destruct (has_serial serial e); cbn; [|done].
          destruct (is_ready e); by rewrite IH.
        - rewrite E. cbn. by destruct (is_ready _). }
      apply filter_singleton in E as (Ie & S & U); [|done].
      apply Il in Ie as [Hi Lg]. apply bool_decide_eq_true in S. cbn in S.
      destruct (is_ready (i', g)) eqn:R; cbn.
      * apply bool_decide_eq_true in R. cbn in R. split.
        -- intros Ei. injection Ei as <-. split; [by right|]. split; [done|]. exists g. split; [done|]. split; [done|]. split; [done|].
           intros j g' Hj Lj Rj. assert ((j, g') = (i', g)) as Ej; [|by injection Ej].
           apply U; [by apply Il|]. by apply bool_decide_eq_true.
        -- intros (_ & Hi' & g' & Lg' & R' & S' & _). assert ((i, g') = (i', g)) as Ej; [|by injection Ej as -> _].
           apply U; [by apply Il|]. by apply bool_decide_eq_true, S'.
      * split; [done|]. intros (_ & Hi' & g' & Lg' & R' & S' & _). apply bool_decide_eq_false in R. cbn in R.
        exfalso. assert ((i, g') = (i', g)) as Ej; [|injection Ej as _ ->; by apply R]. apply U; [by apply Il|]. by apply bool_decide_eq_true, S'.
    + split; [by destruct (_ =? 0)|]. intros (_ & Hi & g & Lg & R & S & U). exfalso. apply N, zlen_one.
      exists (i, g). apply filter_singleton; [done|]. split; [by apply Il|]. split; [by apply bool_decide_eq_true, S|].
      intros [j g'] Ij Rj. apply Il in Ij as [Hj Lj]. apply bool_decide_eq_true in Rj.
      assert (j = i) as -> by by apply (U j g'). congruence.
Qed.

(** ** USB paths *)

Definition print_byte (b : Z) : list Z :=
  (if 100 <=? b then [48 + b / 100] else []) ++ (if 10 <=? b then [48 + b / 10 mod 10] else []) ++ [48 + b mod 10].
Fixpoint print_ports (ports : list Z) : list Z :=
  match ports with
  | [] => []
  | [p] => print_byte p
  | p :: ports => print_byte p ++ [46] ++ print_ports ports
  end.
(** [bus:address] or [bus-port.port...], as the options take them. *)
Definition print_usb_path (p : ParsedUsbPath) : list Z :=
  print_byte (path_bus p) ++
  (if by_address p then [58] ++ print_byte (path_address p) else [45] ++ print_ports (path_ports p)).

Definition path_byte (b : Z) : Prop := 1 <= b <= 255.
Definition path_ok (p : ParsedUsbPath) : Prop :=
  path_byte (path_bus p) /\
  if by_address p then path_byte (path_address p) /\ path_ports p = []
  else path_address p = 0 /\ 1 <= zlen (path_ports p) <= 8 /\ Forall path_byte (path_ports p).

Lemma parse_byte_table :
  Forall (fun b => parse_byte (print_byte b) = Some b /\ forallb is_digit (print_byte b) = true /\ print_byte b <> []) (seqZ 1 255).
Proof.
  apply Forall_forall. intros b I.
  assert (forallb (fun b => bool_decide (parse_byte (print_byte b) = Some b) && forallb is_digit (print_byte b)
    && negb (bool_decide (print_byte b = []))) (seqZ 1 255) = true) as T by (vm_compute; reflexivity).
  rewrite forallb_forall in T. apply list_elem_of_In in I. specialize (T b I). bool_hyps.
  split; [by eapply bool_decide_eq_true_1|]. split; [done|]. by eapply bool_decide_eq_false_1.
Qed.

Lemma parse_print_byte b :
  path_byte b -> parse_byte (print_byte b) = Some b /\ forallb is_digit (print_byte b) = true /\ print_byte b <> [].
Proof.
  intros Hb. pose proof parse_byte_table as T. rewrite Forall_forall in T. apply T. apply elem_of_seqZ.
  unfold path_byte in Hb. lia.
Qed.

Lemma split_at_digits (stop : Z -> bool) l t :
  (forall c, is_digit c = true -> stop c = false) -> forallb is_digit l = true ->
  split_at stop (l ++ t) = (l ++ (split_at stop t).1, (split_at stop t).2).
Proof.
  intros S. induction l as [|c l IH]; intros D; cbn [app].
  - by destruct (split_at stop t).
  - cbn [forallb] in D. bool_hyps. cbn [split_at]. rewrite S by done. by rewrite IH.
Qed.

Lemma digit_no_dot c : is_digit c = true -> Z.eqb 46 c = false.
Proof. unfold is_digit. intros D. bool_hyps. lia. Qed.

Lemma parse_print_ports fuel ports acc :
  ports <> [] -> Forall path_byte ports -> zlen acc + zlen ports <= 8 -> (length ports <= fuel)%nat ->
  parse_ports fuel (print_ports ports) acc = Some (success (acc ++ ports)).
Proof.
  revert fuel acc. induction ports as [|p ports IH]; intros fuel acc N F L Hf; [done|].
  apply Forall_cons in F as [Hp F]. destruct (parse_print_byte p Hp) as (P & D & NE). rewrite zlen_cons in L.
  destruct fuel as [|fuel]; [simpl in Hf; lia|].
  assert ((zlen acc =? 8) = false) as A8 by (pose proof (zlen_nonneg ports); lia).
  destruct ports as [|q ports].
  - cbn [print_ports]. destruct (print_byte p) as [|c t] eqn:E; [done|]. rewrite <- E in *. cbn [parse_ports].
    rewrite <- (app_nil_r (print_byte p)), (split_at_digits _ _ _ digit_no_dot D). cbn [split_at fst snd].
    rewrite app_nil_r, A8, P. rewrite E at 1. done.
  - assert (print_ports (p :: q :: ports) = print_byte p ++ [46] ++ print_ports (q :: ports)) as -> by done.
    set (rest := print_ports (q :: ports)).
    destruct (print_byte p) as [|c t] eqn:E; [done|].
    cbn [app parse_ports]. change (c :: t ++ 46 :: rest) with ((c :: t) ++ 46 :: rest).
    rewrite (split_at_digits _ _ _ digit_no_dot D). cbn [split_at Z.eqb Pos.eqb fst snd]. rewrite app_nil_r, A8, P.
    unfold rest. rewrite IH; [by rewrite <- app_assoc|done|done| |simpl in Hf |- *; lia].
    rewrite zlen_app. change (zlen [p]) with 1. lia.
Qed.

Lemma print_ports_length ports : Forall path_byte ports -> (length ports <= length (print_ports ports))%nat.
Proof.
  induction 1 as [|p ports Hp F IH]; [done|]. destruct (parse_print_byte p Hp) as (_ & _ & NE).
  destruct ports as [|q ports]; [simpl; by destruct (print_byte p); simpl; [|lia]|].
  change (print_ports (p :: q :: ports)) with (print_byte p ++ [46] ++ print_ports (q :: ports)).
  rewrite !length_app. simpl in IH |- *. lia.
Qed.

(** Every path a user can write for a location is read back as that location. *)
Theorem usb_path_roundtrip p : path_ok p -> parse_usb_path (print_usb_path p) = Some (success p).
Proof.
  destruct p as [bus address by_addr ports]. intros [Hb Hr]. cbn [path_bus path_address by_address path_ports] in *.
  destruct (parse_print_byte bus Hb) as (P & D & NE).
  assert (forall c, is_digit c = true -> ((c =? 58) || (c =? 45)) = false) as Stop
    by (unfold is_digit; intros c Dc; bool_hyps; lia).
  unfold parse_usb_path, print_usb_path. cbn [path_bus path_address by_address path_ports].
  rewrite (split_at_digits _ _ _ Stop D).
  destruct (print_byte bus) as [|c t] eqn:E; [done|].
  destruct by_addr; cbn [app split_at Z.eqb Pos.eqb orb fst snd]; rewrite app_nil_r.
  - destruct Hr as [Ha ->]. destruct (parse_print_byte address Ha) as (Pa & _ & Na).
    destruct (print_byte address) as [|c' t'] eqn:Ea; [done|]. by rewrite P, Pa.
  - destruct Hr as (-> & [L1 L8] & F). pose proof (print_ports_length ports F) as Ln.
    assert (ports <> []) as Np by (intros ->; change (zlen (@nil Z)) with 0 in L1; lia).
    assert (parse_ports (S (length (print_ports ports))) (print_ports ports) [] = Some (success ports)) as Pp
      by (rewrite parse_print_ports; [done|done|done|change (zlen (@nil Z)) with 0; lia|lia]).
    destruct (print_ports ports) as [|c' t'] eqn:Ep; [by destruct ports; simpl in Ln; [|lia]|]. by rewrite P, Pp.
Qed.

(** ** What is selected *)

Section Selected.
Variable sort : forall {A : Type}, (A -> A -> bool) -> list A -> list A.
Hypothesis sort_permutes : forall A (less : A -> A -> bool) l, sort less l ≡ₚ l.

Lemma choose_step g position named taken chosen l :
  choose_candidates g (position :: named) taken chosen = success l ->
  exists c, c ∈ candidates g /\ 0 <= candidate_device c - 1 < bridge_count (device_profile (model g)) /\
    default false (taken !! Z.to_nat (candidate_device c - 1)) = false /\
    validate_q3u4_observation (candidate_observation c) = usable /\
    choose_candidates g named (<[Z.to_nat (candidate_device c - 1) := true]> taken)
      (<[Z.to_nat (candidate_device c - 1) := observation_index c]> chosen) = success l.
Proof.
  cbn [choose_candidates]. destruct (candidates g !! Z.to_nat position) as [c|] eqn:L; [|done]. cbv zeta.
  destruct (_ || _) eqn:C; [done|]. intros E. bool_hyps. exists c.
  split; [by eapply list_elem_of_lookup_2|]. split; [lia|]. split; [done|]. split; [by eapply bool_decide_eq_true_1|done].
Qed.

(** Two named candidates fill both slots. *)
Lemma choose_two g p1 p2 l :
  bridge_count (device_profile (model g)) = 2 ->
  choose_candidates g [p1; p2] [false; false] [0; 0] = success l ->
  forall slot, 0 <= slot < 2 -> exists c, c ∈ candidates g /\ candidate_device c = slot + 1 /\
    validate_q3u4_observation (candidate_observation c) = usable /\ l !! Z.to_nat slot = Some (observation_index c).
Proof.
  intros B2 E slot Hs. apply choose_step in E as (c1 & I1 & S1 & _ & U1 & E).
  apply choose_step in E as (c2 & I2 & S2 & T2 & U2 & E). cbn in E. injection E as <-. rewrite B2 in S1, S2.
  assert (candidate_device c1 = 1 \/ candidate_device c1 = 2) as [D1|D1] by lia;
    assert (candidate_device c2 = 1 \/ candidate_device c2 = 2) as [D2|D2] by lia;
    rewrite D1, D2 in *; try discriminate T2;
    assert (slot = 0 \/ slot = 1) as [-> | ->] by lia; first [by exists c1|by exists c2].
Qed.

Lemma slots_filled_spec slots n l :
  slots_filled slots n = Some l -> length l = n /\ forall i, (i < n)%nat -> exists x, slots !! i = Some (Some x) /\ l !! i = Some x.
Proof.
  revert slots l. induction n as [|n IH]; intros slots l E.
  - assert (l = []) as -> by (destruct slots; by injection E). split; [done|]. intros i Hi. lia.
  - destruct slots as [|[x|] slots]; try done. cbn [slots_filled] in E.
    destruct (slots_filled slots n) as [l'|] eqn:E'; [|done]. change (Some (x :: l') = Some l) in E. injection E as <-.
    destruct (IH _ _ E') as [Hl H]. split; [simpl; lia|]. intros [|i] Hi; [by exists x|]. apply H. lia.
Qed.

Lemma resolve_length grouping paths found : resolve_paths grouping paths = Some (success found) -> length found = length paths.
Proof.
  revert found. induction paths as [|text paths IH]; intros found E; [by injection E as <-|]. cbn [resolve_paths] in E.
  destruct (parse_usb_path text) as [[path|e]|]; try done. destruct (matches_of grouping path) as [|m [|m' ms]]; try done.
  destruct (resolve_paths grouping paths) as [[ms|e]|]; try done. injection E as <-. simpl. by rewrite (IH ms).
Qed.

(** Whatever paths select, the bridges that are opened are usable devices of one
    enclosure, the one in slot [n] is the bridge [n] of it, and its serial number
    is the requested one. *)
Theorem selected_devices_serve observations r serial paths s :
  group_q3u4_devices (@sort) observations = success r ->
  select_q3u4_group_by_usb_paths r serial paths = Some (success s) ->
  exists g, groups r !! Z.to_nat (group_index s) = Some g /\ (serial <> [] -> base_serial g = serial) /\
    forall slot, 0 <= slot < bridge_count (device_profile (model g)) ->
      exists index, selected_candidates s !! Z.to_nat slot = Some index /\ serves observations g slot index.
Proof.
  intros E S. destruct (grouping_spec (@sort) sort_permutes observations) as (r' & gs & E' & _ & P & G & I).
  assert (r' = r) as -> by congruence. clear E'.
  unfold select_q3u4_group_by_usb_paths in S. destruct (_ || _ || (2 <? zlen paths)) eqn:C; [done|]. bool_hyps.
  destruct (resolve_paths r paths) as [[found|e]|] eqn:Rs; try done. injection S as S.
  apply resolve_length in Rs. unfold select_resolved in S. destruct found as [|[gi p1] others]; [done|].
  destruct (negb (forallb _ others)); [done|].
  destruct (groups r !! Z.to_nat gi) as [g|] eqn:Lg; [|done]. cbv zeta in S.
  destruct (_ && negb (bool_decide (base_serial g = serial))) eqn:Ser; [done|].
  assert (serial <> [] -> base_serial g = serial) as Sg.
  { intros N. rewrite (bool_decide_false (serial = [])) in Ser by done. cbn [negb andb] in Ser.
    apply negb_false_iff in Ser. by eapply bool_decide_eq_true_1. }
  (* the group before its status was settled *)
  assert (g ∈ settle <$> gs) as Ig by (rewrite <- P; by eapply list_elem_of_lookup_2).
  apply list_elem_of_fmap in Ig as (g0 & -> & Ig0). pose proof (proj1 (Forall_forall _ _) G g0 Ig0) as [G0 _].
  destruct (settle_fields g0) as (_ & Ec & _ & Em & _ & Ei).
  assert (forall c, c ∈ candidates g0 -> validate_q3u4_observation (candidate_observation c) = usable ->
    serves observations (settle g0) (candidate_device c - 1) (observation_index c)) as Sv
    by (intros c Ic Uc; by apply (candidate_serves (@sort) observations r gs)).
  destruct (Z.eqb_spec (zlen ((gi, p1) :: others)) 1) as [L1|L1].
  - (* one path: the group is ready *)
    destruct (bool_decide (status (settle g0) = ready)) eqn:Rd; [|done]. cbn [negb] in S.
    apply bool_decide_eq_true, (settle_ready g0 G0) in Rd as [U Pm].
    rewrite Em in *. destruct (slots_filled _ _) as [l|] eqn:Sf; [|done]. injection S as <-.
    apply slots_filled_spec in Sf as [Ll Sf]. exists (settle g0). split; [done|]. split; [done|]. rewrite Em.
    intros slot Hs. destruct (Sf (Z.to_nat slot)) as (x & X & Lx); [lia|]. exists x. cbn [selected_candidates].
    split; [by apply lookup_app_l_Some|].
    assert (slot + 1 ∈ candidate_device <$> candidates g0) as Id by (rewrite Pm; apply elem_of_seqZ; lia).
    apply list_elem_of_fmap in Id as (c & D & Ic).
    (* the candidate of the slot *)
    destruct (decide (status g0 = incomplete)) as [Inc|NInc].
    + destruct (ok_clear _ G0 Inc) as [V _]. destruct (proj1 (Forall_forall _ _) V c Ic) as [Uc [_ F]].
      rewrite Ei in X. replace (candidate_device c - 1) with slot in F by lia. rewrite X in F. injection F as ->.
      replace slot with (candidate_device c - 1) by lia. by apply Sv.
    + exfalso. destruct (ok_status _ G0) as [?|[Dp|Iv]]; [done| |].
      * apply (ok_duplicate _ G0 Dp). rewrite Pm. apply NoDup_seqZ.
      * by apply (ok_invalid _ G0 Iv).
  - destruct (Z.eqb_spec (bridge_count (device_profile (model (settle g0)))) (zlen ((gi, p1) :: others))) as [B|]; [|done].
    cbn [negb] in S. destruct others as [|[gj p2] [|? ?]]; [done| |].
    + change (zlen [(gi, p1); (gj, p2)]) with 2 in B. cbn [fmap list_fmap snd] in S.
      destruct (choose_candidates (settle g0) [p1; p2] [false; false] [0; 0]) as [l|e] eqn:Ch; [|done].
      injection S as <-. exists (settle g0). split; [done|]. split; [done|]. rewrite B. intros slot Hs.
      destruct (choose_two _ _ _ _ B Ch slot Hs) as (c & Ic & D & U & Lx). rewrite Ec in Ic.
      exists (observation_index c). split; [done|]. replace slot with (candidate_device c - 1) by lia. by apply Sv.
    + exfalso. simpl in Rs. assert (zlen paths <= 2) by lia. unfold zlen in *. lia.
Qed.
End Selected.

(** * Concrete inputs *)

Definition sort_by (A : Type) (less : A -> A -> bool) : list A -> list A := 
  @merge_sort A (fun x y => less y x = false) (fun x y => decide (less y x = false)).
Lemma sort_by_permutes A (less : A -> A -> bool) l : sort_by A less l ≡ₚ l.
Proof. apply merge_sort_Permutation. Qed.

Definition sim_endpoint (address : Z) : UsbEndpointObservation :=
  {| ep_address := address; ep_type := bulk; max_packet_size := 512 |}.
(** A bridge of a PX-Q3U4 on USB bus 3. *)
Definition sim_observation (last port : Z) : DeviceObservation := {|
  vendor_id := 0x0511; product_id := 0x084a; serial := replicate 14 48 ++ [last]; speed := high;
  location := {| has_bus := true; has_address := true; loc_bus := 3; loc_address := port; port_path := [1; port; 0; 0; 0; 0; 0; 0];
                 loc_port_count := 2 |};
  interfaces := [{| if_number := 0; alternate_setting := 0; endpoints := sim_endpoint <$> [0x81; 0x02; 0x84; 0x85] |}];
|}.
(** The second bridge is seen first, then a bridge with a serial that ends in 7. *)
Definition sim_observations : list DeviceObservation := [sim_observation 50 4; sim_observation 55 9; sim_observation 49 3].

Lemma grouping_sound_witness :
  exists r, group_q3u4_devices sort_by sim_observations = success r /\
    rejected_observation <$> rejected r = [sim_observation 55 9].
Proof.
  destruct (grouping_sound sort_by sort_by_permutes sim_observations) as (r & E & R & _).
  exists r. split; [exact E|]. rewrite R. reflexivity.
Defined.

(** [3-1.10], and bus 3, address 4. *)
Lemma usb_path_roundtrip_witness :
  parse_usb_path [51; 45; 49; 46; 49; 48] =
    Some (success {| path_bus := 3; path_address := 0; by_address := false; path_ports := [1; 10] |}).
Proof.
  refine (usb_path_roundtrip {| path_bus := 3; path_address := 0; by_address := false; path_ports := [1; 10] |} _).
  split; [split; discriminate|]. split; [reflexivity|]. split; [split; discriminate|].
  repeat (apply Forall_cons; split; [split; discriminate|]). constructor.
Defined.

(** One path, to the second bridge, selects both. *)
Lemma selected_devices_serve_witness :
  exists r s g, group_q3u4_devices sort_by sim_observations = success r /\
    select_q3u4_group_by_usb_paths r [] [[51; 58; 52]] = Some (success s) /\
    selected_candidates s = [2; 0] /\ groups r !! Z.to_nat (group_index s) = Some g /\ serves sim_observations g 0 2.
Proof.
  destruct (group_q3u4_devices sort_by sim_observations) as [r|e] eqn:E; [|discriminate E].
  exists r. destruct (select_q3u4_group_by_usb_paths r [] [[51; 58; 52]]) as [[s|e]|] eqn:S;
    injection E as <-; [|discriminate S..].
  destruct (selected_devices_serve sort_by sort_by_permutes sim_observations _ [] [[51; 58; 52]] s eq_refl S) as (g & L & _ & V).
  injection S as <-. exists {| group_index := 0; selected_candidates := [2; 0] |}, g.
  split; [reflexivity|]. split; [reflexivity|]. split; [reflexivity|]. split; [exact L|].
  injection L as <-. destruct (V 0 ltac:(split; [discriminate|reflexivity])) as (i & Ei & W).
  injection Ei as <-. exact W.
Defined.
