(* ===== verification/It930xInit.v ===== *)
(** The initialisation of a bridge ([load_firmware_image_locked],
    [warm_initialize_locked], [verify_q3u4_state_locked] and
    [initialize_locked] in [src/it930x.cpp], with the input table of
    [src/mlt5pe_frontend.h]) and the purge of its packet buffer. *)

From S2P Require Import Prelude IoMonad ScatterImage Identity It930xCommand It930xRegisters It930xEffects It930xPower.

(** * Constants *)

Definition kBoot : Z := 0x23.
Definition kFirmwareScatterWrite : Z := 0x29.
Definition kQ3U4TransferSize : Z := 188 * 816.
Definition kPsbPurgeTransferSize : Z := 1024.
Definition kPsbPartialTimeoutTransferSize : Z := 512.
Definition kQ3U4MaxBulkPacket : Z := 512.
Definition kQ3U4TransferThreshold : Z := cast_u16 (kQ3U4TransferSize / 4).
Definition kQ3U4MaxBulkPacketRegister : Z := cast_u8 (kQ3U4MaxBulkPacket / 4).

Definition eeprom_control : Z := 0x4976.
Definition eeprom_status : Z := 0x4bfb.
Definition eeprom_command : Z := 0x4978.
Definition eeprom_address : Z := 0x4977.
Definition ignore_sync : Z := 0xda1a.
Definition dvbt_interrupt : Z := 0xf41f.
Definition mpeg_full_speed : Z := 0xda10.
Definition dvbt_mode : Z := 0xf41a.
Definition stream_gate : Z := 0xda1d.
Definition endpoint4_enable : Z := 0xdd11.
Definition endpoint4_nak : Z := 0xdd13.
Definition transfer_threshold : Z := 0xdd88.
Definition max_bulk_packet : Z := 0xdd0c.
Definition stream_output_a : Z := 0xda05.
Definition stream_output_b : Z := 0xda06.
Definition stream_reverse : Z := 0xd920.
Definition power_control_a : Z := 0xd833.
Definition power_control_b : Z := 0xd830.
Definition power_control_c : Z := 0xd831.
Definition power_control_d : Z := 0xd832.
Definition i2c_speed_aux : Z := 0xf6a7.
Definition i2c_speed : Z := 0xf103.
Definition stream_serial_port0 : Z := 0xda58.
Definition stream_aggregate_port0 : Z := 0xda73.
Definition stream_sync_port0 : Z := 0xda78.
Definition stream_disable_port0 : Z := 0xda4c.
Definition gpio7_mode : Z := 0xd8c4.
Definition gpio7_enable : Z := 0xd8c5.
Definition gpio2_mode : Z := 0xd8b8.
Definition gpio2_enable : Z := 0xd8b9.
Definition gpio3_mode : Z := 0xd8b4.
Definition gpio3_enable : Z := 0xd8b5.
Definition gpio11_mode : Z := 0xd8d4.
Definition gpio11_enable : Z := 0xd8d5.

Definition kI2cAddressRegisters : list Z := [0x4975; 0x4974; 0x4973; 0x4972; 0x4964].
Definition kI2cBusRegisters : list Z := [0x4971; 0x4970; 0x496f; 0x496e; 0x4963].

(** * Stream inputs *)

Record StreamInput := { slave : Z; port : Z; i2c_bus : Z; i2c_address : Z; sync_byte : Z }.
Definition input (s p b a y : Z) : StreamInput :=
  {| slave := s; port := p; i2c_bus := b; i2c_address := a; sync_byte := y |}.

Definition kQ3U4Inputs : list StreamInput :=
  [input 0 1 2 0x11 0x17; input 1 2 2 0x13 0x27; input 2 3 2 0x10 0x37; input 3 4 2 0x12 0x47].

Record MltReceiverInput := { mlt_i2c_address : Z; mlt_i2c_bus : Z; port_number : Z }.
Record MltModelLayout := { mlt_receiver_count : Z; mlt_receivers : list MltReceiverInput }.
Definition mlt_input (a b p : Z) : MltReceiverInput := {| mlt_i2c_address := a; mlt_i2c_bus := b; port_number := p |}.
Definition unused : MltReceiverInput := mlt_input 0 1 0.

Definition mlt_model_layout (m : DeviceModel) : MltModelLayout :=
  match m with
  | px_mlt8pe3 => {| mlt_receiver_count := 3; mlt_receivers :=
      [mlt_input 0x65 3 0; mlt_input 0x6c 3 3; mlt_input 0x64 3 4; unused; unused] |}
  | px_mlt8pe5 => {| mlt_receiver_count := 5; mlt_receivers :=
      [mlt_input 0x65 1 0; mlt_input 0x64 1 1; mlt_input 0x6c 1 2; mlt_input 0x6c 3 3; mlt_input 0x64 3 4] |}
  | dtv02a_4ts_p => {| mlt_receiver_count := 4; mlt_receivers :=
      [mlt_input 0x65 3 0; mlt_input 0x6c 1 1; mlt_input 0x64 1 2; mlt_input 0x64 3 4; unused] |}
  | _ => {| mlt_receiver_count := 5; mlt_receivers :=
      [mlt_input 0x65 3 0; mlt_input 0x6c 1 1; mlt_input 0x64 1 2; mlt_input 0x6c 3 3; mlt_input 0x64 3 4] |}
  end.

Inductive BoardLayout := layout_q3u4 | layout_mlt5pe | layout_single_receiver.
#[export] Instance BoardLayout_eq_dec : EqDecision BoardLayout.
Proof. solve_decision. Defined.

(** The input of one receiver of the MLT family. *)
Definition mlt_stream_input (index : Z) (r : MltReceiverInput) : StreamInput :=
  let tag := cast_u8 (port_number r + 1) in
  input (cast_u8 index) (port_number r) (mlt_i2c_bus r) (mlt_i2c_address r) (cast_u8 (Z.lor (Z.shiftl tag 4) 0x07)).

Definition stream_inputs (layout : BoardLayout) (m : DeviceModel) : list StreamInput :=
  match layout with
  | layout_q3u4 => kQ3U4Inputs
  | layout_mlt5pe =>
      let p := mlt_model_layout m in
      zip_with mlt_stream_input (seqZ 0 (mlt_receiver_count p)) (mlt_receivers p)
  | layout_single_receiver =>
      [input 0 (if bool_decide (m = dtv03a_1tu) then 4 else 0) 3 (if bool_decide (m = dtv03a_1tu) then 0x18 else 0x10) 0x47]
  end.

(** * Operations *)

Inductive InitializationPolicy := accept_cold_or_warm | require_cold | InitializationPolicy_other (raw : Z).
#[export] Instance InitializationPolicy_eq_dec : EqDecision InitializationPolicy.
Proof. solve_decision. Defined.

Record FirmwareLoadResult := { already_loaded : bool; result_version : Z; verified : bool }.
Record PsbPurgeObservation := { read_attempted : bool; purge_error : Error; purge_transferred : Z }.

(** [remember] and [fail]: the first error is kept. *)
Definition remember {A} (first_error : Error) (r : Result A) : Error :=
  if bool_decide (first_error = OK) then match r with failure e => e | success _ => OK end else first_error.
Definition result_of (first_error : Error) : Result unit :=
  if bool_decide (first_error = OK) then success tt else failure first_error.

Section Operations.
Context {HW : Type} `{Transport HW}.
Definition Op : Type -> Type := Io (St (HW := HW)).

(** Steps that are each taken only while there is no error. *)
Fixpoint run_steps (first_error : Error) (steps : list (Op unit)) : Op Error :=
  match steps with
  | [] => mret first_error
  | step :: steps =>
      if bool_decide (first_error = OK) then
        r ← attempt step;
        run_steps (remember first_error r) steps
      else run_steps first_error steps
  end.

Definition threshold : list Z := [cast_u8 kQ3U4TransferThreshold; cast_u8 (Z.shiftr kQ3U4TransferThreshold 8)].

Definition configure_q3u4_stream_output_locked : Op unit :=
  _ ← modify_q3u4_register_locked stream_gate 0x01 0x01;
  first_error ← run_steps OK [
    modify_q3u4_register_locked endpoint4_enable 0x00 0x20;
    modify_q3u4_register_locked endpoint4_nak 0x00 0x20;
    modify_q3u4_register_locked endpoint4_enable 0x20 0x20;
    write_q3u4_registers_locked transfer_threshold (View threshold);
    write_q3u4_register_locked max_bulk_packet kQ3U4MaxBulkPacketRegister;
    modify_q3u4_register_locked stream_output_a 0x00 0x01;
    modify_q3u4_register_locked stream_output_b 0x00 0x01 ];
  gate_cleanup ← attempt (modify_q3u4_register_locked stream_gate 0x00 0x01);
  let first_error := remember first_error gate_cleanup in
  reverse_cleanup ← attempt (write_q3u4_register_locked stream_reverse 0);
  let first_error := remember first_error reverse_cleanup in
  from_result (result_of first_error).

(** Writes in order, up to the first failure. *)
Fixpoint write_all (l : list (Z * Z)) : Op unit :=
  match l with
  | [] => mret tt
  | (r, v) :: l =>
      _ ← write_q3u4_register_locked r v;
      write_all l
  end.

(** Where an input's demodulator is, and how its packets enter. *)
Definition slave_writes (i : StreamInput) : list (Z * Z) :=
  [(nth (Z.to_nat (slave i)) kI2cAddressRegisters 0, cast_u8 (Z.shiftl (i2c_address i) 1));
   (nth (Z.to_nat (slave i)) kI2cBusRegisters 0, i2c_bus i)].
Definition port_writes (i : StreamInput) : list (Z * Z) :=
  (if port i <? 2 then [(stream_serial_port0 + port i, 0)] else []) ++
  [(stream_aggregate_port0 + port i, 1); (stream_sync_port0 + port i, sync_byte i); (stream_disable_port0 + port i, 1)].

Definition configure_stream_inputs_locked (layout : BoardLayout) (m : DeviceModel) : Op unit :=
  let inputs := stream_inputs layout m in
  _ ← write_all (inputs ≫= slave_writes);
  _ ← write_all (inputs ≫= port_writes);
  if bool_decide (layout = layout_q3u4) then write_q3u4_register_locked stream_disable_port0 0 else mret tt.

Definition idle_order (layout : BoardLayout) : list (Z * Z) :=
  match layout with
  | layout_q3u4 => [(gpio7_mode, 1); (gpio7_enable, 1); (gpio2_mode, 1); (gpio2_enable, 1); (gpio2_output, 0); (gpio7_output, 1)]
  | layout_mlt5pe => [(gpio7_mode, 1); (gpio7_enable, 1); (gpio7_output, 1); (gpio2_mode, 1); (gpio2_enable, 1); (gpio2_output, 0)]
  | layout_single_receiver => [(gpio3_mode, 1); (gpio3_enable, 1); (gpio3_output, 1); (gpio2_mode, 1); (gpio2_enable, 1); (gpio2_output, 0)]
  end.

Definition configure_idle_gpio_locked (layout : BoardLayout) (m : DeviceModel) : Op unit :=
  _ ← write_all (idle_order layout);
  if negb (supports_lnb_15v (device_profile m)) then mret tt
  else write_all [(gpio11_mode, 1); (gpio11_enable, 1); (gpio11_output, 0)].

Definition warm_initialize_locked (layout : BoardLayout) (m : DeviceModel) : Op unit :=
  _ ← write_all [(eeprom_control, 0); (eeprom_status, 0); (eeprom_command, 0); (eeprom_address, 0); (ignore_sync, 0)];
  _ ← modify_q3u4_register_locked dvbt_interrupt 0x04 0x04;
  _ ← modify_q3u4_register_locked mpeg_full_speed 0x00 0x01;
  _ ← modify_q3u4_register_locked dvbt_mode 0x01 0x01;
  _ ← configure_q3u4_stream_output_locked;
  _ ← write_all [(power_control_a, 1); (power_control_b, 0); (power_control_c, 1); (power_control_d, 0);
                 (i2c_speed_aux, 0x07); (i2c_speed, 0x07)];
  _ ← configure_stream_inputs_locked layout m;
  configure_idle_gpio_locked layout m.

(** * Verification *)

Definition verify_mask (r mask expected : Z) : Op unit :=
  value ← read_registers_locked r 1;
  require (Z.land (byte_at value 0) mask =? expected) PROTOCOL_ERROR.
Definition verify_exact (r : Z) (expected : list Z) : Op unit :=
  value ← read_registers_locked r (zlen expected);
  require (bytes_eqb value expected) PROTOCOL_ERROR.

Definition reset_register (layout : BoardLayout) : Z :=
  match layout with layout_single_receiver => gpio3_output | _ => gpio7_output end.

Definition verify_q3u4_state_locked (layout : BoardLayout) (m : DeviceModel) : Op unit :=
  _ ← verify_mask stream_gate 0x01 0x00;
  _ ← verify_mask endpoint4_enable 0x20 0x20;
  _ ← verify_mask endpoint4_nak 0x20 0x00;
  _ ← verify_exact transfer_threshold threshold;
  _ ← verify_exact max_bulk_packet [kQ3U4MaxBulkPacketRegister];
  _ ← verify_mask stream_output_a 0x01 0x00;
  _ ← verify_mask stream_output_b 0x01 0x00;
  _ ← verify_exact stream_reverse [0];
  _ ← verify_exact gpio2_output [0];
  _ ← verify_exact (reset_register layout) [1];
  if negb (supports_lnb_15v (device_profile m)) then mret tt
  else verify_exact gpio11_output [0].

(** * Firmware *)

(** The loop over the blocks of the image. *)
Fixpoint write_blocks (fuel : nat) (image : list Z) (offset : Z) : Op unit :=
  if offset <? zlen image then
    match fuel with
    | O => diverge
    | S fuel =>
        match parse_scatter_block (View image) offset with
        | None => diverge
        | Some (failure e) => fail e
        | Some (success block) =>
            _ ← acknowledged kFirmwareScatterWrite (View (window image (sb_offset block) (sb_size block)));
            write_blocks fuel image (offset + sb_size block)
        end
    end
  else mret tt.

Definition load_firmware_image_locked (image : list Z) : Op FirmwareLoadResult :=
  _ ← write_registers_locked 0xf103 (View [0x07]);
  _ ← write_blocks (length image) image 0;
  _ ← acknowledged kBoot (NullView 0);
  version ← firmware_version_locked;
  _ ← require (negb (version =? 0)) PROTOCOL_ERROR;
  mret {| already_loaded := false; result_version := version; verified := false |}.

(** What both ways into a running bridge share. *)
Definition bring_up (layout : BoardLayout) (m : DeviceModel) : Op unit :=
  _ ← warm_initialize_locked layout m;
  _ ← verify_q3u4_state_locked layout m;
  set_controller (fun c => with_lnb_disconnected (with_power_state c power_off) false).

Definition initialize_locked (image : list Z) (policy : InitializationPolicy) (layout : BoardLayout) (m : DeviceModel)
  : Op FirmwareLoadResult :=
  _ ← set_power_state power_unknown;
  match validate_scatter_image (View image) with
  | None => diverge
  | Some (failure _) => fail FIRMWARE_REJECTED
  | Some (success _) =>
      c ← controller;
      if negb (valid_pacing_mode c)
         || (negb (bool_decide (policy = accept_cold_or_warm)) && negb (bool_decide (policy = require_cold)))
      then fail INVALID_ARGUMENT
      else
        version ← firmware_version_locked;
        if negb (version =? 0) then
          if bool_decide (policy = require_cold) then fail NOT_READY
          else
            _ ← bring_up layout m;
            mret {| already_loaded := true; result_version := version; verified := true |}
        else
          loaded ← load_firmware_image_locked image;
          _ ← bring_up layout m;
          mret {| already_loaded := already_loaded loaded; result_version := result_version loaded; verified := true |}
  end.

Definition one_of (m : DeviceModel) (l : list DeviceModel) : bool := bool_decide (m ∈ l).

Definition initialize_q3u4 (image : list Z) (policy : InitializationPolicy) (m : DeviceModel) : Op FirmwareLoadResult :=
  if negb (one_of m [px_q3u4; px_q3pe4; px_q3pe5; px_w3u4; px_w3pe4; px_w3pe5]) then fail UNSUPPORTED
  else initialize_locked image policy layout_q3u4 m.
Definition initialize_mlt_family (image : list Z) (m : DeviceModel) (policy : InitializationPolicy) : Op FirmwareLoadResult :=
  if negb (one_of m [px_mlt5pe; dtv02a_5ts_p; px_mlt8pe3; px_mlt8pe5; dtv02a_4ts_p]) then fail UNSUPPORTED
  else initialize_locked image policy layout_mlt5pe m.
Definition initialize_mlt5pe (image : list Z) (policy : InitializationPolicy) : Op FirmwareLoadResult :=
  initialize_mlt_family image px_mlt5pe policy.
Definition initialize_single_receiver (image : list Z) (m : DeviceModel) (policy : InitializationPolicy) : Op FirmwareLoadResult :=
  if negb (one_of m [px_m1ur; px_s1ur; dtv03a_1tu; dtv02_1t1s_u; dtv02a_1t1s_u]) then fail UNSUPPORTED
  else if supports_lnb_15v (device_profile m) then fail UNSUPPORTED
  else initialize_locked image policy layout_single_receiver m.

(** * The packet buffer *)

(** How the purge takes the outcome of its read. *)
Definition judge_read (first_error : Error) (r : Result (list Z)) (o : BulkReadObservation) : Error :=
  match r with
  | failure e => if bool_decide (first_error = OK) then e else first_error
  | success _ =>
      if bool_decide (completion_error o = TIMEOUT) then
        if negb (transferred o =? kPsbPartialTimeoutTransferSize) && bool_decide (first_error = OK)
        then if transferred o =? 0 then TIMEOUT else PROTOCOL_ERROR
        else first_error
      else if negb (bool_decide (completion_error o = OK)) && bool_decide (first_error = OK)
      then completion_error o
      else first_error
  end.

(** The result, and what an observer is told. *)
Definition purge_psb (timeout : Z) : Op (Result unit * PsbPurgeObservation) :=
  set_gate ← attempt (modify_q3u4_register_locked stream_gate 0x01 0x01);
  let first_error := remember OK set_gate in
  '(first_error, observation) ←
    (match set_gate with
     | failure _ => mret (first_error, {| read_attempted := false; purge_error := OK; purge_transferred := 0 |})
     | success _ =>
         '(r, o) ← on_snd (call (fun hw => let '((r, o), hw) := bulk_read kTsInEndpoint kPsbPurgeTransferSize timeout hw in
                                           (success (r, o), hw)));
         mret (judge_read first_error r o,
               {| read_attempted := true; purge_error := completion_error o; purge_transferred := transferred o |})
     end);
  clear_gate ← attempt (modify_q3u4_register_locked stream_gate 0x00 0x01);
  mret (result_of (remember first_error clear_gate), observation).
End Operations.

(** * Lemmas *)

(** ** The sequence number stays a byte *)

Section Steady.
Context {HW : Type} `{Transport HW}.

Lemma write_all_stays l : stays (HW := HW) (write_all l).
Proof. induction l as [|[r v] l IH]; cbn [write_all]; walk_steady. Qed.
#[local] Hint Resolve write_all_stays : steady.
Lemma run_steps_stays e l : Forall (stays (HW := HW)) l -> stays (run_steps e l).
Proof. intros F. revert e. induction F; intros e; cbn [run_steps]; walk_steady. Qed.

Lemma stream_output_stays : stays (HW := HW) configure_q3u4_stream_output_locked.
Proof.
  unfold configure_q3u4_stream_output_locked. apply stays_bind; [auto with steady|intros _].
  apply stays_bind; [|intros ?; walk_steady]. apply run_steps_stays.
  repeat (apply Forall_cons; split; [first [apply modify_stays|apply write_stays]|]). constructor.
Qed.
#[local] Hint Resolve stream_output_stays : steady.

Lemma warm_stays layout m : stays (HW := HW) (warm_initialize_locked layout m).
Proof. unfold warm_initialize_locked, configure_stream_inputs_locked, configure_idle_gpio_locked. walk_steady. Qed.

Lemma write_blocks_stays fuel image o : stays (HW := HW) (write_blocks fuel image o).
Proof. revert o. induction fuel as [|fuel IH]; intros o; cbn [write_blocks]; walk_steady. Qed.
#[local] Hint Resolve write_blocks_stays : steady.
Lemma load_stays image : stays (HW := HW) (load_firmware_image_locked image).
Proof. unfold load_firmware_image_locked. walk_steady. Qed.
End Steady.

#[export] Hint Resolve write_all_stays warm_stays load_stays : steady.

(** ** What a verified bridge looks like *)

(** The checks of [verify_q3u4_state_locked], register by register. *)
Definition init_checks (layout : BoardLayout) (m : DeviceModel) : list (Z * (Z -> bool)) :=
  [(stream_gate, fun v => Z.land v 0x01 =? 0); (endpoint4_enable, fun v => Z.land v 0x20 =? 0x20);
   (endpoint4_nak, fun v => Z.land v 0x20 =? 0); (transfer_threshold, Z.eqb 0xd0); (transfer_threshold + 1, Z.eqb 0x95);
   (max_bulk_packet, Z.eqb 0x80); (stream_output_a, fun v => Z.land v 0x01 =? 0);
   (stream_output_b, fun v => Z.land v 0x01 =? 0); (stream_reverse, Z.eqb 0);
   (gpio2_output, Z.eqb 0); (reset_register layout, Z.eqb 1)] ++
  (if supports_lnb_15v (device_profile m) then [(gpio11_output, Z.eqb 0)] else []).

Section Verification.
Context {HW Dev : Type} `{Bridge HW Dev} `{!RegisterFile Dev}.

Definition passes (l : list (Z * (Z -> bool))) (st : St (HW := HW)) : Prop :=
  Forall (fun c => plain c.1 = true -> c.2 (line st c.1) = true) l.

(** [m] only reads, and succeeds only if the registers pass the checks. *)
Definition checks (l : list (Z * (Z -> bool))) (m : Io (St (HW := HW)) unit) : Prop :=
  forall st, steady st -> returns m st (fun r st' =>
    same_but_sequence st.1 st'.1 /\ (forall x, plain x = true -> line st' x = line st x) /\
    (r = success tt -> passes l st')).

Lemma passes_same l st st' : (forall x, plain x = true -> line st' x = line st x) -> passes l st -> passes l st'.
Proof. intros S P. eapply Forall_impl; [exact P|]. intros c C Pc. rewrite S by done. by apply C. Qed.

Lemma checks_bind l1 l2 m1 m2 : checks l1 m1 -> checks l2 m2 -> checks (l1 ++ l2) (_ ← m1; m2).
Proof.
  intros C1 C2 st S. destruct (C1 st S) as (r & st1 & E & Q1 & K1 & P1). apply returns_bind.
  exists r, st1. split; [done|]. destruct r as [[]|e]; [|done].
  destruct (C2 st1) as (r2 & st2 & E2 & Q2 & K2 & P2); [by eapply same_steady|].
  exists r2, st2. split; [done|]. split; [by eapply same_but_sequence_trans|].
  split; [intros x Px; by rewrite K2, K1|]. intros R. apply Forall_app. split; [|by apply P2].
  eapply passes_same; [exact K2|by apply P1].
Qed.

Lemma checks_ret : checks [] (mret tt).
Proof. intros st S. apply returns_ret. split; [by apply same_but_sequence_refl|]. split; [done|]. intros _. constructor. Qed.

Lemma checks_mask r mask expected : is_u32 r -> checks [(r, fun v => Z.land v mask =? expected)] (verify_mask r mask expected).
Proof.
  intros Hr st S. unfold verify_mask. apply returns_bind.
  destruct (read_registers_effect r 1 st S Hr ltac:(lia)) as (res & st1 & E & Q & K & V).
  exists res, st1. split; [done|]. destruct res as [l|e]; [|done].
  destruct (V l eq_refl) as [_ B]. specialize (B 0 ltac:(lia)). rewrite Z.add_0_r in B.
  destruct (Z.land (byte_at l 0) mask =? expected) eqn:C; [|apply returns_fail; done].
  apply returns_ret. split; [done|]. split; [done|]. intros _. apply Forall_singleton. intros P. cbn [fst snd] in *.
  unfold line. rewrite K, <- B by done. exact C.
Qed.

Lemma checks_exact r expected : is_u32 r -> expected <> [] ->
  checks (imap (fun i v => (r + Z.of_nat i, Z.eqb v)) expected) (verify_exact r expected).
Proof.
  intros Hr N st S. unfold verify_exact. apply returns_bind.
  destruct (read_registers_effect r (zlen expected) st S Hr (zlen_nonneg _)) as (res & st1 & E & Q & K & V).
  exists res, st1. split; [done|]. destruct res as [l|e]; [|done].
  destruct (V l eq_refl) as [L B]. unfold bytes_eqb.
  destruct (bool_decide (l = expected)) eqn:C; [|apply returns_fail; done].
  apply bool_decide_eq_true in C as ->. apply returns_ret. split; [done|]. split; [done|]. intros _.
  apply Forall_lookup. intros i c Ec. rewrite list_lookup_imap in Ec.
  destruct (expected !! i) as [v|] eqn:Ev; [|done]. injection Ec as <-. cbn [fst snd]. intros P.
  pose proof (lookup_lt_Some _ _ _ Ev). unfold line. rewrite K by done.
  specialize (B (Z.of_nat i) ltac:(unfold zlen; lia) P). rewrite <- B. apply Z.eqb_eq.
  unfold byte_at. rewrite Nat2Z.id, nth_lookup, Ev. done.
Qed.

Lemma checks_one r v : is_u32 r -> checks [(r, Z.eqb v)] (verify_exact r [v]).
Proof.
  intros Hr. pose proof (checks_exact r [v] Hr ltac:(done)) as C. cbn [imap] in C.
  change (Z.of_nat 0) with 0 in C. by rewrite Z.add_0_r in C.
Qed.

Lemma checks_verify layout m : checks (init_checks layout m) (verify_q3u4_state_locked layout m).
Proof.
  unfold verify_q3u4_state_locked, init_checks.
  assert (is_u32 (reset_register layout)) as Hr by by destruct layout.
  do 3 (apply (checks_bind [_]); [by apply checks_mask|]).
  apply (checks_bind [_; _]); [by apply (checks_exact transfer_threshold threshold)|].
  apply (checks_bind [_]); [by apply (checks_one max_bulk_packet)|].
  do 2 (apply (checks_bind [_]); [by apply checks_mask|]).
  do 3 (apply (checks_bind [_]); [by apply checks_one|]).
  destruct (supports_lnb_15v (device_profile m)); [by apply checks_one|apply checks_ret].
Qed.

(** ** Initialisation *)

Lemma bring_up_checks layout m st st' :
  steady st -> bring_up layout m st = Some (success tt, st') ->
  passes (init_checks layout m) st' /\ q3u4_backend_power_state_ st'.1 = power_off /\
  q3u4_lnb_disconnected_ st'.1 = false /\ steady st'.
Proof.
  intros S E. unfold bring_up in E. apply bind_some in E as [(e & _ & E)|([] & st1 & E1 & E)]; [done|].
  pose proof (warm_stays layout m _ _ _ S E1) as S1.
  destruct (checks_verify layout m st1 S1) as (r & st2 & E2 & Q & _ & P).
  apply bind_some in E as [(e & _ & E)|([] & st2' & E2' & E)]; [done|].
  rewrite E2 in E2'. injection E2' as -> <-. injection E as <-. split; [|split; [done|split; [done|]]].
  - eapply Forall_impl; [by apply P|]. done.
  - pose proof (same_steady _ _ Q) as S2. done.
Qed.

End Verification.

(** ** The download *)

Section Download.
Context {HW Dev : Type} `{Bridge HW Dev} `{!CommandLog Dev}.

Lemma write_blocks_sends fuel image blocks o :
  bytes_ok image -> Forall well_formed blocks -> 0 <= o -> zdrop o image = blocks ≫= encode_block ->
  (zlen image <= o -> blocks = []) ->
  sends ((fun b => (kFirmwareScatterWrite, encode_block b)) <$> blocks) (write_blocks (HW := HW) fuel image o).
Proof.
  intros B. revert blocks o. induction fuel as [|fuel IH]; intros blocks o W Ho E N; cbn [write_blocks].
  - destruct (Z.ltb_spec o (zlen image)); [by intros st a st' S X|]. rewrite N by lia. apply sends_ret.
  - destruct (Z.ltb_spec o (zlen image)) as [L|]; [|rewrite N by lia; apply sends_ret].
    destruct blocks as [|b blocks].
    { exfalso. apply (f_equal zlen) in E. rewrite zlen_drop in E. change (zlen ([] ≫= encode_block)) with 0 in E. lia. }
    apply Forall_cons in W as [Wb W]. rewrite bind_cons in E.
    rewrite (parse_well_formed image o b _ Ho B Wb E). cbn [sb_offset sb_size].
    assert (window image o (zlen (encode_block b)) = encode_block b) as ->.
    { unfold window. rewrite E. by apply ztake_app. }
    assert (bytes_ok (encode_block b)) as Bb.
    { pose proof (bytes_ok_drop o image B) as B'. rewrite E in B'. by apply bytes_ok_app in B' as [B' _]. }
    rewrite fmap_cons. apply (sends_bind [_]); [by apply acknowledged_sends|]. intros _.
    pose proof (zlen_nonneg (encode_block b)). apply IH; [done|lia| |].
    + rewrite <- zdrop_zdrop, E by lia. by apply zdrop_app.
    + intros L'. destruct blocks as [|b' blocks]; [done|]. exfalso.
      apply Forall_cons in W as [Wb' _]. rewrite bind_cons in E.
      apply (f_equal zlen) in E. rewrite zlen_drop, !zlen_app in E.
      match type of E with _ = _ + (_ + zlen ?l) => pose proof (zlen_nonneg l) end.
      rewrite (zlen_encode b') in E. destruct Wb' as (_ & D & _). pose proof (zlen_nonneg (blk_segments b')). lia.
Qed.

(** A download that reports success has given the bridge the whole image, block
    by block in the order of the file, after the bus speed and before the boot
    command, and nothing else; no block is lost, repeated or cut, whatever the
    connection does. *)
Theorem firmware_delivered image blocks st r st' :
  steady st -> bytes_ok image -> Forall well_formed blocks -> image = blocks ≫= encode_block ->
  load_firmware_image_locked image st = Some (success r, st') ->
  sent st' = sent st ++ [(kRegWrite, register_head 1 0xf103 ++ [0x07])]
    ++ ((fun b => (kFirmwareScatterWrite, encode_block b)) <$> blocks) ++ [(kBoot, []); (kQueryInfo, [1])].
Proof.
  intros S B W -> E.
  enough (sends ([(kRegWrite, register_head 1 0xf103 ++ [0x07])] ++
    ((fun b => (kFirmwareScatterWrite, encode_block b)) <$> blocks) ++ [(kBoot, [])] ++ [(kQueryInfo, [1])])
    (load_firmware_image_locked (HW := HW) (blocks ≫= encode_block))) as G by by destruct (G _ _ _ S E).
  unfold load_firmware_image_locked.
  apply sends_bind; [by apply (write_sends 0xf103 [0x07]); [apply bytes_okb_ok|]|intros _].
  apply sends_bind.
  { apply write_blocks_sends; [done|done|done|done|]. intros L.
    destruct blocks as [|b blocks]; [done|]. apply Forall_cons in W as [Wb _]. rewrite bind_cons, zlen_app in L.
    match type of L with _ + zlen ?l <= _ => pose proof (zlen_nonneg l) end.
    rewrite (zlen_encode b) in L. destruct Wb as (_ & D & _). pose proof (zlen_nonneg (blk_segments b)). lia. }
  intros _. apply sends_bind; [apply (acknowledged_sends kBoot (NullView 0)); [done|by apply Forall_nil_2]|intros _].
  rewrite <- (app_nil_r [(kQueryInfo, [1])]). apply sends_bind; [|intros v].
  - unfold firmware_version_locked. rewrite <- (app_nil_r [_]). apply sends_bind.
    + apply (transact_sends kQueryInfo (View [1])); [done|by apply bytes_okb_ok].
    + intros l. apply (sends_bind [] []); [apply sends_require|]. intros. apply sends_ret.
  - apply (sends_bind [] []); [apply sends_require|]. intros. apply sends_ret.
Qed.
End Download.

(** ** A run *)

(** An image of one block with one segment. *)
Definition small_block : Block :=
  {| blk_unchecked := (0, 0); blk_segments := [(0x41, 0, 4)]; blk_data := [1; 2; 3; 4] |}.
Definition small_image : list Z := encode_block small_block.

Lemma small_image_ok : bytes_ok small_image /\ Forall well_formed [small_block] /\ small_image = [small_block] ≫= encode_block.
Proof. split; [by apply bytes_okb_ok|]. split; [|done]. by apply Forall_singleton. Qed.

Lemma firmware_delivered_witness :
  exists r st', load_firmware_image_locked small_image (sim_state []) = Some (success r, st') /\
    sent (Dev := SimDevice) st' = sent (Dev := SimDevice) (sim_state []) ++ [(kRegWrite, register_head 1 0xf103 ++ [0x07])]
      ++ [(kFirmwareScatterWrite, small_image)] ++ [(kBoot, []); (kQueryInfo, [1])].
Proof.
  destruct (succeeded_run (load_firmware_image_locked small_image) (sim_state [])) as (r & st' & E); [by vm_compute|].
  exists r, st'. split; [exact E|]. destruct small_image_ok as (B & W & I).
  exact (firmware_delivered small_image [small_block] (sim_state []) r st' (sim_steady []) B W I E).
Defined.

