(* ===== verification/It930xCard.v ===== *)
(** The card interface of the IT930x controller ([initialize_card_uart],
    [detect_card], [set_card_baud_rate], [reset_card], [card_data_ready],
    [read_card_data] and [write_card_data] in [src/it930x.cpp]).  The delay of
    [reset_card] is a pause of the hardware. *)

From S2P Require Import Prelude IoMonad CardAtr It930xCommand It930xRegisters It930xEffects It930xPower.

Definition kUartRead : Z := 0x33.
Definition kUartWrite : Z := 0x34.
Definition kUartSetBaudRate : Z := 0x35.
Definition kUartSetMode : Z := 0x37.
Definition kUartRealSend : Z := 0x4965.
Definition kUartRxReady : Z := 0x496a.
Definition kUartRxLength : Z := 0x496b.
Definition kCardFrameMaxLength : Z := 255.
Definition kCardReadChunkMaxLength : Z := 32.
Definition kCardWriteChunkMaxLength : Z := 48.
Definition gpio6_mode : Z := 0xd8c8.
Definition gpio6_enable : Z := 0xd8c9.
Definition gpio6_input : Z := 0xd8c6.
Definition gpio14_mode : Z := 0xd8e4.
Definition gpio14_enable : Z := 0xd8e5.
Definition gpio14_output : Z := 0xd8e3.

(** [encoded] in [set_card_baud_rate_locked]; 38400 baud needs the reload value. *)
Definition encoded_baud_rate (b : It930xCardBaudRate) : Z :=
  match b with baud_9600 => 0 | baud_19200 => 1 | baud_38400 => 0xef end.

Section Operations.
Context {HW : Type} `{Transport HW}.

Definition initialize_card_uart : Io (St (HW := HW)) unit :=
  _ ← acknowledged kUartSetMode (View [1]);
  _ ← write_registers_locked gpio6_mode (View [0]);
  write_registers_locked gpio6_enable (View [1]).

Definition detect_card : Io (St (HW := HW)) bool :=
  level ← read_registers_locked gpio6_input 1;
  mret (byte_at level 0 =? 0).

Definition set_card_baud_rate_locked (b : It930xCardBaudRate) : Io (St (HW := HW)) unit :=
  acknowledged kUartSetBaudRate (View [encoded_baud_rate b]).
Definition set_card_baud_rate (b : It930xCardBaudRate) : Io (St (HW := HW)) unit := set_card_baud_rate_locked b.

Definition reset_card : Io (St (HW := HW)) unit :=
  _ ← write_registers_locked gpio14_mode (View [1]);
  _ ← write_registers_locked gpio14_enable (View [1]);
  _ ← write_registers_locked gpio14_output (View [0]);
  _ ← write_registers_locked 0x7904 (View [2]);
  _ ← set_card_baud_rate_locked baud_9600;
  _ ← sleep 5;
  write_registers_locked gpio14_output (View [1]).

Definition card_data_ready : Io (St (HW := HW)) bool :=
  ready ← read_registers_locked kUartRxReady 1;
  mret (negb (byte_at ready 0 =? 0)).

(** The loop of [read_card_data]; [acc] is what the buffer holds so far. *)
Fixpoint read_chunks (fuel : nat) (size : Z) (acc : list Z) : Io (St (HW := HW)) (list Z) :=
  if zlen acc <? size then
    match fuel with
    | O => diverge
    | S fuel =>
        available ← read_registers_locked kUartRxLength 1;
        if byte_at available 0 =? 0 then mret acc
        else
          let chunk_size := Z.min (Z.min (byte_at available 0) kCardReadChunkMaxLength) (size - zlen acc) in
          response ← transact_locked kUartRead (View [cast_u8 chunk_size]);
          _ ← require (zlen response =? chunk_size) PROTOCOL_ERROR;
          read_chunks fuel size (acc ++ response)
    end
  else mret acc.

Definition read_card_data (output : ByteView) : Io (St (HW := HW)) (list Z) :=
  match output with
  | NullView _ => fail INVALID_ARGUMENT
  | View buffer =>
      if (zlen buffer =? 0) || (kCardFrameMaxLength <? zlen buffer) then fail INVALID_ARGUMENT
      else read_chunks (length buffer) (zlen buffer) []
  end.

(** The loop of [write_card_data]. *)
Fixpoint write_chunks (fuel : nat) (input : list Z) (offset : Z) : Io (St (HW := HW)) unit :=
  if offset <? zlen input then
    match fuel with
    | O => diverge
    | S fuel =>
        let chunk_size := Z.min kCardWriteChunkMaxLength (zlen input - offset) in
        _ ← (if offset + chunk_size =? zlen input then write_registers_locked kUartRealSend (View [1]) else mret tt);
        _ ← acknowledged kUartWrite (View (cast_u8 chunk_size :: window input offset chunk_size));
        write_chunks fuel input (offset + chunk_size)
    end
  else mret tt.

Definition write_card_data (input : ByteView) : Io (St (HW := HW)) unit :=
  match input with
  | NullView _ => fail INVALID_ARGUMENT
  | View input =>
      if (zlen input =? 0) || (kCardFrameMaxLength <? zlen input) then fail INVALID_ARGUMENT
      else write_chunks (length input) input 0
  end.
End Operations.

(** * What the card is sent and what it sends *)

(** The commands for data in these pieces: the last one is announced. *)
Fixpoint uart_commands (pieces : list (list Z)) : list (Z * list Z) :=
  match pieces with
  | [] => []
  | [piece] => [(kRegWrite, register_head 1 kUartRealSend ++ [1]); (kUartWrite, zlen piece :: piece)]
  | piece :: pieces => (kUartWrite, zlen piece :: piece) :: uart_commands pieces
  end.

Section Card.
Context {HW Dev : Type} `{Bridge HW Dev} `{!CommandLog Dev}.

(** The bytes the receiver of the UART has handed out. *)
Definition handed_out (entries : list (Z * list Z * Outcome)) : list Z :=
  entries ≫= fun e => if (e.1.1 =? kUartRead) && (e.2.1 =? 0) then e.2.2 else [].
Definition uart_received (st : St (HW := HW)) : list Z := handed_out (log (dev st)).

Lemma handed_out_app l1 l2 : handed_out (l1 ++ l2) = handed_out l1 ++ handed_out l2.
Proof. apply bind_app. Qed.

Lemma read_logged r n st :
  steady st -> is_u32 r -> 0 <= n ->
  returns (read_registers_locked r n) st (fun res st' =>
    steady st' /\ forall l, res = success l -> zlen l = n /\ bytes_ok l /\ uart_received st' = uart_received st).
Proof.
  intros S Hr Hn. unfold read_registers_locked. destruct (_ || _); [by apply returns_fail|].
  apply returns_bind.
  destruct (transact_effect kRegRead (View (register_head n r)) st S ltac:(done) (head_ok _ _)) as (res & st' & E & Q & _ & X & _).
  exists res, st'. split; [done|]. pose proof (same_steady _ _ Q) as S'. destruct res as [l|e]; [|done].
  destruct (X l eq_refl) as [X1 X2].
  apply returns_bind. destruct (Z.eqb_spec (zlen l) n); [|by apply returns_fail].
  apply returns_ret, returns_ret. split; [done|]. intros l' E'. injection E' as <-. split; [done|]. split; [done|].
  unfold uart_received. rewrite (log_law _ _ _ _ _ X1), handed_out_app. cbn. by rewrite app_nil_r.
Qed.

Lemma read_chunks_effect fuel size acc st :
  steady st -> size - zlen acc <= Z.of_nat fuel -> zlen acc <= size <= kCardFrameMaxLength ->
  returns (read_chunks fuel size acc) st (fun r st' =>
    forall l, r = success l -> zlen l <= size /\ exists t, l = acc ++ t /\ uart_received st' = uart_received st ++ t).
Proof.
  revert acc st. induction fuel as [|fuel IH]; intros acc st S F L; cbn [read_chunks];
    destruct (Z.ltb_spec (zlen acc) size); try (apply returns_ret; intros l E; injection E as <-;
      split; [lia|]; exists []; by rewrite !app_nil_r).
  { exfalso. lia. }
  apply returns_bind. eapply returns_mono; [by apply read_logged|].
  intros [a|e] st1 (S1 & R); [|done]. destruct (R a eq_refl) as (La & Ba & Ra).
  pose proof (byte_at_ok a 0 Ba) as B0. unfold is_u8 in B0.
  destruct (Z.eqb_spec (byte_at a 0) 0) as [|N0].
  { apply returns_ret. intros l E. injection E as <-. split; [lia|]. exists []. by rewrite !app_nil_r. }
  cbv zeta. set (n := Z.min (Z.min (byte_at a 0) kCardReadChunkMaxLength) (size - zlen acc)).
  assert (1 <= n <= 32) as Hn by (unfold n, kCardReadChunkMaxLength; lia).
  apply returns_bind.
  destruct (transact_effect kUartRead (View [cast_u8 n]) st1 S1 ltac:(done)) as (res & st2 & E & Q & _ & X & _).
  { apply Forall_singleton, cast_u8_ok. }
  exists res, st2. split; [done|]. pose proof (same_steady _ _ Q) as S2. destruct res as [l|e]; [|done].
  destruct (X l eq_refl) as [X1 X2].
  apply returns_bind. destruct (Z.eqb_spec (zlen l) n) as [Ll|]; [|by apply returns_fail]. apply returns_ret.
  eapply returns_mono; [apply IH; [done| |]; rewrite zlen_app; unfold n in *; lia|].
  intros r st' P l' E'. destruct (P l' E') as (Z' & t & -> & Rt). split; [done|]. exists (l ++ t).
  split; [by rewrite app_assoc|]. rewrite Rt, app_assoc. f_equal.
  unfold uart_received. rewrite (log_law _ _ _ _ _ X1), handed_out_app.
  unfold uart_received in Ra. rewrite Ra. cbn. by rewrite app_nil_r.
Qed.

(** Reading always ends; a success gives no more than was asked for, and exactly
    the bytes the receiver has handed out during the call, in their order. *)
Theorem card_data_received output st :
  steady st ->
  exists r st', read_card_data output st = Some (r, st') /\
    forall l, r = success l -> zlen l <= view_size output /\ uart_received st' = uart_received st ++ l.
Proof.
  intros S. destruct output as [n|buffer]; [by exists (failure INVALID_ARGUMENT), st|]. cbn [read_card_data view_size].
  destruct (Z.eqb_spec (zlen buffer) 0); [by exists (failure INVALID_ARGUMENT), st|]. cbn [orb].
  destruct (Z.ltb_spec kCardFrameMaxLength (zlen buffer)); [by exists (failure INVALID_ARGUMENT), st|].
  pose proof (zlen_nonneg buffer).
  destruct (read_chunks_effect (length buffer) (zlen buffer) [] st) as (r & st' & E & P); [done|unfold zlen; simpl; lia|unfold zlen in *; simpl; lia|].
  exists r, st'. split; [done|]. intros l El. destruct (P l El) as (L & t & -> & R). split; done.
Qed.

Lemma write_chunks_effect fuel input o st :
  steady st -> bytes_ok input -> 0 <= o <= zlen input -> zlen input <= kCardFrameMaxLength ->
  zlen input - o <= Z.of_nat fuel ->
  returns (write_chunks fuel input o) st (fun r st' => r = success tt ->
    exists pieces, mjoin pieces = zdrop o input /\ Forall (fun p => 1 <= zlen p <= kCardWriteChunkMaxLength) pieces /\
      sent st' = sent st ++ uart_commands pieces).
Proof.
  intros S B. revert o st S. induction fuel as [|fuel IH]; intros o st S Ho L F; cbn [write_chunks];
    destruct (Z.ltb_spec o (zlen input)) as [Lo|Lo]; try (apply returns_ret; intros _; exists [];
      split; [symmetry; apply zlen_0; rewrite zlen_drop; lia|]; split; [constructor|by rewrite app_nil_r]).
  { exfalso. lia. }
  cbv zeta. set (n := Z.min kCardWriteChunkMaxLength (zlen input - o)).
  assert (1 <= n <= 48) as Hn by (unfold n, kCardWriteChunkMaxLength; lia).
  set (p := window input o n).
  assert (zlen p = n) as Lp by (unfold p, window; rewrite zlen_take, zlen_drop; unfold n, kCardWriteChunkMaxLength; lia).
  assert (zdrop o input = p ++ zdrop (o + n) input) as Split.
  { unfold p, window. rewrite <- zdrop_zdrop by lia. by rewrite ztake_zdrop. }
  assert (bytes_ok p) as Bp by by apply bytes_ok_take, bytes_ok_drop.
  assert (cast_u8 n = n) as Cn by (unfold cast_u8; apply Z.mod_small; lia).
  rewrite Cn.
  assert (bytes_ok (n :: p)) as Bn by (apply Forall_cons; split; [widths; lia|done]).
  apply returns_bind.
  assert (returns (if o + n =? zlen input then write_registers_locked kUartRealSend (View [1]) else mret tt) st
    (fun r st1 => match r with failure _ => True | success _ => steady st1 /\
       sent st1 = sent st ++ (if o + n =? zlen input then [(kRegWrite, register_head 1 kUartRealSend ++ [1])] else []) end)) as G.
  { destruct (o + n =? zlen input).
    - destruct (acknowledged_effect kRegWrite (register_head 1 kUartRealSend ++ [1]) st S) as (r & st1 & E & _); [done|by apply bytes_okb_ok|].
      exists r, st1. split; [exact E|]. destruct r as [[]|e]; [|done].
      destruct (write_sends kUartRealSend [1] ltac:(by apply bytes_okb_ok) ltac:(done) _ _ _ S E). by split.
    - apply returns_ret. by rewrite app_nil_r. }
  destruct G as (r1 & st1 & E1 & G). exists r1, st1. split; [done|]. destruct r1 as [[]|e]; [|done]. destruct G as [S1 L1].
  apply returns_bind.
  destruct (acknowledged_effect kUartWrite (n :: p) st1 S1) as (r2 & st2 & E2 & _); [done|done|].
  exists r2, st2. split; [done|]. destruct r2 as [[]|e]; [|done].
  destruct (acknowledged_sends kUartWrite (View (n :: p)) ltac:(done) Bn _ _ _ S1 E2) as [L2 S2].
  eapply returns_mono; [apply IH; [done| |done|]; unfold n, kCardWriteChunkMaxLength in *; lia|].
  intros r st' P ->. destruct (P eq_refl) as (pieces & J & W & L3).
  exists (p :: pieces). split; [by rewrite Split, <- J|]. split; [apply Forall_cons; split; [rewrite Lp; exact Hn|done]|].
  rewrite L3, L2, L1, <- !app_assoc. f_equal. cbn [uart_commands view_bytes]. rewrite Lp.
  destruct (Z.eqb_spec (o + n) (zlen input)) as [Last|NL].
  - destruct pieces as [|q pieces]; [done|]. exfalso. apply Forall_cons in W as [Wq _].
    apply (f_equal zlen) in J. rewrite zlen_drop in J. cbn [mjoin list_join] in J. rewrite zlen_app in J.
    match type of J with _ + zlen ?l = _ => pose proof (zlen_nonneg l) end. lia.
  - destruct pieces as [|q pieces]; [|done]. exfalso. apply (f_equal zlen) in J. rewrite zlen_drop in J.
    change (zlen (mjoin [])) with 0 in J. unfold n in *. lia.
Qed.

(** Writing always ends; a success has handed the bridge the whole input in pieces
    of at most 48 bytes, in order and nothing else, and has announced the last
    piece, and only that one, right before sending it. *)
Theorem card_data_sent input st :
  steady st -> bytes_ok (view_bytes input) ->
  exists r st', write_card_data input st = Some (r, st') /\
    (r = success tt -> exists pieces, mjoin pieces = view_bytes input /\
       Forall (fun p => 1 <= zlen p <= kCardWriteChunkMaxLength) pieces /\
       sent st' = sent st ++ uart_commands pieces).
Proof.
  intros S B. destruct input as [n|input]; [by exists (failure INVALID_ARGUMENT), st|]. cbn [write_card_data view_bytes] in *.
  destruct (Z.eqb_spec (zlen input) 0); [by exists (failure INVALID_ARGUMENT), st|]. cbn [orb].
  destruct (Z.ltb_spec kCardFrameMaxLength (zlen input)); [by exists (failure INVALID_ARGUMENT), st|].
  pose proof (zlen_nonneg input).
  apply (write_chunks_effect (length input) input 0 st); [done|done|lia|done|unfold zlen; lia].
Qed.
End Card.

Lemma card_data_received_witness :
  exists r st', read_card_data (View (replicate 40 0)) (sim_state [None; Some TIMEOUT]) = Some (r, st') /\
    forall l, r = success l -> zlen l <= 40.
Proof.
  destruct (card_data_received (Dev := SimDevice) (View (replicate 40 0)) (sim_state [None; Some TIMEOUT]) (sim_steady _))
    as (r & st' & E & P).
  exists r, st'. split; [exact E|]. intros l El. exact (proj1 (P l El)).
Defined.

Lemma card_data_sent_witness :
  exists r st' pieces, write_card_data (View (replicate 100 7)) (sim_state []) = Some (r, st') /\ r = success tt /\
    mjoin pieces = replicate 100 7 /\ sent (Dev := SimDevice) st' = uart_commands pieces.
Proof.
  assert (bytes_ok (replicate 100 7)) as B by (apply bytes_okb_ok; vm_compute; reflexivity).
  destruct (card_data_sent (Dev := SimDevice) (View (replicate 100 7)) (sim_state []) (sim_steady _) B)
    as (r & st' & E & P).
  destruct (succeeded_run (write_card_data (View (replicate 100 7))) (sim_state [])) as ([] & st2 & E2);
    [vm_compute; reflexivity|].
  assert (r = success tt) as R by (rewrite E in E2; by injection E2 as -> _).
  destruct (P R) as (pieces & J & _ & L). exists r, st', pieces.
  split; [exact E|]. split; [exact R|]. split; [exact J|exact L].
Defined.
