(* ===== verification/BridgeI2c.v ===== *)
(** I2C transactions over the bridge ([src/bridge_i2c.cpp]).  A master is called
    with an array of requests; the buffers of its read requests are filled in
    place, which is why the array is part of the state of the call.  The buffers of
    one call do not overlap.  Its lock makes a call one step. *)

From S2P Require Import Prelude IoMonad It930xCommand It930xRegisters It930xEffects.

Inductive BridgeI2cRequestType := i2c_undefined | i2c_type_read | i2c_type_write | i2c_type_other (raw : Z).

#[export] Instance BridgeI2cRequestType_eq_dec : EqDecision BridgeI2cRequestType.
Proof. solve_decision. Defined.

(** [read_data] is the buffer with its contents. *)
Record BridgeI2cRequest := {
  rq_type : BridgeI2cRequestType;
  rq_address : Z;
  write_data : ByteView;
  read_data : ByteView;
}.

Record BridgeI2cFailureDetail := {
  detail_valid : bool;
  request_index : Z;
  detail_type : BridgeI2cRequestType;
  detail_address : Z;
  write_length : Z;
  read_length : Z;
  captured : list Z;
}.
Definition no_detail : BridgeI2cFailureDetail := {|
  detail_valid := false; request_index := 0; detail_type := i2c_undefined; detail_address := 0;
  write_length := 0; read_length := 0; captured := [];
|}.

Definition is_null (v : ByteView) : bool := match v with NullView _ => true | View _ => false end.

Definition validate_request (q : BridgeI2cRequest) : Result unit :=
  if 0x7f <? rq_address q then failure INVALID_ARGUMENT
  else
    match rq_type q with
    | i2c_type_read =>
        if (view_size (read_data q) =? 0) || is_null (read_data q) then failure INVALID_ARGUMENT else success tt
    | i2c_type_write =>
        if (view_size (write_data q) =? 0) || is_null (write_data q) then failure INVALID_ARGUMENT else success tt
    | _ => failure INVALID_ARGUMENT
    end.

(** The first four bytes of what was to be written are kept. *)
Definition capture_failure (index : Z) (q : BridgeI2cRequest) : BridgeI2cFailureDetail := {|
  detail_valid := true; request_index := index; detail_type := rq_type q; detail_address := rq_address q;
  write_length := view_size (write_data q); read_length := view_size (read_data q);
  captured := if is_null (write_data q) then [] else ztake (Z.min (view_size (write_data q)) 4) (view_bytes (write_data q));
|}.

Definition with_read_data (q : BridgeI2cRequest) (l : list Z) : BridgeI2cRequest :=
  {| rq_type := rq_type q; rq_address := rq_address q; write_data := write_data q; read_data := View l |}.

(** The validation of all requests, before any of them is carried out. *)
Fixpoint validate_all (l : list BridgeI2cRequest) : Result unit :=
  match l with
  | [] => success tt
  | q :: l => match validate_request q with success _ => validate_all l | failure e => failure e end
  end.

Section Operations.
Context {HW : Type} `{Transport HW}.

(** The array of the caller, the master's record of a failure, the controller. *)
Definition I2cSt : Type := list BridgeI2cRequest * BridgeI2cFailureDetail * St (HW := HW).

Definition set_detail (d : BridgeI2cFailureDetail) : Io I2cSt unit := modify (fun st => (st.1.1, d, st.2)).
Definition fill (index : nat) (l : list Z) : Io I2cSt unit :=
  modify (fun st => (alter (fun q => with_read_data q l) index st.1.1, st.1.2, st.2)).

(** Carries out the requests [l] from the one at [index] on. *)
Fixpoint perform_requests (bus : Z) (index : nat) (l : list BridgeI2cRequest) : Io I2cSt unit :=
  match l with
  | [] => mret tt
  | q :: l =>
      match rq_type q with
      | i2c_type_write =>
          result ← attempt (on_snd (i2c_write bus (rq_address q) (write_data q)));
          match result with
          | failure e => _ ← set_detail (capture_failure (Z.of_nat index) q); fail e
          | success _ => perform_requests bus (S index) l
          end
      | _ =>
          result ← attempt (on_snd (i2c_read bus (rq_address q) (view_size (read_data q))));
          match result with
          | failure e => _ ← set_detail (capture_failure (Z.of_nat index) q); fail e
          | success value =>
              if negb (zlen value =? view_size (read_data q))
              then _ ← set_detail (capture_failure (Z.of_nat index) q); fail PROTOCOL_ERROR
              else _ ← fill index value; perform_requests bus (S index) l
          end
      end
  end.

Definition request (bus : Z) : Io I2cSt unit :=
  _ ← set_detail no_detail;
  requests ← gets (fun st => st.1.1);
  match requests with
  | [] => fail INVALID_ARGUMENT
  | _ =>
      _ ← from_result (validate_all requests);
      perform_requests bus 0 requests
  end.
Definition failure_detail (st : I2cSt) : BridgeI2cFailureDetail := st.1.2.
End Operations.

(** * What a call has the bridge do *)

Definition i2c_command (bus : Z) (q : BridgeI2cRequest) : Z * list Z :=
  match rq_type q with
  | i2c_type_write =>
      (kI2cWrite, [cast_u8 (view_size (write_data q)); bus; cast_u8 (Z.shiftl (rq_address q) 1)] ++ view_bytes (write_data q))
  | _ => (kI2cRead, [cast_u8 (view_size (read_data q)); bus; cast_u8 (Z.shiftl (rq_address q) 1)])
  end.

Definition request_bytes_ok (q : BridgeI2cRequest) : Prop :=
  is_u8 (rq_address q) /\ bytes_ok (view_bytes (write_data q)).

Section Effects.
Context {HW Dev : Type} `{Bridge HW Dev} `{!CommandLog Dev}.

(** One command that is carried out once on success, at most once on failure; the
    result of a success is what the bridge answered. *)
Definition once {A} (command : Z * list Z) (m : Io (St (HW := HW)) A) (good : A -> list Z -> Prop) : Prop :=
  forall st, steady st -> returns m st (fun r st' =>
    steady st' /\ (sent st' = sent st \/ sent st' = sent st ++ [command]) /\
    (forall a, r = success a -> exists d, log (dev st') = log (dev st) ++ [(command, (0, d))] /\ good a d)).

Lemma once_refused {A} c e good : once (A := A) c (fail e) good.
Proof. intros st S. apply returns_fail. split; [done|]. split; [by left|done]. Qed.

Lemma log_grows command payload (st st' : St (HW := HW)) :
  dev st' = dev st \/ (exists o, executes command payload (dev st) o (dev st')) ->
  sent st' = sent st \/ sent st' = sent st ++ [(command, payload)].
Proof.
  unfold sent. intros [-> |(o & X)]; [by left|right]. rewrite (log_law _ _ _ _ _ X). by rewrite fmap_app.
Qed.

Lemma transact_once command payload :
  is_u16 command -> bytes_ok payload -> once (command, payload) (transact_locked command (View payload)) eq.
Proof.
  intros Hc Hp st S. destruct (transact_effect command (View payload) st S Hc Hp) as (r & st' & E & Q & D & X & _).
  exists r, st'. split; [done|]. split; [by eapply same_steady|]. split; [by apply log_grows|].
  intros d ->. exists d. split; [|done]. by rewrite (log_law _ _ _ _ _ (proj1 (X d eq_refl))).
Qed.

(** What is checked of the answer afterwards. *)
Lemma once_then {A} c (m : Io (St (HW := HW)) (list Z)) (k : list Z -> Io (St (HW := HW)) A) good :
  once c m eq ->
  (forall d st, returns (k d) st (fun r st' => st' = st /\ forall a, r = success a -> good a d)) ->
  once c (m ≫= k) good.
Proof.
  intros M K st S. apply returns_bind. destruct (M st S) as (r & st' & E & S' & L & G). exists r, st'. split; [done|].
  destruct r as [d|e]; [|by split].
  eapply returns_mono; [apply K|]. intros r st2 (-> & P). split; [done|]. split; [done|].
  intros b R. destruct (G d eq_refl) as (? & Ld & <-). exists d. split; [done|by apply P].
Qed.

Lemma i2c_read_once bus q :
  is_u8 bus -> rq_type q = i2c_type_read ->
  once (i2c_command bus q) (i2c_read (HW := HW) bus (rq_address q) (view_size (read_data q)))
    (fun l d => l = d /\ zlen l = view_size (read_data q)).
Proof.
  intros Hb T. unfold i2c_read, i2c_command. rewrite T. destruct (_ || _); [apply once_refused|].
  apply once_then.
  - apply transact_once; [done|]. repeat (apply Forall_cons; split; [first [done|apply cast_u8_ok]|]). constructor.
  - intros a st. destruct (Z.eqb_spec (zlen a) (view_size (read_data q))) as [L|].
    + eexists _, _. split; [done|]. split; [done|]. intros b R. injection R as <-. by split.
    + eexists _, _. by split.
Qed.

Lemma i2c_write_once bus q :
  is_u8 bus -> request_bytes_ok q -> rq_type q = i2c_type_write ->
  once (i2c_command bus q) (i2c_write (HW := HW) bus (rq_address q) (write_data q)) (fun _ d => d = []).
Proof.
  intros Hb [Ha Hw] T. unfold i2c_write, i2c_command. rewrite T.
  destruct (write_data q) as [n|values]; [apply once_refused|]. destruct (_ || _); [apply once_refused|].
  apply once_then.
  - apply transact_once; [done|]. cbn [view_bytes] in *. cbn [app].
    repeat (apply Forall_cons; split; [first [done|apply cast_u8_ok]|]). exact Hw.
  - intros a st. destruct (Z.eqb_spec (zlen a) 0) as [L|]; eexists _, _; [|by split].
    split; [done|]. split; [done|]. intros _ _. by apply zlen_0.
Qed.

Lemma validate_all_valid l : validate_all l = success tt -> Forall (fun q => validate_request q = success tt) l.
Proof.
  induction l as [|q l IH]; [done|]. cbn [validate_all]. destruct (validate_request q) as [[]|e] eqn:V; [|done].
  intros E. apply Forall_cons. split; [done|by apply IH].
Qed.
Lemma validate_request_error q e : validate_request q = failure e -> e = INVALID_ARGUMENT.
Proof. unfold validate_request. repeat case_match; congruence. Qed.
Lemma validate_all_error l e : validate_all l = failure e -> e = INVALID_ARGUMENT.
Proof.
  induction l as [|q l IH]; [done|]. cbn [validate_all]. destruct (validate_request q) as [[]|e'] eqn:V; [done|].
  intros E. injection E as <-. by eapply validate_request_error.
Qed.

(** The request with its buffer filled by an answer. *)
Definition answered (q : BridgeI2cRequest) (o : Outcome) : BridgeI2cRequest :=
  match rq_type q with i2c_type_write => q | _ => with_read_data q o.2 end.

(** A read buffer is filled completely. *)
Definition complete (q : BridgeI2cRequest) (o : Outcome) : Prop := rq_type q = i2c_type_read -> zlen o.2 = view_size (read_data q).

(** How carrying out [l] from [index] on ends. *)
Definition performed (bus : Z) (index : nat) (l : list BridgeI2cRequest) (s : I2cSt) (r : Result unit) (s' : I2cSt) : Prop :=
  match r with
  | success _ => exists outcomes, Forall (fun o => o.1 = 0) outcomes /\ length outcomes = length l /\ Forall2 complete l outcomes /\
      log (dev s'.2) = log (dev s.2) ++ zip (i2c_command bus <$> l) outcomes /\
      s'.1 = (take index s.1.1 ++ zip_with answered l outcomes, s.1.2)
  | failure _ => exists k q, l !! k = Some q /\ s'.1.2 = capture_failure (Z.of_nat (index + k)) q /\
      (sent s'.2 = sent s.2 ++ (i2c_command bus <$> take k l) \/
       sent s'.2 = sent s.2 ++ (i2c_command bus <$> take (S k) l))
  end.

Lemma valid_type q : validate_request q = success tt -> rq_type q = i2c_type_read \/ rq_type q = i2c_type_write.
Proof. unfold validate_request. destruct (_ <? _); [done|]. destruct (rq_type q); auto; done. Qed.

Lemma performed_failure bus index q l (s s' : I2cSt) e :
  sent s'.2 = sent s.2 \/ sent s'.2 = sent s.2 ++ [i2c_command bus q] ->
  s'.1.2 = capture_failure (Z.of_nat index) q -> performed bus index (q :: l) s (failure e) s'.
Proof.
  intros L D. exists 0%nat, q. split; [done|]. rewrite Nat.add_0_r. split; [done|].
  destruct L as [L|L]; rewrite L; [left|right]; [by rewrite app_nil_r|]. by rewrite firstn_cons, take_0.
Qed.

Lemma performed_success bus index q l o (s s1 s' : I2cSt) r :
  log (dev s1.2) = log (dev s.2) ++ [(i2c_command bus q, o)] -> o.1 = 0 -> s1.1.2 = s.1.2 ->
  take (S index) s1.1.1 = take index s.1.1 ++ [answered q o] -> complete q o ->
  performed bus (S index) l s1 r s' -> performed bus index (q :: l) s r s'.
Proof.
  intros L O D T Co P. destruct r as [[]|e].
  - destruct P as (os & F & N & Cs & L' & Q). exists (o :: os). split; [by apply Forall_cons|]. split; [cbn; by rewrite N|]. split; [by apply Forall2_cons|].
    split; [rewrite L', L, <- app_assoc; done|]. rewrite Q, D, T, <- app_assoc. done.
  - destruct P as (k & q' & K & C & S'). exists (S k), q'. split; [done|]. rewrite Nat.add_succ_r. split; [done|].
    assert (sent s1.2 = sent s.2 ++ [i2c_command bus q]) as L2 by (unfold sent; by rewrite L, fmap_app).
    rewrite L2 in S'.
    rewrite !firstn_cons, !fmap_cons. rewrite <- !app_assoc in S'. exact S'.
Qed.

Lemma perform_effect bus index l (s : I2cSt) :
  is_u8 bus -> steady s.2 -> Forall request_bytes_ok l -> Forall (fun q => validate_request q = success tt) l ->
  drop index s.1.1 = l -> (index <= length s.1.1)%nat ->
  returns (perform_requests bus index l) s (fun r s' => performed bus index l s r s' /\ steady s'.2).
Proof.
  intros Hb. revert index s. induction l as [|q l IH]; intros index s Hs B V D I; cbn [perform_requests].
  { apply returns_ret. split; [|done]. exists []. split; [constructor|]. split; [done|]. split; [constructor|]. split; [by rewrite app_nil_r|].
    assert (take index s.1.1 = s.1.1) as T by (rewrite <- (take_drop index s.1.1) at 2; by rewrite D, app_nil_r).
    cbn. rewrite app_nil_r, T. by destruct s as [[] ?]. }
  apply Forall_cons in B as [Bq B]. apply Forall_cons in V as [Vq V].
  assert (s.1.1 !! index = Some q) as Lq by (rewrite <- (Nat.add_0_r index), <- lookup_drop; by rewrite D).
  pose proof (lookup_lt_Some _ _ _ Lq).
  assert (forall s1, steady s1.2 -> drop (S index) s1.1.1 = l -> length s1.1.1 = length s.1.1 ->
    returns (perform_requests bus (S index) l) s1 (fun r s' => performed bus (S index) l s1 r s' /\ steady s'.2)) as IH' by (intros; apply IH; (done || lia)).
  assert (drop (S index) s.1.1 = l) as D1 by (rewrite (drop_S _ q index) in D by done; by injection D).
  destruct (valid_type q Vq) as [T|T]; rewrite T.
  - apply returns_bind, returns_attempt, returns_on_snd.
    eapply returns_mono; [by apply (i2c_read_once bus q)|]. intros [v|e] st1 (S1 & L & G).
    + destruct (G v eq_refl) as (d & Ld & <- & Lv). rewrite (proj2 (Z.eqb_eq _ _)) by done. cbn [negb].
      apply returns_bind. eexists _, _. split; [done|]. cbn beta iota.
      eapply returns_mono; [apply IH'|].
      * done.
      * cbn. rewrite drop_alter_lt by lia. done.
      * cbn. by rewrite length_alter.
      * intros r s' [P Sd]. split; [|done]. revert P. apply (performed_success _ _ _ _ (0, v)); [exact Ld|done|done| |by intros _].
        cbn. rewrite (take_S_r _ _ (with_read_data q v)); [|rewrite list_lookup_alter_eq, Lq; done].
        rewrite take_alter_ge by lia. f_equal. unfold answered. by rewrite T.
    + apply returns_bind. eexists _, _. split; [done|]. apply returns_fail. split; [|done]. apply performed_failure; [exact L|done].
  - apply returns_bind, returns_attempt, returns_on_snd.
    eapply returns_mono; [by apply (i2c_write_once bus q)|]. intros [[]|e] st1 (S1 & L & G).
    + destruct (G tt eq_refl) as (d & Ld & ->).
      eapply returns_mono; [apply (IH' (s.1, st1)); done|].
      intros r s' [P Sd]. split; [|done]. revert P. apply (performed_success _ _ _ _ (0, [])); [exact Ld|done|done| |by unfold complete; rewrite T].
      cbn. rewrite (take_S_r _ _ q) by done. unfold answered. by rewrite T.
    + apply returns_bind. eexists _, _. split; [done|]. apply returns_fail. split; [|done]. apply performed_failure; [exact L|done].
Qed.

(** A whole call: it is carried out, or refused before anything is sent. *)
Lemma request_performed bus requests d st :
  is_u8 bus -> steady st -> Forall request_bytes_ok requests ->
  exists r s', request bus (requests, d, st) = Some (r, s') /\ steady s'.2 /\
    (performed bus 0 requests (requests, no_detail, st) r s' \/ (r = failure INVALID_ARGUMENT /\ s' = (requests, no_detail, st))).
Proof.
  intros Hb Hs B. unfold request.
  rewrite (bind_success _ _ _ tt (requests, no_detail, st)) by done.
  rewrite (bind_success _ _ _ requests (requests, no_detail, st)) by done.
  destruct requests as [|q0 l0] eqn:R; [by exists (failure INVALID_ARGUMENT), ([], no_detail, st); split; [|split; [|right]]|].
  rewrite <- R in *. destruct (validate_all requests) as [[]|e] eqn:V.
  - rewrite (bind_success _ _ _ tt (requests, no_detail, st)) by done.
    destruct (perform_effect bus 0 requests (requests, no_detail, st)) as (r & s' & E & P & Sd);
      [done|done|done|by apply validate_all_valid|done|lia|].
    exists r, s'. split; [done|]. split; [done|]. by left.
  - rewrite (bind_failure _ _ _ e (requests, no_detail, st)) by done.
    exists (failure e), (requests, no_detail, st). split; [done|]. split; [done|]. right. by rewrite (validate_all_error _ _ V).
Qed.

(** A call carries out all of its requests once and in order, fills each read
    buffer with the answer to that very request and records no failure; or it
    fails, and then either some request was invalid, nothing was sent at all and
    nothing is recorded, or the record names the request at which it stopped: those
    before it were carried out in order, it itself at most once, none behind it. *)
Theorem i2c_request_correct bus requests d st :
  is_u8 bus -> steady st -> Forall request_bytes_ok requests ->
  exists r s', request bus (requests, d, st) = Some (r, s') /\
    match r with
    | success _ => exists outcomes, length outcomes = length requests /\
        log (dev s'.2) = log (dev st) ++ zip (i2c_command bus <$> requests) outcomes /\
        s'.1.1 = zip_with answered requests outcomes /\ failure_detail s' = no_detail
    | failure e =>
        (e = INVALID_ARGUMENT /\ s' = (requests, no_detail, st)) \/
        (exists k q, requests !! k = Some q /\ failure_detail s' = capture_failure (Z.of_nat k) q /\
          (sent s'.2 = sent st ++ (i2c_command bus <$> take k requests) \/
           sent s'.2 = sent st ++ (i2c_command bus <$> take (S k) requests)))
    end.
Proof.
  intros Hb Hs B. destruct (request_performed bus requests d st Hb Hs B) as (r & s' & E & _ & [P|[-> ->]]).
  - exists r, s'. split; [done|]. destruct r as [[]|e].
    + destruct P as (os & _ & N & _ & L & A). exists os. split; [done|]. split; [exact L|].
      unfold failure_detail. by rewrite A.
    + right. exact P.
  - exists (failure INVALID_ARGUMENT), (requests, no_detail, st). split; [done|]. by left.
Qed.
End Effects.

(** Selecting a register of a demodulator and reading three bytes of it. *)
Definition select_and_read : list BridgeI2cRequest := [
  {| rq_type := i2c_type_write; rq_address := 0x11; write_data := View [0x80]; read_data := NullView 0 |};
  {| rq_type := i2c_type_read; rq_address := 0x11; write_data := NullView 0; read_data := View [0; 0; 0] |} ].

Lemma i2c_request_correct_witness :
  exists r s', request 2 (select_and_read, no_detail, sim_state []) = Some (r, s') /\ is_success r = false /\
    exists k q, select_and_read !! k = Some q /\ failure_detail s' = capture_failure (Z.of_nat k) q.
Proof.
  destruct (i2c_request_correct (Dev := SimDevice) 2 select_and_read no_detail (sim_state [])) as (r & s' & E & P);
    [done|exact (sim_steady _)| |].
  { repeat (apply Forall_cons; split; [split; [done|by apply bytes_okb_ok]|]). constructor. }
  assert (option_map fst (request 2 (select_and_read, no_detail, sim_state [])) = Some (failure PROTOCOL_ERROR)) as R
    by (vm_compute; reflexivity).
  rewrite E in R. injection R as ->. exists (failure PROTOCOL_ERROR), s'. split; [exact E|]. split; [reflexivity|].
  destruct P as [[N _]|(k & q & K & D & _)]; [discriminate N|]. by exists k, q.
Defined.
