(* ===== verification/CardService.v ===== *)
(** The card service of the daemon ([src/card_service.cpp]): handles of clients
    on one card, their sharing and transactions, the power and the protocol
    session behind them, and what happens to handles when the card is changed.
    The class is declared in dtv-userland-core; its members are those the methods
    use, and nothing is assumed of their initial values beyond [idle].  Calls are
    serialized on the card lane, so that each of them is one step. *)

From S2P Require Import Prelude IoMonad CardAtr IpcTypes.

(** * The interfaces of the service *)

(** [CardServiceBackend]. *)
Class CardServiceBackend (HW : Type) := {
  set_power : bool -> HW -> Result unit * HW;
  initialize_uart : HW -> Result unit * HW;
  detect_inserted : HW -> Result bool * HW;
}.

(** The protocol session, of which [CardSession] is one.  [session_transmit] gives
    the bytes put at the start of a response buffer of the given size. *)
Class ProtocolSession (HW : Type) := {
  session_initialized : HW -> bool;
  session_atr : HW -> CardAtr;
  session_initialize : HW -> Result unit * HW;
  session_invalidate : HW -> HW;
  session_transmit : list Z -> Z -> HW -> Result (list Z) * HW;
}.

(** * State *)

Record HandleRecord := {
  handle : Z;
  client : Z;
  share_mode : ShareMode;
  generation_bound : bool;
  stale : bool;
}.

Record CardPresenceChange := { changed : bool; change_present : bool; change_generation : Z }.
Definition no_change : CardPresenceChange := {| changed := false; change_present := false; change_generation := 0 |}.

Record CardService := {
  handles_ : list HandleRecord;
  powered_ : bool;
  uart_initialized_ : bool;
  presence_known_ : bool;
  present_ : bool;
  reader_generation_ : Z;
  pending_presence_change_ : CardPresenceChange;
  presence_change_pending_ : bool;
  cached_atr_ : CardAtr;
  transaction_handle_ : Z;
  next_handle_ : Z;
}.

Record CardServiceStatus := {
  st_present : bool;
  st_initialized : bool;
  st_generation : Z;
  st_atr : CardAtr;
}.
Record CardServiceConnectResult := { connected_handle : Z; connected_atr : CardAtr }.

Definition with_share (r : HandleRecord) (m : ShareMode) : HandleRecord := {|
  handle := handle r; client := client r; share_mode := m; generation_bound := generation_bound r; stale := stale r |}.
Definition with_stale (r : HandleRecord) (b : bool) : HandleRecord := {|
  handle := handle r; client := client r; share_mode := share_mode r; generation_bound := generation_bound r; stale := b |}.

Definition with_handles (s : CardService) (l : list HandleRecord) : CardService := {|
  handles_ := l; powered_ := powered_ s; uart_initialized_ := uart_initialized_ s;
  presence_known_ := presence_known_ s; present_ := present_ s; reader_generation_ := reader_generation_ s;
  pending_presence_change_ := pending_presence_change_ s; presence_change_pending_ := presence_change_pending_ s;
  cached_atr_ := cached_atr_ s; transaction_handle_ := transaction_handle_ s; next_handle_ := next_handle_ s;
|}.
Definition with_power (s : CardService) (powered uart : bool) : CardService := {|
  handles_ := handles_ s; powered_ := powered; uart_initialized_ := uart;
  presence_known_ := presence_known_ s; present_ := present_ s; reader_generation_ := reader_generation_ s;
  pending_presence_change_ := pending_presence_change_ s; presence_change_pending_ := presence_change_pending_ s;
  cached_atr_ := cached_atr_ s; transaction_handle_ := transaction_handle_ s; next_handle_ := next_handle_ s;
|}.
Definition with_presence (s : CardService) (present : bool) : CardService := {|
  handles_ := handles_ s; powered_ := powered_ s; uart_initialized_ := uart_initialized_ s;
  presence_known_ := true; present_ := present; reader_generation_ := reader_generation_ s;
  pending_presence_change_ := pending_presence_change_ s; presence_change_pending_ := presence_change_pending_ s;
  cached_atr_ := cached_atr_ s; transaction_handle_ := transaction_handle_ s; next_handle_ := next_handle_ s;
|}.
(** [++reader_generation_] and the event that tells of it. *)
Definition with_event (s : CardService) (present : bool) : CardService :=
  let generation := cast_u64 (reader_generation_ s + 1) in {|
  handles_ := handles_ s; powered_ := powered_ s; uart_initialized_ := uart_initialized_ s;
  presence_known_ := presence_known_ s; present_ := present_ s; reader_generation_ := generation;
  pending_presence_change_ := {| changed := true; change_present := present; change_generation := generation |};
  presence_change_pending_ := true;
  cached_atr_ := cached_atr_ s; transaction_handle_ := transaction_handle_ s; next_handle_ := next_handle_ s;
|}.
Definition with_event_taken (s : CardService) : CardService := {|
  handles_ := handles_ s; powered_ := powered_ s; uart_initialized_ := uart_initialized_ s;
  presence_known_ := presence_known_ s; present_ := present_ s; reader_generation_ := reader_generation_ s;
  pending_presence_change_ := pending_presence_change_ s; presence_change_pending_ := false;
  cached_atr_ := cached_atr_ s; transaction_handle_ := transaction_handle_ s; next_handle_ := next_handle_ s;
|}.
Definition with_session (s : CardService) (a : CardAtr) (transaction : Z) : CardService := {|
  handles_ := handles_ s; powered_ := powered_ s; uart_initialized_ := uart_initialized_ s;
  presence_known_ := presence_known_ s; present_ := present_ s; reader_generation_ := reader_generation_ s;
  pending_presence_change_ := pending_presence_change_ s; presence_change_pending_ := presence_change_pending_ s;
  cached_atr_ := a; transaction_handle_ := transaction; next_handle_ := next_handle_ s;
|}.
Definition with_transaction (s : CardService) (h : Z) : CardService := with_session s (cached_atr_ s) h.
Definition with_next (s : CardService) (n : Z) : CardService := {|
  handles_ := handles_ s; powered_ := powered_ s; uart_initialized_ := uart_initialized_ s;
  presence_known_ := presence_known_ s; present_ := present_ s; reader_generation_ := reader_generation_ s;
  pending_presence_change_ := pending_presence_change_ s; presence_change_pending_ := presence_change_pending_ s;
  cached_atr_ := cached_atr_ s; transaction_handle_ := transaction_handle_ s; next_handle_ := n;
|}.

Definition is_card_loss (e : Error) : bool := bool_decide (e = NO_CARD) || bool_decide (e = CARD_REMOVED).
Definition valid_share (m : ShareMode) : bool := bool_decide (m = SM_shared) || bool_decide (m = SM_exclusive).
Definition valid_disposition (d : Disposition) : bool := bool_decide (d = DP_leave) || bool_decide (d = DP_reset).

(** The sticky invalidation of the handles that are bound to a card. *)
Definition stale_bound (r : HandleRecord) : HandleRecord := if generation_bound r then with_stale r true else r.

Section Service.
Context {HW : Type} `{CardServiceBackend HW} `{ProtocolSession HW}.

Definition St : Type := CardService * HW.
Definition Op : Type -> Type := Io St.

Definition service : Op CardService := gets fst.
Definition update (f : CardService -> CardService) : Op unit := modify (fun st => (f st.1, st.2)).
Definition hardware {A} (f : HW -> Result A * HW) : Op A := on_snd (call f).
Definition session_ready : Op bool := gets (fun st => session_initialized st.2).

(** [handles_[index]]; an index out of range would be undefined. *)
Definition record_at (index : nat) : Op HandleRecord := fun st =>
  match handles_ st.1 !! index with
  | None => None
  | Some r => Some (success r, st)
  end.
Definition set_record (index : nat) (f : HandleRecord -> HandleRecord) : Op unit :=
  update (fun s => with_handles s (alter f index (handles_ s))).

(** * Power and session *)

Definition invalidate_session : Op unit :=
  _ ← modify (fun st => (st.1, session_invalidate st.2));
  update (fun s => with_session s empty_atr 0).

Definition invalidate_bound_handles : Op unit :=
  update (fun s => with_handles s (stale_bound <$> handles_ s)).

Definition abandon_disconnected_hardware : Op unit :=
  _ ← update (fun s => with_power s false false);
  _ ← invalidate_bound_handles;
  invalidate_session.

(** After a failure of the card or the bridge. *)
Definition drop_session (e : Error) : Op unit :=
  if bool_decide (e = DISCONNECTED) then abandon_disconnected_hardware else invalidate_session.
Definition card_failed {A} (e : Error) : Op A :=
  _ ← (if is_card_loss e then invalidate_bound_handles else mret tt);
  _ ← drop_session e;
  fail e.

(** [off ? first : off]. *)
Definition prefer {A} (off : Result unit) (e : Error) : Op A :=
  match off with success _ => fail e | failure e' => fail e' end.

Definition power_up : Op unit :=
  s ← service;
  if powered_ s then mret tt
  else
    power ← attempt (hardware (set_power true));
    match power with
    | failure e =>
        if bool_decide (e = DISCONNECTED) then
          _ ← abandon_disconnected_hardware;
          fail e
        else
          off ← attempt (hardware (set_power false));
          prefer off e
    | success _ =>
        _ ← update (fun s => with_power s true (uart_initialized_ s));
        uart ← attempt (hardware initialize_uart);
        match uart with
        | failure e =>
            if bool_decide (e = DISCONNECTED) then
              _ ← abandon_disconnected_hardware;
              fail e
            else
              off ← attempt (hardware (set_power false));
              _ ← update (fun s => with_power s false false);
              prefer off e
        | success _ => update (fun s => with_power s (powered_ s) true)
        end
    end.

Definition power_down : Op unit :=
  _ ← invalidate_session;
  _ ← update (fun s => with_power s (powered_ s) false);
  s ← service;
  if negb (powered_ s) then mret tt
  else
    _ ← update (fun s => with_power s false (uart_initialized_ s));
    hardware (set_power false).

(** The presence, and what a caller is told of a change. *)
Definition detect_and_record (report_initial_change : bool) : Op (bool * CardPresenceChange) :=
  s ← service;
  if negb (powered_ s) || negb (uart_initialized_ s) then fail NOT_READY
  else
    detected ← attempt (hardware detect_inserted);
    match detected with
    | failure e => card_failed e
    | success d =>
        _ ← update (fun s => with_presence s d);
        _ ← (if negb d then invalidate_bound_handles else mret tt);
        let changed := if presence_known_ s then negb (eqb (present_ s) d) else report_initial_change in
        _ ← (if (changed : bool) then
               _ ← update (fun s => with_event s d);
               if negb d then invalidate_session else mret tt
             else mret tt);
        s ← service;
        mret (d, {| changed := changed; change_present := d; change_generation := reader_generation_ s |})
    end.

Definition ensure_session : Op unit :=
  _ ← power_up;
  ready ← session_ready;
  if (ready : bool) then
    '(present, _) ← detect_and_record false;
    require present CARD_REMOVED
  else
    initialized ← attempt (hardware session_initialize);
    match initialized with
    | failure e => card_failed e
    | success _ =>
        s ← service;
        _ ← (if presence_known_ s && negb (present_ s) then update (fun s => with_event s true) else mret tt);
        _ ← update (fun s => with_presence s true);
        a ← gets (fun st : St => session_atr st.2);
        update (fun s => with_session s a (transaction_handle_ s))
    end.

Definition ensure_handle_session (index : nat) : Op unit :=
  r ← record_at index;
  if stale r then fail CARD_REMOVED
  else
    ready ← session_ready;
    _ ← (if generation_bound r && negb ready then
           _ ← power_up;
           '(present, _) ← detect_and_record false;
           require present CARD_REMOVED
         else mret tt);
    _ ← ensure_session;
    r ← record_at index;
    if stale r then fail CARD_REMOVED else mret tt.

Definition reset_session (preserve_transaction : bool) : Op CardAtr :=
  s ← service;
  let transaction := if preserve_transaction then transaction_handle_ s else 0 in
  _ ← invalidate_session;
  _ ← ensure_session;
  _ ← update (fun s => with_transaction s transaction);
  s ← service;
  mret (cached_atr_ s).

(** * Status and presence *)

Definition status : Op CardServiceStatus :=
  s ← service;
  let temporary_power := negb (powered_ s) in
  _ ← power_up;
  detected ← attempt (detect_and_record false);
  ready ← session_ready;
  s ← service;
  let error := match detected with failure e => e | success _ => OK end in
  let present := match detected with success (d, _) => d | failure _ => false end in
  let result := {| st_present := present; st_initialized := present && ready; st_generation := reader_generation_ s;
                   st_atr := if present && ready then cached_atr_ s else empty_atr |} in
  '(error, result) ←
    (if temporary_power then
       off ← attempt power_down;
       mret (match off with failure e => e | success _ => error end,
             {| st_present := st_present result; st_initialized := false; st_generation := st_generation result;
                st_atr := empty_atr |})
     else mret (error, result));
  if bool_decide (error = OK) then mret result else fail error.

(** The search for a handle of a client. *)
Definition find_in (l : list HandleRecord) (c h : Z) : Result nat :=
  if (c =? 0) || (h =? 0) then failure INVALID_ARGUMENT
  else
    match list_find (fun r => handle r = h) l with
    | Some (index, r) => if client r =? c then success index else failure NOT_FOUND
    | None => failure NOT_FOUND
    end.
Definition find_handle (c h : Z) : Op nat :=
  s ← service;
  from_result (find_in (handles_ s) c h).

Definition handle_status (c h : Z) : Op CardServiceStatus :=
  index ← find_handle c h;
  r ← record_at index;
  _ ← require (negb (stale r)) CARD_REMOVED;
  snapshot ← attempt status;
  r ← record_at index;
  _ ← require (negb (stale r)) CARD_REMOVED;
  snapshot ← from_result snapshot;
  _ ← require (st_present snapshot) CARD_REMOVED;
  _ ← require (st_initialized snapshot) NOT_READY;
  mret snapshot.

Definition take_event (otherwise : CardPresenceChange) : Op CardPresenceChange :=
  s ← service;
  if presence_change_pending_ s then
    _ ← update with_event_taken;
    mret (pending_presence_change_ s)
  else mret otherwise.

Definition poll_presence : Op CardPresenceChange :=
  s ← service;
  if negb (powered_ s) || bool_decide (handles_ s = []) then
    take_event {| changed := false; change_present := present_ s; change_generation := reader_generation_ s |}
  else
    '(_, change) ← detect_and_record false;
    take_event change.

(** * Handles *)

(** [excluded] is the index of the handle that asks, if it has one. *)
Definition sharing_allowed (l : list HandleRecord) (requested : ShareMode) (excluded : option nat) : bool :=
  valid_share requested &&
  forallb (fun '(index, r) => bool_decide (excluded = Some index)
             || negb (bool_decide (requested = SM_exclusive) || bool_decide (share_mode r = SM_exclusive)))
    (zip (seq 0 (length l)) l).

(** The rounds of [allocate_handle]; one per handle, and two for the value zero. *)
Fixpoint allocate_loop (fuel : nat) : Op Z :=
  match fuel with
  | O => diverge
  | S fuel =>
      s ← service;
      let candidate := next_handle_ s in
      _ ← update (fun s => with_next s (cast_u64 (next_handle_ s + 1)));
      _ ← update (fun s => if next_handle_ s =? 0 then with_next s 1 else s);
      if candidate =? 0 then allocate_loop fuel
      else if existsb (fun r => handle r =? candidate) (handles_ s) then allocate_loop fuel
      else mret candidate
  end.
Definition allocate_handle : Op Z :=
  s ← service;
  allocate_loop (length (handles_ s) + 2).

Definition connect (c : Z) (m : ShareMode) (bound : bool) : Op CardServiceConnectResult :=
  if (c =? 0) || negb (valid_share m) then fail INVALID_ARGUMENT
  else
    s ← service;
    if negb (sharing_allowed (handles_ s) m None) then fail BUSY
    else
      let first_handle := bool_decide (handles_ s = []) in
      initialized ← attempt ensure_session;
      match initialized with
      | failure e =>
          _ ← (if first_handle then power_down else mret tt);
          fail e
      | success _ =>
          h ← allocate_handle;
          _ ← update (fun s => with_handles s (handles_ s ++
                 [{| handle := h; client := c; share_mode := m; generation_bound := bound; stale := false |}]));
          s ← service;
          mret {| connected_handle := h; connected_atr := cached_atr_ s |}
      end.

Definition transaction_allows (s : CardService) (h : Z) : bool :=
  (transaction_handle_ s =? 0) || (transaction_handle_ s =? h).

Definition apply_disposition (d : Disposition) : Op unit :=
  match d with
  | DP_leave => mret tt
  | DP_reset => _ ← reset_session false; mret tt
  | Disposition_other _ => fail INVALID_ARGUMENT
  end.

Definition reconnect (c h : Z) (m : ShareMode) (d : Disposition) : Op CardAtr :=
  if negb (valid_share m) || negb (valid_disposition d) then fail INVALID_ARGUMENT
  else
    index ← find_handle c h;
    s ← service;
    _ ← require (transaction_allows s h) BUSY;
    _ ← require (sharing_allowed (handles_ s) m (Some index)) BUSY;
    _ ← (if bool_decide (d = DP_reset)
         then _ ← reset_session (transaction_handle_ s =? h); mret tt
         else ensure_session);
    _ ← set_record index (fun r => with_stale (with_share r m) false);
    s ← service;
    mret (cached_atr_ s).

Definition release_handle (index : nat) : Op unit :=
  s ← service;
  match handles_ s !! index with
  | None => fail INVALID_ARGUMENT
  | Some r =>
      _ ← update (fun s => if transaction_handle_ s =? handle r then with_transaction s 0 else s);
      _ ← update (fun s => with_handles s (delete index (handles_ s)));
      s ← service;
      if bool_decide (handles_ s = []) then power_down else mret tt
  end.

Definition disconnect (c h : Z) (d : Disposition) : Op unit :=
  if negb (valid_disposition d) then fail INVALID_ARGUMENT
  else
    index ← find_handle c h;
    r ← record_at index;
    s ← service;
    if negb (stale r) && bool_decide (d = DP_reset) && negb (transaction_allows s h) then fail BUSY
    else
      applied ← attempt (if stale r then mret tt else apply_disposition d);
      released ← attempt (release_handle index);
      let first := match applied with failure e => e | success _ => OK end in
      let first := match released with failure e => e | success _ => first end in
      if bool_decide (first = OK) then mret tt else fail first.

Definition reset (c h : Z) : Op CardAtr :=
  index ← find_handle c h;
  s ← service;
  _ ← require (transaction_allows s h) BUSY;
  a ← reset_session (transaction_handle_ s =? h);
  _ ← set_record index (fun r => with_stale r false);
  mret a.

(** [response] is the caller's buffer, of which the size matters. *)
Definition transmit (c h : Z) (apdu response : ByteView) : Op (list Z) :=
  match apdu, response with
  | View apdu, View buffer =>
      if (zlen apdu =? 0) || (kMaxCardPayload <? zlen apdu) || (zlen buffer =? 0) then fail INVALID_ARGUMENT
      else
        index ← find_handle c h;
        r ← record_at index;
        _ ← require (negb (stale r)) CARD_REMOVED;
        s ← service;
        _ ← require (transaction_allows s h) BUSY;
        initialized ← attempt (ensure_handle_session index);
        match initialized with
        | failure e =>
            _ ← update (fun s => with_transaction s 0);
            fail e
        | success _ =>
            result ← attempt (hardware (session_transmit apdu (zlen buffer)));
            match result with
            | failure e => card_failed e
            | success l => mret l
            end
        end
  | _, _ => fail INVALID_ARGUMENT
  end.

Definition begin_transaction (c h : Z) : Op unit :=
  index ← find_handle c h;
  r ← record_at index;
  _ ← require (negb (stale r)) CARD_REMOVED;
  s ← service;
  _ ← require (transaction_handle_ s =? 0) BUSY;
  _ ← ensure_handle_session index;
  update (fun s => with_transaction s h).

Definition end_transaction (c h : Z) (d : Disposition) : Op unit :=
  index ← find_handle c h;
  r ← record_at index;
  _ ← require (negb (stale r)) CARD_REMOVED;
  s ← service;
  _ ← require (transaction_handle_ s =? h) BUSY;
  _ ← update (fun s => with_transaction s 0);
  apply_disposition d.

(** The loop drops the handles of the client, and its transaction. *)
Definition release_connection (c : Z) : Op unit :=
  if c =? 0 then fail INVALID_ARGUMENT
  else
    _ ← update (fun s =>
          let mine := existsb (fun r => (client r =? c) && (transaction_handle_ s =? handle r)) (handles_ s) in
          let s' := if mine then with_transaction s 0 else s in
          with_handles s' (List.filter (fun r => negb (client r =? c)) (handles_ s)));
    s ← service;
    if bool_decide (handles_ s = []) then power_down else mret tt.

Definition shutdown : Op unit :=
  _ ← update (fun s => with_transaction (with_handles s []) 0);
  power_down.
End Service.

(** What the service relies on: an invalidated session is not initialised, and
    the backend does not touch the session. *)
Class SessionLaws (HW : Type) `{CardServiceBackend HW} `{ProtocolSession HW} := {
  invalidate_law : forall hw, session_initialized (session_invalidate hw) = false;
  power_law : forall on hw, session_initialized (set_power on hw).2 = session_initialized hw;
  uart_law : forall hw, session_initialized (initialize_uart hw).2 = session_initialized hw;
  detect_law : forall hw, session_initialized (detect_inserted hw).2 = session_initialized hw;
}.

(** * All operations *)

Inductive CardOp :=
  | OpStatus
  | OpHandleStatus (c h : Z)
  | OpPoll
  | OpConnect (c : Z) (m : ShareMode) (bound : bool)
  | OpReconnect (c h : Z) (m : ShareMode) (d : Disposition)
  | OpDisconnect (c h : Z) (d : Disposition)
  | OpReset (c h : Z)
  | OpTransmit (c h : Z) (apdu response : ByteView)
  | OpBegin (c h : Z)
  | OpEnd (c h : Z) (d : Disposition)
  | OpRelease (c : Z)
  | OpShutdown.

Section Operations.
Context {HW : Type} `{CardServiceBackend HW} `{ProtocolSession HW}.

Definition void {A} (m : Op (HW := HW) A) : Op unit := _ ← m; mret tt.

Definition run_op (o : CardOp) : Op (HW := HW) unit :=
  match o with
  | OpStatus => void status
  | OpHandleStatus c h => void (handle_status c h)
  | OpPoll => void poll_presence
  | OpConnect c m b => void (connect c m b)
  | OpReconnect c h m d => void (reconnect c h m d)
  | OpDisconnect c h d => disconnect c h d
  | OpReset c h => void (reset c h)
  | OpTransmit c h a b => void (transmit c h a b)
  | OpBegin c h => begin_transaction c h
  | OpEnd c h d => end_transaction c h d
  | OpRelease c => release_connection c
  | OpShutdown => shutdown
  end.

(** A sequence of calls, each of which has to return. *)
Fixpoint run_ops (ops : list CardOp) (st : St (HW := HW)) : option (St (HW := HW)) :=
  match ops with
  | [] => Some st
  | o :: ops => match run_op o st with None => None | Some (_, st') => run_ops ops st' end
  end.
End Operations.
