(* ===== verification/CardServiceSteps.v ===== *)
(** Steps of the card service: the invariant of its state between the steps of an
    operation, what the steps on power and session leave of the handles, and what
    each of them establishes. *)

From S2P Require Import Prelude IoMonad CardAtr IpcTypes CardService.

(** ** Handles *)

(** What a handle is for, apart from being stale. *)
Definition shape (r : HandleRecord) : Z * Z * ShareMode := (handle r, client r, share_mode r).
Definition shapes (s : CardService) : list (Z * Z * ShareMode) := shape <$> handles_ s.

Definition key (x : Z * Z * ShareMode) : Z := x.1.1.

Lemma key_shapes (s : CardService) : key <$> shapes s = handle <$> handles_ s.
Proof. unfold shapes. by rewrite <- list_fmap_compose. Qed.

Record shapes_ok (l : list (Z * Z * ShareMode)) : Prop := {
  handles_differ : NoDup (key <$> l);
  handles_named : Forall (fun x => 0 < x.1.1 < 2 ^ 64 /\ x.1.2 <> 0 /\ valid_share x.2 = true) l;
  exclusive_alone : forall x, x ∈ l -> x.2 = SM_exclusive -> l = [x];
}.

(** Handles may have become stale, those that are bound. *)
Definition aged : list HandleRecord -> list HandleRecord -> Prop := Forall2 (fun r r' => r' = r \/ r' = stale_bound r).

Lemma aged_refl l : aged l l.
Proof. apply Forall2_same_length_lookup_2; [done|]. intros i x y Hx Hy. left. congruence. Qed.
Lemma stale_bound_twice r : stale_bound (stale_bound r) = stale_bound r.
Proof. unfold stale_bound. by destruct (generation_bound r) eqn:B; cbn; rewrite ?B. Qed.
Lemma aged_trans l1 l2 l3 : aged l1 l2 -> aged l2 l3 -> aged l1 l3.
Proof.
  intros A B. eapply (Forall2_trans _ _ _ l1 l2 l3); [|exact A|exact B]. intros x y z [-> | ->] [-> | ->]; auto.
  right. apply stale_bound_twice.
Qed.
Lemma aged_bound l : aged l (stale_bound <$> l).
Proof. apply Forall2_fmap_r, Forall2_same_length_lookup_2; [done|]. intros i x y Hx Hy. right. congruence. Qed.
Lemma shape_bound r : shape (stale_bound r) = shape r.
Proof. unfold stale_bound. by destruct (generation_bound r). Qed.
Lemma aged_shapes l l' : aged l l' -> shape <$> l' = shape <$> l.
Proof.
  intros A. induction A as [|x y l l' [-> | ->] A IH]; [done|..]; rewrite !fmap_cons, IH; [done|by rewrite shape_bound].
Qed.

Section Facts.
Context {HW : Type} `{SessionLaws HW}.
#[local] Abbreviation St := (St (HW := HW)).

(** The state between two steps of an operation. *)
Record core (st : St) : Prop := {
  core_shapes : shapes_ok (shapes st.1);
  core_transaction : transaction_handle_ st.1 = 0 \/ transaction_handle_ st.1 ∈ handle <$> handles_ st.1;
  core_power : uart_initialized_ st.1 = powered_ st.1;
  core_session : session_initialized st.2 = true -> powered_ st.1 = true;
  core_next : is_u64 (next_handle_ st.1);
}.

(** What steps on power and session leave of the rest. *)
Record later (st st' : St) : Prop := {
  later_handles : aged (handles_ st.1) (handles_ st'.1);
  later_next : next_handle_ st'.1 = next_handle_ st.1;
  later_transaction : transaction_handle_ st'.1 = transaction_handle_ st.1 \/ transaction_handle_ st'.1 = 0;
}.

Lemma later_refl st : later st st.
Proof. split; [apply aged_refl|done|by left]. Qed.
Lemma later_trans st1 st2 st3 : later st1 st2 -> later st2 st3 -> later st1 st3.
Proof.
  intros [A1 N1 T1] [A2 N2 T2]. split; [by eapply aged_trans|congruence|].
  destruct T2 as [-> | ->]; auto.
Qed.
Lemma later_shapes st st' : later st st' -> shapes st'.1 = shapes st.1.
Proof. intros [A _ _]. by apply aged_shapes. Qed.

Lemma shapes_handles (s s' : CardService) : shapes s' = shapes s -> handle <$> handles_ s' = handle <$> handles_ s.
Proof. intros E. by rewrite <- !key_shapes, E. Qed.

(** From a state on, only power, session and staleness have changed. *)
Lemma core_later st st' :
  core st -> later st st' -> uart_initialized_ st'.1 = powered_ st'.1 ->
  (session_initialized st'.2 = true -> powered_ st'.1 = true) -> core st'.
Proof.
  intros C L P S. pose proof (later_shapes _ _ L) as E. split; [by rewrite E; apply C| |done|done|].
  - rewrite (shapes_handles _ _ E). destruct L as [_ _ [-> | ->]]; [apply C|by left].
  - destruct L as [_ -> _]. apply C.
Qed.

(** ** Rules *)

Lemma service_rule {A} (k : CardService -> Op A) st (Q : Result A -> St -> Prop) :
  returns (k st.1) st Q -> returns (s ← service; k s) st Q.
Proof. intros R. apply returns_bind. eexists _, _. split; [done|exact R]. Qed.
Lemma update_rule {A} f (k : unit -> Op A) st (Q : Result A -> St -> Prop) :
  returns (k tt) (f st.1, st.2) Q -> returns (u ← update f; k u) st Q.
Proof. intros R. apply returns_bind. eexists _, _. split; [done|exact R]. Qed.
Lemma ready_rule {A} (k : bool -> Op A) (st : St) (Q : Result A -> St -> Prop) :
  returns (k (session_initialized st.2)) st Q -> returns (b ← session_ready; k b) st Q.
Proof. intros R. apply returns_bind. eexists _, _. split; [done|exact R]. Qed.
Lemma hardware_rule {A B} (f : HW -> Result A * HW) (k : Result A -> Op B) st (Q : Result B -> St -> Prop) :
  (forall r hw, f st.2 = (r, hw) -> returns (k r) (st.1, hw) Q) -> returns (r ← attempt (hardware f); k r) st Q.
Proof.
  intros R. apply returns_bind. destruct (f st.2) as [r hw] eqn:E. exists (success r), (st.1, hw).
  split; [unfold attempt, hardware, on_snd, call; by rewrite E|by apply R].
Qed.
Lemma record_rule {A} index r (k : HandleRecord -> Op A) (st : St) (Q : Result A -> St -> Prop) :
  handles_ st.1 !! index = Some r -> returns (k r) st Q -> returns (r ← record_at index; k r) st Q.
Proof. intros E R. apply returns_bind. exists (success r), st. split; [unfold record_at; by rewrite E|exact R]. Qed.
Lemma require_rule {A} (c : bool) e (k : unit -> Op A) (st : St) (Q : Result A -> St -> Prop) :
  (c = true -> returns (k tt) st Q) -> (c = false -> Q (failure e) st) -> returns (u ← require c e; k u) st Q.
Proof.
  intros T F. apply returns_bind. destruct c; [eexists _, _; split; [done|by apply T]|].
  eexists _, _. split; [done|by apply F].
Qed.

(** A step of the core. *)
Definition steps {A} (m : Op A) (Q : St -> Result A -> St -> Prop) : Prop :=
  forall st, core st -> returns m st (fun r st' => core st' /\ later st st' /\ Q st r st').

Lemma steps_rule {A B} (m : Op A) (P : St -> Result A -> St -> Prop) (k : A -> Op B) st0 st (Q : Result B -> St -> Prop) :
  steps m P -> core st -> later st0 st ->
  (forall r st', core st' -> later st0 st' -> later st st' -> P st r st' ->
     match r with success a => returns (k a) st' Q | failure e => Q (failure e) st' end) ->
  returns (m ≫= k) st Q.
Proof.
  intros M C L K. apply returns_bind. destruct (M st C) as (r & st' & E & C' & L' & P').
  exists r, st'. split; [done|]. specialize (K r st' C' (later_trans _ _ _ L L') L' P'). by destruct r.
Qed.
Lemma attempt_rule {A B} (m : Op A) (P : St -> Result A -> St -> Prop) (k : Result A -> Op B) st0 st (Q : Result B -> St -> Prop) :
  steps m P -> core st -> later st0 st ->
  (forall r st', core st' -> later st0 st' -> later st st' -> P st r st' -> returns (k r) st' Q) ->
  returns (r ← attempt m; k r) st Q.
Proof.
  intros M C L K. apply returns_bind. destruct (M st C) as (r & st' & E & C' & L' & P').
  exists (success r), st'. split; [unfold attempt; by rewrite E|]. by apply K; try done; eapply later_trans.
Qed.

Lemma invalidate_steps : steps invalidate_session (fun st r st' =>
  r = success tt /\ session_initialized st'.2 = false /\ transaction_handle_ st'.1 = 0 /\
  powered_ st'.1 = powered_ st.1 /\ handles_ st'.1 = handles_ st.1).
Proof.
  intros [s hw] C. eexists _, _. split; [done|]. cbn [fst snd].
  assert (later (s, hw) (with_session s empty_atr 0, session_invalidate hw)) as L by (split; [apply aged_refl|done|by right]).
  split; [|split; [exact L|split; [done|split; [apply invalidate_law|done]]]].
  apply (core_later _ _ C L); cbn; [apply C|]. by rewrite invalidate_law.
Qed.

Lemma bound_steps : steps invalidate_bound_handles (fun st r st' =>
  r = success tt /\ powered_ st'.1 = powered_ st.1 /\ session_initialized st'.2 = session_initialized st.2 /\
  handles_ st'.1 = stale_bound <$> handles_ st.1 /\ transaction_handle_ st'.1 = transaction_handle_ st.1).
Proof.
  intros [s hw] C. eexists _, _. split; [done|]. cbn [fst snd].
  assert (later (s, hw) (with_handles s (stale_bound <$> handles_ s), hw)) as L by (split; [apply aged_bound|done|by left]).
  split; [|split; [exact L|done]]. apply (core_later _ _ C L); cbn; apply C.
Qed.

Lemma abandon_steps : steps abandon_disconnected_hardware (fun st r st' => r = success tt /\ powered_ st'.1 = false /\
  transaction_handle_ st'.1 = 0 /\ handles_ st'.1 = stale_bound <$> handles_ st.1).
Proof.
  intros [s hw] C. eexists _, _. split; [done|]. cbn [fst snd].
  match goal with |- core ?x /\ _ => assert (later (s, hw) x) as L by (split; [apply aged_bound|done|by right]) end.
  split; [|split; [exact L|done]]. apply (core_later _ _ C L); cbn; [done|]. by rewrite invalidate_law.
Qed.

Lemma drop_steps e : steps (drop_session e) (fun st r st' => r = success tt /\
  transaction_handle_ st'.1 = 0 /\ (powered_ st.1 = false -> powered_ st'.1 = false)).
Proof.
  intros st C. unfold drop_session. destruct (bool_decide (e = DISCONNECTED)).
  - eapply returns_mono; [by apply abandon_steps|]. intros r st' (? & ? & ? & ? & ? & _). done.
  - eapply returns_mono; [by apply invalidate_steps|]. intros r st' (? & ? & ? & ? & ? & P & _).
    split; [done|]. split; [done|]. split; [done|]. split; [done|]. by rewrite P.
Qed.

Lemma card_failed_steps {A} e : steps (card_failed (A := A) e) (fun st r st' => r = failure e /\ transaction_handle_ st'.1 = 0 /\
  (powered_ st.1 = false -> powered_ st'.1 = false)).
Proof.
  intros st C. unfold card_failed.
  assert (steps (if is_card_loss e then invalidate_bound_handles else mret tt) (fun st r st' => r = success tt /\ powered_ st'.1 = powered_ st.1)) as S.
  { intros s Cs. destruct (is_card_loss e).
    - eapply returns_mono; [by apply bound_steps|]. intros r st' (? & ? & ? & ? & _). done.
    - apply returns_ret. split; [done|]. split; [apply later_refl|done]. }
  eapply (steps_rule _ _ _ st); [exact S|done|apply later_refl|]. intros r st1 C1 L1 _ (-> & P1).
  eapply (steps_rule _ _ _ st); [apply drop_steps|done|done|]. intros r2 st2 C2 L2 _ (-> & T2 & P2).
  apply returns_fail. split; [done|]. split; [done|]. split; [done|]. split; [done|]. rewrite <- P1. exact P2.
Qed.

Lemma hw_core s hw hw' :
  core (s, hw) -> session_initialized hw' = session_initialized hw -> core (s, hw').
Proof. intros [A B C D E] F. split; [done..| |done]. cbn in *. by rewrite F. Qed.

Lemma later_same (s s' : CardService) (hw hw' : HW) :
  handles_ s' = handles_ s -> next_handle_ s' = next_handle_ s -> transaction_handle_ s' = transaction_handle_ s ->
  later (s, hw) (s', hw').
Proof. intros A B C. split; cbn; [rewrite A; apply aged_refl|done|by left]. Qed.

Lemma power_up_steps : steps power_up (fun st r st' => powered_ st'.1 = is_success r /\
  (powered_ st.1 = true -> st' = st)).
Proof.
  intros [s hw] C. unfold power_up. apply service_rule. cbn [fst snd]. destruct (powered_ s) eqn:P.
  { apply returns_ret. by split; [|split; [apply later_refl|]]. }
  pose proof (core_power _ C) as U. cbn in U. rewrite P in U.
  assert (session_initialized hw = false) as N.
  { destruct (session_initialized hw) eqn:I; [|done]. pose proof (core_session _ C I) as Q. cbn in Q. congruence. }
  assert (forall off hw2 (e : Error) (s' : CardService), handles_ s' = handles_ s -> next_handle_ s' = next_handle_ s ->
    transaction_handle_ s' = transaction_handle_ s -> powered_ s' = false -> uart_initialized_ s' = false ->
    session_initialized hw2 = false ->
    returns (prefer (A := unit) off e) (s', hw2) (fun r st' => core st' /\ later (s, hw) st' /\
      powered_ st'.1 = is_success r /\ (false = true -> st' = (s, hw)))) as Off.
  { intros off hw2 e s' E1 E2 E3 E4 E5 E6. assert (later (s, hw) (s', hw2)) as L by by apply later_same.
    assert (core (s', hw2)) as C' by (apply (core_later _ _ C L); cbn; congruence).
    destruct off; apply returns_fail; by split; [|split]. }
  apply hardware_rule. intros r1 hw1 E1. cbn [snd] in E1.
  assert (session_initialized hw1 = false) as N1 by (pose proof (power_law true hw) as W; rewrite E1 in W; cbn in W; congruence).
  destruct r1 as [[]|e].
  - apply update_rule. cbn [fst snd]. apply hardware_rule. intros r2 hw2 E2. cbn [fst snd] in *.
    assert (session_initialized hw2 = false) as N2 by (pose proof (uart_law hw1) as W; rewrite E2 in W; cbn in W; congruence).
    destruct r2 as [[]|e].
    + eexists _, _. split; [done|]. cbn.
      match goal with |- core ?x /\ _ => assert (later (s, hw) x) as L by by apply later_same end.
      split; [|split; [exact L|done]]. by apply (core_later _ _ C L).
    + destruct (bool_decide (e = DISCONNECTED)).
      * eexists _, _. split; [done|]. cbn.
        match goal with |- core ?x /\ _ => assert (later (s, hw) x) as L by (split; [apply aged_bound|done|by right]) end.
        split; [|split; [exact L|done]]. apply (core_later _ _ C L); cbn; [done|]. by rewrite invalidate_law.
      * apply hardware_rule. intros r3 hw3 E3. cbn [fst snd] in *. apply update_rule. apply Off; try done. all: cbn [fst snd with_power handles_ next_handle_] in *; try done.
        pose proof (power_law false hw2) as W. rewrite E3 in W. cbn in W. congruence.
  - assert (core (s, hw1)) as C1 by (apply (hw_core s hw); [done|congruence]).
    destruct (bool_decide (e = DISCONNECTED)).
    + eapply (steps_rule _ _ _ (s, hw)); [apply abandon_steps|exact C1|by apply later_same|].
      intros r st' C' L' _ (-> & Pw & _). apply returns_fail. by split; [|split].
    + apply hardware_rule. intros r3 hw3 E3. cbn [fst snd] in *. apply Off; try done.
      pose proof (power_law false hw1) as W. rewrite E3 in W. cbn in W. congruence.
Qed.

Lemma power_down_steps : steps power_down (fun st r st' => powered_ st'.1 = false /\ session_initialized st'.2 = false /\
  handles_ st'.1 = handles_ st.1).
Proof.
  intros [s hw] C. unfold power_down.
  eapply (steps_rule _ _ _ (s, hw)); [apply invalidate_steps|done|apply later_refl|].
  intros r [s1 hw1] C1 L1 _ (-> & N1 & T1 & P1 & Hh1). cbn [fst snd] in *. apply update_rule, service_rule. cbn [fst snd with_power powered_].
  destruct (powered_ s1) eqn:P; cbn [negb].
  - apply update_rule. cbn [fst snd]. destruct (set_power false hw1) as [r2 hw2] eqn:E2.
    exists r2. eexists. split; [unfold hardware, on_snd, call; cbn [snd]; by rewrite E2|]. cbn.
    assert (session_initialized hw2 = false) as N2 by (pose proof (power_law false hw1) as W; rewrite E2 in W; cbn in W; congruence).
    match goal with |- core ?x /\ _ => assert (later (s, hw) x) as L by (eapply later_trans; [exact L1|by apply later_same]) end.
    split; [|split; [exact L|done]]. apply (core_later _ _ C L); cbn; [done|]. by rewrite N2.
  - eexists _, _. split; [done|]. cbn.
    match goal with |- core ?x /\ _ => assert (later (s, hw) x) as L by (eapply later_trans; [exact L1|by apply later_same]) end.
    split; [|split; [exact L|done]]. apply (core_later _ _ C L); cbn; [done|]. by rewrite N1.
Qed.

(** Whether some handle is stale can only change by it becoming so. *)
Lemma update_steps f : (forall s, handles_ (f s) = handles_ s /\ next_handle_ (f s) = next_handle_ s /\
    transaction_handle_ (f s) = transaction_handle_ s /\ powered_ (f s) = powered_ s /\ uart_initialized_ (f s) = uart_initialized_ s) ->
  steps (update f) (fun st r st' => r = success tt /\ st' = (f st.1, st.2)).
Proof.
  intros F [s hw] C. destruct (F s) as (A & B & D & P & U). eexists _, _. split; [done|]. cbn [fst snd].
  assert (later (s, hw) (f s, hw)) as L by by apply later_same.
  split; [|split; [exact L|done]]. apply (core_later _ _ C L); cbn; [rewrite P, U; apply C|rewrite P; apply C].
Qed.

Lemma steps_ret {A} (a : A) : steps (mret a : Op A) (fun st r st' => r = success a /\ st' = st).
Proof. intros st C. apply returns_ret. split; [done|]. split; [apply later_refl|done]. Qed.

Lemma steps_if {A} (c : bool) (m1 m2 : Op A) Q1 Q2 :
  steps m1 Q1 -> steps m2 Q2 -> steps (if c then m1 else m2) (fun st r st' => if c then Q1 st r st' else Q2 st r st').
Proof. by destruct c. Qed.

(** What finding the card absent does: the bound handles are stale. *)
Definition all_bound_stale (l : list HandleRecord) : Prop := Forall (fun r => generation_bound r = true -> stale r = true) l.
Lemma bound_all_stale l : all_bound_stale (stale_bound <$> l).
Proof. apply Forall_fmap, Forall_true. intros r. unfold stale_bound. cbn. by destruct (generation_bound r) eqn:B; cbn; rewrite ?B. Qed.
Lemma aged_all_stale l l' : aged l l' -> all_bound_stale l -> all_bound_stale l'.
Proof.
  intros A. induction A as [|x y l l' [-> | ->] A IH]; [done|..]; intros F; apply Forall_cons in F as [Fx F];
    apply Forall_cons; (split; [|by apply IH]); [done|].
  unfold stale_bound. by destruct (generation_bound x) eqn:B; cbn; rewrite ?B.
Qed.

Lemma detect_steps report : steps (detect_and_record report) (fun st r st' =>
  powered_ st.1 = true -> match r with
    | success (d, c) => powered_ st'.1 = true /\ change_present c = d /\ (d = false -> all_bound_stale (handles_ st'.1))
    | failure e => True end).
Proof.
  intros [s hw] C. unfold detect_and_record. apply service_rule. cbn [fst snd].
  destruct (negb (powered_ s) || negb (uart_initialized_ s)) eqn:G.
  { apply returns_fail. split; [done|]. split; [apply later_refl|done]. }
  apply orb_false_iff in G as [G _]. apply negb_false_iff in G.
  apply hardware_rule. intros r1 hw1 E1. cbn [fst snd] in *.
  assert (core (s, hw1)) as C1.
  { apply (hw_core s hw); [done|]. pose proof (detect_law hw) as W. by rewrite E1 in W. }
  assert (later (s, hw) (s, hw1)) as L1 by by apply later_same.
  destruct r1 as [d|e].
  2: { eapply returns_mono; [by apply card_failed_steps|]. intros r st' (? & L & -> & _).
       split; [done|]. split; [by eapply later_trans|done]. }
  eapply (steps_rule _ _ _ (s, hw)); [apply (update_steps (fun s => with_presence s d)); done|exact C1|exact L1|].
  intros r2 st2 C2 L2 _ (-> & ->). cbn [fst snd] in *.
  eapply (steps_rule _ _ _ (s, hw)); [apply (steps_if (negb d)); [apply bound_steps|apply steps_ret]|exact C2|exact L2|].
  intros r3 [s3 hw3] C3 L3 _ P3.
  assert (r3 = success tt /\ powered_ s3 = true /\ (d = false -> all_bound_stale (handles_ s3))) as (-> & P3' & B3).
  { destruct d; cbn [negb] in P3; [by destruct P3 as [-> [= -> ->]]|]. destruct P3 as (-> & P & _ & B & _). cbn in P, B.
    split; [done|]. split; [by rewrite P|]. intros _. rewrite B. apply bound_all_stale. }
  cbv zeta. set (ch := if presence_known_ s then negb (eqb (present_ s) d) else report).
  assert (steps (if ch then _ ← update (fun s => with_event s d); if negb d then invalidate_session else mret tt else mret tt)
    (fun st r st' => r = success tt /\ powered_ st'.1 = powered_ st.1)) as St4.
  { intros st C'. destruct ch.
    - eapply (steps_rule _ _ _ st); [apply (update_steps (fun s => with_event s d)); done|done|apply later_refl|].
      intros r4 st4 C4 L4 _ (-> & ->). destruct d; cbn [negb].
      + apply returns_ret. split; [done|]. split; [done|]. done.
      + eapply returns_mono; [by apply invalidate_steps|]. intros r st' (? & L' & -> & _ & _ & P & _).
        split; [done|]. split; [by eapply later_trans|]. by rewrite P.
    - apply returns_ret. split; [done|]. split; [apply later_refl|done]. }
  eapply (steps_rule _ _ _ (s, hw)); [exact St4|exact C3|exact L3|].
  intros r4 [s4 hw4] C4 L4 L34 (-> & P4). cbn [fst snd] in P4. apply service_rule, returns_ret.
  split; [done|]. split; [done|]. intros _. cbn. split; [congruence|]. split; [done|].
  intros D. eapply aged_all_stale; [apply L34|by apply B3].
Qed.

Lemma ensure_steps : steps ensure_session (fun st r st' =>
  (powered_ st'.1 = true \/ is_success r = false) /\
  (r = success tt -> powered_ st'.1 = true)).
Proof.
  intros [s hw] C. unfold ensure_session.
  eapply (steps_rule _ _ _ (s, hw)); [apply power_up_steps|done|apply later_refl|].
  intros r1 [s1 hw1] C1 L1 _ (P1 & _). cbn [fst snd] in *. destruct r1 as [[]|e1]; [|split; [done|]; split; [done|]; split; [by right|done]].
  cbn [is_success] in P1. apply ready_rule. cbn [snd]. destruct (session_initialized hw1) eqn:I1.
  - eapply (steps_rule _ _ _ (s, hw)); [apply detect_steps|exact C1|exact L1|].
    intros r2 [s2 hw2] C2 L2 _ D. cbn [fst snd] in *. specialize (D P1). destruct r2 as [[d c]|e2].
    + destruct D as (P2 & _ & _). destruct d; [apply returns_ret|apply returns_fail]; (split; [done|]; split; [done|]; split; [by left|done]).
    + split; [done|]. split; [done|]. split; [by right|done].
  - apply hardware_rule. intros r2 hw2 E2. cbn [fst snd] in *.
    assert (core (s1, hw2)) as C2.
    { destruct C1 as [A B D F G]. split; [done..|by intros _|done]. }
    assert (later (s, hw) (s1, hw2)) as L2 by (eapply later_trans; [exact L1|by apply later_same]).
    destruct r2 as [[]|e2].
    2: { eapply returns_mono; [by apply card_failed_steps|]. intros r st' (? & L & -> & _).
         split; [done|]. split; [by eapply later_trans|]. split; [by right|done]. }
    apply service_rule. cbn [fst].
    eapply (steps_rule _ _ _ (s, hw));
      [apply (steps_if (presence_known_ s1 && negb (present_ s1))); [apply (update_steps (fun s => with_event s true)); done|apply steps_ret]|exact C2|exact L2|].
    intros r3 [s3 hw3] C3 L3 _ P3.
    assert (r3 = success tt /\ powered_ s3 = true) as (-> & P3').
    { destruct (_ && _); destruct P3 as [-> [= -> ->]]; done. }
    eapply (steps_rule _ _ _ (s, hw)); [apply (update_steps (fun s => with_presence s true)); done|exact C3|exact L3|].
    intros r4 st4 C4 L4 _ (-> & ->). cbn [fst snd] in *.
    apply returns_bind. eexists _, _. split; [done|]. cbn beta iota.
    eapply returns_mono; [apply (update_steps (fun s => with_session s (session_atr hw3) (transaction_handle_ s))); [done|exact C4]|].
    intros r st' (C5 & L5 & -> & ->). split; [done|]. split; [by eapply later_trans|]. split; [by left|done].
Qed.

Lemma reset_steps b : steps (reset_session b) (fun st r st' => True).
Proof.
  intros [s hw] C. unfold reset_session. apply service_rule. cbn [fst].
  eapply (steps_rule _ _ _ (s, hw)); [apply invalidate_steps|done|apply later_refl|].
  intros r1 st1 C1 L1 _ (-> & _).
  eapply (steps_rule _ _ _ (s, hw)); [apply ensure_steps|exact C1|exact L1|].
  intros r2 [s2 hw2] C2 L2 _ _. destruct r2 as [[]|e]; [|done].
  apply update_rule, service_rule, returns_ret. cbn [fst snd].
  assert (later (s, hw) (with_transaction s2 (if b then transaction_handle_ s else 0), hw2)) as L.
  { split; [apply L2|apply L2|]. cbn. destruct b; auto. }
  split; [|split; [exact L|done]]. apply (core_later _ _ C L); cbn; apply C2.
Qed.

Lemma steps_weaken {A} (m : Op A) Q : steps m Q -> steps m (fun _ _ _ => True).
Proof. intros M st C. eapply returns_mono; [by apply M|]. intros r st' (? & ? & _). done. Qed.

Lemma attempt_steps {A} (m : Op A) Q : steps m Q -> steps (attempt m) (fun _ _ _ => True).
Proof. intros M st C. apply returns_attempt. eapply returns_mono; [by apply M|]. intros r st' (? & ? & _). done. Qed.

(** Status leaves the power as it found it, or off. *)
Lemma status_steps : steps status (fun st r st' => powered_ st'.1 = true -> powered_ st.1 = true).
Proof.
  intros [s hw] C. unfold status. apply service_rule. cbn [fst]. cbv zeta.
  eapply (steps_rule _ _ _ (s, hw)); [apply power_up_steps|done|apply later_refl|].
  intros r1 st1 C1 L1 _ (P1 & _). destruct r1 as [[]|e1]; [|split; [done|]; split; [done|]; by rewrite P1].
  eapply (attempt_rule _ _ _ (s, hw)); [apply detect_steps|exact C1|exact L1|].
  intros r2 st2 C2 L2 _ _. apply ready_rule, service_rule.
  destruct (powered_ s) eqn:P; cbn [negb].
  - apply returns_bind. eexists _, _. split; [done|]. cbn beta iota.
    destruct (bool_decide _); [apply returns_ret|apply returns_fail]; done.
  - apply returns_bind. eapply (attempt_rule _ _ _ (s, hw)); [apply power_down_steps|exact C2|exact L2|].
    intros r3 st3 C3 L3 _ (P3 & _). apply returns_ret. cbn beta iota.
    destruct (bool_decide _); [apply returns_ret|apply returns_fail]; (split; [done|]; split; [done|]; by rewrite P3).
Qed.

Lemma take_event_steps o : steps (take_event o) (fun st r st' => powered_ st'.1 = powered_ st.1).
Proof.
  intros [s hw] C. unfold take_event. apply service_rule. cbn [fst]. destruct (presence_change_pending_ s).
  - eapply (steps_rule _ _ _ (s, hw)); [apply (update_steps with_event_taken); done|done|apply later_refl|].
    intros r st' C' L' _ (-> & ->). by apply returns_ret.
  - apply returns_ret. split; [done|]. split; [apply later_refl|done].
Qed.

Lemma poll_steps : steps poll_presence (fun st r st' => handles_ st.1 = [] -> powered_ st'.1 = powered_ st.1).
Proof.
  intros [s hw] C. unfold poll_presence. apply service_rule. cbn [fst].
  destruct (negb (powered_ s) || bool_decide (handles_ s = [])) eqn:G.
  - eapply returns_mono; [by apply take_event_steps|]. intros r st' (? & ? & ?). done.
  - apply orb_false_iff in G as [_ G]. apply bool_decide_eq_false in G.
    eapply (steps_rule _ _ _ (s, hw)); [apply detect_steps|done|apply later_refl|].
    intros r1 st1 C1 L1 _ _. destruct r1 as [[d c]|e]; [|done].
    eapply returns_mono; [by apply take_event_steps|]. intros r st' (? & ? & _).
    split; [done|]. split; [by eapply later_trans|done].
Qed.

(** ** Finding a handle *)

Lemma find_in_success l c h index :
  find_in l c h = success index -> exists r, l !! index = Some r /\ handle r = h /\ client r = c /\ c <> 0 /\ h <> 0.
Proof.
  unfold find_in. destruct (Z.eqb_spec c 0); [done|]. destruct (Z.eqb_spec h 0); [done|]. cbn [orb].
  destruct (list_find _ l) as [[i r]|] eqn:F; [|done]. apply list_find_Some in F as (L & E & _).
  destruct (Z.eqb_spec (client r) c); [|done]. intros X. injection X as <-. by exists r.
Qed.

Lemma find_rule {A} c h (k : nat -> Op A) (st : St) (Q : Result A -> St -> Prop) :
  (forall index r, find_in (handles_ st.1) c h = success index -> handles_ st.1 !! index = Some r -> handle r = h -> client r = c ->
     returns (k index) st Q) ->
  (forall e, find_in (handles_ st.1) c h = failure e -> Q (failure e) st) -> returns (i ← find_handle c h; k i) st Q.
Proof.
  intros S F. unfold find_handle. apply returns_bind, service_rule.
  destruct (find_in (handles_ st.1) c h) as [index|e] eqn:E.
  - destruct (find_in_success _ _ _ _ E) as (r & L & Hh & Hc & _). eexists _, _. split; [done|]. by apply (S index r).
  - eexists _, _. split; [done|]. by apply F.
Qed.

Lemma later_lookup st st' index r :
  later st st' -> handles_ st.1 !! index = Some r ->
  exists r', handles_ st'.1 !! index = Some r' /\ (r' = r \/ r' = stale_bound r).
Proof. intros [A _ _] L. by destruct (Forall2_lookup_l _ _ _ _ _ A L) as (r' & L' & X); exists r'. Qed.

Lemma handle_status_steps c h : steps (handle_status c h) (fun st _ st' => handles_ st.1 = [] -> st' = st).
Proof.
  intros st C. unfold handle_status. apply find_rule.
  2: { intros e _. split; [done|]. split; [apply later_refl|done]. }
  intros index r _ L _ _.
  assert (handles_ st.1 <> []) as N by (intros E; by rewrite E in L).
  apply (record_rule index r); [done|].
  apply require_rule; [intros _|intros _; split; [done|]; split; [apply later_refl|done]].
  eapply (attempt_rule _ _ _ st); [apply status_steps|done|apply later_refl|].
  intros r1 st1 C1 L1 _ _. destruct (later_lookup _ _ _ _ L1 L) as (r' & L' & _).
  apply (record_rule index r'); [done|].
  apply require_rule; [intros _|done]. apply returns_bind. eexists _, _. split; [done|]. cbn beta iota.
  destruct r1 as [x|e]; [|done]. apply require_rule; [intros _|done]. apply require_rule; [intros _|done].
  by apply returns_ret.
Qed.

Lemma ensure_handle_steps index st :
  core st -> (index < length (handles_ st.1))%nat ->
  returns (ensure_handle_session index) st (fun r st' => core st' /\ later st st' /\
    (r = success tt -> powered_ st'.1 = true)).
Proof.
  intros C I. destruct (lookup_lt_is_Some_2 _ _ I) as [r L]. unfold ensure_handle_session.
  apply (record_rule index r); [done|]. destruct (stale r).
  { apply returns_fail. split; [done|]. split; [apply later_refl|done]. }
  apply ready_rule.
  assert (steps (if generation_bound r && negb (session_initialized st.2)
     then _ ← power_up; '(present, _) ← detect_and_record false; require present CARD_REMOVED else mret tt) (fun _ _ _ => True)) as St.
  { intros s Cs. destruct (_ && _); [|eapply returns_mono; [by apply steps_ret|]; by intros ?? (? & ? & _)].
    eapply (steps_rule _ _ _ s); [apply power_up_steps|done|apply later_refl|]. intros r1 s1 C1 L1 _ _.
    destruct r1; [|done]. eapply (steps_rule _ _ _ s); [apply detect_steps|done|done|]. intros r2 s2 C2 L2 _ _.
    destruct r2 as [[[] c]|e]; [by apply returns_ret|by apply returns_fail|done]. }
  eapply (steps_rule _ _ _ st); [exact St|done|apply later_refl|]. intros r1 st1 C1 L1 _ _. destruct r1; [|done].
  eapply (steps_rule _ _ _ st); [apply ensure_steps|done|done|]. intros r2 st2 C2 L2 _ [_ P2]. destruct r2 as [[]|]; [|done].
  specialize (P2 eq_refl). destruct (later_lookup _ _ _ _ L2 L) as (r' & L' & _). apply (record_rule index r'); [done|].
  destruct (stale r') eqn:Sr; [by apply returns_fail|]. by apply returns_ret.
Qed.

(** ** New handles *)

(** The value of [next_handle_] after one round. *)
Definition next_value (n : Z) : Z := if cast_u64 (n + 1) =? 0 then 1 else cast_u64 (n + 1).

Lemma next_value_range n : is_u64 n -> 0 < next_value n < 2 ^ 64.
Proof.
  intros Hn. unfold next_value. pose proof (cast_u64_ok (n + 1)) as B. unfold is_u64 in B.
  destruct (Z.eqb_spec (cast_u64 (n + 1)) 0); lia.
Qed.

(** Counted from a value in use, the following ones are all different. *)
Definition position (n i : Z) : Z := (n - 1 + i) mod (2 ^ 64 - 1) + 1.
Lemma next_position n i : 0 < n < 2 ^ 64 -> 0 <= i -> next_value (position n i) = position n (i + 1).
Proof.
  intros Hn Hi. unfold next_value, position, cast_u64.
  assert (0 <= (n - 1 + i) mod (2 ^ 64 - 1) < 2 ^ 64 - 1) as B by (apply Z.mod_pos_bound; lia).
  set (q := (n - 1 + i) mod (2 ^ 64 - 1)) in *.
  assert ((n - 1 + (i + 1)) mod (2 ^ 64 - 1) = (q + 1) mod (2 ^ 64 - 1)) as ->.
  { unfold q. rewrite Z.add_mod_idemp_l by lia. f_equal. lia. }
  destruct (Z.eq_dec q (2 ^ 64 - 2)) as [->|N]; [done|].
  rewrite (Z.mod_small (q + 1 + 1)), (Z.mod_small (q + 1)) by lia.
  destruct (Z.eqb_spec (q + 1 + 1) 0); lia.
Qed.

Lemma position_inj n i j : 0 <= i < 2 ^ 64 - 1 -> 0 <= j < 2 ^ 64 - 1 -> position n i = position n j -> i = j.
Proof.
  unfold position. intros Hi Hj E. assert ((n - 1 + i) mod (2 ^ 64 - 1) = (n - 1 + j) mod (2 ^ 64 - 1)) as M by lia.
  pose proof (Z.div_mod (n - 1 + i) (2 ^ 64 - 1) ltac:(lia)). pose proof (Z.div_mod (n - 1 + j) (2 ^ 64 - 1) ltac:(lia)).
  nia.
Qed.

Definition used (s : CardService) (h : Z) : bool := existsb (fun r => handle r =? h) (handles_ s).
Lemma used_spec s h : used s h = true <-> h ∈ handle <$> handles_ s.
Proof.
  unfold used. rewrite existsb_exists. split.
  - intros (r & I & E). apply Z.eqb_eq in E as <-. apply list_elem_of_fmap_2. by apply list_elem_of_In.
  - intros I. apply list_elem_of_fmap in I as (r & -> & I). exists r. split; [by apply list_elem_of_In|apply Z.eqb_refl].
Qed.

(** A round that ends the search, or goes on to the next value. *)
Lemma allocate_round fuel (s : CardService) (hw : HW) :
  allocate_loop (S fuel) (s, hw) =
    let s' := with_next s (next_value (next_handle_ s)) in
    if (next_handle_ s =? 0) || used s (next_handle_ s) then allocate_loop fuel (s', hw)
    else Some (success (next_handle_ s), (s', hw)).
Proof.
  cbn [allocate_loop]. unfold service, update, gets, modify, mbind, Io_bind, used, next_value. cbn.
  destruct (cast_u64 (next_handle_ s + 1) =? 0); cbn; destruct (next_handle_ s =? 0); cbn; try done;
    by destruct (existsb _ _).
Qed.

Lemma allocate_from n k (s : CardService) (hw : HW) fuel :
  0 < n < 2 ^ 64 -> 0 <= k -> next_handle_ s = position n k ->
  (forall i, 0 <= i < k -> used s (position n i) = true) -> k <= Z.of_nat (length (handles_ s)) ->
  Z.of_nat (length (handles_ s)) < 2 ^ 64 - 2 -> Z.of_nat (length (handles_ s)) - k < Z.of_nat fuel ->
  exists h s', allocate_loop fuel (s, hw) = Some (success h, (s', hw)) /\ 0 < h < 2 ^ 64 /\ used s h = false /\
    exists m, is_u64 m /\ s' = with_next s m.
Proof.
  intros Hn. revert k s. induction fuel as [|fuel IH]; intros k s Hk En Us Lk Lm F; [lia|].
  rewrite allocate_round. cbv zeta. rewrite En.
  assert (0 < position n k < 2 ^ 64) as Pk by (unfold position; pose proof (Z.mod_pos_bound (n - 1 + k) (2 ^ 64 - 1) ltac:(lia)); lia).
  assert (next_value (position n k) = position n (k + 1)) as Nx by by apply next_position.
  rewrite (proj2 (Z.eqb_neq _ _)) by lia. cbn [orb]. destruct (used s (position n k)) eqn:U.
  - (* all of the values so far are handles *)
    assert (k < Z.of_nat (length (handles_ s))) as Lk'.
    { apply Z.le_neq. split; [done|]. intros E.
      assert (length ((fun i => position n i) <$> seqZ 0 (k + 1)) <= length (handle <$> handles_ s))%nat as G.
      { apply submseteq_length, NoDup_submseteq.
        - apply NoDup_fmap_2_strong; [|apply NoDup_seqZ]. intros x y Hx Hy. apply elem_of_seqZ in Hx, Hy.
          apply position_inj; lia.
        - intros x Hx. apply list_elem_of_fmap in Hx as (i & -> & Hi). apply elem_of_seqZ in Hi.
          apply used_spec. destruct (Z.eq_dec i k) as [->|]; [done|]. apply Us. lia. }
      rewrite !length_fmap, length_seqZ in G. lia. }
    assert (forall i, 0 <= i < k + 1 -> used (with_next s (position n (k + 1))) (position n i) = true) as Us'.
    { intros i Hi. destruct (Z.eq_dec i k) as [->|]; [done|]. apply Us. lia. }
    rewrite Nx. destruct (IH (k + 1) (with_next s (position n (k + 1))) ltac:(lia) eq_refl Us' ltac:(cbn; lia) ltac:(cbn; lia) ltac:(cbn; lia))
      as (h & s' & E & P & V & m & M & ->).
    exists h. eexists. split; [exact E|]. split; [done|]. split; [done|]. by exists m.
  - exists (position n k). eexists. split; [done|]. split; [done|]. split; [done|]. eexists. split; [|done].
    pose proof (next_value_range (position n k)). unfold is_u64 in *. lia.
Qed.

Lemma allocate_fresh (s : CardService) (hw : HW) :
  is_u64 (next_handle_ s) -> Z.of_nat (length (handles_ s)) < 2 ^ 64 - 2 ->
  exists h s', allocate_handle (s, hw) = Some (success h, (s', hw)) /\ 0 < h < 2 ^ 64 /\ used s h = false /\
    exists m, is_u64 m /\ s' = with_next s m.
Proof.
  intros Hn L. unfold allocate_handle. rewrite (bind_success _ _ _ s (s, hw)) by done.
  destruct (Z.eq_dec (next_handle_ s) 0) as [Z0|N].
  2: { assert (position (next_handle_ s) 0 = next_handle_ s) as P.
       { unfold position, is_u64 in *. rewrite Z.add_0_r, Z.mod_small; lia. }
       apply (allocate_from (next_handle_ s) 0); unfold is_u64 in *; try (done || lia). }
  - rewrite Nat.add_succ_r, allocate_round. cbv zeta. rewrite Z0. cbn [Z.eqb orb].
    change (next_value 0) with 1.
    destruct (allocate_from 1 0 (with_next s 1) hw (length (handles_ s) + 1)) as (h & s' & E & Ph & V & m & M & ->);
      [done|lia|done|lia|cbn; lia|cbn; lia|cbn; lia|].
    exists h. eexists. split; [exact E|]. split; [done|]. split; [done|]. by exists m.
Qed.
End Facts.
