(* ===== verification/CardServiceCalls.v ===== *)
(** Calls of the card service: every call returns, keeps the invariant and never
    makes a stale handle fresh by accident; the theorems on the service, and a
    reader to try them on. *)

From S2P Require Import Prelude IoMonad CardAtr IpcTypes CardService CardServiceSteps.

(** The handle an operation gives a new card. *)
Definition renewed (o : CardOp) : option Z :=
  match o with OpReconnect _ h _ _ | OpReset _ h => Some h | _ => None end.

Section Facts.
Context {HW : Type} `{SessionLaws HW}.
#[local] Abbreviation St := (St (HW := HW)).

(** The state between two calls: no client, no power. *)
Record boundary (st : St) : Prop := {
  boundary_core : core st;
  boundary_power : powered_ st.1 = true -> handles_ st.1 <> [];
}.

(** A stale handle stays stale until it is renewed or given up. *)
Definition stale_kept (renew : option Z) (st st' : St) : Prop :=
  forall r r', r ∈ handles_ st.1 -> r' ∈ handles_ st'.1 -> handle r' = handle r -> stale r = true ->
    renew <> Some (handle r) -> stale r' = true.

(** What a call does. *)
Definition call_ok {A} (renew : option Z) (m : Op A) : Prop :=
  forall st, boundary st -> Z.of_nat (length (handles_ st.1)) < 2 ^ 64 - 2 ->
    returns m st (fun _ st' => boundary st' /\ (length (handles_ st'.1) <= S (length (handles_ st.1)))%nat /\
      stale_kept renew st st').

Lemma handles_unique (s : CardService) i j r r' :
  shapes_ok (shapes s) -> handles_ s !! i = Some r -> handles_ s !! j = Some r' -> handle r = handle r' -> i = j.
Proof.
  intros O A B E. pose proof (handles_differ _ O) as N.
  rewrite key_shapes in N.
  apply (NoDup_lookup _ i j (handle r) N); rewrite list_lookup_fmap; [by rewrite A|rewrite B; cbn; by rewrite E].
Qed.

Lemma later_stale renew (st st' : St) : core st -> later st st' -> stale_kept renew st st'.
Proof.
  intros C L r r' I I' E S _. apply list_elem_of_lookup in I as (i & I), I' as (j & I').
  destruct (later_lookup _ _ _ _ L I) as (r2 & I2 & X).
  assert (core st) as [Cs _ _ _ _] by done. rewrite <- (later_shapes _ _ L) in Cs.
  assert (handle r2 = handle r) as E2 by (destruct X as [-> | ->]; [done|]; unfold stale_bound; by destruct (generation_bound r)).
  assert (i = j) as <- by (apply (handles_unique _ _ _ r2 r' Cs); [done|done|congruence]).
  rewrite I2 in I'. injection I' as <-. destruct X as [-> | ->]; [done|]. unfold stale_bound. by destruct (generation_bound r).
Qed.

Lemma later_length (st st' : St) : later st st' -> length (handles_ st'.1) = length (handles_ st.1).
Proof. intros [A _ _]. symmetry. by eapply Forall2_length. Qed.

(** A call that only changes power, session and staleness. *)
Lemma later_call renew (st st' : St) :
  boundary st -> core st' -> later st st' -> (handles_ st.1 = [] -> powered_ st'.1 = true -> powered_ st.1 = true) ->
  boundary st' /\ (length (handles_ st'.1) <= S (length (handles_ st.1)))%nat /\ stale_kept renew st st'.
Proof.
  intros [C P] C' L K. pose proof (later_length _ _ L) as E. split; [|split; [lia|by apply later_stale]].
  split; [done|]. intros P' N. rewrite N in E. cbn in E. symmetry in E. apply nil_length_inv in E.
  by apply P; [apply K|].
Qed.

Lemma steps_call {A} renew (m : Op A) Q :
  steps m Q -> (forall st r st', Q st r st' -> handles_ st.1 = [] -> powered_ st'.1 = true -> powered_ st.1 = true) -> call_ok renew m.
Proof.
  intros M K st B _. eapply returns_mono; [apply M, B|]. intros r st' (C' & L & X). apply later_call; try done. by apply (K st r).
Qed.

Lemma void_call {A} renew (m : Op A) : call_ok renew m -> call_ok renew (void m).
Proof.
  intros M st B L. unfold void. apply returns_bind. eapply returns_mono; [by apply M|]. intros [a|e] st' X; [|done].
  by apply returns_ret.
Qed.

Lemma refused_call renew (st : St) : boundary st ->
  boundary st /\ (length (handles_ st.1) <= S (length (handles_ st.1)))%nat /\ stale_kept renew st st.
Proof. intros B. apply later_call; [done|apply B|apply later_refl|done]. Qed.

(** ** Sharing *)

Lemma shapes_sublist l l' : l' `sublist_of` l -> shapes_ok l -> shapes_ok l'.
Proof.
  intros S [N F X]. split.
  - eapply sublist_NoDup; [exact N|]. clear -S. induction S; rewrite ?fmap_cons; by constructor.
  - clear -S F. induction S; [done|apply Forall_cons in F as [? F]; apply Forall_cons; auto|apply Forall_cons in F as [? F]; auto].
  - intros x I E. assert (x ∈ l) as I' by by eapply elem_of_sublist. rewrite (X x I' E) in S.
    destruct l' as [|y l']; [by apply not_elem_of_nil in I|].
    apply sublist_length in S as Z. cbn in Z. destruct l'; [|cbn in Z; lia]. by apply list_elem_of_singleton in I as ->.
Qed.

Lemma zip_index {A} (l : list A) n j x : (j, x) ∈ zip (seq n (length l)) l <-> (n <= j)%nat /\ l !! (j - n)%nat = Some x.
Proof.
  revert n. induction l as [|y l IH]; intros n; cbn [length seq zip_with].
  { split; [by intros ?%not_elem_of_nil|]. by rewrite lookup_nil; intros [_ ?]. }
  rewrite elem_of_cons, IH. split.
  - intros [[= -> ->]|[L E]]; [by rewrite Nat.sub_diag|]. split; [lia|].
    by replace (j - n)%nat with (S (j - S n)) by lia.
  - intros [L E]. destruct (decide (j = n)) as [->|N]; [left; rewrite Nat.sub_diag in E; by injection E as ->|].
    right. split; [lia|]. by replace (j - n)%nat with (S (j - S n)) in E by lia.
Qed.

Lemma sharing_spec l m ex :
  sharing_allowed l m ex = true <->
    valid_share m = true /\ forall j r, l !! j = Some r -> ex = Some j \/ (m <> SM_exclusive /\ share_mode r <> SM_exclusive).
Proof.
  unfold sharing_allowed. rewrite andb_true_iff, forallb_forall. split; intros [V F]; (split; [done|]).
  - intros j r L. specialize (F (j, r)). cbn in F.
    assert ((j, r) ∈ zip (seq 0 (length l)) l) as I by (apply zip_index; rewrite Nat.sub_0_r; split; [lia|done]).
    apply list_elem_of_In in I. specialize (F I). apply orb_true_iff in F as [F|F]; [left; by apply bool_decide_eq_true in F|right].
    apply negb_true_iff, orb_false_iff in F as [F1 F2]. apply bool_decide_eq_false in F1, F2. done.
  - intros [j r] I. apply list_elem_of_In, zip_index in I as [_ L]. rewrite Nat.sub_0_r in L.
    destruct (F j r L) as [-> |[N1 N2]]; apply orb_true_iff; [left; by apply bool_decide_eq_true|right].
    by rewrite !(bool_decide_false (_ = SM_exclusive)).
Qed.

Lemma shapes_alter (s : CardService) i r m b :
  shapes_ok (shapes s) -> sharing_allowed (handles_ s) m (Some i) = true -> handles_ s !! i = Some r ->
  shapes_ok (shape <$> alter (fun r => with_stale (with_share r m) b) i (handles_ s)).
Proof.
  intros [N F X] A L. apply sharing_spec in A as [V A].
  assert (key <$> (shape <$> alter (fun r => with_stale (with_share r m) b) i (handles_ s)) = key <$> shapes s) as K.
  { rewrite key_shapes, <- list_fmap_compose. apply list_eq. intros j. rewrite !list_lookup_fmap.
    destruct (decide (j = i)) as [->|Ne]; [rewrite list_lookup_alter_eq|by rewrite list_lookup_alter_ne].
    by destruct (handles_ s !! i). }
  split; [by rewrite K| |].
  - apply Forall_lookup. intros j x. rewrite list_lookup_fmap. unfold shapes in F. rewrite Forall_fmap in F.
    destruct (decide (j = i)) as [->|Ne]; [rewrite list_lookup_alter_eq, L|rewrite list_lookup_alter_ne by done]; cbn.
    + intros E. injection E as <-. by destruct (Forall_lookup_1 _ _ _ _ F L) as (? & ? & _).
    + destruct (handles_ s !! j) as [y|] eqn:Ly; [|done]. cbn. intros E. injection E as <-. by apply (Forall_lookup_1 _ _ _ _ F Ly).
  - intros x I Ex. apply list_elem_of_lookup in I as (j & I). rewrite list_lookup_fmap in I.
    destruct (decide (j = i)) as [->|Ne]; [rewrite list_lookup_alter_eq, L in I|rewrite list_lookup_alter_ne in I by done].
    + cbn in I. injection I as <-. cbn in Ex. subst m.
      assert (forall k y, handles_ s !! k = Some y -> k = i) as Only.
      { intros k y Ly. destruct (A k y Ly) as [E|[E _]]; [by injection E|done]. }
      destruct (handles_ s) as [|y [|z l]]; [done| |].
      * destruct i; [|done]. by injection L as <-.
      * pose proof (Only 0%nat y eq_refl). pose proof (Only 1%nat z eq_refl). lia.
    + destruct (handles_ s !! j) as [y|] eqn:Ly; [|done]. injection I as <-. cbn in Ex.
      destruct (A j y Ly) as [E|[_ E]]; [by injection E|done].
Qed.

Lemma shapes_append (s : CardService) h c m b :
  shapes_ok (shapes s) -> sharing_allowed (handles_ s) m None = true -> 0 < h < 2 ^ 64 -> c <> 0 -> h ∉ handle <$> handles_ s ->
  shapes_ok (shape <$> (handles_ s ++ [{| handle := h; client := c; share_mode := m; generation_bound := b; stale := false |}])).
Proof.
  intros [N F X] A Hh Hc U. apply sharing_spec in A as [V A]. rewrite fmap_app. cbn [fmap list_fmap].
  split.
  - rewrite fmap_app. change (shape <$> handles_ s) with (shapes s). apply NoDup_app. split; [done|]. split.
    + intros x I. rewrite key_shapes in I. cbn. rewrite list_elem_of_singleton. intros ->. by apply U.
    + apply NoDup_singleton.
  - apply Forall_app. split; [exact F|]. by apply Forall_singleton.
  - intros x I Ex. apply elem_of_app in I as [I|I].
    + apply list_elem_of_fmap in I as (r & -> & I). apply list_elem_of_lookup in I as (j & L).
      destruct (A j r L) as [E|[_ E]]; [done|]. by cbn in Ex.
    + apply list_elem_of_singleton in I as ->. cbn in Ex. subst m.
      destruct (handles_ s) as [|y l]; [done|]. by destruct (A 0%nat y eq_refl) as [E|[E _]].
Qed.

Lemma handle_kept (l : list HandleRecord) i r x :
  l !! i = Some r -> x <> handle r -> x ∈ handle <$> l -> x ∈ handle <$> delete i l.
Proof.
  intros L N I. apply list_elem_of_fmap in I as (y & -> & I). apply list_elem_of_fmap_2.
  apply list_elem_of_lookup in I as (j & I). destruct (Nat.lt_ge_cases j i) as [Lt|Ge].
  - apply (list_elem_of_lookup_2 _ j). by rewrite list_lookup_delete_lt.
  - destruct (decide (j = i)) as [->|Ne]; [congruence|]. apply (list_elem_of_lookup_2 _ (j - 1)).
    rewrite list_lookup_delete_ge by lia. by replace (S (j - 1)) with j by lia.
Qed.

(** ** Each call *)

Lemma nonempty_later {A} renew (st0 st : St) index (x : HandleRecord) (r : A) :
  boundary st0 -> core st -> later st0 st -> handles_ st0.1 !! index = Some x ->
  boundary st /\ (length (handles_ st.1) <= S (length (handles_ st0.1)))%nat /\ stale_kept renew st0 st.
Proof. intros B C L I. apply later_call; try done. intros E. by rewrite E in I. Qed.

Lemma append_core (s : CardService) (hw : HW) x n :
  core (s, hw) -> is_u64 n -> shapes_ok (shape <$> (handles_ s ++ [x])) ->
  core (with_handles (with_next s n) (handles_ s ++ [x]), hw).
Proof.
  intros [A B C D E] Hn O. split; cbn; [exact O| |exact C|exact D|exact Hn].
  destruct B as [B|B]; [by left|right]. rewrite fmap_app. apply elem_of_app. by left.
Qed.

Lemma connect_call c m b : call_ok None (connect c m b).
Proof.
  intros st B Lt. unfold connect. destruct (Z.eqb_spec c 0) as [|Hc]; [apply returns_fail; by apply refused_call|]. cbn [orb].
  destruct (negb (valid_share m)); [apply returns_fail; by apply refused_call|]. apply service_rule.
  destruct (sharing_allowed (handles_ st.1) m None) eqn:Sh; cbn [negb]; [|apply returns_fail; by apply refused_call].
  eapply (attempt_rule _ _ _ st); [apply ensure_steps|apply B|apply later_refl|]. intros r1 st1 C1 L1 _ _.
  destruct r1 as [[]|e].
  - destruct st1 as [s1 hw1]. pose proof (later_length _ _ L1) as Len. cbn [fst] in Len.
    destruct (allocate_fresh s1 hw1) as (h & s2 & E2 & Hh & U & n & Hn & ->); [apply C1|by rewrite Len|].
    apply returns_bind. exists (success h), (with_next s1 n, hw1). split; [exact E2|].
    apply update_rule, service_rule, returns_ret. cbn [fst snd]. change (handles_ (with_next s1 n)) with (handles_ s1).
    assert (h ∉ handle <$> handles_ s1) as Fresh by (rewrite <- used_spec, U; done).
    assert (sharing_allowed (handles_ s1) m None = true) as Sh1.
    { apply sharing_spec in Sh as [V F]. apply sharing_spec. split; [done|]. intros j r Lr.
      destruct (Forall2_lookup_r _ _ _ _ _ (later_handles _ _ L1) Lr) as (r0 & L0 & X).
      destruct (F j r0 L0) as [?|[? N]]; [done|]. right. split; [done|].
      destruct X as [-> | ->]; [done|]. unfold stale_bound. by destruct (generation_bound r0). }
    assert (shapes_ok (shapes s1)) as O1 by apply C1.
    pose proof (shapes_append s1 h c m b O1 Sh1 Hh Hc Fresh) as O2.
    split; [|split].
    + split; [by apply append_core|]. cbn. by destruct (handles_ s1).
    + cbn. rewrite length_app, Len. cbn. lia.
    + intros r r' I I' E S _. cbn in I'. apply elem_of_app in I' as [I'|I'].
      * eapply (later_stale None st (s1, hw1)); [apply B|exact L1|exact I|exact I'|done..].
      * apply list_elem_of_singleton in I' as ->. cbn in E. exfalso. apply Fresh.
        pose proof (shapes_handles _ _ (later_shapes _ _ L1)) as Eh. cbn [fst] in Eh. rewrite Eh, E. by apply list_elem_of_fmap_2.
  - cbv zeta. destruct (bool_decide (handles_ st.1 = [])) eqn:Em.
    + eapply (steps_rule _ _ _ st); [apply power_down_steps|done|done|]. intros r2 st2 C2 L2 _ (P2 & _).
      destruct r2 as [[]|e2]; [apply returns_fail|]; (apply later_call; [done|done|done|]; by rewrite P2).
    + apply bool_decide_eq_false in Em. apply returns_bind. eexists _, _. split; [done|]. apply returns_fail.
      by apply later_call.
Qed.

(** What a handle's own calls do once it has been found. *)
Lemma found_call {A} renew c h (k : nat -> Op A) :
  (forall st index r, boundary st -> handles_ st.1 !! index = Some r -> handle r = h -> client r = c ->
     returns (k index) st (fun _ st' => boundary st' /\ (length (handles_ st'.1) <= S (length (handles_ st.1)))%nat /\ stale_kept renew st st')) ->
  call_ok renew (i ← find_handle c h; k i).
Proof.
  intros K st B _. apply find_rule.
  - intros index r _ L Hh Hc. by apply (K st index r).
  - intros e _. by apply refused_call.
Qed.

Lemma renew_ok (s : CardService) (hw : HW) index r m :
  boundary (s, hw) -> handles_ s !! index = Some r -> sharing_allowed (handles_ s) m (Some index) = true ->
  forall f, (forall x, handles_ s !! index = Some x -> shape (f x) = shape (with_stale (with_share x m) false)) ->
  boundary (with_handles s (alter f index (handles_ s)), hw) /\
  stale_kept (Some (handle r)) (s, hw) (with_handles s (alter f index (handles_ s)), hw).
Proof.
  intros [C P] L Sh f F.
  assert (shape <$> alter f index (handles_ s) = shape <$> alter (fun x => with_stale (with_share x m) false) index (handles_ s)) as E.
  { apply list_eq. intros j. rewrite !list_lookup_fmap. destruct (decide (j = index)) as [->|N].
    - rewrite !list_lookup_alter_eq, L. cbn. by rewrite F.
    - by rewrite !list_lookup_alter_ne. }
  assert (handle <$> alter f index (handles_ s) = handle <$> handles_ s) as Eh.
  { apply list_eq. intros j. rewrite !list_lookup_fmap. destruct (decide (j = index)) as [->|N].
    - rewrite list_lookup_alter_eq, L. cbn. specialize (F r L). unfold shape in F. cbn in F. by injection F as -> _ _.
    - by rewrite list_lookup_alter_ne. }
  split; [split; [destruct C as [A B D G N]; split; cbn|]|].
  - unfold shapes. cbn. rewrite E. by eapply shapes_alter.
  - by rewrite Eh.
  - exact D.
  - exact G.
  - exact N.
  - cbn. intros Pw E0. apply (f_equal length) in E0. rewrite length_alter in E0. apply nil_length_inv in E0. by apply P.
  - intros r1 r2 I1 I2 Eq S Ne. cbn in I2. apply list_elem_of_lookup in I2 as (j & I2).
    destruct (decide (j = index)) as [->|N].
    + rewrite list_lookup_alter_eq, L in I2. cbn in I2. injection I2 as <-. exfalso. apply Ne. f_equal.
      specialize (F r L). unfold shape in F. cbn in F. injection F as F _ _. congruence.
    + rewrite list_lookup_alter_ne in I2 by done. apply list_elem_of_lookup in I1 as (i & I1).
      assert (i = j) as -> by (apply (handles_unique s i j r1 r2); [apply C|done..]). cbn in I1. congruence.
Qed.

Lemma later_renew (st st1 : St) index r h m f :
  boundary st -> core st1 -> later st st1 -> handles_ st.1 !! index = Some r -> handle r = h ->
  sharing_allowed (handles_ st.1) m (Some index) = true ->
  (forall x, share_mode x = share_mode r -> handle x = handle r -> client x = client r -> shape (f x) = shape (with_stale (with_share x m) false)) ->
  let st' := (with_handles st1.1 (alter f index (handles_ st1.1)), st1.2) in
  boundary st' /\ (length (handles_ st'.1) <= S (length (handles_ st.1)))%nat /\ stale_kept (Some h) st st'.
Proof.
  intros B C1 L1 I Hh Sh F st'. destruct st1 as [s1 hw1]. cbn [fst snd] in *.
  destruct (later_lookup _ _ _ _ L1 I) as (r1 & I1 & X). cbn [fst] in I1.
  assert (shape r1 = shape r) as Es by (destruct X as [-> | ->]; [done|apply shape_bound]).
  destruct (later_call (Some h) _ _ B C1 L1) as (B1 & _ & S1); [by intros E; rewrite E in I|].
  assert (sharing_allowed (handles_ s1) m (Some index) = true) as Sh1.
  { apply sharing_spec in Sh as [V G]. apply sharing_spec. split; [done|]. intros j x Lx.
    destruct (Forall2_lookup_r _ _ _ _ _ (later_handles _ _ L1) Lx) as (x0 & L0 & Y).
    destruct (G j x0 L0) as [?|[? N]]; [by left|]. right. split; [done|].
    destruct Y as [-> | ->]; [done|]. unfold stale_bound. by destruct (generation_bound x0). }
  injection Es as E1 E2 E3.
  destruct (renew_ok s1 hw1 index r1 m B1 I1 Sh1 f) as [B2 S2].
  { intros x Ex. rewrite I1 in Ex. injection Ex as <-. by apply F. }
  split; [exact B2|]. split.
  - cbn. rewrite length_alter. pose proof (later_length _ _ L1) as Len. cbn in Len. lia.
  - intros x x' Ix Ix' E S N. apply list_elem_of_lookup in Ix as Jx. destruct Jx as (j & Jx).
    destruct (later_lookup _ _ _ _ L1 Jx) as (y & Jy & Y). cbn [fst] in Jy.
    assert (y ∈ handles_ s1) as Iy by by eapply list_elem_of_lookup_2.
    assert (handle y = handle x) as Ey by (destruct Y as [-> | ->]; [done|]; unfold stale_bound; by destruct (generation_bound x)).
    apply (S2 y x'); [done|done|congruence|apply (S1 x y); done|rewrite E1, Hh; congruence].
Qed.

Lemma reconnect_call c h m d : call_ok (Some h) (reconnect c h m d).
Proof.
  unfold reconnect. destruct (_ || _).
  { intros st B _. apply returns_fail. by apply refused_call. }
  apply found_call. intros st index r B L Hh Hc. apply service_rule.
  apply require_rule; [intros _|by intros _; apply refused_call].
  apply require_rule; [intros Sh|by intros _; apply refused_call].
  assert (steps (if bool_decide (d = DP_reset) then _ ← reset_session (transaction_handle_ st.1 =? h); mret tt else ensure_session)
    (fun _ _ _ => True)) as M.
  { destruct (bool_decide _); [|by eapply steps_weaken, ensure_steps].
    intros s Cs. eapply (steps_rule _ _ _ s); [apply reset_steps|done|apply later_refl|]. intros r1 s1 C1 L1 _ _.
    destruct r1; [by apply returns_ret|done]. }
  eapply (steps_rule _ _ _ st); [exact M|apply B|apply later_refl|]. intros r1 st1 C1 L1 _ _.
  destruct r1 as [[]|e]; [|by eapply nonempty_later].
  unfold set_record. apply update_rule, service_rule, returns_ret. by eapply (later_renew st st1 index r h m).
Qed.

Lemma sharing_self (s : CardService) index r :
  shapes_ok (shapes s) -> handles_ s !! index = Some r -> valid_share (share_mode r) = true ->
  sharing_allowed (handles_ s) (share_mode r) (Some index) = true.
Proof.
  intros O L V. apply sharing_spec. split; [done|]. intros j x Lx.
  destruct (decide (share_mode r = SM_exclusive)) as [E|E].
  - left. f_equal. apply (handles_unique s index j r x O L Lx).
    assert (shapes s = [shape r]) as Al by (apply (exclusive_alone _ O); [|done]; apply list_elem_of_fmap_2; by eapply list_elem_of_lookup_2).
    assert (shape x ∈ shapes s) as I by (apply list_elem_of_fmap_2; by eapply list_elem_of_lookup_2).
    rewrite Al in I. apply list_elem_of_singleton in I. by injection I.
  - destruct (decide (share_mode x = SM_exclusive)) as [Ex|Ex]; [|by right].
    exfalso. apply E. assert (shapes s = [shape x]) as Al by (apply (exclusive_alone _ O); [|done]; apply list_elem_of_fmap_2; by eapply list_elem_of_lookup_2).
    assert (shape r ∈ shapes s) as I by (apply list_elem_of_fmap_2; by eapply list_elem_of_lookup_2).
    rewrite Al in I. apply list_elem_of_singleton in I. injection I as _ _ ->. done.
Qed.

(** Dropping handles, and the transaction if its handle goes. *)
Lemma drop_call renew (st : St) (hw : HW) (s1 : CardService) l t :
  boundary st -> core (s1, hw) -> later st (s1, hw) -> l `sublist_of` handles_ s1 -> t = 0 \/ t ∈ handle <$> l ->
  let st1 := (with_transaction (with_handles s1 l) t, hw) in
  core st1 /\ (length l <= S (length (handles_ st.1)))%nat /\ stale_kept renew st st1.
Proof.
  intros B C L S T st1. pose proof (later_length _ _ L) as Len. cbn in Len. split; [|split].
  - destruct C as [A D F G N]. split; cbn; [|exact T|exact F|exact G|exact N].
    eapply shapes_sublist; [|exact A]. unfold shapes. cbn. clear -S. induction S; rewrite ?fmap_cons; by constructor.
  - apply sublist_length in S. lia.
  - intros x x' I I' E St N. cbn in I'. eapply (later_stale renew st (s1, hw)); [apply B|exact L|exact I| |done..].
    by eapply elem_of_sublist.
Qed.

(** The end of a call that has dropped handles. *)
Lemma settle_call renew (st st1 : St) :
  core st1 -> (length (handles_ st1.1) <= S (length (handles_ st.1)))%nat -> stale_kept renew st st1 ->
  returns (s ← service; if bool_decide (handles_ s = []) then power_down else mret tt) st1 (fun _ st' =>
    boundary st' /\ (length (handles_ st'.1) <= S (length (handles_ st.1)))%nat /\ stale_kept renew st st').
Proof.
  intros C L S. apply service_rule. destruct (bool_decide (handles_ st1.1 = [])) eqn:E.
  - eapply returns_mono; [by apply power_down_steps|]. intros r st' (C' & L' & P & _ & Hh).
    split; [split; [done|]; by rewrite P|]. rewrite Hh. split; [done|]. intros x x' I I'. rewrite Hh in I'. by apply S.
  - apply bool_decide_eq_false in E. apply returns_ret. split; [by split|]. done.
Qed.

Lemma release_call renew (st st1 : St) index r :
  boundary st -> core st1 -> later st st1 -> handles_ st1.1 !! index = Some r ->
  returns (release_handle index) st1 (fun _ st' =>
    boundary st' /\ (length (handles_ st'.1) <= S (length (handles_ st.1)))%nat /\ stale_kept renew st st').
Proof.
  intros B C L I. destruct st1 as [s1 hw1]. cbn [fst] in I. unfold release_handle. apply service_rule. cbn [fst]. rewrite I.
  apply update_rule. cbn [fst snd]. apply update_rule. cbn [fst snd].
  set (t := if transaction_handle_ s1 =? handle r then 0 else transaction_handle_ s1).
  match goal with |- returns _ ?x _ => assert (x = (with_transaction (with_handles s1 (delete index (handles_ s1))) t, hw1)) as -> end.
  { unfold t. by destruct (transaction_handle_ s1 =? handle r), s1. }
  destruct (drop_call renew st hw1 s1 (delete index (handles_ s1)) t B C L (sublist_delete _ _)) as (C2 & L2 & S2).
  { unfold t. destruct (Z.eqb_spec (transaction_handle_ s1) (handle r)) as [|N]; [by left|].
    destruct (core_transaction _ C) as [E|E]; [by left|right]. by apply (handle_kept _ index r). }
  by apply settle_call.
Qed.

Lemma disconnect_call c h d : call_ok None (disconnect c h d).
Proof.
  unfold disconnect. destruct (negb _).
  { intros st B _. apply returns_fail. by apply refused_call. }
  apply found_call. intros st index r B L Hh Hc. apply (record_rule index r); [done|]. apply service_rule.
  destruct (_ && _ && _); [apply returns_fail; by apply refused_call|].
  assert (steps (if stale r then mret tt else apply_disposition d) (fun _ _ _ => True)) as M.
  { intros s Cs. destruct (stale r); [eapply returns_mono; [by apply steps_ret|]; by intros ?? (? & ? & _)|].
    destruct d; cbn [apply_disposition].
    - eapply returns_mono; [by apply steps_ret|]; by intros ?? (? & ? & _).
    - eapply (steps_rule _ _ _ s); [apply reset_steps|done|apply later_refl|]. intros r1 s1 C1 L1 _ _. destruct r1; [by apply returns_ret|done].
    - apply returns_fail. split; [done|]. split; [apply later_refl|done]. }
  eapply (attempt_rule _ _ _ st); [exact M|apply B|apply later_refl|]. intros r1 st1 C1 L1 _ _.
  destruct (later_lookup _ _ _ _ L1 L) as (r' & L' & _).
  apply returns_bind, returns_attempt. eapply returns_mono; [by apply (release_call None st st1 index r')|].
  intros r2 st2 X. cbn beta iota zeta. destruct (bool_decide _); [by apply returns_ret|by apply returns_fail].
Qed.

Lemma reset_call c h : call_ok (Some h) (reset c h).
Proof.
  apply found_call. intros st index r B L Hh Hc. apply service_rule.
  apply require_rule; [intros _|by intros _; apply refused_call].
  eapply (steps_rule _ _ _ st); [apply reset_steps|apply B|apply later_refl|]. intros r1 st1 C1 L1 _ _.
  destruct r1 as [a|e]; [|by eapply nonempty_later].
  unfold set_record. apply update_rule, returns_ret.
  apply (later_renew st st1 index r h (share_mode r)); try done.
  - apply sharing_self; [apply B|done|]. pose proof (handles_named _ (core_shapes _ (boundary_core _ B))) as F.
    unfold shapes in F. rewrite Forall_fmap in F. by apply (Forall_lookup_1 _ _ _ _ F L).
  - intros x Ex Eh Ec. unfold shape. cbn. by rewrite Ex.
Qed.

Lemma transmit_call c h a b : call_ok None (transmit c h a b).
Proof.
  unfold transmit. destruct a as [n|apdu]; [intros st B _; apply returns_fail; by apply refused_call|].
  destruct b as [n|buffer]; [intros st B _; apply returns_fail; by apply refused_call|].
  destruct (_ || _ || _); [intros st B _; apply returns_fail; by apply refused_call|].
  apply found_call. intros st index r B L Hh Hc. apply (record_rule index r); [done|].
  apply require_rule; [intros _|by intros _; apply refused_call]. apply service_rule.
  apply require_rule; [intros _|by intros _; apply refused_call].
  apply returns_bind, returns_attempt.
  eapply returns_mono; [apply ensure_handle_steps; [apply B|by eapply lookup_lt_Some]|].
  intros r1 [s1 hw1] (C1 & L1 & P1). destruct r1 as [[]|e].
  - apply hardware_rule. intros r2 hw2 E2. cbn [fst snd] in *. specialize (P1 eq_refl).
    assert (core (s1, hw2)) as C2 by (destruct C1 as [? ? ? ? ?]; by split).
    assert (later st (s1, hw2)) as L2 by (eapply later_trans; [exact L1|by apply later_same]).
    destruct r2 as [l|e]; [apply returns_ret; by eapply nonempty_later|].
    eapply returns_mono; [by apply card_failed_steps|]. intros r3 st3 (C3 & L3 & _).
    eapply nonempty_later; try done. by eapply later_trans.
  - apply update_rule, returns_fail. cbn [fst snd].
    assert (later (s1, hw1) (with_transaction s1 0, hw1)) as L2 by (split; [apply aged_refl|done|by right]).
    apply (nonempty_later _ st (with_transaction s1 0, hw1) index r tt B); [|by eapply later_trans|exact L].
    apply (core_later _ _ C1 L2); cbn; apply C1.
Qed.

Lemma begin_call c h : call_ok None (begin_transaction c h).
Proof.
  apply found_call. intros st index r B L Hh Hc. apply (record_rule index r); [done|].
  apply require_rule; [intros _|by intros _; apply refused_call]. apply service_rule.
  apply require_rule; [intros _|by intros _; apply refused_call].
  apply returns_bind. eapply returns_mono; [apply ensure_handle_steps; [apply B|by eapply lookup_lt_Some]|].
  intros r1 [s1 hw1] (C1 & L1 & _). destruct r1 as [[]|e]; [|by eapply nonempty_later].
  eexists _, _. split; [done|]. cbn [fst snd].
  pose proof (nonempty_later None st (s1, hw1) index r tt B C1 L1 L) as (B1 & N1 & S1).
  split; [|by split]. destruct B1 as [[O T P Se Nx] Pw]. split; [split; cbn; [exact O| |exact P|exact Se|exact Nx]|exact Pw].
  right. destruct (later_lookup _ _ _ _ L1 L) as (r' & L' & X). cbn in L'.
  assert (handle r' = h) as <- by (destruct X as [-> | ->]; [done|]; unfold stale_bound; by destruct (generation_bound r)).
  apply list_elem_of_fmap_2. by eapply list_elem_of_lookup_2.
Qed.

Lemma apply_steps d : steps (apply_disposition d) (fun _ _ _ => True).
Proof.
  intros s Cs. destruct d; cbn [apply_disposition].
  - eapply returns_mono; [by apply steps_ret|]; by intros ?? (? & ? & _).
  - eapply (steps_rule _ _ _ s); [apply reset_steps|done|apply later_refl|]. intros r1 s1 C1 L1 _ _. destruct r1; [by apply returns_ret|done].
  - apply returns_fail. split; [done|]. split; [apply later_refl|done].
Qed.

Lemma end_call c h d : call_ok None (end_transaction c h d).
Proof.
  apply found_call. intros st index r B L Hh Hc. apply (record_rule index r); [done|].
  apply require_rule; [intros _|by intros _; apply refused_call]. apply service_rule.
  apply require_rule; [intros _|by intros _; apply refused_call].
  apply update_rule. destruct st as [s hw]. cbn [fst snd] in *.
  assert (later (s, hw) (with_transaction s 0, hw)) as L1 by (split; [apply aged_refl|done|by right]).
  assert (core (with_transaction s 0, hw)) as C1 by (apply (core_later _ _ (boundary_core _ B) L1); cbn; apply B).
  eapply returns_mono; [by apply apply_steps|]. intros r1 st1 (C2 & L2 & _).
  apply (nonempty_later None (s, hw) st1 index r tt); [done..|by eapply later_trans|done].
Qed.

Lemma filter_sublist {A} (f : A -> bool) (l : list A) : List.filter f l `sublist_of` l.
Proof. induction l as [|x l IH]; [done|]. cbn. destruct (f x); by constructor. Qed.

Lemma release_connection_call c : call_ok None (release_connection c).
Proof.
  intros st B _. unfold release_connection. destruct (c =? 0); [apply returns_fail; by apply refused_call|].
  apply update_rule. destruct st as [s hw]. cbn [fst snd]. cbv zeta.
  set (mine := existsb _ _). set (kept := List.filter _ _).
  match goal with |- returns _ ?x _ => assert (x = (with_transaction (with_handles s kept) (if mine then 0 else transaction_handle_ s), hw)) as -> end.
  { by destruct mine, s. }
  destruct (drop_call None (s, hw) hw s kept (if mine then 0 else transaction_handle_ s) B (boundary_core _ B) (later_refl _) (filter_sublist _ _)) as (C2 & L2 & S2).
  { destruct mine eqn:M; [by left|]. destruct (core_transaction _ (boundary_core _ B)) as [E|E]; [by left|right].
    cbn in E. apply list_elem_of_fmap in E as (r & E & I). rewrite E. apply list_elem_of_fmap_2.
    apply list_elem_of_In, filter_In. apply list_elem_of_In in I. split; [done|].
    destruct (client r =? c) eqn:Cr; [|done]. exfalso. assert (mine = true) as M'; [|congruence].
    apply existsb_exists. exists r. split; [done|]. by rewrite Cr, E, Z.eqb_refl. }
  by apply (settle_call None (s, hw)).
Qed.

Lemma shutdown_call : call_ok None shutdown.
Proof.
  intros st B _. unfold shutdown. apply update_rule. destruct st as [s hw]. cbn [fst snd].
  destruct (drop_call None (s, hw) hw s [] 0 B (boundary_core _ B) (later_refl _) (sublist_nil_l _) ltac:(by left)) as (C2 & L2 & S2).
  eapply returns_mono; [by apply power_down_steps|]. intros r st' (C' & L' & P & _ & Hh).
  split; [split; [done|]; by rewrite P|]. rewrite Hh. split; [cbn; lia|]. intros x x' I I'. rewrite Hh in I'. by apply S2.
Qed.

Lemma op_call o : call_ok (renewed o) (run_op o).
Proof.
  destruct o; cbn [run_op renewed]; repeat apply void_call.
  - eapply steps_call; [apply status_steps|]. intros st r st' K _. exact K.
  - eapply steps_call; [apply handle_status_steps|]. intros st r st' K E. by rewrite (K E).
  - eapply steps_call; [apply poll_steps|]. intros st r st' K E. by rewrite (K E).
  - apply connect_call.
  - apply reconnect_call.
  - apply disconnect_call.
  - apply reset_call.
  - apply transmit_call.
  - apply begin_call.
  - apply end_call.
  - apply release_connection_call.
  - apply shutdown_call.
Qed.

(** A service without clients, as it is before the first call. *)
Definition idle (st : St) : Prop :=
  handles_ st.1 = [] /\ transaction_handle_ st.1 = 0 /\ powered_ st.1 = false /\ uart_initialized_ st.1 = false /\
  session_initialized st.2 = false /\ is_u64 (next_handle_ st.1).

Lemma idle_boundary st : idle st -> boundary st.
Proof.
  intros (E & T & P & U & S & N). split; [split|]; rewrite ?P, ?U, ?S; try done.
  - unfold shapes. rewrite E. split; [constructor|constructor|]. by intros x I%not_elem_of_nil.
  - by left.
Qed.

Lemma run_ops_boundary ops (st : St) :
  boundary st -> Z.of_nat (length (handles_ st.1) + length ops) < 2 ^ 64 - 1 -> exists st', run_ops ops st = Some st' /\ boundary st'.
Proof.
  revert st. induction ops as [|o ops IH]; intros st B L; [by exists st|]. cbn [run_ops length] in *.
  destruct (op_call o st B ltac:(lia)) as (r & st1 & E & B1 & L1 & _). rewrite E. apply IH; [done|lia].
Qed.
End Facts.

(** ** An absent card *)

(** Once the card is known to be absent, every handle bound to it is stale. *)
Definition absent_ok (s : CardService) : Prop :=
  presence_known_ s = true -> present_ s = false -> all_bound_stale (handles_ s).

Section Absence.
Context {HW : Type} `{CardServiceBackend HW} `{ProtocolSession HW}.
#[local] Abbreviation St := (St (HW := HW)).

Definition heeds {A} (m : Op (HW := HW) A) : Prop :=
  forall st r st', absent_ok st.1 -> m st = Some (r, st') -> absent_ok st'.1.

Lemma heeds_bind {A B} (m : Op A) (k : A -> Op B) : heeds m -> (forall a, heeds (k a)) -> heeds (m ≫= k).
Proof.
  intros M K st r st' S E. apply bind_some in E as [(e & E & _)|(a & st1 & E & E1)]; [by eapply M|].
  eapply K; [|exact E1]. by eapply M.
Qed.
Lemma heeds_ret {A} (a : A) : heeds (mret a).
Proof. intros st r st' S E. by injection E as <- <-. Qed.
Lemma heeds_fail {A} e : heeds (fail e : Op A).
Proof. intros st r st' S E. by injection E as <- <-. Qed.
Lemma heeds_diverge {A} : heeds (diverge : Op A).
Proof. by intros st r st' S E. Qed.
Lemma heeds_from {A} (r : Result A) : heeds (from_result r).
Proof. intros st r' st' S E. by injection E as <- <-. Qed.
Lemma heeds_gets {A} (f : St -> A) : heeds (gets f).
Proof. intros st r st' S E. by injection E as <- <-. Qed.
Lemma heeds_service : heeds service.
Proof. apply heeds_gets. Qed.
Lemma heeds_ready : heeds session_ready.
Proof. apply heeds_gets. Qed.
Lemma heeds_require c e : heeds (require c e).
Proof. destruct c; [apply heeds_ret|apply heeds_fail]. Qed.
Lemma heeds_attempt {A} (m : Op A) : heeds m -> heeds (attempt m).
Proof.
  intros M st r st' S E. unfold attempt in E. destruct (m st) as [[r1 st1]|] eqn:E1; [|done].
  injection E as <- <-. by eapply M.
Qed.
Lemma heeds_hardware {A} (f : HW -> Result A * HW) : heeds (hardware f).
Proof. intros st r st' S E. unfold hardware, on_snd, call in E. destruct (f st.2). by injection E as <- <-. Qed.
Lemma heeds_record index : heeds (record_at index).
Proof. intros st r st' S E. unfold record_at in E. destruct (_ !! _); [|done]. by injection E as <- <-. Qed.
Lemma heeds_update f : (forall s, absent_ok s -> absent_ok (f s)) -> heeds (update f).
Proof. intros F st r st' S E. injection E as <- <-. by apply F. Qed.
End Absence.

Create HintDb absence.
#[export] Hint Resolve heeds_ret heeds_fail heeds_diverge heeds_from heeds_gets heeds_require heeds_attempt heeds_hardware
  heeds_record heeds_service heeds_ready : absence.

(** An update that keeps the handles and the presence. *)
#[export] Hint Extern 5 (heeds (update _)) => (apply heeds_update; let X := fresh in intros ? X; exact X) : absence.

Ltac walk_absence :=
  repeat first
    [ solve [auto with absence]
    | apply heeds_bind; [|intros ?]
    | progress intros
    | progress cbv zeta
    | match goal with |- heeds (match ?x with _ => _ end) => destruct x end
    | apply heeds_attempt ].

Section Absence.
Context {HW : Type} `{CardServiceBackend HW} `{ProtocolSession HW}.
#[local] Abbreviation St := (St (HW := HW)).

Lemma heeds_invalidate : heeds (HW := HW) invalidate_session.
Proof.
  unfold invalidate_session. apply heeds_bind; [|intros; auto with absence].
  intros st r st' S E. by injection E as <- <-.
Qed.
Lemma heeds_bound : heeds (HW := HW) invalidate_bound_handles.
Proof. apply heeds_update. intros s _ _ _. apply bound_all_stale. Qed.
#[local] Hint Resolve heeds_invalidate heeds_bound : absence.
Lemma heeds_abandon : heeds (HW := HW) abandon_disconnected_hardware.
Proof. unfold abandon_disconnected_hardware. walk_absence. Qed.
#[local] Hint Resolve heeds_abandon : absence.
Lemma heeds_card_failed {A} e : heeds (HW := HW) (card_failed (A := A) e).
Proof. unfold card_failed, drop_session. walk_absence. Qed.
Lemma heeds_power_up : heeds (HW := HW) power_up.
Proof. unfold power_up, prefer. walk_absence. Qed.
Lemma heeds_power_down : heeds (HW := HW) power_down.
Proof. unfold power_down. walk_absence. Qed.
#[local] Hint Resolve @heeds_card_failed heeds_power_up heeds_power_down : absence.

(** Recording the presence and marking the handles, as one step. *)
Lemma heeds_presence d : heeds (HW := HW) (_ ← update (fun s => with_presence s d); if negb d then invalidate_bound_handles else mret tt).
Proof.
  intros st r st' S E. destruct d; cbn [negb] in E.
  - by injection E as <- <-.
  - injection E as <- <-. intros _ _. apply bound_all_stale.
Qed.

Lemma presence_bind {A} d (k : Op (HW := HW) A) :
  heeds k -> heeds (_ ← update (fun s => with_presence s d); _ ← (if negb d then invalidate_bound_handles else mret tt); k).
Proof.
  intros K st r st' S E. pose proof (heeds_presence d st) as P.
  apply bind_some in E as [(e & E & _)|([] & st1 & E & E1)]; [by injection E|].
  apply bind_some in E1 as [(e & E1 & _)|([] & st2 & E1 & E2)]; [by destruct d; injection E1|].
  eapply K; [|exact E2]. apply (P (success tt) st2 S). by rewrite (bind_success _ _ _ _ _ E).
Qed.

Lemma heeds_detect b : heeds (HW := HW) (detect_and_record b).
Proof.
  unfold detect_and_record. apply heeds_bind; [apply heeds_gets|intros s]. destruct (_ || _); [apply heeds_fail|].
  apply heeds_bind; [auto with absence|intros [d|e]]; [|apply heeds_card_failed].
  apply presence_bind. walk_absence.
Qed.
#[local] Hint Resolve heeds_detect : absence.

Lemma heeds_ensure : heeds (HW := HW) ensure_session.
Proof. unfold ensure_session. walk_absence. by apply heeds_update. Qed.
#[local] Hint Resolve heeds_ensure : absence.

(** What detecting and ensuring a session have recorded. *)
Lemma detect_present b (st st' : St) c : detect_and_record b st = Some (success (true, c), st') -> present_ st'.1 = true.
Proof.
  unfold detect_and_record. intros E. apply bind_some in E as [(e & E & X)|(s & st1 & E & E1)]; [done|]. injection E as <- <-.
  destruct (_ || _); [done|].
  apply bind_some in E1 as [(e & E1 & X)|(d & st2 & E1 & E2)]; [done|].
  destruct d as [d|e]; [|by apply bind_some in E2 as [(? & _ & ?)|(? & ? & _ & E2)]; [|apply bind_some in E2 as [(? & _ & ?)|(? & ? & _ & ?)]]].
  apply bind_some in E2 as [(e & E2 & X)|([] & st3 & E2 & E3)]; [done|]. injection E2 as <-.
  apply bind_some in E3 as [(e & E3 & X)|([] & st4 & E3 & E4)]; [done|].
  assert (present_ st4.1 = d) as P4 by (destruct d; by injection E3 as <-).
  apply bind_some in E4 as [(e & E4 & X)|([] & st5 & E4 & E5)]; [done|].
  assert (present_ st5.1 = present_ st4.1) as P5.
  { destruct (if presence_known_ st.1 then _ else _); [|by injection E4 as <-]. destruct d; by injection E4 as <-. }
  injection E5 as -> _ <-. congruence.
Qed.

Lemma ensure_present (st st' : St) : ensure_session st = Some (success tt, st') -> present_ st'.1 = true.
Proof.
  unfold ensure_session. intros E. apply bind_some in E as [(e & E & X)|([] & st1 & E & E1)]; [done|].
  apply bind_some in E1 as [(e & E1 & X)|(b & st2 & E1 & E2)]; [done|]. destruct b.
  - apply bind_some in E2 as [(e & E2 & X)|([d c] & st3 & E2 & E3)]; [done|].
    destruct d; [|done]. injection E3 as <-. by eapply detect_present.
  - apply bind_some in E2 as [(e & E2 & X)|(i & st3 & E2 & E3)]; [done|].
    destruct i as [[]|e]; [|by apply bind_some in E3 as [(? & _ & ?)|(? & ? & _ & E3)]; [|apply bind_some in E3 as [(? & _ & ?)|(? & ? & _ & ?)]]].
    apply bind_some in E3 as [(e & E3 & X)|(s & st4 & E3 & E4)]; [done|].
    apply bind_some in E4 as [(e & E4 & X)|(u & st5 & E4 & E5)]; [done|].
    apply bind_some in E5 as [(e & E5 & X)|(u2 & st6 & E5 & E6)]; [done|]. injection E5 as _ <-.
    apply bind_some in E6 as [(e & E6 & X)|(a & st7 & E6 & E7)]; [done|]. injection E6 as _ <-. by injection E7 as <-.
Qed.

Lemma reset_present b (st st' : St) a : reset_session b st = Some (success a, st') -> present_ st'.1 = true.
Proof.
  unfold reset_session. intros E. apply bind_some in E as [(e & E & X)|(s & st1 & E & E1)]; [done|].
  apply bind_some in E1 as [(e & E1 & X)|(u & st2 & E1 & E2)]; [done|].
  apply bind_some in E2 as [(e & E2 & X)|([] & st3 & E2 & E3)]; [done|].
  injection E3 as _ <-. cbn. by eapply ensure_present.
Qed.
#[local] Hint Resolve @heeds_detect @heeds_ensure @heeds_power_up @heeds_power_down @heeds_invalidate @heeds_bound
  @heeds_card_failed : absence.

(** After a step that has found the card, only the presence has to be kept. *)
Lemma heeds_found {A B} (m : Op (HW := HW) A) (k : A -> Op B) :
  heeds m -> (forall st a st', m st = Some (success a, st') -> present_ st'.1 = true) ->
  (forall a st r st', k a st = Some (r, st') -> present_ st'.1 = present_ st.1) -> heeds (m ≫= k).
Proof.
  intros M P K st r st' S E. apply bind_some in E as [(e & E & _)|(a & st1 & E & E1)]; [by eapply M|].
  apply K in E1. apply P in E. intros _ N. congruence.
Qed.

Lemma allocate_present fuel (st : St) r st' : allocate_loop fuel st = Some (r, st') -> present_ st'.1 = present_ st.1.
Proof.
  revert st. induction fuel as [|fuel IH]; intros [s hw] E; [done|]. rewrite allocate_round in E. cbv zeta in E.
  destruct (_ || _); [by apply IH in E|]. by injection E as _ <-.
Qed.

Lemma heeds_reset b : heeds (HW := HW) (reset_session b).
Proof. unfold reset_session. walk_absence. Qed.
#[local] Hint Resolve heeds_reset : absence.
Lemma heeds_status : heeds (HW := HW) status.
Proof. unfold status. walk_absence. Qed.
Lemma heeds_find c h : heeds (HW := HW) (find_handle c h).
Proof. unfold find_handle. walk_absence. Qed.
#[local] Hint Resolve heeds_status heeds_find : absence.
Lemma heeds_ensure_handle i : heeds (HW := HW) (ensure_handle_session i).
Proof. unfold ensure_handle_session. walk_absence. Qed.
Lemma heeds_disposition d : heeds (HW := HW) (apply_disposition d).
Proof. unfold apply_disposition. walk_absence. Qed.
#[local] Hint Resolve heeds_ensure_handle heeds_disposition : absence.

Lemma heeds_drop f : (forall s, presence_known_ (f s) = presence_known_ s /\ present_ (f s) = present_ s /\
  handles_ (f s) `sublist_of` handles_ s) -> heeds (HW := HW) (update f).
Proof.
  intros F. apply heeds_update. intros s S. destruct (F s) as (A & B & C). unfold absent_ok. rewrite A, B.
  intros K P. apply Forall_forall. intros x I. apply (proj1 (Forall_forall _ _) (S K P)). by eapply elem_of_sublist.
Qed.

Lemma heeds_release i : heeds (HW := HW) (release_handle i).
Proof.
  unfold release_handle. apply heeds_bind; [auto with absence|intros s]. destruct (_ !! _) as [r|]; [|auto with absence].
  apply heeds_bind; [|intros _; apply heeds_bind; [|walk_absence]].
  - apply heeds_drop. intros s'. by destruct (_ =? _).
  - apply heeds_drop. intros s'. split; [done|]. split; [done|]. apply sublist_delete.
Qed.
#[local] Hint Resolve heeds_release : absence.

Lemma heeds_connect c m b : heeds (HW := HW) (connect c m b).
Proof.
  unfold connect. destruct (_ || _); [auto with absence|]. apply heeds_bind; [auto with absence|intros s].
  destruct (negb _); [auto with absence|]. cbv zeta.
  intros st r st' S E. unfold attempt in E. unfold mbind at 1, Io_bind at 1 in E.
  destruct (ensure_session st) as [[[[]|e] st1]|] eqn:E1; [| |done].
  - pose proof (ensure_present _ _ E1) as P. apply bind_some in E as [(e & E & _)|(h & st2 & E & E2)].
    + apply bind_some in E as [(? & E & _)|(s1 & ? & E & E3)]; [done|]. injection E as <- <-. apply allocate_present in E3.
      intros _ N. congruence.
    + apply bind_some in E as [(? & E & ?)|(s1 & ? & E & E3)]; [done|]. injection E as <- <-. apply allocate_present in E3.
      injection E2 as _ <-. intros _ N. change (present_ st2.1 = false) in N. congruence.
  - pose proof (heeds_ensure _ _ _ S E1) as S1. revert E. apply (heeds_bind _ (fun _ => fail e)); [|auto with absence|exact S1].
    walk_absence.
Qed.

Lemma heeds_reconnect c h m d : heeds (HW := HW) (reconnect c h m d).
Proof.
  unfold reconnect. destruct (_ || _); [auto with absence|]. apply heeds_bind; [auto with absence|intros i].
  apply heeds_bind; [auto with absence|intros s]. do 2 (apply heeds_bind; [auto with absence|intros _]).
  apply heeds_found; [walk_absence| |].
  - intros st [] st' E. destruct (bool_decide _); [|by eapply ensure_present].
    apply bind_some in E as [(? & E & ?)|(a & ? & E & E2)]; [done|]. injection E2 as <-. by eapply reset_present.
  - intros _ st r st' E. by injection E as _ <-.
Qed.

Lemma heeds_handle_reset c h : heeds (HW := HW) (reset c h).
Proof.
  unfold reset. apply heeds_bind; [auto with absence|intros i]. apply heeds_bind; [auto with absence|intros s].
  apply heeds_bind; [auto with absence|intros _]. apply heeds_found; [auto with absence| |].
  - intros st a st' E. by eapply reset_present.
  - intros a st r st' E. by injection E as _ <-.
Qed.

Lemma heeds_op o : heeds (HW := HW) (run_op o).
Proof.
  destruct o; cbn [run_op]; unfold void.
  - walk_absence.
  - unfold handle_status. walk_absence.
  - unfold poll_presence, take_event. walk_absence.
  - apply heeds_bind; [apply heeds_connect|auto with absence].
  - apply heeds_bind; [apply heeds_reconnect|auto with absence].
  - unfold disconnect. walk_absence.
  - apply heeds_bind; [apply heeds_handle_reset|auto with absence].
  - unfold transmit. walk_absence.
  - unfold begin_transaction. walk_absence.
  - unfold end_transaction. walk_absence.
  - unfold release_connection. destruct (_ =? 0); [auto with absence|]. apply heeds_bind; [|walk_absence].
    apply heeds_drop. intros s. split; [by destruct (existsb _ _)|]. split; [by destruct (existsb _ _)|].
    apply (filter_sublist (fun r => negb (client r =? c))).
  - unfold shutdown. apply heeds_bind; [|walk_absence]. apply heeds_drop. intros s. split; [done|]. split; [done|]. apply sublist_nil_l.
Qed.
End Absence.

(** * Theorems *)

Section Theorems.
Context {HW : Type} `{SessionLaws HW}.
#[local] Abbreviation St := (St (HW := HW)).

Lemma run_ops_bounded ops (st st' : St) :
  boundary st -> Z.of_nat (length (handles_ st.1) + length ops) < 2 ^ 64 - 2 -> run_ops ops st = Some st' ->
  boundary st' /\ Z.of_nat (length (handles_ st'.1)) < 2 ^ 64 - 2.
Proof.
  revert st. induction ops as [|o ops IH]; intros st B L E; [injection E as <-; split; [done|cbn in L; lia]|]. cbn [run_ops length] in *.
  destruct (op_call o st B ltac:(lia)) as (r & st1 & E1 & B1 & L1 & _). rewrite E1 in E. eapply IH; [exact B1|lia|done].
Qed.

(** C27 Whatever clients ask for, in any order and however the card and the power
    behave: every call returns; handles are never confused, an exclusive handle is
    alone, a transaction belongs to a handle that is open, the card has power only
    while there is a handle and a session only while it has power, and once the
    card is known to be absent every handle that is bound to it is stale. *)
Theorem card_service_invariant ops (st : St) :
  idle st -> Z.of_nat (length ops) < 2 ^ 64 - 1 ->
  exists st', run_ops ops st = Some st' /\
    NoDup (handle <$> handles_ st'.1) /\
    Forall (fun r => handle r <> 0 /\ client r <> 0) (handles_ st'.1) /\
    (forall r, r ∈ handles_ st'.1 -> share_mode r = SM_exclusive -> length (handles_ st'.1) = 1%nat) /\
    (transaction_handle_ st'.1 = 0 \/ transaction_handle_ st'.1 ∈ handle <$> handles_ st'.1) /\
    (powered_ st'.1 = true -> handles_ st'.1 <> []) /\
    (session_initialized st'.2 = true -> powered_ st'.1 = true) /\
    absent_ok st'.1.
Proof.
  intros I L. destruct (run_ops_boundary ops st) as (st' & E & B); [by apply idle_boundary|destruct I as [-> _]; cbn; lia|].
  exists st'. split; [done|]. destruct B as [[O T P Se N] Pw]. pose proof O as [O1 O2 O3].
  split; [by rewrite <- key_shapes|]. split.
  { unfold shapes in O2. rewrite Forall_fmap in O2. eapply Forall_impl; [exact O2|]. intros r ((? & _) & ? & _). cbn in *. split; [lia|done]. }
  split.
  { intros r Ir Er. assert (shapes st'.1 = [shape r]) as Al by (apply O3; [by apply list_elem_of_fmap_2|done]).
    apply (f_equal length) in Al. unfold shapes in Al. by rewrite length_fmap in Al. }
  split; [done|]. split; [done|]. split; [done|].
  assert (absent_ok st.1) as A by (intros _ _; destruct I as [-> _]; constructor).
  clear -E A. revert st A E. induction ops as [|o ops IH]; intros st A E; [by injection E as <-|].
  cbn [run_ops] in E. destruct (run_op o st) as [[r st1]|] eqn:E1; [|done]. eapply IH; [|exact E]. by eapply heeds_op.
Qed.

(** The client and the handle on behalf of which a call is made. *)
Definition actor (o : CardOp) : option (Z * Z) :=
  match o with
  | OpHandleStatus c h | OpReconnect c h _ _ | OpDisconnect c h _ | OpReset c h | OpTransmit c h _ _
  | OpBegin c h | OpEnd c h _ => Some (c, h)
  | _ => None
  end.

(** Calls that use the card, which a transaction of another handle excludes. *)
Definition uses_card (s : CardService) (o : CardOp) : Prop :=
  match o with
  | OpReconnect _ _ _ _ | OpReset _ _ | OpTransmit _ _ _ _ | OpBegin _ _ | OpEnd _ _ _ => True
  | OpDisconnect _ h d => d = DP_reset /\ forall r, r ∈ handles_ s -> handle r = h -> stale r = false
  | _ => False
  end.

Lemma find_eq c h (st : St) : find_handle c h st = Some (find_in (handles_ st.1) c h, st).
Proof. done. Qed.

(** A call that fails and changes nothing. *)
Definition refused {A} (m : Op (HW := HW) A) (st : St) : Prop := exists e, m st = Some (failure e, st).

Lemma refused_fail {A} e (st : St) : refused (fail e : Op A) st.
Proof. by exists e. Qed.
Lemma refused_bind {A B} (m : Op A) (k : A -> Op B) (st : St) : refused m st -> refused (m ≫= k) st.
Proof. intros [e E]. exists e. by apply bind_failure. Qed.
Lemma refused_after {A B} (m : Op A) (k : A -> Op B) (st : St) a :
  m st = Some (success a, st) -> refused (k a) st -> refused (m ≫= k) st.
Proof. intros E [e R]. exists e. by rewrite (bind_success _ _ _ _ _ E). Qed.
Lemma refused_service {A} (k : CardService -> Op A) (st : St) : refused (k st.1) st -> refused (s ← service; k s) st.
Proof. by apply refused_after. Qed.
Lemma refused_require {A} (b : bool) e (k : unit -> Op A) (st : St) :
  (b = true -> refused (k tt) st) -> refused (u ← require b e; k u) st.
Proof. destruct b; intros R; [by apply (refused_after _ _ _ tt), R|by apply refused_bind, refused_fail]. Qed.

(** A call by a handle: refused when its search fails, and otherwise when what
    follows is refused. *)
Lemma refused_find {A} c h (k : nat -> Op A) (st : St) :
  (forall i r, handles_ st.1 !! i = Some r -> handle r = h -> client r = c -> refused (k i) st) ->
  refused (i ← find_handle c h; k i) st.
Proof.
  intros K. destruct (find_in (handles_ st.1) c h) as [i|e] eqn:E.
  - destruct (find_in_success _ _ _ _ E) as (r & L & Hh & Hc & _). apply (refused_after _ _ _ i); [by rewrite find_eq, E|].
    by apply (K i r).
  - apply refused_bind. exists e. by rewrite find_eq, E.
Qed.
Lemma refused_record {A} i r (k : HandleRecord -> Op A) (st : St) :
  handles_ st.1 !! i = Some r -> refused (k r) st -> refused (r ← record_at i; k r) st.
Proof. intros L. apply refused_after. unfold record_at. by rewrite L. Qed.

(** What the records that a call finds must satisfy for it to be refused. *)
Definition barred (s : CardService) (o : CardOp) (r : HandleRecord) : Prop :=
  uses_card s o /\ transaction_handle_ s <> 0 /\ transaction_handle_ s <> handle r.

Lemma barred_op o c h (st : St) :
  actor o = Some (c, h) ->
  (forall r, r ∈ handles_ st.1 -> handle r = h -> client r = c -> barred st.1 o r) ->
  refused (run_op o) st.
Proof.
  intros A F.
  assert (forall i r, handles_ st.1 !! i = Some r -> handle r = h -> client r = c ->
    uses_card st.1 o /\ transaction_allows st.1 h = false /\ (transaction_handle_ st.1 =? 0) = false /\
    (transaction_handle_ st.1 =? h) = false) as G.
  { intros i r L Hh Hc. destruct (F r ltac:(by eapply list_elem_of_lookup_2) Hh Hc) as (U & T0 & Th). rewrite Hh in Th.
    apply Z.eqb_neq in T0, Th. unfold transaction_allows. by rewrite T0, Th. }
  clear F. destruct o; try done; injection A as -> ->; cbn [run_op]; unfold void; cbn [uses_card] in G.
  - apply refused_bind, refused_find. intros i r L Hh Hc. by destruct (G i r L Hh Hc) as [[] _].
  - apply refused_bind. unfold reconnect. destruct (_ || _); [apply refused_fail|]. apply refused_find. intros i r L Hh Hc.
    destruct (G i r L Hh Hc) as (_ & Ta & _). apply refused_service, refused_require. congruence.
  - unfold disconnect. destruct (negb _); [apply refused_fail|]. apply refused_find. intros i r L Hh Hc.
    destruct (G i r L Hh Hc) as ([-> St] & Ta & _). apply (refused_record _ r); [done|]. apply refused_service.
    rewrite (St r (list_elem_of_lookup_2 _ _ _ L) Hh), Ta. apply refused_fail.
  - apply refused_bind, refused_find. intros i r L Hh Hc.
    destruct (G i r L Hh Hc) as (_ & Ta & _). apply refused_service, refused_require. congruence.
  - apply refused_bind. unfold transmit. destruct apdu, response; try apply refused_fail. destruct (_ || _ || _); [apply refused_fail|].
    apply refused_find. intros i r L Hh Hc. destruct (G i r L Hh Hc) as (_ & Ta & _).
    apply (refused_record _ r); [done|]. apply refused_require. intros _. apply refused_service, refused_require. congruence.
  - apply refused_find. intros i r L Hh Hc. destruct (G i r L Hh Hc) as (_ & _ & T0 & _).
    apply (refused_record _ r); [done|]. apply refused_require. intros _. apply refused_service, refused_require. congruence.
  - apply refused_find. intros i r L Hh Hc. destruct (G i r L Hh Hc) as (_ & _ & _ & Th).
    apply (refused_record _ r); [done|]. apply refused_require. intros _. apply refused_service, refused_require. congruence.
Qed.

(** A handle is worth nothing to a client that does not own it, and during the
    transaction of another handle nobody uses the card: the call is refused and
    neither service nor card notice it. *)
Theorem calls_of_others_refused o c h (st : St) :
  actor o = Some (c, h) ->
  (forall r, r ∈ handles_ st.1 -> handle r = h -> client r <> c) \/
  (uses_card st.1 o /\ transaction_handle_ st.1 <> 0 /\ transaction_handle_ st.1 <> h) ->
  exists e, run_op o st = Some (failure e, st).
Proof.
  intros A B. apply (barred_op o c h); [done|]. intros r I Hh Hc. destruct B as [F|(U & T0 & Th)]; [by destruct (F r I Hh)|].
  unfold barred. by rewrite Hh.
Qed.

(** Operations that are for the card that the handle was opened on. *)
Definition needs_fresh (o : CardOp) (h : Z) : bool :=
  match o with OpTransmit _ h' _ _ | OpBegin _ h' | OpEnd _ h' _ => h' =? h | _ => false end.

Lemma stale_refused o h (st : St) :
  (forall r, r ∈ handles_ st.1 -> handle r = h -> stale r = true) -> needs_fresh o h = true -> refused (run_op o) st.
Proof.
  intros F N.
  assert (forall i r, handles_ st.1 !! i = Some r -> handle r = h -> stale r = true) as G.
  { intros i r L. apply F. by eapply list_elem_of_lookup_2. }
  destruct o; try done; cbn [needs_fresh] in N; apply Z.eqb_eq in N as ->; cbn [run_op]; unfold void.
  - apply refused_bind. unfold transmit. destruct apdu, response; try apply refused_fail. destruct (_ || _ || _); [apply refused_fail|].
    apply refused_find. intros i r L Hh _. apply (refused_record _ r); [done|]. rewrite (G i r) by done. by apply refused_bind, refused_fail.
  - apply refused_find. intros i r L Hh _. apply (refused_record _ r); [done|]. rewrite (G i r) by done. by apply refused_bind, refused_fail.
  - apply refused_find. intros i r L Hh _. apply (refused_record _ r); [done|]. rewrite (G i r) by done. by apply refused_bind, refused_fail.
Qed.

(** In every state that calls can lead to, a handle whose card is gone cannot
    transmit nor begin or end a transaction, on any later card: whatever call is
    made, it stays stale unless it is that handle's own reconnect or reset. *)
Theorem stale_handle_barred ops o r (st0 st : St) :
  idle st0 -> Z.of_nat (length ops) < 2 ^ 64 - 2 -> run_ops ops st0 = Some st ->
  r ∈ handles_ st.1 -> stale r = true -> renewed o <> Some (handle r) ->
  exists res st', run_op o st = Some (res, st') /\
    (forall r', r' ∈ handles_ st'.1 -> handle r' = handle r -> stale r' = true) /\
    (needs_fresh o (handle r) = true -> exists e, res = failure e /\ st' = st).
Proof.
  intros I L E Ir Sr N.
  assert (boundary st /\ Z.of_nat (length (handles_ st.1)) < 2 ^ 64 - 2) as [B Lt].
  { apply (run_ops_bounded ops st0); [by apply idle_boundary| |done]. destruct I as [-> _]. cbn. lia. }
  destruct (op_call o st B Lt) as (res & st' & Eo & _ & _ & K). exists res, st'. split; [done|]. split.
  - intros r' I' Hh. by apply (K r r').
  - intros F. destruct (stale_refused o (handle r) st) as [e R]; [|done|].
    + intros r' I' Hh. assert (r' = r) as ->; [|done].
      apply list_elem_of_lookup in I' as (i & L1), Ir as (j & L2). assert (i = j) as -> by (apply (handles_unique st.1 i j r' r); [apply B|done..]).
      congruence.
    + rewrite Eo in R. injection R as -> ->. by exists e.
Qed.
End Theorems.

(** * A reader to try the service on *)

(** What the successive detections find; the session can begin while the next
    one would find a card. *)
Record Reader := { presence : list bool; session_up : bool }.

#[export] Instance Reader_backend : CardServiceBackend Reader := {|
  set_power := fun _ hw => (success tt, hw);
  initialize_uart := fun hw => (success tt, hw);
  detect_inserted := fun hw =>
    (success (default false (head (presence hw))), {| presence := tail (presence hw); session_up := session_up hw |});
|}.
#[export] Instance Reader_session : ProtocolSession Reader := {|
  session_initialized := session_up;
  session_atr := fun _ => empty_atr;
  session_initialize := fun hw =>
    if default false (head (presence hw)) then (success tt, {| presence := presence hw; session_up := true |})
    else (failure NO_CARD, hw);
  session_invalidate := fun hw => {| presence := presence hw; session_up := false |};
  session_transmit := fun apdu size hw => (success (take (Z.to_nat size) apdu), hw);
|}.
#[export] Instance Reader_laws : SessionLaws Reader.
Proof. by split. Qed.

Definition no_clients (hw : Reader) : CardService * Reader := ({|
  handles_ := []; powered_ := false; uart_initialized_ := false; presence_known_ := false; present_ := false;
  reader_generation_ := 0; pending_presence_change_ := no_change; presence_change_pending_ := false;
  cached_atr_ := empty_atr; transaction_handle_ := 0; next_handle_ := 1 |}, hw).
Definition with_card : Reader := {| presence := repeat true 20; session_up := false |}.

(** Two clients share the card, and one of them holds it. *)
Definition two_clients : list CardOp :=
  [OpConnect 7 SM_shared true; OpConnect 8 SM_shared false; OpBegin 7 1; OpTransmit 7 1 (View [0; 164]) (View [0; 0])].

Lemma card_service_invariant_witness : exists st', run_ops two_clients (no_clients with_card) = Some st' /\
  handle <$> handles_ st'.1 = [1; 2] /\ transaction_handle_ st'.1 = 1 /\ powered_ st'.1 = true.
Proof.
  destruct (card_service_invariant two_clients (no_clients with_card)) as (st' & E & _); [done|cbn; lia|].
  exists st'. split; [exact E|]. vm_compute in E. injection E as <-. done.
Defined.

Definition after (ops : list CardOp) (hw : Reader) : CardService * Reader := default (no_clients hw) (run_ops ops (no_clients hw)).

(** The other client, and a stranger, are refused while the first holds the card. *)
Lemma calls_of_others_refused_witness :
  (exists e, run_op (OpTransmit 8 2 (View [0]) (View [0])) (after two_clients with_card) = Some (failure e, after two_clients with_card)) /\
  (exists e, run_op (OpDisconnect 9 1 DP_leave) (after two_clients with_card) = Some (failure e, after two_clients with_card)).
Proof.
  split.
  - apply (calls_of_others_refused _ 8 2); [done|]. right. vm_compute. by split.
  - apply (calls_of_others_refused _ 9 1); [done|]. left. vm_compute. intros r I _.
    repeat (apply elem_of_cons in I as [->|I]; [done|]). by apply not_elem_of_nil in I.
Defined.

(** The card is pulled under a handle bound to it, and another one inserted: the
    handle is barred from it, although its client could connect anew. *)
Definition replaced : Reader := {| presence := [true; false; true; true; true]; session_up := false |}.
Definition pulled : list CardOp := [OpConnect 7 SM_shared true; OpStatus; OpPoll; OpPoll; OpConnect 8 SM_shared true].

Lemma stale_handle_barred_witness :
  exists (r : HandleRecord) (res : Result unit), handle r = 1 /\ stale r = true /\ presence_known_ (after pulled replaced).1 = true /\
    present_ (after pulled replaced).1 = true /\
    run_op (OpTransmit 7 1 (View [0]) (View [0])) (after pulled replaced) = Some (res, after pulled replaced) /\
    exists e, res = failure e.
Proof.
  destruct (stale_handle_barred pulled (OpTransmit 7 1 (View [0]) (View [0]))
    {| handle := 1; client := 7; share_mode := SM_shared; generation_bound := true; stale := true |}
    (no_clients replaced) (after pulled replaced)) as (res & st' & E & _ & R).
  - by vm_compute.
  - cbn [pulled length]. lia.
  - vm_compute. reflexivity.
  - vm_compute. left.
  - reflexivity.
  - discriminate.
  - destruct R as (e & -> & ->); [reflexivity|]. exists {| handle := 1; client := 7; share_mode := SM_shared; generation_bound := true; stale := true |}, (failure e). split; [|split; [|split; [|split; [|split; [exact E|by exists e]]]]].
    + reflexivity.
    + reflexivity.
    + vm_compute. reflexivity.
    + vm_compute. reflexivity.
Defined.
