(* ===== verification/Threads.v ===== *)
(** Threads that share a state.  A program is a tree of atomic steps (a critical
    section of the object's mutex, or one call to another object) and of
    acquisitions and releases of further mutexes.  The file has their
    interleaving semantics, rules to prove a program safe whatever the other
    threads do, and the theorems that safe threads keep their invariants, never
    block each other for ever, and end. *)

From stdpp Require Export relations.
From S2P Require Import Prelude.

(** * Programs *)

(** An atomic step gives [None] where the code would be undefined. *)
Inductive Prog (S A : Type) : Type :=
  | Ret (a : A)
  | Atomic {B : Type} (f : S -> option (B * S)) (k : B -> Prog S A)
  | Lock (m : nat) (k : Prog S A)
  | Unlock (m : nat) (k : Prog S A).
Arguments Ret {S A} a.
Arguments Atomic {S A B} f k.
Arguments Lock {S A} m k.
Arguments Unlock {S A} m k.

#[export] Instance Prog_ret {S} : MRet (Prog S) := fun A a => Ret a.
#[export] Instance Prog_bind {S} : MBind (Prog S) := fun A B k =>
  fix go (p : Prog S A) : Prog S B :=
    match p with
    | Ret a => k a
    | Atomic f k' => Atomic f (fun b => go (k' b))
    | Lock m p => Lock m (go p)
    | Unlock m p => Unlock m (go p)
    end.

Definition atomically {S A} (f : S -> option (A * S)) : Prog S A := Atomic f Ret.

(** A [std::unique_lock] for the rest of a function. *)
Definition with_lock {S A} (m : nat) (p : Prog S A) : Prog S A :=
  Lock m (a ← p; Unlock m (Ret a)).

(** The steps of a critical section. *)
Definition Crit (S A : Type) : Type := S -> option (A * S).
#[export] Instance Crit_ret {S} : MRet (Crit S) := fun A a s => Some (a, s).
#[export] Instance Crit_bind {S} : MBind (Crit S) := fun A B k m s =>
  match m s with None => None | Some (a, s) => k a s end.

(** The program alone, where no mutex can be held by another thread. *)
Fixpoint run {S A} (p : Prog S A) (s : S) : option (A * S) :=
  match p with
  | Ret a => Some (a, s)
  | Atomic f k => match f s with None => None | Some (b, s) => run (k b) s end
  | Lock _ p | Unlock _ p => run p s
  end.

(** * Interleaving *)

Section Interleaving.
Context {S : Type}.

(** A thread with the mutex it holds, and the threads of a process. *)
Definition Thread : Type := option nat * Prog S unit.
Definition Process : Type := S * list Thread.

Definition unheld (m : nat) (ts : list Thread) : Prop := forall t, t ∈ ts -> t.1 <> Some m.

Inductive step : Process -> Process -> Prop :=
  | step_atomic s ts i h B (f : S -> option (B * S)) k b s' :
      ts !! i = Some (h, Atomic f k) -> f s = Some (b, s') -> step (s, ts) (s', <[i := (h, k b)]> ts)
  | step_lock s ts i m k :
      ts !! i = Some (None, Lock m k) -> unheld m ts -> step (s, ts) (s, <[i := (Some m, k)]> ts)
  | step_unlock s ts i m k :
      ts !! i = Some (Some m, Unlock m k) -> step (s, ts) (s, <[i := (None, k)]> ts).

(** Threads that begin at any time. *)
Inductive reachable (programs : Prog S unit -> Prop) (init : S) : Process -> Prop :=
  | reachable_init : reachable programs init (init, [])
  | reachable_spawn s ts p : reachable programs init (s, ts) -> programs p -> reachable programs init (s, ts ++ [(None, p)])
  | reachable_step c c' : reachable programs init c -> step c c' -> reachable programs init c'.

Definition finished (c : Process) : Prop := Forall (fun t => t.1 = None /\ exists a, t.2 = Ret a) c.2.
Definition ended {A} (p : Prog S A) : bool := match p with Ret _ => true | _ => false end.
End Interleaving.
Arguments Thread : clear implicits.
Arguments Process : clear implicits.

(** * Safety under interference *)

(** [inv] holds between steps; [idle m] while nobody holds mutex [m]; [grow] is
    what every step does; and [other m] what threads that do not hold [m] do. *)
Class Discipline (S : Type) := {
  inv : S -> Prop;
  idle : nat -> S -> Prop;
  grow : S -> S -> Prop;
  other : nat -> S -> S -> Prop;
  grow_refl : forall s, grow s s;
  grow_trans : forall s1 s2 s3, grow s1 s2 -> grow s2 s3 -> grow s1 s3;
  other_refl : forall m s, other m s s;
  other_trans : forall m s1 s2 s3, other m s1 s2 -> other m s2 s3 -> other m s1 s3;
  idle_other : forall m s s', idle m s -> other m s s' -> idle m s';
}.

Section Safety.
Context {S : Type} `{Discipline S}.

Definition rely (h : option nat) (s s' : S) : Prop :=
  grow s s' /\ forall m, h = Some m -> other m s s'.

Lemma rely_refl h s : rely h s s.
Proof. split; [apply grow_refl|]. intros. apply other_refl. Qed.
Lemma rely_trans h s1 s2 s3 : rely h s1 s2 -> rely h s2 s3 -> rely h s1 s3.
Proof. intros [G1 O1] [G2 O2]. split; [by eapply grow_trans|]. intros m E. by eapply other_trans; auto. Qed.

Fixpoint safe {A} (p : Prog S A) (h : option nat) (s : S) (Q : A -> option nat -> S -> Prop) : Prop :=
  match p with
  | Ret a => Q a h s
  | Atomic f k => forall s1, rely h s s1 -> inv s1 -> exists b s2, f s1 = Some (b, s2) /\ inv s2 /\ grow s1 s2 /\
      (forall m, h <> Some m -> other m s1 s2) /\ safe (k b) h s2 Q
  | Lock m k => h = None /\ forall s1, grow s s1 -> inv s1 -> idle m s1 -> safe k (Some m) s1 Q
  | Unlock m k => h = Some m /\ forall s1, rely h s s1 -> inv s1 -> idle m s1 /\ safe k None s1 Q
  end.

Lemma safe_mono {A} (p : Prog S A) h s (Q Q' : A -> option nat -> S -> Prop) :
  (forall a h s, Q a h s -> Q' a h s) -> safe p h s Q -> safe p h s Q'.
Proof.
  intros M. revert h s. induction p as [a|B f k IH|m k IH|m k IH]; intros h s; cbn [safe].
  - apply M.
  - intros P s1 R I. destruct (P s1 R I) as (b & s2 & E & I2 & G2 & O & P2). exists b, s2. auto 10.
  - intros [-> P]. split; [done|]. auto.
  - intros [-> P]. split; [done|]. intros s1 R I. destruct (P s1 R I). auto.
Qed.

Lemma safe_bind {A B} (p : Prog S A) (k : A -> Prog S B) h s (Q : B -> option nat -> S -> Prop) :
  safe p h s (fun a h s => safe (k a) h s Q) -> safe (p ≫= k) h s Q.
Proof.
  revert h s. induction p as [a|C f k' IH|m k' IH|m k' IH]; intros h s P; [exact P|..];
    unfold mbind in *; cbn [Prog_bind safe] in *.
  - intros s1 R I. destruct (P s1 R I) as (b & s2 & E & I2 & G2 & O & P2). exists b, s2. repeat (split; [done|]). by apply IH.
  - destruct P as [-> P]. split; [done|]. intros s1 G I J. by apply IH, P.
  - destruct P as [-> P]. split; [done|]. intros s1 R I. destruct (P s1 R I) as [J P1]. split; [done|]. by apply IH.
Qed.

(** Where the other threads lead, the program is still safe. *)
Lemma safe_rely {A} (p : Prog S A) h s s' (Q : A -> option nat -> S -> Prop) :
  (forall a, Q a h s -> Q a h s') -> rely h s s' -> safe p h s Q -> safe p h s' Q.
Proof.
  intros M R. assert (forall s1, rely h s' s1 -> rely h s s1) as T by (intros s1; by apply rely_trans).
  destruct p as [a|B f k|m k|m k]; cbn [safe]; [apply M|..].
  - intros P s1 R1. apply P. by apply T.
  - intros [E P]. split; [done|]. intros s1 G1. apply P. eapply grow_trans; [apply R|done].
  - intros [E P]. split; [done|]. intros s1 R1. apply P. by apply T.
Qed.

Lemma safe_with_lock {A} m (p : Prog S A) s (Q : A -> option nat -> S -> Prop) :
  (forall s1, grow s s1 -> inv s1 -> idle m s1 -> safe p (Some m) s1 (fun a h s => h = Some m /\ idle m s /\ Q a None s)) ->
  (forall a s s', grow s s' -> Q a None s -> Q a None s') ->
  safe (with_lock m p) None s Q.
Proof.
  intros P St. cbn [with_lock safe]. split; [done|]. intros s1 G I J. apply safe_bind.
  eapply safe_mono; [|by apply P]. cbn beta. intros a h s2 (-> & J2 & F). cbn [safe]. split; [done|]. intros s3 [G3 R3] I3.
  split; [eapply idle_other; eauto|]. by eapply St.
Qed.

(** ** Processes *)

Definition ends (a : unit) (h : option nat) (s : S) : Prop := h = None.

Record safe_process (c : Process S) : Prop := {
  process_inv : inv c.1;
  process_idle : forall m, unheld m c.2 -> idle m c.1;
  process_threads : forall i t, c.2 !! i = Some t -> safe t.2 t.1 c.1 ends;
  process_mutex : forall i j t u m, c.2 !! i = Some t -> c.2 !! j = Some u -> t.1 = Some m -> u.1 = Some m -> i = j;
}.

(** One thread moves; the others rely on its discipline. *)
Lemma safe_move s s' (ts : list (Thread S)) i h h' p p' :
  safe_process (s, ts) -> ts !! i = Some (h, p) -> inv s' -> grow s s' -> safe p' h' s' ends ->
  (forall m, h <> Some m -> h' <> Some m -> other m s s') ->
  (forall m, h = Some m -> h' <> Some m -> idle m s') ->
  (forall m, h' = Some m -> h <> Some m -> unheld m ts) ->
  safe_process (s', <[i := (h', p')]> ts).
Proof.
  intros [I J T M] L I' Gr P' O F G. cbn [fst snd] in *. pose proof (lookup_lt_Some _ _ _ L) as Lt.
  assert (forall j u m, j <> i -> ts !! j = Some u -> u.1 = Some m -> h <> Some m /\ h' <> Some m) as D.
  { intros j u m N Lj Hu. assert (h <> Some m) as Hh. { intros E. apply N. by apply (M j i u (h, p) m). }
    split; [done|]. intros E. by apply (G m E Hh u); [eapply list_elem_of_lookup_2|]. }
  split; cbn [fst snd].
  - done.
  - intros m U. destruct (decide (h = Some m)) as [E|N].
    + apply F; [done|]. intros E'. apply (U (h', p')); [|done]. apply (list_elem_of_lookup_2 _ i). by apply list_lookup_insert_eq.
    + assert (h' <> Some m) as N'.
      { intros E'. apply (U (h', p')); [|done]. apply (list_elem_of_lookup_2 _ i). by apply list_lookup_insert_eq. }
      apply (idle_other m s); [|by apply O]. apply J. intros t It Ht. apply list_elem_of_lookup in It as (j & Lj).
      destruct (decide (j = i)) as [->|Nj]; [pose proof (eq_trans (eq_sym L) Lj) as X; by injection X as <-|].
      apply (U t); [|done]. apply (list_elem_of_lookup_2 _ j). by rewrite list_lookup_insert_ne.
  - intros j t Lj. destruct (decide (j = i)) as [->|N].
    + rewrite list_lookup_insert_eq in Lj by done. by injection Lj as <-.
    + rewrite list_lookup_insert_ne in Lj by done. apply (safe_rely t.2 t.1 s); [done| |by eapply T].
      split; [done|]. intros m Ht. destruct (D j t m N Lj Ht). by apply O.
  - intros a b t u m La Lb Ht Hu. destruct (decide (a = i)) as [->|Na], (decide (b = i)) as [->|Nb]; [done|..].
    + rewrite list_lookup_insert_eq in La by done. injection La as <-. rewrite list_lookup_insert_ne in Lb by done.
      by destruct (D b u m Nb Lb Hu).
    + rewrite list_lookup_insert_eq in Lb by done. injection Lb as <-. rewrite list_lookup_insert_ne in La by done.
      by destruct (D a t m Na La Ht).
    + rewrite list_lookup_insert_ne in La, Lb by done. by eapply M.
Qed.

Lemma safe_step c c' : safe_process c -> step c c' -> safe_process c'.
Proof.
  intros Sc St. pose proof Sc as [I J T M]. destruct St as [s ts i h B f k b s' L E|s ts i m k L U|s ts i m k L]; cbn [fst snd] in *.
  - pose proof (T i _ L) as P. cbn [fst snd safe] in P. destruct (P s (rely_refl h s) I) as (b' & s2 & E2 & I2 & G2 & O & P2).
    rewrite E in E2. injection E2 as <- <-. apply (safe_move s s' ts i h h (Atomic f k)); try done. auto.
  - pose proof (T i _ L) as [_ P]. cbn [fst snd] in P.
    apply (safe_move s s ts i None (Some m) (Lock m k)); try done; [apply grow_refl|by apply P; [apply grow_refl| |apply J]|intros; apply other_refl|].
    intros m' [= <-]. done.
  - pose proof (T i _ L) as [_ P]. cbn [fst snd] in P. destruct (P s (rely_refl _ s) I) as [Id P1].
    apply (safe_move s s ts i (Some m) None (Unlock m k)); try done; [apply grow_refl|intros; apply other_refl|]. by intros m' [= <-].
Qed.

Lemma safe_spawn s ts p : safe_process (s, ts) -> (forall s, safe p None s ends) -> safe_process (s, ts ++ [(None, p)]).
Proof.
  intros [I J T M] P. cbn [fst snd] in *.
  assert (forall i t, (ts ++ [(None, p)]) !! i = Some t -> ts !! i = Some t \/ t = (None, p)) as D.
  { intros i t L. apply lookup_app_Some in L as [L|[_ L]]; [by left|]. right.
    apply list_lookup_singleton_Some in L as [_ <-]. done. }
  split; cbn [fst snd].
  - done.
  - intros m U. apply J. intros t It. apply U, elem_of_app. by left.
  - intros i t L. destruct (D i t L) as [L'| ->]; [by eapply T|apply P].
  - intros i j t u m Li Lj Ht Hu. destruct (D i t Li) as [Li'| ->]; [|done]. destruct (D j u Lj) as [Lj'| ->]; [|done].
    by eapply M.
Qed.

Lemma reachable_safe programs init c :
  inv init -> (forall m, idle m init) -> (forall p s, programs p -> safe p None s ends) ->
  reachable programs init c -> safe_process c.
Proof.
  intros I J P R. induction R as [|s ts p R IH Hp|c c' R IH St].
  - split; cbn; [done|auto|..]; intros; discriminate.
  - apply safe_spawn; [done|]. intros s'. by apply P.
  - by eapply safe_step.
Qed.

(** ** Progress *)

(** While some thread has not ended, some thread can move. *)
Lemma safe_progress c : safe_process c -> finished c \/ exists c', step c c'.
Proof.
  intros [I J T M]. destruct c as [s ts]. cbn [fst snd] in *.
  assert (forall i h (p : Prog S unit), ts !! i = Some (h, p) -> (forall m k, p <> Lock m k) -> (forall a, p <> Ret a) -> exists c', step (s, ts) c') as Mv.
  { intros i h p L NL NR. pose proof (T i _ L) as P. cbn [fst snd] in P. destruct p as [a|B f k|m k|m k]; [by destruct (NR a)|..].
    - destruct (P s (rely_refl h s) I) as (b & s2 & E & _). eexists. by eapply step_atomic.
    - by destruct (NL m k).
    - destruct P as [-> _]. eexists. by apply (step_unlock s ts i m k). }
  assert (forall i m k, ts !! i = Some (None, Lock m k) -> exists c', step (s, ts) c') as Lk.
  { intros i m k L. destruct (decide (Exists (fun t => t.1 = Some m) ts)) as [E|N].
    - apply Exists_exists in E as ((h & p) & It & Hh). cbn in Hh. subst h. apply list_elem_of_lookup in It as (j & Lj).
      pose proof (T j _ Lj) as P. cbn [fst snd] in P. apply (Mv j (Some m) p Lj).
      + intros m' k' ->. by destruct P.
      + intros a ->. done.
    - exists (s, <[i := (Some m, k)]> ts). apply step_lock; [done|]. intros t It Ht. apply N, Exists_exists. by exists t. }
  destruct (decide (Forall (fun t => ended t.2 = true) ts)) as [F|N].
  - left. unfold finished. cbn [snd]. apply Forall_lookup. intros i [h p] L. pose proof (proj1 (Forall_lookup _ _) F i _ L) as Hp.
    pose proof (T i _ L) as P. cbn [fst snd] in *. destruct p as [a| | |]; try done. split; [exact P|by exists a].
  - right. apply not_Forall_Exists in N; [|intros x; apply _]. apply Exists_exists in N as ((h & p) & It & Hp).
    apply list_elem_of_lookup in It as (i & L). cbn [snd] in Hp. destruct p as [a|B f k|m k|m k]; [by destruct Hp|..].
    + by eapply (Mv i).
    + pose proof (T i _ L) as [E _]. cbn in E. subst h. by eapply Lk.
    + by eapply (Mv i).
Qed.
End Safety.

(** * Termination *)

Section Termination.
Context {S : Type}.

(** What is left of a program after a step. *)
Definition rest {A} (q p : Prog S A) : Prop :=
  match p with
  | Ret _ => False
  | Atomic f k => exists b, q = k b
  | Lock _ k | Unlock _ k => q = k
  end.

Lemma rest_wf {A} (p : Prog S A) : Acc rest p.
Proof.
  induction p as [a|B f k IH|m k IH|m k IH]; constructor; intros q R; cbn in R.
  - destruct R.
  - destruct R as [b ->]. apply IH.
  - rewrite R. exact IH.
  - rewrite R. exact IH.
Qed.

(** One element of a list gets smaller. *)
Definition one_less {T} (R : T -> T -> Prop) (l' l : list T) : Prop :=
  exists i x x', l !! i = Some x /\ R x' x /\ l' = <[i := x']> l.

Lemma one_less_wf {T} (R : T -> T -> Prop) l : Forall (Acc R) l -> Acc (one_less R) l.
Proof.
  induction l as [|x l IH]; intros F; [constructor; intros l' (i & y & y' & L & _); done|].
  apply Forall_cons in F as [Ax F]. specialize (IH F). clear F.
  revert l IH. induction Ax as [x _ IHx]. intros l Al. induction Al as [l Al IHl].
  constructor. intros l' ([|i] & y & y' & L & Ry & ->); cbn in *.
  - injection L as ->. apply IHx; [done|]. by constructor.
  - apply IHl. by exists i, y, y'.
Qed.

Lemma step_less (c c' : Process S) : step c c' -> one_less (fun t' t => rest t'.2 t.2) c'.2 c.2.
Proof.
  intros [s ts i h B f k b s' L E|s ts i m k L U|s ts i m k L]; cbn [snd]; (eexists i, _, _; split; [exact L|]; split; [|done]); cbn; eauto.
Qed.

(** No schedule is endless. *)
Lemma steps_end (c : Process S) : Acc (fun c' c => step c c') c.
Proof.
  assert (Acc (one_less (fun t' t : Thread S => rest t'.2 t.2)) c.2) as A.
  { apply one_less_wf, Forall_forall. intros [h p] _. pose proof (rest_wf p) as W. revert h.
    induction W as [p _ IH]. intros h. constructor. intros [h' q] R. by apply IH. }
  remember c.2 as ts eqn:E. revert c E. induction A as [ts _ IH]. intros c ->. constructor. intros c' St.
  eapply IH; [by apply step_less|done].
Qed.
End Termination.

(** Threads that are safe end, in every order in which they can move. *)
Lemma safe_finish {S} `{Discipline S} (c : Process S) :
  safe_process c -> exists c', rtc step c c' /\ finished c' /\ safe_process c'.
Proof.
  pose proof (steps_end c) as A. induction A as [c _ IH]. intros Sc. destruct (safe_progress c Sc) as [F|[c1 St]].
  - exists c. split; [done|]. done.
  - destruct (IH c1 St (safe_step c c1 Sc St)) as (c2 & R & F & S2). exists c2. split; [by eapply rtc_l|done].
Qed.

(** * Schedules to run *)

Section Schedules.
Context {S : Type}.

(** The next step of thread [i], if it can move. *)
Definition move (i : nat) (c : Process S) : option (Process S) :=
  match c.2 !! i with
  | Some (h, Atomic f k) =>
      match f c.1 with Some (b, s') => Some (s', <[i := (h, k b)]> c.2) | None => None end
  | Some (None, Lock m k) =>
      if forallb (fun t => negb (bool_decide (t.1 = Some m))) c.2 then Some (c.1, <[i := (Some m, k)]> c.2) else None
  | Some (Some m', Unlock m k) => if (m =? m')%nat then Some (c.1, <[i := (None, k)]> c.2) else None
  | _ => None
  end.

(** Thread [i] moves as long as it can; [n] bounds its steps. *)
Fixpoint advance_thread (n i : nat) (c : Process S) : Process S :=
  match n with
  | O => c
  | Datatypes.S n => match move i c with Some c' => advance_thread n i c' | None => c end
  end.

Lemma move_step i c c' : move i c = Some c' -> step c c'.
Proof.
  unfold move. destruct c as [s ts]. cbn [fst snd]. destruct (ts !! i) as [[h p]|] eqn:L; [|done].
  destruct p as [a|B f k|m k|m k]; [by destruct h|..].
  - destruct (f s) as [[b s']|] eqn:E; [|by destruct h]. intros X. assert (c' = (s', <[i := (h, k b)]> ts)) as -> by (destruct h; congruence).
    by eapply step_atomic.
  - destruct h; [done|]. destruct (forallb _ _) eqn:F; [|done]. intros [= <-]. apply step_lock; [done|].
    intros t It. rewrite forallb_forall in F. specialize (F t (proj1 (list_elem_of_In _ _) It)). by apply negb_true_iff, bool_decide_eq_false in F.
  - destruct h as [m'|]; [|done]. destruct (Nat.eqb_spec m m') as [->|]; [|done]. intros [= <-]. by apply (step_unlock s ts i m').
Qed.

Lemma advance_reachable programs init n i c :
  reachable programs init c -> reachable programs init (advance_thread n i c).
Proof.
  revert c. induction n as [|n IH]; intros c R; [done|]. cbn. destruct (move i c) as [c'|] eqn:M; [|done].
  apply IH. eapply reachable_step; [done|by eapply move_step].
Qed.
End Schedules.
