(* ===== verification/TunerService.v ===== *)
(** The tuner service of the daemon ([src/tuner_service.cpp]): leases of clients on
    receivers, tuning with its power transaction, and the streams of leases.
    Several threads are in the service at once: each receiver has a mutex that is
    held during operations on it, and one more mutex guards the members, for short
    critical sections.  A method is a program of [Threads], whose atomic steps are
    those sections and the calls to the backend, the stream control, the clock and
    the sources of identities.  Receivers are indices of arrays, so they are [nat].
    The class is declared in dtv-userland-core. *)

From S2P Require Import Prelude Threads IpcTypes.

Open Scope Z_scope.

(** * Data *)

Inductive StreamState := SS_none | SS_armed | SS_attaching | SS_active | SS_revoked | SS_consumed.
#[export] Instance StreamState_eq_dec : EqDecision StreamState.
Proof. solve_decision. Defined.

Record Lease := {
  l_active : bool;
  l_client_id : Z;
  l_lease_id : Z;
  l_receiver : nat;
  l_system : System;
  l_nonce : list Z;
  l_stream_state : StreamState;
  l_attach_started_ms : Z;
  l_attachment_id : Z;
  l_capture_maybe_active : bool;
  l_stream_maybe_attached : bool;
  l_backend_disconnected : bool;
}.

(** [Lease{}]. *)
Definition empty_lease : Lease := {|
  l_active := false; l_client_id := 0; l_lease_id := 0; l_receiver := 0; l_system := System_other 0; l_nonce := [];
  l_stream_state := SS_none; l_attach_started_ms := 0; l_attachment_id := 0; l_capture_maybe_active := false;
  l_stream_maybe_attached := false; l_backend_disconnected := false;
|}.

Record TunerAcquireResult := { acquired_lease_id : Z; acquired_nonce : list Z }.
Record TunerStatus := { ts_generation : Z; ts_states : list ReceiverState }.
Record TunerAttachment := {
  a_owner_client_id : Z;
  a_lease_id : Z;
  a_attachment_id : Z;
  a_receiver : nat;
  a_system : System;
  a_nonce : list Z;
}.

Record TunerService := {
  states_ : list ReceiverState;
  generation_ : Z;
  leases_ : list Lease;
  reserved_lease_ids_ : list Z;
  reserved_attachment_ids_ : list Z;
  next_lease_id_ : Z;
  next_attachment_id_ : Z;
  last_attachment_id_ : Z;
}.

Definition with_states (s : TunerService) l g := {|
  states_ := l; generation_ := g; leases_ := leases_ s; reserved_lease_ids_ := reserved_lease_ids_ s;
  reserved_attachment_ids_ := reserved_attachment_ids_ s; next_lease_id_ := next_lease_id_ s;
  next_attachment_id_ := next_attachment_id_ s; last_attachment_id_ := last_attachment_id_ s |}.
Definition with_leases (s : TunerService) l := {|
  states_ := states_ s; generation_ := generation_ s; leases_ := l; reserved_lease_ids_ := reserved_lease_ids_ s;
  reserved_attachment_ids_ := reserved_attachment_ids_ s; next_lease_id_ := next_lease_id_ s;
  next_attachment_id_ := next_attachment_id_ s; last_attachment_id_ := last_attachment_id_ s |}.
Definition with_reserved_lease_ids (s : TunerService) l := {|
  states_ := states_ s; generation_ := generation_ s; leases_ := leases_ s; reserved_lease_ids_ := l;
  reserved_attachment_ids_ := reserved_attachment_ids_ s; next_lease_id_ := next_lease_id_ s;
  next_attachment_id_ := next_attachment_id_ s; last_attachment_id_ := last_attachment_id_ s |}.
Definition with_reserved_attachment_ids (s : TunerService) l := {|
  states_ := states_ s; generation_ := generation_ s; leases_ := leases_ s; reserved_lease_ids_ := reserved_lease_ids_ s;
  reserved_attachment_ids_ := l; next_lease_id_ := next_lease_id_ s;
  next_attachment_id_ := next_attachment_id_ s; last_attachment_id_ := last_attachment_id_ s |}.
Definition with_next_lease_id (s : TunerService) n := {|
  states_ := states_ s; generation_ := generation_ s; leases_ := leases_ s; reserved_lease_ids_ := reserved_lease_ids_ s;
  reserved_attachment_ids_ := reserved_attachment_ids_ s; next_lease_id_ := n;
  next_attachment_id_ := next_attachment_id_ s; last_attachment_id_ := last_attachment_id_ s |}.
Definition with_next_attachment_id (s : TunerService) n := {|
  states_ := states_ s; generation_ := generation_ s; leases_ := leases_ s; reserved_lease_ids_ := reserved_lease_ids_ s;
  reserved_attachment_ids_ := reserved_attachment_ids_ s; next_lease_id_ := next_lease_id_ s;
  next_attachment_id_ := n; last_attachment_id_ := last_attachment_id_ s |}.
Definition with_last_attachment_id (s : TunerService) n := {|
  states_ := states_ s; generation_ := generation_ s; leases_ := leases_ s; reserved_lease_ids_ := reserved_lease_ids_ s;
  reserved_attachment_ids_ := reserved_attachment_ids_ s; next_lease_id_ := next_lease_id_ s;
  next_attachment_id_ := next_attachment_id_ s; last_attachment_id_ := n |}.

Definition with_stream (l : Lease) (st : StreamState) (started : Z) : Lease := {|
  l_active := l_active l; l_client_id := l_client_id l; l_lease_id := l_lease_id l; l_receiver := l_receiver l;
  l_system := l_system l; l_nonce := l_nonce l; l_stream_state := st; l_attach_started_ms := started;
  l_attachment_id := l_attachment_id l; l_capture_maybe_active := l_capture_maybe_active l;
  l_stream_maybe_attached := l_stream_maybe_attached l; l_backend_disconnected := l_backend_disconnected l |}.
Definition with_stream_state (l : Lease) (st : StreamState) : Lease := with_stream l st (l_attach_started_ms l).
(** What is left of a stream. *)
Definition with_capture (l : Lease) (st : StreamState) (attachment : Z) (capture attached lost : bool) : Lease := {|
  l_active := l_active l; l_client_id := l_client_id l; l_lease_id := l_lease_id l; l_receiver := l_receiver l;
  l_system := l_system l; l_nonce := l_nonce l; l_stream_state := st; l_attach_started_ms := l_attach_started_ms l;
  l_attachment_id := attachment; l_capture_maybe_active := capture;
  l_stream_maybe_attached := attached; l_backend_disconnected := lost |}.
Definition with_system (l : Lease) (sys : System) : Lease := {|
  l_active := l_active l; l_client_id := l_client_id l; l_lease_id := l_lease_id l; l_receiver := l_receiver l;
  l_system := sys; l_nonce := l_nonce l; l_stream_state := l_stream_state l; l_attach_started_ms := l_attach_started_ms l;
  l_attachment_id := l_attachment_id l; l_capture_maybe_active := l_capture_maybe_active l;
  l_stream_maybe_attached := l_stream_maybe_attached l; l_backend_disconnected := l_backend_disconnected l |}.
Definition granted (l : Lease) (c id : Z) (r : nat) (sys : System) (nonce : list Z) : Lease := {|
  l_active := true; l_client_id := c; l_lease_id := id; l_receiver := r;
  l_system := sys; l_nonce := nonce; l_stream_state := l_stream_state l; l_attach_started_ms := l_attach_started_ms l;
  l_attachment_id := l_attachment_id l; l_capture_maybe_active := l_capture_maybe_active l;
  l_stream_maybe_attached := l_stream_maybe_attached l; l_backend_disconnected := l_backend_disconnected l |}.

(** * The surroundings *)

(** The board, the optional collaborators, and the types of the stream control. *)
Class TunerEnvironment := {
  receiver_count : Z;
  receiver_supports : nat -> System -> bool;
  selects_satellite_stream_before_tune : bool;
  requires_terrestrial_lock_settle : bool;
  lease_id_source_ : bool;
  attachment_id_source_ : bool;
  stream_control_ : bool;
  TunerStreamFinalSnapshot : Type;
  no_snapshot : TunerStreamFinalSnapshot;
  snapshot_disconnected : TunerStreamFinalSnapshot -> bool;
  TunerStreamCounters : Type;
}.

(** Calls to other objects. *)
Inductive Request :=
  | OpenReceiver (r : nat) | CloseReceiver (r : nat) | MarkReceiverDisconnected (r : nat)
  | StartCapture (r : nat) (sys : System) | StopCapture (r : nat) (sys : System)
  | BeginTunePower (r : nat) (sys : System) (lnb_voltage : Z)
  | CommitTunePower (r : nat) | RollbackTunePower (r : nat)
  | TuneTerrestrial (r : nat) (frequency timeout : Z) | TuneSatellite (r : nat) (frequency timeout : Z)
  | SelectSatelliteSlot (r : nat) (slot timeout : Z) | SelectSatelliteTsid (r : nat) (id timeout : Z)
  | IsLocked (r : nat) (sys : System) | ShutdownBackend
  | AttachStream (a : TunerAttachment) | DetachStream (a : TunerAttachment)
  | FinalSnapshot (a : TunerAttachment) | StreamStats (a : TunerAttachment)
  | MonotonicMs | SleepMs (ms : Z) | GenerateNonce | NextLeaseId | NextAttachmentId.

Section Service.
Context `{TunerEnvironment}.

Definition answer_type (q : Request) : Type :=
  match q with
  | MarkReceiverDisconnected _ | SleepMs _ => unit
  | MonotonicMs => Z
  | IsLocked _ _ => Result bool
  | GenerateNonce => Result (list Z)
  | NextLeaseId | NextAttachmentId => Result Z
  | FinalSnapshot _ => Result TunerStreamFinalSnapshot
  | StreamStats _ => Result TunerStreamCounters
  | _ => Result unit
  end.

(** A call that was made, and its answer; the latest call comes first. *)
Record Event := Called { request : Request; answer : answer_type request }.
Definition History := list Event.

(** Whatever the surroundings answer, it is a function of what has happened. *)
Class Surroundings := respond : History -> forall q, answer_type q.
Context `{Surroundings}.

Definition State : Type := TunerService * History.

Definition ask (q : Request) : Crit State (answer_type q) := fun st =>
  let a := respond st.2 q in Some (a, (st.1, Called q a :: st.2)).
Definition perform (q : Request) : Prog State (answer_type q) := atomically (ask q).
Definition monotonic_ms : Crit State Z := now ← ask MonotonicMs; mret (cast_u64 now).

Definition service : Crit State TunerService := fun st => Some (st.1, st).
Definition update (f : TunerService -> TunerService) : Crit State unit := fun st => Some (tt, (f st.1, st.2)).
(** An element of an array; an index out of range would be undefined. *)
Definition load {T} (l : list T) (i : nat) : Crit State T := fun st =>
  match l !! i with None => None | Some x => Some (x, st) end.
Definition store {T} (l : list T) (i : nat) (x : T) : Crit State (list T) := fun st =>
  if (i <? length l)%nat then Some (<[i := x]> l, st) else None.

Definition lease_at (i : nat) : Crit State Lease := s ← service; load (leases_ s) i.
Definition set_lease (i : nat) (l : Lease) : Crit State unit :=
  s ← service;
  leases ← store (leases_ s) i l;
  update (fun s => with_leases s leases).
Definition update_lease (i : nat) (f : Lease -> Lease) : Crit State unit :=
  l ← lease_at i;
  set_lease i (f l).
Definition state_at (r : nat) : Crit State ReceiverState := s ← service; load (states_ s) r.
Definition reserve_lease_id (r : nat) (id : Z) : Crit State unit :=
  s ← service;
  ids ← store (reserved_lease_ids_ s) r id;
  update (fun s => with_reserved_lease_ids s ids).
Definition reserve_attachment_id (r : nat) (id : Z) : Crit State unit :=
  s ← service;
  ids ← store (reserved_attachment_ids_ s) r id;
  update (fun s => with_reserved_attachment_ids s ids).

Definition error_of {A} (r : Result A) : Error := match r with success _ => OK | failure e => e end.
Definition result_of (e : Error) : Result unit := if bool_decide (e = OK) then success tt else failure e.

(** * Checks *)

Definition kWaitAfterLockTcTMs := 340.
Definition kMaxReceivers : nat := Z.to_nat kReceiverCount.

Definition valid_client (c : Z) : bool := negb (c =? 0).
Definition valid_receiver (r : nat) : bool := (Z.of_nat r <? kReceiverCount) && (Z.of_nat r <? receiver_count).
Definition initial_system (r : nat) : System :=
  if receiver_supports r ISDB_S && negb (receiver_supports r ISDB_T) then ISDB_S else ISDB_T.

Definition valid_tune (q : TuneRequestPayload) : bool :=
  if 2 ^ 32 - 1 <? frequency_khz q then false
  else if (timeout_ms q <? 100) || (30000 <? timeout_ms q) then false
  else if eqb (tune_system q) ISDB_T then
    (40000 <=? frequency_khz q) && (frequency_khz q <=? 1002000)
      && (stream_id q =? 0xffff) && (slot q =? 0xffff) && (bandwidth_hz q =? 6000000) && (lnb_voltage q =? 0)
  else if negb (eqb (tune_system q) ISDB_S) || (frequency_khz q <? 146875)
       || (2350000 <? frequency_khz q) || negb (bandwidth_hz q =? 0) then false
  else if negb (lnb_voltage q =? 0) && negb (lnb_voltage q =? 15) then false
  else
    let has_stream_id := negb (stream_id q =? 0xffff) in
    let has_slot := negb (slot q =? 0xffff) in
    negb (Bool.eqb has_stream_id has_slot) && (negb has_slot || (slot q <? 12)).

Definition owned_by (c id : Z) (l : Lease) : Prop := l_active l = true /\ l_client_id l = c /\ l_lease_id l = id.
#[export] Instance owned_by_dec c id l : Decision (owned_by c id l) := ltac:(unfold owned_by; apply _).

Definition find_lease_locked (c id : Z) (s : TunerService) : option nat :=
  if negb (valid_client c) || (id =? 0) then None
  else fst <$> list_find (owned_by c id) (leases_ s).

Definition lease_id_in_use_locked (s : TunerService) (id : Z) : bool :=
  (id =? 0) || existsb (fun l => l_active l && (l_lease_id l =? id)) (leases_ s)
  || existsb (fun reserved => reserved =? id) (reserved_lease_ids_ s).
Definition attachment_id_in_use_locked (s : TunerService) (id : Z) : bool :=
  (id =? 0) || existsb (fun l => l_active l && (l_attachment_id l =? id)) (leases_ s)
  || existsb (fun reserved => reserved =? id) (reserved_attachment_ids_ s).

(** * Identities *)

Definition kMaxAttempts : nat := Z.to_nat (kReceiverCount + 8).

Definition next_lease_id : Crit State (Result Z) :=
  if lease_id_source_ then ask NextLeaseId
  else
    s ← service;
    let candidate := next_lease_id_ s in
    _ ← update (fun s => with_next_lease_id s (if candidate =? 2 ^ 64 - 1 then 1 else candidate + 1));
    mret (success candidate).

Fixpoint lease_id_attempts (attempts : nat) (r : nat) : Crit State (Result Z) :=
  match attempts with
  | O => mret (failure BUSY)
  | S attempts =>
      next ← next_lease_id;
      match next with
      | failure e => mret (failure e)
      | success candidate =>
          if candidate =? 0 then mret (failure INVALID_ARGUMENT)
          else
            s ← service;
            if negb (lease_id_in_use_locked s candidate) then
              _ ← reserve_lease_id r candidate;
              mret (success candidate)
            else lease_id_attempts attempts r
      end
  end.
Definition allocate_lease_id_locked (r : nat) : Crit State (Result Z) := lease_id_attempts kMaxAttempts r.

Definition next_attachment_id : Crit State (Result Z) :=
  if attachment_id_source_ then ask NextAttachmentId
  else
    s ← service;
    let candidate := next_attachment_id_ s in
    _ ← update (fun s => with_next_attachment_id s (if candidate =? 2 ^ 64 - 1 then 0 else candidate + 1));
    mret (success candidate).

Fixpoint attachment_id_attempts (attempts : nat) (r : nat) : Crit State (Result Z) :=
  match attempts with
  | O => mret (failure BUSY)
  | S attempts =>
      next ← next_attachment_id;
      match next with
      | failure e => mret (failure e)
      | success candidate =>
          if candidate =? 0 then mret (failure BUSY)
          else
            s ← service;
            if (last_attachment_id_ s <? candidate) && negb (attachment_id_in_use_locked s candidate) then
              _ ← reserve_attachment_id r candidate;
              _ ← update (fun s => with_last_attachment_id s candidate);
              mret (success candidate)
            else attachment_id_attempts attempts r
      end
  end.
Definition allocate_attachment_id_locked (r : nat) : Crit State (Result Z) := attachment_id_attempts kMaxAttempts r.

Definition set_state_locked (r : nat) (state : ReceiverState) : Crit State unit :=
  s ← service;
  current ← load (states_ s) r;
  if bool_decide (current = state) then mret tt
  else
    states ← store (states_ s) r state;
    update (fun s => with_states s states (cast_u64 (generation_ s + 1))).

(** * Parts of operations *)

Definition observe_disconnect (r : nat) (e : Error) : Prog State unit :=
  if bool_decide (e = DISCONNECTED) then perform (MarkReceiverDisconnected r) else mret tt.

(** A call for a receiver, and the notice of its loss. *)
Definition observed {A} (r : nat) (p : Prog State (Result A)) : Prog State (Result A) :=
  result ← p;
  _ ← observe_disconnect r (error_of result);
  mret result.

Definition close_lease (l : Lease) : Prog State (Result unit) :=
  observed (l_receiver l) (perform (CloseReceiver (l_receiver l))).

Definition stop_capture_if_needed (l : Lease) : Prog State (Result unit) :=
  if l_backend_disconnected l then mret (failure DISCONNECTED)
  else if negb (l_capture_maybe_active l) then mret (success tt)
  else observed (l_receiver l) (perform (StopCapture (l_receiver l) (l_system l))).

Definition attachment_of (l : Lease) (id : Z) : TunerAttachment := {|
  a_owner_client_id := l_client_id l; a_lease_id := l_lease_id l; a_attachment_id := id;
  a_receiver := l_receiver l; a_system := l_system l; a_nonce := l_nonce l |}.

Definition detach_data_plane_if_needed (l : Lease) : Prog State (Result unit) :=
  if negb (l_stream_maybe_attached l) || negb stream_control_ then mret (success tt)
  else observed (l_receiver l) (perform (DetachStream (attachment_of l (l_attachment_id l)))).

(** [detached || detached.error() == Error::NOT_FOUND]. *)
Definition clean (detached : Result unit) : bool := is_success detached || bool_decide (error_of detached = NOT_FOUND).
Definition disconnected {A} (r : Result A) : bool := bool_decide (error_of r = DISCONNECTED).
(** [first = result.error()] where nothing failed before. *)
Definition first_error {A} (first : Error) (r : Result A) : Error := if bool_decide (first = OK) then error_of r else first.

(** What revoking does to the state of a stream. *)
Definition revoked (st : StreamState) : StreamState :=
  match st with SS_armed | SS_attaching | SS_active => SS_revoked | _ => st end.
Definition revoke (l : Lease) : Lease := with_stream_state l (revoked (l_stream_state l)).

(** * Leases *)

Definition acquire (c : Z) (r : nat) : Prog State (Result TunerAcquireResult) :=
  if negb (valid_client c) || negb (valid_receiver r) then mret (failure INVALID_ARGUMENT)
  else
    with_lock r (
      prepared ← atomically (
        l ← lease_at r;
        state ← state_at r;
        if l_active l then mret (failure BUSY)
        else if bool_decide (state = RS_error) then mret (failure NOT_READY)
        else
          nonce ← ask GenerateNonce;
          match nonce with
          | failure e => mret (failure e)
          | success nonce =>
              id ← allocate_lease_id_locked r;
              match id with
              | failure e => mret (failure e)
              | success id => mret (success (nonce, id))
              end
          end);
      match prepared with
      | failure e => mret (failure e)
      | success (nonce, id) =>
          opened ← perform (OpenReceiver r);
          match opened with
          | failure e =>
              _ ← observe_disconnect r e;
              _ ← atomically (reserve_lease_id r 0);
              mret (failure e)
          | success _ =>
              atomically (
                _ ← reserve_lease_id r 0;
                _ ← update_lease r (fun l => granted l c id r (initial_system r) nonce);
                _ ← set_state_locked r RS_leased;
                l ← lease_at r;
                mret (success {| acquired_lease_id := l_lease_id l; acquired_nonce := l_nonce l |}))
          end
      end).

Definition release_lease (c id : Z) : Prog State (Result unit) :=
  if negb (valid_client c) || (id =? 0) then mret (failure NOT_FOUND)
  else
    found ← atomically (
      s ← service;
      match find_lease_locked c id s with
      | None => mret None
      | Some index =>
          l ← lease_at index;
          _ ← update_lease (l_receiver l) revoke;
          mret (Some (l_receiver l))
      end);
    match found with
    | None => mret (failure NOT_FOUND)
    | Some r =>
        with_lock r (
          taken ← atomically (
            s ← service;
            match find_lease_locked c id s with
            | None => mret None
            | Some index =>
                l ← lease_at index;
                _ ← set_lease index empty_lease;
                _ ← set_state_locked r RS_free;
                mret (Some l)
            end);
          match taken with
          | None => mret (failure NOT_FOUND)
          | Some l =>
              detached ← detach_data_plane_if_needed l;
              let first := if clean detached then OK else error_of detached in
              let lost := l_backend_disconnected l || disconnected detached in
              stopped ← (if lost then mret (failure DISCONNECTED) else stop_capture_if_needed l);
              let first := first_error first stopped in
              first ← (if negb lost && negb (disconnected stopped) then
                         closed ← close_lease l;
                         mret (first_error first closed)
                       else mret first);
              _ ← (if negb (clean detached) || negb (is_success stopped) || lost
                   then atomically (set_state_locked r RS_error) else mret tt);
              mret (result_of first)
          end)
    end.
Definition release : Z -> Z -> Prog State (Result unit) := release_lease.

(** * Tuning *)

(** The rounds of the loop; [count + 1U == max_polls] in the last one. *)
Fixpoint poll_rounds (rounds : nat) (r : nat) (sys : System) (start_ms timeout_ms : Z) : Prog State (Result bool) :=
  match rounds with
  | O => mret (success false)
  | S rounds =>
      before ← atomically monotonic_ms;
      if timeout_ms <=? cast_u64 (before - start_ms) then mret (success false)
      else
        locked ← observed r (perform (IsLocked r sys));
        match locked with
        | failure e => mret (failure e)
        | success true => mret (success true)
        | success false =>
            now ← atomically monotonic_ms;
            let elapsed := cast_u64 (now - start_ms) in
            if (timeout_ms <=? elapsed) || (rounds =? 0)%nat then mret (success false)
            else if timeout_ms - elapsed <? 10 then mret (success false)
            else
              _ ← perform (SleepMs 10);
              poll_rounds rounds r sys start_ms timeout_ms
        end
  end.
Definition poll_lock (r : nat) (sys : System) (start_ms timeout_ms : Z) : Prog State (Result bool) :=
  poll_rounds (Z.to_nat (timeout_ms / 10 + 1)) r sys start_ms timeout_ms.

Definition fail_after_power {A} (r : nat) (primary : Error) : Prog State (Result A) :=
  _ ← observe_disconnect r primary;
  rollback ← observed r (perform (RollbackTunePower r));
  _ ← (if is_success rollback then mret tt else atomically (set_state_locked r RS_error));
  mret (failure primary).

(** What is left of the time for a tune. *)
Definition remaining_before_tune (start_ms timeout_ms : Z) : Prog State Z :=
  now ← atomically monotonic_ms;
  let elapsed := cast_u64 (now - start_ms) in
  mret (if timeout_ms <=? elapsed then 0 else cast_u32 (timeout_ms - elapsed)).

Definition select_satellite_stream (r : nat) (q : TuneRequestPayload) (remaining : Z) : Prog State (Result unit) :=
  if negb (slot q =? 0xffff) then perform (SelectSatelliteSlot r (cast_u8 (slot q)) remaining)
  else perform (SelectSatelliteTsid r (stream_id q) remaining).

(** A part of a tune: the rest follows unless it fails, and then the power is
    rolled back. *)
Definition or_fail {A B} (r : nat) (p : Prog State (Result A)) (k : A -> Prog State (Result B)) : Prog State (Result B) :=
  result ← p;
  match result with
  | failure e => fail_after_power r e
  | success a => k a
  end.

Definition select_first (r : nat) (q : TuneRequestPayload) (start_ms : Z) : Prog State (Result unit) :=
  remaining ← remaining_before_tune start_ms (timeout_ms q);
  if remaining =? 0 then mret (failure TIMEOUT) else select_satellite_stream r q remaining.

Definition run_tune (r : nat) (q : TuneRequestPayload) (start_ms : Z) : Prog State (Result unit) :=
  remaining ← remaining_before_tune start_ms (timeout_ms q);
  if remaining =? 0 then mret (failure TIMEOUT)
  else if eqb (tune_system q) ISDB_T then perform (TuneTerrestrial r (cast_u32 (frequency_khz q)) remaining)
  else perform (TuneSatellite r (cast_u32 (frequency_khz q)) remaining).

(** Waiting until the terrestrial lock has settled. *)
Definition settle_lock (start_ms poll_start_ms timeout_ms : Z) : Prog State (Result unit) :=
  now ← atomically monotonic_ms;
  let elapsed_total := cast_u64 (now - start_ms) in
  if timeout_ms <=? elapsed_total then mret (failure TIMEOUT)
  else
    let lock_poll_elapsed := cast_u64 (now - poll_start_ms) in
    if lock_poll_elapsed <? kWaitAfterLockTcTMs then
      let settle_ms := cast_u32 (kWaitAfterLockTcTMs - lock_poll_elapsed) in
      let remaining := cast_u32 (timeout_ms - elapsed_total) in
      if remaining <=? settle_ms then mret (failure TIMEOUT)
      else
        _ ← perform (SleepMs settle_ms);
        mret (success tt)
    else mret (success tt).

Definition select_last (r : nat) (q : TuneRequestPayload) (start_ms : Z) : Prog State (Result unit) :=
  now ← atomically monotonic_ms;
  let elapsed := cast_u64 (now - start_ms) in
  if timeout_ms q <=? elapsed then mret (failure TIMEOUT)
  else
    selected ← select_satellite_stream r q (cast_u32 (timeout_ms q - elapsed));
    match selected with
    | failure e => mret (failure e)
    | success _ =>
        now ← atomically monotonic_ms;
        mret (if timeout_ms q <=? cast_u64 (now - start_ms) then failure TIMEOUT else success tt)
    end.

(** From the power that is prepared to the power that is committed. *)
Definition tune_prepared (r : nat) (q : TuneRequestPayload) : Prog State (Result TuneResponsePayload) :=
  start_ms ← atomically monotonic_ms;
  let select_before_tune := eqb (tune_system q) ISDB_S && selects_satellite_stream_before_tune in
  or_fail r (if select_before_tune then select_first r q start_ms else mret (success tt)) (fun _ =>
  or_fail r (run_tune r q start_ms) (fun _ =>
  lock_poll_start_ms ← atomically monotonic_ms;
  or_fail r (poll_lock r (tune_system q) start_ms (timeout_ms q)) (fun locked =>
  or_fail r (mret (if (locked : bool) then success tt else failure TIMEOUT)) (fun _ =>
  or_fail r (if eqb (tune_system q) ISDB_T && requires_terrestrial_lock_settle
             then settle_lock start_ms lock_poll_start_ms (timeout_ms q) else mret (success tt)) (fun _ =>
  or_fail r (if eqb (tune_system q) ISDB_S && negb select_before_tune
             then select_last r q start_ms else mret (success tt)) (fun _ =>
  or_fail r (perform (CommitTunePower r)) (fun _ =>
  _ ← atomically (
    _ ← update_lease r (fun l => with_system l (tune_system q));
    _ ← update_lease r (fun l => if bool_decide (l_stream_state l = SS_consumed) then with_stream_state l SS_none else l);
    set_state_locked r RS_tuned);
  mret (success {| IpcTypes.locked := 1; cnr_mdb := - 2 ^ 31 |})))))))).

Definition tune (c : Z) (q : TuneRequestPayload) : Prog State (Result TuneResponsePayload) :=
  found ← atomically (
    s ← service;
    match find_lease_locked c (tune_lease_id q) s with
    | None => mret None
    | Some index => l ← lease_at index; mret (Some (l_receiver l))
    end);
  match found with
  | None => mret (failure NOT_FOUND)
  | Some r =>
      with_lock r (
        copied ← atomically (
          s ← service;
          match find_lease_locked c (tune_lease_id q) s with
          | None => mret (failure NOT_FOUND)
          | Some index =>
              l ← lease_at index;
              state ← state_at (l_receiver l);
              if bool_decide (state = RS_error) then mret (failure NOT_READY) else mret (success l)
          end);
        match copied with
        | failure e => mret (failure e)
        | success l =>
            if bool_decide (l_stream_state l <> SS_none /\ l_stream_state l <> SS_consumed) then mret (failure BUSY)
            else if negb (receiver_supports r (tune_system q)) then mret (failure INVALID_ARGUMENT)
            else if negb (valid_tune q) then mret (failure INVALID_ARGUMENT)
            else
              _ ← atomically (set_state_locked r RS_leased);
              prepared ← observed r (perform (BeginTunePower r (tune_system q) (lnb_voltage q)));
              match prepared with
              | failure e => mret (failure e)
              | success _ => tune_prepared r q
              end
        end)
  end.

(** * Streams *)

Definition start_stream (c id : Z) : Prog State (Result unit) :=
  if negb (valid_client c) || (id =? 0) then mret (failure NOT_FOUND)
  else
    atomically (
      s ← service;
      match find_lease_locked c id s with
      | None => mret (failure NOT_FOUND)
      | Some index =>
          l ← lease_at index;
          state ← state_at (l_receiver l);
          if negb (bool_decide (state = RS_tuned)) then mret (failure NOT_READY)
          else if negb (bool_decide (l_stream_state l = SS_none)) then mret (failure BUSY)
          else
            now ← monotonic_ms;
            _ ← set_lease index (with_stream l SS_armed now);
            mret (success tt)
      end).

(** The search of ATTACH, by identity and nonce. *)
Definition offered (id : Z) (nonce : list Z) (l : Lease) : Prop := l_active l = true /\ l_lease_id l = id /\ l_nonce l = nonce.
#[export] Instance offered_dec id nonce l : Decision (offered id nonce l) := ltac:(unfold offered; apply _).
Definition find_offered (id : Z) (nonce : list Z) (s : TunerService) : option nat :=
  fst <$> list_find (offered id nonce) (leases_ s).

(** The lease takes what an attempt to attach has left. *)
Definition settle_attach (r : nat) (pending : Lease) (f : Lease -> Lease) (state : option ReceiverState) : Crit State unit :=
  _ ← reserve_attachment_id r 0;
  s ← service;
  match find_lease_locked (l_client_id pending) (l_lease_id pending) s with
  | None => mret tt
  | Some index =>
      _ ← update_lease index f;
      match state with None => mret tt | Some state => set_state_locked r state end
  end.

(** The start or the data plane failed. *)
Definition attach_failed (r : nat) (pending : Lease) (attachment_id : Z) (started attached : Result unit) : Prog State (Result TunerAttachment) :=
  let result_error := if is_success started then error_of attached else error_of started in
  let pending_attachment := attachment_of pending attachment_id in
  let lost := disconnected started || disconnected attached in
  found ←
    (if is_success started && stream_control_ then
       detached ← observed r (perform (DetachStream pending_attachment));
       mret (negb (clean detached), lost || disconnected detached)
     else mret (false, lost));
  let '(data_maybe_attached, lost) := (found : bool * bool) in
  left ←
    (if negb lost then
       stopped ← observed r (perform (StopCapture r (l_system pending)));
       mret (negb (is_success stopped), disconnected stopped)
     else mret (is_success started, lost));
  let '(capture_maybe_active, lost) := (left : bool * bool) in
  _ ← atomically (settle_attach r pending
    (fun l => with_capture l SS_consumed (if data_maybe_attached then attachment_id else 0)
                capture_maybe_active data_maybe_attached lost)
    (if capture_maybe_active || data_maybe_attached || lost then Some RS_error else None));
  mret (failure result_error).

(** Revoking won the race against the start. *)
Definition attach_revoked (r : nat) (pending : Lease) (attachment_id : Z) (data_attached : bool) : Prog State (Result TunerAttachment) :=
  let pending_attachment := attachment_of pending attachment_id in
  detached ← observed r (if data_attached && stream_control_ then perform (DetachStream pending_attachment) else mret (success tt));
  let data_maybe_attached := negb (clean detached) in
  let result_error := if clean detached then NOT_FOUND else error_of detached in
  stopped ← (if negb (disconnected detached) then observed r (perform (StopCapture r (l_system pending)))
             else mret (failure DISCONNECTED));
  let result_error := if negb (is_success stopped) && bool_decide (result_error = NOT_FOUND)
                      then error_of stopped else result_error in
  let result_error := if disconnected stopped then DISCONNECTED else result_error in
  _ ← atomically (settle_attach r pending
    (fun l => with_capture l SS_consumed (if data_maybe_attached then attachment_id else 0)
                (negb (is_success stopped)) data_maybe_attached (disconnected stopped))
    (Some (if is_success stopped && negb data_maybe_attached then RS_tuned else RS_error)));
  mret (failure result_error).

Definition attach_started (r : nat) (pending : Lease) (attachment_id : Z) (data_attached : bool) : Prog State (Result TunerAttachment) :=
  accepted ← atomically (
    s ← service;
    match find_lease_locked (l_client_id pending) (l_lease_id pending) s with
    | None => mret false
    | Some index =>
        l ← lease_at index;
        if bool_decide (l_stream_state l = SS_attaching) then
          _ ← set_lease index (with_capture l SS_active attachment_id true data_attached (l_backend_disconnected l));
          _ ← set_state_locked r RS_streaming;
          mret true
        else mret false
    end);
  if (accepted : bool) then
    atomically (
      _ ← reserve_attachment_id r 0;
      l ← lease_at r;
      mret (success (attachment_of l (l_attachment_id l))))
  else attach_revoked r pending attachment_id data_attached.

Definition attach_stream (id : Z) (nonce : list Z) : Prog State (Result TunerAttachment) :=
  if id =? 0 then mret (failure NOT_FOUND)
  else
    found ← atomically (
      s ← service;
      match find_offered id nonce s with
      | None => mret None
      | Some index => l ← lease_at index; mret (Some (l_receiver l))
      end);
    match found with
    | None => mret (failure NOT_FOUND)
    | Some r =>
        with_lock r (
          taken ← atomically (
            s ← service;
            match find_offered id nonce s with
            | None => mret (failure NOT_FOUND)
            | Some index =>
                l ← lease_at index;
                if bool_decide (l_receiver l <> r \/ l_stream_state l <> SS_armed)
                then mret (failure (if bool_decide (l_stream_state l = SS_none) then NOT_READY else NOT_FOUND))
                else
                  now ← monotonic_ms;
                  if 5000 <=? cast_u64 (now - l_attach_started_ms l) then
                    _ ← update_lease index (fun l => with_stream_state l SS_consumed);
                    mret (failure TIMEOUT)
                  else
                    allocated ← allocate_attachment_id_locked r;
                    match allocated with
                    | failure e => mret (failure e)
                    | success attachment_id =>
                        _ ← update_lease index (fun l => with_stream_state l SS_attaching);
                        l ← lease_at index;
                        mret (success (l, attachment_id))
                    end
            end);
          match taken with
          | failure e => mret (failure e)
          | success (pending, attachment_id) =>
              started ← observed r (perform (StartCapture r (l_system pending)));
              attached ← (if is_success started && stream_control_
                          then observed r (perform (AttachStream (attachment_of pending attachment_id)))
                          else mret (success tt));
              if negb (is_success started) || negb (is_success attached)
              then attach_failed r pending attachment_id started attached
              else attach_started r pending attachment_id stream_control_
          end)
    end.

(** The stream is taken down: the data plane first, and then the capture, unless
    the device is lost. *)
Definition stop_parts (r : nat) (pending : Lease) : Prog State (Result unit * Result unit) :=
  detached ← detach_data_plane_if_needed pending;
  stopped ← (if negb (disconnected detached) then observed r (perform (StopCapture r (l_system pending)))
             else mret (failure DISCONNECTED));
  mret (detached, stopped).

Definition stop_stream (c id : Z) : Prog State (Result TunerStreamFinalSnapshot) :=
  if negb (valid_client c) || (id =? 0) then mret (failure NOT_FOUND)
  else
    found ← atomically (
      s ← service;
      match find_lease_locked c id s with
      | None => mret None
      | Some index => l ← lease_at index; mret (Some (l_receiver l))
      end);
    match found with
    | None => mret (failure NOT_FOUND)
    | Some r =>
        with_lock r (
          copied ← atomically (
            s ← service;
            match find_lease_locked c id s with
            | None => mret (failure NOT_FOUND)
            | Some index =>
                l ← lease_at index;
                if bool_decide (l_receiver l <> r \/
                                (l_stream_state l <> SS_active /\ l_stream_state l <> SS_revoked) \/
                                l_capture_maybe_active l = false)
                then mret (failure NOT_READY) else mret (success l)
            end);
          match copied with
          | failure e => mret (failure e)
          | success pending =>
              parts ← stop_parts r pending;
              let '(detached, stopped) := (parts : Result unit * Result unit) in
              let first := if clean detached then OK else error_of detached in
              let first := first_error first stopped in
              last ←
                (if clean detached && stream_control_ && l_stream_maybe_attached pending then
                   snapshot ← perform (FinalSnapshot (attachment_of pending (l_attachment_id pending)));
                   match snapshot with
                   | success final_snapshot =>
                       _ ← (if snapshot_disconnected final_snapshot then observe_disconnect r DISCONNECTED else mret tt);
                       mret (final_snapshot, snapshot_disconnected final_snapshot, first)
                   | failure e =>
                       _ ← observe_disconnect r e;
                       mret (no_snapshot, bool_decide (e = DISCONNECTED), if bool_decide (first = OK) then e else first)
                   end
                 else mret (no_snapshot, false, first));
              let '(final_snapshot, gone, first) := (last : TunerStreamFinalSnapshot * bool * Error) in
              _ ← atomically (
                s ← service;
                match find_lease_locked c id s with
                | None => mret tt
                | Some index =>
                    _ ← update_lease index (fun l => with_capture l SS_consumed
                          (if clean detached then 0 else l_attachment_id pending)
                          (negb (is_success stopped)) (negb (clean detached))
                          (disconnected detached || disconnected stopped || gone));
                    set_state_locked r (if is_success stopped && clean detached && negb gone then RS_tuned else RS_error)
                end);
              mret (if bool_decide (first = OK) then success final_snapshot else failure first)
          end)
    end.

Definition stats (c id : Z) : Prog State (Result TunerStreamCounters) :=
  if negb (valid_client c) || (id =? 0) then mret (failure NOT_FOUND)
  else
    found ← atomically (
      s ← service;
      match find_lease_locked c id s with
      | None => mret None
      | Some index => l ← lease_at index; mret (Some (l_receiver l))
      end);
    match found with
    | None => mret (failure NOT_FOUND)
    | Some r =>
        with_lock r (
          copied ← atomically (
            s ← service;
            match find_lease_locked c id s with
            | None => mret (failure NOT_FOUND)
            | Some index =>
                l ← lease_at index;
                if bool_decide (l_receiver l <> r \/ l_stream_state l <> SS_active \/ l_capture_maybe_active l = false)
                then mret (failure NOT_READY)
                else if negb stream_control_ || negb (l_stream_maybe_attached l) then mret (failure UNSUPPORTED)
                else mret (success l)
            end);
          match copied with
          | failure e => mret (failure e)
          | success l => perform (StreamStats (attachment_of l (l_attachment_id l)))
          end)
    end.

(** Whether the lease still is the one of an attachment. *)
Definition attached_as (a : TunerAttachment) (l : Lease) : Prop :=
  l_active l = true /\ l_client_id l = a_owner_client_id a /\ l_lease_id l = a_lease_id a /\
  l_attachment_id l = a_attachment_id a /\ l_system l = a_system a /\ l_nonce l = a_nonce a /\
  (l_stream_state l = SS_active \/ l_stream_state l = SS_revoked).
#[export] Instance attached_as_dec a l : Decision (attached_as a l) := ltac:(unfold attached_as; apply _).

Definition detach_stream (a : TunerAttachment) : Prog State (Result unit) :=
  if (a_owner_client_id a =? 0) || (a_lease_id a =? 0) || (a_attachment_id a =? 0)
     || (kReceiverCount <=? Z.of_nat (a_receiver a))
  then mret (failure NOT_FOUND)
  else
    let r := a_receiver a in
    found ← atomically (
      l ← lease_at r;
      if negb (bool_decide (attached_as a l)) then mret false
      else
        _ ← set_lease r (with_stream_state l SS_revoked);
        mret true);
    if negb found then mret (failure NOT_FOUND)
    else
      with_lock r (
        copied ← atomically (
          l ← lease_at r;
          if negb (bool_decide (attached_as a l)) then mret None else mret (Some l));
        match copied with
        | None => mret (failure NOT_FOUND)
        | Some pending =>
            parts ← stop_parts r pending;
            let '(detached, stopped) := (parts : Result unit * Result unit) in
            let first := if clean detached then OK else error_of detached in
            let first := first_error first stopped in
            _ ← atomically (
              s ← service;
              match find_lease_locked (a_owner_client_id a) (a_lease_id a) s with
              | None => mret tt
              | Some index =>
                  l ← lease_at index;
                  if negb (l_attachment_id l =? a_attachment_id a) then mret tt
                  else
                    _ ← set_lease index (with_capture l SS_consumed
                          (if clean detached then 0 else a_attachment_id a)
                          (negb (is_success stopped)) (negb (clean detached))
                          (disconnected detached || disconnected stopped));
                    set_state_locked r (if is_success stopped && clean detached then RS_tuned else RS_error)
              end);
            mret (result_of first)
        end).

Definition revoke_stream (c id : Z) : Prog State (Result unit) :=
  if negb (valid_client c) || (id =? 0) then mret (failure NOT_FOUND)
  else
    atomically (
      s ← service;
      match find_lease_locked c id s with
      | None => mret (failure NOT_FOUND)
      | Some index => _ ← update_lease index revoke; mret (success tt)
      end).

Definition revoke_stream_with_nonce (c id : Z) (nonce : list Z) : Prog State (Result unit) :=
  if negb (valid_client c) || (id =? 0) then mret (failure NOT_FOUND)
  else
    atomically (
      s ← service;
      match find_lease_locked c id s with
      | None => mret (failure NOT_FOUND)
      | Some index =>
          l ← lease_at index;
          if negb (bool_decide (l_nonce l = nonce)) then mret (failure NOT_FOUND)
          else
            _ ← set_lease index (revoke l);
            mret (success tt)
      end).

Definition status : Prog State (Result TunerStatus) :=
  atomically (
    s ← service;
    mret (success {| ts_generation := generation_ s; ts_states := states_ s |})).

(** * Cleanup *)

(** The first loop of a cleanup: the leases of [mine] are revoked, and their
    clients and identities noted, zero where there is none. *)
Definition revoke_mine (mine : Lease -> bool) : Crit State (list (Z * Z)) :=
  s ← service;
  _ ← update (fun s => with_leases s ((fun l => if l_active l && mine l then revoke l else l) <$> leases_ s));
  mret ((fun l => if l_active l && mine l then (l_client_id l, l_lease_id l) else (0, 0)) <$> leases_ s).

Fixpoint release_all (skip : Z * Z -> bool) (noted : list (Z * Z)) (first : Error) : Prog State Error :=
  match noted with
  | [] => mret first
  | note :: noted =>
      if skip note then release_all skip noted first
      else
        result ← release_lease note.1 note.2;
        release_all skip noted (first_error first result)
  end.

Definition cleanup_client (c : Z) : Prog State (Result unit) :=
  if negb (valid_client c) then mret (failure INVALID_ARGUMENT)
  else
    noted ← atomically (revoke_mine (fun l => l_client_id l =? c));
    first ← release_all (fun note => note.2 =? 0) noted OK;
    mret (result_of first).
Definition disconnect_client : Z -> Prog State (Result unit) := cleanup_client.

Definition cleanup_all : Prog State (Result unit) :=
  noted ← atomically (revoke_mine (fun _ => true));
  first ← release_all (fun note => note.1 =? 0) noted OK;
  backend_shutdown ← perform ShutdownBackend;
  mret (result_of (first_error first backend_shutdown)).
Definition shutdown : Prog State (Result unit) := cleanup_all.

(** The constructor; the counters begin where the class lets them. *)
Definition TunerService_init (next_lease next_attachment : Z) : TunerService := {|
  states_ := (fun r => if Z.of_nat r <? receiver_count then RS_free else RS_absent) <$> seq 0 kMaxReceivers;
  generation_ := 0;
  leases_ := repeat empty_lease kMaxReceivers;
  reserved_lease_ids_ := repeat 0 kMaxReceivers;
  reserved_attachment_ids_ := repeat 0 kMaxReceivers;
  next_lease_id_ := next_lease;
  next_attachment_id_ := next_attachment;
  last_attachment_id_ := 0;
|}.

(** * All operations *)

Inductive TunerOp :=
  | OpAcquire (c : Z) (r : nat) | OpRelease (c id : Z) | OpTune (c : Z) (q : TuneRequestPayload)
  | OpStart (c id : Z) | OpAttach (id : Z) (nonce : list Z) | OpStop (c id : Z) | OpStats (c id : Z)
  | OpDetach (a : TunerAttachment) | OpRevoke (c id : Z) | OpRevokeWithNonce (c id : Z) (nonce : list Z)
  | OpStatus | OpCleanup (c : Z) | OpShutdown.

Definition void {A} (p : Prog State A) : Prog State unit := _ ← p; mret tt.

Definition run_op (o : TunerOp) : Prog State unit :=
  match o with
  | OpAcquire c r => void (acquire c r)
  | OpRelease c id => void (release c id)
  | OpTune c q => void (tune c q)
  | OpStart c id => void (start_stream c id)
  | OpAttach id nonce => void (attach_stream id nonce)
  | OpStop c id => void (stop_stream c id)
  | OpStats c id => void (stats c id)
  | OpDetach a => void (detach_stream a)
  | OpRevoke c id => void (revoke_stream c id)
  | OpRevokeWithNonce c id nonce => void (revoke_stream_with_nonce c id nonce)
  | OpStatus => void status
  | OpCleanup c => void (cleanup_client c)
  | OpShutdown => void shutdown
  end.

End Service.
