(* ===== verification/TunerProtocol.v ===== *)
(** The protocol of the tuner service with its surroundings, receiver by receiver,
    and the discipline its threads keep: what holds between steps, what holds of a
    receiver while nobody works on it, and what others may do to it meanwhile. *)

From S2P Require Import Prelude Threads IpcTypes TunerService.

Open Scope Z_scope.

(** * The protocol *)

(** What calls and answers tell of a receiver: whether it is open, may deliver
    data, is attached to the data plane, was lost while it streamed, or has a
    power transaction. *)
Record Phys := {
  opened : bool;
  capturing : bool;
  attached : option Z;
  lost : bool;
  tuning : bool;
}.
Definition closed_phys : Phys := {| opened := false; capturing := false; attached := None; lost := false; tuning := false |}.

Section Protocol.
Context `{TunerEnvironment}.

Definition receiver_of (q : Request) : option nat :=
  match q with
  | OpenReceiver r | CloseReceiver r | StartCapture r _ | StopCapture r _ | BeginTunePower r _ _
  | CommitTunePower r | RollbackTunePower r | TuneTerrestrial r _ _ | TuneSatellite r _ _
  | SelectSatelliteSlot r _ _ | SelectSatelliteTsid r _ _ | IsLocked r _ => Some r
  | AttachStream a | DetachStream a | FinalSnapshot a | StreamStats a => Some (a_receiver a)
  | _ => None
  end.

(** A call to the stream after which it may be attached, or is no more. *)
Definition advance (p : Phys) (q : Request) : answer_type q -> Phys :=
  match q with
  | OpenReceiver _ => fun a => {| opened := opened p || is_success a; capturing := capturing p; attached := attached p;
                                  lost := lost p; tuning := tuning p |}
  | CloseReceiver _ => fun _ => {| opened := false; capturing := capturing p; attached := attached p;
                                   lost := lost p; tuning := tuning p |}
  | StartCapture _ _ => fun a => {| opened := opened p; capturing := capturing p || negb (disconnected a); attached := attached p;
                                    lost := lost p || disconnected a; tuning := tuning p |}
  | StopCapture _ _ => fun a => {| opened := opened p; capturing := capturing p && negb (is_success a); attached := attached p;
                                   lost := lost p || disconnected a; tuning := tuning p |}
  | BeginTunePower _ _ _ => fun a => {| opened := opened p; capturing := capturing p; attached := attached p;
                                        lost := lost p; tuning := tuning p || is_success a |}
  | CommitTunePower _ => fun a => {| opened := opened p; capturing := capturing p; attached := attached p;
                                     lost := lost p; tuning := tuning p && negb (is_success a) |}
  | RollbackTunePower _ => fun _ => {| opened := opened p; capturing := capturing p; attached := attached p;
                                       lost := lost p; tuning := false |}
  | AttachStream at_ => fun a => {| opened := opened p; capturing := capturing p; attached := Some (a_attachment_id at_);
                                    lost := lost p || disconnected a; tuning := tuning p |}
  | DetachStream _ => fun a => {| opened := opened p; capturing := capturing p;
                                  attached := if clean a then None else attached p;
                                  lost := lost p || disconnected a; tuning := tuning p |}
  | _ => fun _ => p
  end.

(** The state of receiver [m], and the identities of attachments, after a history. *)
Fixpoint phys (m : nat) (h : History) : Phys :=
  match h with
  | [] => closed_phys
  | Called q a :: h => if bool_decide (receiver_of q = Some m) then advance (phys m h) q a else phys m h
  end.
Definition attachment_used (q : Request) : option Z := match q with AttachStream a => Some (a_attachment_id a) | _ => None end.
Definition used (h : History) : list Z := omap (fun e => attachment_used (request e)) h.
(** The identities the source of leases has given. *)
Definition issues (e : Event) : option Z :=
  match e with
  | Called q a => match q return answer_type q -> option Z with
                  | NextLeaseId => fun a => match a with success id => Some id | failure _ => None end
                  | _ => fun _ => None
                  end a
  end.
Definition issued (h : History) : list Z := omap issues h.

(** Calls that make sense for a receiver: it is opened before anything else; a
    capture begins once and not while the power changes; tuning happens within a
    power transaction; an attachment has a new identity and is what is detached;
    and a receiver that was lost is not touched any more. *)
Definition permitted (p : Phys) (ids : list Z) (q : Request) : bool :=
  match q with
  | OpenReceiver _ => negb (opened p) && negb (capturing p) && negb (lost p) && negb (tuning p) && bool_decide (attached p = None)
  | CloseReceiver _ => opened p && negb (lost p) && negb (tuning p)
  | StartCapture _ _ => opened p && negb (capturing p) && negb (lost p) && negb (tuning p) && bool_decide (attached p = None)
  | StopCapture _ _ => opened p && negb (lost p) && negb (tuning p)
  | BeginTunePower _ _ _ => opened p && negb (capturing p) && negb (lost p) && negb (tuning p)
  | CommitTunePower _ | RollbackTunePower _ | TuneTerrestrial _ _ _ | TuneSatellite _ _ _
  | SelectSatelliteSlot _ _ _ | SelectSatelliteTsid _ _ _ | IsLocked _ _ => opened p && tuning p
  | AttachStream a => capturing p && negb (lost p) && bool_decide (attached p = None)
                      && negb (a_attachment_id a =? 0) && bool_decide (a_attachment_id a ∉ ids)
  | DetachStream a | StreamStats a => bool_decide (attached p = Some (a_attachment_id a))
  | _ => true
  end.

Fixpoint lawful (h : History) : Prop :=
  match h with
  | [] => True
  | Called q a :: h => (forall m, receiver_of q = Some m -> permitted (phys m h) (used h) q = true) /\ lawful h
  end.

(** * The discipline *)

Context `{!Surroundings}.

Record wf (st : State) : Prop := {
  wf_leases : length (leases_ st.1) = kMaxReceivers;
  wf_states : length (states_ st.1) = kMaxReceivers;
  wf_reserved_leases : length (reserved_lease_ids_ st.1) = kMaxReceivers;
  wf_reserved_attachments : length (reserved_attachment_ids_ st.1) = kMaxReceivers;
  wf_named : forall i l, leases_ st.1 !! i = Some l -> l_active l = true ->
    l_receiver l = i /\ l_client_id l <> 0 /\ l_lease_id l <> 0 /\ l_lease_id l ∈ issued st.2;
  wf_distinct : forall i j l l', leases_ st.1 !! i = Some l -> leases_ st.1 !! j = Some l' ->
    l_active l = true -> l_active l' = true -> l_lease_id l = l_lease_id l' -> i = j;
  wf_reserved : forall i id, reserved_lease_ids_ st.1 !! i = Some id -> id <> 0 -> id ∈ issued st.2 /\
    (forall j l, leases_ st.1 !! j = Some l -> l_active l = true -> l_lease_id l <> id) /\
    (forall j, reserved_lease_ids_ st.1 !! j = Some id -> i = j);
  wf_used : Forall (fun id => id <= last_attachment_id_ st.1) (used st.2);
  wf_attachments : forall i id, reserved_attachment_ids_ st.1 !! i = Some id -> id <> 0 -> id <= last_attachment_id_ st.1 /\
    (forall j, reserved_attachment_ids_ st.1 !! j = Some id -> i = j);
  wf_lawful : lawful st.2;
}.

(** An identity that belongs to receiver [r] for ever. *)
Definition home (r : nat) (id : Z) (st : State) : Prop :=
  id ∈ issued st.2 /\
  (forall i l, leases_ st.1 !! i = Some l -> l_active l = true -> l_lease_id l = id -> i = r) /\
  (forall i, reserved_lease_ids_ st.1 !! i = Some id -> id <> 0 -> i = r).

(** What others do to the stream of a lease: revoke it, and begin one on a
    receiver that is tuned. *)
Definition stream_moves (is_tuned : Prop) (a b : StreamState) : Prop :=
  b = a \/ b = revoked a \/ (is_tuned /\ a = SS_none /\ (b = SS_armed \/ b = SS_revoked)).
Definition lease_moves (is_tuned : Prop) (l l' : Lease) : Prop :=
  l' = with_stream l (l_stream_state l') (l_attach_started_ms l') /\
  stream_moves is_tuned (l_stream_state l) (l_stream_state l').

Record elsewhere (m : nat) (st st' : State) : Prop := {
  elsewhere_lease : option_Forall2 (lease_moves (states_ st.1 !! m = Some RS_tuned)) (leases_ st.1 !! m) (leases_ st'.1 !! m);
  elsewhere_state : states_ st'.1 !! m = states_ st.1 !! m;
  elsewhere_reserved_lease : reserved_lease_ids_ st'.1 !! m = reserved_lease_ids_ st.1 !! m;
  elsewhere_reserved_attachment : reserved_attachment_ids_ st'.1 !! m = reserved_attachment_ids_ st.1 !! m;
  elsewhere_phys : phys m st'.2 = phys m st.2;
  elsewhere_used : forall id, reserved_attachment_ids_ st.1 !! m = Some id -> id <> 0 -> id ∈ used st'.2 -> id ∈ used st.2;
}.

(** ** Views *)

(** What concerns one receiver. *)
Record View := {
  v_lease : Lease;
  v_state : ReceiverState;
  v_phys : Phys;
  v_reserved_lease : Z;
  v_reserved_attachment : Z;
  v_unused : bool;
}.
Record sees (m : nat) (st : State) (v : View) : Prop := {
  sees_lease : leases_ st.1 !! m = Some (v_lease v);
  sees_state : states_ st.1 !! m = Some (v_state v);
  sees_phys : phys m st.2 = v_phys v;
  sees_reserved_lease : reserved_lease_ids_ st.1 !! m = Some (v_reserved_lease v);
  sees_reserved_attachment : reserved_attachment_ids_ st.1 !! m = Some (v_reserved_attachment v);
  sees_unused : v_unused v = true -> v_reserved_attachment v <> 0 /\ v_reserved_attachment v ∉ used st.2;
}.

(** A receiver at rest, with a lease and without. *)
Record rests_leased (l : Lease) (state : ReceiverState) (p : Phys) : Prop := {
  rests_states : state = RS_leased \/ state = RS_tuned \/ state = RS_streaming \/ state = RS_error;
  rests_opened : opened p = true;
  rests_capturing : capturing p = true -> l_capture_maybe_active l = true;
  rests_attached : attached p = if l_stream_maybe_attached l then Some (l_attachment_id l) else None;
  rests_plane : l_stream_maybe_attached l = true -> stream_control_ = true;
  rests_lost : lost p = true -> l_backend_disconnected l = true;
  rests_disconnected : l_backend_disconnected l = true -> state = RS_error /\ l_stream_state l = SS_consumed;
  rests_stream : l_stream_state l <> SS_attaching;
  rests_idle : l_stream_state l = SS_none \/ l_stream_state l = SS_armed ->
    l_capture_maybe_active l = false /\ l_stream_maybe_attached l = false;
  rests_consumed : l_stream_state l = SS_consumed -> state = RS_error \/
    (l_capture_maybe_active l = false /\ l_stream_maybe_attached l = false);
}.
Record rests_free (l : Lease) (state : ReceiverState) (p : Phys) : Prop := {
  rests_empty : l = with_stream empty_lease SS_none (l_attach_started_ms l);
  rests_free_states : state = RS_free \/ state = RS_error \/ state = RS_absent;
  rests_closed : state = RS_error \/ p = closed_phys;
}.
Record rests (v : View) : Prop := {
  rests_settled : tuning (v_phys v) = false;
  rests_unreserved : v_reserved_lease v = 0 /\ v_reserved_attachment v = 0;
  rests_either : if l_active (v_lease v) then rests_leased (v_lease v) (v_state v) (v_phys v)
                 else rests_free (v_lease v) (v_state v) (v_phys v);
}.

Definition resting (m : nat) (st : State) : Prop := forall v, sees m st v -> rests v.

(** ** Interference *)

Lemma stream_moves_trans (T : Prop) a b c : stream_moves T a b -> stream_moves T b c -> stream_moves T a c.
Proof.
  unfold stream_moves. intros [-> |[-> |(t & -> & [-> | ->])]]; [done|..].
  - intros [-> |[-> |(t & R & C)]]; [auto|right; left; by destruct a|]. destruct a; try done. by right; right.
  - intros [-> |[-> |(? & ? & ?)]]; cbn; auto 10; done.
  - intros [-> |[-> |(? & ? & ?)]]; cbn; auto 10; done.
Qed.

Lemma lease_moves_refl T l : lease_moves T l l.
Proof. split; [by destruct l|by left]. Qed.
Lemma lease_moves_trans T l1 l2 l3 : lease_moves T l1 l2 -> lease_moves T l2 l3 -> lease_moves T l1 l3.
Proof.
  intros [E1 M1] [E2 M2]. split; [rewrite E2; rewrite E1; done|]. by eapply stream_moves_trans.
Qed.

Lemma elsewhere_refl m st : elsewhere m st st.
Proof.
  split; try done. destruct (leases_ st.1 !! m); constructor. apply lease_moves_refl.
Qed.
Lemma elsewhere_trans m st1 st2 st3 : elsewhere m st1 st2 -> elsewhere m st2 st3 -> elsewhere m st1 st3.
Proof.
  intros [A1 B1 C1 D1 E1 F1] [A2 B2 C2 D2 E2 F2]. split; try congruence.
  - rewrite B1 in A2. inversion A1 as [l1 l2 M1 X1 X2|X1 X2]; rewrite <- X2 in A2; inversion A2 as [l2' l3 M2 Y1 Y2|]; constructor.
    by eapply lease_moves_trans.
  - intros id R N I. apply F1; [done..|]. apply F2; [by rewrite D1|done|done].
Qed.

(** The view after others have moved. *)
Definition drifted (v : View) (st : StreamState) (started : Z) : View := {|
  v_lease := with_stream (v_lease v) st started; v_state := v_state v; v_phys := v_phys v;
  v_reserved_lease := v_reserved_lease v; v_reserved_attachment := v_reserved_attachment v; v_unused := v_unused v |}.

Lemma sees_later m st st' v :
  sees m st v -> elsewhere m st st' -> exists ss t, sees m st' (drifted v ss t) /\
    stream_moves (v_state v = RS_tuned) (l_stream_state (v_lease v)) ss.
Proof.
  intros [A B C D E F] [L S RL RA P U]. rewrite A in L. inversion L as [l l' [El M] X1 X2|].
  exists (l_stream_state l'), (l_attach_started_ms l'). split.
  - split; cbn; try congruence. intros N. destruct (F N) as [N0 N1]. split; [done|]. intros I. by apply N1, (U _ E N0).
  - rewrite B in M. unfold stream_moves in *. destruct M as [?|[?|(T & ? & ?)]]; [by left|by right; left|]. injection T as T. auto 10.
Qed.

Lemma rests_drift v ss t : rests v -> stream_moves (v_state v = RS_tuned) (l_stream_state (v_lease v)) ss -> rests (drifted v ss t).
Proof.
  intros [A B C] M. split; [done|done|]. cbn. destruct (l_active (v_lease v)) eqn:Act.
  - destruct C as [C1 C2 C3 C4 C5 C6 C7 C8 C9 C10]. split; cbn; try done.
    + intros D. destruct (C7 D) as [E Sc]. split; [done|]. rewrite Sc in M. destruct M as [->|[->|(_ & N & _)]]; [done..|done].
    + destruct M as [->|[->|(_ & N & [->| ->])]]; try done. by destruct (l_stream_state (v_lease v)).
    + intros D. apply C9. destruct M as [->|[->|(_ & N & [->| ->])]]; auto. revert D.
      destruct (l_stream_state (v_lease v)); cbn; intros []; auto; done.
    + intros D. apply C10. destruct M as [->|[->|(_ & N & [->| ->])]]; try done. revert D.
      by destruct (l_stream_state (v_lease v)).
  - destruct C as [C1 C2 C3]. split; try done. cbn. rewrite C1 in M |- *. cbn in *.
    destruct M as [->|[->|(T & _)]]; [done|done|]. rewrite T in C2. by destruct C2 as [?|[?|?]].
Qed.

(** Two views of a receiver differ at most in what they know of its identity. *)
Lemma sees_agree m st v v' : sees m st v -> sees m st v' ->
  v' = {| v_lease := v_lease v; v_state := v_state v; v_phys := v_phys v; v_reserved_lease := v_reserved_lease v;
          v_reserved_attachment := v_reserved_attachment v; v_unused := v_unused v' |}.
Proof. intros [A B C D E _] [A' B' C' D' E' _]. destruct v, v'. cbn in *. congruence. Qed.

Lemma resting_by m st v : sees m st v -> rests v -> resting m st.
Proof. intros S R v' S'. rewrite (sees_agree m st v v' S S'). by destruct R as [A B C]. Qed.

Lemma sees_some m st : wf st -> (m < kMaxReceivers)%nat -> exists v, sees m st v.
Proof.
  intros [A B C D _ _ _ _ _ _] L. rewrite <- A in L at 1. apply lookup_lt_is_Some in L as [l El].
  pose proof (lookup_lt_Some _ _ _ El) as L. rewrite A in L.
  destruct (lookup_lt_is_Some_2 (states_ st.1) m) as [x Ex]; [lia|].
  destruct (lookup_lt_is_Some_2 (reserved_lease_ids_ st.1) m) as [y Ey]; [lia|].
  destruct (lookup_lt_is_Some_2 (reserved_attachment_ids_ st.1) m) as [z Ez]; [lia|].
  exists {| v_lease := l; v_state := x; v_phys := phys m st.2; v_reserved_lease := y; v_reserved_attachment := z; v_unused := false |}.
  by split.
Qed.

Lemma resting_elsewhere m st st' : resting m st -> elsewhere m st st' -> resting m st'.
Proof.
  intros R W v' S'. pose proof W as [L S RL RA P U]. pose proof S' as [A B C D E F].
  rewrite A in L. inversion L as [l l' M X1 X2|]. symmetry in X1.
  set (v := {| v_lease := l; v_state := v_state v'; v_phys := v_phys v'; v_reserved_lease := v_reserved_lease v';
    v_reserved_attachment := v_reserved_attachment v'; v_unused := false |}).
  assert (sees m st v) as Sv by (split; cbn; congruence).
  destruct (sees_later m st st' v Sv W) as (ss & t & S1 & Mv).
  apply (resting_by m st' _ S1); [|exact S']. apply rests_drift; [by apply R|done].
Qed.

Definition grows (st st' : State) : Prop := forall r id, home r id st -> home r id st'.

#[export] Instance tuner_discipline : Discipline State.
Proof.
  refine {| inv := wf; idle := resting; grow := grows; other := elsewhere |}.
  - by intros s r id.
  - intros s1 s2 s3 A B r id I. by apply B, A.
  - apply elsewhere_refl.
  - apply elsewhere_trans.
  - apply resting_elsewhere.
Defined.

(** ** Steps *)

(** A step of a thread that holds [h]. *)
Definition moves (h : option nat) (st st' : State) : Prop :=
  wf st' /\ grows st st' /\ forall m, h <> Some m -> elsewhere m st st'.

Lemma moves_refl h st : wf st -> moves h st st.
Proof. intros W. split; [done|]. split; [by intros r id|]. intros. apply elsewhere_refl. Qed.
Lemma moves_trans h st1 st2 st3 : moves h st1 st2 -> moves h st2 st3 -> moves h st1 st3.
Proof.
  intros (_ & G1 & O1) (W & G2 & O2). split; [done|]. split; [intros r id I; by apply G2, G1|].
  intros m N. eapply elsewhere_trans; auto.
Qed.
Lemma moves_free h st st' : moves None st st' -> moves h st st'.
Proof. intros (W & G & O). split; [done|]. split; [done|]. intros m _. by apply O. Qed.

Lemma grows_by (st st' : State) :
  (forall i l', leases_ st'.1 !! i = Some l' -> l_active l' = true ->
     exists l, leases_ st.1 !! i = Some l /\ l_active l = true /\ l_lease_id l = l_lease_id l') ->
  (forall i id, reserved_lease_ids_ st'.1 !! i = Some id -> id <> 0 -> reserved_lease_ids_ st.1 !! i = Some id) ->
  (forall id, id ∈ issued st.2 -> id ∈ issued st'.2) -> grows st st'.
Proof.
  intros A B C r id (I & L & R). split; [by apply C|]. split.
  - intros i l' El Al E. destruct (A i l' El Al) as (l & El0 & Al0 & E0). apply (L i l); [done|done|congruence].
  - intros i E N. apply R; [by apply B|done].
Qed.

Lemma issued_more e (h : History) id : id ∈ issued h -> id ∈ issued (e :: h).
Proof. intros I. unfold issued. cbn [omap list_omap]. destruct (issues e); [by right|done]. Qed.
Lemma used_call q a (h : History) :
  used (Called q a :: h) = match attachment_used q with Some id => id :: used h | None => used h end.
Proof. done. Qed.

(** A call for the receiver whose mutex is held, or for none. *)
Lemma call_moves h (st : State) q a :
  wf st -> (forall m, receiver_of q = Some m -> h = Some m /\ permitted (phys m st.2) (used st.2) q = true) ->
  (forall id, attachment_used q = Some id -> id <> 0 /\ exists m, h = Some m /\ reserved_attachment_ids_ st.1 !! m = Some id) ->
  moves h st (st.1, Called q a :: st.2).
Proof.
  intros W P U. pose proof W as [A B C D E F G I J K].
  assert (forall id, id ∈ issued st.2 -> id ∈ issued (Called q a :: st.2)) as Sub.
  { intros id. apply issued_more. }
  split; [|split].
  - split; cbn [fst snd]; try done.
    + intros i l El Al. destruct (E i l El Al) as (? & ? & ? & ?). auto.
    + intros i id El N. destruct (G i id El N) as (? & ? & ?). auto.
    + rewrite used_call. destruct (attachment_used q) as [id|] eqn:Eu; [|done]. constructor; [|done].
      destruct (U id eq_refl) as (N & m & _ & R). by destruct (J m id R N).
    + cbn. split; [|done]. intros m Em. by apply P.
  - apply grows_by; cbn; eauto.
  - intros m N. split; cbn [fst snd]; try done.
    + destruct (leases_ st.1 !! m); constructor. apply lease_moves_refl.
    + cbn. case_bool_decide as Em; [|done]. by destruct (P m Em).
    + intros id R N0. rewrite used_call. destruct (attachment_used q) as [id'|] eqn:Eu; [|done].
      intros [->|Iu]%elem_of_cons; [|done]. destruct (U id' eq_refl) as (N' & m' & Hm & R').
      destruct (J m' id' R' N') as [_ X]. rewrite (X m R) in Hm. done.
Qed.


Lemma leases_same (T : Prop) (o : option Lease) : option_Forall2 (lease_moves T) o o.
Proof. destruct o; constructor. apply lease_moves_refl. Qed.

Lemma leases_move h (st : State) ls :
  wf st -> length ls = length (leases_ st.1) ->
  (forall i l', ls !! i = Some l' -> l_active l' = true -> exists l, leases_ st.1 !! i = Some l /\ l_active l = true /\
     l_receiver l' = l_receiver l /\ l_client_id l' = l_client_id l /\ l_lease_id l' = l_lease_id l) ->
  (forall m, h <> Some m -> option_Forall2 (lease_moves (states_ st.1 !! m = Some RS_tuned)) (leases_ st.1 !! m) (ls !! m)) ->
  moves h st (with_leases st.1 ls, st.2).
Proof.
  intros W Len Kept O. pose proof W as [A B C D E F G I J K]. split; [|split].
  - split; cbn [fst snd]; try done.
    + cbn. congruence.
    + intros i l' El Al. destruct (Kept i l' El Al) as (l & El0 & Al0 & -> & -> & ->). by apply E.
    + intros i j l1 l2 E1 E2 A1 A2 Eid. destruct (Kept i l1 E1 A1) as (l1' & ? & ? & _ & _ & X1), (Kept j l2 E2 A2) as (l2' & ? & ? & _ & _ & X2).
      apply (F i j l1' l2'); try done. congruence.
    + intros i id Ei N. destruct (G i id Ei N) as (? & X & ?). split; [done|]. split; [|done].
      intros j l' El Al. destruct (Kept j l' El Al) as (l & ? & ? & _ & _ & ->). by apply (X j l).
  - apply grows_by; cbn; eauto. intros i l' El Al. destruct (Kept i l' El Al) as (l & ? & ? & _ & _ & ?). by exists l.
  - intros m N. split; cbn [fst snd]; try done. by apply O.
Qed.

(** A lease changes while its receiver is held. *)
Lemma lease_move m (st : State) l l' :
  wf st -> leases_ st.1 !! m = Some l ->
  (l_active l' = true -> l_active l = true /\ l_receiver l' = l_receiver l /\ l_client_id l' = l_client_id l /\ l_lease_id l' = l_lease_id l) ->
  moves (Some m) st (with_leases st.1 (<[m := l']> (leases_ st.1)), st.2).
Proof.
  intros W L Kept. pose proof (lookup_lt_Some _ _ _ L) as Lt. apply leases_move; [done|apply length_insert|..].
  - intros i x. destruct (decide (m = i)) as [<-|N].
    + rewrite list_lookup_insert_eq by done. intros [= <-] Al. exists l. by destruct (Kept Al) as (? & ? & ? & ?).
    + rewrite list_lookup_insert_ne by done. intros El Al. by exists x.
  - intros i N. rewrite list_lookup_insert_ne by congruence. apply leases_same.
Qed.

(** Others' changes to a lease. *)
Lemma stream_move h i (st : State) l ss t :
  wf st -> leases_ st.1 !! i = Some l -> stream_moves (states_ st.1 !! i = Some RS_tuned) (l_stream_state l) ss ->
  moves h st (with_leases st.1 (<[i := with_stream l ss t]> (leases_ st.1)), st.2).
Proof.
  intros W L M. pose proof (lookup_lt_Some _ _ _ L) as Lt. apply leases_move; [done|apply length_insert|..].
  - intros j x. destruct (decide (i = j)) as [<-|N].
    + rewrite list_lookup_insert_eq by done. intros [= <-] Al. by exists l.
    + rewrite list_lookup_insert_ne by done. intros El Al. by exists x.
  - intros j _. destruct (decide (i = j)) as [<-|N].
    + rewrite list_lookup_insert_eq by done. rewrite L. constructor. by split.
    + rewrite list_lookup_insert_ne by done. apply leases_same.
Qed.

Lemma state_move m (st : State) x g :
  wf st -> moves (Some m) st (with_states st.1 (<[m := x]> (states_ st.1)) g, st.2).
Proof.
  intros W. pose proof W as [A B C D E F G I J K]. split; [|split].
  - split; cbn [fst snd]; try done. cbn. by rewrite length_insert.
  - apply grows_by; cbn; eauto.
  - intros m' N. assert (m <> m') by congruence. split; cbn [fst snd with_states]; try done.
    + apply leases_same.
    + cbn. by rewrite list_lookup_insert_ne.
Qed.

Lemma insert_zero (l : list Z) m i id : (<[m := 0]> l) !! i = Some id -> id <> 0 -> l !! i = Some id.
Proof.
  intros E N. destruct (decide (m = i)) as [<-|Ne]; [|by rewrite list_lookup_insert_ne in E].
  destruct (decide (m < length l)%nat) as [Lt|Ge]; [rewrite list_lookup_insert_eq in E by done; by injection E as <-|].
  by rewrite list_insert_ge in E by lia.
Qed.

Lemma unreserve_lease_move m (st : State) :
  wf st -> moves (Some m) st (with_reserved_lease_ids st.1 (<[m := 0]> (reserved_lease_ids_ st.1)), st.2).
Proof.
  intros W. pose proof W as [A B C D E F G I J K]. split; [|split].
  - split; cbn [fst snd]; try done; [cbn; by rewrite length_insert|].
    intros i id Ei0 N. pose proof (insert_zero _ _ _ _ Ei0 N) as Ei. destruct (G i id Ei N) as (? & ? & X). split; [done|]. split; [done|].
    intros j Ej. pose proof (insert_zero _ _ _ _ Ej N) as Ej'. by apply X.
  - apply grows_by; cbn; eauto. intros i id Ei N. by eapply insert_zero.
  - intros m' N. assert (m <> m') by congruence. split; cbn [fst snd]; try done.
    + apply leases_same.
    + cbn. by rewrite list_lookup_insert_ne.
Qed.

Lemma unreserve_attachment_move m (st : State) :
  wf st -> moves (Some m) st (with_reserved_attachment_ids st.1 (<[m := 0]> (reserved_attachment_ids_ st.1)), st.2).
Proof.
  intros W. pose proof W as [A B C D E F G I J K]. split; [|split].
  - split; cbn [fst snd]; try done; [cbn; by rewrite length_insert|].
    intros i id Ei0 N. pose proof (insert_zero _ _ _ _ Ei0 N) as Ei. destruct (J i id Ei N) as (? & X). split; [done|].
    intros j Ej. pose proof (insert_zero _ _ _ _ Ej N) as Ej'. by apply X.
  - apply grows_by; cbn; eauto.
  - intros m' N. assert (m <> m') by congruence. split; cbn [fst snd]; try done.
    + apply leases_same.
    + cbn. by rewrite list_lookup_insert_ne.
Qed.

(** A new identity for an attachment. *)
Lemma reserve_attachment_move m (st : State) id :
  wf st -> (m < kMaxReceivers)%nat -> last_attachment_id_ st.1 < id ->
  moves (Some m) st (with_last_attachment_id (with_reserved_attachment_ids st.1 (<[m := id]> (reserved_attachment_ids_ st.1))) id, st.2).
Proof.
  intros W Lt New. pose proof W as [A B C D E F G I J K]. split; [|split].
  - split; cbn [fst snd]; try done.
    + cbn. by rewrite length_insert.
    + eapply Forall_impl; [exact I|]. cbn. intros; lia.
    + cbn. intros i x. destruct (decide (m = i)) as [<-|N].
      * rewrite list_lookup_insert_eq by lia. intros [= <-] N0. split; [lia|]. intros j. destruct (decide (m = j)) as [|N]; [done|].
        rewrite list_lookup_insert_ne by done. intros Ej. destruct (J j id Ej N0). lia.
      * rewrite list_lookup_insert_ne by done. intros Ei N0. destruct (J i x Ei N0) as [Le X]. split; [lia|].
        intros j. destruct (decide (m = j)) as [<-|Nj]; [rewrite list_lookup_insert_eq by lia; intros [= ->]; lia|].
        rewrite list_lookup_insert_ne by done. apply X.
  - apply grows_by; cbn; eauto.
  - intros m' N. assert (m <> m') by congruence. split; cbn [fst snd]; try done.
    + apply leases_same.
    + cbn. by rewrite list_lookup_insert_ne.
Qed.

(** Counters that nothing relies on. *)
Lemma counter_move h (st : State) n : wf st -> moves h st (with_next_attachment_id st.1 n, st.2).
Proof.
  intros W. destruct W as [A B C D E F G I J K]. split; [by split|]. split; [by apply grows_by; cbn; eauto|].
  intros m N. split; cbn [fst snd]; try done. apply leases_same.
Qed.

(** A fresh identity for a lease is reserved. *)
Lemma reserve_lease_move m (st : State) id :
  wf st -> (m < kMaxReceivers)%nat -> id <> 0 -> id ∉ issued st.2 -> respond st.2 NextLeaseId = success id ->
  moves (Some m) st (with_reserved_lease_ids st.1 (<[m := id]> (reserved_lease_ids_ st.1)), Called NextLeaseId (success id) :: st.2).
Proof.
  intros W Lt N0 Fresh _. pose proof W as [A B C D E F G I J K].
  assert (id ∈ issued (Called NextLeaseId (success id) :: st.2)) as New by (unfold issued; cbn; by left).
  split; [|split].
  - split; cbn [fst snd]; try done.
    + cbn. by rewrite length_insert.
    + intros i l El Al. destruct (E i l El Al) as (? & ? & ? & ?). repeat (split; [done|]). by apply issued_more.
    + cbn. intros i x. destruct (decide (m = i)) as [<-|N].
      * rewrite list_lookup_insert_eq by lia. intros [= <-] _. split; [done|]. split.
        -- intros j l El Al Eid. destruct (E j l El Al) as (_ & _ & _ & Is). by rewrite Eid in Is.
        -- intros j. destruct (decide (m = j)) as [|N]; [done|]. rewrite list_lookup_insert_ne by done. intros Ej.
           by destruct (G j id Ej N0).
      * rewrite list_lookup_insert_ne by done. intros Ei Nx. destruct (G i x Ei Nx) as (Is & X & Y). split; [by right|].
        split; [done|]. intros j. destruct (decide (m = j)) as [<-|Nj]; [rewrite list_lookup_insert_eq by lia; intros [= ->]; done|].
        rewrite list_lookup_insert_ne by done. apply Y.
  - intros r x (Is & L & R). assert (x <> id) by (by intros ->). split; [by apply issued_more|]. split; [done|]. cbn.
    intros i. destruct (decide (m = i)) as [<-|Nj]; [rewrite list_lookup_insert_eq by lia; intros [= ->]; done|].
    rewrite list_lookup_insert_ne by done. apply R.
  - intros m' N. assert (m <> m') by congruence. split; cbn [fst snd]; try done.
    + apply leases_same.
    + cbn. by rewrite list_lookup_insert_ne.
Qed.

(** The reserved identity becomes that of a lease. *)
Lemma grant_move m (st : State) l l' id :
  wf st -> leases_ st.1 !! m = Some l -> reserved_lease_ids_ st.1 !! m = Some id -> id <> 0 ->
  l_receiver l' = m -> l_client_id l' <> 0 -> l_lease_id l' = id ->
  moves (Some m) st (with_leases (with_reserved_lease_ids st.1 (<[m := 0]> (reserved_lease_ids_ st.1))) (<[m := l']> (leases_ st.1)), st.2).
Proof.
  intros W L R N0 Er Nc Eid. pose proof W as [A B C D E F G I J K]. pose proof (lookup_lt_Some _ _ _ L) as Lt.
  destruct (G m id R N0) as (Is & X & Y).
  assert (forall i x, (<[m := l']> (leases_ st.1)) !! i = Some x -> l_active x = true ->
    (i = m /\ x = l') \/ (i <> m /\ leases_ st.1 !! i = Some x)) as Cases.
  { intros i x. destruct (decide (m = i)) as [<-|N].
    - rewrite list_lookup_insert_eq by done. intros [= <-] _. by left.
    - rewrite list_lookup_insert_ne by done. intros El _. by right. }
  split; [|split].
  - split; cbn [fst snd]; try done.
    + cbn. by rewrite length_insert.
    + cbn. by rewrite length_insert.
    + cbn. intros i x Ex Ax. destruct (Cases i x Ex Ax) as [[-> ->]|[N El]]; [|by apply E]. rewrite Eid. done.
    + cbn. intros i j x y Ex Ey Ax Ay Exy. destruct (Cases i x Ex Ax) as [[-> ->]|[Ni Ei]], (Cases j y Ey Ay) as [[-> ->]|[Nj Ej]].
      * done.
      * exfalso. apply (X j y); [done|done|congruence].
      * exfalso. apply (X i x); [done|done|congruence].
      * by apply (F i j x y).
    + cbn. intros i x Ex0 Nx. pose proof (insert_zero _ _ _ _ Ex0 Nx) as Ex. destruct (G i x Ex Nx) as (? & X' & Y'). split; [done|]. split.
      * intros j y Ey Ay Exy. destruct (Cases j y Ey Ay) as [[-> ->]|[Nj Ej]]; [|by apply (X' j y)].
        rewrite Eid in Exy. subst x. pose proof (Y i Ex) as <-.
        rewrite list_lookup_insert_eq in Ex0 by (by eapply lookup_lt_Some). congruence.
      * intros j Ej. pose proof (insert_zero _ _ _ _ Ej Nx) as Ej'. by apply Y'.
  - intros r x (Isx & Lx & Rx). split; [done|]. cbn. split.
    + intros i y Ey Ay Exy. destruct (Cases i y Ey Ay) as [[-> ->]|[Nj Ej]]; [|by apply (Lx i y)].
      apply Rx; [congruence|congruence].
    + intros i Ei Nx. pose proof (insert_zero _ _ _ _ Ei Nx). by apply Rx.
  - intros m' N. assert (m <> m') by congruence. split; cbn [fst snd]; try done.
    + cbn. rewrite list_lookup_insert_ne by done. apply leases_same.
    + cbn. by rewrite list_lookup_insert_ne.
Qed.

End Protocol.
