(* ===== verification/TunerRules.v ===== *)
(** Rules for programs that hold the mutex of a receiver: each step is described by
    what it makes of the view of that receiver, and what others do meanwhile only
    shows in critical sections. *)

From S2P Require Import Prelude Threads IpcTypes TunerService TunerProtocol.

Open Scope Z_scope.

(** * Views and steps *)

Definition see_lease (v : View) (l : Lease) : View := {|
  v_lease := l; v_state := v_state v; v_phys := v_phys v; v_reserved_lease := v_reserved_lease v;
  v_reserved_attachment := v_reserved_attachment v; v_unused := v_unused v |}.
Definition see_state (v : View) (s : ReceiverState) : View := {|
  v_lease := v_lease v; v_state := s; v_phys := v_phys v; v_reserved_lease := v_reserved_lease v;
  v_reserved_attachment := v_reserved_attachment v; v_unused := v_unused v |}.
Definition see_reserved_lease (v : View) (id : Z) : View := {|
  v_lease := v_lease v; v_state := v_state v; v_phys := v_phys v; v_reserved_lease := id;
  v_reserved_attachment := v_reserved_attachment v; v_unused := v_unused v |}.
Definition see_reserved_attachment (v : View) (id : Z) (unused : bool) : View := {|
  v_lease := v_lease v; v_state := v_state v; v_phys := v_phys v; v_reserved_lease := v_reserved_lease v;
  v_reserved_attachment := id; v_unused := unused |}.

Section Rules.
Context `{TunerEnvironment}.

Definition see_call (v : View) (q : Request) (a : answer_type q) : View := {|
  v_lease := v_lease v; v_state := v_state v; v_phys := advance (v_phys v) q a; v_reserved_lease := v_reserved_lease v;
  v_reserved_attachment := v_reserved_attachment v;
  v_unused := match attachment_used q with Some _ => false | None => v_unused v end |}.

(** An attachment is made with the identity that is reserved for it. *)
Definition may_call (v : View) (q : Request) : bool :=
  match q with
  | AttachStream a => capturing (v_phys v) && negb (lost (v_phys v)) && bool_decide (attached (v_phys v) = None)
                      && v_unused v && (a_attachment_id a =? v_reserved_attachment v)
  | _ => permitted (v_phys v) [] q
  end.

Definition near (v w : View) : Prop := exists ss t,
  stream_moves (v_state v = RS_tuned) (l_stream_state (v_lease v)) ss /\ w = drifted v ss t.

Lemma drifted_same v : drifted v (l_stream_state (v_lease v)) (l_attach_started_ms (v_lease v)) = v.
Proof. unfold drifted, with_stream. destruct v as [[] ? ? ? ?]. done. Qed.
Lemma near_refl v : near v v.
Proof. eexists _, _. split; [by left|]. symmetry. apply drifted_same. Qed.
Lemma near_trans u v w : near u v -> near v w -> near u w.
Proof.
  intros (s1 & t1 & M1 & ->) (s2 & t2 & M2 & ->). exists s2, t2. split; [|done]. by eapply stream_moves_trans.
Qed.
Lemma near_call v w q a : near v w -> near (see_call v q a) (see_call w q a).
Proof. intros (s & t & M & ->). by exists s, t. Qed.
Lemma rests_near v w : rests v -> near v w -> rests w.
Proof. intros R (s & t & M & ->). by apply rests_drift. Qed.

Context `{!Surroundings}.

Lemma sees_near m st st' v : sees m st v -> elsewhere m st st' -> exists w, near v w /\ sees m st' w.
Proof. intros S E. destruct (sees_later m st st' v S E) as (ss & t & S' & M). eexists. split; [by eexists _, _|done]. Qed.

Lemma sees_bound m st v : wf st -> sees m st v -> (m < kMaxReceivers)%nat.
Proof. intros W S. rewrite <- (wf_leases _ W). eapply lookup_lt_Some, S. Qed.

(** ** Critical sections *)

Definition crit_ok {A} (m : nat) (v : View) (f : Crit State A) (Q : A -> View -> Prop) : Prop :=
  forall st, wf st -> sees m st v -> exists a st' v', f st = Some (a, st') /\ moves (Some m) st st' /\ sees m st' v' /\ Q a v'.
(** A section with a known outcome. *)
Definition crit_does {A} (m : nat) (v : View) (f : Crit State A) (a : A) (v' : View) : Prop :=
  crit_ok m v f (fun b w => b = a /\ w = v').

Lemma crit_mono {A} m v (f : Crit State A) (Q Q' : A -> View -> Prop) :
  (forall a v, Q a v -> Q' a v) -> crit_ok m v f Q -> crit_ok m v f Q'.
Proof. intros M C st W S. destruct (C st W S) as (a & st' & v' & E & Mv & S' & q). exists a, st', v'. auto. Qed.
Lemma crit_ret {A} m v (a : A) (Q : A -> View -> Prop) : Q a v -> crit_ok m v (mret a) Q.
Proof. intros q st W S. exists a, st, v. split; [done|]. split; [by apply moves_refl|done]. Qed.
Lemma crit_bind {A B} m v (f : Crit State A) (k : A -> Crit State B) (R : A -> View -> Prop) (Q : B -> View -> Prop) :
  crit_ok m v f R -> (forall a w, R a w -> crit_ok m w (k a) Q) -> crit_ok m v (f ≫= k) Q.
Proof.
  intros F K st W S. destruct (F st W S) as (a & st1 & v1 & E & Mv & S1 & r).
  destruct (K a v1 r st1 (proj1 Mv) S1) as (b & st2 & v2 & E2 & Mv2 & S2 & q). exists b, st2, v2.
  split; [|split; [by eapply moves_trans|done]]. unfold mbind, Crit_bind. by rewrite E.
Qed.
Lemma crit_then {A B} m v v' (f : Crit State A) (k : A -> Crit State B) a (Q : B -> View -> Prop) :
  crit_does m v f a v' -> crit_ok m v' (k a) Q -> crit_ok m v (f ≫= k) Q.
Proof. intros F K. eapply crit_bind; [exact F|]. by intros b w [-> ->]. Qed.

Lemma crit_service {A} m v (k : TunerService -> Crit State A) (Q : A -> View -> Prop) :
  (forall st, wf st -> sees m st v -> exists a st' v', k st.1 st = Some (a, st') /\ moves (Some m) st st' /\ sees m st' v' /\ Q a v') ->
  crit_ok m v (s ← service; k s) Q.
Proof. intros K st W S. by apply K. Qed.

Lemma load_some {T} (l : list T) i x (st : State) : l !! i = Some x -> load l i st = Some (x, st).
Proof. unfold load. by intros ->. Qed.
Lemma store_some {T} (l : list T) i x (st : State) : (i < length l)%nat -> store l i x st = Some (<[i := x]> l, st).
Proof. intros L. unfold store. by rewrite (proj2 (Nat.ltb_lt _ _) L). Qed.

Lemma crit_lease m v : crit_does m v (lease_at m) (v_lease v) v.
Proof.
  apply crit_service. intros st W S. eexists _, _, v. split; [by apply load_some, S|]. split; [by apply moves_refl|done].
Qed.
Lemma crit_state m v : crit_does m v (state_at m) (v_state v) v.
Proof.
  apply crit_service. intros st W S. eexists _, _, v. split; [by apply load_some, S|]. split; [by apply moves_refl|done].
Qed.

Definition kept (l l' : Lease) : Prop := l_active l' = true ->
  l_active l = true /\ l_receiver l' = l_receiver l /\ l_client_id l' = l_client_id l /\ l_lease_id l' = l_lease_id l.

Lemma crit_set_lease m v l' : kept (v_lease v) l' -> crit_does m v (set_lease m l') tt (see_lease v l').
Proof.
  intros K. apply crit_service. intros st W S. pose proof (sees_bound _ _ _ W S) as Lt.
  assert (m < length (leases_ st.1))%nat as Lt' by (rewrite (wf_leases _ W); done).
  eexists _, _, (see_lease v l'). unfold mbind, Crit_bind. rewrite store_some by done. cbn.
  split; [done|]. split; [by eapply lease_move; [|apply S|]|].
  split; [|done]. destruct S as [A B C D E F]. split; try done. cbn. by apply list_lookup_insert_eq.
Qed.
Lemma crit_update_lease m v f : kept (v_lease v) (f (v_lease v)) -> crit_does m v (update_lease m f) tt (see_lease v (f (v_lease v))).
Proof. intros K. eapply crit_then; [apply crit_lease|]. by apply crit_set_lease. Qed.

Lemma crit_set_state m v x : crit_does m v (set_state_locked m x) tt (see_state v x).
Proof.
  apply crit_service. intros st W S. pose proof (sees_bound _ _ _ W S) as Lt.
  assert (m < length (states_ st.1))%nat as Lt' by (rewrite (wf_states _ W); done).
  unfold mbind at 1, Crit_bind at 1. rewrite (load_some _ _ _ _ (sees_state _ _ _ S)). cbn.
  case_bool_decide as E.
  - exists tt, st, v. split; [done|]. split; [by apply moves_refl|]. split; [done|]. split; [done|].
    unfold see_state. subst x. by destruct v.
  - eexists _, _, (see_state v x). unfold mbind, Crit_bind. rewrite store_some by done. cbn. split; [done|].
    split; [by apply state_move|]. split; [|done]. destruct S as [A B C D G F]. split; try done. cbn. by apply list_lookup_insert_eq.
Qed.

Lemma crit_unreserve_lease m v : crit_does m v (reserve_lease_id m 0) tt (see_reserved_lease v 0).
Proof.
  apply crit_service. intros st W S. pose proof (sees_bound _ _ _ W S) as Lt.
  assert (m < length (reserved_lease_ids_ st.1))%nat as Lt' by (rewrite (wf_reserved_leases _ W); done).
  eexists _, _, (see_reserved_lease v 0). unfold mbind, Crit_bind. rewrite store_some by done. cbn. split; [done|].
  split; [by apply unreserve_lease_move|]. split; [|done]. destruct S as [A B C D E F]. split; try done. cbn. by apply list_lookup_insert_eq.
Qed.
Lemma crit_unreserve_attachment m v : crit_does m v (reserve_attachment_id m 0) tt (see_reserved_attachment v 0 false).
Proof.
  apply crit_service. intros st W S. pose proof (sees_bound _ _ _ W S) as Lt.
  assert (m < length (reserved_attachment_ids_ st.1))%nat as Lt' by (rewrite (wf_reserved_attachments _ W); done).
  eexists _, _, (see_reserved_attachment v 0 false). unfold mbind, Crit_bind. rewrite store_some by done. cbn. split; [done|].
  split; [by apply unreserve_attachment_move|]. split; [|done]. destruct S as [A B C D E F]. split; try done. cbn. by apply list_lookup_insert_eq.
Qed.

Lemma permitted_ids p ids q : (forall a, q <> AttachStream a) -> permitted p ids q = permitted p [] q.
Proof. intros N. destruct q; try done. by destruct (N a). Qed.

(** A call as a step. *)
Lemma ask_step m v q st :
  wf st -> sees m st v -> receiver_of q = Some m -> may_call v q = true ->
  ask q st = Some (respond st.2 q, (st.1, Called q (respond st.2 q) :: st.2)) /\
  moves (Some m) st (st.1, Called q (respond st.2 q) :: st.2) /\
  sees m (st.1, Called q (respond st.2 q) :: st.2) (see_call v q (respond st.2 q)).
Proof.
  intros W S R P. split; [done|]. split.
  - apply call_moves; [done|..].
    + intros m' E. rewrite R in E. injection E as <-. split; [done|]. rewrite (sees_phys _ _ _ S).
      destruct q; try exact P. cbn in P. cbn [permitted]. repeat (apply andb_true_iff in P as [P ?]).
      destruct (sees_unused _ _ _ S ltac:(done)) as [N U]. match goal with X : (_ =? _) = true |- _ => apply Z.eqb_eq in X; rewrite X end.
      rewrite P. repeat match goal with X : _ = true |- _ => rewrite X end. cbn. apply Z.eqb_neq in N. rewrite N. cbn. by apply bool_decide_eq_true_2.
    + intros id E. destruct q; try done. injection E as <-. cbn in P. repeat (apply andb_true_iff in P as [P ?]).
      destruct (sees_unused _ _ _ S ltac:(done)) as [N U]. match goal with X : (_ =? _) = true |- _ => apply Z.eqb_eq in X; rewrite X end.
      split; [done|]. exists m. split; [done|]. apply S.
  - destruct S as [A B C D E F]. split; try done.
    + cbn. rewrite R, bool_decide_eq_true_2 by done. by rewrite C.
    + cbn [see_call v_unused snd]. rewrite used_call. by destruct (attachment_used q).
Qed.
Lemma free_step m v q st :
  wf st -> sees m st v -> receiver_of q = None ->
  moves (Some m) st (st.1, Called q (respond st.2 q) :: st.2) /\ sees m (st.1, Called q (respond st.2 q) :: st.2) v.
Proof.
  intros W S R. assert (attachment_used q = None) as U by (by destruct q). split.
  - apply call_moves; [done|..].
    + intros m' E. congruence.
    + intros id E. congruence.
  - destruct S as [A B C D E F]. split; try done.
    + cbn. by rewrite R.
    + cbn [snd]. by rewrite used_call, U.
Qed.

Lemma crit_free m v q : receiver_of q = None -> crit_ok m v (ask q) (fun _ w => w = v).
Proof. intros R st W S. destruct (free_step m v q st W S R) as [M S']. by eexists _, _, v. Qed.
Lemma crit_time m v : crit_ok m v monotonic_ms (fun _ w => w = v).
Proof. apply (crit_bind m v (ask MonotonicMs) _ (fun _ w => w = v)); [by apply (crit_free m v MonotonicMs)|]. intros a w ->. by apply crit_ret. Qed.

(** The search for the lease that is held. *)
Lemma find_held m (st : State) l c id :
  wf st -> leases_ st.1 !! m = Some l -> l_active l = true -> l_client_id l = c -> l_lease_id l = id ->
  find_lease_locked c id st.1 = Some m.
Proof.
  intros W L A <- <-. destruct (wf_named _ W m l L A) as (_ & Nc & Ni & _). unfold find_lease_locked, valid_client.
  rewrite (proj2 (Z.eqb_neq _ _) Nc), (proj2 (Z.eqb_neq _ _) Ni). cbn.
  destruct (list_find _ _) as [[i x]|] eqn:F.
  - apply list_find_Some in F as (Ex & (Ax & _ & Eid) & _). cbn. f_equal. by apply (wf_distinct _ W i m x l).
  - apply list_find_None in F. pose proof (proj1 (Forall_lookup _ _) F m l L) as X. destruct X. done.
Qed.
Lemma find_sound (st : State) c id i : find_lease_locked c id st.1 = Some i ->
  exists l, leases_ st.1 !! i = Some l /\ l_active l = true /\ l_client_id l = c /\ l_lease_id l = id.
Proof.
  unfold find_lease_locked. destruct (_ || _); [done|]. destruct (list_find _ _) as [[j x]|] eqn:F; [|done].
  intros [= <-]. apply list_find_Some in F as (Ex & (Ax & Ec & Eid) & _). by exists x.
Qed.

Lemma crit_find {A} m v c id (no : Crit State A) (yes : nat -> Crit State A) (Q : A -> View -> Prop) :
  l_active (v_lease v) = true -> l_client_id (v_lease v) = c -> l_lease_id (v_lease v) = id ->
  crit_ok m v (yes m) Q ->
  crit_ok m v (s ← service; match find_lease_locked c id s with None => no | Some i => yes i end) Q.
Proof.
  intros Ac Ec Ei Y. apply crit_service. intros st W S. rewrite (find_held m st _ c id W (sees_lease _ _ _ S) Ac Ec Ei). by apply Y.
Qed.

(** ** Programs *)

Definition hoare {A} (m : nat) (v : View) (p : Prog State A) (Q : A -> View -> Prop) : Prop :=
  forall w st, near v w -> wf st -> sees m st w ->
    safe p (Some m) st (fun a h st' => h = Some m /\ wf st' /\ exists v' w', near v' w' /\ sees m st' w' /\ Q a v').

Lemma hoare_mono {A} m v (p : Prog State A) (Q Q' : A -> View -> Prop) :
  (forall a v, Q a v -> Q' a v) -> hoare m v p Q -> hoare m v p Q'.
Proof.
  intros M P w st N W S. eapply safe_mono; [|by eapply P]. cbn. intros a h st' (-> & W' & v' & w' & N' & S' & q).
  split; [done|]. split; [done|]. exists v', w'. auto.
Qed.
Lemma hoare_ret {A} m v (a : A) (Q : A -> View -> Prop) : Q a v -> hoare m v (mret a) Q.
Proof. intros q w st N W S. cbn. split; [done|]. split; [done|]. by exists v, w. Qed.
Lemma hoare_bind {A B} m v (p : Prog State A) (k : A -> Prog State B) (R : A -> View -> Prop) (Q : B -> View -> Prop) :
  hoare m v p R -> (forall a v', R a v' -> hoare m v' (k a) Q) -> hoare m v (p ≫= k) Q.
Proof.
  intros P K w st N W S. apply safe_bind. eapply safe_mono; [|by eapply P]. cbn. intros a h st' (-> & W' & v' & w' & N' & S' & r).
  by eapply K.
Qed.
Lemma hoare_map {A B} m v (p : Prog State A) (f : A -> B) (Q : B -> View -> Prop) :
  hoare m v p (fun a w => Q (f a) w) -> hoare m v (a ← p; mret (f a)) Q.
Proof. intros P. eapply hoare_bind; [exact P|]. intros a w q. by apply hoare_ret. Qed.
Lemma hoare_step {A} m v (f : Crit State A) (Q : A -> View -> Prop) :
  (forall w st, near v w -> wf st -> sees m st w -> exists a st' v' w', f st = Some (a, st') /\ moves (Some m) st st' /\
     near v' w' /\ sees m st' w' /\ Q a v') ->
  hoare m v (atomically f) Q.
Proof.
  intros C w st N W S. cbn. intros st1 [G O] W1. destruct (sees_near m st st1 w S) as (w1 & N1 & S1); [by apply O|].
  destruct (C w1 st1) as (a & st2 & v2 & w2 & E & (W2 & G2 & O2) & N2 & S2 & q); [by eapply near_trans|done|done|].
  exists a, st2. split; [done|]. split; [done|]. split; [done|]. split; [exact O2|]. split; [done|]. split; [done|]. by exists v2, w2.
Qed.
Lemma hoare_crit {A} m v (f : Crit State A) (Q : A -> View -> Prop) :
  (forall w, near v w -> crit_ok m w f Q) -> hoare m v (atomically f) Q.
Proof.
  intros C. apply hoare_step. intros w st N W S. destruct (C w N st W S) as (a & st' & v' & E & M & S' & q).
  exists a, st', v', v'. by pose proof (near_refl v').
Qed.
(** A section that may leave the receiver as others have left it. *)
Lemma hoare_look {A} m v (f : Crit State A) (Q : A -> View -> Prop) :
  (forall w, near v w -> crit_ok m w f (fun a w' => (w' = w /\ Q a v) \/ Q a w')) -> hoare m v (atomically f) Q.
Proof.
  intros C. apply hoare_step. intros w st N W S. destruct (C w N st W S) as (a & st' & w' & E & M & S' & [[-> q]|q]).
  - exists a, st', v, w. by split.
  - exists a, st', w', w'. by pose proof (near_refl w').
Qed.
Lemma hoare_call m v q (Q : answer_type q -> View -> Prop) :
  receiver_of q = Some m -> may_call v q = true -> (forall a, Q a (see_call v q a)) -> hoare m v (perform q) Q.
Proof.
  intros R P K. apply hoare_step. intros w st N W S.
  assert (may_call w q = true) as P' by (destruct N as (ss & t & _ & ->); by destruct q).
  destruct (ask_step m w q st W S R P') as (E & M & S'). eexists _, _, (see_call v q (respond st.2 q)), _. split; [exact E|].
  split; [done|]. split; [by apply near_call|]. by split.
Qed.
Lemma hoare_free m v q (Q : answer_type q -> View -> Prop) :
  receiver_of q = None -> (forall a, Q a v) -> hoare m v (perform q) Q.
Proof.
  intros R K. apply hoare_step. intros w st N W S. destruct (free_step m w q st W S R) as [M S'].
  eexists _, _, v, w. split; [done|]. by split.
Qed.

(** A body that begins and ends at rest. *)
Lemma hoare_safe {A} m v (p : Prog State A) st :
  wf st -> sees m st v -> hoare m v p (fun _ v' => rests v') ->
  safe p (Some m) st (fun a h st' => h = Some m /\ resting m st').
Proof.
  intros W S P. eapply safe_mono; [|by apply (P v st (near_refl v) W S)]. cbn. intros a h st' (-> & _ & v' & w' & N & S' & R).
  split; [done|]. eapply resting_by; [done|]. by eapply rests_near.
Qed.

End Rules.
