(* ===== verification/TunerSafety.v ===== *)
(** The operations of the tuner service keep the discipline, so that every
    interleaving of them does: the theorems on calls, leases and what is left
    behind, and that every operation ends. *)

From S2P Require Import Prelude Threads IpcTypes TunerService TunerProtocol TunerRules.

Open Scope Z_scope.

Section Safety.
Context `{TunerEnvironment} `{!Surroundings}.

(** ** Programs under interference *)

Lemma safe_atomic {A B} h (st : State) (f : Crit State A) (k : A -> Prog State B) (Q : B -> option nat -> State -> Prop) :
  (forall st1, rely h st st1 -> wf st1 -> exists a st2, f st1 = Some (a, st2) /\ moves h st1 st2 /\ safe (k a) h st2 Q) ->
  safe (a ← atomically f; k a) h st Q.
Proof.
  intros C. cbn. intros st1 R W. destruct (C st1 R W) as (a & st2 & E & (W2 & G2 & O2) & K). by exists a, st2.
Qed.

Definition released {A} (a : A) (h : option nat) (st : State) : Prop := h = None.
Definition at_rest {A} (r : nat) (a : A) (h : option nat) (st : State) : Prop := h = Some r /\ resting r st.

(** The first critical section of the body of an operation. *)
Lemma safe_body {A B} r (st : State) (f : Crit State A) (k : A -> Prog State B) :
  (forall st1, grows st st1 -> wf st1 -> resting r st1 ->
     exists a st2, f st1 = Some (a, st2) /\ moves (Some r) st1 st2 /\ safe (k a) (Some r) st2 (at_rest r)) ->
  safe (with_lock r (a ← atomically f; k a)) None st released.
Proof.
  intros C. apply safe_with_lock; [|done]. intros st1 G W R. apply (safe_mono _ _ _ (at_rest r)).
  { by intros a h st' [E X]. }
  apply safe_atomic.
  intros st2 [G2 O2] W2. apply C; [exact (fun x id X => G2 x id (G x id X))|done|].
  exact (resting_elsewhere r st1 st2 R (O2 r eq_refl)).
Qed.

(** A lease that is found has its receiver for ever. *)
Lemma found_home (st : State) i l : wf st -> leases_ st.1 !! i = Some l -> l_active l = true ->
  l_receiver l = i /\ home i (l_lease_id l) st.
Proof.
  intros W L A. destruct (wf_named _ W i l L A) as (E & _ & _ & Is). split; [done|]. split; [done|]. split.
  - intros j l' L' A' E'. by apply (wf_distinct _ W j i l' l).
  - intros j R N. destruct (wf_reserved _ W j _ R N) as (_ & X & _). by destruct (X i l L A).
Qed.

Definition see_phys (v : View) (p : Phys) : View := {|
  v_lease := v_lease v; v_state := v_state v; v_phys := p; v_reserved_lease := v_reserved_lease v;
  v_reserved_attachment := v_reserved_attachment v; v_unused := v_unused v |}.

Lemma hoare_observe r v e (Q : unit -> View -> Prop) : Q tt v -> hoare r v (observe_disconnect r e) Q.
Proof.
  intros q. unfold observe_disconnect. destruct (bool_decide _); [|by apply hoare_ret].
  apply (hoare_free r v (MarkReceiverDisconnected r)); [done|]. by intros [].
Qed.
Lemma hoare_observed {A} r v (p : Prog State (Result A)) (Q : Result A -> View -> Prop) :
  hoare r v p Q -> hoare r v (observed r p) Q.
Proof.
  intros P. unfold observed. eapply hoare_bind; [exact P|]. intros a v' q.
  eapply hoare_bind; [apply (hoare_observe r v' _ (fun _ w => w = v')); done|]. intros _ w ->. by apply hoare_ret.
Qed.

Definition stopped_phys (p : Phys) (stopped : Result unit) : Phys := {|
  opened := opened p; capturing := capturing p && negb (is_success stopped); attached := attached p;
  lost := lost p || disconnected stopped; tuning := tuning p |}.
Definition detached_phys (p : Phys) (detached : Result unit) : Phys := {|
  opened := opened p; capturing := capturing p; attached := if clean detached then None else attached p;
  lost := lost p || disconnected detached; tuning := tuning p |}.

Lemma hoare_stop r v sys (Q : Result unit -> View -> Prop) :
  opened (v_phys v) = true -> lost (v_phys v) = false -> tuning (v_phys v) = false ->
  (forall a, Q a (see_phys v (stopped_phys (v_phys v) a))) -> hoare r v (observed r (perform (StopCapture r sys))) Q.
Proof.
  intros A B C K. apply hoare_observed, (hoare_call r v (StopCapture r sys)); [done|cbn; by rewrite A, B, C|exact K].
Qed.

Lemma hoare_detach r v a (Q : Result unit -> View -> Prop) :
  a_receiver a = r -> attached (v_phys v) = Some (a_attachment_id a) ->
  (forall d, Q d (see_phys v (detached_phys (v_phys v) d))) -> hoare r v (observed r (perform (DetachStream a))) Q.
Proof.
  intros A B K. apply hoare_observed, (hoare_call r v (DetachStream a)); [by cbn; rewrite A|cbn; by apply bool_decide_eq_true_2|exact K].
Qed.

(** What a lease says of the data plane. *)
Definition plane_agrees (l : Lease) (p : Phys) : Prop :=
  attached p = (if l_stream_maybe_attached l then Some (l_attachment_id l) else None) /\
  (l_stream_maybe_attached l = true -> stream_control_ = true).

Lemma hoare_detach_plane r v l (Q : Result unit -> View -> Prop) :
  l_receiver l = r -> plane_agrees l (v_phys v) ->
  (forall d, (clean d = false -> l_stream_maybe_attached l = true) -> Q d (see_phys v (detached_phys (v_phys v) d))) ->
  hoare r v (detach_data_plane_if_needed l) Q.
Proof.
  intros R [A C] K. unfold detach_data_plane_if_needed. destruct (l_stream_maybe_attached l) eqn:M; cbn [negb orb].
  - rewrite (C eq_refl). cbn [negb]. rewrite R. apply hoare_detach; [done|by rewrite A|auto].
  - apply hoare_ret. specialize (K (success tt) ltac:(done)). replace (see_phys v _) with v in K; [done|].
    destruct v as [? ? [] ? ? ?]. cbn in *. unfold see_phys, detached_phys. cbn. by rewrite A, orb_false_r.
Qed.

(** ** Releasing *)

Lemma release_parts r v l : l_receiver l = r -> v_lease v = empty_lease -> v_state v = RS_free ->
  v_reserved_lease v = 0 -> v_reserved_attachment v = 0 -> tuning (v_phys v) = false ->
  (exists state, rests_leased l state (v_phys v)) ->
  hoare r v (
    detached ← detach_data_plane_if_needed l;
    let first := if clean detached then OK else error_of detached in
    let lost := l_backend_disconnected l || disconnected detached in
    stopped ← (if lost then mret (failure DISCONNECTED) else stop_capture_if_needed l);
    let first := first_error first stopped in
    first ← (if negb lost && negb (disconnected stopped) then
               closed ← close_lease l;
               mret (first_error first closed)
             else mret first);
    _ ← (if negb (clean detached) || negb (is_success stopped) || lost
         then atomically (set_state_locked r RS_error) else mret tt);
    mret (result_of first)) (fun _ w => rests w).
Proof.
  intros R El Es Rl Ra Tu (state & [A B C D E F G I J K]).
  eapply hoare_bind; [apply (hoare_detach_plane r v l (fun d w => w = see_phys v (detached_phys (v_phys v) d))); [done|by split|done]|].
  intros d v1 ->. cbv zeta. set (p1 := detached_phys (v_phys v) d). set (lost0 := l_backend_disconnected l || disconnected d).
  eapply (hoare_bind r _ _ _ (fun stopped w => exists p2, w = see_phys v p2 /\ opened p2 = true /\ tuning p2 = false /\
    (lost0 = true -> is_success stopped = false) /\
    (is_success stopped = true -> p2 = {| opened := true; capturing := false; attached := if clean d then None else attached (v_phys v);
       lost := false; tuning := false |}) /\
    (lost0 = false -> disconnected stopped = false -> lost p2 = false))).
  { destruct lost0 eqn:L0.
    - apply hoare_ret. exists p1. split; [done|]. cbn. by rewrite B, Tu.
    - apply orb_false_iff in L0 as [L1 L2]. assert (lost (v_phys v) = false) as L3 by (destruct (lost (v_phys v)); [by rewrite F in L1|done]).
      unfold stop_capture_if_needed. rewrite L1. destruct (l_capture_maybe_active l) eqn:Cp; cbn [negb].
      + rewrite R. apply hoare_stop; cbn; [done|by rewrite L3|done|]. intros a. eexists. split; [done|]. cbn. rewrite B, Tu, L3, L2. cbn.
        repeat (split; [done|]). split; [|done]. intros Su. unfold stopped_phys. cbn. destruct a; [|done]. by rewrite B, L3, L2, Tu, andb_false_r.
      + apply hoare_ret. exists p1. split; [done|]. cbn. rewrite B, Tu, L3, L2. cbn. repeat (split; [done|]). split; [|done]. intros _.
        assert (capturing (v_phys v) = false) as Nc by (destruct (capturing (v_phys v)); [by specialize (C eq_refl)|done]).
        unfold p1, detached_phys. by rewrite B, Tu, L3, L2, Nc. }
  intros stopped v2 (p2 & -> & O2 & T2 & X1 & X2 & X3).
  eapply (hoare_bind r _ _ _ (fun _ w => exists p3, w = see_phys v p3 /\ tuning p3 = false /\
    (clean d = true -> is_success stopped = true -> lost0 = false -> p3 = closed_phys))).
  { destruct (negb lost0 && negb (disconnected stopped)) eqn:Cl.
    - apply andb_true_iff in Cl as [N1 N2]. apply negb_true_iff in N1, N2.
      apply hoare_map. unfold close_lease. rewrite R.
      apply hoare_observed, (hoare_call r _ (CloseReceiver r)); [done|cbn; by rewrite O2, T2, X3|].
      intros a. eexists. split; [done|]. split; [done|]. intros Cd Su _. cbn. rewrite (X2 Su), Cd. done.
    - apply hoare_ret. exists p2. split; [done|]. split; [done|]. intros Cd Su L0. rewrite L0 in Cl.
      destruct stopped; done. }
  intros first v3 (p3 & -> & T3 & X4).
  destruct (negb (clean d) || negb (is_success stopped) || lost0) eqn:Bad.
  - apply (hoare_bind r _ _ _ (fun _ w => exists t, w = see_state (drifted (see_phys v p3) SS_none t) RS_error)).
    + apply hoare_crit. intros w (ss & t & M & ->). eapply crit_mono; [|apply crit_set_state]. cbn in M. rewrite El, Es in M.
      intros [] w [_ ->]. exists t. destruct M as [->|[->|[? _]]]; done.
    + intros _ w (t & ->). apply hoare_ret. split; cbn; rewrite ?El; try done. split; [done|auto|by left].
  - apply orb_false_iff in Bad as [Bad L0]. apply orb_false_iff in Bad as [Cd Su]. apply negb_false_iff in Cd, Su.
    eapply hoare_bind; [apply (hoare_ret r _ tt (fun _ w => w = see_phys v p3)); done|]. intros _ w ->. apply hoare_ret.
    split; cbn; rewrite ?El; try done. split; [done|auto|right; auto].
Qed.

(** ** Critical sections without a mutex *)

Lemma lease_at_eq (st : State) i l : leases_ st.1 !! i = Some l -> lease_at i st = Some (l, st).
Proof. intros L. unfold lease_at, mbind, Crit_bind. cbn. by apply load_some. Qed.
Lemma set_lease_eq (st : State) i l l' : leases_ st.1 !! i = Some l ->
  set_lease i l' st = Some (tt, (with_leases st.1 (<[i := l']> (leases_ st.1)), st.2)).
Proof. intros L. unfold set_lease, mbind, Crit_bind. cbn. rewrite store_some by (by eapply lookup_lt_Some). done. Qed.
Lemma update_lease_eq (st : State) i l f : leases_ st.1 !! i = Some l ->
  update_lease i f st = Some (tt, (with_leases st.1 (<[i := f l]> (leases_ st.1)), st.2)).
Proof. intros L. unfold update_lease, mbind at 1, Crit_bind at 1. rewrite (lease_at_eq st i l L). by eapply set_lease_eq. Qed.

Lemma revoke_moves (st : State) i l : wf st -> leases_ st.1 !! i = Some l ->
  moves None st (with_leases st.1 (<[i := revoke l]> (leases_ st.1)), st.2).
Proof. intros W L. apply stream_move; [done|done|]. right. by left. Qed.

Lemma grows_home (st st' : State) r id : grows st st' -> home r id st -> home r id st'.
Proof. intros G. apply G. Qed.

(** ** Bodies that begin with a search *)

Lemma body_at {A B} r (st : State) v (f : Crit State A) (k : A -> Prog State B) :
  wf st -> sees r st v ->
  crit_ok r v f (fun a w => hoare r w (k a) (fun _ w' => rests w')) ->
  exists a st', f st = Some (a, st') /\ moves (Some r) st st' /\ safe (k a) (Some r) st' (at_rest r).
Proof.
  intros W S C. destruct (C st W S) as (a & st' & w & E & M & S' & P). exists a, st'. split; [done|]. split; [done|].
  eapply hoare_safe; [apply M|exact S'|exact P].
Qed.

Lemma body_find {A B} r c id (st : State) (x : A) (yes : nat -> Crit State A) (k : A -> Prog State B) :
  home r id st -> (r < kMaxReceivers)%nat ->
  (forall v, rests v -> hoare r v (k x) (fun _ w => rests w)) ->
  (forall v, rests v -> l_active (v_lease v) = true -> l_client_id (v_lease v) = c -> l_lease_id (v_lease v) = id ->
     l_receiver (v_lease v) = r -> crit_ok r v (yes r) (fun a w => hoare r w (k a) (fun _ w' => rests w'))) ->
  safe (with_lock r (a ← atomically (s ← service; match find_lease_locked c id s with None => mret x | Some i => yes i end); k a))
    None st released.
Proof.
  intros Hm Lt No Yes. apply safe_body. intros st1 G W R. destruct (sees_some r st1 W Lt) as [v S]. specialize (R v S).
  destruct (find_lease_locked c id st1.1) as [i|] eqn:F.
  - destruct (find_sound _ _ _ _ F) as (l & L & Ac & Ec & Ei). destruct (grows_home _ _ _ _ G Hm) as (_ & X & _).
    assert (i = r) as -> by (by apply (X i l)). pose proof (sees_lease _ _ _ S) as L'. rewrite L in L'. injection L' as ->.
    destruct (wf_named _ W r _ L Ac) as (Er & _). eapply body_at; [done|exact S|].
    by apply crit_find, Yes.
  - exists x, st1. unfold mbind, Crit_bind. cbn. rewrite F. split; [done|]. split; [by apply moves_refl|].
    eapply hoare_safe; [done|exact S|by apply No].
Qed.

(** The receiver of a lease that was found, and what follows. *)
Lemma find_then {A B} c id h (st : State) (x : A) (yes : nat -> Crit State A) (k : A -> Prog State B) (Q : B -> option nat -> State -> Prop) :
  (forall st1, wf st1 -> safe (k x) h st1 Q) ->
  (forall st1 i l, wf st1 -> leases_ st1.1 !! i = Some l -> l_active l = true -> l_lease_id l = id -> l_receiver l = i ->
     home i id st1 -> (i < kMaxReceivers)%nat ->
     exists a st2, yes i st1 = Some (a, st2) /\ moves h st1 st2 /\ safe (k a) h st2 Q) ->
  safe (a ← atomically (s ← service; match find_lease_locked c id s with None => mret x | Some i => yes i end); k a) h st Q.
Proof.
  intros No Yes. apply safe_atomic. intros st1 _ W. unfold mbind, Crit_bind. cbn.
  destruct (find_lease_locked c id st1.1) as [i|] eqn:F.
  - destruct (find_sound _ _ _ _ F) as (l & L & Ac & Ec & <-). destruct (found_home st1 i l W L Ac) as [Er Hm].
    apply (Yes st1 i l); try done. rewrite <- (wf_leases _ W). by eapply lookup_lt_Some.
  - exists x, st1. split; [done|]. split; [by apply moves_refl|]. by apply No.
Qed.

Lemma released_ret {A} (a : A) st : safe (mret a : Prog State A) None st released.
Proof. done. Qed.

Lemma empty_kept l : kept l empty_lease.
Proof. done. Qed.

Lemma release_safe c id st : safe (release_lease c id) None st released.
Proof.
  unfold release_lease. destruct (_ || _); [done|]. apply find_then; [intros; apply released_ret|].
  intros st1 i l W L Ac Ei Er Hm Lt.
  assert (moves None st1 (with_leases st1.1 (<[i := revoke l]> (leases_ st1.1)), st1.2)) as M by by apply revoke_moves.
  eexists _, _. split; [|split; [exact M|]].
  { unfold mbind at 1, Crit_bind at 1. rewrite (lease_at_eq st1 i l L). unfold mbind at 1, Crit_bind at 1. rewrite Er.
    rewrite (update_lease_eq st1 i l revoke L). done. }
  apply body_find; [|done|..].
  - eapply grows_home; [apply M|done].
  - intros v Rv. by apply hoare_ret.
  - intros v Rv Av Ec Eid Erv. pose proof Rv as [Tu [U1 U2] E]. rewrite Av in E.
    eapply crit_then; [apply crit_lease|]. eapply crit_then; [apply crit_set_lease, empty_kept|].
    eapply crit_then; [apply crit_set_state|]. apply crit_ret. apply release_parts; try done. by exists (v_state v).
Qed.

(** ** Acquiring *)

(** The source of the identities of leases does not repeat itself. *)
Class FreshLeaseIds : Prop := {
  lease_id_source_used : lease_id_source_ = true;
  lease_ids_fresh : forall h id, respond h NextLeaseId = success id -> id ∉ issued h;
}.

Lemma crit_lease_id `{!FreshLeaseIds} n r v :
  crit_ok r v (lease_id_attempts n r) (fun a w => match a with
    | failure _ => w = v
    | success id => id <> 0 /\ w = see_reserved_lease v id end).
Proof.
  revert v. induction n as [|n IH]; intros v; [by apply crit_ret|]. cbn [lease_id_attempts]. unfold next_lease_id. rewrite lease_id_source_used.
  intros st W S. destruct (free_step r v NextLeaseId st W S eq_refl) as [M S1].
  pose proof (lease_ids_fresh st.2) as Fr. unfold mbind at 1, Crit_bind at 1. cbn [ask]. cbn in M, S1.
  destruct (respond st.2 NextLeaseId) as [id|e] eqn:Rs.
  2: { eexists _, _, v. split; [done|]. by split. }
  destruct (Z.eqb_spec id 0) as [->|N0]; [eexists _, _, v; split; [done|]; by split|].
  unfold mbind at 1, Crit_bind at 1. cbn [service fst].
  destruct (lease_id_in_use_locked st.1 id); cbn [negb].
  - destruct (IH v _ (proj1 M) S1) as (a & st2 & w & E & M2 & S2 & q). exists a, st2, w. split; [exact E|].
    split; [by eapply moves_trans|done].
  - pose proof (sees_bound _ _ _ W S) as Lt.
    eexists _, _, (see_reserved_lease v id). unfold mbind, Crit_bind, reserve_lease_id, mbind, Crit_bind. cbn.
    rewrite store_some by (rewrite (wf_reserved_leases _ W); done). cbn. split; [done|].
    split; [apply (reserve_lease_move r st id); [done|done|done|by apply Fr|done]|]. split; [|done].
    destruct S as [A B C D E F]. split; try done. cbn. apply list_lookup_insert_eq. rewrite (wf_reserved_leases _ W). done.
Qed.

Lemma crit_grant {A} r v c id sys nonce (k : Crit State A) (Q : A -> View -> Prop) :
  v_reserved_lease v = id -> id <> 0 -> c <> 0 ->
  crit_ok r (see_lease (see_reserved_lease v 0) (granted (v_lease v) c id r sys nonce)) k Q ->
  crit_ok r v (_ ← reserve_lease_id r 0; _ ← update_lease r (fun l => granted l c id r sys nonce); k) Q.
Proof.
  intros Ei Ni Nc K st W S. pose proof (sees_bound _ _ _ W S) as Lt. pose proof S as [A0 B C D E F].
  pose proof (grant_move r st _ (granted (v_lease v) c id r sys nonce) id W A0) as M. cbn in M. rewrite D in M.
  specialize (M ltac:(by rewrite Ei) Ni eq_refl Nc eq_refl).
  assert (sees r (with_leases (with_reserved_lease_ids st.1 (<[r := 0]> (reserved_lease_ids_ st.1)))
    (<[r := granted (v_lease v) c id r sys nonce]> (leases_ st.1)), st.2)
    (see_lease (see_reserved_lease v 0) (granted (v_lease v) c id r sys nonce))) as S1.
  { split; try done; cbn; apply list_lookup_insert_eq; by eapply lookup_lt_Some. }
  destruct (K _ (proj1 M) S1) as (a & st2 & w & E2 & M2 & S2 & q). exists a, st2, w.
  split; [|split; [by eapply moves_trans|done]].
  unfold mbind, Crit_bind, reserve_lease_id, mbind, Crit_bind. cbn. rewrite store_some by (by eapply lookup_lt_Some). cbn.
  rewrite (update_lease_eq (with_reserved_lease_ids st.1 (<[r := 0]> (reserved_lease_ids_ st.1)), st.2) r (v_lease v)) by done. cbn. exact E2.
Qed.

Lemma free_closed v : rests v -> l_active (v_lease v) = false -> v_state v <> RS_error ->
  v_phys v = closed_phys /\ exists t, v_lease v = with_stream empty_lease SS_none t.
Proof. intros [T _ E] Ac N. rewrite Ac in E. destruct E as [A B [C|C]]; [done|]. split; [done|]. by eexists. Qed.

Lemma acquire_safe `{!FreshLeaseIds} c r st : safe (acquire c r) None st released.
Proof.
  unfold acquire. destruct (valid_client c) eqn:Vc; [|done]. destruct (valid_receiver r) eqn:Vr; [|done]. cbn [negb orb].
  assert (c <> 0) as Nc by (intros ->; done).
  assert (r < kMaxReceivers)%nat as Lt. { apply andb_true_iff in Vr as [Vr _]. unfold kReceiverCount in Vr. apply Z.ltb_lt in Vr. unfold kMaxReceivers, kReceiverCount. lia. }
  apply safe_body. intros st1 _ W R. destruct (sees_some r st1 W Lt) as [v S]. specialize (R v S).
  eapply body_at; [done|exact S|]. eapply crit_then; [apply crit_lease|]. eapply crit_then; [apply crit_state|].
  destruct (l_active (v_lease v)) eqn:Ac; [apply crit_ret; by apply hoare_ret|].
  destruct (decide (v_state v = RS_error)) as [Er|Er]; [rewrite bool_decide_eq_true_2 by done; apply crit_ret; by apply hoare_ret|].
  rewrite bool_decide_eq_false_2 by done. destruct (free_closed v R Ac Er) as (Cl & t0 & Em). pose proof R as [_ [U1 U2] _].
  apply (crit_bind r v (ask GenerateNonce) _ (fun _ w => w = v)); [by apply (crit_free r v GenerateNonce)|].
  intros [nonce|e] w ->; [|apply crit_ret; by apply hoare_ret].
  eapply crit_bind; [apply crit_lease_id|]. intros [id|e] w; [intros [Ni ->]|intros ->; apply crit_ret; by apply hoare_ret].
  apply crit_ret. eapply hoare_bind; [apply (hoare_call r _ (OpenReceiver r) (fun a w => w = see_call (see_reserved_lease v id) (OpenReceiver r) a)); [done|cbn; by rewrite Cl|done]|].
  intros opened w ->. destruct opened as [[]|e].
  - apply hoare_crit. intros w (ss & t & M & ->). cbn in M. rewrite Em in M. cbn in M.
    assert (ss = SS_none) as ->.
    { destruct M as [->|[->|[T _]]]; [done|done|]. destruct R as [_ _ E]. rewrite Ac in E. destruct E as [_ [X|[X|X]] _]; congruence. }
    eapply crit_grant; [done|done|done|]. eapply crit_then; [apply crit_set_state|]. eapply crit_then; [apply crit_lease|]. apply crit_ret.
    split; cbn; rewrite ?Cl, ?Em; cbn; [done|by rewrite U2|]. split; cbn; rewrite ?Em; try done; auto.
  - eapply hoare_bind; [apply (hoare_observe r _ e (fun _ w => w = see_call (see_reserved_lease v id) (OpenReceiver r) (failure e))); done|].
    intros _ w ->. eapply hoare_bind; [|intros a w X; apply hoare_ret; exact X]. apply hoare_crit. intros w (ss & t & M & ->). cbn in M.
    eapply crit_mono; [|apply crit_unreserve_lease]. intros [] w [_ ->].
    apply (rests_near v); [done|]. exists ss, t. split; [done|]. unfold see_reserved_lease, drifted, see_call. cbn. rewrite <- U1. by rewrite Cl.
Qed.

(** ** Operations without a mutex *)

(** A single critical section. *)
Lemma atomic_safe {A} (st : State) (f : Crit State A) :
  (forall st1, wf st1 -> exists a st2, f st1 = Some (a, st2) /\ moves None st1 st2) ->
  safe (atomically f) None st released.
Proof.
  intros C. cbn. intros st1 R W. destruct (C st1 W) as (a & st2 & E & (W2 & G2 & O2)). by exists a, st2.
Qed.

Lemma search_moves {A} c id (st : State) (x : A) (yes : nat -> Crit State A) :
  wf st ->
  (forall i l, leases_ st.1 !! i = Some l -> l_active l = true -> l_receiver l = i ->
     exists a st2, yes i st = Some (a, st2) /\ moves None st st2) ->
  exists a st2, (s ← service; match find_lease_locked c id s with None => mret x | Some i => yes i end) st = Some (a, st2) /\
    moves None st st2.
Proof.
  intros W Y. unfold mbind, Crit_bind. cbn. destruct (find_lease_locked c id st.1) as [i|] eqn:F.
  - destruct (find_sound _ _ _ _ F) as (l & L & Ac & _). apply (Y i l); [done|done|]. by destruct (wf_named _ W i l L Ac).
  - exists x, st. split; [done|]. by apply moves_refl.
Qed.

Lemma start_safe c id st : safe (start_stream c id) None st released.
Proof.
  unfold start_stream. destruct (_ || _); [done|]. apply atomic_safe. intros st1 W. apply search_moves; [done|].
  intros i l L Ac Er. pose proof (lookup_lt_Some _ _ _ L) as Lt. rewrite (wf_leases _ W), <- (wf_states _ W) in Lt.
  apply lookup_lt_is_Some in Lt as [x Ex].
  unfold mbind at 1, Crit_bind at 1. rewrite (lease_at_eq st1 i l L). unfold mbind at 1, Crit_bind at 1. rewrite Er.
  assert (state_at i st1 = Some (x, st1)) as -> by (unfold state_at, mbind, Crit_bind; cbn; by apply load_some).
  destruct (decide (x = RS_tuned)) as [->|N]; [rewrite bool_decide_eq_true_2 by done|rewrite bool_decide_eq_false_2 by done]; cbn [negb].
  2: { eexists _, _. split; [done|]. by apply moves_refl. }
  destruct (decide (l_stream_state l = SS_none)) as [Es|N]; [rewrite bool_decide_eq_true_2 by done|rewrite bool_decide_eq_false_2 by done]; cbn [negb].
  2: { eexists _, _. split; [done|]. by apply moves_refl. }
  unfold mbind at 1, Crit_bind at 1. unfold monotonic_ms, mbind at 1, Crit_bind at 1. cbn [ask].
  set (now := respond st1.2 MonotonicMs). set (st2 := (st1.1, Called MonotonicMs now :: st1.2)).
  assert (moves None st1 st2) as M by (by apply call_moves). cbn. fold st2.
  unfold mbind at 1, Crit_bind at 1. change (leases_ st1.1) with (leases_ st2.1) in L. rewrite (set_lease_eq st2 i l _ L).
  eexists _, _. split; [done|]. eapply moves_trans; [exact M|]. apply stream_move; [apply M|done|].
  right. right. split; [done|]. by auto.
Qed.

Lemma revoke_safe c id st : safe (revoke_stream c id) None st released.
Proof.
  unfold revoke_stream. destruct (_ || _); [done|]. apply atomic_safe. intros st1 W. apply search_moves; [done|].
  intros i l L Ac Er. unfold mbind at 1, Crit_bind at 1. rewrite (update_lease_eq st1 i l revoke L).
  eexists _, _. split; [done|]. by apply revoke_moves.
Qed.

Lemma revoke_with_nonce_safe c id nonce st : safe (revoke_stream_with_nonce c id nonce) None st released.
Proof.
  unfold revoke_stream_with_nonce. destruct (_ || _); [done|]. apply atomic_safe. intros st1 W. apply search_moves; [done|].
  intros i l L Ac Er. unfold mbind at 1, Crit_bind at 1. rewrite (lease_at_eq st1 i l L).
  destruct (negb _); [eexists _, _; split; [done|]; by apply moves_refl|].
  unfold mbind at 1, Crit_bind at 1. rewrite (set_lease_eq st1 i l _ L). eexists _, _. split; [done|]. by apply revoke_moves.
Qed.

Lemma status_safe st : safe status None st released.
Proof. apply atomic_safe. intros st1 W. eexists _, _. split; [done|]. by apply moves_refl. Qed.

Lemma revoke_mine_moves mine (st : State) : wf st -> exists noted st2, revoke_mine mine st = Some (noted, st2) /\ moves None st st2.
Proof.
  intros W. eexists _, _. split; [done|]. apply leases_move; [done|by rewrite length_fmap|..]; cbn.
  - intros i l' E Al. rewrite list_lookup_fmap in E. destruct (leases_ st.1 !! i) as [l|]; [|done]. injection E as <-.
    exists l. split; [done|]. by destruct (l_active l && mine l).
  - intros m _. rewrite list_lookup_fmap. destruct (leases_ st.1 !! m) as [l|]; constructor.
    destruct (l_active l && mine l); [|apply lease_moves_refl]. split; [done|]. right. by left.
Qed.

Lemma safe_released_bind {A B} (p : Prog State A) (k : A -> Prog State B) st :
  safe p None st released -> (forall a st', safe (k a) None st' released) -> safe (p ≫= k) None st released.
Proof. intros P K. apply safe_bind. eapply safe_mono; [|exact P]. cbn. intros a h st' ->. apply K. Qed.

Lemma release_all_safe skip noted first st : safe (release_all skip noted first) None st released.
Proof.
  revert first st. induction noted as [|note noted IH]; intros first st; [done|]. cbn [release_all].
  destruct (skip note); [apply IH|]. apply safe_released_bind; [apply release_safe|]. intros. apply IH.
Qed.

Lemma revoke_mine_safe mine st : safe (atomically (revoke_mine mine)) None st released.
Proof. apply atomic_safe. intros st1 W. by apply revoke_mine_moves. Qed.

Lemma cleanup_safe c st : safe (cleanup_client c) None st released.
Proof.
  unfold cleanup_client. destruct (negb _); [done|]. apply safe_released_bind; [apply revoke_mine_safe|]. intros noted st1.
  apply safe_released_bind; [apply release_all_safe|]. by intros.
Qed.

Lemma shutdown_safe st : safe shutdown None st released.
Proof.
  unfold shutdown, cleanup_all. apply safe_released_bind; [apply revoke_mine_safe|]. intros noted st1.
  apply safe_released_bind; [apply release_all_safe|]. intros first st2. apply safe_released_bind; [|by intros].
  apply atomic_safe. intros st3 W. eexists _, _. split; [done|]. by apply call_moves.
Qed.

(** ** Counters of a stream *)

Lemma found_receiver {A} c id (st : State) (k : option nat -> Prog State A) :
  (forall st1, wf st1 -> safe (k None) None st1 released) ->
  (forall st1 r, wf st1 -> home r id st1 -> (r < kMaxReceivers)%nat -> safe (k (Some r)) None st1 released) ->
  safe (found ← atomically (s ← service;
    match find_lease_locked c id s with None => mret None | Some i => l ← lease_at i; mret (Some (l_receiver l)) end); k found) None st released.
Proof.
  intros No Yes. apply find_then; [done|]. intros st1 i l W L Ac Ei Er Hm Lt.
  exists (Some i), st1. split; [|split; [by apply moves_refl|by apply Yes]].
  unfold mbind, Crit_bind. rewrite (lease_at_eq st1 i l L). by rewrite Er.
Qed.

Lemma stats_safe c id st : safe (stats c id) None st released.
Proof.
  unfold stats. destruct (_ || _); [done|]. apply found_receiver; [intros; apply released_ret|]. intros st1 r W Hm Lt.
  apply body_find; [done|done|intros v Rv; by apply hoare_ret|]. intros v Rv Av Ec Ei Er.
  eapply crit_then; [apply crit_lease|]. rewrite Er.
  destruct (bool_decide _) eqn:D; [apply crit_ret; by apply hoare_ret|]. destruct (negb stream_control_ || _) eqn:P; [apply crit_ret; by apply hoare_ret|].
  apply crit_ret. apply orb_false_iff in P as [_ P]. apply negb_false_iff in P. pose proof Rv as [_ _ E]. rewrite Av in E.
  apply (hoare_call r v (StreamStats _)); [by cbn; rewrite Er|cbn; rewrite (rests_attached _ _ _ E), P; by apply bool_decide_eq_true_2|].
  intros a. by destruct Rv as [? ? ?].
Qed.
End Safety.

(** The remaining operations of the tuner service: tuning and streams. *)

Section Tuning.
Context `{TunerEnvironment} `{!Surroundings}.

Lemma see_same v p : v_phys v = p -> see_phys v p = v.
Proof. intros <-. by destruct v. Qed.

(** A call that leaves no trace in what is known of the receiver. *)
Lemma hoare_quiet r v q (Q : answer_type q -> View -> Prop) :
  receiver_of q = Some r -> may_call v q = true -> (forall a, see_call v q a = v) -> (forall a, Q a v) -> hoare r v (perform q) Q.
Proof. intros R P S K. apply hoare_call; [done|done|]. intros a. rewrite S. apply K. Qed.

Lemma hoare_time r v (Q : Z -> View -> Prop) : (forall a, Q a v) -> hoare r v (atomically monotonic_ms) Q.
Proof.
  intros K. apply hoare_step. intros w st N W S. destruct (crit_time r w st W S) as (a & st' & w' & E & M & S' & ->).
  exists a, st', v, w. by split; [|split; [|split; [|split]]].
Qed.

(** Within a power transaction: the receiver is open, and only the power is not
    settled. *)
Definition tunes (v : View) : Prop := opened (v_phys v) = true /\ tuning (v_phys v) = true.

Lemma quiet_select r v q remaining (Q : Result unit -> View -> Prop) :
  tunes v -> (forall a, Q a v) -> hoare r v (select_satellite_stream r q remaining) Q.
Proof.
  intros [O T] K. unfold select_satellite_stream.
  destruct (negb _); [apply (hoare_quiet r v (SelectSatelliteSlot _ _ _))|apply (hoare_quiet r v (SelectSatelliteTsid _ _ _))];
    try done; try (cbn; by rewrite O, T); intros a; by destruct v.
Qed.

Lemma quiet_remaining r v start timeout (Q : Z -> View -> Prop) :
  (forall a, Q a v) -> hoare r v (remaining_before_tune start timeout) Q.
Proof. intros K. unfold remaining_before_tune. apply hoare_map, hoare_time. intros a. apply K. Qed.

Lemma quiet_select_first r v q start (Q : Result unit -> View -> Prop) :
  tunes v -> (forall a, Q a v) -> hoare r v (select_first r q start) Q.
Proof.
  intros T K. unfold select_first. eapply hoare_bind; [apply (quiet_remaining r v _ _ (fun _ w => w = v)); done|]. intros a w ->.
  destruct (a =? 0); [by apply hoare_ret|]. by apply quiet_select.
Qed.

Lemma quiet_run_tune r v q start (Q : Result unit -> View -> Prop) :
  tunes v -> (forall a, Q a v) -> hoare r v (run_tune r q start) Q.
Proof.
  intros [O T] K. unfold run_tune. eapply hoare_bind; [apply (quiet_remaining r v _ _ (fun _ w => w = v)); done|]. intros a w ->.
  destruct (a =? 0); [by apply hoare_ret|].
  destruct (eqb _ _); [apply (hoare_quiet r v (TuneTerrestrial _ _ _))|apply (hoare_quiet r v (TuneSatellite _ _ _))];
    try done; try (cbn; by rewrite O, T); intros b; by destruct v.
Qed.

Lemma quiet_poll rounds r v sys start timeout (Q : Result bool -> View -> Prop) :
  tunes v -> (forall a, Q a v) -> hoare r v (poll_rounds rounds r sys start timeout) Q.
Proof.
  intros [O T] K. induction rounds as [|rounds IH]; [by apply hoare_ret|]. cbn [poll_rounds].
  eapply hoare_bind; [apply (hoare_time r v (fun _ w => w = v)); done|]. intros before w ->. destruct (_ <=? _); [by apply hoare_ret|].
  eapply hoare_bind; [apply hoare_observed, (hoare_quiet r v (IsLocked r sys) (fun _ w => w = v)); [done|cbn; by rewrite O, T|intros b; by destruct v|done]|].
  intros [[]|e] w ->; [by apply hoare_ret| |by apply hoare_ret].
  eapply hoare_bind; [apply (hoare_time r v (fun _ w => w = v)); done|]. intros now w ->. cbv zeta.
  destruct (_ || _); [by apply hoare_ret|]. destruct (_ <? _); [by apply hoare_ret|].
  eapply hoare_bind; [apply (hoare_free r v (SleepMs 10) (fun _ w => w = v)); done|]. intros [] w ->. apply IH.
Qed.

Lemma quiet_settle r v start poll timeout (Q : Result unit -> View -> Prop) :
  (forall a, Q a v) -> hoare r v (settle_lock start poll timeout) Q.
Proof.
  intros K. unfold settle_lock. eapply hoare_bind; [apply (hoare_time r v (fun _ w => w = v)); done|]. intros now w ->. cbv zeta.
  destruct (_ <=? _); [by apply hoare_ret|]. destruct (_ <? _); [|by apply hoare_ret]. destruct (_ <=? _); [by apply hoare_ret|].
  eapply hoare_bind; [apply (hoare_free r v (SleepMs _) (fun _ w => w = v)); done|]. intros [] w ->. by apply hoare_ret.
Qed.

Lemma quiet_select_last r v q start (Q : Result unit -> View -> Prop) :
  tunes v -> (forall a, Q a v) -> hoare r v (select_last r q start) Q.
Proof.
  intros T K. unfold select_last. eapply hoare_bind; [apply (hoare_time r v (fun _ w => w = v)); done|]. intros now w ->. cbv zeta.
  destruct (_ <=? _); [by apply hoare_ret|].
  eapply hoare_bind; [apply (quiet_select r v q _ (fun _ w => w = v)); done|]. intros [[]|e] w ->; [|by apply hoare_ret].
  apply hoare_map, hoare_time. intros a. apply K.
Qed.

Definition settled (p : Phys) : Phys := {| opened := opened p; capturing := capturing p; attached := attached p; lost := lost p; tuning := false |}.
(** Only the power transaction keeps the receiver from rest. *)
Record in_tune (v : View) : Prop := {
  in_tune_power : tunes v;
  in_tune_leased : l_active (v_lease v) = true /\ v_state v = RS_leased;
  in_tune_rest : rests (see_phys v (settled (v_phys v)));
}.

Lemma rests_error v : l_active (v_lease v) = true -> rests v -> rests (see_state v RS_error).
Proof.
  intros Ac [A B C]. split; [done|done|]. cbn. rewrite Ac in *. destruct C as [C1 C2 C3 C4 C5 C6 C7 C8 C9 C10].
  split; try done; [auto| |by left]. intros D. by destruct (C7 D).
Qed.

Lemma hoare_rollback {A} r v e : in_tune v -> hoare r v (fail_after_power (A := A) r e) (fun _ w => rests w).
Proof.
  intros [[O T] [Ac St] R]. unfold fail_after_power.
  eapply hoare_bind; [apply (hoare_observe r v e (fun _ w => w = v)); done|]. intros _ w ->.
  eapply hoare_bind; [apply hoare_observed, (hoare_call r v (RollbackTunePower r) (fun _ w => w = see_phys v (settled (v_phys v))));
    [done|cbn; by rewrite O, T|done]|].
  intros rollback w ->. eapply (hoare_bind r _ _ _ (fun _ w => rests w)); [|intros _ w X; by apply hoare_ret].
  destruct (is_success rollback); [by apply hoare_ret|]. apply hoare_crit. intros w N.
  eapply crit_mono; [|apply crit_set_state]. intros [] w' [_ ->]. apply rests_error; [destruct N as (? & ? & _ & ->); done|by eapply rests_near].
Qed.

Lemma hoare_or_fail {A B} r v (p : Prog State (Result A)) (k : A -> Prog State (Result B)) :
  in_tune v -> hoare r v p (fun _ w => w = v) -> (forall a, hoare r v (k a) (fun _ w => rests w)) ->
  hoare r v (or_fail r p k) (fun _ w => rests w).
Proof. intros T P K. unfold or_fail. eapply hoare_bind; [exact P|]. intros [a|e] w ->; [apply K|by apply hoare_rollback]. Qed.

(** What a successful tune makes of the lease. *)
Definition tuned_lease (l : Lease) (sys : System) : Lease :=
  let l := with_system l sys in
  if bool_decide (l_stream_state l = SS_consumed) then with_stream_state l SS_none else l.

Lemma tuned_rests v sys : l_active (v_lease v) = true -> v_state v = RS_leased -> rests v ->
  rests (see_state (see_lease v (tuned_lease (v_lease v) sys)) RS_tuned).
Proof.
  intros Ac St [A B C]. unfold tuned_lease. cbn [with_system l_stream_state].
  rewrite Ac in C. destruct C as [C1 C2 C3 C4 C5 C6 C7 C8 C9 C10]. rewrite St in *.
  assert (l_backend_disconnected (v_lease v) = false) as Nd by (destruct (l_backend_disconnected (v_lease v)); [by destruct C7|done]).
  split; [done|done|]. cbn. case_bool_decide as E.
  - cbn. rewrite Ac. destruct (C10 E) as [?|[F1 F2]]; [done|]. split; cbn; try done; [auto|by rewrite Nd].
  - cbn. rewrite Ac. split; cbn; try done; [auto|by rewrite Nd].
Qed.

Lemma hoare_commit r v q {A} (answer : A) : in_tune v ->
  hoare r v (or_fail r (perform (CommitTunePower r)) (fun _ =>
    _ ← atomically (
      _ ← update_lease r (fun l => with_system l (tune_system q));
      _ ← update_lease r (fun l => if bool_decide (l_stream_state l = SS_consumed) then with_stream_state l SS_none else l);
      set_state_locked r RS_tuned);
    mret (success answer))) (fun _ w => rests w).
Proof.
  intros T. pose proof T as [[O Tn] [Ac St] R]. unfold or_fail.
  eapply hoare_bind; [apply (hoare_call r v (CommitTunePower r) (fun a w => w = see_call v (CommitTunePower r) a)); [done|cbn; by rewrite O, Tn|done]|].
  intros [[]|e] w ->.
  - assert (see_call v (CommitTunePower r) (success tt) = see_phys v (settled (v_phys v))) as ->.
    { unfold see_call, see_phys, settled. cbn. by rewrite andb_false_r. }
    eapply (hoare_bind r _ _ _ (fun _ w => rests w)); [|intros _ w X; by apply hoare_ret]. apply hoare_crit. intros w N.
    assert (rests w /\ l_active (v_lease w) = true /\ v_state w = RS_leased) as (Rw & Aw & Sw).
    { split; [by eapply rests_near|]. destruct N as (? & ? & _ & ->). done. }
    eapply crit_then; [by apply crit_update_lease|]. eapply crit_then; [apply crit_update_lease|].
    { cbn. case_bool_decide; done. }
    eapply crit_mono; [|apply crit_set_state]. intros [] w' [_ ->]. by apply (tuned_rests w (tune_system q)).
  - assert (see_call v (CommitTunePower r) (failure e) = v) as ->.
    { unfold see_call. cbn. rewrite andb_true_r. by destruct v as [? ? [] ? ? ?]. }
    by apply hoare_rollback.
Qed.

Lemma hoare_tune r v q : in_tune v -> hoare r v (tune_prepared r q) (fun _ w => rests w).
Proof.
  intros T. pose proof (in_tune_power v T) as P. unfold tune_prepared.
  eapply hoare_bind; [apply (hoare_time r v (fun _ w => w = v)); done|]. intros start w ->. cbv zeta.
  apply hoare_or_fail; [done|destruct (_ && _); [by apply quiet_select_first|by apply hoare_ret]|intros _].
  apply hoare_or_fail; [done|by apply quiet_run_tune|intros _].
  eapply hoare_bind; [apply (hoare_time r v (fun _ w => w = v)); done|]. intros poll w ->.
  apply hoare_or_fail; [done|by apply quiet_poll|intros locked].
  apply hoare_or_fail; [done|by apply hoare_ret|intros _].
  apply hoare_or_fail; [done|destruct (_ && _); [by apply quiet_settle|by apply hoare_ret]|intros _].
  apply hoare_or_fail; [done|destruct (_ && _); [by apply quiet_select_last|by apply hoare_ret]|intros _].
  by apply hoare_commit.
Qed.

Lemma tune_safe c q st : safe (tune c q) None st released.
Proof.
  unfold tune. apply found_receiver; [intros; apply released_ret|]. intros st1 r W Hm Lt.
  apply body_find; [done|done|intros v Rv; by apply hoare_ret|]. intros v Rv Av Ec Ei Er.
  eapply crit_then; [apply crit_lease|]. rewrite Er. eapply crit_then; [apply crit_state|].
  destruct (decide (v_state v = RS_error)) as [Es|Es]; [rewrite bool_decide_eq_true_2 by done; apply crit_ret; by apply hoare_ret|].
  rewrite bool_decide_eq_false_2 by done. apply crit_ret. destruct (bool_decide _) eqn:Bs; [by apply hoare_ret|].
  apply bool_decide_eq_false in Bs. destruct (negb (receiver_supports _ _)); [by apply hoare_ret|].
  destruct (negb (valid_tune q)); [by apply hoare_ret|].
  pose proof Rv as [Tu [U1 U2] C]. rewrite Av in C. destruct C as [C1 C2 C3 C4 C5 C6 C7 C8 C9 C10].
  assert (l_backend_disconnected (v_lease v) = false) as Nd by (destruct (l_backend_disconnected (v_lease v)); [by destruct C7|done]).
  assert (l_capture_maybe_active (v_lease v) = false /\ l_stream_maybe_attached (v_lease v) = false) as [F1 F2].
  { destruct (l_stream_state (v_lease v)); try (by apply C9; auto); try (by destruct Bs).
    destruct C10 as [?|[? ?]]; done. }
  assert (lost (v_phys v) = false) as Nl by (destruct (lost (v_phys v)); [by rewrite C6 in Nd|done]).
  assert (capturing (v_phys v) = false) as Nc by (destruct (capturing (v_phys v)); [by rewrite C3 in F1|done]).
  (* The lease may be armed or revoked meanwhile, as the receiver still is tuned. *)
  eapply (hoare_bind r _ _ _ (fun _ w => rests w /\ l_active (v_lease w) = true /\ v_state w = RS_leased /\
    opened (v_phys w) = true /\ lost (v_phys w) = false /\ capturing (v_phys w) = false)).
  { apply hoare_crit. intros w N. eapply crit_mono; [|apply crit_set_state]. intros [] w' [_ ->].
    pose proof (rests_near v w Rv N) as Rw. destruct N as (ss & t & M & ->). cbn. split; [|done].
    destruct Rw as [A B E]. cbn in E. rewrite Av in E. destruct E as [E1 E2 E3 E4 E5 E6 E7 E8 E9 E10].
    split; [done|done|]. cbn. rewrite Av. split; try done; cbn; [auto|by rewrite Nd|auto]. }
  intros _ w (Rw & Aw & Sw & Ow & Lw & Cw).
  eapply hoare_bind; [apply hoare_observed, (hoare_call r w (BeginTunePower r _ _) (fun a w' => w' = see_call w (BeginTunePower r (tune_system q) (lnb_voltage q)) a));
    [done|cbn; by rewrite Ow, Lw, Cw, (rests_settled _ Rw)|done]|].
  intros [[]|e] w' ->.
  - apply hoare_tune. pose proof (rests_settled _ Rw) as Tw. split; [split; cbn; [done|by rewrite orb_true_r]|done|].
    assert (see_phys (see_call w (BeginTunePower r (tune_system q) (lnb_voltage q)) (success tt))
      (settled (v_phys (see_call w (BeginTunePower r (tune_system q) (lnb_voltage q)) (success tt)))) = w) as ->; [|done].
    destruct w as [? ? [] ? ? ?]. cbn in *. by subst.
  - apply hoare_ret. assert (see_call w (BeginTunePower r (tune_system q) (lnb_voltage q)) (failure e) = w) as ->; [|done].
    destruct w as [? ? [] ? ? ?]. unfold see_call. cbn. by rewrite orb_false_r.
Qed.

End Tuning.

Section Streams.
Context `{TunerEnvironment} `{!Surroundings}.

(** ** What streams leave behind *)

Lemma consumed_rests v l aid (cap att disc : bool) state p : l_active l = true -> opened p = true -> tuning p = false ->
  v_reserved_lease v = 0 -> v_reserved_attachment v = 0 ->
  (capturing p = true -> cap = true) -> attached p = (if att then Some aid else None) -> (att = true -> stream_control_ = true) ->
  (lost p = true -> disc = true) -> (disc = true -> state = RS_error) ->
  (state = RS_leased \/ state = RS_tuned \/ state = RS_streaming \/ state = RS_error) ->
  (state = RS_error \/ (cap = false /\ att = false)) ->
  rests {| v_lease := with_capture l SS_consumed aid cap att disc; v_state := state; v_phys := p;
           v_reserved_lease := v_reserved_lease v; v_reserved_attachment := v_reserved_attachment v; v_unused := v_unused v |}.
Proof.
  intros A O T U1 U2 C At Pl Lo Di St Co. split; [done|done|]. cbn. rewrite A. split; cbn; try done; [auto|by intros [?|?]].
Qed.

(** The capture is stopped, unless the device is lost. *)
Lemma hoare_stop_parts r v l (Q : Result unit * Result unit -> View -> Prop) :
  l_receiver l = r -> plane_agrees l (v_phys v) -> opened (v_phys v) = true -> lost (v_phys v) = false -> tuning (v_phys v) = false ->
  (forall d s, (clean d = false -> l_stream_maybe_attached l = true) -> (disconnected d = true -> disconnected s = true) ->
     Q (d, s) (see_phys v (stopped_phys (detached_phys (v_phys v) d) s))) -> hoare r v (stop_parts r l) Q.
Proof.
  intros R P O L T K. unfold stop_parts.
  eapply hoare_bind; [apply (hoare_detach_plane r v l (fun d w => (clean d = false -> l_stream_maybe_attached l = true) /\ w = see_phys v (detached_phys (v_phys v) d))); done|].
  intros d w [M ->]. destruct (disconnected d) eqn:D; cbn [negb].
  - eapply hoare_bind; [apply (hoare_ret r _ (failure DISCONNECTED) (fun s w => s = failure DISCONNECTED /\ w = see_phys v (stopped_phys (detached_phys (v_phys v) d) s)))|].
    + split; [done|]. unfold stopped_phys, detached_phys. cbn. by rewrite L, D, andb_true_r.
    + intros s w [-> ->]. apply hoare_ret. apply K; [done|by intros _].
  - apply hoare_map. apply hoare_stop; cbn; [done|by rewrite L, D|done|]. intros s. apply K; [done|by rewrite D].
Qed.

Lemma clean_disconnected d : disconnected d = true -> clean d = false.
Proof. unfold disconnected, clean. destruct d as [|e]; [done|]. intros E%bool_decide_eq_true. cbn in *. by subst. Qed.
Lemma success_not_disconnected {A} (a : Result A) : disconnected a = true -> is_success a = false.
Proof. by destruct a. Qed.

Lemma near_lease v w : near v w -> exists ss t, w = see_lease v (with_stream (v_lease v) ss t).
Proof. intros (ss & t & _ & ->). by exists ss, t. Qed.

(** A lease in use, without what is transient. *)
Definition leased_by (v : View) (c id : Z) : Prop := l_active (v_lease v) = true /\ l_client_id (v_lease v) = c /\ l_lease_id (v_lease v) = id.

(** The end of STOP and DETACH. *)
Lemma hoare_stopped r v c id aid (cap att disc : bool) state :
  leased_by v c id -> v_reserved_lease v = 0 -> v_reserved_attachment v = 0 ->
  opened (v_phys v) = true -> tuning (v_phys v) = false ->
  (capturing (v_phys v) = true -> cap = true) -> attached (v_phys v) = (if att then Some aid else None) -> (att = true -> stream_control_ = true) ->
  (lost (v_phys v) = true -> disc = true) -> (disc = true -> state = RS_error) -> (state = RS_tuned \/ state = RS_error) ->
  (state = RS_error \/ (cap = false /\ att = false)) ->
  hoare r v (atomically (s ← service; match find_lease_locked c id s with None => mret tt | Some index =>
      _ ← update_lease index (fun l => with_capture l SS_consumed aid cap att disc);
      set_state_locked r state end)) (fun _ w => rests w).
Proof.
  intros (A & Ec & Ei) U1 U2 O T C At Pl Lo Di St Co. apply hoare_crit. intros w (ss & t & ->)%near_lease.
  apply crit_find; [done..|]. eapply crit_then; [by apply crit_update_lease|].
  eapply crit_mono; [|apply crit_set_state]. intros [] w' [_ ->].
  apply (consumed_rests v (with_stream (v_lease v) ss t)); try done. destruct St as [->| ->]; auto.
Qed.

Lemma resting_lease v : rests v -> l_active (v_lease v) = true -> rests_leased (v_lease v) (v_state v) (v_phys v).
Proof. intros [_ _ E] A. by rewrite A in E. Qed.

(** A lease that streams, or was revoked while it did, is on a device that is
    there. *)
Lemma streaming_facts v : rests v -> l_active (v_lease v) = true ->
  l_stream_state (v_lease v) = SS_active \/ l_stream_state (v_lease v) = SS_revoked ->
  plane_agrees (v_lease v) (v_phys v) /\ opened (v_phys v) = true /\ lost (v_phys v) = false /\ tuning (v_phys v) = false.
Proof.
  intros R A St. pose proof (resting_lease v R A) as [C1 C2 C3 C4 C5 C6 C7 C8 C9 C10]. pose proof R as [T _ _].
  split; [done|]. split; [done|]. split; [|done]. destruct (lost (v_phys v)) eqn:L; [|done].
  destruct (C7 (C6 eq_refl)) as [_ E]. destruct St; congruence.
Qed.

Lemma stop_safe c id st : safe (stop_stream c id) None st released.
Proof.
  unfold stop_stream. destruct (_ || _); [done|]. apply found_receiver; [intros; apply released_ret|]. intros st1 r W Hm Lt.
  apply body_find; [done|done|intros v Rv; by apply hoare_ret|]. intros v Rv Av Ec Ei Er.
  eapply crit_then; [apply crit_lease|]. destruct (bool_decide _) eqn:D; [apply crit_ret; by apply hoare_ret|].
  apply bool_decide_eq_false in D. apply crit_ret.
  destruct (streaming_facts v Rv Av) as (P & O & L & T).
  { destruct (l_stream_state (v_lease v)); auto; destruct D; right; left; done. }
  pose proof Rv as [_ [U1 U2] _]. pose proof (resting_lease v Rv Av) as [C1 C2 C3 C4 C5 C6 C7 C8 C9 C10].
  eapply hoare_bind; [apply (hoare_stop_parts r v (v_lease v) (fun x w => (clean x.1 = false -> l_stream_maybe_attached (v_lease v) = true) /\ (disconnected x.1 = true -> disconnected x.2 = true) /\
    w = see_phys v (stopped_phys (detached_phys (v_phys v) x.1) x.2))); done|].
  intros [d s] w (Md & Ds & ->). cbn [fst snd]. set (v1 := see_phys v _).
  eapply (hoare_bind r v1 _ _ (fun _ w => w = v1)).
  { destruct (_ && _); [|by apply hoare_ret].
    eapply hoare_bind; [apply (hoare_quiet r v1 (FinalSnapshot _) (fun _ w => w = v1)); [by cbn; rewrite Er|done|intros a; by destruct v1|done]|].
    intros [snap|e] w ->.
    - eapply (hoare_bind r v1 _ _ (fun _ w => w = v1)); [destruct (snapshot_disconnected snap); [by apply hoare_observe|by apply hoare_ret]|].
      intros _ w ->. by apply hoare_ret.
    - eapply hoare_bind; [by apply (hoare_observe r v1 e (fun _ w => w = v1))|]. intros _ w ->. by apply hoare_ret. }
  intros [[snap gone] first] w ->. eapply (hoare_bind r v1 _ _ (fun _ w => rests w)); [|intros _ w X; by apply hoare_ret].
  apply (hoare_stopped r v1); try done; cbn.
  - intros X%andb_true_iff. by destruct X.
  - destruct (clean d) eqn:Cd; cbn; [done|]. by rewrite C4, Md.
  - intros X%negb_true_iff. by apply C5, Md.
  - rewrite L. cbn. intros X. by rewrite X.
  - intros X. apply orb_true_iff in X as [X|X]; [apply orb_true_iff in X as [X|X]|].
    + by rewrite (clean_disconnected d X), andb_false_r.
    + by rewrite (success_not_disconnected s X).
    + by rewrite X, andb_false_r.
  - destruct (_ && _); auto.
  - destruct (is_success s), (clean d), gone; cbn; auto.
Qed.

Lemma detach_finish r v a d s :
  attached_as a (v_lease v) -> rests v ->
  (clean d = false -> l_stream_maybe_attached (v_lease v) = true) -> (disconnected d = true -> disconnected s = true) ->
  hoare r (see_phys v (stopped_phys (detached_phys (v_phys v) d) s)) (atomically (
    s0 ← service;
    match find_lease_locked (a_owner_client_id a) (a_lease_id a) s0 with
    | None => mret tt
    | Some index =>
        l ← lease_at index;
        if negb (l_attachment_id l =? a_attachment_id a) then mret tt
        else
          _ ← set_lease index (with_capture l SS_consumed (if clean d then 0 else a_attachment_id a)
                (negb (is_success s)) (negb (clean d)) (disconnected d || disconnected s));
          set_state_locked r (if is_success s && clean d then RS_tuned else RS_error)
    end)) (fun _ w => rests w).
Proof.
  intros (Ac & Ec & Ei & Ea & _ & _ & St) R Md Ds. destruct (streaming_facts v R Ac) as (P & O & L & T); [by destruct St; auto|].
  pose proof R as [_ [U1 U2] _]. pose proof (resting_lease v R Ac) as [C1 C2 C3 C4 C5 C6 C7 C8 C9 C10].
  apply hoare_crit. intros w (ss & t & ->)%near_lease. apply crit_find; [done..|].
  eapply crit_then; [apply crit_lease|]. cbn. rewrite Ea, Z.eqb_refl. cbn.
  eapply crit_then; [by apply crit_set_lease|]. eapply crit_mono; [|apply crit_set_state]. intros [] w' [_ ->].
  apply (consumed_rests (see_phys v (stopped_phys (detached_phys (v_phys v) d) s)) (with_stream (v_lease v) ss t)); try done; cbn.
  - intros X%andb_true_iff. by destruct X.
  - destruct (clean d) eqn:Cd; cbn; [done|]. by rewrite C4, Md, Ea.
  - intros X%negb_true_iff. by apply C5, Md.
  - rewrite L. cbn. intros X. by rewrite X.
  - intros X%orb_true_iff. destruct X as [X|X]; [by rewrite (clean_disconnected d X), andb_false_r|by rewrite (success_not_disconnected s X)].
  - destruct (_ && _); auto.
  - destruct (is_success s), (clean d); cbn; auto.
Qed.

Lemma detach_safe a st : safe (detach_stream a) None st released.
Proof.
  unfold detach_stream. destruct (_ || _ || _ || _) eqn:G; [done|]. apply orb_false_iff in G as [_ G]. apply Z.leb_gt in G.
  assert (a_receiver a < kMaxReceivers)%nat as Lt by (unfold kMaxReceivers; lia). cbv zeta. set (r := a_receiver a) in *.
  apply safe_atomic. intros st1 _ W. destruct (sees_some r st1 W Lt) as [v0 S0]. pose proof (sees_lease _ _ _ S0) as L0.
  unfold mbind at 1, Crit_bind at 1. rewrite (lease_at_eq st1 r _ L0).
  destruct (decide (attached_as a (v_lease v0))) as [At|Na]; [rewrite bool_decide_eq_true_2 by done|rewrite bool_decide_eq_false_2 by done]; cbn [negb].
  2: { eexists _, _. split; [done|]. split; [by apply moves_refl|done]. }
  unfold mbind at 1, Crit_bind at 1. rewrite (set_lease_eq st1 r _ _ L0). eexists _, _. split; [done|]. split.
  { apply stream_move; [done|done|]. destruct At as (_ & _ & _ & _ & _ & _ & [-> | ->]); [right; by left|by left]. }
  clear At. cbn [negb]. apply safe_body. intros st3 _ W3 R3. destruct (sees_some r st3 W3 Lt) as [v S]. specialize (R3 v S).
  assert (l_active (v_lease v) = true -> l_receiver (v_lease v) = r) as Er by (intros A; by destruct (wf_named _ W3 r _ (sees_lease _ _ _ S) A)).
  eapply body_at; [done|exact S|]. eapply crit_then; [apply crit_lease|].
  destruct (decide (attached_as a (v_lease v))) as [At|Na]; [rewrite bool_decide_eq_true_2 by done|rewrite bool_decide_eq_false_2 by done]; cbn [negb];
    apply crit_ret; [|by apply hoare_ret].
  pose proof At as (Ac & _ & _ & _ & _ & _ & Sa). destruct (streaming_facts v R3 Ac) as (P & O & L & T); [by destruct Sa; auto|].
  eapply hoare_bind; [apply (hoare_stop_parts r v (v_lease v) (fun x w => (clean x.1 = false -> l_stream_maybe_attached (v_lease v) = true) /\
    (disconnected x.1 = true -> disconnected x.2 = true) /\ w = see_phys v (stopped_phys (detached_phys (v_phys v) x.1) x.2))); try done; by apply Er|].
  intros [d s] w (Md & Ds & ->). cbn [fst snd].
  eapply (hoare_bind r _ _ _ (fun _ w => rests w)); [by apply detach_finish|]. intros _ w X. by apply hoare_ret.
Qed.

(** ** Attaching *)

Lemma crit_attachment_id n r v :
  crit_ok r v (attachment_id_attempts n r) (fun a w => match a with
    | failure _ => w = v
    | success id => id <> 0 /\ w = see_reserved_attachment v id true end).
Proof.
  revert v. induction n as [|n IH]; intros v; [by apply crit_ret|]. cbn [attachment_id_attempts].
  apply (crit_bind r v next_attachment_id _ (fun _ w => w = v)).
  { unfold next_attachment_id. destruct attachment_id_source_; [by apply (crit_free r v NextAttachmentId)|].
    intros st W S. eexists _, _, v. split; [done|]. split; [by apply counter_move|]. split; [by destruct S|done]. }
  intros [id|e] w ->; [|by apply crit_ret]. destruct (Z.eqb_spec id 0) as [->|N0]; [by apply crit_ret|].
  apply crit_service. intros st W S. pose proof (sees_bound _ _ _ W S) as Lt.
  destruct (_ && _) eqn:New; [|by apply IH]. apply andb_true_iff in New as [New _]. apply Z.ltb_lt in New.
  eexists _, _, (see_reserved_attachment v id true). unfold mbind, Crit_bind, reserve_attachment_id, mbind, Crit_bind. cbn.
  rewrite store_some by (rewrite (wf_reserved_attachments _ W); done). cbn. split; [done|].
  split; [by apply (reserve_attachment_move r st id)|]. split; [|done].
  destruct S as [A B C D E F]. split; try done; cbn.
  - apply list_lookup_insert_eq. rewrite (wf_reserved_attachments _ W). done.
  - intros _. split; [done|]. intros I. pose proof (proj1 (Forall_forall _ _) (wf_used _ W) id I). cbn in *. lia.
Qed.

(** The receiver while a stream is attached to it. *)
Record attaching (r : nat) (v : View) (l : Lease) (id : Z) : Prop := {
  attaching_lease : v_lease v = l;
  attaching_active : l_active l = true /\ l_stream_state l = SS_attaching /\ l_receiver l = r;
  attaching_flags : l_capture_maybe_active l = false /\ l_stream_maybe_attached l = false /\ l_backend_disconnected l = false;
  attaching_state : v_state v = RS_leased \/ v_state v = RS_tuned \/ v_state v = RS_streaming \/ v_state v = RS_error;
  attaching_reserved : v_reserved_lease v = 0 /\ v_reserved_attachment v = id;
  attaching_power : opened (v_phys v) = true /\ tuning (v_phys v) = false;
}.

Lemma attaching_phys r v l id p : attaching r v l id -> opened p = true -> tuning p = false -> attaching r (see_phys v p) l id.
Proof. by intros [A B C D E F] O T. Qed.

Lemma crit_settle_attach r v l id aid (cap att disc : bool) state w :
  attaching r v l id -> near v w ->
  (capturing (v_phys v) = true -> cap = true) -> attached (v_phys v) = (if att then Some aid else None) -> (att = true -> stream_control_ = true) ->
  (lost (v_phys v) = true -> disc = true) ->
  match state with
  | None => cap = false /\ att = false /\ disc = false
  | Some x => (disc = true -> x = RS_error) /\ (x = RS_tuned \/ x = RS_error) /\ (x = RS_error \/ (cap = false /\ att = false))
  end ->
  crit_ok r w (settle_attach r l (fun l => with_capture l SS_consumed aid cap att disc) state) (fun _ w' => rests w').
Proof.
  intros [<- [Ac [Sa Er]] F St [U1 U2] [O T]] (ss & t & ->)%near_lease C At Pl Lo Sx. unfold settle_attach.
  eapply crit_then; [apply crit_unreserve_attachment|]. apply crit_find; [done..|].
  eapply crit_then; [by apply crit_update_lease|]. destruct state as [x|].
  - eapply crit_mono; [|apply crit_set_state]. intros [] w' [_ ->]. destruct Sx as (D & X & Y).
    apply (consumed_rests (see_reserved_attachment v 0 false) (with_stream (v_lease v) ss t)); try done. destruct X as [->| ->]; auto.
  - destruct Sx as (-> & -> & ->). apply crit_ret.
    apply (consumed_rests (see_reserved_attachment v 0 false) (with_stream (v_lease v) ss t)); try done; auto.
Qed.

(** After a capture that has begun; [data] tells whether the data plane was asked. *)
Definition started_phys (p : Phys) (started : Result unit) : Phys := {|
  opened := opened p; capturing := capturing p || negb (disconnected started); attached := attached p;
  lost := lost p || disconnected started; tuning := tuning p |}.

Lemma attach_failed_ok r v l id (started attached_ : Result unit) :
  attaching r v l id ->
  lost (v_phys v) = disconnected started || disconnected attached_ ->
  capturing (v_phys v) = negb (disconnected started) ->
  attached (v_phys v) = (if is_success started && stream_control_ then Some id else None) ->
  (is_success started = false -> disconnected attached_ = false) ->
  hoare r v (attach_failed r l id started attached_) (fun _ w => rests w).
Proof.
  intros A Lo Ca At Na. pose proof A as [El [Ac [Sa Er]] F St [U1 U2] [O T]]. unfold attach_failed.
  (* The data plane is detached. *)
  apply (hoare_bind r _ _ _ (fun (x : bool * bool) w => exists p, w = see_phys v p /\ opened p = true /\ tuning p = false /\
    capturing p = negb (disconnected started) /\ attached p = (if x.1 then Some id else None) /\ (x.1 = true -> stream_control_ = true) /\ lost p = x.2 /\
    (is_success started = false -> x.2 = disconnected started))).
  { destruct (is_success started && stream_control_) eqn:G.
    - apply hoare_map. apply hoare_detach; [done|by rewrite At|]. intros d. eexists. split; [done|]. cbn. repeat (split; [done|]).
      rewrite At, Lo. cbn. apply andb_true_iff in G as [G1 G]. rewrite G1. by destruct (clean d).
    - apply hoare_ret. exists (v_phys v). split; [by destruct v|]. cbn. rewrite At, Lo. repeat (split; [done|]). intros X. by rewrite (Na X), orb_false_r. }
  intros [att lost1] w (p & -> & Op & Tp & Cp & Ap & Pl & Lp & Ls). cbn [fst snd] in *.
  (* The capture is stopped. *)
  apply (hoare_bind r _ _ _ (fun (x : bool * bool) w => exists p, w = see_phys v p /\ opened p = true /\ tuning p = false /\
    (capturing p = true -> x.1 = true) /\ attached p = (if att then Some id else None) /\ lost p = x.2)).
  { destruct lost1; cbn [negb].
    - apply hoare_ret. exists p. cbn. repeat (split; [done|]). split; [|done]. rewrite Cp. intros X. destruct (is_success started); [done|]. by rewrite <- Ls in X.
    - apply hoare_map. apply hoare_stop; cbn; [done|done|done|]. intros s. eexists. split; [done|]. cbn. repeat (split; [done|]).
      split; [|by rewrite Lp]. intros X%andb_true_iff. by destruct X. }
  intros [cap disc] w (p2 & -> & Op2 & Tp2 & Cp2 & Ap2 & Lp2). cbn [fst snd] in *.
  eapply (hoare_bind r _ _ _ (fun _ w => rests w)); [|intros _ w X; by apply hoare_ret]. apply hoare_crit. intros w N.
  eapply (crit_settle_attach r (see_phys v p2) l id); [by apply attaching_phys|done|done|cbn; rewrite Ap2; by destruct att|done|cbn; by rewrite Lp2|].
  destruct (cap || att || disc) eqn:G; [auto|]. apply orb_false_iff in G as [G ?]. by apply orb_false_iff in G as [? ?].
Qed.

Lemma attach_revoked_ok r v l id :
  attaching r v l id -> lost (v_phys v) = false -> capturing (v_phys v) = true ->
  attached (v_phys v) = (if stream_control_ then Some id else None) ->
  hoare r v (attach_revoked r l id stream_control_) (fun _ w => rests w).
Proof.
  intros A Lo Ca At. pose proof A as [El [Ac [Sa Er]] F St [U1 U2] [O T]]. unfold attach_revoked. cbv zeta.
  apply (hoare_bind r _ _ _ (fun d w => (clean d = false -> stream_control_ = true) /\ w = see_phys v (detached_phys (v_phys v) d))).
  { rewrite andb_diag. destruct stream_control_ eqn:Sc.
    - apply hoare_detach; [done|by rewrite At|]. by intros d.
    - apply hoare_observed, hoare_ret. split; [done|]. symmetry. apply see_same. unfold detached_phys. cbn.
      rewrite orb_false_r. rewrite <- At. by destruct (v_phys v). }
  intros d w [Sc ->].
  apply (hoare_bind r _ _ _ (fun s w => (disconnected d = true -> disconnected s = true) /\ w = see_phys v (stopped_phys (detached_phys (v_phys v) d) s))).
  { destruct (disconnected d) eqn:D; cbn [negb].
    - apply hoare_ret. split; [done|]. unfold stopped_phys, detached_phys. cbn. by rewrite D, orb_true_r, andb_true_r.
    - apply hoare_stop; cbn; [done|by rewrite Lo, D|done|]. by intros s. }
  intros s w [Ds ->]. eapply (hoare_bind r _ _ _ (fun _ w => rests w)); [|intros _ w X; by apply hoare_ret]. apply hoare_crit. intros w N.
  eapply (crit_settle_attach r (see_phys v (stopped_phys (detached_phys (v_phys v) d) s)) l id); [by apply attaching_phys|done|..]; cbn.
  - intros X%andb_true_iff. by destruct X.
  - destruct (clean d) eqn:Cd; cbn; [done|]. by rewrite At, Sc.
  - intros X%negb_true_iff. by apply Sc.
  - rewrite Lo. cbn. intros X%orb_true_iff. destruct X as [X|X]; [by apply Ds|done].
  - split; [intros X; by rewrite (success_not_disconnected s X)|]. rewrite negb_involutive.
    destruct (is_success s), (clean d); cbn; auto.
Qed.
Lemma attach_started_ok r v l id :
  attaching r v l id -> lost (v_phys v) = false -> capturing (v_phys v) = true ->
  attached (v_phys v) = (if stream_control_ then Some id else None) ->
  hoare r v (attach_started r l id stream_control_) (fun _ w => rests w).
Proof.
  intros A Lo Ca At. pose proof A as [El [Ac [Sa Er]] [F1 [F2 F3]] St [U1 U2] [O T]]. unfold attach_started.
  apply (hoare_bind r _ _ _ (fun (accepted : bool) w => if accepted then
    rests (see_reserved_attachment w 0 false) else w = v)).
  { apply hoare_look. intros w (ss & t & ->)%near_lease. rewrite <- El in Ac |- *. apply crit_find; [done..|].
    eapply crit_then; [apply crit_lease|]. cbn. case_bool_decide as E; [|apply crit_ret; by left].
    eapply crit_then; [by apply crit_set_lease|]. eapply crit_then; [apply crit_set_state|]. apply crit_ret. right.
    split; [done|done|]. cbn. rewrite Ac. split; cbn; rewrite ?Lo, ?El, ?F3; try done; [auto|by intros [?|?]]. }
  intros [] w Hw.
  - apply hoare_crit. intros w' (ss & t & M & ->). eapply crit_then; [apply crit_unreserve_attachment|].
    eapply crit_then; [apply crit_lease|]. apply crit_ret.
    apply (rests_near (see_reserved_attachment w 0 false)); [done|]. by exists ss, t.
  - subst w. by apply attach_revoked_ok.
Qed.

(** The search of ATTACH finds the lease that is held. *)
Lemma offered_held r (st : State) l id nonce :
  wf st -> leases_ st.1 !! r = Some l -> offered id nonce l -> find_offered id nonce st.1 = Some r.
Proof.
  intros W L (Ac & Ei & En). unfold find_offered. destruct (list_find _ _) as [[i x]|] eqn:F.
  - apply list_find_Some in F as (Ex & (Ax & Eid & _) & _). cbn. f_equal. apply (wf_distinct _ W i r x l); congruence.
  - apply list_find_None in F. by destruct (proj1 (Forall_lookup _ _) F r l L).
Qed.
Lemma offered_sound (st : State) id nonce i : find_offered id nonce st.1 = Some i ->
  exists l, leases_ st.1 !! i = Some l /\ offered id nonce l.
Proof.
  unfold find_offered. destruct (list_find _ _) as [[j x]|] eqn:F; [|done]. intros [= <-].
  apply list_find_Some in F as (Ex & Of & _). by exists x.
Qed.

Lemma crit_offered {A} m v id nonce (no : Crit State A) (yes : nat -> Crit State A) (Q : A -> View -> Prop) :
  offered id nonce (v_lease v) -> crit_ok m v (yes m) Q ->
  crit_ok m v (s ← service; match find_offered id nonce s with None => no | Some i => yes i end) Q.
Proof.
  intros Of Y. apply crit_service. intros st W S. rewrite (offered_held m st _ id nonce W (sees_lease _ _ _ S) Of). by apply Y.
Qed.

(** What holds of a lease that ATTACH takes. *)
Lemma taken_attaching r v id : rests v -> l_active (v_lease v) = true -> l_receiver (v_lease v) = r -> l_stream_state (v_lease v) = SS_armed ->
  let v1 := see_lease (see_reserved_attachment v id true) (with_stream_state (v_lease v) SS_attaching) in
  attaching r v1 (v_lease v1) id /\ lost (v_phys v1) = false /\ capturing (v_phys v1) = false /\ attached (v_phys v1) = None.
Proof.
  intros R Ac Er Sa. pose proof (resting_lease v R Ac) as [C1 C2 C3 C4 C5 C6 C7 C8 C9 C10]. pose proof R as [T [U1 U2] _].
  destruct C9 as [F1 F2]; [auto|]. assert (l_backend_disconnected (v_lease v) = false) as F3.
  { destruct (l_backend_disconnected (v_lease v)); [|done]. destruct C7; [done|congruence]. }
  cbn. split; [by split|]. rewrite F1 in C3. rewrite F2 in C4. rewrite F3 in C6. split; [|split; [|done]].
  - destruct (lost (v_phys v)); [by specialize (C6 eq_refl)|done].
  - destruct (capturing (v_phys v)); [by specialize (C3 eq_refl)|done].
Qed.

Lemma attach_body_ok r v l id : attaching r v l id -> v_unused v = true ->
  lost (v_phys v) = false -> capturing (v_phys v) = false -> attached (v_phys v) = None ->
  hoare r v (
    started ← observed r (perform (StartCapture r (l_system l)));
    attached ← (if is_success started && stream_control_
                then observed r (perform (AttachStream (attachment_of l id)))
                else mret (success tt));
    if negb (is_success started) || negb (is_success attached)
    then attach_failed r l id started attached
    else attach_started r l id stream_control_) (fun _ w => rests w).
Proof.
  intros A Un Lo Ca At. pose proof A as [El [Ac [Sa Er]] F St [U1 U2] [O T]].
  eapply hoare_bind; [apply hoare_observed, (hoare_call r v (StartCapture r (l_system l)) (fun a w => w = see_phys v (started_phys (v_phys v) a)));
    [done|cbn; by rewrite O, T, Lo, Ca, At|done]|].
  intros started w ->. set (v1 := see_phys v _). assert (attaching r v1 l id) as A1 by by apply attaching_phys.
  apply (hoare_bind r v1 _ _ (fun (at_ : Result unit) w => attaching r w l id /\ lost (v_phys w) = disconnected started || disconnected at_ /\
    capturing (v_phys w) = negb (disconnected started) /\ attached (v_phys w) = (if is_success started && stream_control_ then Some id else None) /\
    (is_success started = false -> disconnected at_ = false))).
  { destruct (is_success started && stream_control_) eqn:G.
    - apply andb_true_iff in G as [Su Sc]. assert (disconnected started = false) as D by by destruct started.
      apply hoare_observed, (hoare_call r v1 (AttachStream _)); [by cbn; rewrite Er|cbn; by rewrite Ca, Lo, D, At, Un, U2, Z.eqb_refl|].
      intros a. split; [by destruct A1|]. cbn. rewrite Lo, Ca, D, Su. by rewrite orb_false_r.
    - apply hoare_ret. split; [done|]. cbn. rewrite Lo, Ca, At. by rewrite orb_false_r. }
  intros at_ w (A2 & L2 & C2 & T2 & N2). destruct (negb (is_success started) || negb (is_success at_)) eqn:G; [by apply attach_failed_ok|].
  apply orb_false_iff in G as [G1 G2]. apply negb_false_iff in G1, G2. destruct started, at_; try done. by apply attach_started_ok.
Qed.

Lemma attach_safe id nonce st : safe (attach_stream id nonce) None st released.
Proof.
  unfold attach_stream. destruct (_ =? _); [done|]. apply safe_atomic. intros st1 _ W. unfold mbind at 1, Crit_bind at 1. cbn [service].
  destruct (find_offered id nonce st1.1) as [i|] eqn:F1; [|eexists _, _; split; [done|]; split; [by apply moves_refl|done]].
  destruct (offered_sound _ _ _ _ F1) as (l & L & Ac & Ei & En). destruct (found_home st1 i l W L Ac) as [Er Hm]. rewrite Ei in Hm.
  assert (i < kMaxReceivers)%nat as Lt by (rewrite <- (wf_leases _ W); by eapply lookup_lt_Some).
  exists (Some i), st1. split; [unfold mbind, Crit_bind; by rewrite (lease_at_eq st1 i l L), Er|]. split; [by apply moves_refl|].
  clear F1 Ei En L Er. rename i into r. apply safe_body. intros st2 G W2 R. destruct (sees_some r st2 W2 Lt) as [v S]. specialize (R v S).
  destruct (find_offered id nonce st2.1) as [j|] eqn:F2.
  2: { eexists _, st2. split; [unfold mbind, Crit_bind; cbn; by rewrite F2|]. split; [by apply moves_refl|].
       eapply hoare_safe; [done|exact S|]. by apply hoare_ret. }
  destruct (offered_sound _ _ _ _ F2) as (l' & L' & Of). pose proof Of as (Av & Ei' & _). destruct (grows_home _ _ _ _ G Hm) as (_ & X & _).
  assert (j = r) as -> by (by apply (X j l')). pose proof (sees_lease _ _ _ S) as L2. rewrite L' in L2. injection L2 as ->.
  destruct (wf_named _ W2 r _ L' Av) as (Er & _). eapply body_at; [done|exact S|].
  apply crit_offered; [done|].
  eapply crit_then; [apply crit_lease|].   destruct (bool_decide _) eqn:D; [apply crit_ret; by apply hoare_ret|]. apply bool_decide_eq_false in D.
  assert (l_stream_state (v_lease v) = SS_armed) as Sa by (destruct (l_stream_state (v_lease v)); try done; destruct D; by right).
  eapply crit_bind; [apply crit_time|]. intros now w ->.
  destruct (_ <=? _).
  { eapply crit_then; [by apply crit_update_lease|]. apply crit_ret. apply hoare_ret.
    pose proof (resting_lease v R Av) as [C1 C2 C3 C4 C5 C6 C7 C8 C9 C10]. pose proof R as [T U _]. destruct C9 as [F1 F2']; [auto|].
    split; [done|done|]. cbn. rewrite Av. split; cbn; try done; auto.
    intros Dc. destruct (C7 Dc) as [? ?]. congruence. }
  eapply crit_bind; [apply crit_attachment_id|]. intros [aid|e] w; [intros [Na ->]|intros ->; apply crit_ret; by apply hoare_ret].
  eapply crit_then; [by apply crit_update_lease|]. eapply crit_then; [apply crit_lease|]. apply crit_ret.
  destruct (taken_attaching r v aid R Av Er Sa) as (A1 & A2 & A3 & A4). by apply attach_body_ok.
Qed.
End Streams.
