(* ===== verification/TunerTheorems.v ===== *)
(** The theorems on the tuner service, for any number of threads in it and every
    order of their steps; surroundings to try it on; and what can happen between
    two critical sections of one operation. *)

From S2P Require Import Prelude Threads IpcTypes TunerService TunerProtocol TunerRules TunerSafety.

Open Scope Z_scope.

Section Theorems.
Context `{TunerEnvironment} `{!Surroundings} `{!FreshLeaseIds}.

(** A process that only runs operations of one service, from its construction on. *)
Definition service_program (p : Prog State unit) : Prop := exists o, p = run_op o.
Definition serves (next_lease next_attachment : Z) (c : Process State) : Prop :=
  reachable service_program (TunerService_init next_lease next_attachment, []) c.

Lemma void_safe {A} (p : Prog State A) st : safe p None st released -> safe (void p) None st ends.
Proof. intros P. apply safe_bind. eapply safe_mono; [|exact P]. by intros a h s ->. Qed.

Lemma op_safe o st : safe (run_op o) None st ends.
Proof.
  destruct o; cbn [run_op]; apply void_safe.
  - apply acquire_safe.
  - apply release_safe.
  - apply tune_safe.
  - apply start_safe.
  - apply attach_safe.
  - apply stop_safe.
  - apply stats_safe.
  - apply detach_safe.
  - apply revoke_safe.
  - apply revoke_with_nonce_safe.
  - apply status_safe.
  - apply cleanup_safe.
  - apply shutdown_safe.
Qed.

Lemma init_leases i l nl na : leases_ (TunerService_init nl na) !! i = Some l -> l = empty_lease.
Proof. intros E. cbn [TunerService_init leases_] in E. by apply list_elem_of_lookup_2, list_elem_of_In, repeat_spec in E. Qed.
Lemma init_reserved i id nl na : reserved_lease_ids_ (TunerService_init nl na) !! i = Some id -> id = 0.
Proof. intros E. cbn [TunerService_init reserved_lease_ids_] in E. by apply list_elem_of_lookup_2, list_elem_of_In, repeat_spec in E. Qed.
Lemma init_attachments i id nl na : reserved_attachment_ids_ (TunerService_init nl na) !! i = Some id -> id = 0.
Proof. intros E. cbn [TunerService_init reserved_attachment_ids_] in E. by apply list_elem_of_lookup_2, list_elem_of_In, repeat_spec in E. Qed.

Lemma init_wf nl na : wf (TunerService_init nl na, []).
Proof.
  split; try reflexivity.
  - cbn [fst]. intros i l E%init_leases. by subst.
  - cbn [fst]. intros i j l l' E%init_leases. by subst.
  - cbn [fst]. intros i id E%init_reserved. by subst.
  - constructor.
  - cbn [fst]. intros i id E%init_attachments. by subst.
Qed.

Lemma init_resting nl na m : resting m (TunerService_init nl na, []).
Proof.
  intros v [A B C D E _]. cbn [fst snd] in *. apply init_leases in A. apply init_reserved in D. apply init_attachments in E.
  cbn in C. split; rewrite <- ?C; [done|done|]. rewrite A. cbn. split; [done| |by right].
  cbn [TunerService_init states_] in B. rewrite list_lookup_fmap in B. destruct (seq _ _ !! m); [|done]. injection B as <-.
  destruct (_ <? _); auto.
Qed.

Lemma serves_safe nl na c : serves nl na c -> safe_process c.
Proof.
  apply reachable_safe; [apply init_wf|intros; apply init_resting|]. intros p s [o ->]. apply op_safe.
Qed.

(** What is known of a receiver that no operation works on. *)
Lemma serves_rests nl na c m l : serves nl na c -> unheld m c.2 -> leases_ c.1.1 !! m = Some l ->
  exists v, sees m c.1 v /\ rests v /\ v_lease v = l.
Proof.
  intros R U L. pose proof (serves_safe nl na c R) as Sp. pose proof (process_inv _ Sp) as W.
  destruct (sees_some m c.1 W) as [v S]; [rewrite <- (wf_leases _ W); by eapply lookup_lt_Some|].
  exists v. split; [done|]. split; [by apply (process_idle _ Sp m U)|]. pose proof (sees_lease _ _ _ S). congruence.
Qed.




End Theorems.

(** * Surroundings to try the service on *)

(** Four receivers, everything succeeds, and each call takes a millisecond; only
    one frequency cannot be tuned. *)
#[local] Instance sim_environment : TunerEnvironment := {|
  receiver_count := 4;
  receiver_supports := fun r sys => if (r <? 2)%nat then eqb sys ISDB_T else eqb sys ISDB_S;
  selects_satellite_stream_before_tune := false;
  requires_terrestrial_lock_settle := true;
  lease_id_source_ := true;
  attachment_id_source_ := false;
  stream_control_ := true;
  TunerStreamFinalSnapshot := unit;
  no_snapshot := tt;
  snapshot_disconnected := fun _ => false;
  TunerStreamCounters := unit;
|}.
#[local] Instance sim_surroundings : Surroundings := fun h q =>
  match q as q return answer_type q with
  | NextLeaseId => success (1 + foldr Z.max 0 (issued h))
  | NextAttachmentId => failure UNSUPPORTED
  | GenerateNonce => success (repeat 7 16)
  | MonotonicMs => Z.of_nat (length h)
  | IsLocked _ _ => success true
  | TuneTerrestrial _ f _ => if f =? 666000 then failure USB_IO else success tt
  | FinalSnapshot _ | StreamStats _ => success tt
  | MarkReceiverDisconnected _ | SleepMs _ => tt
  | OpenReceiver _ | CloseReceiver _ | StartCapture _ _ | StopCapture _ _ | BeginTunePower _ _ _ | CommitTunePower _
  | RollbackTunePower _ | TuneSatellite _ _ _ | SelectSatelliteSlot _ _ _ | SelectSatelliteTsid _ _ _
  | ShutdownBackend | AttachStream _ | DetachStream _ => success tt
  end.

Lemma below_max l x : x ∈ l -> x <= foldr Z.max 0 l.
Proof. induction 1; cbn; lia. Qed.
#[local] Instance sim_fresh : FreshLeaseIds.
Proof. split; [done|]. intros h id [= <-] I%below_max. lia. Qed.

Definition start : Process State := ((TunerService_init 1 1, []), []).
(** Each operation in a thread of its own, one after the other. *)
Definition and_then (c : Process State) (o : TunerOp) : Process State :=
  advance_thread 200 (length c.2) (c.1, c.2 ++ [(None, run_op o)]).
Definition one_by_one : list TunerOp -> Process State -> Process State := fun ops c => foldl and_then c ops.

Lemma spawn_serves nl na c o : serves nl na c -> serves nl na (c.1, c.2 ++ [(None, run_op o)]).
Proof. destruct c as [s ts]. intros R. apply reachable_spawn; [done|by exists o]. Qed.
Lemma and_then_serves nl na c o : serves nl na c -> serves nl na (and_then c o).
Proof. intros R. by apply advance_reachable, spawn_serves. Qed.
Lemma one_by_one_serves nl na ops c : serves nl na c -> serves nl na (one_by_one ops c).
Proof. revert c. induction ops as [|o ops IH]; intros c R; [done|]. by apply IH, and_then_serves. Qed.
Lemma start_serves : serves 1 1 start.
Proof. constructor. Qed.

Definition channel (f : Z) : TuneRequestPayload := {|
  tune_lease_id := 1; tune_system := ISDB_T; frequency_khz := f; stream_id := 0xffff; slot := 0xffff;
  bandwidth_hz := 6000000; lnb_voltage := 0; timeout_ms := 3000 |}.
Definition streaming : list TunerOp :=
  [OpAcquire 5 0; OpTune 5 (channel 473000); OpStart 5 1; OpAttach 1 (repeat 7 16)].
Definition session : list TunerOp := streaming ++ [OpStats 5 1; OpStop 5 1; OpAcquire 6 0; OpRelease 5 1].




(** Two clients that want the same receiver, in the middle of it. *)
Definition contended : Process State :=
  advance_thread 3 1 (advance_thread 3 0 (start.1, [(None, run_op (OpAcquire 5 0)); (None, run_op (OpAcquire 6 0))])).
Lemma contended_serves : serves 1 1 contended.
Proof. do 2 apply advance_reachable. apply (spawn_serves 1 1 (start.1, [(None, run_op (OpAcquire 5 0))])), (spawn_serves 1 1 start), start_serves. Qed.


(** * Between two critical sections *)

(** Whether the latest power transaction of a receiver was committed. *)
Fixpoint tuned_in (r : nat) (h : History) : bool :=
  match h with
  | [] => false
  | Called (CommitTunePower m) a :: h => if (m =? r)%nat then is_success a else tuned_in r h
  | Called (BeginTunePower m _ _) _ :: h => if (m =? r)%nat then false else tuned_in r h
  | _ :: h => tuned_in r h
  end.

(** TUNE copies the lease and marks the receiver in two critical sections.  A
    START_STREAM of the same lease between them arms a stream that survives the
    tune; when the tune then fails, ATTACH begins a capture on a receiver that is
    not tuned.  The service leaves it to its callers that a client has one request
    at a time. *)
Theorem start_between_sections_of_tune :
  exists c h, serves 1 1 c /\ finished c /\ c.1.2 = Called (AttachStream (attachment_of (granted empty_lease 5 1 0 ISDB_T (repeat 7 16)) 1)) (success tt)
      :: Called (StartCapture 0 ISDB_T) (success tt) :: h /\ tuned_in 0 h = false.
Proof.
  set (tuned := one_by_one [OpAcquire 5 0; OpTune 5 (channel 473000)] start).
  set (copied := advance_thread 3 2 (tuned.1, tuned.2 ++ [(None, run_op (OpTune 5 (channel 666000)))])).
  set (armed := and_then copied (OpStart 5 1)).
  set (failed := advance_thread 200 2 armed).
  set (c := and_then failed (OpAttach 1 (repeat 7 16))).
  exists c, (drop 2 c.1.2). split; [|split; [|split]].
  - apply and_then_serves, advance_reachable, and_then_serves, advance_reachable, spawn_serves, one_by_one_serves, start_serves.
  - assert (forallb (fun t : Thread State => bool_decide (t.1 = None) && ended t.2) c.2 = true) as F by (vm_compute; reflexivity).
    apply Forall_forall. intros [h p] It. rewrite forallb_forall in F. specialize (F _ (proj1 (list_elem_of_In _ _) It)).
    apply andb_true_iff in F as [F1 F2]. apply bool_decide_eq_true in F1. split; [done|]. destruct p as [a| | |]; try done. by exists a.
  - vm_compute. reflexivity.
  - vm_compute. reflexivity.
Qed.
