(* ===== verification/StreamSession.v ===== *)
(** The sessions of the stream data plane ([Session] in [src/q3u4_stream.cpp]):
    the ring of packets of one receiver, the gate that holds a stream back while
    its start settles, the counters, and the attachment the session belongs to.
    Every definition here is what the code does in one section of the mutex of the
    session; [StreamPlane] composes them. *)

From coqutil Require Import Datatypes.RecordSetters.
From S2P Require Import Prelude IpcTypes TsContinuity.
From S2P Require TunerService.

Import DoubleBraceUpdate.
Import TunerService(TunerAttachment, a_owner_client_id, a_lease_id, a_attachment_id, a_receiver, a_system, a_nonce).
Open Scope Z_scope.

(** * Data *)

(** [TunerStreamCounters] is declared in dtv-userland-core; the sources start one
    from [{}] and nothing here reads [availability]. *)
Record StreamCounters := mkStreamCounters {
  n_packets : Z;
  n_bytes : Z;
  n_continuity_errors : Z;
  n_sync_errors : Z;
  n_tei_packets : Z;
  n_usb_errors : Z;
  n_queue_drops : Z;
  n_empty_intervals : Z;
  n_availability : list MeasureState;
}.
Definition zero_counters : StreamCounters := mkStreamCounters 0 0 0 0 0 0 0 0 default_availability.

Inductive StreamTerminal :=
  | ST_none | ST_stopped | ST_slow_consumer | ST_usb_error | ST_disconnected | ST_sync_error | ST_bridge_fatal.
#[export] Instance StreamTerminal_eq_dec : EqDecision StreamTerminal.
Proof. solve_decision. Defined.

Record TunerStreamFinalSnapshot := { snap_counters : StreamCounters; snap_terminal : StreamTerminal }.
Record StreamReadResult := mkRead { rr_size : Z; rr_end : bool; rr_timeout : bool; rr_terminal : StreamTerminal }.

Record StartupStabilizationPolicy := {
  minimum_packets : Z;
  clean_packets : Z;
  maximum_packets : Z;
}.
Definition default_policy : StartupStabilizationPolicy := {| minimum_packets := 16384; clean_packets := 4096; maximum_packets := 131072 |}.
Definition enabled (p : StartupStabilizationPolicy) : bool :=
  negb (minimum_packets p =? 0) || negb (clean_packets p =? 0) || negb (maximum_packets p =? 0).

Inductive ContinuityObservation := boundary | clean | fault.
#[export] Instance ContinuityObservation_eq_dec : EqDecision ContinuityObservation.
Proof. solve_decision. Defined.

Record StartupContinuity := { sc_seen : bool; sc_established : bool; sc_counter : Z }.
Definition no_continuity : StartupContinuity := {| sc_seen := false; sc_established := false; sc_counter := 0 |}.

(** [Session], with the ring, the identities and the start as records of their own. *)
Record Ring := mkRing { packets : option (list Z); capacity : Z; head : Z; count : Z }.
Record Startup := {
  stabilizing : bool;
  stabilization_ready : bool;
  stabilization_boundary_established : bool;
  startup_budget_fallback : bool;
  startup_continuity_established : bool;
  startup_packets : Z;
  startup_clean_packets : Z;
  startup_faults : StreamCounters;
}.
Record Session := {
  ring : Ring;
  attached : bool;
  draining : bool;
  identity : TunerAttachment;
  final_snapshot_valid : bool;
  final_identity : TunerAttachment;
  final_snapshot : TunerStreamFinalSnapshot;
  terminal : StreamTerminal;
  counters : StreamCounters;
  continuity_checker : Checker;
  continuity : list StartupContinuity;
  startup : Startup;
}.

(** [TunerAttachment{}]; the flags of a session keep it from being compared. *)
Definition no_attachment : TunerAttachment := {|
  a_owner_client_id := 0; a_lease_id := 0; a_attachment_id := 0;
  a_receiver := 0; a_system := System_other 0; a_nonce := [] |}.
Definition fresh_startup (stabilize : bool) : Startup := {|
  stabilizing := stabilize; stabilization_ready := false; stabilization_boundary_established := false;
  startup_budget_fallback := false; startup_continuity_established := false; startup_packets := 0;
  startup_clean_packets := 0; startup_faults := zero_counters |}.
Definition no_startup_continuity : list StartupContinuity := replicate (Z.to_nat kPidCount) no_continuity.
Definition no_snapshot : TunerStreamFinalSnapshot := {| snap_counters := zero_counters; snap_terminal := ST_none |}.
Definition Session_init : Session := {|
  ring := mkRing None 0 0 0; attached := false; draining := false; identity := no_attachment; final_snapshot_valid := false;
  final_identity := no_attachment; final_snapshot := no_snapshot; terminal := ST_none; counters := zero_counters;
  continuity_checker := init_checker; continuity := no_startup_continuity; startup := fresh_startup true |}.

Definition same_attachment (l r : TunerAttachment) : bool :=
  (a_owner_client_id l =? a_owner_client_id r)
  && (a_lease_id l =? a_lease_id r)
  && (a_attachment_id l =? a_attachment_id r)
  && (a_receiver l =? a_receiver r)%nat
  && bool_decide (a_system l = a_system r)
  && bytes_eqb (a_nonce l) (a_nonce r).

Definition kMaxReadBytes : Z := 1048576 / kPacketSize * kPacketSize.

(** [++x] of a 64-bit counter, or of a [std::size_t]. *)
Definition inc (x : Z) : Z := cast_u64 (x + 1).

(** * The gate of a starting stream *)

Definition observe_continuity (s : Session) (p : list Z) : ContinuityObservation * Session :=
  let '(observation, checker) := observe (continuity_checker s) (View p) in
  let s := s{{ continuity_checker := checker }} in
  if bool_decide (res_kind observation = null_packet) || bool_decide (res_kind observation = transport_error)
     || bool_decide (res_kind observation = invalid_packet) then (clean, s)
  else
  let index := Z.to_nat (res_pid observation) in
  let state := default no_continuity (continuity s !! index) in
  let counter := res_counter observation in
  if res_discontinuity observation then
    (clean, s{{ continuity ::= <[index := {| sc_seen := true; sc_established := true; sc_counter := counter |}]>;
                startup -> startup_continuity_established := true }})
  else if sc_established state then
    ((if bool_decide (res_kind observation = error) then fault else clean), s)
  else if negb (res_has_payload observation) then (clean, s)
  else if negb (sc_seen state) then
    (boundary, s{{ continuity ::= <[index := {| sc_seen := true; sc_established := sc_established state; sc_counter := counter |}]> }})
  else
    let expected := cast_u8 (Z.land (sc_counter state + 1) 0x0f) in
    if negb (counter =? expected) then
      (boundary, s{{ continuity ::= <[index := {| sc_seen := sc_seen state; sc_established := sc_established state; sc_counter := counter |}]> }})
    else
      (clean, s{{ continuity ::= <[index := {| sc_seen := sc_seen state; sc_established := true; sc_counter := counter |}]>;
                  startup -> startup_continuity_established := true }}).

Definition publish_session_locked (s : Session) : Session :=
  s{{ startup -> stabilizing := false;
      startup -> stabilization_ready := false;
      startup -> stabilization_boundary_established := true;
      continuity_checker ::= reset;
      continuity := no_startup_continuity }}.

(** The withheld faults are added, then the gate opens for good. *)
Definition fall_back (s : Session) : Session :=
  let f := startup_faults (startup s) in
  publish_session_locked
    (s{{ counters -> n_sync_errors ::= fun x => cast_u64 (x + n_sync_errors f);
         counters -> n_tei_packets ::= fun x => cast_u64 (x + n_tei_packets f);
         counters -> n_continuity_errors ::= fun x => cast_u64 (x + n_continuity_errors f);
         startup -> startup_budget_fallback := true }}).

Definition ready (policy : StartupStabilizationPolicy) (u : Startup) : bool :=
  startup_continuity_established u && (minimum_packets policy <=? startup_packets u)
  && (clean_packets policy <=? startup_clean_packets u).

Definition finish_startup_packet_locked (policy : StartupStabilizationPolicy) (s : Session) : Session :=
  if negb (stabilizing (startup s)) || negb (bool_decide (terminal s = ST_none)) then s
  else
    let r := ready policy (startup s) in
    let s := s{{ startup -> stabilization_ready := r }} in
    if (startup_packets (startup s) <? maximum_packets policy) || r then s else fall_back s.

(** A fault seen while the stream is held back. *)
Definition unsettle (s : Session) : Session :=
  s{{ startup -> startup_clean_packets := 0; startup -> stabilization_ready := false }}.

Definition is_live (s : Session) : bool := attached s && bool_decide (terminal s = ST_none).

(** One round of [promote_ready_sessions]. *)
Definition promote_ready (s : Session) : Session :=
  if negb (attached s) || negb (bool_decide (terminal s = ST_none)) || negb (stabilizing (startup s))
     || negb (stabilization_ready (startup s)) then s
  else publish_session_locked s.

(** * What the pump does to a session *)

Definition count_wire_tei (policy : StartupStabilizationPolicy) (s : Session) : Session :=
  if negb (is_live s) then s
  else
    let s := s{{ continuity_checker ::= observe_untrusted_packet }} in
    if stabilizing (startup s) then
      finish_startup_packet_locked policy (unsettle
        (s{{ startup -> startup_packets ::= inc; startup -> startup_faults -> n_tei_packets ::= inc }}))
    else s{{ counters -> n_tei_packets ::= inc }}.

Definition tei_set (p : list Z) : bool := negb (Z.land (byte_at p 1) 0x80 =? 0).

(** [enqueue] while the stream is held back. *)
Definition enqueue_startup (policy : StartupStabilizationPolicy) (s : Session) (p : list Z) : Session :=
  let s := s{{ startup -> startup_packets ::= inc }} in
  if tei_set p then
    finish_startup_packet_locked policy (unsettle
      (s{{ continuity_checker ::= observe_untrusted_packet; startup -> startup_faults -> n_tei_packets ::= inc }}))
  else
    let '(observation, s) := observe_continuity s p in
    finish_startup_packet_locked policy
      (if bool_decide (observation = fault)
       then unsettle (s{{ startup -> startup_faults -> n_continuity_errors ::= inc }})
       else s{{ startup -> startup_clean_packets ::= inc }}).

(** The copy into the ring; [None] is an access outside of it. *)
Definition ring_push (r : Ring) (p : list Z) : option Ring :=
  tail ← (if capacity r =? 0 then None else Some ((head r + count r) mod capacity r));
  buf ← packets r;
  bytes ← mem_load p 0 kPacketSize;
  buf ← mem_store buf (tail * kPacketSize) bytes;
  Some (mkRing (Some buf) (capacity r) (head r) (count r + 1)).

(** [enqueue] once the gate is open. *)
Definition enqueue_published (s : Session) (p : list Z) : option Session :=
  let s := if tei_set p then s{{ counters -> n_tei_packets ::= inc }} else s in
  let '(observation, s) := observe_continuity s p in
  if bool_decide (observation = boundary) && negb (startup_budget_fallback (startup s)) then Some s
  else
    let s := if bool_decide (observation = fault) then s{{ counters -> n_continuity_errors ::= inc }} else s in
    let s := s{{ counters -> n_packets ::= inc; counters -> n_bytes ::= fun x => cast_u64 (x + kPacketSize) }} in
    if count (ring s) =? capacity (ring s)
    then Some (s{{ counters -> n_queue_drops ::= inc; terminal := ST_slow_consumer }})
    else r ← ring_push (ring s) p; Some (s{{ ring := r }}).

(** [enqueue] always succeeds for the demultiplexer. *)
Definition enqueue (policy : StartupStabilizationPolicy) (s : Session) (p : list Z) : option Session :=
  if negb (is_live s) then Some s
  else if stabilizing (startup s) then Some (enqueue_startup policy s p)
  else enqueue_published s p.

(** One round of the loop of [count_sync_deltas], for [losses] that are not zero. *)
Definition count_sync_losses (losses : Z) (published_before : bool) (s : Session) : Session :=
  if negb (is_live s) then s
  else if stabilizing (startup s) then
    unsettle (s{{ startup -> startup_faults -> n_sync_errors ::= fun x => cast_u64 (x + losses) }})
  else if stabilization_boundary_established (startup s) || published_before then
    s{{ counters -> n_sync_errors ::= fun x => cast_u64 (x + losses) }}
  else s.

Definition count_empty (s : Session) : Session :=
  if is_live s then s{{ counters -> n_empty_intervals ::= inc }} else s.

(** One round of [bridge_has_published_packets]. *)
Definition has_published (s : Session) : bool := attached s && negb (n_packets (counters s) =? 0).

Definition mark_bridge_terminal (reason : StreamTerminal) (s : Session) : Session :=
  if is_live s then
    let s := if bool_decide (reason = ST_usb_error) || bool_decide (reason = ST_disconnected)
             then s{{ counters -> n_usb_errors ::= inc }} else s in
    s{{ terminal := reason }}
  else s.
Definition mark_terminal (reason : StreamTerminal) (s : Session) : Session :=
  if is_live s then s{{ terminal := reason }} else s.

(** * What the owner of the attachment does *)

(** [allocated] is the memory [new] gives, with whatever it holds, or [None]. *)
Definition attach_session (queue_packets : Z) (policy : StartupStabilizationPolicy) (allocated : option (list Z))
    (a : TunerAttachment) (s : Session) : Result unit * Session :=
  if attached s || draining s then (failure BUSY, s)
  else
    let got := match packets (ring s) with
      | Some _ => Some (ring s)
      | None => if (2 ^ 64 - 1) / kPacketSize <? queue_packets then None
                else (fun buf => mkRing (Some buf) queue_packets (head (ring s)) (count (ring s))) <$> allocated
      end in
    match got with
    | None => (failure INTERNAL, s)
    | Some r =>
        (success tt, s{{
          ring := mkRing (packets r) (capacity r) 0 0;
          attached := true; draining := false; identity := a;
          final_snapshot_valid := false; final_identity := no_attachment; final_snapshot := no_snapshot;
          terminal := ST_none;
          counters := zero_counters{{ n_availability ::= fmap (fun _ => MeasureState_valid) }};
          continuity_checker ::= reset; continuity := no_startup_continuity;
          startup := fresh_startup (enabled policy) }})
    end.

(** The bridge did not start. *)
Definition attach_undone (s : Session) : Session :=
  s{{ attached := false; terminal := ST_stopped; ring := mkRing (packets (ring s)) (capacity (ring s)) (head (ring s)) 0 }}.

(** The end of an attachment: [detach] keeps the packets, [shutdown] does not. *)
Definition final_terminal (s : Session) : StreamTerminal :=
  if bool_decide (terminal s = ST_none) then ST_stopped else terminal s.
Definition retire (s : Session) : Session :=
  s{{ final_identity := identity s;
      final_snapshot := {| snap_counters := counters s; snap_terminal := final_terminal s |};
      final_snapshot_valid := true; attached := false; terminal := final_terminal s }}.
Definition detach_session (a : TunerAttachment) (s : Session) : Result unit * Session :=
  if negb (attached s) || negb (same_attachment (identity s) a) then (failure NOT_FOUND, s)
  else (success tt, (retire s){{ draining := true }}).
Definition shutdown_session (s : Session) : Session :=
  if attached s then (retire s){{ draining := false; ring := mkRing (packets (ring s)) (capacity (ring s)) (head (ring s)) 0 }} else s.

(** The bridge could not be cleaned up, after [detach] and after [shutdown]. *)
Definition with_final_terminal (t : StreamTerminal) (s : Session) : Session :=
  s{{ final_snapshot := {| snap_counters := snap_counters (final_snapshot s); snap_terminal := t |} }}.
Definition detach_failed (a : TunerAttachment) (s : Session) : Session :=
  if final_snapshot_valid s && same_attachment (final_identity s) a then with_final_terminal ST_bridge_fatal s else s.
Definition shutdown_failed (s : Session) : Session :=
  if final_snapshot_valid s then with_final_terminal ST_bridge_fatal s else s.

Definition stats (a : TunerAttachment) (s : Session) : Result StreamCounters :=
  if negb (attached s) || negb (same_attachment (identity s) a) then failure NOT_FOUND else success (counters s).
Definition terminal_of (a : TunerAttachment) (s : Session) : Result StreamTerminal :=
  if negb (attached s) || negb (same_attachment (identity s) a) then failure NOT_FOUND else success (terminal s).
Definition final_snapshot_of (a : TunerAttachment) (s : Session) : Result TunerStreamFinalSnapshot :=
  if negb (final_snapshot_valid s) || negb (same_attachment (final_identity s) a) then failure NOT_FOUND
  else success (final_snapshot s).
Definition release_final (a : TunerAttachment) (s : Session) : Result unit * Session :=
  if negb (final_snapshot_valid s) || negb (same_attachment (final_identity s) a) then (failure NOT_FOUND, s)
  else (success tt, s{{ draining := false; ring := mkRing (packets (ring s)) (capacity (ring s)) (head (ring s)) 0 }}).

(** * Reading *)

(** The guards of [read]. *)
Definition valid_output (size : Z) : bool := negb ((size =? 0) || negb (size mod kPacketSize =? 0) || (kMaxReadBytes <? size)).
Definition may_read (a : TunerAttachment) (s : Session) : bool :=
  (attached s && same_attachment (identity s) a) || (draining s && same_attachment (final_identity s) a).
(** The condition [read] waits for. *)
Definition readable (s : Session) : bool := negb (count (ring s) =? 0) || negb (bool_decide (terminal s = ST_none)).
Definition must_wait (timeout : Z) (s : Session) : bool := negb (readable s) && negb (timeout =? 0).

(** The two copies out of the ring. *)
Definition ring_pop (r : Ring) (n : Z) : option (list Z * Ring) :=
  buf ← packets r;
  let first := head r in
  let first_count := if capacity r - first <? n then capacity r - first else n in
  a ← (if first_count =? 0 then Some [] else mem_load buf (first * kPacketSize) (first_count * kPacketSize));
  b ← (if first_count <? n then mem_load buf 0 ((n - first_count) * kPacketSize) else Some []);
  head ← (if capacity r =? 0 then None else Some ((head r + n) mod capacity r));
  Some (a ++ b, mkRing (Some buf) (capacity r) head (count r - n)).

(** [read] after its wait, into an output of [size] bytes. *)
Definition read_now (size : Z) (s : Session) : option (StreamReadResult * list Z * Session) :=
  if count (ring s) =? 0 then
    Some (if negb (bool_decide (terminal s = ST_none))
          then (mkRead 0 true false (terminal s), [], s{{ draining := false }})
          else (mkRead 0 false true ST_none, [], s))
  else
    let asked := size / kPacketSize in
    let n := if count (ring s) <? asked then count (ring s) else asked in
    '(bytes, r) ← ring_pop (ring s) n;
    Some (mkRead (n * kPacketSize) false false ST_none, bytes, s{{ ring := r }}).

(** * The ring is a queue *)

Definition slot (buf : list Z) (i : Z) : list Z := window buf (i * kPacketSize) kPacketSize.
(** The packets in the ring, the oldest first. *)
Definition queued (r : Ring) : list (list Z) :=
  match packets r with
  | Some buf => (fun i => slot buf ((head r + i) mod capacity r)) <$> seqZ 0 (count r)
  | None => []
  end.

Record ring_ok (r : Ring) : Prop := {
  ring_capacity : 0 < capacity r;
  ring_buffer : exists buf, packets r = Some buf /\ zlen buf = capacity r * kPacketSize;
  ring_head : 0 <= head r < capacity r;
  ring_count : 0 <= count r <= capacity r;
}.

Lemma queued_length r : ring_ok r -> zlen (queued r) = count r.
Proof.
  intros [_ (buf & E & _) _ C]. unfold queued. rewrite E. unfold zlen. rewrite length_fmap, length_seqZ. lia.
Qed.

Lemma zlen_slot buf n i : zlen buf = n * kPacketSize -> 0 <= i < n -> zlen (slot buf i) = kPacketSize.
Proof. intros E I. apply zlen_window; unfold kPacketSize in *; nia. Qed.

(** Neighbouring slots are one window of the buffer. *)
Lemma window_slots buf a n : 0 <= a -> 0 <= n ->
  window buf (a * kPacketSize) (n * kPacketSize) = concat ((fun i => slot buf (a + i)) <$> seqZ 0 n).
Proof.
  intros A N. pattern n. apply natlike_ind; [done| |done]. clear n N. intros n N IH.
  replace (Z.succ n * kPacketSize) with (n * kPacketSize + kPacketSize) by lia.
  rewrite window_app by (unfold kPacketSize; lia). rewrite IH, <- Z.add_1_r, seqZ_app by lia.
  rewrite fmap_app, concat_app. f_equal. change (seqZ (0 + n) 1) with (seqZ (0 + n) (Z.succ 0)).
  rewrite seqZ_cons by lia. cbn. unfold slot. rewrite app_nil_r. f_equal. unfold kPacketSize. lia.
Qed.


Lemma fmap_seqZ_ext {A} (f g : Z -> A) a b n :
  (forall i, 0 <= i < n -> f (a + i) = g (b + i)) -> f <$> seqZ a n = g <$> seqZ b n.
Proof.
  intros E. apply list_eq. intros i. rewrite !list_lookup_fmap. destruct (decide (Z.of_nat i < n)) as [L|L].
  - rewrite !lookup_seqZ_lt by lia. cbn. f_equal. apply E. lia.
  - by rewrite !lookup_seqZ_ge by lia.
Qed.

Lemma take_fmap_seqZ {A} (f : Z -> A) n m : 0 <= n <= m -> take (Z.to_nat n) (f <$> seqZ 0 m) = f <$> seqZ 0 n.
Proof.
  intros N. replace m with (n + (m - n)) by lia. rewrite seqZ_app by lia. rewrite fmap_app. apply take_app_length'.
  by rewrite length_fmap, length_seqZ.
Qed.
Lemma drop_fmap_seqZ {A} (f : Z -> A) n m : 0 <= n <= m -> drop (Z.to_nat n) (f <$> seqZ 0 m) = (fun i => f (n + i)) <$> seqZ 0 (m - n).
Proof.
  intros N. replace m with (n + (m - n)) at 1 by lia. rewrite seqZ_app by lia. rewrite fmap_app, drop_app_length' by (by rewrite length_fmap, length_seqZ).
  apply fmap_seqZ_ext. intros i I. f_equal; lia.
Qed.

(** A packet goes to the end of the queue, *)
Lemma ring_push_queue r p : ring_ok r -> count r < capacity r -> zlen p = kPacketSize ->
  exists r', ring_push r p = Some r' /\ ring_ok r' /\ queued r' = queued r ++ [p] /\ capacity r' = capacity r /\ count r' = count r + 1.
Proof.
  intros [C (buf & B & Z) H K] Lt P. set (t := (head r + count r) mod capacity r).
  assert (0 <= t < capacity r) as T by (apply Z.mod_pos_bound; lia).
  unfold ring_push. rewrite B. destruct (Z.eqb_spec (capacity r) 0); [lia|]. unfold mbind, option_bind. fold t.
  assert (mem_load p 0 kPacketSize = Some p) as ->.
  { unfold mem_load. rewrite P. rewrite zdrop_0, ztake_ge by (rewrite P; done). done. }
  rewrite mem_store_ok by (rewrite ?P, ?Z; unfold kPacketSize; nia).
  eexists. split; [reflexivity|]. split; [|split; [|done]].
  - split; cbn; [done| |done|lia]. eexists. split; [done|]. rewrite zlen_store; [done|unfold kPacketSize; nia|].
    rewrite P, Z. unfold kPacketSize. nia.
  - unfold queued. cbn [packets head capacity count]. rewrite B.
    rewrite (seqZ_app 0 (count r) 1) by lia. rewrite fmap_app. f_equal.
    + apply fmap_seqZ_ext. intros i I. rewrite !Z.add_0_l. unfold slot.
      set (u := (head r + i) mod capacity r). assert (0 <= u < capacity r) as U by (apply Z.mod_pos_bound; lia).
      assert (u <> t) as N.
      { intros E. assert ((count r - i) mod capacity r = 0) as E'.
        { replace (count r - i) with ((head r + count r) - (head r + i)) by lia.
          rewrite Zminus_mod. fold t u. rewrite E, Z.sub_diag. apply Z.mod_0_l. lia. }
        rewrite Z.mod_small in E' by lia. lia. }
      destruct (Z.lt_ge_cases u t).
      * apply window_store_before; unfold kPacketSize in *; nia.
      * apply window_store_after; unfold kPacketSize in *; nia.
    + change (seqZ (0 + count r) 1) with (seqZ (0 + count r) (Z.succ 0)). rewrite seqZ_cons by lia. cbn. f_equal.
      rewrite Z.add_0_l. fold t. unfold slot.
      pose proof (window_store_at buf p (t * kPacketSize)) as W. rewrite P in *. apply W. rewrite Z. unfold kPacketSize. nia.
Qed.

(** and is read from its front. *)
Lemma ring_pop_queue r n : ring_ok r -> 0 < n <= count r ->
  exists r', ring_pop r n = Some (concat (take (Z.to_nat n) (queued r)), r') /\ ring_ok r' /\ queued r' = drop (Z.to_nat n) (queued r) /\
    capacity r' = capacity r /\ count r' = count r - n.
Proof.
  intros [C (buf & B & Z) H K] N. unfold ring_pop. rewrite B. unfold mbind, option_bind.
  set (f := if capacity r - head r <? n then capacity r - head r else n).
  assert (0 < f <= n /\ f <= capacity r - head r /\ (f < n -> f = capacity r - head r)) as (F1 & F2 & F3).
  { unfold f. destruct (Z.ltb_spec (capacity r - head r) n); lia. }
  destruct (Z.eqb_spec f 0); [lia|]. destruct (Z.eqb_spec (capacity r) 0); [lia|].
  unfold mem_load at 1. rewrite !(proj2 (Z.leb_le _ _)) by (rewrite ?Z; unfold kPacketSize; nia). cbn [andb].
  change (ztake (f * kPacketSize) (zdrop (head r * kPacketSize) buf)) with (window buf (head r * kPacketSize) (f * kPacketSize)).
  assert ((if f <? n then mem_load buf 0 ((n - f) * kPacketSize) else Some []) = Some (window buf (0 * kPacketSize) ((n - f) * kPacketSize))) as ->.
  { destruct (Z.ltb_spec f n).
    - unfold mem_load. rewrite !(proj2 (Z.leb_le _ _)) by (rewrite ?Z; unfold kPacketSize; nia). done.
    - by replace (n - f) with 0 by lia. }
  rewrite !window_slots by lia. eexists. split; [f_equal; f_equal|split; [|split; [|done]]].
  - rewrite <- concat_app. f_equal. unfold queued. rewrite B, take_fmap_seqZ by lia.
    replace n with (f + (n - f)) at 2 by lia. rewrite seqZ_app, fmap_app by lia. f_equal; apply fmap_seqZ_ext; intros i I; f_equal.
    + rewrite Z.mod_small; lia.
    + replace (head r + (0 + f + i)) with (i + 1 * capacity r) by lia. rewrite Z.mod_add, Z.mod_small by lia. done.
  - split; cbn; [done|by exists buf|apply Z.mod_pos_bound; lia|lia].
  - unfold queued. cbn [packets head capacity count]. rewrite B, drop_fmap_seqZ by lia. apply fmap_seqZ_ext. intros i I. f_equal.
    rewrite Z.add_mod_idemp_l by lia. f_equal. lia.
Qed.

(** * Histories of a session *)

(** One section of the mutex, from an attachment to the next.  A reader is only
    identified before its wait, so [OpRead] is whoever passed that. *)
Inductive SessionOp :=
  | OpEnqueue (p : list Z) | OpWireTei | OpSyncLosses (losses : Z) (published_before : bool) | OpPromote | OpEmpty
  | OpBridgeTerminal (reason : StreamTerminal) | OpTerminal (reason : StreamTerminal)
  | OpRead (size : Z) | OpDetach (a : TunerAttachment) | OpDetachFailed (a : TunerAttachment)
  | OpReleaseFinal (a : TunerAttachment) | OpShutdown | OpShutdownFailed | OpAttachUndone.

(** The bytes that leave the ring, and the next state. *)
Definition run_op (policy : StartupStabilizationPolicy) (s : Session) (o : SessionOp) : option (list Z * Session) :=
  match o with
  | OpEnqueue p => s ← enqueue policy s p; Some ([], s)
  | OpWireTei => Some ([], count_wire_tei policy s)
  | OpSyncLosses n b => Some ([], count_sync_losses n b s)
  | OpPromote => Some ([], promote_ready s)
  | OpEmpty => Some ([], count_empty s)
  | OpBridgeTerminal r => Some ([], mark_bridge_terminal r s)
  | OpTerminal r => Some ([], mark_terminal r s)
  | OpRead size => '(_, bytes, s) ← read_now size s; Some (bytes, s)
  | OpDetach a => Some ([], (detach_session a s).2)
  | OpDetachFailed a => Some ([], detach_failed a s)
  | OpReleaseFinal a => Some ([], (release_final a s).2)
  | OpShutdown => Some ([], shutdown_session s)
  | OpShutdownFailed => Some ([], shutdown_failed s)
  | OpAttachUndone => Some ([], attach_undone s)
  end.

(** What the pump's events give, said without the ring and the counters: the packet
    that is published, the faults that are seen, the packets held back and how many
    of them in a row had no fault. *)
Definition verdict (s : Session) (p : list Z) : ContinuityObservation := (observe_continuity s p).1.
Definition is_open (s : Session) : bool := negb (stabilizing (startup s)).

Definition passes (s : Session) (p : list Z) : bool :=
  is_live s && is_open s && (negb (bool_decide (verdict s p = boundary)) || startup_budget_fallback (startup s)).
Definition is_full (s : Session) : bool := count (ring s) =? capacity (ring s).

Record Faults := mkFaults { f_tei : Z; f_continuity : Z; f_sync : Z }.
Definition no_faults : Faults := mkFaults 0 0 0.
Definition add_faults (a b : Faults) : Faults := mkFaults (f_tei a + f_tei b) (f_continuity a + f_continuity b) (f_sync a + f_sync b).

Definition faults_of (s : Session) (o : SessionOp) : Faults :=
  if negb (is_live s) then no_faults
  else match o with
  | OpWireTei => mkFaults 1 0 0
  | OpEnqueue p => mkFaults (if tei_set p then 1 else 0) (if bool_decide (verdict s p = fault) then 1 else 0) 0
  | OpSyncLosses n b => if negb (is_open s) || stabilization_boundary_established (startup s) || b then mkFaults 0 0 n else no_faults
  | _ => no_faults
  end.
Definition is_held (s : Session) (o : SessionOp) : bool :=
  is_live s && negb (is_open s) && match o with OpEnqueue _ | OpWireTei => true | _ => false end.
Definition is_faulty (s : Session) (o : SessionOp) : bool :=
  is_live s && match o with
  | OpWireTei | OpSyncLosses _ _ => true
  | OpEnqueue p => tei_set p || bool_decide (verdict s p = fault)
  | _ => false
  end.

(** A session with what has happened to it since it was attached. *)
Record Trace := mkTrace {
  t_session : Session;
  t_published : list (list Z);
  t_dropped : Z;
  t_read : list Z;
  t_faults : Faults;
  t_open_faults : Faults;
  t_held : Z;
  t_clean : Z;
}.
Definition new_trace (s : Session) : Trace := mkTrace s [] 0 [] no_faults no_faults 0 0.

(** The trace after an operation that gave [bytes] and led to [s']. *)
Definition note (t : Trace) (o : SessionOp) (bytes : list Z) (s' : Session) : Trace :=
  let s := t_session t in
  let passed := match o with OpEnqueue p => passes s p | _ => false end in
  let held := is_held s o in
  mkTrace s'
    (t_published t ++ (if passed && negb (is_full s) then match o with OpEnqueue p => [p] | _ => [] end else []))
    (t_dropped t + (if passed && is_full s then 1 else 0))
    (t_read t ++ bytes)
    (add_faults (t_faults t) (faults_of s o))
    (if is_open s then add_faults (t_open_faults t) (faults_of s o) else t_open_faults t)
    (t_held t + if held then 1 else 0)
    (if is_open s then t_clean t else if is_faulty s o then 0 else t_clean t + if held then 1 else 0).
Definition step_trace (policy : StartupStabilizationPolicy) (t : Trace) (o : SessionOp) : option Trace :=
  '(bytes, s') ← run_op policy (t_session t) o; Some (note t o bytes s').

Fixpoint run_trace (policy : StartupStabilizationPolicy) (t : Trace) (ops : list SessionOp) : option Trace :=
  match ops with
  | [] => Some t
  | o :: ops => t ← step_trace policy t o; run_trace policy t ops
  end.
