(* ===== verification/StreamDelivery.v ===== *)
(** What a client reads from a session of the stream data plane: the delivery of
    the published packets, the gate of a starting stream, and the faults that are
    counted, for every order of the events of a session. *)

From coqutil Require Import Datatypes.RecordSetters.
From S2P Require Import Prelude IpcTypes TsContinuity StreamSession.

Import DoubleBraceUpdate.
Open Scope Z_scope.

(** * Sections that leave the ring alone *)

Ltac split_ifs :=
  repeat match goal with
  | |- context [match ?b with _ => _ end] =>
      lazymatch type of b with bool => idtac | prod _ _ => idtac end;
      lazymatch b with context [if _ then _ else _] => fail | _ => destruct b eqn:? end
  end.

(** The ring and its accounts are as before, and no session comes back to life. *)
Record same_data (s s' : Session) : Prop := {
  same_ring : ring s' = ring s;
  same_packets : n_packets (counters s') = n_packets (counters s);
  same_bytes : n_bytes (counters s') = n_bytes (counters s);
  same_drops : n_queue_drops (counters s') = n_queue_drops (counters s);
  same_life : is_live s' = true -> is_live s = true;
  same_attached : attached s' = true -> attached s = true;
  same_final : attached s' = true -> final_snapshot_valid s' = final_snapshot_valid s;
}.
#[export] Instance same_data_preorder : PreOrder same_data.
Proof.
  split; [by split|]. intros s1 s2 s3 [A B C D E F G] [A' B' C' D' E' F' G']. split; try congruence; auto. intros X. rewrite G' by done. auto.
Qed.

Lemma observe_continuity_same s p : same_data s (observe_continuity s p).2.
Proof. unfold observe_continuity. split_ifs; by split. Qed.
Lemma publish_same s : same_data s (publish_session_locked s).
Proof. by split. Qed.
Lemma fall_back_same s : same_data s (fall_back s).
Proof. by split. Qed.
Lemma finish_same policy s : same_data s (finish_startup_packet_locked policy s).
Proof. unfold finish_startup_packet_locked. split_ifs; by split. Qed.
Lemma promote_same s : same_data s (promote_ready s).
Proof. unfold promote_ready. split_ifs; by split. Qed.
Lemma wire_tei_same policy s : same_data s (count_wire_tei policy s).
Proof. unfold count_wire_tei. split_ifs; try (etransitivity; [|apply finish_same]); by split. Qed.
Lemma enqueue_startup_same policy s p : same_data s (enqueue_startup policy s p).
Proof.
  unfold enqueue_startup. destruct (tei_set p); [etransitivity; [|apply finish_same]; by split|].
  set (s1 := s{{startup -> startup_packets ::= inc}}). pose proof (observe_continuity_same s1 p) as O.
  destruct (observe_continuity s1 p) as [v s2]. cbn [snd] in O. etransitivity; [|apply finish_same].
  transitivity s1; [by split|]. etransitivity; [exact O|]. destruct (bool_decide _); by split.
Qed.
Lemma sync_losses_same n b s : same_data s (count_sync_losses n b s).
Proof. unfold count_sync_losses. split_ifs; by split. Qed.
Lemma empty_same s : same_data s (count_empty s).
Proof. unfold count_empty. split_ifs; by split. Qed.

(** * Delivery *)

(** The account of a session: everything published was read, is queued, or went
    with the queue of a session that has ended. *)
Record delivered (t : Trace) (lost : list Z) : Prop := {
  del_ring : ring_ok (ring (t_session t));
  del_lost : lost = [] \/ attached (t_session t) = false;
  del_bytes : concat (t_published t) = t_read t ++ concat (queued (ring (t_session t))) ++ lost;
  del_sizes : Forall (fun p => zlen p = kPacketSize) (t_published t);
  del_drops : t_dropped t = 0 \/ (t_dropped t = 1 /\ is_live (t_session t) = false);
  del_n_packets : n_packets (counters (t_session t)) = cast_u64 (zlen (t_published t) + t_dropped t);
  del_n_bytes : n_bytes (counters (t_session t)) = cast_u64 (kPacketSize * (zlen (t_published t) + t_dropped t));
  del_n_drops : n_queue_drops (counters (t_session t)) = t_dropped t;
  del_final : final_snapshot_valid (t_session t) = true -> attached (t_session t) = false;
}.

(** Operations that empty the queue. *)
Definition keeps (o : SessionOp) : bool :=
  match o with OpReleaseFinal _ | OpShutdown | OpAttachUndone => false | _ => true end.
Definition op_ok (o : SessionOp) : Prop :=
  match o with OpEnqueue p => zlen p = kPacketSize | OpRead size => 0 <= size /\ valid_output size = true
             | OpBridgeTerminal r | OpTerminal r => r <> ST_none | _ => True end.

Lemma cast_add_cast a b : cast_u64 (cast_u64 a + b) = cast_u64 (a + b).
Proof. unfold cast_u64. by rewrite Zplus_mod_idemp_l. Qed.

Lemma delivered_same t lost s' f o h c :
  delivered t lost -> same_data (t_session t) s' ->
  delivered (mkTrace s' (t_published t ++ []) (t_dropped t + 0) (t_read t ++ []) f o h c) lost.
Proof.
  intros [A B C D E F G H I] [R P N Q L At Fi]. rewrite !app_nil_r, Z.add_0_r. split; cbn; rewrite ?R, ?P, ?N, ?Q; try done.
  - destruct B as [B|B]; [by left|right]. apply not_true_iff_false. intros X. apply At in X. congruence.
  - destruct E as [E|[E1 E2]]; [by left|right]. split; [done|]. apply not_true_iff_false. intros X. apply L in X. congruence.
  - intros X. destruct (attached s') eqn:Y; [|done]. rewrite (Fi eq_refl) in X. apply I in X. by rewrite (At eq_refl) in X.
Qed.

Lemma valid_output_cases size : valid_output size = true -> size <> 0 /\ size mod kPacketSize = 0 /\ size <= kMaxReadBytes.
Proof. unfold valid_output. intros V. bool_hyps. lia. Qed.

Lemma read_now_ok s size : ring_ok (ring s) -> 0 < size -> size mod kPacketSize = 0 ->
  exists res bytes s', read_now size s = Some (res, bytes, s') /\ ring_ok (ring s') /\
    concat (queued (ring s)) = bytes ++ concat (queued (ring s')) /\ counters s' = counters s /\
    attached s' = attached s /\ terminal s' = terminal s /\ startup s' = startup s /\
    rr_size res = zlen bytes /\ zlen bytes <= size /\ zlen bytes mod kPacketSize = 0 /\
    (rr_end res = true -> queued (ring s) = [] /\ terminal s <> ST_none) /\
    (queued (ring s) = [] <-> bytes = []) /\ (rr_timeout res = true -> queued (ring s) = []) /\
    identity s' = identity s /\ capacity (ring s') = capacity (ring s) /\
    continuity_checker s' = continuity_checker s /\ continuity s' = continuity s /\ final_snapshot_valid s' = final_snapshot_valid s.
Proof.
  intros R Sz D. pose proof (queued_length _ R) as QL. unfold read_now. destruct (Z.eqb_spec (count (ring s)) 0) as [Z|Z].
  - assert (queued (ring s) = []) as Q by (apply zlen_0; lia).
    assert (terminal s <> ST_none \/ terminal s = ST_none) as [T|T] by (destruct (decide (terminal s = ST_none)); auto).
    + rewrite bool_decide_false by done. cbn [negb]. eexists _, _, _. split; [reflexivity|]. split_and!; try done; unfold zlen; cbn; lia.
    + rewrite bool_decide_true by done. cbn [negb]. eexists _, _, _. split; [reflexivity|]. split_and!; try done; unfold zlen; cbn; lia.
  - set (n := if count (ring s) <? size / kPacketSize then count (ring s) else size / kPacketSize).
    assert (0 < n <= count (ring s) /\ n * kPacketSize <= size) as [N1 N2].
    { pose proof (ring_count _ R). subst n. unfold kPacketSize in *. destruct (Z.ltb_spec (count (ring s)) (size / 188)); Z.to_euclidean_division_equations; lia. }
    destruct (ring_pop_queue _ n R N1) as (r' & P & R' & Q' & C' & K'). unfold mbind, option_bind. rewrite P.
    assert (zlen (concat (take (Z.to_nat n) (queued (ring s)))) = n * kPacketSize) as ZB.
    { assert (Forall (fun p => zlen p = kPacketSize) (take (Z.to_nat n) (queued (ring s)))) as F.
      { apply Forall_take. destruct R as [Cp (buf & B & Zb) H K]. unfold queued. rewrite B. apply Forall_fmap, Forall_forall.
        intros i _. cbn. apply (zlen_slot buf (capacity (ring s))); [done|]. apply Z.mod_pos_bound. lia. }
      assert (zlen (take (Z.to_nat n) (queued (ring s))) = n) as L by (unfold zlen in *; rewrite length_take; lia).
      rewrite <- L at 2. clear -F. induction F as [|p l E F IH]; [done|]. cbn [concat]. rewrite zlen_app, zlen_cons, E, IH. lia. }
    assert (ring (s{{ring := r'}}) = r') as X by done.
    eexists _, _, _. split; [reflexivity|]. rewrite !X, Q'. split_and!; try done; cbn [rr_size rr_end rr_timeout].
    + rewrite <- concat_app. by rewrite take_drop.
    + lia.
    + rewrite ZB. by apply Z.mod_mul.
    + split; intros E; [by rewrite E, take_nil|]. rewrite E in ZB. unfold zlen, kPacketSize in ZB. cbn in ZB. lia.
Qed.

(** The ring is emptied when a session has ended. *)
Lemma delivered_emptied t lost s' f o h c :
  delivered t lost -> ring s' = mkRing (packets (ring (t_session t))) (capacity (ring (t_session t))) (head (ring (t_session t))) 0 ->
  attached s' = false -> counters s' = counters (t_session t) ->
  delivered (mkTrace s' (t_published t ++ []) (t_dropped t + 0) (t_read t ++ []) f o h c) (concat (queued (ring (t_session t))) ++ lost).
Proof.
  intros [A B C D E F G H I] R At K. rewrite !app_nil_r, Z.add_0_r.
  assert (is_live s' = false) as Dead by (unfold is_live; by rewrite At).
  split; cbn [t_session t_published t_dropped t_read]; rewrite ?R, ?K; try done.
  - destruct A as [A1 A2 A3 A4]. split; try done. cbn. lia.
  - by right.
  - unfold queued at 1. cbn [packets count]. rewrite C. by destruct (packets _).
  - destruct E as [E|[E _]]; [by left|by right].
Qed.

Lemma verdict_ext s1 s2 p :
  continuity_checker s1 = continuity_checker s2 -> continuity s1 = continuity s2 -> verdict s1 p = verdict s2 p.
Proof.
  intros E1 E2. unfold verdict, observe_continuity. rewrite E1. destruct (observe _ _) as [r c].
  assert (continuity (s1{{continuity_checker := c}}) = continuity (s2{{continuity_checker := c}})) as -> by exact E2.
  split_ifs; done.
Qed.

(** What an open gate does with a packet. *)
Lemma enqueue_published_cases s p : ring_ok (ring s) -> zlen p = kPacketSize -> is_live s = true -> is_open s = true ->
  (passes s p = false /\ exists s', enqueue_published s p = Some s' /\ same_data s s') \/
  (passes s p = true /\ exists s1, same_data s s1 /\ attached s1 = attached s /\
    let s2 := s1{{ counters -> n_packets ::= inc; counters -> n_bytes ::= fun x => cast_u64 (x + kPacketSize) }} in
    if is_full s then enqueue_published s p = Some (s2{{ counters -> n_queue_drops ::= inc; terminal := ST_slow_consumer }})
    else exists r', ring_push (ring s) p = Some r' /\ enqueue_published s p = Some (s2{{ ring := r' }})).
Proof.
  intros R P Li Op. unfold enqueue_published, passes. rewrite Li, Op. cbn [andb].
  set (s1 := if tei_set p then s{{counters -> n_tei_packets ::= inc}} else s).
  assert (same_data s s1) as S1 by (unfold s1; destruct (tei_set p); by split).
  assert (attached s1 = attached s /\ startup s1 = startup s) as [A1 U1] by (unfold s1; by destruct (tei_set p)).
  assert (verdict s p = (observe_continuity s1 p).1) as V.
  { symmetry. apply (verdict_ext s1 s); unfold s1; by destruct (tei_set p). }
  rewrite V. pose proof (observe_continuity_same s1 p) as S2.
  assert (attached (observe_continuity s1 p).2 = attached s1) as A2 by (unfold observe_continuity; split_ifs; done).
  assert (startup_budget_fallback (startup (observe_continuity s1 p).2) = startup_budget_fallback (startup s1)) as U2
    by (unfold observe_continuity; split_ifs; done).
  destruct (observe_continuity s1 p) as [v s2]. cbn [fst snd] in *. rewrite U2, U1.
  destruct (bool_decide (v = boundary) && negb (startup_budget_fallback (startup s))) eqn:B.
  - left. apply andb_true_iff in B as [B1 B2]. rewrite B1. apply negb_true_iff in B2. rewrite B2. split; [done|].
    exists s2. split; [done|]. by transitivity s1.
  - right. split; [destruct (bool_decide (v = boundary)), (startup_budget_fallback (startup s)); done|].
    set (s3 := if bool_decide (v = fault) then s2{{counters -> n_continuity_errors ::= inc}} else s2).
    assert (same_data s s3 /\ attached s3 = attached s) as [S3 A3].
    { split; [transitivity s1; [done|]; transitivity s2; [done|]|]; unfold s3; destruct (bool_decide (v = fault)); try by split.
      all: exact (eq_trans A2 A1). }
    exists s3. split; [done|]. split; [done|]. cbv zeta. unfold is_full.
    assert (forall f g, ring (s3{{counters -> n_packets ::= f; counters -> n_bytes ::= g}}) = ring s3) as -> by done.
    rewrite (same_ring _ _ S3). destruct (count (ring s) =? capacity (ring s)) eqn:Fu; [done|].
    apply Z.eqb_neq in Fu. pose proof (ring_count _ R). destruct (ring_push_queue (ring s) p R) as (r' & Pu & _); [lia|done|].
    exists r'. split; [done|]. by rewrite Pu.
Qed.

Lemma step_delivered policy t o lost : op_ok o -> delivered t lost ->
  exists t' lost', step_trace policy t o = Some t' /\ delivered t' lost' /\ (keeps o = true -> lost' = lost).
Proof.
  intros Ok I. destruct t as [s pub dr rd fa op he cl]. pose proof I as [A B C D E F G H J]. cbn [t_session t_published t_dropped t_read] in *.
  assert (forall s', run_op policy s o = Some ([], s') -> same_data s s' -> (forall p, o = OpEnqueue p -> passes s p = false) ->
    exists t' lost', step_trace policy (mkTrace s pub dr rd fa op he cl) o = Some t' /\ delivered t' lost' /\ (keeps o = true -> lost' = lost)) as Same.
  { intros s' R S P. unfold step_trace, note. cbn [t_session t_published t_dropped t_read]. rewrite R. unfold mbind, option_bind.
    eexists _, lost. split; [reflexivity|]. split; [|done].
    assert (match o with OpEnqueue p => passes s p | _ => false end = false) as -> by (destruct o; auto). cbn [andb].
    by apply (delivered_same (mkTrace s pub dr rd fa op he cl)). }
  assert (forall s', run_op policy s o = Some ([], s') -> ring s' = mkRing (packets (ring s)) (capacity (ring s)) (head (ring s)) 0 ->
    attached s' = false -> counters s' = counters s -> (forall p, o <> OpEnqueue p) -> keeps o = false ->
    exists t' lost', step_trace policy (mkTrace s pub dr rd fa op he cl) o = Some t' /\ delivered t' lost' /\ (keeps o = true -> lost' = lost)) as Emptied.
  { intros s' R S At K P Ke. unfold step_trace, note. cbn [t_session t_published t_dropped t_read]. rewrite R. unfold mbind, option_bind.
    eexists _, (concat (queued (ring s)) ++ lost). split; [reflexivity|]. split; [|by rewrite Ke].
    assert (match o with OpEnqueue p => passes s p | _ => false end = false) as -> by (destruct o; try done; by destruct (P p)). cbn [andb].
    apply (delivered_emptied (mkTrace s pub dr rd fa op he cl) lost s'); done. }
  destruct o as [p| |n b| | |r|r|size|a|a|a| | |].
  - cbn [op_ok] in Ok. destruct (is_live s) eqn:Li.
    2:{ apply (Same s); [cbn; unfold enqueue; by rewrite Li|done|]. intros q [= <-]. unfold passes. by rewrite Li. }
    destruct (is_open s) eqn:Op; pose proof Op as Op'; unfold is_open in Op'.
    2:{ apply negb_false_iff in Op'. apply (Same (enqueue_startup policy s p)); [cbn; unfold enqueue; by rewrite Li, Op'|apply enqueue_startup_same|].
        intros q [= <-]. unfold passes. by rewrite Li, Op. }
    apply negb_true_iff in Op'.
    assert (enqueue policy s p = enqueue_published s p) as En by (unfold enqueue; by rewrite Li, Op').
    destruct (enqueue_published_cases s p A Ok Li Op) as [(Pa & s' & E' & S')|(Pa & s1 & S1 & A1 & X)].
    { apply (Same s'); [cbn; by rewrite En, E'|done|]. by intros q [= <-]. }
    cbv zeta in X. unfold step_trace, note, run_op. cbn [t_session t_published t_dropped t_read]. rewrite En, Pa. cbn [andb].
    pose proof S1 as [R1 P1 N1 D1 L1 _ F1]. assert (attached s = true) as At by (unfold is_live in Li; by apply andb_true_iff in Li as [? _]).
    destruct E as [->|[_ E]]; [|congruence]. destruct B as [->|B]; [|congruence].
    destruct (is_full s) eqn:Fu; cbn [negb].
    + rewrite X. unfold mbind, option_bind. eexists _, []. split; [reflexivity|]. split; [|done].
      split; cbn [t_session t_published t_dropped t_read]; rewrite ?app_nil_r, ?Z.add_0_l.
      * change (ring_ok (ring s1)). by rewrite R1.
      * by left.
      * change (concat pub = rd ++ concat (queued (ring s1))). rewrite R1. by rewrite C, app_nil_r.
      * done.
      * right. split; [done|]. unfold is_live. cbn. by rewrite andb_false_r.
      * change (inc (n_packets (counters s1)) = cast_u64 (zlen pub + 1)). rewrite P1, F. unfold inc. by rewrite cast_add_cast, Z.add_0_r.
      * change (cast_u64 (n_bytes (counters s1) + kPacketSize) = cast_u64 (kPacketSize * (zlen pub + 1))).
        rewrite N1, G, cast_add_cast. f_equal. lia.
      * change (inc (n_queue_drops (counters s1)) = 1). by rewrite D1, H.
      * intros Fv. exfalso. change (final_snapshot_valid s1 = true) in Fv. rewrite F1 in Fv by congruence. apply J in Fv. congruence.
    + destruct X as (r' & Pu & ->). unfold mbind, option_bind. eexists _, []. split; [reflexivity|]. split; [|done].
      unfold is_full in Fu. apply Z.eqb_neq in Fu. pose proof (ring_count _ A).
      destruct (ring_push_queue (ring s) p A) as (r2 & Pu2 & R2 & Q2 & _); [lia|done|]. rewrite Pu in Pu2. injection Pu2 as <-.
      split; cbn [t_session t_published t_dropped t_read]; rewrite ?app_nil_r, ?Z.add_0_r.
      * done.
      * by left.
      * change (concat (pub ++ [p]) = rd ++ concat (queued r')). rewrite Q2, !concat_app, C, app_nil_r. by rewrite app_assoc.
      * apply Forall_app. split; [done|]. by constructor.
      * by left.
      * change (inc (n_packets (counters s1)) = cast_u64 (zlen (pub ++ [p]))). rewrite P1, F, zlen_app. unfold inc.
        by rewrite cast_add_cast, Z.add_0_r.
      * change (cast_u64 (n_bytes (counters s1) + kPacketSize) = cast_u64 (kPacketSize * zlen (pub ++ [p]))).
        rewrite N1, G, cast_add_cast, zlen_app. f_equal. change (zlen [p]) with 1. lia.
      * change (n_queue_drops (counters s1) = 0). by rewrite D1.
      * intros Fv. exfalso. change (final_snapshot_valid s1 = true) in Fv. rewrite F1 in Fv by congruence. apply J in Fv. congruence.
  - apply (Same (count_wire_tei policy s)); [done|apply wire_tei_same|done].
  - apply (Same (count_sync_losses n b s)); [done|apply sync_losses_same|done].
  - apply (Same (promote_ready s)); [done|apply promote_same|done].
  - apply (Same (count_empty s)); [done|apply empty_same|done].
  - apply (Same (mark_bridge_terminal r s)); [done| |done]. unfold mark_bridge_terminal. split_ifs; by split.
  - apply (Same (mark_terminal r s)); [done| |done]. unfold mark_terminal. split_ifs; by split.
  - destruct Ok as [O0 Ok]. apply valid_output_cases in Ok as (O1 & O2 & O3).
    destruct (read_now_ok s size A ltac:(lia) O2) as (res & bytes & s' & Rn & R' & Q' & K' & At' & Te' & _ & _ & _ & _ & _ & _ & _ & _ & _ & _ & _ & Fv').
    unfold step_trace, note, run_op. cbn [t_session t_published t_dropped t_read]. rewrite Rn. unfold mbind, option_bind.
    eexists _, lost. split; [reflexivity|]. split; [|done]. cbn [andb]. rewrite app_nil_r, Z.add_0_r.
    split; cbn [t_session t_published t_dropped t_read]; rewrite ?K', ?At', ?Fv'; try done.
    + rewrite C, Q'. by rewrite <- !app_assoc.
    + unfold is_live. by rewrite At', Te'.

  - apply (Same (detach_session a s).2); [done| |done]. unfold detach_session. split_ifs; by split.
  - apply (Same (detach_failed a s)); [done| |done]. unfold detach_failed. split_ifs; by split.
  - unfold release_final in *. destruct (negb (final_snapshot_valid s) || negb (same_attachment (final_identity s) a)) eqn:X.
    + apply (Same s); [cbn; unfold release_final; by rewrite X|done|done].
    + bool_hyps. eapply Emptied; [cbn; unfold release_final; rewrite H0, H1; reflexivity|done|cbn; auto|done|done|done].
  - destruct (attached s) eqn:X.
    + eapply Emptied; [cbn; unfold shutdown_session; rewrite X; reflexivity|done..].
    + apply (Same s); [cbn; unfold shutdown_session; by rewrite X|done|done].
  - apply (Same (shutdown_failed s)); [done| |done]. unfold shutdown_failed. split_ifs; by split.
  - eapply Emptied; [reflexivity|done..].
Qed.

(** A session that has just been attached. *)
Definition buffer_ok (queue_packets : Z) (policy : StartupStabilizationPolicy) (allocated : option (list Z)) (s : Session) : Prop :=
  0 < queue_packets /\ (forall buf, allocated = Some buf -> zlen buf = queue_packets * kPacketSize) /\
  (packets (ring s) <> None -> ring_ok (ring s)).

Lemma attach_delivered queue_packets policy allocated a s s0 :
  buffer_ok queue_packets policy allocated s -> attach_session queue_packets policy allocated a s = (success tt, s0) ->
  delivered (new_trace s0) [].
Proof.
  intros (Q & Al & R) E. unfold attach_session in E. destruct (attached s || draining s); [done|].
  destruct (match packets (ring s) with Some _ => _ | None => _ end) as [r|] eqn:M; [|done]. injection E as <-.
  assert (ring_ok (mkRing (packets r) (capacity r) 0 0)) as Rk.
  { destruct (packets (ring s)) as [b|] eqn:B.
    - injection M as <-. destruct R as [R1 R2 R3 R4]; [done|]. split; cbn; [done|done|lia|lia].
    - destruct (_ <? _); [done|]. destruct allocated as [buf|]; [|done]. injection M as <-. specialize (Al buf eq_refl).
      split; cbn; [done|by exists buf|lia|lia]. }
  unfold new_trace. split; cbn [t_session t_published t_dropped t_read]; try done; [by left| |by left|by apply Z.mod_0_l..].
  change (concat (@nil (list Z)) = [] ++ concat (queued (mkRing (packets r) (capacity r) 0 0)) ++ []).
  unfold queued. cbn. by destruct (packets r).
Qed.

Lemma run_delivered policy ops t lost : Forall op_ok ops -> delivered t lost ->
  exists t' lost', run_trace policy t ops = Some t' /\ delivered t' lost' /\ (Forall (fun o => keeps o = true) ops -> lost' = lost).
Proof.
  intros Ok. revert t lost. induction Ok as [|o ops Oo Ok IH]; intros t lost D; [by exists t, lost|].
  destruct (step_delivered policy t o lost Oo D) as (t1 & lost1 & E & D1 & K1). cbn [run_trace]. rewrite E. unfold mbind, option_bind.
  destruct (IH t1 lost1 D1) as (t' & lost' & E' & D' & K'). exists t', lost'. split; [done|]. split; [done|].
  intros [Ka Kb]%Forall_cons. by rewrite K', K1.
Qed.

(** C8 What a client reads is what was published for it: however the pump, the reader
    and the owner take turns after an attachment, no access is outside of the ring,
    the bytes that were read and those that are queued are the published packets in
    order, unless the queue went with a session that ended; all but the packet that
    did not fit are counted as delivered or waiting; a read gives whole packets, not
    more than asked for; and it reports the end only when everything has been read. *)
Theorem stream_delivers queue_packets policy allocated a s s0 ops :
  buffer_ok queue_packets policy allocated s -> attach_session queue_packets policy allocated a s = (success tt, s0) ->
  Forall op_ok ops ->
  exists t lost, run_trace policy (new_trace s0) ops = Some t /\
    concat (t_published t) = t_read t ++ concat (queued (ring (t_session t))) ++ lost /\
    (Forall (fun o => keeps o = true) ops -> lost = []) /\
    n_packets (counters (t_session t)) = cast_u64 (zlen (t_published t) + t_dropped t) /\
    n_bytes (counters (t_session t)) = cast_u64 (kPacketSize * (zlen (t_published t) + t_dropped t)) /\
    n_queue_drops (counters (t_session t)) = t_dropped t /\ 0 <= t_dropped t <= 1 /\
    forall size, 0 <= size -> valid_output size = true ->
      exists r bytes s', read_now size (t_session t) = Some (r, bytes, s') /\
        rr_size r = zlen bytes /\ zlen bytes <= size /\ zlen bytes mod kPacketSize = 0 /\
        concat (queued (ring (t_session t))) = bytes ++ concat (queued (ring s')) /\
        (rr_end r = true -> concat (t_published t) = t_read t ++ lost).
Proof.
  intros B E Ok. destruct (run_delivered policy ops (new_trace s0) [] Ok (attach_delivered _ _ _ _ _ _ B E)) as (t & lost & R & D & K).
  exists t, lost. pose proof D as [D1 D2 D3 D4 D5 D6 D7 D8 _]. repeat (split; [done|]). split; [lia|].
  intros size Sz V. apply valid_output_cases in V as (V1 & V2 & V3).
  destruct (read_now_ok (t_session t) size D1 ltac:(lia) V2) as (r & bytes & s' & Rn & _ & Q & _ & _ & _ & _ & Z1 & Z2 & Z3 & Z4 & _).
  exists r, bytes, s'. repeat (split; [done|]). intros En. destruct (Z4 En) as [Z5 _]. by rewrite D3, Z5.
Qed.

(** * The gate *)

Definition policy_ok (p : StartupStabilizationPolicy) : Prop :=
  0 < minimum_packets p < 2 ^ 64 /\ 0 < clean_packets p < 2 ^ 64 /\
  minimum_packets p <= maximum_packets p < 2 ^ 64 /\ clean_packets p <= maximum_packets p.

Definition counted (f : Faults) (c : StreamCounters) : Prop :=
  n_tei_packets c = cast_u64 (f_tei f) /\ n_continuity_errors c = cast_u64 (f_continuity f) /\ n_sync_errors c = cast_u64 (f_sync f).

Record held_back (policy : StartupStabilizationPolicy) (t : Trace) : Prop := {
  hb_published : t_published t = [];
  hb_dropped : t_dropped t = 0;
  hb_open : t_open_faults t = no_faults;
  hb_counters : counted no_faults (counters (t_session t));
  hb_faults : counted (t_faults t) (startup_faults (startup (t_session t)));
  hb_packets : startup_packets (startup (t_session t)) = t_held t;
  hb_clean : startup_clean_packets (startup (t_session t)) = t_clean t;
  hb_ready : stabilization_ready (startup (t_session t)) = true -> ready policy (startup (t_session t)) = true;
  hb_fallback : startup_budget_fallback (startup (t_session t)) = false;
}.
Record opened (policy : StartupStabilizationPolicy) (t : Trace) : Prop := {
  op_boundary : stabilization_boundary_established (startup (t_session t)) = true;
  op_counters : (startup_budget_fallback (startup (t_session t)) = true /\ maximum_packets policy <= t_held t /\
                 counted (t_faults t) (counters (t_session t))) \/
                (startup_budget_fallback (startup (t_session t)) = false /\ minimum_packets policy <= t_held t /\
                 clean_packets policy <= t_clean t /\ counted (t_open_faults t) (counters (t_session t)));
}.
Definition gated (policy : StartupStabilizationPolicy) (t : Trace) : Prop :=
  0 <= t_clean t <= t_held t /\
  (if is_open (t_session t) then opened policy t else held_back policy t).

Lemma counted_add f c c' (dt dc ds : Z) : counted f c ->
  n_tei_packets c' = cast_u64 (n_tei_packets c + dt) -> n_continuity_errors c' = cast_u64 (n_continuity_errors c + dc) ->
  n_sync_errors c' = cast_u64 (n_sync_errors c + ds) -> counted (add_faults f (mkFaults dt dc ds)) c'.
Proof. intros (A & B & C) D E F. unfold counted. rewrite D, E, F, A, B, C, !cast_add_cast. by split_and!. Qed.
Lemma counted_none f c : counted f c -> counted (add_faults f no_faults) c.
Proof. unfold counted, add_faults. cbn. by rewrite !Z.add_0_r. Qed.

(** Nothing of the start changes. *)
Lemma gated_same policy t s' rd :
  gated policy t -> startup s' = startup (t_session t) ->
  n_tei_packets (counters s') = n_tei_packets (counters (t_session t)) ->
  n_continuity_errors (counters s') = n_continuity_errors (counters (t_session t)) ->
  n_sync_errors (counters s') = n_sync_errors (counters (t_session t)) ->
  gated policy (mkTrace s' (t_published t) (t_dropped t) rd (add_faults (t_faults t) no_faults)
    (if is_open (t_session t) then add_faults (t_open_faults t) no_faults else t_open_faults t) (t_held t) (t_clean t)).
Proof.
  intros [C G] U A1 A2 A3. split; [done|]. assert (forall f c, counted f c -> counted (add_faults f no_faults) c) as N by apply counted_none.
  unfold is_open in *. cbn [t_session]. rewrite U. destruct (stabilizing (startup (t_session t))) eqn:St; cbn [negb] in *.
  - destruct G as [G1 G2 G3 G4 G5 G6 G7 G8 G9]. split; cbn [t_session t_published t_dropped t_open_faults t_faults t_held t_clean]; rewrite ?U; try done.
    + unfold counted in *. by rewrite A1, A2, A3.
    + by apply N.
  - destruct G as [G1 G2]. split; cbn [t_session t_published t_dropped t_open_faults t_faults t_held t_clean]; rewrite ?U; [done|].
    unfold counted in *. rewrite A1, A2, A3. destruct G2 as [(X & Y & Z)|(X & Y & Z & W)]; [left|right]; split_and!; try done; by apply N.
Qed.

(** The end of a packet that was held back. *)
Lemma finish_gated policy s pub dr rd fa op he cl :
  policy_ok policy -> stabilizing (startup s) = true -> terminal s = ST_none ->
  pub = [] -> dr = 0 -> op = no_faults -> counted no_faults (counters s) -> counted fa (startup_faults (startup s)) ->
  startup_packets (startup s) = he -> startup_clean_packets (startup s) = cl -> startup_budget_fallback (startup s) = false ->
  0 <= cl <= he ->
  let s' := finish_startup_packet_locked policy s in
  gated policy (mkTrace s' pub dr rd fa op he cl) /\
  (is_open s' = true \/ stabilization_ready (startup s') = true \/ he < maximum_packets policy).
Proof.
  intros Po St Te -> -> -> Co Fa Pk Cl Fb B. cbv zeta. unfold finish_startup_packet_locked. rewrite St, Te. cbn [negb orb].
  rewrite bool_decide_true by done. cbn [negb].
  set (r := ready policy (startup s)).
  assert (startup_packets (startup (s{{startup -> stabilization_ready := r}})) = he) as -> by exact Pk.
  destruct ((he <? maximum_packets policy) || r) eqn:D.
  - split.
    + split; [done|]. unfold is_open. cbn [t_session].
      assert (stabilizing (startup (s{{startup -> stabilization_ready := r}})) = true) as -> by exact St. cbn [negb].
      split; cbn [t_session t_published t_dropped t_open_faults t_faults t_held t_clean]; try done.
    + right. apply orb_true_iff in D as [D|D]; [right; lia|left; exact D].
  - apply orb_false_iff in D as [D _]. split; [|by left]. split; [done|]. unfold is_open. cbn [t_session].
    assert (forall x, stabilizing (startup (fall_back x)) = false) as -> by done. cbn [negb]. split; [done|]. left.
    split; [done|]. split; [cbn; lia|].
    assert (counted (add_faults no_faults fa) (counters (fall_back (s{{startup -> stabilization_ready := r}})))) as X.
    { destruct fa as [ft fc fs]. destruct Fa as (F1 & F2 & F3). cbn in F1, F2, F3. pose proof Co as (C1 & C2 & C3). cbn in C1, C2, C3.
      unfold counted. cbn [add_faults f_tei f_continuity f_sync no_faults].
      split_and!.
      - change (cast_u64 (n_tei_packets (counters s) + n_tei_packets (startup_faults (startup s))) = cast_u64 (0 + ft)).
        rewrite F1, C1. unfold cast_u64. by rewrite ?Zplus_mod_idemp_l, ?Zplus_mod_idemp_r.
      - change (cast_u64 (n_continuity_errors (counters s) + n_continuity_errors (startup_faults (startup s))) = cast_u64 (0 + fc)).
        rewrite F2, C2. unfold cast_u64. by rewrite ?Zplus_mod_idemp_l, ?Zplus_mod_idemp_r.
      - change (cast_u64 (n_sync_errors (counters s) + n_sync_errors (startup_faults (startup s))) = cast_u64 (0 + fs)).
        rewrite F3, C3. unfold cast_u64. by rewrite ?Zplus_mod_idemp_l, ?Zplus_mod_idemp_r. }
    unfold add_faults in X. cbn in X. by destruct fa.
Qed.

Lemma inc_small x : 0 <= x < 2 ^ 64 - 1 -> inc x = x + 1.
Proof. intros H. unfold inc. apply cast_u64_small. unfold is_u64. lia. Qed.

(** A packet that carries the transport error is no continuity error. *)
Lemma tei_verdict s p : tei_set p = true -> verdict s p <> fault.
Proof.
  intros T. unfold verdict, observe_continuity, observe, inspect.
  destruct (negb (zlen p =? kPacketSize) || negb (byte_at p 0 =? 71)); [done|].
  assert (bit_set (byte_at p 1) 0x80 = true) as -> by exact T. done.
Qed.

Lemma enqueue_startup_gated policy t p :
  policy_ok policy -> gated policy t -> is_live (t_session t) = true -> is_open (t_session t) = false -> t_held t < 2 ^ 64 - 1 ->
  let s' := enqueue_startup policy (t_session t) p in
  gated policy (mkTrace s' (t_published t) (t_dropped t) (t_read t) (add_faults (t_faults t) (faults_of (t_session t) (OpEnqueue p)))
    (t_open_faults t) (t_held t + 1) (if is_faulty (t_session t) (OpEnqueue p) then 0 else t_clean t + 1)) /\
  (is_open s' = true \/ stabilization_ready (startup s') = true \/ t_held t + 1 < maximum_packets policy).
Proof.
  intros Po [C G] Li Op W. rewrite Op in G. destruct G as [G1 G2 G3 G4 G5 G6 G7 G8 G9].
  assert (stabilizing (startup (t_session t)) = true) as St by (unfold is_open in Op; by apply negb_false_iff in Op).
  unfold faults_of, is_faulty. rewrite Li. cbn [negb andb]. destruct t as [s pub dr rd fa op he cl]. cbn [t_session t_published t_dropped t_read t_faults t_open_faults t_held t_clean] in *.
  assert (terminal s = ST_none) as Te by (unfold is_live in Li; apply andb_true_iff in Li as [_ Li]; by apply bool_decide_eq_true in Li).
  assert (inc he = he + 1) as Ih by (apply inc_small; lia). assert (inc cl = cl + 1) as Ic by (apply inc_small; lia).
  unfold enqueue_startup. destruct (tei_set p) eqn:T.
  - rewrite (bool_decide_false (verdict s p = fault)) by (by apply tei_verdict). cbn [orb].
    apply finish_gated; try done.
    + apply (counted_add fa (startup_faults (startup s))); [done|done|..]; by rewrite Z.add_0_r; destruct G5 as (_ & E1 & E2); rewrite ?E1, ?E2; unfold cast_u64; rewrite Zmod_mod.
    + change (inc (startup_packets (startup s)) = he + 1). by rewrite G6.
    + lia.
  - set (s1 := s{{startup -> startup_packets ::= inc}}).
    assert (verdict s p = (observe_continuity s1 p).1) as V by (symmetry; by apply (verdict_ext s1 s)). rewrite V.
    assert (counters (observe_continuity s1 p).2 = counters s1 /\ terminal (observe_continuity s1 p).2 = terminal s1 /\
      startup_faults (startup (observe_continuity s1 p).2) = startup_faults (startup s1) /\
      startup_packets (startup (observe_continuity s1 p).2) = startup_packets (startup s1) /\
      startup_clean_packets (startup (observe_continuity s1 p).2) = startup_clean_packets (startup s1) /\
      stabilizing (startup (observe_continuity s1 p).2) = stabilizing (startup s1) /\
      startup_budget_fallback (startup (observe_continuity s1 p).2) = startup_budget_fallback (startup s1)) as (O1 & O2 & O3 & O4 & O5 & O6 & O7).
    { unfold observe_continuity. split_ifs; done. }
    destruct (observe_continuity s1 p) as [v s2]. cbn [fst snd orb] in *.
    assert (startup_packets (startup s1) = he + 1) as Pk by (change (inc (startup_packets (startup s)) = he + 1); by rewrite G6).
    destruct (bool_decide_reflect (v = fault)) as [F|F].
    + apply finish_gated; try done.
      * exact (eq_trans O6 St).
      * exact (eq_trans O2 Te).
      * change (counted no_faults (counters s2)). by rewrite O1.
      * apply (counted_add fa (startup_faults (startup s))); [done|..].
        -- change (n_tei_packets (startup_faults (startup s2)) = cast_u64 (n_tei_packets (startup_faults (startup s)) + 0)). rewrite O3, Z.add_0_r.
           destruct G5 as (E1 & E2 & E3). change (n_tei_packets (startup_faults (startup s)) = cast_u64 (n_tei_packets (startup_faults (startup s)))).
           rewrite E1. unfold cast_u64. by rewrite Zmod_mod.
        -- change (inc (n_continuity_errors (startup_faults (startup s2))) = inc (n_continuity_errors (startup_faults (startup s)))). by rewrite O3.
        -- change (n_sync_errors (startup_faults (startup s2)) = cast_u64 (n_sync_errors (startup_faults (startup s)) + 0)). rewrite O3, Z.add_0_r.
           destruct G5 as (E1 & E2 & E3). change (n_sync_errors (startup_faults (startup s)) = cast_u64 (n_sync_errors (startup_faults (startup s)))).
           rewrite E3. unfold cast_u64. by rewrite Zmod_mod.
      * exact (eq_trans O4 Pk).
      * exact (eq_trans O7 G9).
      * lia.
    + apply finish_gated; try done.
      * exact (eq_trans O6 St).
      * exact (eq_trans O2 Te).
      * change (counted no_faults (counters s2)). by rewrite O1.
      * apply counted_none. change (counted fa (startup_faults (startup s2))). by rewrite O3.
      * exact (eq_trans O4 Pk).
      * change (inc (startup_clean_packets (startup s2)) = cl + 1). rewrite O5.
        change (inc (startup_clean_packets (startup s)) = cl + 1). by rewrite G7.
      * exact (eq_trans O7 G9).
      * lia.
Qed.

Lemma observe_keeps s p :
  counters (observe_continuity s p).2 = counters s /\
  stabilizing (startup (observe_continuity s p).2) = stabilizing (startup s) /\
  stabilization_boundary_established (startup (observe_continuity s p).2) = stabilization_boundary_established (startup s) /\
  startup_budget_fallback (startup (observe_continuity s p).2) = startup_budget_fallback (startup s).
Proof. unfold observe_continuity. split_ifs; done. Qed.

Lemma cast_idem a : cast_u64 (cast_u64 a) = cast_u64 a.
Proof. unfold cast_u64. by rewrite Zmod_mod. Qed.

(** A session with an open gate counts what it sees. *)
Definition counts_as (s s' : Session) (d : Faults) : Prop :=
  stabilizing (startup s') = stabilizing (startup s) /\
  stabilization_boundary_established (startup s') = stabilization_boundary_established (startup s) /\
  startup_budget_fallback (startup s') = startup_budget_fallback (startup s) /\
  (forall f, counted f (counters s) -> counted (add_faults f d) (counters s')).

Lemma enqueue_published_counts s p s' : enqueue_published s p = Some s' ->
  counts_as s s' (mkFaults (if tei_set p then 1 else 0) (if bool_decide (verdict s p = fault) then 1 else 0) 0).
Proof.
  unfold enqueue_published. set (s1 := if tei_set p then s{{counters -> n_tei_packets ::= inc}} else s).
  assert (verdict s p = (observe_continuity s1 p).1) as V.
  { symmetry. apply (verdict_ext s1 s); unfold s1; by destruct (tei_set p). }
  rewrite V. pose proof (observe_keeps s1 p) as (O1 & O2 & O3 & O4).
  assert (startup s1 = startup s) as U by (unfold s1; by destruct (tei_set p)).
  assert (forall f, counted f (counters s) -> counted (add_faults f (mkFaults (if tei_set p then 1 else 0) 0 0)) (counters s1)) as C1.
  { intros f K. unfold s1. destruct (tei_set p); [|exact (counted_none f _ K)]. pose proof K as (K1 & K2 & K3).
    apply (counted_add f (counters s)); [done|done|..]; rewrite Z.add_0_r, ?K2, ?K3, cast_idem; done. }
  destruct (observe_continuity s1 p) as [v s2]. cbn [fst snd] in *.
  set (s3 := if bool_decide (v = fault) then s2{{counters -> n_continuity_errors ::= inc}} else s2).
  assert (startup s3 = startup s2) as U3 by (unfold s3; by destruct (bool_decide (v = fault))).
  assert (forall f, counted f (counters s) ->
    counted (add_faults f (mkFaults (if tei_set p then 1 else 0) (if bool_decide (v = fault) then 1 else 0) 0)) (counters s3)) as C3.
  { intros f K. specialize (C1 f K). unfold s3. rewrite <- O1 in C1. destruct (bool_decide (v = fault)); [|exact C1].
    destruct C1 as (A & B & C). unfold counted. cbn [add_faults f_tei f_continuity f_sync] in *. split_and!; [exact A| |exact C].
    change (inc (n_continuity_errors (counters s2)) = cast_u64 (f_continuity f + 1)). rewrite B. unfold inc. rewrite cast_add_cast. f_equal. lia. }
  intros E. assert ((bool_decide (v = fault) = false /\ s' = s2) \/ (startup s' = startup s3 /\ forall f, counted f (counters s3) -> counted f (counters s'))) as X.
  { destruct (bool_decide (v = boundary) && negb (startup_budget_fallback (startup s2))) eqn:B.
    - left. injection E as <-. apply andb_true_iff in B as [B _]. apply bool_decide_eq_true in B. split; [|done]. apply bool_decide_eq_false. congruence.
    - right. destruct (_ =? _); [|destruct (ring_push _ _) as [r|]; [|done]]; injection E as <-; (split; [done|]); intros f (K1 & K2 & K3); by split_and!. }
  destruct X as [[F ->]|[U4 C4]].
  - unfold counts_as. rewrite F. unfold s3 in *. rewrite F in *. split_and!; try congruence. done.
  - unfold counts_as. rewrite U4, U3. split_and!; try congruence. intros f K. by apply C4, C3.
Qed.

(** An open gate stays open. *)
Lemma gated_counts policy t s' d pub dr rd :
  gated policy t -> is_open (t_session t) = true -> counts_as (t_session t) s' d ->
  gated policy (mkTrace s' pub dr rd (add_faults (t_faults t) d) (add_faults (t_open_faults t) d) (t_held t) (t_clean t)) /\ is_open s' = true.
Proof.
  intros [C G] Op (S1 & S2 & S3 & S4). assert (is_open s' = true) as Op' by (unfold is_open in *; by rewrite S1).
  split; [|done]. split; [done|]. cbn [t_session]. rewrite Op'. rewrite Op in G. destruct G as [G1 G2].
  split; cbn [t_session t_faults t_open_faults t_held t_clean]; [by rewrite S2|]. rewrite S3.
  destruct G2 as [(X & Y & Z)|(X & Y & Z & W)]; [left|right]; split_and!; auto.
Qed.

Lemma wire_tei_gated policy t :
  policy_ok policy -> gated policy t -> is_live (t_session t) = true -> is_open (t_session t) = false -> t_held t < 2 ^ 64 - 1 ->
  let s' := count_wire_tei policy (t_session t) in
  gated policy (mkTrace s' (t_published t) (t_dropped t) (t_read t) (add_faults (t_faults t) (mkFaults 1 0 0))
    (t_open_faults t) (t_held t + 1) 0) /\
  (is_open s' = true \/ stabilization_ready (startup s') = true \/ t_held t + 1 < maximum_packets policy).
Proof.
  intros Po [C G] Li Op W. rewrite Op in G. destruct G as [G1 G2 G3 G4 G5 G6 G7 G8 G9].
  assert (stabilizing (startup (t_session t)) = true) as St by (unfold is_open in Op; by apply negb_false_iff in Op).
  destruct t as [s pub dr rd fa op he cl]. cbn [t_session t_published t_dropped t_read t_faults t_open_faults t_held t_clean] in *.
  assert (terminal s = ST_none) as Te by (unfold is_live in Li; apply andb_true_iff in Li as [_ Li]; by apply bool_decide_eq_true in Li).
  assert (inc he = he + 1) as Ih by (apply inc_small; lia).
  unfold count_wire_tei. rewrite Li. cbn [negb].
  assert (stabilizing (startup (s{{continuity_checker ::= observe_untrusted_packet}})) = true) as -> by exact St.
  apply finish_gated; try done.
  - apply (counted_add fa (startup_faults (startup s))); [done|done|..]; rewrite Z.add_0_r; destruct G5 as (E1 & E2 & E3).
    + by rewrite E2, cast_idem.
    + by rewrite E3, cast_idem.
  - change (inc (startup_packets (startup s)) = he + 1). by rewrite G6.
  - lia.
Qed.

Lemma sync_losses_gated policy t n b :
  gated policy t -> is_live (t_session t) = true -> is_open (t_session t) = false ->
  gated policy (mkTrace (count_sync_losses n b (t_session t)) (t_published t) (t_dropped t) (t_read t)
    (add_faults (t_faults t) (mkFaults 0 0 n)) (t_open_faults t) (t_held t) 0).
Proof.
  intros [C G] Li Op. rewrite Op in G. destruct G as [G1 G2 G3 G4 G5 G6 G7 G8 G9].
  assert (stabilizing (startup (t_session t)) = true) as St by (unfold is_open in Op; by apply negb_false_iff in Op).
  unfold count_sync_losses. rewrite Li, St. cbn [negb]. split; [cbn; lia|]. unfold is_open. cbn [t_session].
  assert (forall x, stabilizing (startup (unsettle x)) = stabilizing (startup x)) as -> by done.
  assert (forall f, stabilizing (startup ((t_session t){{startup -> startup_faults -> n_sync_errors ::= f}})) = true) as -> by (intros; exact St).
  cbn [negb]. split; try done. cbn [t_session t_faults].
  apply (counted_add (t_faults t) (startup_faults (startup (t_session t)))); [done|..|done]; rewrite Z.add_0_r; destruct G5 as (E1 & E2 & E3).
  - by rewrite E1, cast_idem.
  - by rewrite E2, cast_idem.
Qed.

Lemma publish_gated policy t : policy_ok policy ->
  gated policy t -> is_open (t_session t) = false -> stabilization_ready (startup (t_session t)) = true ->
  gated policy (mkTrace (publish_session_locked (t_session t)) (t_published t) (t_dropped t) (t_read t)
    (add_faults (t_faults t) no_faults) (t_open_faults t) (t_held t) (t_clean t)).
Proof.
  intros Po [C G] Op R. rewrite Op in G. destruct G as [G1 G2 G3 G4 G5 G6 G7 G8 G9]. apply G8 in R. unfold ready in R.
  rewrite G6, G7 in R. apply andb_true_iff in R as [[_ R1]%andb_true_iff R2]. apply Z.leb_le in R1, R2.
  split; [done|]. unfold is_open. cbn [t_session]. assert (stabilizing (startup (publish_session_locked (t_session t))) = false) as -> by done.
  cbn [negb]. split; [done|]. right. split; [exact G9|]. split; [done|]. split; [done|]. cbn [t_open_faults t_session]. rewrite G3. exact G4.
Qed.

Lemma no_faults_add f : add_faults f no_faults = f.
Proof. destruct f. unfold add_faults. cbn. by rewrite !Z.add_0_r. Qed.

Definition gate_moves (policy : StartupStabilizationPolicy) (t t' : Trace) (o : SessionOp) : Prop :=
  (is_open (t_session t) = true -> is_open (t_session t') = true) /\
  (is_held (t_session t) o = true -> is_open (t_session t') = true \/ stabilization_ready (startup (t_session t')) = true \/ t_held t' < maximum_packets policy) /\
  (o = OpPromote -> is_live (t_session t) = true -> stabilization_ready (startup (t_session t)) = true -> is_open (t_session t') = true).

Lemma counted_fix f c : counted f c -> n_tei_packets c = cast_u64 (n_tei_packets c + 0) /\
  n_continuity_errors c = cast_u64 (n_continuity_errors c + 0) /\ n_sync_errors c = cast_u64 (n_sync_errors c + 0).
Proof. intros (A & B & C). rewrite !Z.add_0_r, A, B, C, !cast_idem. done. Qed.

Definition neutral (o : SessionOp) : bool :=
  match o with OpEnqueue _ | OpWireTei | OpSyncLosses _ _ | OpPromote => false | _ => true end.
(** Nothing of the gate changes. *)
Definition gate_kept (s s' : Session) : Prop :=
  startup s' = startup s /\ n_tei_packets (counters s') = n_tei_packets (counters s) /\
  n_continuity_errors (counters s') = n_continuity_errors (counters s) /\ n_sync_errors (counters s') = n_sync_errors (counters s).

Lemma neutral_kept policy s o bytes s' : neutral o = true -> run_op policy s o = Some (bytes, s') -> gate_kept s s'.
Proof.
  intros N R. destruct o as [p| |n b| | |r|r|size|a|a|a| | |]; try done; cbn [run_op] in R.
  7:{ unfold release_final in R. destruct (_ || _); by injection R as <- <-. }
  4:{ unfold read_now in R. destruct (_ =? 0).
      - destruct (negb _); by injection R as <- <-.
      - destruct (ring_pop _ _) as [[x y]|]; [|done]. by injection R as <- <-. }
  all: injection R as <- <-; unfold count_empty, mark_bridge_terminal, mark_terminal, detach_session, detach_failed, shutdown_session, shutdown_failed;
    split_ifs; by split_and!.
Qed.
Lemma dead_kept policy s o bytes s' : is_live s = false -> run_op policy s o = Some (bytes, s') -> gate_kept s s'.
Proof.
  intros L R. destruct (neutral o) eqn:N; [by eapply neutral_kept|].
  destruct o as [p| |n b| | |r|r|size|a|a|a| | |]; try done; cbn [run_op] in R.
  - unfold enqueue in R. rewrite L in R. cbn in R. by injection R as <- <-.
  - unfold count_wire_tei in R. rewrite L in R. cbn in R. by injection R as <- <-.
  - unfold count_sync_losses in R. rewrite L in R. cbn in R. by injection R as <- <-.
  - unfold promote_ready in R. assert (negb (attached s) || negb (bool_decide (terminal s = ST_none)) = true) as X.
    { unfold is_live in L. by rewrite <- negb_andb, L. }
    rewrite X in R. cbn [orb] in R. by injection R as <- <-.
Qed.

Definition gate_step (policy : StartupStabilizationPolicy) (t : Trace) (o : SessionOp) (t' : Trace) : Prop :=
  gated policy t' /\ t_held t <= t_held t' <= t_held t + 1 /\ gate_moves policy t t' o.

Section GateSteps.
Context (policy : StartupStabilizationPolicy) (t : Trace) (Po : policy_ok policy) (G : gated policy t) (W : t_held t < 2 ^ 64 - 1).
Notation s := (t_session t).

Lemma kept_step o bytes s' : gate_kept s s' -> faults_of s o = no_faults -> is_held s o = false -> is_faulty s o = false ->
  (forall p, o = OpEnqueue p -> passes s p = false) ->
  (o = OpPromote -> is_live s = true -> stabilization_ready (startup s) = true -> is_open s' = true) ->
  gate_step policy t o (note t o bytes s').
Proof.
  intros (U & A1 & A2 & A3) F H Fy Ps Pr. unfold gate_step, note. rewrite F, H, Fy.
  assert (match o with OpEnqueue p => passes s p | _ => false end = false) as -> by (destruct o; auto).
  cbn [andb]. rewrite !app_nil_r, !Z.add_0_r.
  assert ((if is_open s then t_clean t else t_clean t) = t_clean t) as -> by (by destruct (is_open s)).
  split; [by apply gated_same|]. split; [cbn; lia|]. unfold gate_moves. rewrite H. cbn [t_session].
  split; [|split; done]. unfold is_open. by rewrite U.
Qed.

Lemma enqueue_step p s' : is_live s = true -> enqueue policy s p = Some s' -> gate_step policy t (OpEnqueue p) (note t (OpEnqueue p) [] s').
Proof.
  intros Li E. pose proof G as [C _]. unfold gate_step, note, gate_moves, is_held. rewrite Li.
  destruct (is_open s) eqn:Op; pose proof Op as Op'; unfold is_open in Op'.
  - apply negb_true_iff in Op'. unfold enqueue in E. rewrite Li, Op' in E. apply enqueue_published_counts in E.
    assert (faults_of s (OpEnqueue p) = mkFaults (if tei_set p then 1 else 0) (if bool_decide (verdict s p = fault) then 1 else 0) 0) as ->.
    { unfold faults_of. by rewrite Li. }
    cbn [andb negb t_session]. rewrite Z.add_0_r.
    destruct (gated_counts policy t s' _ (t_published t ++ (if passes s p && negb (is_full s) then [p] else []))
      (t_dropped t + (if passes s p && is_full s then 1 else 0)) (t_read t ++ []) G Op E) as [G' Op1].
    split; [exact G'|]. split; [cbn; lia|]. done.
  - apply negb_false_iff in Op'. unfold enqueue in E. rewrite Li, Op' in E. injection E as <-.
    destruct (enqueue_startup_gated policy t p Po G Li Op W) as [G' M].
    unfold passes. rewrite Li, Op. cbn [andb negb]. rewrite !app_nil_r, !Z.add_0_r.
    split; [exact G'|]. split; [cbn; lia|]. split; [done|]. split; [intros _; exact M|done].
Qed.

Lemma wire_tei_step : is_live s = true -> gate_step policy t OpWireTei (note t OpWireTei [] (count_wire_tei policy s)).
Proof.
  intros Li. pose proof G as [C _]. unfold gate_step, note, gate_moves, is_held, faults_of, is_faulty. rewrite Li.
  destruct (is_open s) eqn:Op; pose proof Op as Op'; unfold is_open in Op'; cbn [andb negb]; rewrite !app_nil_r, !Z.add_0_r.
  - apply negb_true_iff in Op'.
    destruct (gated_counts policy t (count_wire_tei policy s) (mkFaults 1 0 0) (t_published t) (t_dropped t) (t_read t) G Op) as [G' Op1].
    { unfold count_wire_tei. rewrite Li. cbn [negb].
      assert (stabilizing (startup (s{{continuity_checker ::= observe_untrusted_packet}})) = false) as -> by exact Op'.
      split_and!; try done. intros f K. destruct (counted_fix f _ K) as (T1 & T2 & T3). by apply (counted_add f (counters s)). }
    split; [exact G'|]. split; [cbn; lia|]. done.
  - destruct (wire_tei_gated policy t Po G Li Op W) as [G' M].
    split; [exact G'|]. split; [cbn; lia|]. split; [done|]. split; [intros _; exact M|done].
Qed.

Lemma sync_losses_step n b : is_live s = true -> gate_step policy t (OpSyncLosses n b) (note t (OpSyncLosses n b) [] (count_sync_losses n b s)).
Proof.
  intros Li. pose proof G as [C _]. unfold gate_step, note, gate_moves, is_held, is_faulty. rewrite Li, andb_false_r.
  destruct (is_open s) eqn:Op; pose proof Op as Op'; unfold is_open in Op'; cbn [andb negb]; rewrite !app_nil_r, !Z.add_0_r.
  - apply negb_true_iff in Op'.
    destruct (gated_counts policy t (count_sync_losses n b s) (faults_of s (OpSyncLosses n b)) (t_published t) (t_dropped t) (t_read t) G Op) as [G' Op1].
    { unfold count_sync_losses, faults_of. rewrite Li, Op, Op'. cbn [negb orb].
      destruct (stabilization_boundary_established (startup s) || b); split_and!; try done; intros f K; [|by apply counted_none].
      destruct (counted_fix f _ K) as (T1 & T2 & T3). by apply (counted_add f (counters s)). }
    split; [exact G'|]. split; [cbn; lia|]. done.
  - pose proof (sync_losses_gated policy t n b G Li Op) as G'. unfold faults_of. rewrite Li, Op. cbn [negb orb].
    split; [exact G'|]. split; [cbn; lia|]. done.
Qed.

Lemma promote_step : is_live s = true -> gate_step policy t OpPromote (note t OpPromote [] (promote_ready s)).
Proof.
  intros Li. pose proof G as [C _]. unfold gate_step, note, gate_moves, is_held, faults_of, is_faulty. rewrite Li. cbn [negb].
  rewrite !andb_false_r, !app_nil_r, !Z.add_0_r.
  assert (promote_ready s = if is_open s then s else if stabilization_ready (startup s) then publish_session_locked s else s) as Pr.
  { unfold is_live in Li. apply andb_true_iff in Li as [At Te]. unfold promote_ready, is_open. rewrite At, Te. cbn [negb orb].
    by destruct (stabilizing (startup s)), (stabilization_ready (startup s)). }
  pose proof (gated_same policy t s (t_read t) G eq_refl eq_refl eq_refl eq_refl) as Sm.
  destruct (is_open s) eqn:Op; [|destruct (stabilization_ready (startup s)) eqn:Re]; rewrite Pr.
  - split; [exact Sm|]. split; [cbn; lia|]. done.
  - pose proof (publish_gated policy t Po G Op Re) as G'. split; [exact G'|]. split; [cbn; lia|]. done.
  - split; [exact Sm|]. split; [cbn; lia|]. done.
Qed.

Lemma step_gated o t' : step_trace policy t o = Some t' -> gate_step policy t o t'.
Proof.
  intros E. unfold step_trace in E. destruct (run_op policy s o) as [[bytes s']|] eqn:R; [|done].
  unfold mbind, option_bind in E. injection E as <-. destruct (is_live s) eqn:Li.
  2:{ apply kept_step; [by eapply dead_kept|unfold faults_of|unfold is_held|unfold is_faulty|..]; rewrite ?Li; try done.
      intros p ->. unfold passes. by rewrite Li. }
  destruct (neutral o) eqn:Ne.
  { apply kept_step; [by eapply neutral_kept|unfold faults_of; rewrite Li|unfold is_held; rewrite Li|unfold is_faulty; rewrite Li|..];
      destruct o; try done; by rewrite andb_false_r. }
  destruct o as [p| |n b| | |r|r|size|a|a|a| | |]; try done; cbn [run_op] in R.
  - destruct (enqueue policy s p) as [s1|] eqn:E; [|done]. injection R as <- <-. by apply enqueue_step.
  - injection R as <- <-. by apply wire_tei_step.
  - injection R as <- <-. by apply sync_losses_step.
  - injection R as <- <-. by apply promote_step.
Qed.
End GateSteps.

Lemma attach_gated queue_packets policy allocated a s s0 : policy_ok policy ->
  attach_session queue_packets policy allocated a s = (success tt, s0) -> gated policy (new_trace s0).
Proof.
  intros (P1 & P2 & P3) E. unfold attach_session in E. destruct (attached s || draining s); [done|].
  destruct (match packets (ring s) with Some _ => _ | None => _ end) as [r|]; [|done]. injection E as <-.
  assert (enabled policy = true) as En by (unfold enabled; destruct (Z.eqb_spec (minimum_packets policy) 0); [lia|done]).
  split; [cbn; lia|]. unfold is_open. cbn [new_trace t_session]. cbn [apply_update constant startup fresh_startup stabilizing]. rewrite En.
  cbn [negb]. split; try done; by split_and!.
Qed.

Lemma run_gated policy ops t t' : policy_ok policy -> gated policy t -> t_held t + zlen ops < 2 ^ 64 ->
  run_trace policy t ops = Some t' -> gated policy t' /\ t_held t' <= t_held t + zlen ops /\ (is_open (t_session t) = true -> is_open (t_session t') = true).
Proof.
  intros Po. revert t. induction ops as [|o ops IH]; intros t G W R; cbn [run_trace] in R.
  - injection R as <-. split; [done|]. split; [zlen_lia|done].
  - destruct (step_trace policy t o) as [t1|] eqn:E; [|done]. unfold mbind, option_bind in R. rewrite zlen_cons in *.
    pose proof (zlen_nonneg ops). destruct (step_gated policy t Po G ltac:(lia) o t1 E) as (G1 & B1 & M1 & _).
    destruct (IH t1 G1 ltac:(lia) R) as (G2 & B2 & M2). split; [done|]. split; [lia|auto].
Qed.

(** The gate of a starting stream.  While it is closed nothing is published and no
    fault shows; once it is open it stays open, and either the budget was used up
    and the counters show every fault since the attachment, or at least the minimum
    of packets was seen, the last of them without a fault, and the counters show
    every fault since then.  Past the budget a packet leaves the gate open or ready
    to be opened, and a ready gate opens when its transfer is done. *)
Theorem startup_gate queue_packets policy allocated a s s0 ops t :
  policy_ok policy -> attach_session queue_packets policy allocated a s = (success tt, s0) -> zlen ops < 2 ^ 64 - 1 ->
  run_trace policy (new_trace s0) ops = Some t ->
  (if is_open (t_session t)
   then (startup_budget_fallback (startup (t_session t)) = true /\ maximum_packets policy <= t_held t /\
         counted (t_faults t) (counters (t_session t))) \/
        (startup_budget_fallback (startup (t_session t)) = false /\ minimum_packets policy <= t_held t /\
         clean_packets policy <= t_clean t /\ counted (t_open_faults t) (counters (t_session t)))
   else t_published t = [] /\ counted no_faults (counters (t_session t))) /\
  forall o t', step_trace policy t o = Some t' -> gate_moves policy t t' o.
Proof.
  intros Po E Z R. pose proof (attach_gated _ _ _ _ _ _ Po E) as G.
  destruct (run_gated policy ops _ t Po G ltac:(cbn; lia) R) as ([C G'] & B & _). cbn [new_trace t_held] in B. split.
  - destruct (is_open (t_session t)); [apply G'|split; apply G'].
  - intros o t' St. apply (step_gated policy t Po ltac:(by split) ltac:(lia) o t' St).
Qed.
