(* ===== verification/StreamErrors.v ===== *)
(** The continuity errors that a session of the stream data plane counts, against
    those that a reader of the published packets finds. *)

From coqutil Require Import Datatypes.RecordSetters.
From stdpp Require Import gmap.
From S2P Require Import Prelude IpcTypes TsContinuity StreamSession StreamDelivery.

Import DoubleBraceUpdate.
Open Scope Z_scope.

(** * The reader *)

Definition is_error (r : option TsContinuityResult) : bool :=
  match r with Some r => bool_decide (res_kind r = error) | None => false end.
Definition errors (rs : list (option TsContinuityResult)) : Z := zlen (filter (fun r => is_error r = true) rs).
(** A checker of its own, on what it reads. *)
Definition reader_errors (ps : list (list Z)) : Z := errors (run init_checker ((fun p => CallObserve (View p)) <$> ps)).1.
Definition reader_run (ps : list (list Z)) : list (option TsContinuityResult) * gmap Z Entry :=
  spec_run ∅ ((fun p => CallObserve (View p)) <$> ps).

Lemma reader_errors_run ps : Forall bytes_ok ps -> reader_errors ps = errors (reader_run ps).1.
Proof.
  intros B. unfold reader_errors, reader_run. f_equal. apply run_refines_from; [apply init_rel|]. apply Forall_fmap. refine (Forall_impl _ _ _ B _). done.
Qed.

Lemma spec_run_snoc m ops o : spec_run m (ops ++ [o]) =
  ((spec_run m ops).1 ++ [(spec_step (spec_run m ops).2 o).1], (spec_step (spec_run m ops).2 o).2).
Proof.
  revert m. induction ops as [|o' ops IH]; intros m; cbn [app spec_run fst snd].
  - by destruct (spec_step m o).
  - destruct (spec_step m o') as [r m1]. rewrite IH. by destruct (spec_run m1 ops).
Qed.
Lemma reader_snoc ps p : reader_run (ps ++ [p]) =
  ((reader_run ps).1 ++ [(spec_step (reader_run ps).2 (CallObserve (View p))).1], (spec_step (reader_run ps).2 (CallObserve (View p))).2).
Proof. unfold reader_run. rewrite fmap_app. apply spec_run_snoc. Qed.
Lemma errors_snoc rs r : errors (rs ++ [r]) = errors rs + (if is_error r then 1 else 0).
Proof.
  unfold errors. rewrite filter_app, zlen_app. f_equal. rewrite filter_cons, filter_nil. destruct (is_error r); by case_decide.
Qed.

(** A packet that has a payload, where the checker looks at it at all. *)
Definition has_data (p : list Z) : Prop :=
  forall q pid cc payload di pcr, inspect (View p) = Accepted q pid cc payload di pcr -> payload = true.

Lemma inspect_kind v : match inspect v with
  | Rejected r => res_kind r = invalid_packet \/ res_kind r = transport_error
  | NullPacket r => res_kind r = null_packet
  | Accepted _ _ _ _ _ _ => True
  end.
Proof.
  unfold inspect. destruct v as [n|p]; [by left|]. destruct (negb _ || _); [by left|]. destruct (bit_set _ _); [by right|].
  destruct (_ =? 0x1fff); [done|]. destruct (_ =? 0); [by left|]. destruct (scan_adaptation _ _) as [[ok di] pcr].
  destruct (negb ok); [by left|done].
Qed.

(** * What the session and the reader know of a PID *)

Record agree (a b : Entry) : Prop := {
  ag_packet : e_packet a = e_packet b;
  ag_counter : e_counter a = e_counter b;
  ag_repeated : e_repeated a = e_repeated b;
  ag_adjacent : e_payload a && e_adjacent a = true -> e_payload b && e_adjacent b = true;
}.
Definition heard_pid (st : StartupContinuity) (m d : option Entry) : Prop :=
  if sc_established st then exists a b, m = Some a /\ d = Some b /\ agree a b
  else d = None /\ if sc_seen st then exists a, m = Some a /\ e_counter a = sc_counter st else m = None.
Definition known (s : Session) (pid : Z) : StartupContinuity := default no_continuity (continuity s !! Z.to_nat pid).

Record heard (s : Session) (m d : gmap Z Entry) : Prop := {
  heard_rel : checker_rel (continuity_checker s) m;
  heard_length : length (continuity s) = Z.to_nat kPidCount;
  heard_pids pid : 0 <= pid < kPidCount -> heard_pid (known s pid) (m !! pid) (d !! pid);
}.

Lemma agree_lose a b : agree a b -> agree (lose_adjacency a) b.
Proof. intros [A B C D]. split; try done. cbn. by rewrite andb_false_r. Qed.
Lemma agree_lose_both a b : agree a b -> agree (lose_adjacency a) (lose_adjacency b).
Proof. intros [A B C D]. split; try done. cbn. by rewrite andb_false_r. Qed.

Lemma heard_lose_pid st m d : heard_pid st m d -> heard_pid st (lose_adjacency <$> m) d.
Proof.
  unfold heard_pid. destruct (sc_established st).
  - intros (a & b & -> & -> & A). exists (lose_adjacency a), b. split; [done|]. split; [done|]. by apply agree_lose.
  - intros [-> S]. split; [done|]. destruct (sc_seen st); [|by subst]. destruct S as (a & -> & C). by exists (lose_adjacency a).
Qed.
Lemma heard_lose_both st m d : heard_pid st m d -> heard_pid st (lose_adjacency <$> m) (lose_adjacency <$> d).
Proof.
  unfold heard_pid. destruct (sc_established st).
  - intros (a & b & -> & -> & A). exists (lose_adjacency a), (lose_adjacency b). split; [done|]. split; [done|]. by apply agree_lose_both.
  - intros [-> S]. split; [done|]. destruct (sc_seen st); [|by subst]. destruct S as (a & -> & C). by exists (lose_adjacency a).
Qed.

(** The engine is at least as strict as the reader. *)
Lemma classify_stricter a b p cc di pcr : agree a b ->
  (spec_classify (Some a) p cc true di pcr).2 = (spec_classify (Some b) p cc true di pcr).2 /\
  ((spec_classify (Some b) p cc true di pcr).1 = error -> (spec_classify (Some a) p cc true di pcr).1 = error).
Proof.
  intros [A B C D]. unfold spec_classify. destruct di; [done|]. rewrite A, B, C.
  destruct (cc =? e_counter b) eqn:X; cbn [andb].
  - assert ((cc =? (e_counter b + 1) mod 16) = false) as ->.
    { apply Z.eqb_eq in X as ->. apply Z.eqb_neq. Z.to_euclidean_division_equations. lia. }
    rewrite <- !andb_assoc. rewrite (andb_assoc (e_payload a)), (andb_assoc (e_payload b)).
    destruct (e_payload a && e_adjacent a); [by rewrite D|]. cbn [andb]. by case_match.
  - done.
Qed.

(** * One packet *)

Lemma heard_upd s s2 m d pid st e (d' : gmap Z Entry) : heard s m d -> 0 <= pid < kPidCount ->
  checker_rel (continuity_checker s2) (<[pid := e]> m) -> length (continuity s2) = length (continuity s) ->
  (forall i, 0 <= i < kPidCount -> known s2 i = if decide (i = pid) then st else known s i) ->
  (forall i, i <> pid -> d' !! i = d !! i) -> heard_pid st (Some e) (d' !! pid) -> heard s2 (<[pid := e]> m) d'.
Proof.
  intros [R L P] B R' L' K D H. split; [done|congruence|]. intros i I. rewrite K by done. case_decide as X.
  - subst i. by rewrite lookup_insert_eq.
  - rewrite lookup_insert_ne by congruence. rewrite D by done. by apply P.
Qed.

Lemma known_insert s f pid st i : length (continuity s) = Z.to_nat kPidCount -> 0 <= pid < kPidCount -> 0 <= i < kPidCount ->
  f = <[Z.to_nat pid := st]> (continuity s) -> default no_continuity (f !! Z.to_nat i) = if decide (i = pid) then st else known s i.
Proof.
  intros L P I ->. case_decide as X.
  - subst i. rewrite list_lookup_insert_eq; [done|lia].
  - rewrite list_lookup_insert_ne; [done|lia].
Qed.

Lemma agree_refl a : agree a a.
Proof. by split. Qed.

(** What [observe_continuity] does with an accepted packet. *)
Lemma observe_accepted s m d p di pcr : heard s m d -> bytes_ok p ->
  inspect (View p) = Accepted p (packet_pid p) (packet_counter p) true di pcr ->
  let '(v, s') := observe_continuity s p in
  let d' := if bool_decide (v = boundary) then d else (spec_step d (CallObserve (View p))).2 in
  heard s' (spec_step m (CallObserve (View p))).2 d' /\
  (v <> boundary -> is_error (spec_step d (CallObserve (View p))).1 = true -> v = fault).
Proof.
  intros H Hb I. pose proof H as [R L P]. pose proof (packet_pid_bound p Hb) as Bd.
  destruct (step_refines (continuity_checker s) m (CallObserve (View p)) R Hb) as [E1 E2].
  unfold observe_continuity. cbn [step] in E1, E2. destruct (observe (continuity_checker s) (View p)) as [r c] eqn:Ob. cbn [fst snd] in E1, E2.
  cbn [spec_step] in *. rewrite I in *. set (pid := packet_pid p) in *. set (cc := packet_counter p) in *.
  set (s1 := s{{continuity_checker := c}}). pose proof (P pid Bd) as Hp.
  destruct (spec_classify (m !! pid) p cc true di pcr) as [kind rep] eqn:Cm. cbn [fst snd] in E1, E2. injection E1 as ->.
  cbn [res_kind res_pid res_counter res_has_payload res_discontinuity].
  assert (kind <> null_packet /\ kind <> transport_error /\ kind <> invalid_packet) as (N1 & N2 & N3).
  { unfold spec_classify in Cm. destruct di; [by injection Cm as <- <-|]. destruct (m !! pid); [|by injection Cm as <- <-].
    destruct (_ && _); [by injection Cm as <- <-|]. injection Cm as <- _. by destruct (_ =? _). }
  rewrite !bool_decide_false by done. cbn [orb negb].
  assert (default no_continuity (continuity s1 !! Z.to_nat pid) = known s pid) as -> by done.
  destruct di.
  { cbn in Cm. injection Cm as <- <-. rewrite bool_decide_false by done. cbn [spec_classify fst snd]. split; [|done].
    eapply (heard_upd s _ m d pid); try done.
    - cbn. by rewrite length_insert.
    - intros i Bi. by apply known_insert.
    - intros i Ni. by rewrite lookup_insert_ne.
    - rewrite lookup_insert_eq. cbn. eexists _, _. split; [done|]. split; [done|]. apply agree_refl. }
  unfold heard_pid in Hp. destruct (sc_established (known s pid)) eqn:Es.
  { destruct Hp as (a & b & Ha & Hb' & Ag). rewrite Ha in Cm. rewrite Hb'.
    pose proof (classify_stricter a b p cc false pcr Ag) as [C1 C2]. rewrite Cm in C1, C2. cbn [fst snd] in C1, C2.
    destruct (spec_classify (Some b) p cc true false pcr) as [kb repb]. cbn [fst snd] in *. subst repb.
    assert ((if bool_decide ((if bool_decide (kind = error) then fault else clean) = boundary) then d
             else <[pid:=mkEntry p cc true rep true]> d) = <[pid:=mkEntry p cc true rep true]> d) as ->.
    { by destruct (bool_decide (kind = error)). }
    split.
    - eapply (heard_upd s _ m d pid (known s pid)); try done.
      + intros i Bi. case_decide as X; [by subst|done].
      + intros i Ni. by rewrite lookup_insert_ne.
      + rewrite lookup_insert_eq. unfold heard_pid. rewrite Es. eexists _, _. split; [done|]. split; [done|]. apply agree_refl.
    - intros _ Er. apply bool_decide_eq_true in Er. cbn in Er. by rewrite (C2 Er). }
  destruct Hp as [Hd Hs]. rewrite Hd. cbn [spec_classify fst snd].
  destruct (sc_seen (known s pid)) eqn:Se; cbn [negb].
  2:{ rewrite bool_decide_true by done. split; [|done]. eapply (heard_upd s _ m d pid); try done.
      - cbn. by rewrite length_insert.
      - intros i Bi. by apply known_insert.
      - unfold heard_pid. cbn. rewrite Hd. split; [done|]. by eexists. }
  destruct Hs as (a & Ha & Hc). rewrite Ha in Cm.
  pose proof (rel_entry _ _ _ (rel_states _ _ R pid Bd) a Ha) as (_ & Ca & _ & _ & Ra). rewrite Ca in Ra.
  rewrite <- Hc, (expected_counter (e_counter a) 1) by lia.
  destruct (cc =? (e_counter a + 1) mod 16) eqn:X; cbn [negb].
  - rewrite bool_decide_false by done. split; [|done].
    assert (rep = false) as ->.
    { apply Z.eqb_eq in X. unfold spec_classify in Cm. destruct (cc =? e_counter a) eqn:Y; [|by injection Cm].
      apply Z.eqb_eq in Y. rewrite Y in X. exfalso. revert X. Z.to_euclidean_division_equations. lia. }
    eapply (heard_upd s _ m d pid); try done.
    + cbn. by rewrite length_insert.
    + intros i Bi. by apply known_insert.
    + intros i Ni. by rewrite lookup_insert_ne.
    + rewrite lookup_insert_eq. cbn. eexists _, _. split; [done|]. split; [done|]. apply agree_refl.
  - rewrite bool_decide_true by done. split; [|done]. eapply (heard_upd s _ m d pid); try done.
    + cbn. by rewrite length_insert.
    + intros i Bi. by apply known_insert.
    + unfold heard_pid. cbn [sc_established sc_seen sc_counter]. rewrite Hd. split; [done|]. by eexists.
Qed.

Lemma observe_heard s m d p : heard s m d -> has_data p -> bytes_ok p ->
  let '(v, s') := observe_continuity s p in
  let d' := if bool_decide (v = boundary) then d else (spec_step d (CallObserve (View p))).2 in
  heard s' (spec_step m (CallObserve (View p))).2 d' /\
  (v <> boundary -> is_error (spec_step d (CallObserve (View p))).1 = true -> v = fault).
Proof.
  intros H Hd Hb. pose proof (inspect_kind (View p)) as K. destruct (inspect (View p)) as [r|r|q pid cc payload di pcr] eqn:I.
  3:{ pose proof (Hd _ _ _ _ _ _ I) as ->. pose proof (inspect_accepted _ _ _ _ _ _ _ I) as (Ev & _ & -> & ->). injection Ev as <-.
      by apply (observe_accepted s m d p di pcr). }
  all: pose proof H as [R L P]; destruct (step_refines (continuity_checker s) m (CallObserve (View p)) R Hb) as [_ E2];
    unfold observe_continuity; cbn [step spec_step] in *; unfold observe in *; rewrite I in *; cbn [fst snd] in *.
  - assert (bool_decide (res_kind r = null_packet) || bool_decide (res_kind r = transport_error) || bool_decide (res_kind r = invalid_packet) = true) as ->.
    { destruct K as [-> | ->]; done. }
    rewrite bool_decide_false by done. split; [|intros _ E; apply bool_decide_eq_true in E; destruct K; congruence].
    split; [done|done|]. intros pid B. rewrite !lookup_fmap. apply heard_lose_both. by apply P.
  - rewrite K, (bool_decide_true (null_packet = null_packet)) by done. cbn [orb]. rewrite bool_decide_false by done. split; [split; [exact E2|exact L|exact P]|]. intros _ E. apply bool_decide_eq_true in E. congruence.
Qed.

(** * Histories *)

Definition op_bytes (o : SessionOp) : Prop := match o with OpEnqueue p => bytes_ok p /\ has_data p | _ => True end.

(** The checker of a session and the reader's, as far as the gate lets them agree. *)
Record audited (t : Trace) : Prop := {
  au_rel : exists m, checker_rel (continuity_checker (t_session t)) m;
  au_length : length (continuity (t_session t)) = Z.to_nat kPidCount;
  au_heard : is_live (t_session t) = true -> is_open (t_session t) = true -> startup_budget_fallback (startup (t_session t)) = false ->
    exists m, heard (t_session t) m (reader_run (t_published t)).2;
  au_closed : is_open (t_session t) = false -> t_published t = [];
  au_bytes : Forall bytes_ok (t_published t);
  au_errors : startup_budget_fallback (startup (t_session t)) = false ->
    errors (reader_run (t_published t)).1 <= f_continuity (t_open_faults t);
  au_nonneg : 0 <= f_continuity (t_open_faults t);
}.

Definition checker_kept (s s' : Session) : Prop :=
  continuity_checker s' = continuity_checker s /\ continuity s' = continuity s /\ (is_live s' = true -> is_live s = true).

Lemma neutral_checker policy s o bytes s' : neutral o = true -> op_ok o -> run_op policy s o = Some (bytes, s') -> checker_kept s s'.
Proof.
  intros N Ok R. destruct o as [p| |n b| | |r|r|size|a|a|a| | |]; try done; cbn [run_op] in R.
  7:{ unfold release_final in R. destruct (_ || _); by injection R as <- <-. }
  4:{ unfold read_now in R. destruct (_ =? 0).
      - destruct (negb _); by injection R as <- <-.
      - destruct (ring_pop _ _) as [[x y]|]; [|done]. by injection R as <- <-. }
  all: injection R as <- <-; unfold count_empty, mark_bridge_terminal, mark_terminal, detach_session, detach_failed, shutdown_session, shutdown_failed;
    split_ifs; by split_and!.
Qed.

Lemma faults_nonneg s o : 0 <= f_continuity (faults_of s o).
Proof. unfold faults_of. destruct (is_live s); cbn; [|done]. destruct o; cbn; try done; [by case_match|by case_match]. Qed.

(** Nothing is published and the checker stays. *)
Lemma audited_kept t o bytes s' : audited t -> checker_kept (t_session t) s' -> startup s' = startup (t_session t) ->
  (forall p, o = OpEnqueue p -> passes (t_session t) p = false) -> audited (note t o bytes s').
Proof.
  intros [A B C D E F G] (K1 & K2 & K3) U Ps. unfold note.
  assert (match o with OpEnqueue p => passes (t_session t) p | _ => false end = false) as -> by (destruct o; auto).
  cbn [andb]. rewrite app_nil_r.
  assert (is_open s' = is_open (t_session t)) as Op by (unfold is_open; by rewrite U).
  split; cbn [t_session t_published t_open_faults]; rewrite ?K1, ?K2, ?U, ?Op; try done.
  - intros L O Fb. destruct (C (K3 L) O Fb) as (m & [H1 H2 H3]). exists m. split; rewrite ?K1, ?K2; try done.
    intros pid Bd. unfold known. rewrite K2. by apply H3.
  - intros Fb. specialize (F Fb). pose proof (faults_nonneg (t_session t) o). destruct (is_open (t_session t)); cbn; lia.
  - pose proof (faults_nonneg (t_session t) o). destruct (is_open (t_session t)); cbn; lia.
Qed.

Lemma observe_checker s p m : bytes_ok p -> checker_rel (continuity_checker s) m -> length (continuity s) = Z.to_nat kPidCount ->
  let s' := (observe_continuity s p).2 in
  (exists m', checker_rel (continuity_checker s') m') /\ length (continuity s') = Z.to_nat kPidCount.
Proof.
  intros B R L. cbv zeta. destruct (step_refines (continuity_checker s) m (CallObserve (View p)) R B) as [_ E2]. cbn [step] in E2.
  unfold observe_continuity. destruct (observe (continuity_checker s) (View p)) as [r c]. cbn [snd] in E2.
  split; [exists (spec_step m (CallObserve (View p))).2|]; split_ifs; cbn; rewrite ?length_insert; done.
Qed.

(** A closed gate opens by itself only when the budget is used up. *)
Lemma finish_checker policy s m : checker_rel (continuity_checker s) m -> length (continuity s) = Z.to_nat kPidCount ->
  is_open s = false -> let s' := finish_startup_packet_locked policy s in
  (exists m', checker_rel (continuity_checker s') m') /\ length (continuity s') = Z.to_nat kPidCount /\
  (is_open s' = true -> startup_budget_fallback (startup s') = true).
Proof.
  intros R L Op. cbv zeta. unfold finish_startup_packet_locked. split_ifs.
  - split; [by exists m|]. split; [done|]. congruence.
  - split; [by exists m|]. split; [done|]. intros X. change (is_open s = true) in X. congruence.
  - split; [exists ∅; eapply reset_rel, R|]. split; [|done]. exact (length_replicate _ _).
Qed.

(** A closed gate. *)
Lemma audited_closed t o s' : audited t -> is_open (t_session t) = false ->
  (exists m', checker_rel (continuity_checker s') m') -> length (continuity s') = Z.to_nat kPidCount ->
  (is_open s' = true -> startup_budget_fallback (startup s') = true) -> audited (note t o [] s').
Proof.
  intros [A B C D E F G] Op R L Fb. unfold note. rewrite Op.
  assert (forall b, (match o with OpEnqueue p => passes (t_session t) p | _ => false end) && b = false) as Pf.
  { intros b. destruct o; try done. unfold passes. by rewrite Op, andb_false_r. }
  rewrite !Pf, app_nil_r.
  split; cbn [t_session t_published t_open_faults]; try done.
  - intros _ O Nf. rewrite (Fb O) in Nf. done.
  - intros _. by apply D.
  - intros Nf. by rewrite (D Op).
Qed.

Lemma sync_checker n b s : checker_kept s (count_sync_losses n b s).
Proof. unfold count_sync_losses. split_ifs; by split_and!. Qed.

(** An open gate. *)
Lemma observe_open s p : is_open (observe_continuity s p).2 = is_open s /\ is_live (observe_continuity s p).2 = is_live s /\
  startup_budget_fallback (startup (observe_continuity s p).2) = startup_budget_fallback (startup s).
Proof. unfold observe_continuity. split_ifs; done. Qed.

Lemma heard_ext s s' m d : heard s m d -> continuity_checker s' = continuity_checker s -> continuity s' = continuity s -> heard s' m d.
Proof. intros [A B C] E1 E2. split; rewrite ?E1, ?E2; try done. intros pid P. unfold known. rewrite E2. by apply C. Qed.

(** The continuity part of an enqueued packet, whether it is published or not. *)
Lemma enqueue_published_checker s p s' (H : enqueue_published s p = Some s') :
  exists s2, s2 = (observe_continuity (if tei_set p then s{{counters -> n_tei_packets ::= inc}} else s) p).2 /\
    continuity_checker s' = continuity_checker s2 /\ continuity s' = continuity s2 /\
    (is_full s = true -> passes s p = true -> is_live s' = false).
Proof.
  unfold enqueue_published in H. set (s1 := if tei_set p then s{{counters -> n_tei_packets ::= inc}} else s) in *.
  assert (verdict s p = (observe_continuity s1 p).1) as V.
  { symmetry. apply (verdict_ext s1 s); unfold s1; by destruct (tei_set p). }
  assert (ring s1 = ring s /\ startup_budget_fallback (startup s1) = startup_budget_fallback (startup s)) as [R1 F1] by (unfold s1; by destruct (tei_set p)).
  pose proof (same_ring _ _ (observe_continuity_same s1 p)) as R2. pose proof (observe_open s1 p) as (_ & _ & F2).
  unfold passes. rewrite V.
  destruct (observe_continuity s1 p) as [v s2]. cbn [fst snd] in *. exists s2. split; [done|].
  destruct (bool_decide (v = boundary) && negb (startup_budget_fallback (startup s2))) eqn:B.
  - injection H as <-. split; [done|]. split; [done|]. intros _ X. exfalso. rewrite F2, F1 in B.
    apply andb_true_iff in B as [B1 B2]. rewrite B1 in X. apply negb_true_iff in B2. rewrite B2, !andb_false_r in X. done.
  - set (s3 := if bool_decide (v = fault) then s2{{counters -> n_continuity_errors ::= inc}} else s2) in *.
    assert (continuity_checker s3 = continuity_checker s2 /\ continuity s3 = continuity s2 /\ ring s3 = ring s2) as (K1 & K2 & K3)
      by (unfold s3; by destruct (bool_decide (v = fault))).
    assert (forall f g, ring (s3{{counters -> n_packets ::= f; counters -> n_bytes ::= g}}) = ring s) as Rg.
    { intros f g. change (ring s3 = ring s). congruence. }
    rewrite Rg in H. unfold is_full. destruct (count (ring s) =? capacity (ring s)).
    + injection H as <-. split; [exact K1|]. split; [exact K2|]. intros _ _. unfold is_live. cbn. by rewrite andb_false_r.
    + destruct (ring_push (ring s) p); [|done]. injection H as <-. split; [exact K1|]. split; [exact K2|]. done.
Qed.

Lemma dead_checker policy s o bytes s' : is_live s = false -> op_ok o -> run_op policy s o = Some (bytes, s') -> checker_kept s s'.
Proof.
  intros L Ok R. destruct (neutral o) eqn:N; [by eapply neutral_checker|].
  assert (s' = s) as ->; [|by split_and!].
  destruct o as [p| |n b| | |r|r|size|a|a|a| | |]; try done; cbn [run_op] in R.
  - unfold enqueue in R. rewrite L in R. cbn in R. by injection R.
  - unfold count_wire_tei in R. rewrite L in R. cbn in R. by injection R.
  - unfold count_sync_losses in R. rewrite L in R. cbn in R. by injection R.
  - unfold promote_ready in R. assert (negb (attached s) || negb (bool_decide (terminal s = ST_none)) = true) as X.
    { unfold is_live in L. by rewrite <- negb_andb, L. }
    rewrite X in R. cbn [orb] in R. by injection R.
Qed.

Section AuditSteps.
Context (policy : StartupStabilizationPolicy) (t : Trace) (A : audited t) (Li : is_live (t_session t) = true).
Notation s := (t_session t).

Lemma audited_startup p : bytes_ok p -> is_open s = false -> audited (note t (OpEnqueue p) [] (enqueue_startup policy s p)).
Proof.
  intros B Op. pose proof A as [(m & R) L _ _ _ _ _]. set (s1 := s{{startup -> startup_packets ::= inc}}).
  assert (forall s2, (exists m', checker_rel (continuity_checker s2) m') -> length (continuity s2) = Z.to_nat kPidCount -> is_open s2 = false ->
    enqueue_startup policy s p = finish_startup_packet_locked policy s2 -> audited (note t (OpEnqueue p) [] (enqueue_startup policy s p))) as Fin.
  { intros s2 (m2 & R2) L2 O2 ->. destruct (finish_checker policy s2 m2 R2 L2 O2) as (R3 & L3 & F3). by apply audited_closed. }
  unfold enqueue_startup in *. destruct (tei_set p).
  - eapply Fin; [| | |reflexivity]; [|exact L|exact Op]. exists (lose_adjacency <$> m). by apply (invalidate_rel _ _ R).
  - pose proof (observe_checker s1 p m B R L) as (R1 & L1). pose proof (observe_open s1 p) as (O1 & _ & _). fold s1 in Fin |- *.
    destruct (observe_continuity s1 p) as [v s2]. cbn [snd] in *.
    eapply Fin; [| | |reflexivity]; destruct (bool_decide (v = fault)); try exact R1; try exact L1; exact (eq_trans O1 Op).
Qed.

Lemma audited_wire_tei : audited (note t OpWireTei [] (count_wire_tei policy s)).
Proof.
  pose proof A as [(m & R) L H C B E G]. unfold count_wire_tei. rewrite Li. cbn [negb].
  destruct (is_open s) eqn:Op; pose proof Op as Op'; unfold is_open in Op'.
  - apply negb_true_iff in Op'.
    assert (stabilizing (startup (s{{continuity_checker ::= observe_untrusted_packet}})) = false) as -> by exact Op'.
    unfold note, faults_of. rewrite Li, Op. cbn [negb andb]. rewrite app_nil_r.
    split; cbn [t_session t_published t_open_faults]; try done.
    + exists (lose_adjacency <$> m). by apply (invalidate_rel _ _ R).
    + intros _ _ Fb. destruct (H Li eq_refl Fb) as (m1 & [H1 H2 H3]). exists (lose_adjacency <$> m1).
      split; [by apply (invalidate_rel _ _ H1)|exact H2|]. intros pid Bd. rewrite lookup_fmap. apply heard_lose_pid. by apply H3.
    + intros X. change (is_open s = false) in X. congruence.
    + intros Fb. specialize (E Fb). cbn. lia.
    + cbn. lia.
  - apply negb_false_iff in Op'.
    assert (stabilizing (startup (s{{continuity_checker ::= observe_untrusted_packet}})) = true) as -> by exact Op'.
    match goal with |- audited (note _ _ _ (finish_startup_packet_locked _ ?s2)) =>
      destruct (finish_checker policy s2 (lose_adjacency <$> m) (invalidate_rel _ _ R) L Op) as (R3 & L3 & F3) end.
    by apply audited_closed.
Qed.

Lemma audited_promote : audited (note t OpPromote [] (promote_ready s)).
Proof.
  pose proof A as [(m & R) L H C B E G].
  assert (promote_ready s = s \/ is_open s = false /\ promote_ready s = publish_session_locked s) as [-> |[Op ->]].
  { unfold promote_ready, is_open. destruct (stabilizing (startup s)); split_ifs; auto. all: rewrite ?orb_true_r in *; try done; by left. }
  - apply audited_kept; [done|by split_and!|done|done].
  - unfold note, faults_of. rewrite Li, Op, (C Op). cbn [negb andb]. split; cbn [t_session t_published t_open_faults]; try done.
    + exists ∅. eapply reset_rel, R.
    + intros _ _ _. exists ∅. split; [eapply reset_rel, R|exact (length_replicate _ _)|]. intros pid Bd.
      unfold known. change (continuity (publish_session_locked s)) with no_startup_continuity. unfold no_startup_continuity.
      rewrite lookup_replicate_2 by lia. done.
Qed.

Lemma audited_published p s' : bytes_ok p -> has_data p -> is_open s = true -> enqueue_published s p = Some s' ->
  audited (note t (OpEnqueue p) [] s').
Proof.
  intros Bp Hd Op En. pose proof A as [(m & R) L H C B E G].
  pose proof (enqueue_published_counts _ _ _ En) as (U1 & _ & U3 & _).
  destruct (enqueue_published_checker _ _ _ En) as (s2 & E2 & K1 & K2 & Fu).
  set (s1 := if tei_set p then s{{counters -> n_tei_packets ::= inc}} else s) in *.
  assert (continuity_checker s1 = continuity_checker s /\ continuity s1 = continuity s) as [J1 J2] by (unfold s1; by destruct (tei_set p)).
  assert (verdict s p = (observe_continuity s1 p).1) as V by (symmetry; by apply verdict_ext).
  assert (is_open s' = true) as Op' by (unfold is_open in *; by rewrite U1).
  assert (passes s p = negb (bool_decide (verdict s p = boundary)) || startup_budget_fallback (startup s)) as Ps.
  { unfold passes. by rewrite Li, Op. }
  unfold note. rewrite Op. cbn [t_session].
  split; cbn [t_session t_published t_open_faults].
  - destruct (observe_checker s1 p m Bp ltac:(by rewrite J1) ltac:(by rewrite J2)) as [R' _]. rewrite K1, E2. exact R'.
  - destruct (observe_checker s1 p m Bp ltac:(by rewrite J1) ltac:(by rewrite J2)) as [_ L']. rewrite K2, E2. exact L'.
  - intros L' _ Fb. rewrite U3 in Fb. destruct (H Li Op Fb) as (m1 & Hm). apply (heard_ext s s1 _ _) in Hm; [|done|done].
    pose proof (observe_heard s1 m1 _ p Hm Hd Bp) as O. rewrite Ps, Fb, orb_false_r, V in *. destruct (observe_continuity s1 p) as [v s3].
    cbn [fst snd] in *. subst s3. destruct O as [O _]. exists (spec_step m1 (CallObserve (View p))).2.
    assert (negb (bool_decide (v = boundary)) && is_full s = false) as Nf.
    { destruct (is_full s); [|by rewrite andb_false_r]. destruct (negb (bool_decide (v = boundary))); [|done]. rewrite Fu in L' by done. done. }
    apply (heard_ext s2 s' _ _); [|done|done]. destruct (bool_decide (v = boundary)); cbn [negb andb] in *; [by rewrite app_nil_r|].
    rewrite Nf. cbn [negb]. by rewrite reader_snoc.
  - congruence.
  - apply Forall_app. split; [done|]. case_match; [by constructor|constructor].
  - intros Fb. rewrite U3 in Fb. specialize (E Fb). destruct (H Li Op Fb) as (m1 & Hm). apply (heard_ext s s1 _ _) in Hm; [|done|done].
    pose proof (observe_heard s1 m1 _ p Hm Hd Bp) as O. unfold faults_of. rewrite Li, Ps, Fb, orb_false_r, V in *. destruct (observe_continuity s1 p) as [v s3].
    cbn [fst snd negb] in *. destruct O as [_ O]. cbn [add_faults f_continuity].
    destruct (negb (bool_decide (v = boundary)) && negb (is_full s)) eqn:X.
    + rewrite reader_snoc. cbn [fst]. rewrite errors_snoc. apply andb_true_iff in X as [X _]. apply negb_true_iff, bool_decide_eq_false in X.
      destruct (is_error _) eqn:Er; [|case_match; lia]. rewrite bool_decide_true by (by apply O). lia.
    + rewrite app_nil_r. case_match; lia.
  - pose proof (faults_nonneg s (OpEnqueue p)). cbn [add_faults f_continuity]. lia.
Qed.
End AuditSteps.

Lemma step_audited policy t o t' : op_ok o -> op_bytes o -> audited t -> step_trace policy t o = Some t' -> audited t'.
Proof.
  intros Ok Ob A E. unfold step_trace in E. destruct (run_op policy (t_session t) o) as [[bytes s']|] eqn:R; [|done].
  unfold mbind, option_bind in E. injection E as <-. destruct (is_live (t_session t)) eqn:Li.
  2:{ apply audited_kept; [done|by eapply dead_checker|by apply (dead_kept policy _ o bytes _ Li R)|]. intros p ->. unfold passes. rewrite Li. done. }
  destruct (neutral o) eqn:Ne.
  { apply audited_kept; [done|by eapply neutral_checker|by apply (neutral_kept policy _ o bytes _ Ne R)|]. by intros p ->. }
  destruct o as [p| |n b| | |r|r|size|a|a|a| | |]; try done; cbn [run_op] in R.
  - destruct Ob as [Bp Hd]. unfold enqueue in R. rewrite Li in R. cbn [negb] in R.
    destruct (stabilizing (startup (t_session t))) eqn:St.
    + injection R as <- <-. apply audited_startup; try done. unfold is_open. by rewrite St.
    + destruct (enqueue_published (t_session t) p) as [s1|] eqn:En; [|done]. injection R as <- <-.
      apply audited_published; try done. unfold is_open. by rewrite St.
  - injection R as <- <-. by apply audited_wire_tei.
  - injection R as <- <-. pose proof (sync_checker n b (t_session t)) as (K1 & K2 & K3). destruct (is_open (t_session t)) eqn:Op.
    + apply audited_kept; [done|done| |done]. unfold count_sync_losses, is_open in *. apply negb_true_iff in Op. rewrite Li, Op. cbn [negb]. by destruct (_ || _).
    + apply audited_closed; [done|done|rewrite K1; apply A|rewrite K2; apply A|]. intros X. exfalso.
      assert (is_open (count_sync_losses n b (t_session t)) = is_open (t_session t)) as Y by (unfold count_sync_losses; split_ifs; done). congruence.
  - injection R as <- <-. by apply audited_promote.
Qed.

Lemma attach_audited queue_packets policy allocated a s s0 :
  length (states_ (continuity_checker s)) = Z.to_nat kPidCount ->
  attach_session queue_packets policy allocated a s = (success tt, s0) -> audited (new_trace s0).
Proof.
  intros L E. unfold attach_session in E. destruct (attached s || draining s); [done|].
  destruct (match packets (ring s) with Some _ => _ | None => _ end) as [r|]; [|done]. injection E as <-.
  assert (checker_rel (reset (continuity_checker s)) ∅) as R.
  { split; cbn; [by rewrite length_fmap|width_lia|]. intros pid Bd. unfold reset. rewrite state_at_map by done.
    split; cbn; [done..|]. intros e. by rewrite lookup_empty. }
  unfold new_trace. split; cbn [t_session t_published t_open_faults]; try done; [by exists ∅|].
  intros _ _ _. exists ∅. split; [exact R|exact (length_replicate _ _)|]. intros pid Bd. unfold known.
  change (heard_pid (default no_continuity (no_startup_continuity !! Z.to_nat pid)) ((∅ : gmap Z Entry) !! pid) ((∅ : gmap Z Entry) !! pid)).
  unfold no_startup_continuity. by rewrite lookup_replicate_2 by lia.
Qed.

Lemma faults_bound s o : f_continuity (faults_of s o) <= 1.
Proof. unfold faults_of. destruct (is_live s); cbn; [|lia]. destruct o; cbn; try lia; case_match; cbn; lia. Qed.

Lemma run_audited policy ops t t' : Forall op_ok ops -> Forall op_bytes ops -> audited t -> run_trace policy t ops = Some t' ->
  audited t' /\ f_continuity (t_open_faults t') <= f_continuity (t_open_faults t) + zlen ops.
Proof.
  intros Ok. revert t. induction Ok as [|o ops Oo Ok IH]; intros t Ob A R; cbn [run_trace] in R.
  - injection R as <-. split; [done|]. zlen_lia.
  - apply Forall_cons in Ob as [Ob1 Ob2]. destruct (step_trace policy t o) as [t1|] eqn:E; [|done]. unfold mbind, option_bind in R.
    destruct (IH t1 Ob2 (step_audited policy t o t1 Oo Ob1 A E) R) as [A2 B2]. split; [done|]. rewrite zlen_cons.
    unfold step_trace in E. destruct (run_op policy (t_session t) o) as [[bytes s']|]; [|done]. injection E as <-. unfold note in B2. cbn [t_open_faults] in B2.
    pose proof (faults_bound (t_session t) o). destruct (is_open (t_session t)); cbn [add_faults f_continuity] in B2; lia.
Qed.

(** C29 No error is hidden from a client: unless the gate was opened by an exhausted
    budget, a continuity checker that reads what is published finds no more errors
    than the session has counted, however the pump, the reader and the owner take
    turns and whatever untrusted packets came between, as long as the packets carry
    payload. *)
Theorem delivered_errors_counted queue_packets policy allocated a s s0 ops t :
  policy_ok policy -> length (states_ (continuity_checker s)) = Z.to_nat kPidCount ->
  attach_session queue_packets policy allocated a s = (success tt, s0) ->
  Forall op_ok ops -> Forall op_bytes ops -> zlen ops < 2 ^ 64 - 1 -> run_trace policy (new_trace s0) ops = Some t ->
  startup_budget_fallback (startup (t_session t)) = false ->
  reader_errors (t_published t) <= n_continuity_errors (counters (t_session t)).
Proof.
  intros Po L E Ok Ob Z R Fb. pose proof (attach_gated _ _ _ _ _ _ Po E) as G.
  destruct (run_gated policy ops _ t Po G ltac:(cbn; lia) R) as ([C G'] & B & _).
  destruct (run_audited policy ops _ t Ok Ob (attach_audited _ _ _ _ _ _ L E) R) as [[_ _ _ A4 A5 A6 A7] Bd].
  rewrite reader_errors_run by done. specialize (A6 Fb). cbn in Bd. destruct (is_open (t_session t)) eqn:Op.
  - destruct G' as [_ [(X & _)|(_ & _ & _ & _ & -> & _)]]; [congruence|]. rewrite cast_u64_small; [done|]. unfold is_u64. lia.
  - rewrite (A4 eq_refl). destruct G' as [_ _ _ (_ & -> & _) _ _ _ _ _]. done.
Qed.

(** * A small session *)

Definition small_policy : StartupStabilizationPolicy := {| minimum_packets := 3; clean_packets := 2; maximum_packets := 5 |}.
Definition client : TunerService.TunerAttachment := {|
  TunerService.a_owner_client_id := 5; TunerService.a_lease_id := 1; TunerService.a_attachment_id := 1;
  TunerService.a_receiver := 0; TunerService.a_system := ISDB_S; TunerService.a_nonce := repeat 7 16 |}.
(** Room for two packets. *)
Definition small_memory : option (list Z) := Some (repeat 0 376).
Definition small_session : Session := (attach_session 2 small_policy small_memory client Session_init).2.
(** A payload packet of PID 0x101. *)
Definition ts_packet (cc : Z) : list Z := [0x47; 0x01; 0x01; 0x10 + cc] ++ repeat 0xaa 184.
Definition settle : list SessionOp := OpWireTei :: ((fun cc => OpEnqueue (ts_packet cc)) <$> [3; 4; 5; 6]) ++ [OpPromote].
(** The gate opens; packet 7 is at its boundary, 8 and 9 are published, 12 after a
    gap does not fit any more until two packets were read. *)
Definition lively : list SessionOp :=
  settle ++ ((fun cc => OpEnqueue (ts_packet cc)) <$> [7; 8; 9]) ++ [OpRead 376] ++ ((fun cc => OpEnqueue (ts_packet cc)) <$> [12; 13; 14]) ++
  [OpDetach client; OpRead 188].

Lemma small_attached : attach_session 2 small_policy small_memory client Session_init = (success tt, small_session).
Proof. reflexivity. Qed.
Lemma small_ok : buffer_ok 2 small_policy small_memory Session_init.
Proof. split; [lia|]. split; [|done]. by intros buf [= <-]. Qed.

Lemma lively_ok : Forall op_ok lively /\ Forall op_bytes lively.
Proof.
  assert (forall p, has_data p <-> match inspect (View p) with Accepted _ _ _ payload _ _ => payload = true | _ => True end) as D.
  { intros p. unfold has_data. split.
    - intros H. destruct (inspect (View p)); try done. by eapply H.
    - intros H q pid cc payload di pcr E. by rewrite E in H. }
  split; repeat (apply Forall_cons; split); try apply Forall_nil; try done; cbn [op_bytes]; (split; [apply bytes_okb_ok; vm_compute; reflexivity|]);
    apply D; vm_compute; reflexivity.
Qed.

Definition lively_trace : Trace := default (new_trace small_session) (run_trace small_policy (new_trace small_session) lively).
Lemma lively_run : run_trace small_policy (new_trace small_session) lively = Some lively_trace.
Proof. vm_compute. reflexivity. Qed.

Lemma stream_delivers_witness :
  concat (t_published lively_trace) = t_read lively_trace ++ concat (queued (ring (t_session lively_trace))) /\
  t_published lively_trace = ts_packet <$> [8; 9; 12; 13] /\ t_read lively_trace = concat (ts_packet <$> [8; 9; 12]) /\
  queued (ring (t_session lively_trace)) = [ts_packet 13] /\
  n_packets (counters (t_session lively_trace)) = 5 /\ n_queue_drops (counters (t_session lively_trace)) = 1.
Proof.
  destruct (stream_delivers 2 small_policy small_memory client Session_init small_session lively small_ok small_attached (proj1 lively_ok))
    as (t & lost & R & D & K & _).
  rewrite lively_run in R. apply (inj Some) in R. subst t.
  rewrite K, app_nil_r in D by (repeat (apply Forall_cons; split; [reflexivity|]); apply Forall_nil; done).
  split; [exact D|]. split; [vm_compute; reflexivity|]. split; [vm_compute; reflexivity|]. split; [vm_compute; reflexivity|].
  split; vm_compute; reflexivity.
Defined.

Lemma startup_gate_witness :
  is_open (t_session lively_trace) = true /\ t_held lively_trace = 5 /\ t_clean lively_trace = 4 /\
  counted (mkFaults 0 1 0) (counters (t_session lively_trace)) /\ t_faults lively_trace = mkFaults 1 1 0.
Proof.
  assert (policy_ok small_policy) as Po by (cbv; done).
  destruct (startup_gate 2 small_policy small_memory client Session_init small_session lively lively_trace Po small_attached eq_refl lively_run)
    as [G _].
  assert (is_open (t_session lively_trace) = true) as Op by (vm_compute; reflexivity). rewrite Op in G.
  split; [reflexivity|]. split; [vm_compute; reflexivity|]. split; [vm_compute; reflexivity|]. split; [|vm_compute; reflexivity].
  destruct G as [(F & _)|(_ & _ & _ & G)]; [vm_compute in F; discriminate F|].
  assert (t_open_faults lively_trace = mkFaults 0 1 0) as E by (vm_compute; reflexivity). rewrite E in G. exact G.
Defined.

Lemma delivered_errors_counted_witness :
  reader_errors (t_published lively_trace) <= n_continuity_errors (counters (t_session lively_trace)) /\
  reader_errors (t_published lively_trace) = 1.
Proof.
  split; [|vm_compute; reflexivity].
  apply (delivered_errors_counted 2 small_policy small_memory client Session_init small_session lively); try exact small_attached.
  - cbv. done.
  - vm_compute. reflexivity.
  - apply lively_ok.
  - apply lively_ok.
  - vm_compute. reflexivity.
  - exact lively_run.
  - vm_compute. reflexivity.
Defined.

(** * Gaps that do not show *)

(** When the budget is exhausted, the first packets of a PID are published although
    nothing is known of it yet, and a gap between them is not counted. *)
Definition exhausted : list SessionOp := repeat OpWireTei 5 ++ ((fun cc => OpEnqueue (ts_packet cc)) <$> [5; 9]).

Theorem fallback_gap_uncounted : exists t, run_trace small_policy (new_trace small_session) exhausted = Some t /\
  is_open (t_session t) = true /\ t_published t = ts_packet <$> [5; 9] /\ reader_errors (t_published t) = 1 /\
  n_continuity_errors (counters (t_session t)) = 0.
Proof.
  exists (default (new_trace small_session) (run_trace small_policy (new_trace small_session) exhausted)).
  split; [vm_compute; reflexivity|]. split; [vm_compute; reflexivity|]. split; [vm_compute; reflexivity|]. split; vm_compute; reflexivity.
Qed.
