(* ===== verification/StreamPlane.v ===== *)
(** The stream data plane ([src/q3u4_stream.cpp]): the layouts of receivers on
    bridges, what the pump of a bridge does with a transfer, and the life of a
    bridge with its pump thread, as a transition system.  A step is one section of
    the mutex [lifecycle] of a bridge, one call to the USB transport, or one section
    of the mutex of a session; a wait for a condition variable is a step that is
    possible only once the condition holds.  Sections of several sessions that run
    under [lifecycle] are one step. *)

From coqutil Require Import Datatypes.RecordSetters.
From stdpp Require Import relations.
From S2P Require Import Prelude IpcTypes StreamSession.
From S2P Require TunerService TaggedTsDemux Identity It930xInit.

Import DoubleBraceUpdate.
Import TunerService(TunerAttachment, a_owner_client_id, a_lease_id, a_attachment_id, a_receiver, a_system, a_nonce).
Import TaggedTsDemux(TaggedTsDemux).
Import Identity(DeviceModel(..)).
#[local] Existing Instance Identity.DeviceModel_eq_dec.
Open Scope Z_scope.

(** * Layouts *)

Record StreamLayout := {
  bridge_count : nat;
  receivers_per_bridge : nat;
  dual_system : bool;
  tag_count : Z;
  tag_to_receiver : list Z;
  plain_ts : bool;
}.
Definition layout (bridges receivers : nat) (dual : bool) (tags : Z) (map : list Z) (plain : bool) : StreamLayout := {|
  bridge_count := bridges; receivers_per_bridge := receivers; dual_system := dual; tag_count := tags;
  tag_to_receiver := map; plain_ts := plain |}.

Definition kQ3U4Layout : StreamLayout := layout 2 4 false 4 [0; 1; 2; 3; -1] false.
Definition kW3U4Layout : StreamLayout := layout 1 4 false 4 [0; 1; 2; 3; -1] false.
Definition kMlt5PeLayout : StreamLayout := layout 1 5 true 5 [0; 1; 2; 3; 4] false.

(** The loop over the receivers of a model. *)
Definition add_receiver (l : StreamLayout) (entry : nat * It930xInit.MltReceiverInput) : StreamLayout :=
  let tag := cast_u8 (It930xInit.port_number entry.2 + 1) in
  if 5 <? tag then l
  else l{{ tag_to_receiver ::= <[Z.to_nat (tag - 1) := Z.of_nat entry.1]>;
           tag_count ::= fun c => if c <? tag then tag else c }}.
Definition mlt_stream_layout (m : DeviceModel) : StreamLayout :=
  if bool_decide (m = px_mlt5pe) || bool_decide (m = dtv02a_5ts_p) then kMlt5PeLayout
  else if bool_decide (m = px_m1ur) || bool_decide (m = px_s1ur) || bool_decide (m = dtv03a_1tu)
          || bool_decide (m = dtv02_1t1s_u) || bool_decide (m = dtv02a_1t1s_u)
  then layout 1 1 (Identity.dual_system (Identity.device_profile m)) 1 [0; -1; -1; -1; -1] true
  else
    let profile := It930xInit.mlt_model_layout m in
    let n := Z.to_nat (It930xInit.mlt_receiver_count profile) in
    foldl add_receiver (layout 1 n true 0 [-1; -1; -1; -1; -1] false)
      (zip (seq 0 n) (It930xInit.mlt_receivers profile)).

Section Layout.
Context (l : StreamLayout).

Definition valid_receiver (r : nat) : bool := (r <? bridge_count l * receivers_per_bridge l)%nat.
Definition bridge_index (r : nat) : nat := (r / receivers_per_bridge l)%nat.
Definition valid_system (r : nat) (sys : System) : bool :=
  if dual_system l then bool_decide (sys = ISDB_T) || bool_decide (sys = ISDB_S)
  else if plain_ts l then bool_decide (sys = ISDB_T)
  else
    let satellite := (r mod receivers_per_bridge l <? 2)%nat in
    bool_decide (sys = if satellite then ISDB_S else ISDB_T).

(** * The calls of a pump to the sessions *)

Definition Calls : Type := list (nat * SessionOp).
Definition receiver_base (b : nat) : nat := (b * receivers_per_bridge l)%nat.
Definition receivers_of (b : nat) : list nat := seq (receiver_base b) (receivers_per_bridge l).
Definition to_all (b : nat) (o : SessionOp) : Calls := (fun r => (r, o)) <$> receivers_of b.

Definition mapped (i : Z) : Z := nth (Z.to_nat i) (tag_to_receiver l) (-1).
(** The sink and the observer never depend on a session: [w] is what they call. *)
Definition packet_sink (b : nat) (w : Calls) (i : Z) (p : list Z) : Result unit * Calls :=
  if (tag_count l <=? i) || negb (zlen p =? TsContinuity.kPacketSize) then (failure INVALID_ARGUMENT, w)
  else if mapped i <? 0 then (success tt, w)
  else (success tt, w ++ [((receiver_base b + Z.to_nat (mapped i))%nat, OpEnqueue p)]).
Definition wire_tag_observer (b : nat) (w : Calls) (wire_sync : Z) : Calls :=
  if Z.land wire_sync 0x80 =? 0 then w
  else
    let wire_tag := Z.land (Z.shiftr wire_sync 4) 0x07 in
    if (wire_tag =? 0) || (tag_count l <? wire_tag) then w
    else if 0 <=? mapped (wire_tag - 1)
    then w ++ [((receiver_base b + Z.to_nat (mapped (wire_tag - 1)))%nat, OpWireTei)] else w.

Definition push_transfer (b : nat) (d : TaggedTsDemux) (bytes : list Z) : option (Result unit * TaggedTsDemux * Calls) :=
  TaggedTsDemux.push (Some (packet_sink b)) (Some (wire_tag_observer b)) d (View bytes) [].
End Layout.

Definition terminal_for_error (e : Error) : StreamTerminal :=
  if bool_decide (e = DISCONNECTED) then ST_disconnected else ST_usb_error.

(** * State *)

Inductive BridgeState := BS_stopped | BS_starting | BS_running | BS_stopping | BS_fatal.
#[export] Instance BridgeState_eq_dec : EqDecision BridgeState.
Proof. solve_decision. Defined.

(** [thread] names a pump of the bridge. *)
Record Bridge := {
  thread : option nat;
  stop_requested : bool;
  join_in_progress : bool;
  state : BridgeState;
  cleanup_done : bool;
  cleanup_error : Error;
  attached_count : Z;
  demux : TaggedTsDemux;
  demux_counters : TaggedTsDemux.Counters * Z;
}.

(** What the sides share. *)
Record Shared := {
  sessions_ : list Session;
  enclosure_fatal_ : bool;
  shutting_down_ : bool;
  bridge_sync_errors_ : list Z;
}.

(** A call to the transport of a bridge; the wait is open from its begin to its end. *)
Inductive TransportCall :=
  | T_start (r : Result unit) | T_wait | T_event | T_cancel (r : Result unit) | T_stop (r : Result unit).

(** Where a pump is: the check of [stopping], before
    and in [wait_stream], among its calls to
    the sessions (and whether the loop goes on after them), and in [finish_pump]. *)
Inductive PumpPc :=
  | P_check | P_enter | P_wait | P_calls (c : Calls) (again : bool)
  | P_finish | P_cancel | P_stop (first : Error) | P_end (first : Error) | P_done.

(** Where [detach] or [shutdown] is once it stops a bridge: in the stages of
    [stop_bridge], and in what comes after it. *)
Inductive After := AfterDetach (a : TunerAttachment) | AfterShutdown (first : Error).
Inductive CallerPc :=
  | C_stop (owns_stopping : bool) (k : After)
  | C_cancel (claimed : option nat) (cleanup : bool) (k : After)
  | C_join (claimed : option nat) (cleanup : bool) (first : Error) (k : After)
  | C_stop_stream (cleanup : bool) (first : Error) (k : After)
  | C_end (first : Error) (k : After)
  | C_fatal (first : Error) (k : After)
  | C_tail (stopped : Result unit) (k : After)
  | C_next (first : Error).

(** A bridge with its pumps, the callers that stop it, and its transport calls, the
    latest first. *)
Record Side := { bridge : Bridge; pumps : list PumpPc; callers : list CallerPc; transport : list TransportCall }.
Record Plane := { shared : Shared; sides : list Side }.

(** * Sections *)

Section Plane.
Context (l : StreamLayout) (queue_packets_ : Z) (stabilization_ : StartupStabilizationPolicy).

Definition session_at (sh : Shared) (r : nat) : Session := default Session_init (sessions_ sh !! r).
Definition upd_session (r : nat) (f : Session -> Session) (sh : Shared) : Shared := sh{{ sessions_ ::= alter f r }}.
(** Every session of bridge [b]. *)
Definition upd_sessions (b : nat) (f : Session -> Session) (sh : Shared) : Shared :=
  foldl (fun sh r => upd_session r f sh) sh (receivers_of l b).
Definition mark_all_terminal (reason : StreamTerminal) (sh : Shared) : Shared := sh{{ sessions_ ::= fmap (mark_terminal reason) }}.
Definition bridge_fatal (sh : Shared) : Shared := mark_all_terminal ST_bridge_fatal (sh{{ enclosure_fatal_ := true }}).

Definition in_state (br : Bridge) (st : BridgeState) : bool := bool_decide (state br = st).
Definition stopping (br : Bridge) : bool :=
  stop_requested br || in_state br BS_stopping || in_state br BS_stopped || in_state br BS_fatal.
(** The loop around [state_changed.wait] in [attach], [detach] and [shutdown]. *)
Definition settled (br : Bridge) : bool := negb (in_state br BS_starting || in_state br BS_stopping).
Definition error_of {A} (r : Result A) : Error := match r with success _ => OK | failure e => e end.
Definition result_of (e : Error) : Result unit := if bool_decide (e = OK) then success tt else failure e.
(** [if (!result && first == OK) first = result.error()]. *)
Definition first_error (first : Error) (r : Result unit) : Error := if bool_decide (first = OK) then error_of r else first.

(** ** Starting *)

(** What the transport and the system answer. *)
Record StartAnswers := { started : Result unit; spawned : bool; cancelled : Result unit; stopped : Result unit }.

Definition start_bridge_locked (w : StartAnswers) (st : Shared * Side) : Result unit * (Shared * Side) :=
  let '(sh, sd) := st in
  let br := bridge sd in
  if negb (in_state br BS_stopped) then (failure BUSY, st)
  else if bool_decide (thread br <> None) then (failure BUSY, st)
  else
    let sd := sd{{ bridge -> cleanup_done := false; bridge -> cleanup_error := OK; transport ::= cons (T_start (started w)) }} in
    match started w with
    | failure e => (failure e, (sh, sd{{ bridge -> state := BS_stopped }}))
    | success _ =>
        let d := TaggedTsDemux.reset (demux br) in
        let sd := sd{{ bridge -> demux := d; bridge -> demux_counters := TaggedTsDemux.counters d; bridge -> stop_requested := false }} in
        if spawned w then
          (success tt, (sh, sd{{ bridge -> thread := Some (length (pumps sd)); bridge -> state := BS_running; pumps ::= fun p => p ++ [P_check] }}))
        else
          let first := first_error (error_of (cancelled w)) (stopped w) in
          let ok := bool_decide (first = OK) in
          ((if ok then failure INTERNAL else failure first),
           ((if ok then sh else bridge_fatal sh),
            sd{{ bridge -> stop_requested := true; bridge -> cleanup_done := true; bridge -> cleanup_error := first;
                 bridge -> state := if ok then BS_stopped else BS_fatal;
                 transport ::= fun t => T_stop (stopped w) :: T_cancel (cancelled w) :: t }}))
    end.

Definition valid_attachment (a : TunerAttachment) : bool :=
  negb (a_owner_client_id a =? 0) && negb (a_lease_id a =? 0) && negb (a_attachment_id a =? 0)
  && valid_receiver l (a_receiver a) && valid_system l (a_receiver a) (a_system a).

(** [attach], once the bridge is settled. *)
Definition attach (a : TunerAttachment) (allocated : option (list Z)) (w : StartAnswers) (st : Shared * Side) : Result unit * (Shared * Side) :=
  let '(sh, sd) := st in
  if negb (valid_attachment a) then (failure INVALID_ARGUMENT, st)
  else if shutting_down_ sh || enclosure_fatal_ sh || in_state (bridge sd) BS_fatal then (failure DISCONNECTED, st)
  else if in_state (bridge sd) BS_stopped && negb (attached_count (bridge sd) =? 0) then (failure INTERNAL, st)
  else
    let '(r, s) := attach_session queue_packets_ stabilization_ allocated a (session_at sh (a_receiver a)) in
    let sh := upd_session (a_receiver a) (fun _ => s) sh in
    if negb (is_success r) then (r, (sh, sd))
    else
      let '(r, (sh, sd)) := if attached_count (bridge sd) =? 0 then start_bridge_locked w (sh, sd) else (success tt, (sh, sd)) in
      if negb (is_success r) then (r, (upd_session (a_receiver a) attach_undone sh, sd))
      else (success tt, (sh, sd{{ bridge -> attached_count ::= inc }})).

(** ** Stopping *)

(** [detach] and [shutdown] up to [stop_bridge], once the bridge is settled. *)
Definition begin_stop (k : After) (sd : Side) : Side :=
  let owns := in_state (bridge sd) BS_running in
  let sd := if owns then sd{{ bridge -> state := BS_stopping; bridge -> stop_requested := true }} else sd in
  sd{{ callers ::= fun c => c ++ [C_stop owns k] }}.

Definition detach (a : TunerAttachment) (st : Shared * Side) : Result unit * (Shared * Side) :=
  let '(sh, sd) := st in
  if negb (valid_receiver l (a_receiver a)) then (failure NOT_FOUND, st)
  else
    let '(r, s) := detach_session a (session_at sh (a_receiver a)) in
    if negb (is_success r) then (r, st)
    else
      let sh := upd_session (a_receiver a) (fun _ => s) sh in
      let sd := sd{{ bridge -> attached_count ::= fun n => if n =? 0 then 0 else n - 1 }} in
      (success tt, (sh, if attached_count (bridge sd) =? 0 then begin_stop (AfterDetach a) sd else sd)).

Definition shutdown_bridge (b : nat) (first : Error) (st : Shared * Side) : Shared * Side :=
  (upd_sessions b shutdown_session st.1, begin_stop (AfterShutdown first) (st.2{{ bridge -> attached_count := 0 }})).

(** [stop_bridge] to its first [lifecycle.unlock()]. *)
Definition stop_may_begin (owns_stopping : bool) (br : Bridge) : bool :=
  if owns_stopping then negb (join_in_progress br) else settled br && negb (join_in_progress br).
Definition stop_begin (owns_stopping : bool) (k : After) (br : Bridge) : Bridge * CallerPc :=
  let join_needed := bool_decide (thread br <> None) in
  let cleanup_needed := negb (cleanup_done br) && (in_state br BS_running || (owns_stopping && in_state br BS_stopping)) in
  if negb join_needed && negb cleanup_needed then (br, C_tail (result_of (cleanup_error br)) k)
  else
    (br{{ thread := None; join_in_progress := join_needed; stop_requested := true;
          state ::= fun st => if cleanup_needed then BS_stopping else st }},
     C_cancel (thread br) cleanup_needed k).
(** and from its second [lifecycle.lock()]. *)
Definition stop_end (first : Error) (k : After) (br : Bridge) : Bridge * CallerPc :=
  let first := if bool_decide (first = OK) then cleanup_error br else first in
  let ok := bool_decide (first = OK) in
  (br{{ cleanup_done := true; cleanup_error := first; state := if ok then BS_stopped else BS_fatal; join_in_progress := false }},
   if ok then C_tail (success tt) k else C_fatal first k).

(** The end of [detach] and of a round of [shutdown] after a successful stop. *)
Definition unfatal (br : Bridge) : Bridge :=
  if in_state br BS_fatal && (attached_count br =? 0) then br{{ state := BS_stopped }} else br.

(** ** The pump *)

(** A round of [run] with what [wait_stream] gave. *)
Definition on_event (b : nat) (e : Result (list Z)) (st : Shared * Bridge) : option (Shared * Bridge * Calls * bool) :=
  let '(sh, br) := st in
  match e with
  | failure e => Some (sh, br, if bool_decide (e = TIMEOUT) then to_all l b OpEmpty else to_all l b (OpBridgeTerminal (terminal_for_error e)),
                       bool_decide (e = TIMEOUT))
  | success [] => Some (sh, br, to_all l b OpEmpty, true)
  | success bytes =>
      let published_before := existsb (fun r => has_published (session_at sh r)) (receivers_of l b) in
      '(pushed, d, calls) ← push_transfer l b (demux br) bytes;
      let current := TaggedTsDemux.counters d in
      let losses := cast_u64 (TaggedTsDemux.sync_loss_events_ current.1 - TaggedTsDemux.sync_loss_events_ (demux_counters br).1) in
      Some (sh{{ bridge_sync_errors_ ::= alter (fun x => cast_u64 (x + losses)) b }},
            br{{ demux := d; demux_counters := current }},
            calls ++ (if losses =? 0 then [] else to_all l b (OpSyncLosses losses published_before)) ++ to_all l b OpPromote
              ++ match pushed with
                 | success _ => []
                 | failure e => to_all l b (OpBridgeTerminal (if bool_decide (e = SLOW_CONSUMER) then ST_sync_error else ST_bridge_fatal))
                 end,
            is_success pushed)
  end.

(** The two sections of [finish_pump]. *)
Definition finish_begins (br : Bridge) : bool := in_state br BS_running && negb (cleanup_done br).
Definition finish_begin (br : Bridge) : Bridge := br{{ state := BS_stopping; stop_requested := true }}.
Definition finish_end (first : Error) (br : Bridge) : Bridge := br{{ cleanup_done := true; cleanup_error := first; state := BS_fatal }}.

(** * Steps *)

Definition set_pump (i : nat) (p : PumpPc) (sd : Side) : Side := sd{{ pumps ::= <[i := p]> }}.
Definition set_caller (i : nat) (c : CallerPc) (sd : Side) : Side := sd{{ callers ::= <[i := c]> }}.
Definition end_caller (i : nat) (sd : Side) : Side := sd{{ callers ::= delete i }}.
Definition call_transport (c : TransportCall) (sd : Side) : Side := sd{{ transport ::= cons c }}.
Definition set_bridge (br : Bridge) (sd : Side) : Side := sd{{ bridge := br }}.
(** A call to the transport that [cleanup] may leave out. *)
Definition call_if (cleanup : bool) (c : TransportCall) (sd : Side) : Side := if cleanup then call_transport c sd else sd.

Inductive pump_step (b : nat) (i : nat) : Shared * Side -> Shared * Side -> Prop :=
  | pump_check sh sd : pumps sd !! i = Some P_check ->
      pump_step b i (sh, sd) (sh, set_pump i (if stopping (bridge sd) then P_done else P_enter) sd)
  | pump_enter sh sd : pumps sd !! i = Some P_enter ->
      pump_step b i (sh, sd) (sh, set_pump i P_wait (call_transport T_wait sd))
  | pump_event sh sd e sh' br' calls again : pumps sd !! i = Some P_wait ->
      on_event b e (sh, bridge sd) = Some (sh', br', calls, again) ->
      pump_step b i (sh, sd) (sh', set_pump i (P_calls calls again) (set_bridge br' (call_transport T_event sd)))
  | pump_call sh sd r o calls again bytes s' : pumps sd !! i = Some (P_calls ((r, o) :: calls) again) ->
      run_op stabilization_ (session_at sh r) o = Some (bytes, s') ->
      pump_step b i (sh, sd) (upd_session r (fun _ => s') sh, set_pump i (P_calls calls again) sd)
  | pump_calls_end sh sd again : pumps sd !! i = Some (P_calls [] again) ->
      pump_step b i (sh, sd) (sh, set_pump i (if again then P_check else P_finish) sd)
  | pump_finish_not sh sd : pumps sd !! i = Some P_finish -> finish_begins (bridge sd) = false ->
      pump_step b i (sh, sd) (sh, set_pump i P_done sd)
  | pump_finish sh sd : pumps sd !! i = Some P_finish -> finish_begins (bridge sd) = true ->
      pump_step b i (sh, sd) (sh, set_pump i P_cancel (set_bridge (finish_begin (bridge sd)) sd))
  | pump_cancel sh sd r : pumps sd !! i = Some P_cancel ->
      pump_step b i (sh, sd) (sh, set_pump i (P_stop (error_of r)) (call_transport (T_cancel r) sd))
  | pump_stop sh sd first r : pumps sd !! i = Some (P_stop first) ->
      pump_step b i (sh, sd) (sh, set_pump i (P_end (first_error first r)) (call_transport (T_stop r) sd))
  | pump_end sh sd first : pumps sd !! i = Some (P_end first) ->
      pump_step b i (sh, sd) ((if bool_decide (first = OK) then sh else bridge_fatal sh),
                              set_pump i P_done (set_bridge (finish_end first (bridge sd)) sd)).

Inductive caller_step (b : nat) (i : nat) : Shared * Side -> Shared * Side -> Prop :=
  | caller_stop sh sd owns k br' c : callers sd !! i = Some (C_stop owns k) -> stop_may_begin owns (bridge sd) = true ->
      stop_begin owns k (bridge sd) = (br', c) -> caller_step b i (sh, sd) (sh, set_caller i c (set_bridge br' sd))
  | caller_cancel sh sd claimed cleanup k r : callers sd !! i = Some (C_cancel claimed cleanup k) ->
      caller_step b i (sh, sd) (sh, set_caller i (C_join claimed cleanup (if cleanup then error_of r else OK) k) (call_if cleanup (T_cancel r) sd))
  | caller_join sh sd claimed cleanup first k : callers sd !! i = Some (C_join claimed cleanup first k) ->
      (forall t, claimed = Some t -> pumps sd !! t = Some P_done) ->
      caller_step b i (sh, sd) (sh, set_caller i (C_stop_stream cleanup first k) sd)
  | caller_stop_stream sh sd cleanup first k r : callers sd !! i = Some (C_stop_stream cleanup first k) ->
      caller_step b i (sh, sd) (sh, set_caller i (C_end (if cleanup then first_error first r else first) k) (call_if cleanup (T_stop r) sd))
  | caller_end sh sd first k br' c : callers sd !! i = Some (C_end first k) -> stop_end first k (bridge sd) = (br', c) ->
      caller_step b i (sh, sd) (sh, set_caller i c (set_bridge br' sd))
  | caller_fatal sh sd first k : callers sd !! i = Some (C_fatal first k) ->
      caller_step b i (sh, sd) (bridge_fatal sh, set_caller i (C_tail (failure first) k) sd)
  | caller_detached sh sd a : callers sd !! i = Some (C_tail (success tt) (AfterDetach a)) ->
      caller_step b i (sh, sd) (sh, end_caller i (set_bridge (unfatal (bridge sd)) sd))
  | caller_detach_failed sh sd a e : callers sd !! i = Some (C_tail (failure e) (AfterDetach a)) ->
      caller_step b i (sh, sd) (upd_session (a_receiver a) (detach_failed a) sh, end_caller i sd)
  | caller_shut sh sd first : callers sd !! i = Some (C_tail (success tt) (AfterShutdown first)) ->
      caller_step b i (sh, sd) (sh, set_caller i (C_next first) (set_bridge (unfatal (bridge sd)) sd))
  | caller_shut_failed sh sd first e : callers sd !! i = Some (C_tail (failure e) (AfterShutdown first)) ->
      caller_step b i (sh, sd) ((if in_state (bridge sd) BS_fatal then upd_sessions b shutdown_failed sh else sh),
                                set_caller i (C_next (if bool_decide (first = OK) then e else first)) sd).

(** At most [limit] callers are in [attach], [detach] or [shutdown] of a bridge. *)
Inductive step (limit : nat) : Plane -> Plane -> Prop :=
  | step_pump pl b i sd sh' sd' : sides pl !! b = Some sd -> pump_step b i (shared pl, sd) (sh', sd') ->
      step limit pl {| shared := sh'; sides := <[b := sd']> (sides pl) |}
  | step_caller pl b i sd sh' sd' : sides pl !! b = Some sd -> caller_step b i (shared pl, sd) (sh', sd') ->
      step limit pl {| shared := sh'; sides := <[b := sd']> (sides pl) |}
  | step_attach pl sd a allocated w r sh' sd' : sides pl !! bridge_index l (a_receiver a) = Some sd ->
      (length (callers sd) < limit)%nat -> settled (bridge sd) = true ->
      (forall buf, allocated = Some buf -> zlen buf = queue_packets_ * TsContinuity.kPacketSize) ->
      attach a allocated w (shared pl, sd) = (r, (sh', sd')) ->
      step limit pl {| shared := sh'; sides := <[bridge_index l (a_receiver a) := sd']> (sides pl) |}
  | step_detach pl sd a r sh' sd' : sides pl !! bridge_index l (a_receiver a) = Some sd ->
      (length (callers sd) < limit)%nat -> settled (bridge sd) = true -> detach a (shared pl, sd) = (r, (sh', sd')) ->
      step limit pl {| shared := sh'; sides := <[bridge_index l (a_receiver a) := sd']> (sides pl) |}
  | step_shutdown pl : step limit pl {| shared := (shared pl){{ shutting_down_ := true }}; sides := sides pl |}
  | step_shutdown_bridge pl b sd first sh' sd' : (b < bridge_count l)%nat -> sides pl !! b = Some sd -> (length (callers sd) < limit)%nat -> settled (bridge sd) = true ->
      shutting_down_ (shared pl) = true -> shutdown_bridge b first (shared pl, sd) = (sh', sd') ->
      step limit pl {| shared := sh'; sides := <[b := sd']> (sides pl) |}
  | step_shutdown_next pl b i sd first : sides pl !! b = Some sd -> callers sd !! i = Some (C_next first) ->
      step limit pl {| shared := shared pl; sides := <[b := end_caller i sd]> (sides pl) |}
  | step_reader pl r o bytes s' : (match o with OpRead size => 0 <= size /\ valid_output size = true | OpReleaseFinal _ => True | _ => False end) ->
      valid_receiver l r = true -> run_op stabilization_ (session_at (shared pl) r) o = Some (bytes, s') ->
      step limit pl {| shared := upd_session r (fun _ => s') (shared pl); sides := sides pl |}.

(** The checks of [Impl::create]; nothing is made when one fails. *)
Definition kMinQueuePackets : Z := 4096.
Definition kMaxQueuePackets : Z := 262144.
Definition create_checks : Result unit :=
  if (queue_packets_ <? kMinQueuePackets) || (kMaxQueuePackets <? queue_packets_) || ((2 ^ 64 - 1) / TsContinuity.kPacketSize <? queue_packets_)
  then failure INVALID_ARGUMENT
  else if enabled stabilization_ &&
    ((minimum_packets stabilization_ =? 0) || (clean_packets stabilization_ =? 0) ||
     (maximum_packets stabilization_ <? minimum_packets stabilization_) || (maximum_packets stabilization_ <? clean_packets stabilization_))
  then failure INVALID_ARGUMENT
  else success tt.

(** [stats], [terminal], [final_snapshot] and [release_final] of a receiver, and [bridge_sync_errors]. *)
Definition of_receiver {A} (a : TunerAttachment) (f : Session -> Result A) (sh : Shared) : Result A :=
  if negb (valid_receiver l (a_receiver a)) then failure NOT_FOUND else f (session_at sh (a_receiver a)).
Definition plane_stats (a : TunerAttachment) : Shared -> Result StreamCounters := of_receiver a (stats a).
Definition plane_terminal (a : TunerAttachment) : Shared -> Result StreamTerminal := of_receiver a (terminal_of a).
Definition plane_final_snapshot (a : TunerAttachment) : Shared -> Result TunerStreamFinalSnapshot := of_receiver a (final_snapshot_of a).
Definition plane_release_final (a : TunerAttachment) : Shared -> Result unit := of_receiver a (fun s => (release_final a s).1).
Definition plane_sync_errors (b : nat) (sh : Shared) : Result Z :=
  if (2 <=? b)%nat || (bridge_count l <=? b)%nat then failure INVALID_ARGUMENT else success (nth b (bridge_sync_errors_ sh) 0).

(** [Impl::Impl]; [memory] is what the demultiplexers were allocated. *)
Definition Bridge_init (memory : option (list Z)) : Bridge :=
  let d := TaggedTsDemux.make_demux (tag_count l) (plain_ts l) memory in {|
  thread := None; stop_requested := false; join_in_progress := false; state := BS_stopped; cleanup_done := false;
  cleanup_error := OK; attached_count := 0; demux := d; demux_counters := (TaggedTsDemux.zero_counters, 0) |}.
Definition Plane_init (memories : list (option (list Z))) : Plane := {|
  shared := {| sessions_ := replicate (Z.to_nat kReceiverCount) Session_init; enclosure_fatal_ := false; shutting_down_ := false;
               bridge_sync_errors_ := [0; 0] |};
  sides := (fun m => {| bridge := Bridge_init m; pumps := []; callers := []; transport := [] |}) <$> memories |}.

Definition runs (limit : nat) (memories : list (option (list Z))) (pl : Plane) : Prop := rtc (step limit) (Plane_init memories) pl.

(** ** The steps, executed *)

(** A step with what the world answers to it. *)
Inductive Move :=
  | MPump (b i : nat) (e : Result (list Z)) (r : Result unit)
  | MCaller (b i : nat) (r : Result unit)
  | MAttach (a : TunerAttachment) (allocated : option (list Z)) (w : StartAnswers)
  | MDetach (a : TunerAttachment)
  | MShutdown
  | MShutdownBridge (b : nat) (first : Error)
  | MReader (r : nat) (o : SessionOp).

Definition pump_move (b i : nat) (e : Result (list Z)) (r : Result unit) (st : Shared * Side) : option (Shared * Side) :=
  let '(sh, sd) := st in
  match pumps sd !! i with
  | Some P_check => Some (sh, set_pump i (if stopping (bridge sd) then P_done else P_enter) sd)
  | Some P_enter => Some (sh, set_pump i P_wait (call_transport T_wait sd))
  | Some P_wait =>
      match on_event b e (sh, bridge sd) with
      | Some (sh', br', calls, again) => Some (sh', set_pump i (P_calls calls again) (set_bridge br' (call_transport T_event sd)))
      | None => None
      end
  | Some (P_calls [] again) => Some (sh, set_pump i (if again then P_check else P_finish) sd)
  | Some (P_calls ((r, o) :: calls) again) =>
      match run_op stabilization_ (session_at sh r) o with
      | Some (_, s') => Some (upd_session r (fun _ => s') sh, set_pump i (P_calls calls again) sd)
      | None => None
      end
  | Some P_finish =>
      Some (sh, if finish_begins (bridge sd) then set_pump i P_cancel (set_bridge (finish_begin (bridge sd)) sd) else set_pump i P_done sd)
  | Some P_cancel => Some (sh, set_pump i (P_stop (error_of r)) (call_transport (T_cancel r) sd))
  | Some (P_stop first) => Some (sh, set_pump i (P_end (first_error first r)) (call_transport (T_stop r) sd))
  | Some (P_end first) =>
      Some (if bool_decide (first = OK) then sh else bridge_fatal sh, set_pump i P_done (set_bridge (finish_end first (bridge sd)) sd))
  | Some P_done | None => None
  end.
Lemma pump_move_sound b i e r sh sd st' : pump_move b i e r (sh, sd) = Some st' -> pump_step b i (sh, sd) st'.
Proof.
  unfold pump_move. destruct (pumps sd !! i) as [[| | |[|[q o] calls] again| | | | |]|] eqn:L; intros E; try done.
  - injection E as <-. by apply pump_check.
  - injection E as <-. by apply pump_enter.
  - destruct (on_event b e (sh, bridge sd)) as [[[[sh' br'] calls] again]|] eqn:V; [|done]. injection E as <-. by eapply pump_event.
  - injection E as <-. by apply pump_calls_end.
  - destruct (run_op _ _ _) as [[bytes s']|] eqn:R; [|done]. injection E as <-. by eapply pump_call.
  - injection E as <-. destruct (finish_begins (bridge sd)) eqn:F; [by apply pump_finish|by apply pump_finish_not].
  - injection E as <-. by apply pump_cancel.
  - injection E as <-. by apply pump_stop.
  - injection E as <-. by apply pump_end.
Qed.

(** The pump a caller joins is at its end. *)
Definition joined (claimed : option nat) (sd : Side) : bool :=
  match claimed with Some t => match pumps sd !! t with Some P_done => true | _ => false end | None => true end.
Definition caller_move (b i : nat) (r : Result unit) (st : Shared * Side) : option (Shared * Side) :=
  let '(sh, sd) := st in
  match callers sd !! i with
  | Some (C_stop owns k) =>
      if stop_may_begin owns (bridge sd) then let '(br', c) := stop_begin owns k (bridge sd) in Some (sh, set_caller i c (set_bridge br' sd)) else None
  | Some (C_cancel claimed cleanup k) =>
      Some (sh, set_caller i (C_join claimed cleanup (if cleanup then error_of r else OK) k) (call_if cleanup (T_cancel r) sd))
  | Some (C_join claimed cleanup first k) => if joined claimed sd then Some (sh, set_caller i (C_stop_stream cleanup first k) sd) else None
  | Some (C_stop_stream cleanup first k) =>
      Some (sh, set_caller i (C_end (if cleanup then first_error first r else first) k) (call_if cleanup (T_stop r) sd))
  | Some (C_end first k) => let '(br', c) := stop_end first k (bridge sd) in Some (sh, set_caller i c (set_bridge br' sd))
  | Some (C_fatal first k) => Some (bridge_fatal sh, set_caller i (C_tail (failure first) k) sd)
  | Some (C_tail (success _) (AfterDetach a)) => Some (sh, end_caller i (set_bridge (unfatal (bridge sd)) sd))
  | Some (C_tail (failure e) (AfterDetach a)) => Some (upd_session (a_receiver a) (detach_failed a) sh, end_caller i sd)
  | Some (C_tail (success _) (AfterShutdown first)) => Some (sh, set_caller i (C_next first) (set_bridge (unfatal (bridge sd)) sd))
  | Some (C_tail (failure e) (AfterShutdown first)) =>
      Some (if in_state (bridge sd) BS_fatal then upd_sessions b shutdown_failed sh else sh,
            set_caller i (C_next (if bool_decide (first = OK) then e else first)) sd)
  | Some (C_next _) => Some (sh, end_caller i sd)
  | None => None
  end.
Lemma caller_move_sound b i r sh sd st' : caller_move b i r (sh, sd) = Some st' ->
  caller_step b i (sh, sd) st' \/ exists first, callers sd !! i = Some (C_next first) /\ st' = (sh, end_caller i sd).
Proof.
  unfold caller_move. destruct (callers sd !! i) as [[o k|t cl k|t cl f k|cl f k|f k|f k|[[]|e] [a|f]|f]|] eqn:L; intros E; try done.
  - destruct (stop_may_begin o (bridge sd)) eqn:M; [|done]. destruct (stop_begin o k (bridge sd)) as [br' c] eqn:S. injection E as <-. left. by eapply caller_stop.
  - injection E as <-. left. by apply caller_cancel.
  - destruct (joined t sd) eqn:J; [|done]. injection E as <-. left. apply (caller_join b i sh sd t); [done|]. intros q ->. cbn in J.
    by destruct (pumps sd !! q) as [[]|].
  - injection E as <-. left. by apply caller_stop_stream.
  - destruct (stop_end f k (bridge sd)) as [br' c] eqn:S. injection E as <-. left. by eapply caller_end.
  - injection E as <-. left. by apply caller_fatal.
  - injection E as <-. left. by eapply caller_detached.
  - injection E as <-. left. by apply caller_shut.
  - injection E as <-. left. by eapply caller_detach_failed.
  - injection E as <-. left. by apply caller_shut_failed.
  - injection E as <-. right. eauto.
Qed.

Definition may_enter (limit : nat) (sd : Side) : bool := (length (callers sd) <? limit)%nat && settled (bridge sd).
Definition on_side (b : nat) (f : Shared * Side -> option (Shared * Side)) (pl : Plane) : option Plane :=
  match sides pl !! b with
  | Some sd => match f (shared pl, sd) with Some (sh', sd') => Some {| shared := sh'; sides := <[b := sd']> (sides pl) |} | None => None end
  | None => None
  end.
Definition reader_op (o : SessionOp) : bool :=
  match o with OpRead size => (0 <=? size) && valid_output size | OpReleaseFinal _ => true | _ => false end.
Definition move (limit : nat) (m : Move) (pl : Plane) : option Plane :=
  match m with
  | MPump b i e r => on_side b (pump_move b i e r) pl
  | MCaller b i r => on_side b (caller_move b i r) pl
  | MAttach a allocated w =>
      if match allocated with Some buf => zlen buf =? queue_packets_ * TsContinuity.kPacketSize | None => true end
      then on_side (bridge_index l (a_receiver a)) (fun st => if may_enter limit st.2 then Some (attach a allocated w st).2 else None) pl else None
  | MDetach a => on_side (bridge_index l (a_receiver a)) (fun st => if may_enter limit st.2 then Some (detach a st).2 else None) pl
  | MShutdown => Some {| shared := (shared pl){{ shutting_down_ := true }}; sides := sides pl |}
  | MShutdownBridge b first =>
      on_side b (fun st => if may_enter limit st.2 && (b <? bridge_count l)%nat && shutting_down_ st.1 then Some (shutdown_bridge b first st) else None) pl
  | MReader r o =>
      if reader_op o && valid_receiver l r then
        match run_op stabilization_ (session_at (shared pl) r) o with
        | Some (_, s') => Some {| shared := upd_session r (fun _ => s') (shared pl); sides := sides pl |}
        | None => None
        end
      else None
  end.

Lemma on_side_inv b f pl pl' : on_side b f pl = Some pl' -> exists sd sh' sd', sides pl !! b = Some sd /\ f (shared pl, sd) = Some (sh', sd') /\
  pl' = {| shared := sh'; sides := <[b := sd']> (sides pl) |}.
Proof.
  unfold on_side. destruct (sides pl !! b) as [sd|]; [|done]. destruct (f _) as [[sh' sd']|] eqn:F; [|done]. intros [= <-]. eauto 10.
Qed.
Lemma may_enter_inv limit sd : may_enter limit sd = true -> (length (callers sd) < limit)%nat /\ settled (bridge sd) = true.
Proof. intros M. apply andb_true_iff in M as [A B]. apply Nat.ltb_lt in A. done. Qed.

(** A move is a step. *)
Lemma move_sound limit m pl pl' : move limit m pl = Some pl' -> step limit pl pl'.
Proof.
  destruct m as [b i e r|b i r|a al w|a| |b first|r o]; cbn [move]; intros E.
  - apply on_side_inv in E as (sd & sh' & sd' & L & E & ->). eapply step_pump; [done|by eapply pump_move_sound].
  - apply on_side_inv in E as (sd & sh' & sd' & L & E & ->). apply caller_move_sound in E as [E|(first & C & E)]; [by eapply step_caller|].
    injection E as -> ->. by eapply step_shutdown_next.
  - destruct (match al with Some _ => _ | None => _ end) eqn:Al; [|done]. apply on_side_inv in E as (sd & sh' & sd' & L & E & ->).
    cbn [snd] in E. destruct (may_enter limit sd) eqn:M; [|done]. apply may_enter_inv in M as [M Se].
    destruct (attach a al w (shared pl, sd)) as [r st] eqn:A. injection E as ->. eapply step_attach; try done.
    intros buf ->. by apply Z.eqb_eq.
  - apply on_side_inv in E as (sd & sh' & sd' & L & E & ->). cbn [snd] in E. destruct (may_enter limit sd) eqn:M; [|done]. apply may_enter_inv in M as [M Se].
    destruct (detach a (shared pl, sd)) as [r st] eqn:A. injection E as ->. by eapply step_detach.
  - injection E as <-. apply step_shutdown.
  - apply on_side_inv in E as (sd & sh' & sd' & L & E & ->). cbn [fst snd] in E. destruct (may_enter limit sd) eqn:M; [|done]. apply may_enter_inv in M as [M Se].
    destruct (b <? bridge_count l)%nat eqn:B; [|done]. destruct (shutting_down_ (shared pl)) eqn:S; [|done]. apply Nat.ltb_lt in B.
    apply (inj Some) in E. by eapply step_shutdown_bridge.
  - destruct (reader_op o) eqn:O; [|done]. destruct (valid_receiver l r) eqn:V; [|done]. cbn [andb] in E.
    destruct (run_op _ _ _) as [[bytes s']|] eqn:R; [|done]. injection E as <-. apply (step_reader limit pl r o bytes s'); try done.
    destruct o; try done. apply andb_true_iff in O as [A B]. apply Z.leb_le in A. done.
Qed.

Fixpoint moves (limit : nat) (ms : list Move) (pl : Plane) : option Plane :=
  match ms with [] => Some pl | m :: ms => match move limit m pl with Some pl => moves limit ms pl | None => None end end.
Lemma moves_sound limit ms pl pl' : moves limit ms pl = Some pl' -> rtc (step limit) pl pl'.
Proof.
  revert pl. induction ms as [|m ms IH]; intros pl E; cbn in E; [injection E as <-; apply rtc_refl|].
  destruct (move limit m pl) as [pl1|] eqn:M; [|done]. eapply rtc_l; [by eapply move_sound|by apply IH].
Qed.
End Plane.
