(* ===== verification/StreamBridge.v ===== *)
(** The life of a bridge of the stream data plane with its pump: the transport is
    driven in its order and the counts are right while callers take turns on a
    bridge, whatever its pump does meanwhile; and what two callers can do. *)

From coqutil Require Import Datatypes.RecordSetters.
From stdpp Require Import relations.
From S2P Require Import Prelude IpcTypes StreamSession StreamDelivery StreamPlane.
From S2P Require TunerService TaggedTsDemux.

Import DoubleBraceUpdate.
Import TunerService(TunerAttachment, a_receiver).
Open Scope Z_scope.

(** * The protocol of a transport *)

Record Usb := mkUsb { streaming : bool; cancelled_ : bool; waiting : bool; broken : bool }.
Definition idle_usb : Usb := mkUsb false false false false.

Definition failed (e : Error) : bool := negb (bool_decide (e = OK)).
(** A stream is started when none is on and nothing has failed to end, waited for
    while it is on, by one thread at a time, cancelled once, and stopped once, after
    that and with nobody waiting. *)
Definition usb_step (u : Usb) (c : TransportCall) : option Usb :=
  match c with
  | T_start r => if negb (streaming u) && negb (broken u) then Some (if is_success r then mkUsb true false (waiting u) (broken u) else u) else None
  | T_wait => if streaming u && negb (waiting u) then Some (mkUsb true (cancelled_ u) true (broken u)) else None
  | T_event => if waiting u then Some (mkUsb (streaming u) (cancelled_ u) false (broken u)) else None
  | T_cancel r => if streaming u && negb (cancelled_ u) then Some (mkUsb true true (waiting u) (broken u || failed (error_of r))) else None
  | T_stop r => if streaming u && cancelled_ u && negb (waiting u) then Some (mkUsb false true false (broken u || failed (error_of r))) else None
  end.
Fixpoint usb (t : list TransportCall) : option Usb :=
  match t with [] => Some idle_usb | c :: t => u ← usb t; usb_step u c end.

(** * The shapes of a bridge *)

Definition looping (p : PumpPc) : bool :=
  match p with P_check | P_enter | P_wait | P_calls _ _ | P_finish => true | _ => false end.
Definition is_done (p : PumpPc) : bool := match p with P_done => true | _ => false end.
Definition in_wait (p : PumpPc) : bool := match p with P_wait => true | _ => false end.

(** Callers that have nothing to do with a stopped bridge. *)
Definition passive (c : CallerPc) : bool :=
  match c with C_stop false _ | C_tail (success _) _ | C_next _ => true | _ => false end.
(** Callers that find a bridge which could not be stopped. *)
Definition reporting (c : CallerPc) : bool :=
  match c with C_stop false _ | C_fatal _ _ | C_tail (failure _) _ | C_next _ => true | _ => false end.
(** A caller that only joins the pump, which has cleaned up itself. *)
Definition joins (i : nat) (c : CallerPc) : Prop :=
  match c with
  | C_cancel t false _ => t = Some i
  | C_join t false OK _ => t = Some i
  | C_stop_stream false OK _ | C_end OK _ => True
  | _ => False
  end.
(** A caller that stops the stream, with the pump and the transport it sees. *)
Definition owns (i : nat) (br : Bridge) (p : PumpPc) (c : CallerPc) (u : Usb) : Prop :=
  match c with
  | C_stop true _ => thread br = Some i /\ join_in_progress br = false /\ looping p || is_done p = true /\ u = mkUsb true false (in_wait p) false
  | C_cancel t true _ => t = Some i /\ thread br = None /\ join_in_progress br = true /\ looping p || is_done p = true /\ u = mkUsb true false (in_wait p) false
  | C_join t true first _ => t = Some i /\ thread br = None /\ join_in_progress br = true /\ looping p || is_done p = true /\
      u = mkUsb true true (in_wait p) (failed first)
  | C_stop_stream true first _ => thread br = None /\ join_in_progress br = true /\ p = P_done /\ u = mkUsb true true false (failed first)
  | C_end first _ => thread br = None /\ join_in_progress br = true /\ p = P_done /\ u = mkUsb false true false (failed first)
  | _ => False
  end.

Definition off (u : Usb) (b : bool) : Prop := streaming u = false /\ waiting u = false /\ broken u = b.

Inductive shape (br : Bridge) (ps : list PumpPc) (cs : list CallerPc) (u : Usb) : Prop :=
  | shape_stopped : state br = BS_stopped -> thread br = None -> join_in_progress br = false -> cleanup_error br = OK ->
      attached_count br = 0 -> Forall (fun p => p = P_done) ps -> Forall (fun c => passive c = true) cs -> (length cs <= 1)%nat -> off u false -> shape br ps cs u
  | shape_running i p : state br = BS_running -> thread br = Some i -> join_in_progress br = false -> cleanup_error br = OK ->
      cleanup_done br = false -> stop_requested br = false -> attached_count br <> 0 ->
      ps !! i = Some p -> looping p = true -> (forall j q, ps !! j = Some q -> j <> i -> q = P_done) ->
      cs = [] -> u = mkUsb true false (in_wait p) false -> shape br ps cs u
  | shape_finishing i p : state br = BS_stopping -> thread br = Some i -> join_in_progress br = false ->
      attached_count br <> 0 -> ps !! i = Some p -> (forall j q, ps !! j = Some q -> j <> i -> q = P_done) -> cs = [] ->
      match p with
      | P_cancel => u = mkUsb true false false false
      | P_stop first => u = mkUsb true true false (failed first)
      | P_end first => u = mkUsb false true false (failed first)
      | _ => False
      end -> shape br ps cs u
  | shape_failed i : state br = BS_fatal -> thread br = Some i -> join_in_progress br = false -> cleanup_done br = true ->
      ps !! i = Some P_done -> Forall (fun p => p = P_done) ps ->
      (cs = [] /\ attached_count br <> 0 \/ (exists k, cs = [C_stop false k]) /\ attached_count br = 0) ->
      off u (failed (cleanup_error br)) -> shape br ps cs u
  | shape_joining i c : state br = BS_fatal -> thread br = None -> join_in_progress br = true -> cleanup_done br = true ->
      attached_count br = 0 -> ps !! i = Some P_done -> Forall (fun p => p = P_done) ps -> cs = [c] -> joins i c ->
      off u (failed (cleanup_error br)) -> shape br ps cs u
  | shape_owned i p c : state br = BS_stopping -> stop_requested br = true -> cleanup_done br = false -> cleanup_error br = OK ->
      attached_count br = 0 -> ps !! i = Some p -> (forall j q, ps !! j = Some q -> j <> i -> q = P_done) -> cs = [c] ->
      owns i br p c u -> shape br ps cs u
  | shape_fatal : state br = BS_fatal -> thread br = None -> join_in_progress br = false -> cleanup_done br = true ->
      cleanup_error br <> OK -> attached_count br = 0 -> Forall (fun p => p = P_done) ps -> Forall (fun c => reporting c = true) cs ->
      (length cs <= 1)%nat -> streaming u = false -> waiting u = false -> shape br ps cs u.

Definition lawful (sd : Side) : Prop := exists u, usb (transport sd) = Some u /\ shape (bridge sd) (pumps sd) (callers sd) u.

Section Lifecycle.
Context (l : StreamLayout) (queue_packets : Z) (policy : StartupStabilizationPolicy).

(** ** The pump *)

Lemma usb_call t u c u' : usb t = Some u -> usb_step u c = Some u' -> usb (c :: t) = Some u'.
Proof. intros E S. cbn [usb]. by rewrite E. Qed.

Lemma others_set (ps : list PumpPc) i p : (forall j q, ps !! j = Some q -> j <> i -> q = P_done) ->
  (forall j q, <[i := p]> ps !! j = Some q -> j <> i -> q = P_done).
Proof. intros O j q L N. rewrite list_lookup_insert_ne in L by congruence. by eapply O. Qed.
Lemma set_here (ps : list PumpPc) i p q : ps !! i = Some p -> <[i := q]> ps !! i = Some q.
Proof. intros L. apply list_lookup_insert_eq. by eapply lookup_lt_Some. Qed.
Lemma all_done_set (ps : list PumpPc) i : (forall j q, ps !! j = Some q -> j <> i -> q = P_done) ->
  Forall (fun p => p = P_done) (<[i := P_done]> ps).
Proof.
  intros O. apply Forall_lookup. intros j q L. destruct (decide (j = i)) as [->|N].
  - apply list_lookup_insert_Some in L as [(_ & <- & _)|(X & _)]; done.
  - rewrite list_lookup_insert_ne in L by congruence. by eapply O.
Qed.

(** What the life of a bridge depends on. *)
Definition control (br : Bridge) :=
  (thread br, stop_requested br, join_in_progress br, state br, cleanup_done br, cleanup_error br, attached_count br).

(** The pump moves within its loop, or ends in a bridge that somebody stops. *)
Lemma shape_moves br br' ps cs u i p p' : control br' = control br -> ps !! i = Some p -> looping p = true ->
  looping p' = true \/ (p' = P_done /\ state br <> BS_running) -> shape br ps cs u ->
  streaming u = true /\ waiting u = in_wait p /\ shape br' (<[i := p']> ps) cs (mkUsb true (cancelled_ u) (in_wait p') (broken u)).
Proof.
  intros Co L Lo To S. injection Co as T Sr J St Cd Ce A.
  assert (forall ps', Forall (fun p => p = P_done) ps' -> ps' = ps -> False) as No.
  { intros ps' F ->. eapply Forall_lookup_1 in F; [|exact L]. by subst. }
  destruct S as [| k q ? ? ? ? ? ? ? Lk Lq O Cs U | k q ? ? ? ? Lk O Cs U | | | k q c ? ? ? ? ? Lk O Cs Ow |];
    try (exfalso; eapply No; eauto; fail).
  - assert (k = i) as -> by (destruct (decide (i = k)) as [|N]; [done|]; pose proof (O _ _ L N); by subst).
    assert (q = p) as -> by congruence. subst u. cbn. split_and!; [done..|].
    destruct To as [To|[_ To]]; [|done].
    apply (shape_running _ _ _ _ i p'); try congruence; eauto using set_here, others_set.
  - exfalso. assert (k = i) as -> by (destruct (decide (i = k)) as [|N]; [done|]; pose proof (O _ _ L N); by subst).
    assert (q = p) as -> by congruence. by destruct p.
  - assert (k = i) as -> by (destruct (decide (i = k)) as [|N]; [done|]; pose proof (O _ _ L N); by subst).
    assert (q = p) as -> by congruence.
    assert (streaming u = true /\ waiting u = in_wait p /\ owns i br' p' c (mkUsb true (cancelled_ u) (in_wait p') (broken u))) as (X & Y & Z).
    { assert (looping p' || is_done p' = true) as E by (destruct To as [->|[-> _]]; done).
      destruct c as [o ko|tc cl kc|tj cl fj kj|cl fs ks|fe ke| | |]; try (destruct o); try (destruct cl); cbn in Ow; try done.
      - destruct Ow as (? & ? & ? & ->). cbn. split_and!; try done; congruence.
      - destruct Ow as (? & ? & ? & ? & ->). cbn. split_and!; try done; congruence.
      - destruct Ow as (? & ? & ? & ? & ->). cbn. split_and!; try done; congruence.
      - destruct Ow as (? & ? & -> & ?). done.
      - destruct Ow as (? & ? & -> & ?). done. }
    split_and!; [done..|]. apply (shape_owned _ _ _ _ i p' c); try congruence; eauto using set_here, others_set.
Qed.

(** A pump that cleans up is alone with its bridge. *)
Lemma shape_cleans br ps cs u i p : ps !! i = Some p -> looping p = false -> p <> P_done -> shape br ps cs u ->
  state br = BS_stopping /\ thread br = Some i /\ join_in_progress br = false /\ attached_count br <> 0 /\
  (forall j q, ps !! j = Some q -> j <> i -> q = P_done) /\ cs = [] /\
  match p with
  | P_cancel => u = mkUsb true false false false
  | P_stop first => u = mkUsb true true false (failed first)
  | P_end first => u = mkUsb false true false (failed first)
  | _ => False
  end.
Proof.
  intros L Lo N S.
  assert (forall ps', Forall (fun p => p = P_done) ps' -> ps' = ps -> False) as No.
  { intros ps' F ->. eapply Forall_lookup_1 in F; [|exact L]. by subst. }
  destruct S as [| k q ? ? ? ? ? ? ? Lk Lq O Cs U | k q ? ? ? ? Lk O Cs U | | | k q c ? ? ? ? ? Lk O Cs Ow |];
    try (exfalso; eapply No; eauto; fail).
  - exfalso. destruct (decide (i = k)) as [->|M]; [|by pose proof (O _ _ L M)]. assert (q = p) as -> by congruence. congruence.
  - assert (k = i) as -> by (destruct (decide (i = k)) as [|M]; [done|]; by pose proof (O _ _ L M)).
    assert (q = p) as -> by congruence. by split_and!.
  - exfalso. destruct (decide (i = k)) as [->|M]; [|by pose proof (O _ _ L M)]. assert (q = p) as -> by congruence.
    assert (looping p || is_done p = false) as D by (destruct p; done).
    destruct c as [o ko|tc cl kc|tj cl fj kj|cl fs ks|fe ke| | |]; try (destruct o); try (destruct cl); cbn in Ow; try done;
      destruct_and?; congruence.
Qed.

Lemma failed_first a r : failed a || failed (error_of r : Error) = failed (first_error a (r : Result unit)).
Proof. by destruct a. Qed.

Lemma lawful_moves br' i p p' sd : lawful sd -> pumps sd !! i = Some p -> looping p = true -> control br' = control (bridge sd) ->
  looping p' = true \/ (p' = P_done /\ state (bridge sd) <> BS_running) ->
  exists u, usb (transport sd) = Some u /\ streaming u = true /\ waiting u = in_wait p /\
    shape br' (<[i := p']> (pumps sd)) (callers sd) (mkUsb true (cancelled_ u) (in_wait p') (broken u)).
Proof. intros (u & U & S) L Lo Co To. exists u. split; [done|]. by apply (shape_moves (bridge sd)  _ _ _ _ _ p). Qed.

Lemma streaming_usb u : streaming u = true -> u = mkUsb true (cancelled_ u) (waiting u) (broken u).
Proof. destruct u. cbn. by intros ->. Qed.

(** ** What a pump asks of the sessions *)

Definition pump_op (o : SessionOp) : bool :=
  match o with OpEnqueue _ | OpWireTei | OpSyncLosses _ _ | OpPromote | OpEmpty | OpBridgeTerminal _ => true | _ => false end.
Definition pump_calls (c : Calls) : Prop := Forall (fun c => pump_op c.2 = true) c.

(** What the sink and the observer keep of their state, [push] keeps. *)
Lemma push_keeps {W} (P : W -> Prop) (f : W -> Z -> list Z -> Result unit * W) (o : W -> Z -> W) d input w r d' w' :
  (forall w i p, P w -> P (f w i p).2) -> (forall w z, P w -> P (o w z)) -> P w ->
  TaggedTsDemux.push (Some f) (Some o) d input w = Some (r, d', w') -> P w'.
Proof.
  intros F O Pw. unfold TaggedTsDemux.push.
  destruct (_ || _); [by intros [= _ _ <-]|]. destruct (TaggedTsDemux.pending_ d) as [buf|]; [|by intros [= _ _ <-]].
  destruct (_ || _); [by intros [= _ _ <-]|]. destruct (TaggedTsDemux.append_input _ _ _) as [[d1 buf1]|]; [|done]. cbn [mbind option_bind].
  set (n := S _). clearbody n. intros E. destruct (TaggedTsDemux.drain _ _ _ _ _ _) as [[[r1 d2] w2]|] eqn:D; [|done].
  cbn in E. injection E as _ _ <-. clear d. revert d1 w Pw D. induction n as [|n IH]; intros d w Pw D; [done|]. cbn [TaggedTsDemux.drain] in D.
  assert (match TaggedTsDemux.iteration (Some o) f buf1 d w with TaggedTsDemux.Continue _ w' | TaggedTsDemux.Return _ _ w' => P w' end) as K.
  { unfold TaggedTsDemux.iteration, TaggedTsDemux.notify.
    destruct (if TaggedTsDemux.synchronized_ d then _ else _) as [ok d3]. destruct (negb ok); [done|]. destruct (_ <? _); [done|].
    destruct (negb _); [done|]. destruct (TaggedTsDemux.plain_ts_ d3).
    - match goal with |- context [f w ?i ?p] => pose proof (F w i p Pw) as K; destruct (f w i p) as [[|] w'] end; done.
    - destruct (_ || _); [by destruct (TaggedTsDemux.has_tei _); eauto|].
      match goal with |- context [f w ?i ?p] => pose proof (F w i p Pw) as K; destruct (f w i p) as [[|] w'] end; done. }
  destruct (TaggedTsDemux.iteration _ _ _ _ _) as [d4 w4|r4 d4 w4]; [by eapply IH|]. by injection D as _ _ <-.
Qed.

Lemma to_all_calls b o : pump_op o = true -> pump_calls (to_all l b o).
Proof. intros P. apply Forall_fmap, Forall_forall. by intros. Qed.

Lemma push_transfer_calls b d bytes r d' c : push_transfer l b d bytes = Some (r, d', c) -> pump_calls c.
Proof.
  apply push_keeps; [| |constructor].
  - intros w i p K. unfold packet_sink. destruct (_ || _); [done|]. destruct (_ <? _); [done|]. apply Forall_app. by repeat constructor.
  - intros w z K. unfold wire_tag_observer. destruct (_ =? _); [done|]. destruct (_ || _); [done|]. destruct (_ <=? _); [|done].
    apply Forall_app. by repeat constructor.
Qed.

Lemma on_event_ok b e sh br sh' br' calls again : on_event l b e (sh, br) = Some (sh', br', calls, again) ->
  control br' = control br /\ sessions_ sh' = sessions_ sh /\ pump_calls calls.
Proof.
  destruct e as [[|x bytes]|e]; unfold on_event.
  - intros [= <- <- <- <-]. by split_and!; [..|apply to_all_calls].
  - destruct (push_transfer l b (demux br) (x :: bytes)) as [[[r d] c]|] eqn:E; [|done]. cbn [mbind option_bind].
    set (losses := cast_u64 _). intros X. injection X as <- <- <- <-.
    split_and!; [done..|]. apply push_transfer_calls in E. unfold pump_calls in *.
    repeat apply Forall_app_2; [done|destruct (_ =? _); [constructor|by apply to_all_calls]|by apply to_all_calls|].
      destruct r; [constructor|by apply to_all_calls].
  - intros X. injection X as <- <- <- <-. split_and!; [done..|]. by destruct (bool_decide _); apply to_all_calls.
Qed.

Ltac shape_side := first [done|eapply set_here; eassumption|eapply others_set; eassumption|eapply all_done_set; eassumption|congruence|idtac].

(** No pump, whatever its transport and its sessions answer, breaks the law. *)
Lemma pump_lawful b i sh sd sh' sd' : lawful sd -> pump_step l policy b i (sh, sd) (sh', sd') -> lawful sd'.
Proof.
  intros Law St.
  inversion St as [? ? L|? ? L|? ? e ? br' calls again L E|? ? ? ? ? ? ? ? L|? ? again L|? ? L F|? ? L F|? ? r L|? ? f r L|? ? f L]; subst; clear St.
  - destruct (lawful_moves (bridge sd) i P_check (if stopping (bridge sd) then P_done else P_enter) sd) as (u & U & St & Wa & S); try done.
    { destruct (stopping (bridge sd)) eqn:X; [|by left]. right. split; [done|]. intros R.
      destruct Law as (u & _ & [H _ _ _ _ _ _ _ _|k q H1 H2 H3 H4 H5 H6 ? ? ? ? ? ?|k q H1 ? ? ? ? ? ? ?|k H1 ? ? ? ? ? ? ?|k c H1 ? ? ? ? ? ? ? ? ?|k q c H1 ? ? ? ? ? ? ? ?|H1 ? ? ? ? ? ? ? ? ? ?]); try congruence.
      unfold stopping, in_state in X. rewrite H6, H1 in X. done. }
    exists u. split; [done|]. rewrite (streaming_usb u) by done. rewrite Wa. by destruct (stopping (bridge sd)).
  - destruct (lawful_moves (bridge sd) i P_enter P_wait sd) as (u & U & St & Wa & S); try done; [by left|].
    exists (mkUsb true (cancelled_ u) true (broken u)). split; [|done]. apply (usb_call _ u); [done|]. cbn. by rewrite St, Wa.
  - assert (control br' = control (bridge sd)) as Co.
    { by apply on_event_ok in E as (? & _). }
    destruct (lawful_moves br' i P_wait (P_calls calls again) sd) as (u & U & St & Wa & S); try done; [by left|].
    exists (mkUsb true (cancelled_ u) false (broken u)). split; [|done]. apply (usb_call _ u); [done|]. cbn. by rewrite St, Wa.
  - destruct (lawful_moves (bridge sd) i _ (P_calls calls again) sd Law L) as (u & U & St & Wa & S); try done; [by left|].
    exists u. split; [done|]. rewrite (streaming_usb u) by done. by rewrite Wa.
  - destruct (lawful_moves (bridge sd) i _ (if again then P_check else P_finish) sd Law L) as (u & U & St & Wa & S); try done; [left; by destruct again|].
    exists u. split; [done|]. rewrite (streaming_usb u) by done. rewrite Wa. by destruct again.
  - destruct (lawful_moves (bridge sd) i _ P_done sd Law L) as (u & U & St & Wa & S); try done.
    { right. split; [done|]. intros R. destruct Law as (u & _ & S). destruct S; try congruence.
      unfold finish_begins, in_state in F. rewrite R in F. cbn in F. by rewrite H3 in F. }
    exists u. split; [done|]. rewrite (streaming_usb u) by done. by rewrite Wa.
  - destruct Law as (u & U & S). unfold finish_begins, in_state in F. apply andb_true_iff in F as [R _]. apply bool_decide_eq_true in R.
    exists u. split; [done|].
    destruct S as [|k q ? T J ? ? ? A Lk Lq O Cs ->| | | | |]; try congruence.
    assert (k = i) as -> by (destruct (decide (i = k)) as [|M]; [done|]; by pose proof (O _ _ L M)).
    assert (q = P_finish) as -> by congruence.
    apply (shape_finishing _ _ _ _ i P_cancel); shape_side.
  - destruct Law as (u & U & S). destruct (shape_cleans _ _ _ _ i _ L eq_refl ltac:(done) S) as (R & T & J & A & O & Cs & ->).
    exists (mkUsb true true false (failed (error_of r))). split; [by apply (usb_call _ _ _ _ U)|].
    apply (shape_finishing _ _ _ _ i (P_stop (error_of r))); shape_side.
  - destruct Law as (u & U & S). destruct (shape_cleans _ _ _ _ i _ L eq_refl ltac:(done) S) as (R & T & J & A & O & Cs & ->).
    exists (mkUsb false true false (failed (first_error f r))). split; [|].
    { apply (usb_call _ _ _ _ U). cbn. by rewrite failed_first. }
    apply (shape_finishing _ _ _ _ i (P_end (first_error f r))); shape_side.
  - destruct Law as (u & U & S). destruct (shape_cleans _ _ _ _ i _ L eq_refl ltac:(done) S) as (R & T & J & A & O & Cs & ->).
    eexists. split; [exact U|].
    apply (shape_failed _ _ _ _ i); shape_side. by left.
Qed.

(** ** The callers *)

Lemma shape_alone br ps cs u i c : shape br ps cs u -> cs !! i = Some c -> cs = [c] /\ i = 0%nat.
Proof.
  intros S L. assert (length cs <= 1)%nat as N.
  { destruct S as [? ? ? ? ? ? ? ? ?|k q ? ? ? ? ? ? ? ? ? ? E ?|k q ? ? ? ? ? ? E ?|k ? ? ? ? ? ? [[E _]|[[? E] _]] ?|k c' ? ? ? ? ? ? ? E ?|k q c' ? ? ? ? ? ? ? E ?|];
      try rewrite E; cbn; try lia; done. }
  destruct cs as [|c1 [|? ?]]; cbn in *; [done| |lia]. destruct i; [|done]. cbn in L. by injection L as ->.
Qed.

Lemma shape_passive br ps cs cs' u : shape br ps cs u -> state br = BS_stopped -> Forall (fun c => passive c = true) cs' -> (length cs' <= 1)%nat -> shape br ps cs' u.
Proof. intros [] R F N; try congruence. by apply shape_stopped. Qed.

(** What a caller meets, by where it is. *)
Lemma stop_lawful owns k br ps u br' c : shape br ps [C_stop owns k] u -> stop_begin owns k br = (br', c) -> shape br' ps [c] u.
Proof.
  intros S E. unfold stop_begin, in_state in E.
  inversion S as [R T J Ce A D P N O| | |i R T J Cd L D [[? _]|[[k' Ck] A]] O| i c0 R T J Cd A L D Cs Jo O|i p c0 R Sr Cd Ce A L O Cs Ow|R T J Cd Ce A D P N O1 O2]; try done.
  - rewrite R, T, Ce in E. apply Forall_cons_1 in P as [P _]. destruct owns; [done|]. rewrite andb_false_r in E. cbn in E. injection E as <- <-.
    apply (shape_passive _ _ _ _ _ S R); repeat constructor.
  - injection Ck as -> ->. rewrite R, T, Cd in E. cbn in E. injection E as <- <-.
    by apply (shape_joining _ _ _ _ i (C_cancel (Some i) false k')).
  - by injection Cs as <-.
  - injection Cs as <-. destruct owns; [|done]. cbn in Ow. destruct Ow as (T & J & Lo & ->).
    rewrite R, T, Cd in E. cbn in E. injection E as <- <-. apply (shape_owned _ _ _ _ i p (C_cancel (Some i) true k)); try done.
  - apply Forall_cons_1 in P as [P _]. destruct owns; [done|]. rewrite R, T in E. rewrite andb_false_r in E. cbn in E. injection E as <- <-.
    apply shape_fatal; try done. constructor; [|constructor]. unfold result_of. by rewrite bool_decide_eq_false_2.
Qed.

(** The cases of a caller: only a bridge of some shapes has a caller there. *)
Ltac shape_cases S :=
  let H := fresh in
  inversion S as [R T J Ce A D P N O| | |i R T J Cd L D [[? _]|[[? Ck] A]] O|i c0 R T J Cd A L D Cs Jo O|i p c0 R Sr Cd Ce A L O Cs Ow|R T J Cd Ce A D P N O1 O2]; try done;
  repeat match goal with
  | H : [_] = [_] |- _ => injection H as <-
  | H : Forall _ (_ :: _) |- _ => apply Forall_cons_1 in H as [P _]; cbn in P; try done
  end; try (cbn in Jo); try (cbn in Ow); try done.

Ltac one_caller := try done; try (apply Forall_cons; split; [done|apply Forall_nil; exact I]); try (apply Forall_nil; exact I); try (cbn; lia).

Definition call_usb (cleanup : bool) (c : TransportCall) (u : Usb) : option Usb := if cleanup then usb_step u c else Some u.

Lemma cancel_lawful t cleanup k r br ps u : shape br ps [C_cancel t cleanup k] u ->
  exists u', call_usb cleanup (T_cancel r) u = Some u' /\ shape br ps [C_join t cleanup (if cleanup then error_of r else OK) k] u'.
Proof.
  intros S. shape_cases S.
  - destruct cleanup; [done|]. exists u. split; [done|]. by apply (shape_joining _ _ _ _ i (C_join t false OK k)).
  - destruct cleanup; [|done]. destruct Ow as (-> & T & J & Lo & ->). eexists. split; [reflexivity|].
    by apply (shape_owned _ _ _ _ i p (C_join (Some i) true (error_of r) k)).
Qed.

Lemma join_lawful t cleanup f k br ps u : (forall i, t = Some i -> ps !! i = Some P_done) -> shape br ps [C_join t cleanup f k] u ->
  shape br ps [C_stop_stream cleanup f k] u.
Proof.
  intros W S. shape_cases S.
  - destruct cleanup; [done|]. apply (shape_joining _ _ _ _ i (C_stop_stream false f k)); try done. by destruct f.
  - destruct cleanup; [|done]. destruct Ow as (-> & T & J & Lo & ->). assert (p = P_done) as -> by (pose proof (W i eq_refl); congruence).
    by apply (shape_owned _ _ _ _ i P_done (C_stop_stream true f k)).
Qed.

Lemma stop_stream_lawful cleanup f k r br ps u : shape br ps [C_stop_stream cleanup f k] u ->
  exists u', call_usb cleanup (T_stop r) u = Some u' /\ shape br ps [C_end (if cleanup then first_error f r else f) k] u'.
Proof.
  intros S. shape_cases S.
  - destruct cleanup; [done|]. exists u. split; [done|]. apply (shape_joining _ _ _ _ i (C_end f k)); try done. 
  - destruct cleanup; [|done]. destruct Ow as (T & J & -> & ->). exists (mkUsb false true false (failed (first_error f r))).
    split; [cbn; by rewrite failed_first|].
    by apply (shape_owned _ _ _ _ i P_done (C_end (first_error f r) k)).
Qed.

Lemma all_done (ps : list PumpPc) i : ps !! i = Some P_done -> (forall j q, ps !! j = Some q -> j <> i -> q = P_done) -> Forall (fun p => p = P_done) ps.
Proof. intros L O. apply Forall_lookup. intros j q M. destruct (decide (j = i)) as [->|]; [congruence|by eapply O]. Qed.

Lemma end_lawful f k br ps u br' c : shape br ps [C_end f k] u -> stop_end f k br = (br', c) -> shape br' ps [c] u.
Proof.
  intros S E. unfold stop_end in E. shape_cases S.
  - destruct f; try done. change (if bool_decide (OK = OK) then cleanup_error br else OK) with (cleanup_error br) in E. unfold failed in O.
    destruct (bool_decide_reflect (cleanup_error br = OK)) as [X|X]; injection E as <- <-.
    + apply shape_stopped; one_caller.
    + destruct O as (? & ? & ?). apply shape_fatal; one_caller.
  - destruct Ow as (T & J & -> & ->). rewrite Ce in E. pose proof (all_done _ _ L O) as D. unfold failed.
    replace (if bool_decide (f = OK) then OK else f) with f in E by (by destruct f).
    destruct (bool_decide_reflect (f = OK)) as [X|X]; injection E as <- <-.
    + apply shape_stopped; one_caller.
    + apply shape_fatal; one_caller.
Qed.

Lemma fatal_lawful f k br ps u : shape br ps [C_fatal f k] u -> shape br ps [C_tail (failure f) k] u.
Proof. intros S. shape_cases S. apply shape_fatal; one_caller. Qed.

Lemma tail_stopped k br ps u cs : shape br ps [C_tail (success tt) k] u -> Forall (fun c => passive c = true) cs -> (length cs <= 1)%nat ->
  shape (unfatal br) ps cs u.
Proof.
  intros S Fo Nc. inversion S as [R| | |i R T J Cd L D [[? _]|[[? Ck] A]] O|i c0 R T J Cd A L D Cs Jo O|i p c0 R Sr Cd Ce A L O Cs Ow|R T J Cd Ce A D P N2 O1 O2]; try done.
  - unfold unfatal, in_state. rewrite R. cbn. by apply (shape_passive _ _ _ _ _ S R).
  - injection Cs as <-. done.
  - injection Cs as <-. done.
  - by apply Forall_cons_1 in P as [? _].
Qed.
Lemma tail_failed e k br ps u cs : shape br ps [C_tail (failure e) k] u -> Forall (fun c => reporting c = true) cs -> (length cs <= 1)%nat ->
  shape br ps cs u.
Proof. intros S Fo Nc. shape_cases S. by apply shape_fatal. Qed.
Lemma next_lawful f br ps u : shape br ps [C_next f] u -> shape br ps [] u.
Proof.
  intros S. shape_cases S; [apply (shape_passive _ _ _ _ _ S R); one_caller|].
  apply shape_fatal; one_caller.
Qed.

Lemma lawful_with cs sd u : usb (transport sd) = Some u -> callers sd = cs -> shape (bridge sd) (pumps sd) cs u -> lawful sd.
Proof. intros U <- S. by exists u. Qed.

(** A caller that takes its turn keeps the law. *)
Lemma caller_lawful b i sh sd sh' sd' : lawful sd -> caller_step l b i (sh, sd) (sh', sd') -> lawful sd'.
Proof.
  intros Law St.
  assert (exists c, callers sd !! i = Some c) as [c0 L0] by (inversion St; subst; eauto).
  destruct Law as (u & U & S). destruct (shape_alone _ _ _ _ _ _ S L0) as [Cs ->]. rewrite Cs in S.
  assert (forall c', <[0%nat := c']> (callers sd) = [c']) as Set1 by (intros; by rewrite Cs).
  assert (delete 0%nat (callers sd) = []) as Del by (by rewrite Cs).
  inversion St as [? ? o k br' c L M E|? ? t cl k r L|? ? t cl f k L W|? ? cl f k r L|? ? f k br' c L E|? ? f k L|? ? a L|? ? a e L|? ? f L|? ? f e L];
    subst; clear St; rewrite Cs in L; injection L as ->.
  - apply (lawful_with [c] _ u); [exact U|exact (Set1 c)|]. by apply (stop_lawful o k (bridge sd)).
  - destruct (cancel_lawful _ _ _ r _ _ _ S) as (u' & Cu & S'). destruct cl; unfold call_usb in Cu.
    + eapply (lawful_with _ _ u'); [exact (usb_call _ u _ _ U Cu)|exact (Set1 _)|exact S'].
    + apply (inj Some) in Cu; subst u'. eapply (lawful_with _ _ u); [exact U|exact (Set1 _)|exact S'].
  - eapply (lawful_with _ _ u); [exact U|exact (Set1 _)|]. by apply (join_lawful t cl f k).
  - destruct (stop_stream_lawful _ _ _ r _ _ _ S) as (u' & Cu & S'). destruct cl; unfold call_usb in Cu.
    + eapply (lawful_with _ _ u'); [exact (usb_call _ u _ _ U Cu)|exact (Set1 _)|exact S'].
    + apply (inj Some) in Cu; subst u'. eapply (lawful_with _ _ u); [exact U|exact (Set1 _)|exact S'].
  - eapply (lawful_with _ _ u); [exact U|exact (Set1 _)|]. by apply (end_lawful f k (bridge sd)).
  - eapply (lawful_with _ _ u); [exact U|exact (Set1 _)|]. by apply fatal_lawful.
  - apply (lawful_with [] _ u); [exact U|exact Del|]. apply (tail_stopped _ _ _ _ _ S); one_caller.
  - apply (lawful_with [] _ u); [exact U|exact Del|]. apply (tail_failed _ _ _ _ _ _ S); one_caller.
  - eapply (lawful_with _ _ u); [exact U|exact (Set1 _)|]. apply (tail_stopped _ _ _ _ _ S); one_caller.
  - eapply (lawful_with _ _ u); [exact U|exact (Set1 _)|]. apply (tail_failed _ _ _ _ _ _ S); one_caller.
Qed.

(** ** Starting and stopping *)

Lemma settled_shape br ps u : shape br ps [] u -> settled br = true ->
  state br = BS_stopped \/ state br = BS_running \/ (state br = BS_fatal /\ (thread br = None -> attached_count br = 0)).
Proof. intros [] E; auto; try (right; right; split; [done|]; congruence). unfold settled, in_state in E. by rewrite H in E. Qed.

Lemma start_lawful w sh sd r sh' sd' : lawful sd -> callers sd = [] -> state (bridge sd) = BS_stopped ->
  start_bridge_locked w (sh, sd) = (r, (sh', sd')) ->
  callers sd' = [] /\ attached_count (bridge sd') = 0 /\
  if is_success r then lawful (sd'{{ bridge -> attached_count ::= inc }}) else lawful sd'.
Proof.
  intros (u & U & S) Cs R E. rewrite Cs in S. destruct S as [? T J Ce A D ? ? (O1 & O2 & O3)| | | | | |]; try congruence.
  unfold start_bridge_locked in E. unfold in_state in E. rewrite R, T in E.
  change (negb (bool_decide (BS_stopped = BS_stopped))) with false in E. change (bool_decide (@None nat <> None)) with false in E. cbn match in E.
  assert (usb_step u (T_start (started w)) = Some (if is_success (started w) then mkUsb true false false false else u)) as U1.
  { unfold usb_step. rewrite O1, O2, O3. done. }
  pose proof (usb_call _ _ _ _ U U1) as U2.
  destruct (started w) as [[]|e] eqn:Es.
  - destruct (spawned w).
    + injection E as <- <- <-. split_and!; [done..|]. exists (mkUsb true false false false). split; [exact U2|].
      apply (shape_running _ _ _ _ (length (pumps sd)) P_check); try done.
      * change (inc (attached_count (bridge sd)) <> 0). by rewrite A.
      * apply list_lookup_middle. done.
      * intros j q L N. apply lookup_app_Some in L as [L|[G L]]; [by eapply Forall_lookup_1 in D; [|exact L]|].
        apply list_lookup_singleton_Some in L as [L _]. destruct N. change (length (pumps sd) <= j)%nat in G.
        change (j - length (pumps sd) = 0)%nat in L. change (j = length (pumps sd)). lia.
    + set (first := first_error (error_of (cancelled w)) (stopped w)) in E. injection E as <- <- <-.
      split_and!; [done..|]. change (is_success (if bool_decide (first = OK) then failure INTERNAL else failure first)) with (is_success (if bool_decide (first = OK) then @failure unit INTERNAL else failure first)).
      replace (is_success (if bool_decide (first = OK) then @failure unit INTERNAL else failure first)) with false by (by destruct (bool_decide _)).
      apply (lawful_with [] _ (mkUsb false true false (failed first))); [|exact Cs|].
      * unfold first. rewrite <- failed_first. eapply usb_call; [eapply usb_call; [exact U2|reflexivity]|reflexivity].
      * destruct (bool_decide_reflect (first = OK)) as [F|F].
        -- rewrite F. apply shape_stopped; try done; one_caller.
        -- apply shape_fatal; try done; one_caller.
  - injection E as <- <- <-. split_and!; [done..|]. apply (lawful_with [] _ u); [exact U2|exact Cs|].
    apply shape_stopped; try done; one_caller.
Qed.

Lemma begin_stop_lawful k f sd : lawful sd -> callers sd = [] -> settled (bridge sd) = true -> f (attached_count (bridge sd)) = 0 ->
  lawful (begin_stop k (sd{{ bridge -> attached_count ::= f }})).
Proof.
  intros (u & U & S) Cs Se F. rewrite Cs in S.
  assert (forall o, callers sd ++ [C_stop o k] = [C_stop o k]) as Cs' by (intros; by rewrite Cs).
  inversion S as [R T J Ce A D P N O|i p R T J Ce Cd Sr A L Lo O _ Us|i p R|i R T J Cd L D [[_ A]|[[? Ck] _]] O| | |R T J Cd Ce A D P N O1 O2];
    try done; unfold begin_stop; change (in_state (bridge (sd{{ bridge -> attached_count ::= f }})) BS_running) with (in_state (bridge sd) BS_running);
    unfold in_state; try rewrite R.
  - apply (lawful_with [C_stop false k] _ u); [exact U|exact (Cs' _)|]. by apply shape_stopped; one_caller.
  - apply (lawful_with [C_stop true k] _ u); [exact U|exact (Cs' _)|]. apply (shape_owned _ _ _ _ i p (C_stop true k)); try done.
    cbn. rewrite Lo. split_and!; try done.
  - unfold settled, in_state in Se. by rewrite R in Se.
  - apply (lawful_with [C_stop false k] _ u); [exact U|exact (Cs' _)|]. apply (shape_failed _ _ _ _ i); try done. right. eauto.
  - apply (lawful_with [C_stop false k] _ u); [exact U|exact (Cs' _)|]. by apply shape_fatal; one_caller.
Qed.

Lemma recount_lawful f sd : lawful sd -> callers sd = [] -> settled (bridge sd) = true ->
  attached_count (bridge sd) <> 0 -> f (attached_count (bridge sd)) <> 0 -> lawful (sd{{ bridge -> attached_count ::= f }}).
Proof.
  intros (u & U & S) Cs Se N F. rewrite Cs in S. apply (lawful_with [] _ u); [exact U|exact Cs|].
  inversion S as [|i p R T J Ce Cd Sr A L Lo O _ Us|i p R|i R T J Cd L D [[_ A]|[[? Ck] _]] O| | |]; try done.
  - by apply (shape_running _ _ _ _ i p).
  - unfold settled, in_state in Se. by rewrite R in Se.
  - apply (shape_failed _ _ _ _ i); try done. by left.
Qed.

(** ** How many sessions are attached *)

Definition flags (sh : Shared) : list bool := attached <$> sessions_ sh.
Definition attached_among (fl : list bool) (b : nat) : Z := zlen (filter (fun r => fl !! r = Some true) (receivers_of l b)).

Lemma elem_receivers r b : r ∈ receivers_of l b <-> (receiver_base l b <= r < receiver_base l b + receivers_per_bridge l)%nat.
Proof. apply elem_of_seq. Qed.
Lemma receiver_bridge r b : valid_receiver l r = true -> r ∈ receivers_of l b <-> bridge_index l r = b.
Proof.
  intros V. unfold valid_receiver in V. apply Nat.ltb_lt in V. rewrite elem_receivers. unfold receiver_base, bridge_index.
  destruct (decide (receivers_per_bridge l = 0%nat)); [lia|]. split.
  - intros [A B]. symmetry. apply (Nat.div_unique _ _ _ (r - b * receivers_per_bridge l)); nia.
  - intros <-. pose proof (Nat.div_mod r (receivers_per_bridge l) ltac:(done)). pose proof (Nat.mod_upper_bound r (receivers_per_bridge l) ltac:(done)). nia.
Qed.

Lemma among_other fl r x b : r ∉ receivers_of l b -> attached_among (<[r := x]> fl) b = attached_among fl b.
Proof.
  intros N. unfold attached_among. f_equal. induction (receivers_of l b) as [|q qs IH]; [done|].
  apply not_elem_of_cons in N as [Ne N]. rewrite !filter_cons, IH by done. by rewrite list_lookup_insert_ne.
Qed.

(** A session that changes hands counts once. *)
Lemma among_here fl r x b : fl !! r = Some (negb x) -> r ∈ receivers_of l b ->
  attached_among (<[r := x]> fl) b = if x then attached_among fl b + 1 else attached_among fl b - 1.
Proof.
  intros L. unfold attached_among. pose proof (NoDup_seq (receiver_base l b) (receivers_per_bridge l)) as Nd. fold (receivers_of l b) in Nd.
  induction (receivers_of l b) as [|q qs IH]; intros E; [by apply not_elem_of_nil in E|]. apply NoDup_cons in Nd as [N Nd].
  destruct (decide (q = r)) as [->|M].
  - assert (filter (fun r0 => <[r:=x]> fl !! r0 = Some true) qs = filter (fun r0 => fl !! r0 = Some true) qs) as Q.
    { clear -N. induction qs as [|q qs IH]; [done|]. apply not_elem_of_cons in N as [Ne N]. rewrite !filter_cons, IH by done. by rewrite list_lookup_insert_ne. }
    rewrite !filter_cons, Q, list_lookup_insert_eq by (by eapply lookup_lt_Some). rewrite L. unfold zlen. destruct x; cbn [negb]; repeat case_decide; try done; cbn [length]; lia.
  - apply elem_of_cons in E as [->|E]; [done|]. rewrite !filter_cons, list_lookup_insert_ne by done.
    specialize (IH Nd E). unfold zlen in *. destruct (decide (fl !! q = Some true)); cbn [length]; destruct x; lia.
Qed.
Lemma among_bounds fl b : 0 <= attached_among fl b <= Z.of_nat (receivers_per_bridge l).
Proof.
  unfold attached_among, zlen. split; [lia|]. apply Nat2Z.inj_le. etransitivity; [apply length_filter|]. unfold receivers_of. by rewrite length_seq.
Qed.
Lemma among_attached fl r b : fl !! r = Some true -> r ∈ receivers_of l b -> 0 < attached_among fl b.
Proof.
  intros L E. unfold attached_among, zlen. destruct (filter _ _) eqn:F; [|cbn; lia].
  assert (r ∈ @nil nat) as X by (rewrite <- F; by apply list_elem_of_filter). by apply not_elem_of_nil in X.
Qed.

(** ** What keeps the flags *)

Lemma finish_attached s : attached (finish_startup_packet_locked policy s) = attached s.
Proof. unfold finish_startup_packet_locked. split_ifs; done. Qed.
Lemma observe_attached s p : attached (observe_continuity s p).2 = attached s.
Proof. unfold observe_continuity. split_ifs; done. Qed.

Definition keeps_attached (o : SessionOp) : bool :=
  pump_op o || match o with OpRead _ | OpReleaseFinal _ => true | _ => false end.
Lemma op_attached s o bytes s' : keeps_attached o = true -> run_op policy s o = Some (bytes, s') -> attached s' = attached s.
Proof.
  intros K R. destruct o as [p| |n pb| | |r|r|size|a|a|a| | |]; try done; cbn in R.
  - unfold enqueue in R. destruct (negb (is_live s)); [by injection R as _ <-|]. destruct (stabilizing (startup s)).
    + injection R as _ <-. unfold enqueue_startup. destruct (tei_set p); [by rewrite finish_attached|].
      set (s1 := s{{startup -> startup_packets ::= inc}}). pose proof (observe_attached s1 p) as O.
      destruct (observe_continuity s1 p) as [v s2]. rewrite finish_attached. by destruct (bool_decide _).
    + unfold enqueue_published in R. set (s1 := if tei_set p then _ else s) in R. assert (attached s1 = attached s) as A1 by (unfold s1; by destruct (tei_set p)).
      pose proof (observe_attached s1 p) as O. destruct (observe_continuity s1 p) as [v s2]. cbn [snd] in O. rewrite <- A1, <- O.
      destruct (_ && _); [by injection R as _ <-|]. set (s3 := if bool_decide (v = fault) then _ else s2) in R.
      assert (attached s3 = attached s2) as <- by (unfold s3; by destruct (bool_decide _)). clearbody s3.
      match type of R with context [if ?b then _ else _] => destruct b end; [by injection R as _ <-|].
      destruct (ring_push _ p) as [r|]; [|done]. by injection R as _ <-.
  - injection R as _ <-. unfold count_wire_tei. split_ifs; try rewrite finish_attached; done.
  - injection R as _ <-. unfold count_sync_losses. split_ifs; done.
  - injection R as _ <-. unfold promote_ready. split_ifs; done.
  - injection R as _ <-. unfold count_empty. split_ifs; done.
  - injection R as _ <-. unfold mark_bridge_terminal. split_ifs; done.
  - unfold read_now in R. destruct (count (ring s) =? 0).
    + destruct (negb _); by injection R as _ <-.
    + destruct (ring_pop _ _) as [[b r]|]; [|done]. by injection R as _ <-.
  - injection R as _ <-. unfold release_final. split_ifs; done.
Qed.

Lemma flags_same r f sh : (forall s, sessions_ sh !! r = Some s -> attached (f s) = attached s) -> flags (upd_session r f sh) = flags sh.
Proof.
  intros F. change (attached <$> alter f r (sessions_ sh) = attached <$> sessions_ sh). apply list_eq. intros i. rewrite !list_lookup_fmap.
  destruct (decide (i = r)) as [->|N]; [|by rewrite list_lookup_alter_ne by done].
  rewrite list_lookup_alter_eq. destruct (sessions_ sh !! r) as [s|] eqn:E; [|done]. cbn. by rewrite F.
Qed.
Lemma flags_set r f x sh : (forall s, sessions_ sh !! r = Some s -> attached (f s) = x) -> flags (upd_session r f sh) = <[r := x]> (flags sh).
Proof.
  intros F. change (attached <$> alter f r (sessions_ sh) = <[r := x]> (attached <$> sessions_ sh)). apply list_eq. intros i.
  destruct (decide (i = r)) as [->|N].
  - rewrite list_lookup_fmap, list_lookup_alter_eq. destruct (sessions_ sh !! r) as [s|] eqn:E.
    + rewrite list_lookup_insert_eq by (rewrite length_fmap; by eapply lookup_lt_Some). cbn. by rewrite F.
    + rewrite list_insert_ge by (rewrite length_fmap; by apply lookup_ge_None_1). by rewrite list_lookup_fmap, E.
  - by rewrite list_lookup_insert_ne, !list_lookup_fmap, list_lookup_alter_ne by done.
Qed.
Lemma flags_fatal sh : flags (bridge_fatal sh) = flags sh.
Proof.
  unfold flags. change (sessions_ (bridge_fatal sh)) with (mark_terminal ST_bridge_fatal <$> sessions_ sh). rewrite <- list_fmap_compose.
  apply list_fmap_ext. intros i s _. unfold compose, mark_terminal. by destruct (is_live s).
Qed.
Lemma flags_calls r o bytes s' sh : keeps_attached o = true -> run_op policy (session_at sh r) o = Some (bytes, s') ->
  flags (upd_session r (fun _ => s') sh) = flags sh.
Proof. intros K R. apply flags_same. intros s E. rewrite (op_attached _ _ _ _ K R). unfold session_at. by rewrite E. Qed.
Lemma flags_all b f sh : (forall s, attached (f s) = attached s) -> flags (upd_sessions l b f sh) = flags sh.
Proof.
  intros F. unfold upd_sessions. revert sh. induction (receivers_of l b) as [|r rs IH]; intros sh; [done|]. cbn. rewrite IH. by apply flags_same.
Qed.

(** The flags once the sessions [rs] are detached. *)
Definition clear (fl : list bool) (rs : list nat) : list bool := foldl (fun fl r => <[r := false]> fl) fl rs.

Lemma flags_shut b sh : flags (upd_sessions l b shutdown_session sh) = clear (flags sh) (receivers_of l b).
Proof.
  unfold upd_sessions. revert sh. induction (receivers_of l b) as [|r rs IH]; intros sh; [done|]. cbn. rewrite IH. f_equal.
  apply flags_set. intros s _. unfold shutdown_session. by destruct (attached s) eqn:E.
Qed.
Lemma clear_lookup rs fl r : clear fl rs !! r = Some true -> (r ∉ rs) /\ fl !! r = Some true.
Proof.
  revert fl. induction rs as [|q rs IH]; intros fl E; [split; [apply not_elem_of_nil|done]|]. apply IH in E as [N E].
  apply list_lookup_insert_Some in E as [(_ & X & _)|[M E]]; [done|]. split; [|done]. apply not_elem_of_cons. by split.
Qed.
Lemma among_clear fl b : attached_among (clear fl (receivers_of l b)) b = 0.
Proof.
  unfold attached_among. destruct (filter _ _) as [|r rs] eqn:F; [done|]. exfalso.
  assert (r ∈ r :: rs) as X by left. rewrite <- F in X. apply list_elem_of_filter in X as [E M]. by apply clear_lookup in E as [N _].
Qed.
Lemma among_clear_other fl b b' : b <> b' -> attached_among (clear fl (receivers_of l b)) b' = attached_among fl b'.
Proof.
  intros N. assert (forall r, r ∈ receivers_of l b -> r ∉ receivers_of l b') as D.
  { intros r A B. apply elem_receivers in A, B. unfold receiver_base in *. apply N. nia. }
  revert fl. induction (receivers_of l b) as [|r rs IH]; intros fl; [done|]. cbn. rewrite IH by (intros q Q; apply D; by right).
  apply among_other, D. left.
Qed.
Lemma clear_length fl rs : length (clear fl rs) = length fl.
Proof. revert fl. induction rs as [|r rs IH]; intros fl; [done|]. cbn. by rewrite IH, length_insert. Qed.

(** ** The invariant of a plane *)

Definition pump_ok (p : PumpPc) : Prop := match p with P_calls c _ => pump_calls c | _ => True end.
Record side_ok (fl : list bool) (b : nat) (sd : Side) : Prop := {
  side_lawful : lawful sd;
  side_count : attached_count (bridge sd) = attached_among fl b;
  side_pumps : Forall pump_ok (pumps sd);
}.
Record plane_ok (pl : Plane) : Prop := {
  plane_sessions : length (flags (shared pl)) = Z.to_nat kReceiverCount;
  plane_sides : forall b sd, sides pl !! b = Some sd -> side_ok (flags (shared pl)) b sd;
}.
(** What a step on bridge [b] does to the flags of the sessions. *)
Definition flags_from (b : nat) (fl fl' : list bool) : Prop :=
  length fl' = length fl /\ forall b', b' <> b -> attached_among fl' b' = attached_among fl b'.

Lemma plane_side pl b sh' sd' : plane_ok pl -> flags_from b (flags (shared pl)) (flags sh') -> side_ok (flags sh') b sd' ->
  plane_ok {| shared := sh'; sides := <[b := sd']> (sides pl) |}.
Proof.
  intros [Se Si] [Le Ot] Ok. split; [by cbn; rewrite Le|]. cbn. intros b' sd L.
  apply list_lookup_insert_Some in L as [(<- & <- & _)|[N L]]; [done|]. destruct (Si _ _ L) as [La Co Pu]. split; try done. by rewrite Ot.
Qed.
Lemma flags_from_same b fl fl' : fl' = fl -> flags_from b fl fl'.
Proof. by intros ->. Qed.

Lemma pump_keeps b i sh sd sh' sd' : pump_step l policy b i (sh, sd) (sh', sd') -> Forall pump_ok (pumps sd) ->
  flags sh' = flags sh /\ attached_count (bridge sd') = attached_count (bridge sd) /\ Forall pump_ok (pumps sd').
Proof.
  intros St F. assert (forall p, pump_ok p -> Forall pump_ok (<[i := p]> (pumps sd))) as Fi by (intros; by apply Forall_insert).
  inversion St as [? ? L|? ? L|? ? e ? br' calls again L E|? ? r o calls again bytes s' L R|? ? again L|? ? L ?|? ? L ?|? ? r L|? ? f r L|? ? f L]; subst; clear St;
    try (split_and!; [done|done|by apply Fi; repeat case_match]).
  - apply on_event_ok in E as (Co & Se & Ca). split_and!; [unfold flags; by rewrite Se|by injection Co|by apply Fi].
  - apply (Forall_lookup_1 _ _ _ _ F) in L. apply Forall_cons in L as [Po Ca]. split_and!; [|done|by apply Fi].
    apply (flags_calls _ o bytes); [|done]. unfold keeps_attached. cbn in Po. by rewrite Po.
  - split_and!; [|done|by apply Fi]. destruct (bool_decide _); [done|apply flags_fatal].
Qed.
Lemma caller_keeps b i sh sd sh' sd' : caller_step l b i (sh, sd) (sh', sd') ->
  flags sh' = flags sh /\ attached_count (bridge sd') = attached_count (bridge sd) /\ pumps sd' = pumps sd.
Proof.
  intros St.
  inversion St as [? ? o k br' c L M E|? ? t cl k r L|? ? t cl f k L W|? ? cl f k r L|? ? f k br' c L E|? ? f k L|? ? a L|? ? a e L|? ? f L|? ? f e L];
    subst; clear St; try (split_and!; done).
  - unfold stop_begin in E. destruct (_ && _); injection E as <- <-; split_and!; done.
  - destruct cl; split_and!; done.
  - destruct cl; split_and!; done.
  - unfold stop_end in E. injection E as <- <-. split_and!; done.
  - split_and!; [apply flags_fatal|done|done].
  - split_and!; [done| |done]. unfold unfatal. by destruct (_ && _).
  - split_and!; [|done|done]. apply flags_same. intros s _. unfold detach_failed. by destruct (_ && _).
  - split_and!; [done| |done]. unfold unfatal. by destruct (_ && _).
  - split_and!; [|done|done]. destruct (in_state _ _); [|done]. apply flags_all. intros s. unfold shutdown_failed. by destruct (final_snapshot_valid s).
Qed.

(** ** Attaching and detaching *)

Hypothesis layout_positive : (0 < receivers_per_bridge l)%nat.
Hypothesis layout_fits : (bridge_count l * receivers_per_bridge l <= Z.to_nat kReceiverCount)%nat.

Lemma valid_flag r sh : valid_receiver l r = true -> length (flags sh) = Z.to_nat kReceiverCount ->
  flags sh !! r = Some (attached (session_at sh r)).
Proof.
  intros V N. unfold valid_receiver in V. apply Nat.ltb_lt in V. unfold flags in N. rewrite length_fmap in N.
  unfold flags, session_at. rewrite list_lookup_fmap. destruct (lookup_lt_is_Some_2 (sessions_ sh) r ltac:(lia)) as [s E]. by rewrite E.
Qed.
Lemma inc_count r fl b : valid_receiver l r = true -> inc (attached_among fl b) = attached_among fl b + 1.
Proof.
  intros V. unfold valid_receiver in V. apply Nat.ltb_lt in V. pose proof (among_bounds fl b).
  change (Z.to_nat kReceiverCount) with 8%nat in layout_fits. unfold inc. apply cast_u64_small. unfold is_u64.
  assert (receivers_per_bridge l <= 8)%nat by (destruct (bridge_count l); lia). lia.
Qed.

Lemma attach_session_flag allocated a s r s' : attach_session queue_packets policy allocated a s = (r, s') ->
  if is_success r then attached s = false /\ attached s' = true else s' = s.
Proof.
  unfold attach_session. destruct (attached s || draining s) eqn:X; [by intros [= <- <-]|].
  set (got := match packets (ring s) with Some _ => _ | None => _ end). clearbody got.
  destruct got; intros [= <- <-]; [|done]. apply orb_false_iff in X as [X _]. done.
Qed.

Lemma start_keeps w sh sd r sh' sd' : start_bridge_locked w (sh, sd) = (r, (sh', sd')) -> Forall pump_ok (pumps sd) ->
  flags sh' = flags sh /\ Forall pump_ok (pumps sd').
Proof.
  intros E F. unfold start_bridge_locked in E. destruct (negb _); [by injection E as _ <- <-|]. destruct (bool_decide _); [by injection E as _ <- <-|].
  destruct (started w); [|by injection E as _ <- <-]. destruct (spawned w).
  - injection E as _ <- <-. split; [done|]. apply Forall_app. by repeat constructor.
  - injection E as _ <- <-. split; [|done]. destruct (bool_decide _); [done|apply flags_fatal].
Qed.

Lemma flags_from_set b r x fl : bridge_index l r = b -> valid_receiver l r = true -> flags_from b fl (<[r := x]> fl).
Proof.
  intros E V. split; [by rewrite length_insert|]. intros b' N. apply among_other. rewrite receiver_bridge by done. congruence.
Qed.

Lemma attach_side a allocated w sh sd r sh' sd' : length (flags sh) = Z.to_nat kReceiverCount ->
  side_ok (flags sh) (bridge_index l (a_receiver a)) sd -> callers sd = [] -> settled (bridge sd) = true ->
  attach l queue_packets policy a allocated w (sh, sd) = (r, (sh', sd')) ->
  side_ok (flags sh') (bridge_index l (a_receiver a)) sd' /\ flags_from (bridge_index l (a_receiver a)) (flags sh) (flags sh').
Proof.
  intros N Ok Cs Se E. unfold attach in E. set (b := bridge_index l (a_receiver a)) in *.
  destruct (valid_attachment l a) eqn:V; [|by injection E as _ <- <-]. cbn [negb] in E. destruct (_ || _) eqn:G1; [by injection E as _ <- <-|].
  destruct (in_state _ _ && _) eqn:G2; [by injection E as _ <- <-|].
  unfold valid_attachment in V. apply andb_true_iff in V as [V _]. apply andb_true_iff in V as [_ V].
  destruct (attach_session _ _ _ _ _) as [ra s] eqn:A. apply attach_session_flag in A. set (sh1 := upd_session (a_receiver a) (fun _ => s) sh) in E.
  pose proof (valid_flag _ _ V N) as Fl.
  destruct (is_success ra) eqn:Ra; cbn [negb] in E.
  2: { injection E as _ <- <-. assert (flags sh1 = flags sh) as ->; [|done]. apply flags_same. intros s0 L. subst s. unfold session_at. by rewrite L. }
  destruct A as [A0 A1]. rewrite A0 in Fl.
  assert (flags sh1 = <[a_receiver a := true]> (flags sh)) as F1 by (by apply flags_set; intros).
  assert (attached_among (flags sh1) b = attached_among (flags sh) b + 1) as K1 by (rewrite F1; apply (among_here _ _ true); [done|by apply receiver_bridge]).
  pose proof (flags_from_set b _ true (flags sh) eq_refl V) as Fr. destruct Ok as [La Co Pu].
  destruct (attached_count (bridge sd) =? 0) eqn:Z0.
  - apply Z.eqb_eq in Z0. rewrite Co in Z0.
    assert (state (bridge sd) = BS_stopped) as R.
    { destruct La as (u & _ & S). rewrite Cs in S. destruct (settled_shape _ _ _ S Se) as [R|[R|[R _]]]; [done| |].
      - destruct S; congruence.
      - unfold in_state in G1. rewrite R in G1. by rewrite orb_true_r in G1. }
    destruct (start_bridge_locked w (sh1, sd)) as [r2 [sh2 sd2]] eqn:St. pose proof (start_keeps _ _ _ _ _ _ St Pu) as [F2 Pu2].
    destruct (start_lawful _ _ _ _ _ _ La Cs R St) as (Cs2 & Co2 & La2). destruct (is_success r2); cbn [negb] in E; injection E as _ <- <-.
    + rewrite F2, F1. split; [|done]. rewrite F1 in K1. split; [exact La2| |exact Pu2].
      change (inc (attached_count (bridge sd2)) = attached_among (<[a_receiver a:=true]> (flags sh)) b). rewrite Co2, K1, Z0. done.
    + assert (flags (upd_session (a_receiver a) attach_undone sh2) = flags sh) as ->.
      { rewrite (flags_set _ _ false) by done. rewrite F2, F1, list_insert_insert_eq. by apply list_insert_id. }
      split; [split; [done|by rewrite Co2|done]|done].
  - apply Z.eqb_neq in Z0. cbn [is_success negb] in E. injection E as _ <- <-. rewrite F1 in K1 |- *. split; [|done].
    pose proof (inc_count _ (flags sh) b V) as I. pose proof (among_bounds (flags sh) b) as B.
    split; [|change (inc (attached_count (bridge sd)) = attached_among (<[a_receiver a:=true]> (flags sh)) b); by rewrite Co, I, K1|exact Pu].
    apply recount_lawful; try done. rewrite Co, I. lia.
Qed.

Lemma detach_side a sh sd r sh' sd' : length (flags sh) = Z.to_nat kReceiverCount ->
  side_ok (flags sh) (bridge_index l (a_receiver a)) sd -> callers sd = [] -> settled (bridge sd) = true ->
  detach l a (sh, sd) = (r, (sh', sd')) ->
  side_ok (flags sh') (bridge_index l (a_receiver a)) sd' /\ flags_from (bridge_index l (a_receiver a)) (flags sh) (flags sh').
Proof.
  intros N [La Co Pu] Cs Se E. unfold detach in E. set (b := bridge_index l (a_receiver a)) in *.
  destruct (valid_receiver l (a_receiver a)) eqn:V; [|by injection E as _ <- <-]. cbn [negb] in E.
  pose proof (valid_flag _ _ V N) as Fl. unfold detach_session in E.
  destruct (negb (attached (session_at sh (a_receiver a))) || _) eqn:G; [by injection E as _ <- <-|].
  apply orb_false_iff in G as [G _]. apply negb_false_iff in G. rewrite G in Fl.
  cbn [is_success negb] in E. set (sh1 := upd_session _ _ sh) in E.
  assert (flags sh1 = <[a_receiver a := false]> (flags sh)) as F1 by (by apply flags_set; intros).
  assert (a_receiver a ∈ receivers_of l b) as In by (by apply receiver_bridge).
  pose proof (among_attached _ _ _ Fl In) as Pos. pose proof (among_here _ _ false b Fl In) as K1. cbn beta iota in K1.
  pose proof (flags_from_set b _ false (flags sh) eq_refl V) as Fr.
  set (f := fun n : Z => if n =? 0 then 0 else n - 1) in E.
  assert (f (attached_count (bridge sd)) = attached_among (flags sh1) b) as Cf.
  { rewrite F1, K1, Co. unfold f. destruct (Z.eqb_spec (attached_among (flags sh) b) 0); lia. }
  set (sd1 := sd{{bridge -> attached_count ::= f}}).
  change ((success tt, (sh1, if f (attached_count (bridge sd)) =? 0 then begin_stop (AfterDetach a) sd1 else sd1)) = (r, (sh', sd'))) in E.
  apply pair_eq in E as [_ E]. apply pair_eq in E as [<- <-]. rewrite F1 in Cf |- *. split; [|done].
  destruct (Z.eqb_spec (f (attached_count (bridge sd))) 0) as [Z0|Z0].
  - split; [by apply begin_stop_lawful| |unfold begin_stop; by destruct (in_state _ _)].
    rewrite <- Cf. unfold begin_stop. by destruct (in_state _ _).
  - split; [|done|done]. apply recount_lawful; try done. rewrite Co. lia.
Qed.

Lemma shutdown_side b first sh sd sh' sd' : side_ok (flags sh) b sd -> callers sd = [] -> settled (bridge sd) = true ->
  shutdown_bridge l b first (sh, sd) = (sh', sd') -> side_ok (flags sh') b sd' /\ flags_from b (flags sh) (flags sh').
Proof.
  intros [La Co Pu] Cs Se E. unfold shutdown_bridge in E. injection E as <- <-. cbn [fst snd]. rewrite flags_shut. split.
  - split; [by apply begin_stop_lawful| |unfold begin_stop; by destruct (in_state _ _)].
    rewrite among_clear. unfold begin_stop. by destruct (in_state _ _).
  - split; [apply clear_length|]. intros b' Nb. by apply among_clear_other.
Qed.

(** ** Every step, with one caller at a time *)

Lemma step_plane_ok pl pl' : plane_ok pl -> step l queue_packets policy 1 pl pl' -> plane_ok pl'.
Proof.
  intros Ok St. pose proof Ok as [N Si].
  assert (forall cs : list CallerPc, (length cs < 1)%nat -> cs = []) as Nil by (intros [|? ?] L; [done|cbn in L; lia]).
  destruct St as [pl b i sd sh' sd' L St|pl b i sd sh' sd' L St|pl sd a al w r sh' sd' L C Se _ E|pl sd a r sh' sd' L C Se E|pl|pl b sd f sh' sd' _ L C Se _ E|pl b i sd f L C|pl r o bytes s' K V R].
  - destruct (Si _ _ L) as [La Co Pu]. destruct (pump_keeps _ _ _ _ _ _ St Pu) as (F & A & P).
    apply plane_side; [done|by apply flags_from_same|]. split; [by eapply pump_lawful|by rewrite A, F|done].
  - destruct (Si _ _ L) as [La Co Pu]. destruct (caller_keeps _ _ _ _ _ _ St) as (F & A & P).
    apply plane_side; [done|by apply flags_from_same|]. split; [by eapply caller_lawful|by rewrite A, F|by rewrite P].
  - destruct (attach_side _ _ _ _ _ _ _ _ N (Si _ _ L) (Nil _ C) Se E) as [S F]. by apply plane_side.
  - destruct (detach_side _ _ _ _ _ _ N (Si _ _ L) (Nil _ C) Se E) as [S F]. by apply plane_side.
  - by split.
  - destruct (shutdown_side _ _ _ _ _ _ (Si _ _ L) (Nil _ C) Se E) as [S F]. by apply plane_side.
  - destruct (Si _ _ L) as [(u & U & S) Co Pu]. apply plane_side; [done|by apply flags_from_same|]. split; [|done|done].
    destruct (shape_alone _ _ _ _ _ _ S C) as [Cs ->]. rewrite Cs in S. eapply (lawful_with [] _ u); [exact U| |by eapply next_lawful].
    change (delete 0%nat (callers sd) = []). by rewrite Cs.
  - assert (flags (upd_session r (fun _ => s') (shared pl)) = flags (shared pl)) as F.
    { apply (flags_calls _ o bytes); [|done]. by destruct o. }
    split; [exact (eq_trans (f_equal length F) N)|]. intros b sd L. pose proof (Si b sd L) as Ok'. rewrite <- F in Ok'. exact Ok'.
Qed.

Lemma among_none fl b : (forall r, fl !! r <> Some true) -> attached_among fl b = 0.
Proof.
  intros N. unfold attached_among. destruct (filter _ _) as [|r rs] eqn:F; [done|]. exfalso.
  assert (r ∈ r :: rs) as X by left. rewrite <- F in X. apply list_elem_of_filter in X as [E _]. by apply (N r).
Qed.
Lemma init_ok memories : plane_ok (Plane_init l memories).
Proof.
  split; [done|]. intros b sd L. cbn in L. apply list_lookup_fmap_Some in L as (m & -> & L). split; [| |constructor].
  - exists idle_usb. split; [done|]. by apply shape_stopped; one_caller.
  - symmetry. apply among_none. intros r E. cbn in E. change (attached <$> replicate (Z.to_nat kReceiverCount) Session_init) with (replicate (Z.to_nat kReceiverCount) false) in E.
    by apply lookup_replicate in E as [? _].
Qed.
Lemma runs_ok memories pl : runs l queue_packets policy 1 memories pl -> plane_ok pl.
Proof.
  intros R. pose proof (init_ok memories) as I. unfold runs in R. revert I R. generalize (Plane_init l memories) as pl0.
  intros pl0 I R. induction R as [|? ? ? St R IH]; [done|]. apply IH. by eapply step_plane_ok.
Qed.
End Lifecycle.

(** * What the life of a bridge guarantees *)

Definition wf_layout (l : StreamLayout) : Prop :=
  (0 < receivers_per_bridge l)%nat /\ (bridge_count l * receivers_per_bridge l <= Z.to_nat kReceiverCount)%nat.

(** C4 C1. Whatever the pump of a bridge, its transport, its sessions and
    its readers do and in whatever order their sections run, as long as the threads
    that attach, detach and shut down take turns, the calls
    to the transport of a bridge follow its protocol: a stream is started only
    when none is on and no earlier one failed to end, at most one thread waits for
    it and only while it is on, it is cancelled once, and it is stopped once, after
    that and when nobody waits for it any more. *)
Theorem transport_protocol l queue_packets policy memories pl b sd : wf_layout l ->
  runs l queue_packets policy 1 memories pl -> sides pl !! b = Some sd -> is_Some (usb (transport sd)).
Proof. intros [P F] R L. destruct (plane_sides _ _ (runs_ok l queue_packets policy P F memories pl R) _ _ L) as [(u & -> & _) _ _]. done. Qed.

(** C15 C1. Between two callers a bridge counts exactly the sessions that
    are attached to it.  A stopped one has none of them, no pump, and no stream; a running
    one has some, a stream, and one pump, in its loop; one whose pump cleans up still
    has its sessions; and in a fatal one the stream is over and the pumps are done, and either sessions are left for
    their owners to detach or the stream could not be ended. *)
Theorem bridge_lifecycle l queue_packets policy memories pl b sd : wf_layout l ->
  runs l queue_packets policy 1 memories pl -> sides pl !! b = Some sd -> callers sd = [] ->
  attached_count (bridge sd) = zlen (filter (fun r => flags (shared pl) !! r = Some true) (receivers_of l b)) /\
  exists u, usb (transport sd) = Some u /\
  match state (bridge sd) with
  | BS_stopped => attached_count (bridge sd) = 0 /\ thread (bridge sd) = None /\ Forall (fun p => p = P_done) (pumps sd) /\ streaming u = false
  | BS_starting => False
  | BS_running => 0 < attached_count (bridge sd) /\ streaming u = true /\ exists i p, thread (bridge sd) = Some i /\ pumps sd !! i = Some p /\
      looping p = true /\ forall j q, pumps sd !! j = Some q -> j <> i -> q = P_done
  | BS_stopping => 0 < attached_count (bridge sd) /\ exists i p, thread (bridge sd) = Some i /\ pumps sd !! i = Some p /\
      looping p = false /\ p <> P_done /\ forall j q, pumps sd !! j = Some q -> j <> i -> q = P_done
  | BS_fatal => streaming u = false /\ Forall (fun p => p = P_done) (pumps sd) /\ cleanup_done (bridge sd) = true /\
      (0 < attached_count (bridge sd) /\ thread (bridge sd) <> None \/ attached_count (bridge sd) = 0 /\ cleanup_error (bridge sd) <> OK)
  end.
Proof.
  intros [P F] R L Cs. destruct (plane_sides _ _ (runs_ok l queue_packets policy P F memories pl R) _ _ L) as [(u & U & S) Co _].
  split; [done|]. exists u. split; [done|]. pose proof (among_bounds l (flags (shared pl)) b) as B. rewrite <- Co in B. rewrite Cs in S.
  destruct S as [H T J Ce A D _ _ (O & _)|i p H T J Ce Cd Sr A Li Lo O _ ->|i p H T J A Li O _ M|i H T J Cd Li D Re (O & _)|? ? ? ? ? ? ? ? ? Ab|? ? ? ? ? ? ? ? ? ? Ab|H T J Cd Ce A D _ _ O _]; try done; rewrite H.
  - done.
  - split_and!; [lia|done|eauto 10].
  - split; [lia|]. exists i, p. by split_and!; destruct p.
  - split_and!; try done. left. destruct Re as [[_ A]|[[k X] _]]; [|done]. split; [lia|congruence].
  - split_and!; try done. by right.
Qed.

(** * Small runs *)

(** A client of receiver [r] with its lease. *)
Definition renter (r : nat) (lease : Z) : TunerAttachment := {|
  TunerService.a_owner_client_id := 5; TunerService.a_lease_id := lease; TunerService.a_attachment_id := lease;
  TunerService.a_receiver := r; TunerService.a_system := ISDB_T; TunerService.a_nonce := repeat 7 16 |}.
Definition fine : Result unit := success tt.
Definition all_fine : StartAnswers := {| started := fine; spawned := true; cancelled := fine; stopped := fine |}.
Definition two_packets : option (list Z) := Some (repeat 0 376).
Definition gate_off : StartupStabilizationPolicy := {| minimum_packets := 0; clean_packets := 0; maximum_packets := 0 |}.
Definition comes (r : nat) (lease : Z) : Move := MAttach (renter r lease) two_packets all_fine.
Definition calls_ (n i : nat) : list Move := replicate n (MCaller 0 i fine).
Definition pumps_ (n i : nat) : list Move := replicate n (MPump 0 i (failure USB_IO) fine).
Definition small_runs (limit : nat) (ms : list Move) : option Plane := moves kMlt5PeLayout 2 gate_off limit ms (Plane_init kMlt5PeLayout [None]).

(** A receiver is attached and its stream fails; the owner detaches, and attaches once more. *)
Definition turn_taking : list Move :=
  comes 0 1 :: pumps_ 13 0 ++ MDetach (renter 0 1) :: calls_ 6 0 ++ [MReader 0 (OpReleaseFinal (renter 0 1)); comes 0 2; MPump 0 1 (success []) fine].

(** Receiver 4 has been detached but for the last section of its [detach] when the
    stream that receiver 0 started fails and is detached as well; then receiver 4 is
    attached again before the join of receiver 0 comes to its end. *)
Definition late_tail : list Move :=
  [comes 4 1; MDetach (renter 4 1)] ++ calls_ 2 0 ++ pumps_ 1 0 ++ calls_ 3 0 ++ [MReader 4 (OpReleaseFinal (renter 4 1)); comes 0 2] ++
  pumps_ 13 1 ++ MDetach (renter 0 2) :: calls_ 1 1 ++ calls_ 1 0 ++ [comes 4 3] ++ calls_ 5 0 ++ pumps_ 1 2.

Definition empty_side : Side := {| bridge := Bridge_init kMlt5PeLayout None; pumps := []; callers := []; transport := [] |}.
Definition plane_after (limit : nat) (ms : list Move) : Plane := default (Plane_init kMlt5PeLayout [None]) (small_runs limit ms).
Definition side_after (limit : nat) (ms : list Move) : Side := default empty_side (sides (plane_after limit ms) !! 0%nat).

Lemma plane_after_runs limit ms : runs kMlt5PeLayout 2 gate_off limit [None] (plane_after limit ms).
Proof.
  unfold plane_after, runs. destruct (small_runs limit ms) as [pl|] eqn:E; [|apply rtc_refl]. by eapply moves_sound.
Qed.

Lemma transport_protocol_witness : length (transport (side_after 1 turn_taking)) = 6%nat /\ is_Some (usb (transport (side_after 1 turn_taking))).
Proof.
  split; [vm_compute; reflexivity|].
  apply (transport_protocol kMlt5PeLayout 2 gate_off [None] (plane_after 1 turn_taking) 0 (side_after 1 turn_taking)).
  - split; vm_compute; repeat constructor.
  - apply plane_after_runs.
  - vm_compute. reflexivity.
Defined.

Lemma bridge_lifecycle_witness : state (bridge (side_after 1 turn_taking)) = BS_running /\
  attached_count (bridge (side_after 1 turn_taking)) =
    zlen (filter (fun r => flags (shared (plane_after 1 turn_taking)) !! r = Some true) (receivers_of kMlt5PeLayout 0)).
Proof.
  split; [vm_compute; reflexivity|].
  apply (bridge_lifecycle kMlt5PeLayout 2 gate_off [None] (plane_after 1 turn_taking) 0 (side_after 1 turn_taking)).
  - split; vm_compute; repeat constructor.
  - apply plane_after_runs.
  - vm_compute. reflexivity.
  - vm_compute. reflexivity.
Defined.

Lemma attach_refused l queue_packets policy a allocated w sh sd : state (bridge sd) = BS_stopped -> attached_count (bridge sd) <> 0 ->
  is_success (attach l queue_packets policy a allocated w (sh, sd)).1 = false.
Proof.
  intros R N. unfold attach. destruct (negb _); [done|]. destruct (_ || _); [done|]. unfold in_state at 1. rewrite R.
  apply Z.eqb_neq in N. by rewrite N.
Qed.

(** C40 C1. Two threads that do not take turns can strand a stream.  Here
    one comes back to the last section of [detach] only when another one has begun to
    join the failed pump of the next stream; it clears the fatal state the other one relies
    on, receiver 4 is attached, and when the join ends, the bridge is taken for stopped: its transport
    streams on, its only pump has left, the session is alive and waits for packets, and nobody can
    attach to the bridge any more. *)
Theorem late_detach_strands_stream :
  exists pl sd u, runs kMlt5PeLayout 2 gate_off 2 [None] pl /\ sides pl = [sd] /\ callers sd = [] /\
    usb (transport sd) = Some u /\ streaming u = true /\ Forall (fun p => p = P_done) (pumps sd) /\
    is_live (session_at (shared pl) 4) = true /\ may_read (renter 4 3) (session_at (shared pl) 4) = true /\
    readable (session_at (shared pl) 4) = false /\
    forall a allocated w, is_success (attach kMlt5PeLayout 2 gate_off a allocated w (shared pl, sd)).1 = false.
Proof.
  exists (plane_after 2 late_tail), (side_after 2 late_tail), (mkUsb true false false false).
  split; [apply plane_after_runs|]. split; [vm_compute; reflexivity|]. split; [vm_compute; reflexivity|]. split; [vm_compute; reflexivity|].
  split; [done|]. split; [vm_compute; repeat constructor|]. split; [vm_compute; reflexivity|]. split; [vm_compute; reflexivity|].
  split; [vm_compute; reflexivity|]. intros a al w. apply attach_refused; vm_compute; done.
Qed.
