(* ===== verification/StreamSafety.v ===== *)
(** The composition of the stream data plane: every session of a plane has one of
    the histories that [StreamDelivery] and [StreamErrors] speak of, and no pump runs
    outside of its memory or into a loop without an end, however many callers there
    are on a bridge. *)

From coqutil Require Import Datatypes.RecordSetters.
From stdpp Require Import relations.
From S2P Require Import Prelude IpcTypes TsContinuity StreamSession StreamDelivery StreamErrors StreamPlane StreamBridge.
From S2P Require TunerService TaggedTsDemux.

Import DoubleBraceUpdate.
Import TunerService(TunerAttachment, a_receiver).
Open Scope Z_scope.

Section Safety.
Context (l : StreamLayout) (queue_packets : Z) (policy : StartupStabilizationPolicy).

(** * The histories of a session *)

(** A session that was never attached. *)
Definition idle (s : Session) : Prop := packets (ring s) = None /\ attached s = false /\ count (ring s) = 0.

(** A session with what happened since its attachment. *)
Definition traced (s : Session) : Prop :=
  exists allocated a before s0 ops t, buffer_ok queue_packets policy allocated before /\
    attach_session queue_packets policy allocated a before = (success tt, s0) /\
    Forall op_ok ops /\ run_trace policy (new_trace s0) ops = Some t /\ t_session t = s.
Definition hist (s : Session) : Prop := idle s \/ traced s.

Lemma run_trace_app t ops ops' : run_trace policy t (ops ++ ops') = t' ← run_trace policy t ops; run_trace policy t' ops'.
Proof. revert t. induction ops as [|o ops IH]; intros t; [done|]. cbn. destruct (step_trace policy t o) as [t1|]; [apply IH|done]. Qed.

Lemma traced_delivered s : traced s -> exists t lost, t_session t = s /\ delivered t lost.
Proof.
  intros (al & a & before & s0 & ops & t & B & A & Ok & R & E).
  destruct (run_delivered policy ops (new_trace s0) [] Ok (attach_delivered _ _ _ _ _ _ B A)) as (t' & lost & R' & D & _).
  rewrite R in R'. injection R' as <-. eauto.
Qed.
Lemma traced_ring s : traced s -> ring_ok (ring s).
Proof. intros T. destruct (traced_delivered s T) as (t & lost & <- & D). apply (del_ring _ _ D). Qed.

Lemma traced_op s o : traced s -> op_ok o -> exists bytes s', run_op policy s o = Some (bytes, s') /\ traced s'.
Proof.
  intros (al & a & before & s0 & ops & t & B & A & Ok & R & E) Oo.
  destruct (run_delivered policy ops (new_trace s0) [] Ok (attach_delivered _ _ _ _ _ _ B A)) as (t' & lost & R' & D & _).
  rewrite R in R'. injection R' as <-. destruct (step_delivered policy t o lost Oo D) as (t1 & lost1 & S1 & _ & _).
  pose proof S1 as S2. unfold step_trace in S2. rewrite E in S2. destruct (run_op policy s o) as [[bytes s']|] eqn:Ro; [|done].
  cbn in S2. injection S2 as S2. exists bytes, s'. split; [done|].
  exists al, a, before, s0, (ops ++ [o]), t1. split_and!; try done.
  - apply Forall_app. by repeat constructor.
  - rewrite run_trace_app, R. cbn. by rewrite S1.
  - by rewrite <- S2.
Qed.

Lemma idle_op s o : idle s -> op_ok o -> exists bytes s', run_op policy s o = Some (bytes, s') /\ idle s'.
Proof.
  intros (P & A & C) Oo. assert (is_live s = false) as L by (unfold is_live; by rewrite A).
  assert (idle s) as I by done.
  destruct o; cbn [run_op]; unfold enqueue, count_wire_tei, count_sync_losses, promote_ready, count_empty, mark_bridge_terminal, mark_terminal,
    detach_session, shutdown_session; rewrite ?L, ?A; cbn [negb orb mbind option_bind snd]; try (by eexists _, s).
  - unfold read_now. rewrite C. cbn [Z.eqb]. destruct (negb _); eexists _, _; (split; [reflexivity|done]).
  - eexists _, _. split; [reflexivity|]. unfold detach_failed. by destruct (_ && _).
  - eexists _, _. split; [reflexivity|]. unfold release_final. by destruct (_ || _).
  - eexists _, _. split; [reflexivity|]. unfold shutdown_failed. by destruct (final_snapshot_valid s).
  - eexists _, _. split; [reflexivity|]. done.
Qed.

(** Any section is defined and leads on. *)
Lemma hist_op s o : hist s -> op_ok o -> exists bytes s', run_op policy s o = Some (bytes, s') /\ hist s'.
Proof.
  intros [I|T] Oo; [destruct (idle_op s o I Oo) as (bytes & s' & R & H)|destruct (traced_op s o T Oo) as (bytes & s' & R & H)];
    exists bytes, s'; (split; [done|]); [by left|by right].
Qed.
Lemma hist_to s o s' : hist s -> op_ok o -> run_op policy s o = Some ([], s') -> hist s'.
Proof. intros H Oo R. destruct (hist_op s o H Oo) as (bytes & s1 & R1 & H1). rewrite R in R1. by injection R1 as _ <-. Qed.

Lemma hist_attach allocated a s r s' : 0 < queue_packets -> (forall buf, allocated = Some buf -> zlen buf = queue_packets * kPacketSize) ->
  hist s -> attach_session queue_packets policy allocated a s = (r, s') -> hist s'.
Proof.
  intros Q Al H E. pose proof (attach_session_flag _ _ _ _ _ _ _ E) as F. destruct r as [[]|e]; cbn in F; [|by subst].
  right. exists allocated, a, s, s', [], (new_trace s'). split_and!; try done. split_and!; [done|done|].
  destruct H as [(P & _ & _)|T]; [done|by intros _; apply traced_ring].
Qed.

(** * The sessions of a plane *)

Definition sessions_ok (sh : Shared) : Prop := Forall (hist) (sessions_ sh).

Lemma session_hist sh r : sessions_ok sh -> hist (session_at sh r).
Proof.
  intros S. unfold session_at. destruct (sessions_ sh !! r) as [s|] eqn:E; [by eapply Forall_lookup_1|]. by left.
Qed.
Lemma upd_hist r f sh : sessions_ok sh -> (forall s, hist s -> hist (f s)) -> sessions_ok (upd_session r f sh).
Proof.
  intros S F. change (Forall (hist) (alter f r (sessions_ sh))). apply Forall_alter; [done|]. intros s _ H. by apply F.
Qed.
Lemma upd_all_hist b f sh : sessions_ok sh -> (forall s, hist s -> hist (f s)) -> sessions_ok (upd_sessions l b f sh).
Proof.
  intros S F. unfold upd_sessions. revert sh S. induction (receivers_of l b) as [|r rs IH]; intros sh S; [done|]. cbn. by apply IH, upd_hist.
Qed.
Lemma fatal_hist sh : sessions_ok sh -> sessions_ok (bridge_fatal sh).
Proof.
  intros S. change (Forall (hist) (mark_terminal ST_bridge_fatal <$> sessions_ sh)). apply Forall_fmap.
  eapply Forall_impl; [exact S|]. intros s H. by apply (hist_to s (OpTerminal ST_bridge_fatal)).
Qed.

(** * The pumps *)

Definition demux_fine (d : TaggedTsDemux.TaggedTsDemux) : Prop := TaggedTsDemux.pending_ d = None \/ TaggedTsDemux.demux_ok d.
Definition calls_ok (c : Calls) : Prop := Forall (fun c => op_ok c.2) c.
Definition pump_fine (p : PumpPc) : Prop := match p with P_calls c _ => calls_ok c | _ => True end.
Definition side_fine (sd : Side) : Prop := demux_fine (demux (bridge sd)) /\ Forall pump_fine (pumps sd).

Lemma push_total {W} f o d bytes (w : W) : demux_fine d ->
  exists r d' w', TaggedTsDemux.push (Some f) (Some o) d (View bytes) w = Some (r, d', w') /\ demux_fine d'.
Proof.
  intros [N|Ok].
  - unfold TaggedTsDemux.push. cbn [orb view_size]. destruct (_ <? _); [|rewrite N]; eexists _, d, w; (split; [reflexivity|by left]).
  - destruct (decide (TaggedTsDemux.accepts d bytes)) as [A|A].
    + destruct (TaggedTsDemux.push_queue (Some o) f d bytes w Ok A) as (r & d' & w' & E & O & _). exists r, d', w'. split; [done|by right].
    + pose proof Ok as (buf & P & Wf). unfold TaggedTsDemux.push. cbn [orb view_size]. rewrite P.
      destruct (Z.ltb_spec TaggedTsDemux.kMaxStreamTransfer (zlen bytes)); [eexists _, d, w; split; [reflexivity|by right]|].
      destruct (Z.ltb_spec (TaggedTsDemux.kPendingCapacity - TaggedTsDemux.pending_size_ d) (zlen bytes)).
      * rewrite orb_true_r. eexists _, d, w. split; [reflexivity|by right].
      * destruct A. split; [done|]. pose proof (TaggedTsDemux.wf_qlen d buf Wf) as Q. unfold TaggedTsDemux.queue_of. rewrite P. cbn [default]. unfold default, from_option, id.
        rewrite Q. done.
Qed.

Lemma to_all_ok b o : op_ok o -> calls_ok (to_all l b o).
Proof. intros P. apply Forall_fmap, Forall_forall. by intros. Qed.

Lemma push_calls_ok b d bytes r d' c : push_transfer l b d bytes = Some (r, d', c) -> calls_ok c.
Proof.
  apply push_keeps; [| |constructor].
  - intros w i p K. unfold packet_sink. destruct (_ || negb (zlen p =? kPacketSize)) eqn:G; [done|]. apply orb_false_iff in G as [_ G].
    apply negb_false_iff, Z.eqb_eq in G. destruct (_ <? _); [done|]. apply Forall_app. by repeat constructor.
  - intros w z K. unfold wire_tag_observer. destruct (_ =? _); [done|]. destruct (_ || _); [done|]. destruct (_ <=? _); [|done].
    apply Forall_app. by repeat constructor.
Qed.

(** An answer of the transport is always digested, *)
Lemma event_total b e sh br : demux_fine (demux br) ->
  exists sh' br' calls again, on_event l b e (sh, br) = Some (sh', br', calls, again) /\
    demux_fine (demux br') /\ calls_ok calls /\ sessions_ sh' = sessions_ sh.
Proof.
  intros D. destruct e as [[|x bytes]|e]; unfold on_event.
  - eexists _, _, _, _. split; [reflexivity|]. split_and!; [done|by apply to_all_ok|done].
  - destruct (push_total (packet_sink l b) (wire_tag_observer l b) (demux br) (x :: bytes) [] D) as (r & d & c & E & D').
    fold (push_transfer l b (demux br) (x :: bytes)) in E. rewrite E. cbn [mbind option_bind]. eexists _, _, _, _. split; [reflexivity|].
    split_and!; [done| |done]. apply push_calls_ok in E. unfold calls_ok in *.
    repeat apply Forall_app_2; [done|destruct (_ =? 0); [constructor|by apply to_all_ok]|by apply to_all_ok|].
    destruct r as [|e]; [constructor|]. apply to_all_ok. by destruct (bool_decide _).
  - eexists _, _, _, _. split; [reflexivity|]. split_and!; [done| |done].
    destruct (bool_decide _); apply to_all_ok; [done|]. unfold terminal_for_error. by destruct (bool_decide _).
Qed.

(** and so is every other wish of a pump. *)
Lemma pump_moves b i e r sh sd p : sessions_ok sh -> side_fine sd -> pumps sd !! i = Some p -> p <> P_done ->
  exists st', pump_move l policy b i e r (sh, sd) = Some st'.
Proof.
  intros S [D P] L N. unfold pump_move. rewrite L. destruct p as [| | |[|[q o] calls] again| | | | |]; try done; try (by eexists).
  - destruct (event_total b e sh (bridge sd) D) as (sh' & br' & calls & again & -> & _). by eexists.
  - apply (Forall_lookup_1 _ _ _ _ P) in L. apply Forall_cons in L as [Oo _].
    destruct (hist_op (session_at sh q) o (session_hist sh q S) Oo) as (bytes & s' & -> & _). by eexists.
Qed.

Lemma pump_fine_step b i sh sd sh' sd' : sessions_ok sh -> side_fine sd -> pump_step l policy b i (sh, sd) (sh', sd') ->
  sessions_ok sh' /\ side_fine sd'.
Proof.
  intros S [D P] St. assert (forall p, pump_fine p -> Forall pump_fine (<[i := p]> (pumps sd))) as Fi by (intros; by apply Forall_insert).
  inversion St as [? ? L|? ? L|? ? e ? br' calls again L E|? ? r o calls again bytes s' L R|? ? again L|? ? L ?|? ? L ?|? ? r L|? ? f r L|? ? f L]; subst; clear St;
    try (split; [done|split; [done|by apply Fi; repeat case_match]]).
  - destruct (event_total b e sh (bridge sd) D) as (sh2 & br2 & c2 & a2 & E2 & D2 & C2 & S2). rewrite E in E2. injection E2 as -> -> -> ->.
    split; [unfold sessions_ok; by rewrite S2|]. split; [done|by apply Fi].
  - pose proof (Forall_lookup_1 _ _ _ _ P L) as [Oo Ca]%Forall_cons. split; [|split; [done|by apply Fi]].
    apply upd_hist; [done|]. intros _ _. destruct (hist_op (session_at sh r) o (session_hist sh r S) Oo) as (b2 & s2 & R2 & H2).
    rewrite R in R2. by injection R2 as _ <-.
  - split; [|split; [done|by apply Fi]]. destruct (bool_decide _); [done|by apply fatal_hist].
Qed.

(** * The callers, any number of them *)

Lemma caller_fine_step b i sh sd sh' sd' : sessions_ok sh -> side_fine sd -> caller_step l b i (sh, sd) (sh', sd') ->
  sessions_ok sh' /\ side_fine sd'.
Proof.
  intros S [D P] St.
  inversion St as [? ? o k br' c L M E|? ? t cl k r L|? ? t cl f k L W|? ? cl f k r L|? ? f k br' c L E|? ? f k L|? ? a L|? ? a e L|? ? f L|? ? f e L];
    subst; clear St; try (split; [done|split; done]).
  - split; [done|]. unfold stop_begin in E. destruct (_ && _); injection E as <- <-; by split.
  - split; [done|]. by destruct cl; split.
  - split; [done|]. by destruct cl; split.
  - split; [done|]. unfold stop_end in E. injection E as <- <-. by split.
  - split; [by apply fatal_hist|by split].
  - split; [done|]. unfold side_fine, unfatal. by destruct (_ && _).
  - split; [|by split]. apply upd_hist; [done|]. intros s H. by apply (hist_to s (OpDetachFailed a)).
  - split; [done|]. unfold side_fine, unfatal. by destruct (_ && _).
  - split; [|by split]. destruct (in_state _ _); [|done]. apply upd_all_hist; [done|]. intros s H. by apply (hist_to s OpShutdownFailed).
Qed.

Lemma reset_fine d : demux_fine d -> demux_fine (TaggedTsDemux.reset d).
Proof.
  intros [N|(buf & B & [A _ _ _])]; [by left|right]. exists buf. split; [done|]. split; try done.
Qed.
Lemma start_fine w sh sd r sh' sd' : sessions_ok sh -> side_fine sd -> start_bridge_locked w (sh, sd) = (r, (sh', sd')) ->
  sessions_ok sh' /\ side_fine sd'.
Proof.
  intros S [D P] E. unfold start_bridge_locked in E. destruct (negb _); [by injection E as _ <- <-|]. destruct (bool_decide _); [by injection E as _ <- <-|].
  destruct (started w); [|by injection E as _ <- <-]. pose proof (reset_fine _ D) as D'. destruct (spawned w).
  - injection E as _ <- <-. split; [done|]. split; [exact D'|]. apply Forall_app. by repeat constructor.
  - injection E as _ <- <-. split; [|split; [exact D'|done]]. destruct (bool_decide _); [done|by apply fatal_hist].
Qed.

Hypothesis queue_positive : 0 < queue_packets.

Lemma attach_fine a allocated w sh sd r sh' sd' : (forall buf, allocated = Some buf -> zlen buf = queue_packets * kPacketSize) ->
  sessions_ok sh -> side_fine sd -> attach l queue_packets policy a allocated w (sh, sd) = (r, (sh', sd')) -> sessions_ok sh' /\ side_fine sd'.
Proof.
  intros Al S F E. unfold attach in E. destruct (negb _); [by injection E as _ <- <-|]. destruct (_ || _); [by injection E as _ <- <-|].
  destruct (in_state _ _ && _); [by injection E as _ <- <-|]. destruct (attach_session _ _ _ _ _) as [ra s] eqn:A.
  assert (sessions_ok (upd_session (a_receiver a) (fun _ => s) sh)) as S1.
  { apply upd_hist; [done|]. intros _ _. eapply hist_attach; try done. by apply session_hist. }
  destruct (negb (is_success ra)); [by injection E as _ <- <-|]. destruct (attached_count (bridge sd) =? 0).
  - destruct (start_bridge_locked _ _) as [r2 [sh2 sd2]] eqn:St. destruct (start_fine _ _ _ _ _ _ S1 F St) as [S2 F2].
    destruct (negb (is_success r2)); injection E as _ <- <-; [|done]. split; [|done]. apply upd_hist; [done|].
    intros s1 H. by apply (hist_to s1 OpAttachUndone).
  - cbn [is_success negb] in E. by injection E as _ <- <-.
Qed.
Lemma begin_stop_fine k sd : side_fine sd -> side_fine (begin_stop k sd).
Proof. intros F. unfold begin_stop. by destruct (in_state _ _). Qed.
Lemma detach_fine a sh sd r sh' sd' : sessions_ok sh -> side_fine sd -> detach l a (sh, sd) = (r, (sh', sd')) -> sessions_ok sh' /\ side_fine sd'.
Proof.
  intros S F E. unfold detach in E. destruct (negb (valid_receiver _ _)); [by injection E as _ <- <-|].
  destruct (detach_session a (session_at sh (a_receiver a))) as [rd s] eqn:De. destruct (negb (is_success rd)); [by injection E as _ <- <-|].
  apply pair_eq in E as [_ E]. apply pair_eq in E as [<- <-]. split.
  - apply upd_hist; [done|]. intros _ _. apply (hist_to (session_at sh (a_receiver a)) (OpDetach a)); [by apply session_hist|done|].
    cbn [run_op]. by rewrite De.
  - set (sd1 := sd{{bridge -> attached_count ::= _}}). destruct (attached_count (bridge sd1) =? 0); [by apply begin_stop_fine|done].
Qed.

(** * Every step *)

Definition plane_fine (pl : Plane) : Prop := sessions_ok (shared pl) /\ forall b sd, sides pl !! b = Some sd -> side_fine sd.

Lemma plane_fine_side pl b sh' sd' : plane_fine pl -> sessions_ok sh' /\ side_fine sd' -> plane_fine {| shared := sh'; sides := <[b := sd']> (sides pl) |}.
Proof.
  intros [_ Si] [S F]. split; [done|]. cbn. intros b' sd L. apply list_lookup_insert_Some in L as [(_ & <- & _)|[_ L]]; [done|by eapply Si].
Qed.

Lemma step_plane_fine limit pl pl' : plane_fine pl -> step l queue_packets policy limit pl pl' -> plane_fine pl'.
Proof.
  intros Ok St. pose proof Ok as [S Si].
  destruct St as [pl b i sd sh' sd' L St|pl b i sd sh' sd' L St|pl sd a al w r sh' sd' L C Se Al E|pl sd a r sh' sd' L C Se E|pl|pl b sd f sh' sd' _ L C Se _ E|pl b i sd f L C|pl r o bytes s' K V R].
  - apply plane_fine_side; [done|]. eapply pump_fine_step; [done|by eapply Si|done].
  - apply plane_fine_side; [done|]. eapply caller_fine_step; [done|by eapply Si|done].
  - apply plane_fine_side; [done|]. eapply attach_fine; [done|done|by eapply Si|done].
  - apply plane_fine_side; [done|]. eapply detach_fine; [done|by eapply Si|done].
  - by split.
  - apply plane_fine_side; [done|]. unfold shutdown_bridge in E. injection E as <- <-. split.
    + apply upd_all_hist; [done|]. intros s H. by apply (hist_to s OpShutdown).
    + apply begin_stop_fine. by apply (Si b sd).
  - apply plane_fine_side; [done|]. split; [done|]. by apply (Si b sd).
  - split; [|done]. apply upd_hist; [done|]. intros _ _.
    destruct (hist_op (session_at (shared pl) r) o (session_hist _ r S)) as (b2 & s2 & R2 & H2); [by destruct o|].
    rewrite R in R2. by injection R2 as _ <-.
Qed.

(** What the constructors of the demultiplexers were given. *)
Definition memories_ok (memories : list (option (list Z))) : Prop :=
  Forall (fun m => forall buf, m = Some buf -> zlen buf = TaggedTsDemux.kPendingCapacity) memories.

Lemma init_fine memories : memories_ok memories -> plane_fine (Plane_init l memories).
Proof.
  intros M. split.
  - apply Forall_replicate. by left.
  - intros b sd L. cbn in L. apply list_lookup_fmap_Some in L as (m & -> & L). split; [|constructor]. cbn. pose proof (Forall_lookup_1 _ _ _ _ M L) as Z.
    destruct m as [buf|]; [|by left]. right. exists buf. split; [done|]. by split; [apply Z|..].
Qed.
Lemma runs_fine limit memories pl : memories_ok memories -> runs l queue_packets policy limit memories pl -> plane_fine pl.
Proof.
  intros M R. pose proof (init_fine memories M) as I. unfold runs in R. revert I R. generalize (Plane_init l memories) as pl0.
  intros pl0 I R. induction R as [|? ? ? St R IH]; [done|]. apply IH. by eapply step_plane_fine.
Qed.
End Safety.

(** * What the composition guarantees *)




(** Four packets come in, two of them for receiver 3; the first is the boundary of its
    PID, and the second one is read. *)
Definition fresh_buffer : list Z := repeat 0 (Z.to_nat TaggedTsDemux.kPendingCapacity).
Definition some_memory : option (list Z) := Some fresh_buffer.
Lemma fresh_buffer_length : zlen fresh_buffer = TaggedTsDemux.kPendingCapacity.
Proof. unfold zlen, fresh_buffer. rewrite repeat_length. apply Z2Nat.id. by vm_compute. Qed.
Definition tagged (tag cc : Z) : list Z := (tag * 16 + 7) :: tl (ts_packet cc).
Definition one_event : list Z := tagged 4 1 ++ tagged 1 5 ++ tagged 1 6 ++ tagged 4 2.
Definition fed : list Move :=
  comes 3 1 :: replicate 13 (MPump 0 0 (success one_event) fine) ++ [MReader 3 (OpRead 188)].
Definition fed_plane : Plane :=
  default (Plane_init kMlt5PeLayout [some_memory]) (moves kMlt5PeLayout 2 gate_off 1 fed (Plane_init kMlt5PeLayout [some_memory])).
Lemma fed_runs : runs kMlt5PeLayout 2 gate_off 1 [some_memory] fed_plane.
Proof.
  unfold fed_plane, runs. destruct (moves _ _ _ _ fed _) as [pl|] eqn:E; [|apply rtc_refl]. by eapply moves_sound.
Qed.
Lemma fed_session : (n_packets (counters (session_at (shared fed_plane) 3)), count (ring (session_at (shared fed_plane) 3)), attached (session_at (shared fed_plane) 3)) = (1, 0, true).
Proof. vm_compute. reflexivity. Qed.


(** * A pump that is told to stop ends *)

(** Every run of the pump alone, whatever it is answered, is at its end after a
    finite number of steps. *)
Inductive pump_ends (l : StreamLayout) (policy : StartupStabilizationPolicy) (b i : nat) : Shared -> Side -> Prop :=
  | ends_done sh sd : pumps sd !! i = Some P_done -> pump_ends l policy b i sh sd
  | ends_later sh sd : (forall event answer, is_Some (pump_move l policy b i event answer (sh, sd))) ->
      (forall event answer sh' sd', pump_move l policy b i event answer (sh, sd) = Some (sh', sd') -> pump_ends l policy b i sh' sd') ->
      pump_ends l policy b i sh sd.

Section Ends.
Context (l : StreamLayout) (queue_packets : Z) (policy : StartupStabilizationPolicy) (b i : nat).

Definition halting (br : Bridge) : Prop := stopping br = true /\ in_state br BS_running = false.
Definition ready_to_end (sh : Shared) (sd : Side) (p : PumpPc) : Prop :=
  sessions_ok queue_packets policy sh /\ side_fine sd /\ halting (bridge sd) /\ pumps sd !! i = Some p.

(** Where a halting pump goes. *)
Definition leads (p p' : PumpPc) : Prop :=
  match p with
  | P_check | P_finish | P_end _ => p' = P_done
  | P_enter => p' = P_wait
  | P_wait => exists c again, p' = P_calls c again
  | P_calls [] _ => p' = P_check \/ p' = P_finish
  | P_calls (_ :: c) again => p' = P_calls c again
  | P_cancel => exists f, p' = P_stop f
  | P_stop _ => exists f, p' = P_end f
  | P_done => False
  end.

Lemma control_halting br br' : control br' = control br -> halting br -> halting br'.
Proof. unfold control, halting, stopping, in_state. intros E. injection E as _ -> _ -> _ _ _. done. Qed.

Lemma halting_step sh sd p event answer sh' sd' : ready_to_end sh sd p -> p <> P_done -> pump_move l policy b i event answer (sh, sd) = Some (sh', sd') ->
  exists p', ready_to_end sh' sd' p' /\ leads p p'.
Proof.
  intros (S & F & Ha & L) N E.
  destruct (pump_fine_step l queue_packets policy b i sh sd sh' sd' S F (pump_move_sound l policy b i event answer sh sd (sh', sd') E)) as [S' F'].
  assert (forall q, <[i := q]> (pumps sd) !! i = Some q) as Here by (intros; by eapply set_here).
  assert (forall p', halting (bridge sd') -> pumps sd' !! i = Some p' -> leads p p' -> exists p', ready_to_end sh' sd' p' /\ leads p p') as To
    by (intros p' X Y Z; by exists p').
  pose proof Ha as [St Ru]. unfold pump_move in E. rewrite L in E. destruct p as [| | |[|[q o] calls] again| | | | |]; try done.
  - rewrite St in E. injection E as <- <-. exact (To P_done Ha (Here _) eq_refl).
  - injection E as <- <-. exact (To P_wait Ha (Here _) eq_refl).
  - destruct (on_event l b event (sh, bridge sd)) as [[[[sh2 br2] c2] a2]|] eqn:Ev; [|done]. injection E as <- <-.
    apply on_event_ok in Ev as (Co & _). refine (To (P_calls c2 a2) (control_halting _ _ Co Ha) (Here _) _). by exists c2, a2.
  - injection E as <- <-. refine (To (if again then P_check else P_finish) Ha (Here _) _). destruct again; [by left|by right].
  - destruct (run_op _ _ _) as [[bytes s']|]; [|done]. injection E as <- <-. exact (To (P_calls calls again) Ha (Here _) eq_refl).
  - unfold finish_begins in E. rewrite Ru in E. injection E as <- <-. exact (To P_done Ha (Here _) eq_refl).
  - injection E as <- <-. refine (To (P_stop (error_of answer)) Ha (Here _) _). by eexists.
  - injection E as <- <-. refine (To (P_end (first_error first answer)) Ha (Here _) _). by eexists.
  - injection E as <- <-. refine (To P_done _ (Here _) eq_refl). split; [exact (orb_true_r _)|done].
Qed.

Lemma halting_ends_from p : (forall sh sd p', leads p p' -> ready_to_end sh sd p' -> pump_ends l policy b i sh sd) ->
  forall sh sd, ready_to_end sh sd p -> pump_ends l policy b i sh sd.
Proof.
  intros Next sh sd R. pose proof R as (S & F & _ & L). assert (p = P_done \/ p <> P_done) as [->|N] by (destruct p; auto; by right).
  - by apply ends_done.
  - apply ends_later.
    + intros e a. destruct (pump_moves l queue_packets policy b i e a sh sd p S F L N) as [st ->]. done.
    + intros e a sh' sd' E. destruct (halting_step _ _ _ _ _ _ _ R N E) as (p' & R' & Le). by eapply Next.
Qed.

Lemma halting_ends p sh sd : ready_to_end sh sd p -> pump_ends l policy b i sh sd.
Proof.
  assert (forall sh sd, ready_to_end sh sd P_done -> pump_ends l policy b i sh sd) as Done by (by apply halting_ends_from).
  assert (forall p, leads p P_done -> (forall p', leads p p' -> p' = P_done) -> forall sh sd, ready_to_end sh sd p -> pump_ends l policy b i sh sd) as Last.
  { intros q _ O. apply halting_ends_from. intros sh1 sd1 p' Le R. rewrite (O p' Le) in R. by apply Done. }
  assert (forall c again sh sd, ready_to_end sh sd (P_calls c again) -> pump_ends l policy b i sh sd) as Calls.
  { intros c again. induction c as [|x c IH]; apply halting_ends_from; intros sh1 sd1 p' Le R.
    - destruct Le as [-> | ->]; (eapply Last; [..|exact R]; [done|by intros ? ->]).
    - destruct x. cbn in Le. subst p'. by apply IH. }
  assert (forall f sh sd, ready_to_end sh sd (P_end f) -> pump_ends l policy b i sh sd) as End_ by (intros f; apply Last; [done|by intros ? ->]).
  assert (forall sh sd, ready_to_end sh sd P_wait -> pump_ends l policy b i sh sd) as Wait.
  { apply halting_ends_from. intros sh1 sd1 p' (c & again & ->) R. by eapply Calls. }
  assert (forall f sh sd, ready_to_end sh sd (P_stop f) -> pump_ends l policy b i sh sd) as Stop.
  { intros f. apply halting_ends_from. intros sh1 sd1 p' (g & ->) R. by eapply End_. }
  revert sh sd. destruct p; try (by apply Done); try (eapply Calls); try (eapply End_); try (eapply Stop); try exact Wait;
    try (apply Last; [done|by intros ? ->]).
  - apply halting_ends_from. intros sh1 sd1 p' -> R. by apply Wait.
  - apply halting_ends_from. intros sh1 sd1 p' (f & ->) R. by eapply Stop.
Qed.
End Ends.


(** The pump of a receiver that is being detached, in the middle of an event. *)
Definition detaching : list Move := comes 0 1 :: replicate 4 (MPump 0 0 (success []) fine) ++ MDetach (renter 0 1) :: calls_ 2 0.
