(* ===== verification/Tc90522.v ===== *)
(** The TC90522 demodulators ([src/tc90522.cpp/.h]): register access over the I2C
    master of a bridge, the repeater behind which the tuners sit, and the
    operations of the satellite and of the terrestrial side.  The master is an
    interface; [BridgeI2c] implements it. *)

From S2P Require Import Prelude IoMonad BridgeI2c.
From S2P Require Import It930xCommand It930xRegisters It930xEffects.

(** * The interface of a master *)

(** The array of a call comes back with its read buffers filled. *)
Class I2cMaster (HW : Type) := { i2c_request : list BridgeI2cRequest -> Io HW (list BridgeI2cRequest) }.

(** What a call that succeeds did to one of its requests. *)
Definition carried_out (q q' : BridgeI2cRequest) : Prop :=
  match rq_type q with
  | i2c_type_read => exists d, q' = with_read_data q d /\ zlen d = view_size (read_data q)
  | _ => q' = q
  end.
Class I2cMasterLaws (HW : Type) `{I2cMaster HW} := {
  i2c_lives : HW -> Prop;
  i2c_returns : forall l hw, i2c_lives hw -> Forall request_bytes_ok l -> exists r hw', i2c_request l hw = Some (r, hw') /\ i2c_lives hw' /\
    forall l', r = success l' -> Forall2 carried_out l l';
}.

(** * Data *)

Inductive Tc90522System := TC_isdb_t | TC_isdb_s.
#[export] Instance Tc90522System_eq_dec : EqDecision Tc90522System.
Proof. solve_decision. Defined.

Record Q3U4ReceiverMapping := mkMapping {
  map_local_receiver : Z;
  demod_address : Z;
  secondary : bool;
  map_system : Tc90522System;
}.
Definition q3u4_receiver_mapping (local_receiver : Z) : Result Q3U4ReceiverMapping :=
  if 4 <=? local_receiver then failure INVALID_ARGUMENT
  else
    success (mkMapping local_receiver (nth (Z.to_nat local_receiver) [0x11; 0x13; 0x10; 0x12] 0)
      (negb (Z.land local_receiver 1 =? 0)) (if local_receiver <? 2 then TC_isdb_s else TC_isdb_t)).

Inductive Tc90522RequestType := TR_undefined | TR_read | TR_write.
Record Tc90522I2cRequest := mkTunerRequest {
  tr_type : Tc90522RequestType;
  tr_address : Z;
  tr_write_data : ByteView;
  tr_read_data : ByteView;
}.
Definition tr_filled (q : Tc90522I2cRequest) (d : list Z) : Tc90522I2cRequest :=
  mkTunerRequest (tr_type q) (tr_address q) (tr_write_data q) (View d).

Definition kRepeaterRegister : Z := 0xfe.
Definition kLegacyReadMax : Z := 255.
Definition kLegacyWriteMax : Z := 254.
Definition kDownstreamWriteMax : Z := 253.

Definition validate_demod_read (data : ByteView) : Result unit :=
  if is_null data || (view_size data =? 0) || (kLegacyReadMax <? view_size data) then failure INVALID_ARGUMENT else success tt.
Definition validate_demod_write (data : ByteView) : Result unit :=
  if is_null data || (view_size data =? 0) || (kLegacyWriteMax <? view_size data) then failure INVALID_ARGUMENT else success tt.

Definition decode_u16 (bytes : list Z) : Result Z :=
  match bytes with [a; b] => success (cast_u16 (Z.lor (Z.shiftl a 8) b)) | _ => failure PROTOCOL_ERROR end.
Definition decode_u24 (bytes : list Z) : Result Z :=
  match bytes with [a; b; c] => success (Z.lor (Z.lor (Z.shiftl a 16) (Z.shiftl b 8)) c) | _ => failure PROTOCOL_ERROR end.

Definition write_request (address : Z) (bytes : list Z) : BridgeI2cRequest :=
  {| rq_type := i2c_type_write; rq_address := address; write_data := View bytes; read_data := NullView 0 |}.
Definition read_request (address : Z) (data : ByteView) : BridgeI2cRequest :=
  {| rq_type := i2c_type_read; rq_address := address; write_data := NullView 0; read_data := data |}.
Definition zeros (n : Z) : list Z := replicate (Z.to_nat n) 0.
(** What came into the buffer of the request at [i]. *)
Definition received (i : nat) (l : list BridgeI2cRequest) : list Z :=
  match l !! i with Some q => view_bytes (read_data q) | None => [] end.

(** * Registers *)

(** The two demultiplexed halves of a downstream request: the writes to the
    repeater, and the read that fetches what it read. *)
Definition downstream_one (address : Z) (q : Tc90522I2cRequest) : Result (list BridgeI2cRequest) :=
  if 0x7f <? tr_address q then failure INVALID_ARGUMENT
  else match tr_type q with
  | TR_write =>
      if is_null (tr_write_data q) || (view_size (tr_write_data q) =? 0) || (kDownstreamWriteMax <? view_size (tr_write_data q))
      then failure INVALID_ARGUMENT
      else success [write_request address (kRepeaterRegister :: cast_u8 (Z.shiftl (tr_address q) 1) :: view_bytes (tr_write_data q))]
  | TR_read =>
      if is_null (tr_read_data q) || (view_size (tr_read_data q) =? 0) || (kLegacyReadMax <? view_size (tr_read_data q))
      then failure INVALID_ARGUMENT
      else success [write_request address [kRepeaterRegister; cast_u8 (Z.lor (Z.shiftl (tr_address q) 1) 1)];
                    read_request address (tr_read_data q)]
  | TR_undefined => failure INVALID_ARGUMENT
  end.
Fixpoint downstream (address : Z) (l : list Tc90522I2cRequest) : Result (list BridgeI2cRequest) :=
  match l with
  | [] => success []
  | q :: l =>
      match downstream_one address q with
      | failure e => failure e
      | success a => match downstream address l with failure e => failure e | success b => success (a ++ b) end
      end
  end.
(** The read buffers are those of the caller. *)
Fixpoint upstream (l : list Tc90522I2cRequest) (done : list BridgeI2cRequest) : list Tc90522I2cRequest :=
  match l with
  | [] => []
  | q :: l =>
      match tr_type q, done with
      | TR_read, _ :: d :: done => tr_filled q (view_bytes (read_data d)) :: upstream l done
      | _, _ :: done => q :: upstream l done
      | _, [] => q :: l
      end
  end.

Fixpoint multiple_reads (address : Z) (l : list (Z * ByteView)) : Result (list BridgeI2cRequest) :=
  match l with
  | [] => success []
  | (reg, data) :: l =>
      match validate_demod_read data with
      | failure e => failure e
      | success _ =>
          match multiple_reads address l with
          | failure e => failure e
          | success rest => success (write_request address [reg] :: read_request address data :: rest)
          end
      end
  end.
Fixpoint multiple_writes (address : Z) (l : list (Z * ByteView)) : Result (list BridgeI2cRequest) :=
  match l with
  | [] => success []
  | (reg, data) :: l =>
      match validate_demod_write data with
      | failure e => failure e
      | success _ =>
          match multiple_writes address l with
          | failure e => failure e
          | success rest => success (write_request address (reg :: view_bytes data) :: rest)
          end
      end
  end.

Section Tc90522.
Context {HW : Type} `{I2cMaster HW} (m : Q3U4ReceiverMapping).

Definition read_regs_unlocked (reg length : Z) : Io HW (list Z) :=
  _ ← from_result (validate_demod_read (View (zeros length)));
  requests ← i2c_request [write_request (demod_address m) [reg]; read_request (demod_address m) (View (zeros length))];
  mret (received 1 requests).
Definition read_regs (reg length : Z) : Io HW (list Z) :=
  _ ← require (negb ((length =? 0) || (kLegacyReadMax <? length))) INVALID_ARGUMENT;
  read_regs_unlocked reg length.

Definition read_multiple_regs (registers : list (Z * ByteView)) : Io HW (list (list Z)) :=
  match registers with
  | [] => fail INVALID_ARGUMENT
  | _ =>
      requests ← from_result (multiple_reads (demod_address m) registers);
      done ← i2c_request requests;
      mret ((fun i => received (2 * i + 1) done) <$> seq 0 (length registers))
  end.
Definition write_regs (reg : Z) (values : ByteView) : Io HW unit :=
  _ ← from_result (validate_demod_write values);
  _ ← require (view_size values <=? 255) INVALID_ARGUMENT;
  _ ← i2c_request [write_request (demod_address m) (reg :: view_bytes values)];
  mret tt.
Definition write_reg (reg value : Z) : Io HW unit := write_regs reg (View [value]).
Definition write_multiple_regs (registers : list (Z * ByteView)) : Io HW unit :=
  match registers with
  | [] => fail INVALID_ARGUMENT
  | _ =>
      requests ← from_result (multiple_writes (demod_address m) registers);
      _ ← i2c_request requests;
      mret tt
  end.
Definition write_values (values : list (Z * Z)) : Io HW unit :=
  write_multiple_regs ((fun v => (v.1, View [v.2])) <$> values).

Definition downstream_request (requests : list Tc90522I2cRequest) : Io HW (list Tc90522I2cRequest) :=
  match requests with
  | [] => fail INVALID_ARGUMENT
  | _ =>
      converted ← from_result (downstream (demod_address m) requests);
      done ← i2c_request converted;
      mret (upstream requests done)
  end.

(** * The satellite side *)

Definition sleep_s (sleep : bool) : Io HW unit :=
  write_values [(0x13, if sleep then 0x80 else 0x00); (0x17, if sleep then 0xff else 0x00)].
Definition set_agc_s (on : bool) : Io HW unit :=
  let mixer := Z.lor (if secondary m then 0x30 else 0xb0) (if on then 0x02 else 0x00) in
  write_values [(0x0a, if on then 0xff else 0x00); (0x10, mixer); (0x11, if on then 0x00 else 0x02); (0x03, 0x01)].
Definition tmcc_get_tsid_s (index : Z) : Io HW Z :=
  _ ← require (index <? 12) INVALID_ARGUMENT;
  bytes ← read_regs (cast_u8 (0xce + index * 2)) 2;
  from_result (decode_u16 bytes).
Definition get_tsid_s : Io HW Z := bytes ← read_regs 0xe6 2; from_result (decode_u16 bytes).
Definition set_tsid_s (tsid : Z) : Io HW unit := write_regs 0x8f (View [cast_u8 (Z.shiftr tsid 8); cast_u8 tsid]).
Definition get_cn_s : Io HW Z := bytes ← read_regs 0xbc 2; from_result (decode_u16 bytes).
Definition enable_ts_pins_s (enable : bool) : Io HW unit :=
  write_values [(0x1c, if enable then 0x00 else 0x80); (0x1f, if enable then 0x00 else 0x22)].
Definition is_signal_locked_s : Io HW bool :=
  bytes ← read_regs 0xc3 1;
  mret (Z.land (nth 0 bytes 0) 0x10 =? 0).

(** * The terrestrial side *)

Definition sleep_t (sleep : bool) : Io HW unit := write_reg 0x03 (if sleep then 0xf0 else 0x00).
Definition set_agc_t (on : bool) : Io HW unit :=
  write_values [(0x25, 0x00); (0x20, 0x00); (0x23, if on then 0x4c else 0x4d); (0x01, 0x50)].
Definition get_cndat_t : Io HW Z := bytes ← read_regs 0x8b 3; from_result (decode_u24 bytes).
Definition enable_ts_pins_t (enable : bool) : Io HW unit := write_reg 0x1d (if enable then 0x00 else 0xa8).
Definition is_signal_locked_t : Io HW bool :=
  status ← read_regs 0x80 1;
  if negb (Z.land (nth 0 status 0) 0x28 =? 0) then mret false
  else
    quality ← read_regs 0xb0 1;
    mret (8 <=? Z.land (nth 0 quality 0) 0x0f).
End Tc90522.

(** * A bridge is a master *)

Section Master.
Context {HW Dev : Type} `{Bridge HW Dev} `{!CommandLog Dev} (bus : Z) (Hbus : is_u8 bus).

#[export] Instance bridge_master : I2cMaster (BridgeI2cFailureDetail * St (HW := HW)) := {
  i2c_request l st :=
    match request bus (l, st.1, st.2) with
    | None => None
    | Some (success _, (l', d, st')) => Some (success l', (d, st'))
    | Some (failure e, (_, d, st')) => Some (failure e, (d, st'))
    end }.

Lemma answered_carried l outcomes : Forall (fun q => validate_request q = success tt) l -> length outcomes = length l -> Forall2 complete l outcomes ->
  Forall2 carried_out l (zip_with answered l outcomes).
Proof.
  intros V _ C. induction C as [|q o l os Co C IH]; [constructor|]. apply Forall_cons in V as [Vq V]. cbn. constructor; [|by apply IH].
  unfold carried_out, answered, complete in *. destruct (valid_type q Vq) as [T|T]; rewrite T in *; [|done]. exists o.2. split; [done|by apply Co].
Qed.
Lemma performed_valid q0 requests d st r s' : request (HW := HW) bus (q0 :: requests, d, st) = Some (success r, s') ->
  Forall (fun q => validate_request q = success tt) (q0 :: requests).
Proof.
  intros E. apply validate_all_valid. unfold request in E.
  rewrite (bind_success _ _ _ tt (q0 :: requests, no_detail, st)) in E by done.
  rewrite (bind_success _ _ _ (q0 :: requests) (q0 :: requests, no_detail, st)) in E by done.
  destruct (validate_all (q0 :: requests)) as [[]|e]; [done|]. by rewrite (bind_failure _ _ _ e (q0 :: requests, no_detail, st)) in E.
Qed.

#[export] Instance bridge_master_laws : I2cMasterLaws (BridgeI2cFailureDetail * St (HW := HW)).
Proof.
  refine {| i2c_lives := fun st => steady st.2 |}. intros l [d st] S B. cbn [snd] in S. destruct (request_performed bus l d st Hbus S B) as (r & s' & E & S' & P).
  cbn [i2c_request bridge_master fst snd]. rewrite E. destruct s' as [[l' d'] st']. destruct r as [[]|e].
  - exists (success l'), (d', st'). split; [done|]. split; [exact S'|]. intros l2 X. injection X as <-. destruct P as [P|[P _]]; [|done].
    destruct P as (os & _ & N & C & _ & A). cbn in A. injection A as -> _. destruct l as [|q0 l]; [by apply nil_length_inv in N; subst|].
    apply answered_carried; [by eapply performed_valid|done|done].
  - exists (failure e), (d', st'). split; [done|]. split; [exact S'|done].
Defined.
End Master.

(** * What the repeater relays *)

(** What a tuner is asked for. *)
Inductive TunerTransfer := TunerWrites (address : Z) (bytes : list Z) | TunerReads (address size : Z).

(** A demodulator that is written [0xfe] sends what follows to the address given there,
    or reads from it, with the low bit set, as many bytes as are read next. *)
Fixpoint relayed (l : list BridgeI2cRequest) : option (list TunerTransfer) :=
  match l with
  | [] => Some []
  | q :: l =>
      match rq_type q, view_bytes (write_data q) with
      | i2c_type_write, register :: place :: bytes =>
          if negb (register =? kRepeaterRegister) then None
          else if Z.even place then (fun t => TunerWrites (Z.shiftr place 1) bytes :: t) <$> relayed l
          else match l with
               | r :: l => match rq_type r, bytes with
                           | i2c_type_read, [] => (fun t => TunerReads (Z.shiftr place 1) (view_size (read_data r)) :: t) <$> relayed l
                           | _, _ => None
                           end
               | [] => None
               end
      | _, _ => None
      end
  end.

Definition transfer (q : Tc90522I2cRequest) : TunerTransfer :=
  match tr_type q with
  | TR_write => TunerWrites (tr_address q) (view_bytes (tr_write_data q))
  | _ => TunerReads (tr_address q) (view_size (tr_read_data q))
  end.
Definition tuner_request_ok (q : Tc90522I2cRequest) : bool :=
  (tr_address q <=? 0x7f) &&
  match tr_type q with
  | TR_write => negb (is_null (tr_write_data q)) && (0 <? view_size (tr_write_data q)) && (view_size (tr_write_data q) <=? kDownstreamWriteMax)
  | TR_read => negb (is_null (tr_read_data q)) && (0 <? view_size (tr_read_data q)) && (view_size (tr_read_data q) <=? kLegacyReadMax)
  | TR_undefined => false
  end.
Definition tuner_bytes_ok (q : Tc90522I2cRequest) : Prop :=
  0 <= tr_address q /\ 0 <= view_size (tr_write_data q) /\ 0 <= view_size (tr_read_data q) /\ bytes_ok (view_bytes (tr_write_data q)).
(** A read that was answered; a write comes back as it was. *)
Definition answers_tuner (q q' : Tc90522I2cRequest) : Prop :=
  match tr_type q with
  | TR_read => exists d, q' = tr_filled q d /\ zlen d = view_size (tr_read_data q)
  | _ => q' = q
  end.

Lemma place_bits a : 0 <= a <= 0x7f ->
  cast_u8 (Z.shiftl a 1) = 2 * a /\ cast_u8 (Z.lor (Z.shiftl a 1) 1) = 2 * a + 1.
Proof.
  intros A. assert (forallb (fun a => (cast_u8 (Z.shiftl a 1) =? 2 * a) && (cast_u8 (Z.lor (Z.shiftl a 1) 1) =? 2 * a + 1)) (seqZ 0 128) = true) as F
    by (vm_compute; reflexivity).
  rewrite forallb_forall in F. specialize (F a). rewrite andb_true_iff, !Z.eqb_eq in F. apply F, list_elem_of_In, elem_of_seqZ. lia.
Qed.
Lemma place_back a b : 0 <= a -> 0 <= b <= 1 -> Z.shiftr (2 * a + b) 1 = a.
Proof. intros A B. rewrite Z.shiftr_div_pow2 by lia. change (2 ^ 1) with 2. rewrite Z.mul_comm, Z.div_add_l by lia. rewrite Z.div_small; lia. Qed.

Lemma downstream_one_ok address q : tuner_bytes_ok q -> downstream_one address q = failure INVALID_ARGUMENT /\ tuner_request_ok q = false \/
  tuner_request_ok q = true /\ exists l, downstream_one address q = success l /\
    forall rest t, relayed rest = Some t -> relayed (l ++ rest) = Some (transfer q :: t).
Proof.
  intros (A & W & R & _). unfold downstream_one, tuner_request_ok, transfer.
  destruct (Z.ltb_spec 0x7f (tr_address q)); [left; split; [done|]; by rewrite (proj2 (Z.leb_gt _ _)) by lia|].
  rewrite (proj2 (Z.leb_le (tr_address q) 0x7f)) by lia. cbn [andb]. destruct (place_bits (tr_address q)) as [P0 P1]; [lia|].
  assert (Z.even (2 * tr_address q) = true) as Ev by (by rewrite Z.even_mul).
  assert (Z.even (2 * tr_address q + 1) = false) as Od by (by rewrite Z.even_add, Z.even_mul).
  pose proof (place_back (tr_address q) 0 ltac:(lia) ltac:(lia)) as B0. rewrite Z.add_0_r in B0. pose proof (place_back (tr_address q) 1 ltac:(lia) ltac:(lia)) as B1.
  destruct (tr_type q); [by left| |].
  - destruct (is_null (tr_read_data q)); [by left|]. cbn [orb negb andb].
    destruct (Z.eqb_spec (view_size (tr_read_data q)) 0) as [->|]; [by left|]. cbn [orb].
    destruct (Z.ltb_spec kLegacyReadMax (view_size (tr_read_data q))).
    + left. split; [done|]. rewrite (proj2 (Z.leb_gt _ _)) by lia. apply andb_false_r.
    + right. split; [by rewrite (proj2 (Z.ltb_lt _ _)), (proj2 (Z.leb_le _ _)) by lia|]. eexists. split; [reflexivity|].
      intros rest t E. cbn. rewrite P1, Od, B1. by rewrite E.
  - destruct (is_null (tr_write_data q)); [by left|]. cbn [orb negb andb].
    destruct (Z.eqb_spec (view_size (tr_write_data q)) 0) as [->|]; [by left|]. cbn [orb].
    destruct (Z.ltb_spec kDownstreamWriteMax (view_size (tr_write_data q))).
    + left. split; [done|]. rewrite (proj2 (Z.leb_gt _ _)) by lia. apply andb_false_r.
    + right. split; [by rewrite (proj2 (Z.ltb_lt _ _)), (proj2 (Z.leb_le _ _)) by lia|]. eexists. split; [reflexivity|].
      intros rest t E. cbn. rewrite P0, Ev, B0. by rewrite E.
Qed.

Lemma downstream_ok address l : Forall tuner_bytes_ok l ->
  match downstream address l with
  | success c => forallb tuner_request_ok l = true /\ relayed c = Some (transfer <$> l)
  | failure e => e = INVALID_ARGUMENT /\ forallb tuner_request_ok l = false
  end.
Proof.
  induction 1 as [|q l B _ IH]; [done|]. cbn [downstream forallb].
  destruct (downstream_one_ok address q B) as [[-> ->]|(-> & c & -> & Re)]; [done|].
  destruct (downstream address l) as [c'|e]; destruct IH as [A Rl]; [|by rewrite Rl]. split; [done|]. by apply Re.
Qed.

(** What the bridge is given is valid for it. *)
Lemma downstream_valid address l c : 0 <= address <= 0x7f -> Forall tuner_bytes_ok l -> downstream address l = success c ->
  Forall (fun q => validate_request q = success tt /\ request_bytes_ok q) c.
Proof.
  intros A. revert c. induction l as [|q l IH]; intros c B E; [by injection E as <-|]. apply Forall_cons in B as [(Qa & Qw & Qr & Qb) B].
  cbn [downstream] in E. destruct (downstream_one address q) as [a|e] eqn:D; [|done].
  destruct (downstream address l) as [b|e]; [|done]. injection E as <-. apply Forall_app. split; [|by apply IH].
  assert (is_u8 address) as U by (unfold is_u8; lia).
  unfold downstream_one in D. destruct (Z.ltb_spec 0x7f (tr_address q)); [done|]. destruct (place_bits (tr_address q)) as [P0 P1]; [lia|].
  assert (forall bytes, validate_request (write_request address (kRepeaterRegister :: bytes)) = success tt) as Vw.
  { intros bytes. unfold validate_request. cbn [rq_address rq_type write_data write_request]. rewrite (proj2 (Z.ltb_ge _ _)) by lia.
    cbn [view_size is_null orb]. rewrite orb_false_r. destruct (Z.eqb_spec (zlen (kRepeaterRegister :: bytes)) 0) as [X|]; [by unfold zlen in X|done]. }
  destruct (tr_type q); [done| |].
  - destruct (is_null (tr_read_data q)) eqn:Nu; [done|]. cbn [orb] in D. destruct (Z.eqb_spec (view_size (tr_read_data q)) 0) as [|Ne]; [done|].
    cbn [orb] in D. destruct (_ <? _); [done|]. injection D as <-. rewrite P1.
    apply Forall_cons. split; [split; [apply Vw|split; [exact U|]]|apply Forall_cons; split; [split; [|split; [exact U|constructor]]|constructor]].
    + cbn. repeat (apply Forall_cons; split; [unfold is_u8, kRepeaterRegister; lia|]). constructor.
    + unfold validate_request, read_request. cbn [rq_address rq_type read_data]. rewrite (proj2 (Z.ltb_ge _ _)) by lia.
      rewrite (proj2 (Z.eqb_neq _ _)) by done. by rewrite Nu.
  - destruct (_ || _); [done|]. injection D as <-. rewrite P0.
    apply Forall_cons. split; [split; [apply Vw|split; [exact U|]]|constructor].
    cbn. repeat (apply Forall_cons; split; [unfold is_u8, kRepeaterRegister; lia|]). exact Qb.
Qed.

Lemma upstream_answers address l c c' : downstream address l = success c -> Forall2 carried_out c c' -> Forall2 answers_tuner l (upstream l c').
Proof.
  revert c c'. induction l as [|q l IH]; intros c c' E F; [constructor|]. cbn [downstream] in E.
  destruct (downstream_one address q) as [a|e] eqn:D; [|done]. destruct (downstream address l) as [b|e] eqn:Dl; [|done]. injection E as <-.
  unfold downstream_one in D. destruct (_ <? _); [done|]. destruct (tr_type q) eqn:T; [done| |]; (destruct (_ || _) eqn:G; [done|]); injection D as <-; cbn [app] in F.
  - apply Forall2_cons_inv_l in F as (x & r & X & F & ->). apply Forall2_cons_inv_l in F as (y & r' & Y & F & ->). cbn [upstream]. rewrite T. constructor; [|by eapply IH].
    unfold answers_tuner. rewrite T. cbn in Y. destruct Y as (d & -> & L). exists d. by split.
  - apply Forall2_cons_inv_l in F as (x & r & X & F & ->). cbn [upstream]. rewrite T. constructor; [|by eapply IH]. unfold answers_tuner. by rewrite T.
Qed.

Section Relay.
Context {HW : Type} `{I2cMasterLaws HW}.

Definition ready_mapping (m : Q3U4ReceiverMapping) : Prop := 0 <= demod_address m <= 0x7f.

Lemma downstream_relay m requests hw : ready_mapping m -> i2c_lives hw -> Forall tuner_bytes_ok requests -> requests <> [] ->
  forallb tuner_request_ok requests = true ->
  exists c r hw', relayed c = Some (transfer <$> requests) /\ Forall (fun q => validate_request q = success tt) c /\ i2c_lives hw' /\
    downstream_request m requests hw = Some (r, hw') /\
    match r with
    | success l => Forall2 answers_tuner requests l /\ exists c', i2c_request c hw = Some (success c', hw')
    | failure e => i2c_request c hw = Some (failure e, hw')
    end.
Proof.
  intros M Lv B N V. pose proof (downstream_ok (demod_address m) requests B) as D. unfold downstream_request.
  destruct requests as [|q l] eqn:R; [done|]. rewrite <- R in *. clear q l R N.
  destruct (downstream (demod_address m) requests) as [c|e] eqn:E; destruct D as [D1 D2]; [|congruence].
  pose proof (downstream_valid _ _ _ M B E) as Va.
  assert (Forall request_bytes_ok c) as Vb by (eapply Forall_impl; [exact Va|by intros ? []]).
  destruct (i2c_returns c hw Lv Vb) as (r & hw' & I & Lv' & Fi). exists c.
  rewrite (bind_success _ _ _ c hw) by done. destruct r as [c'|e].
  - exists (success (upstream requests c')), hw'. split; [done|]. split; [eapply Forall_impl; [exact Va|by intros ? []]|]. split; [done|].
    rewrite (bind_success _ _ _ c' hw') by done. split; [done|]. split; [|by exists c']. by eapply upstream_answers, Fi.
  - exists (failure e), hw'. split; [done|]. split; [eapply Forall_impl; [exact Va|by intros ? []]|]. split; [done|].
    rewrite (bind_failure _ _ _ e hw') by done. done.
Qed.
Lemma downstream_refused m requests hw : Forall tuner_bytes_ok requests -> requests = [] \/ forallb tuner_request_ok requests = false ->
  downstream_request m requests hw = Some (failure INVALID_ARGUMENT, hw).
Proof.
  intros B V. unfold downstream_request. destruct requests as [|q l] eqn:R; [done|]. rewrite <- R in *. destruct V as [->|V]; [done|].
  pose proof (downstream_ok (demod_address m) requests B) as D. destruct (downstream (demod_address m) requests) as [c|e]; destruct D as [D1 D2]; [congruence|].
  subst e. by rewrite (bind_failure _ _ _ INVALID_ARGUMENT hw).
Qed.

(** C34 C1. A transaction with a tuner is one call to the bridge, in which
    the demodulator's repeater is asked for exactly the transfers of the transaction in their order, and that
    the bridge accepts; each read comes back with as many bytes as were asked for. A
    transaction with an invalid request fails and nothing is sent. *)
Theorem downstream_relays m requests hw : ready_mapping m -> i2c_lives hw -> Forall tuner_bytes_ok requests ->
  if forallb tuner_request_ok requests && negb (bool_decide (length requests = 0%nat)) then
    exists c r hw', relayed c = Some (transfer <$> requests) /\ validate_all c = success tt /\
      downstream_request m requests hw = Some (r, hw') /\
      match r with
      | success l => Forall2 answers_tuner requests l /\ exists c', i2c_request c hw = Some (success c', hw')
      | failure e => i2c_request c hw = Some (failure e, hw')
      end
  else downstream_request m requests hw = Some (failure INVALID_ARGUMENT, hw).
Proof.
  intros M Lv B. destruct (forallb tuner_request_ok requests) eqn:V; cbn [andb].
  - destruct requests as [|q l] eqn:R; [done|]. rewrite <- R in *. assert (requests <> []) as N by (by rewrite R).
    rewrite bool_decide_eq_false_2 by (by rewrite R). cbn [negb].
    destruct (downstream_relay m requests hw M Lv B N V) as (c & r & hw' & Re & Va & _ & E & P). exists c, r, hw'.
    split; [done|]. split; [|done]. clear -Va. induction Va as [|q c Vq Va IH]; [done|]. cbn. by rewrite Vq.
  - apply downstream_refused; [done|by right].
Qed.
End Relay.

(** A tuner is asked for its first four registers through a bridge. *)
Definition probe_tuner : list Tc90522I2cRequest := [
  mkTunerRequest TR_write 0x7a (View [0]) (NullView 0); mkTunerRequest TR_read 0x7a (NullView 0) (View [0; 0; 0; 0]) ].
Definition satellite_0 : Q3U4ReceiverMapping := mkMapping 0 0x11 false TC_isdb_s.

Lemma downstream_relays_witness :
  exists c r hw', relayed c = Some [TunerWrites 0x7a [0]; TunerReads 0x7a 4] /\ validate_all c = success tt /\
    downstream_request (H := bridge_master 2) satellite_0 probe_tuner (no_detail, sim_state []) = Some (r, hw').
Proof.
  assert (is_u8 2) as U by (unfold is_u8; lia).
  destruct (downstream_relays (H0 := bridge_master_laws (Dev := SimDevice) 2 U) satellite_0 probe_tuner (no_detail, sim_state []))
    as (c & r & hw' & R & V & E & _).
  - vm_compute. split; discriminate.
  - exact (sim_steady _).
  - repeat (apply Forall_cons; split; [split_and!; [vm_compute; discriminate..|by apply bytes_okb_ok]|]). constructor.
  - exists c, r, hw'. split; [exact R|]. split; [exact V|exact E].
Defined.
