(* ===== verification/Rt710.v ===== *)
(** The RT710 and RT720 satellite tuners ([src/rt710.cpp/.h]), behind the repeater of
    a demodulator: identification, sleep, the programming of the synthesizer
    and of the filter, and the gain readings. *)

From coqutil Require Import Datatypes.RecordSetters.
From S2P Require Import Prelude IoMonad BridgeI2c Tc90522.

Import DoubleBraceUpdate.
Open Scope Z_scope.

(** * Data *)

Inductive Rt710Chip := chip_unknown | chip_rt710 | chip_rt720.
#[export] Instance Rt710Chip_eq_dec : EqDecision Rt710Chip.
Proof. solve_decision. Defined.

Record Rt710 := mkRt710 { chip_ : Rt710Chip; initialized_ : bool; frequency_khz_ : Z }.
Definition new_rt710 : Rt710 := mkRt710 chip_unknown false 0.

Class TunerDelay (HW : Type) := { sleep_ms : Z -> HW -> HW }.

Definition kTunerAddress : Z := 0x7a.
Definition kRegisterCount : Z := 0x10.
Definition kXtalKHz : Z := 24000.
Definition kRt710Init : list Z :=
  [0x40; 0x1d; 0x20; 0x10; 0x41; 0x50; 0xed; 0x25; 0x07; 0x58; 0x39; 0x64; 0x38; 0xe7; 0x90; 0x35].
Definition kRt720Init : list Z :=
  [0x00; 0x1c; 0x00; 0x10; 0x41; 0x48; 0xda; 0x4b; 0x07; 0x58; 0x38; 0x40; 0x37; 0xe7; 0x4c; 0x59].
Definition kSleep : list Z :=
  [0xff; 0x5c; 0x88; 0x30; 0x41; 0xc8; 0xed; 0x25; 0x47; 0xfc; 0x48; 0xa2; 0x08; 0x0f; 0xf3; 0x59].

Record Bandwidth := mkBandwidth { limit : Z; coarse_code : Z; fine_code : Z }.
Definition kBandwidth : list Bandwidth := [
  mkBandwidth 50000 0 0; mkBandwidth 73000 0 1; mkBandwidth 96000 1 0;
  mkBandwidth 104000 1 1; mkBandwidth 116000 2 0; mkBandwidth 126000 2 1;
  mkBandwidth 134000 3 0; mkBandwidth 146000 3 1; mkBandwidth 158000 4 0;
  mkBandwidth 170000 4 1; mkBandwidth 178000 5 0; mkBandwidth 190000 5 1;
  mkBandwidth 202000 6 0; mkBandwidth 212000 6 1; mkBandwidth 218000 7 0;
  mkBandwidth 234000 7 1; mkBandwidth 244000 9 1; mkBandwidth 246000 10 0;
  mkBandwidth 262000 10 1; mkBandwidth 266000 11 0; mkBandwidth 282000 11 1;
  mkBandwidth 298000 12 1; mkBandwidth 318000 13 1; mkBandwidth 340000 14 1;
  mkBandwidth 358000 15 1; mkBandwidth 379999 16 1 ].
Definition kRt710Gain : list Z :=
  [0; 26; 42; 74; 103; 129; 158; 181; 188; 200; 220; 248; 280; 312; 341; 352; 366; 389; 409].
Definition kRt720Gain : list Z :=
  [0; 27; 53; 81; 109; 134; 156; 176; 194; 202; 211; 221; 232; 245; 258; 271; 285; 307; 326; 341; 357;
   374; 393; 410; 428; 439; 445; 470; 476; 479; 495; 507].

Definition reverse_bits (value : Z) : Z :=
  let value := cast_u8 (Z.lor (Z.shiftl (Z.land value 0x55) 1) (Z.shiftr (Z.land value 0xaa) 1)) in
  let value := cast_u8 (Z.lor (Z.shiftl (Z.land value 0x33) 2) (Z.shiftr (Z.land value 0xcc) 2)) in
  cast_u8 (Z.lor (Z.shiftl value 4) (Z.shiftr value 4)).

(** [regs[i] = f(regs[i])], for a register image and an 8-bit result. *)
Definition set_reg (i : Z) (f : Z -> Z) (regs : list Z) : list Z := alter (fun v => cast_u8 (f v)) (Z.to_nat i) regs.
Definition masked (mask bits v : Z) : Z := Z.lor (Z.land v mask) bits.

(** * The arithmetic of the synthesizer *)

Definition vco_min : Z := 2350000.
Definition vco_max : Z := 4700000.
Definition in_vco_range (vco : Z) : bool := (vco_min <=? vco) && (vco <=? vco_max).

(** The loop over the mixer dividers; it is left with [32] when none fits. *)
Fixpoint mixer_loop (fuel : nat) (frequency mix_div vco : Z) : Z * Z :=
  match fuel with
  | O => (mix_div, vco)
  | S fuel =>
      if (mix_div <=? 16) && negb (in_vco_range vco) then
        let mix_div := cast_u8 (mix_div * 2) in
        mixer_loop fuel frequency mix_div (if mix_div <=? 16 then cast_u32 (frequency * mix_div) else vco)
      else (mix_div, vco)
  end.
Definition mixer (frequency : Z) : option (Z * Z) :=
  let '(mix_div, vco) := mixer_loop 4 frequency 2 (cast_u32 (frequency * 2)) in
  if (16 <? mix_div) || negb (in_vco_range vco) then None else Some (mix_div, vco).
Definition divider_code (mix_div : Z) : Z := if mix_div =? 2 then 1 else if mix_div =? 4 then 0 else if mix_div =? 8 then 2 else 3.

Definition nint_of (vco : Z) : Z := vco / 2 / kXtalKHz.
(** The integer and the fraction that are programmed for what remains of a VCO
    frequency above [nint], with the window around the integers and the halves cut. *)
Definition rounded (nint remainder : Z) : Z * Z :=
  let up := kXtalKHz * 127 / 64 <? remainder in
  let fraction := if remainder <? kXtalKHz / 64 then 0 else if up then 0 else remainder in
  let effective_nint := if (fraction =? 0) && up then nint + 1 else nint in
  let fraction :=
    if (kXtalKHz * 127 / 128 <? fraction) && (fraction <? kXtalKHz) then kXtalKHz * 127 / 128
    else if (kXtalKHz <? fraction) && (fraction <? kXtalKHz * 129 / 128) then kXtalKHz * 129 / 128
    else fraction in
  (effective_nint, fraction).

(** The sigma-delta code of a fraction; [None] is a division by zero or a loop
    without an end. *)
Fixpoint sdm_loop (fuel : nat) (nsdm sdm fraction : Z) : option Z :=
  if fraction <=? 1 then Some sdm
  else match fuel with
  | O => None
  | S fuel =>
      if (nsdm =? 0) || (nsdm / 2 =? 0) then None
      else
        let threshold := kXtalKHz * 2 / nsdm in
        if threshold <? fraction then
          let sdm := cast_u16 (sdm + 0x8000 / (nsdm / 2)) in
          if 0x8000 <=? nsdm then Some sdm
          else sdm_loop fuel (cast_u16 (nsdm * 2)) sdm (fraction - threshold)
        else sdm_loop fuel (cast_u16 (nsdm * 2)) sdm fraction
  end.
Definition sdm_of (fraction : Z) : option Z := sdm_loop 16 2 0 fraction.

(** * The filter *)

Definition adjusted_rate (c : Rt710Chip) (symbol_rate : Z) : Z :=
  if bool_decide (c = chip_rt720) && (15000 <=? symbol_rate) then symbol_rate + 6000 else symbol_rate.
Definition bandwidth_of (rate rolloff : Z) : Z := cast_u32 (rate * (115 + rolloff * 5)) / 10.

Fixpoint find_bandwidth (l : list Bandwidth) (bandwidth : Z) : option (Z * Z) :=
  match l with
  | [] => None
  | e :: l => if bandwidth <=? limit e then Some (coarse_code e, fine_code e) else find_bandwidth l bandwidth
  end.

(** The last steps of the coarse code of the RT720. *)
Definition rt720_gaps (coarse : Z) : Z :=
  if 33 <=? coarse then coarse + 3 else if 29 <=? coarse then coarse + 2 else if 27 <=? coarse then coarse + 3
  else if 24 <=? coarse then coarse + 2 else if 19 <=? coarse then coarse + 1 else coarse.
Definition carry (b : bool) : Z := if b then 1 else 0.
Definition rt720_range (rolloff : Z) : Z := if 1 <? rolloff then 20000 else 0.
(** The check between the steps is never met; [None] is its failure. *)
Definition rt720_coarse (s rolloff : Z) : option Z :=
  let range := rt720_range rolloff in
  if s <=? 88000 + range then Some 0
  else if s <=? 368000 + range then
    let delta := s - 88000 - range in
    let coarse := delta / 20000 + carry (negb (delta mod 20000 =? 0)) in
    Some (if 6 <? coarse then coarse + 1 else coarse)
  else if s <=? 764000 + range then
    let delta := s - 368000 - range in
    if 2 ^ 32 - 1 - 25216 + range <? s then None
    else Some (rt720_gaps (delta / 20000 + 15 + carry (negb ((s + 25216 - range) mod 20000 =? 0))))
  else Some 42.

(** ** What is checked before anything is sent *)

Section Validate.
Context (chip : Rt710Chip).

Definition u32_max : Z := 2 ^ 32 - 1.
Definition validate_rate (symbol_rate rolloff : Z) : Result Z :=
  if bool_decide (chip = chip_rt720) && (15000 <=? symbol_rate) && (u32_max - 6000 <? symbol_rate) then failure INVALID_ARGUMENT
  else
    let rate := adjusted_rate chip symbol_rate in
    let multiplier := 115 + rolloff * 5 in
    if u32_max / multiplier <? rate then failure INVALID_ARGUMENT
    else if bandwidth_of rate rolloff =? 0 then failure INVALID_ARGUMENT
    else if bool_decide (chip = chip_rt720) && (u32_max / 12 <? rate) then failure INVALID_ARGUMENT
    else success rate.
(** The later compensation of the RT720 may not wrap, and gives nothing else. *)
Definition validate_compensation (rate : Z) : bool :=
  if bool_decide (chip = chip_rt720) then
    negb (if rate <=? 15000 then u32_max - 3000 <? rate else if rate <=? 20000 then u32_max - 2000 <? rate
          else if rate <=? 30000 then u32_max - 1000 <? rate else false)
  else true.
Definition validate_coarse (rate rolloff : Z) : Result Z :=
  let bandwidth := bandwidth_of rate rolloff in
  if bool_decide (chip = chip_rt710) then
    if 380000 <=? bandwidth then
      let remainder := bandwidth - 380000 in
      success (16 + remainder / 17400 + carry (negb (remainder mod 17400 =? 0)))
    else match find_bandwidth kBandwidth bandwidth with Some (coarse, _) => success coarse | None => failure INVALID_ARGUMENT end
  else
    match rt720_coarse (if bool_decide (chip = chip_rt720) then cast_u32 (rate * 12) else 0) rolloff with
    | Some coarse => success coarse
    | None => failure INVALID_ARGUMENT
    end.

Definition validate_params (frequency symbol_rate rolloff : Z) : Result unit :=
  if (frequency <? 146875) || (2350000 <? frequency) || (symbol_rate =? 0) || (5 <? rolloff) then failure INVALID_ARGUMENT
  else match mixer frequency with
  | None => failure INVALID_ARGUMENT
  | Some (_, vco) =>
      if (nint_of vco <? 13) || (268 <? nint_of vco) then failure INVALID_ARGUMENT
      else match validate_rate symbol_rate rolloff with
      | failure e => failure e
      | success rate =>
          if negb (validate_compensation rate) then failure INVALID_ARGUMENT
          else match validate_coarse rate rolloff with
          | failure e => failure e
          | success coarse => if 63 <? coarse then failure INVALID_ARGUMENT else success tt
          end
      end
  end.
End Validate.

(** * Operations *)

Section Operations.
Context {HW : Type} `{I2cMaster HW} `{TunerDelay HW} (m : Q3U4ReceiverMapping).

Definition RtSt : Type := Rt710 * HW.
Definition tuner : Io RtSt Rt710 := gets fst.
Definition set_tuner (f : Rt710 -> Rt710) : Io RtSt unit := modify (fun st => (f st.1, st.2)).
Definition wait_ms (ms : Z) : Io RtSt unit := modify (fun st => (st.1, sleep_ms ms st.2)).

Definition read_regs (reg length : Z) : Io RtSt (list Z) :=
  _ ← require (negb ((length =? 0) || (kRegisterCount <=? reg) || (kRegisterCount - reg <? length))) INVALID_ARGUMENT;
  requests ← on_snd (downstream_request m [
    mkTunerRequest TR_write kTunerAddress (View [0]) (NullView 0);
    mkTunerRequest TR_read kTunerAddress (NullView 0) (View (zeros (reg + length))) ]);
  let raw := match requests !! 1%nat with Some q => view_bytes (tr_read_data q) | None => [] end in
  mret (reverse_bits <$> ztake length (zdrop reg raw)).
Definition write_regs (reg : Z) (values : list Z) : Io RtSt unit :=
  _ ← require (negb ((zlen values =? 0) || (kRegisterCount <=? reg) || (kRegisterCount - reg <? zlen values))) INVALID_ARGUMENT;
  _ ← on_snd (downstream_request m [mkTunerRequest TR_write kTunerAddress (View (reg :: values)) (NullView 0)]);
  mret tt.
(** [write_regs(reg, ByteView{&regs[reg], 1})]. *)
Definition write_reg_of (regs : list Z) (reg : Z) : Io RtSt unit := write_regs reg [byte_at regs reg].

Definition initialize : Io RtSt unit :=
  _ ← set_tuner (fun _ => new_rt710);
  value ← read_regs 0x03 1;
  _ ← set_tuner (fun t => t{{ chip_ := if Z.land (nth 0 value 0) 0xf0 =? 0x70 then chip_rt710 else chip_rt720; initialized_ := true }});
  mret tt.
Definition terminate : Io RtSt unit := set_tuner (fun _ => new_rt710).
Definition sleep : Io RtSt unit :=
  t ← tuner;
  _ ← require (initialized_ t) NOT_READY;
  write_regs 0 (if bool_decide (chip_ t = chip_rt720) then set_reg 0x03 (fun v => Z.lor v 0x20) (set_reg 0x01 (fun _ => 0x5e) kSleep) else kSleep).

(** The steps of [set_pll] hand the register image on. *)
Definition pll_divider (chip : Rt710Chip) (divider : Z) (regs : list Z) : Io RtSt (list Z) :=
  let regs := set_reg 0x04 (masked 0xfe (Z.land divider 1)) regs in
  _ ← write_reg_of regs 0x04;
  if bool_decide (chip = chip_rt720) then
    let regs := set_reg 0x08 (masked 0xef (Z.land (Z.shiftl divider 3) 0x10)) regs in
    _ ← write_reg_of regs 0x08;
    let regs := set_reg 0x04 (fun v => Z.land v 0x3f) regs in
    let regs := if divider <=? 1
      then set_reg 0x0c (fun v => Z.lor v 0x10) (set_reg 0x04 (fun v => Z.lor v 0x40) regs)
      else set_reg 0x0c (fun v => Z.land v 0xef) (set_reg 0x04 (fun v => Z.lor v 0x80) regs) in
    _ ← write_reg_of regs 0x04;
    _ ← write_reg_of regs 0x0c;
    mret regs
  else mret regs.
Definition ni_of (nint : Z) : Z := cast_u8 ((nint - 13) / 4).
Definition si_of (nint : Z) : Z := cast_u8 (nint - ni_of nint * 4 - 13).
Definition pll_fraction (vco : Z) (regs : list Z) : Io RtSt (list Z) :=
  let nint := nint_of vco in
  _ ← require (negb ((nint <? 13) || (268 <? nint))) INVALID_ARGUMENT;
  let remainder := cast_u32 (vco - kXtalKHz * 2 * nint) in
  _ ← require (negb ((kXtalKHz * 127 / 64 <? remainder) && (nint =? 268))) INVALID_ARGUMENT;
  let '(effective_nint, fraction) := rounded nint remainder in
  let regs := set_reg 0x05 (fun _ => Z.lor (Z.land (ni_of effective_nint) 0x3f) (Z.land (Z.shiftl (si_of effective_nint) 6) 0xc0)) regs in
  _ ← write_reg_of regs 0x05;
  let regs := if fraction =? 0 then set_reg 0x04 (fun v => Z.lor v 0x02) regs else regs in
  _ ← write_reg_of regs 0x04;
  match sdm_of fraction with
  | None => diverge
  | Some sdm =>
      let regs := set_reg 0x06 (fun _ => sdm) (set_reg 0x07 (fun _ => Z.shiftr sdm 8) regs) in
      _ ← write_reg_of regs 0x07;
      _ ← write_reg_of regs 0x06;
      mret regs
  end.
Definition set_pll (regs : list Z) (frequency : Z) : Io RtSt (list Z) :=
  _ ← set_tuner (fun t => t{{ frequency_khz_ := 0 }});
  _ ← require (negb (frequency =? 0)) INVALID_ARGUMENT;
  match mixer frequency with
  | None => fail INVALID_ARGUMENT
  | Some (mix_div, vco) =>
      t ← tuner;
      regs ← pll_divider (chip_ t) (divider_code mix_div) regs;
      regs ← pll_fraction vco regs;
      _ ← set_tuner (fun t => t{{ frequency_khz_ := frequency }});
      mret regs
  end.

(** The image a tuning starts from. *)
Definition start_image (chip : Rt710Chip) : list Z :=
  let regs := if bool_decide (chip = chip_rt710) then kRt710Init else kRt720Init in
  let regs := set_reg 0x0b (fun v => Z.land v 0xf7) (set_reg 0x0d (fun v => Z.lor v 0x10) (set_reg 0x0b (fun v => Z.land v 0xef)
    (set_reg 0x03 (fun v => Z.lor v 0x10) (set_reg 0x01 (fun v => Z.lor v 0x04) regs)))) in
  if bool_decide (chip = chip_rt710) then set_reg 0x0e (fun v => Z.land v 0xfc) regs
  else set_reg 0x03 (fun v => Z.land v 0xf0) (set_reg 0x0e (fun v => Z.land v 0xfe) regs).

(** The steps of [set_params] behind the synthesizer. *)
Definition set_band (chip : Rt710Chip) (frequency : Z) (regs : list Z) : Io RtSt (list Z) :=
  if bool_decide (chip = chip_rt710) then
    let regs := if 350000 <=? cast_u32 (frequency - 1600000)
      then (let regs := set_reg 0x08 (fun v => Z.land v 0x7f) (set_reg 0x02 (fun v => Z.land v 0xbf) regs) in
            if 1950000 <=? frequency then set_reg 0x0a (fun _ => 0x38) regs else regs)
      else set_reg 0x08 (fun v => Z.lor v 0x80) (set_reg 0x02 (fun v => Z.lor v 0x40) regs) in
    _ ← write_reg_of regs 0x0a;
    _ ← write_reg_of regs 0x02;
    _ ← write_reg_of regs 0x08;
    let regs := set_reg 0x0e (fun v => Z.land v 0xf3) regs in
    let regs := if 2000000 <=? frequency then set_reg 0x0e (fun v => Z.lor v 0x08) regs else regs in
    _ ← write_reg_of regs 0x0e;
    mret regs
  else
    let regs := set_reg 0x0b (fun v => Z.land v 0xfc) regs in
    _ ← write_reg_of regs 0x0b;
    mret regs.
(** The coarse and the fine code of the filter. *)
Definition filter_code (chip : Rt710Chip) (symbol_rate rolloff : Z) : option (Z * Z) :=
  if bool_decide (chip = chip_rt710) then
    let bandwidth := bandwidth_of symbol_rate rolloff in
    if 380000 <=? bandwidth then
      let remainder := bandwidth - 380000 in
      Some (cast_u8 (carry (negb (remainder mod 17400 =? 0)) + Z.land (remainder / 17400) 0xff + 0x10), 1)
    else Some (default (0, 0) (find_bandwidth kBandwidth bandwidth))
  else
    let rate := if 15000 <=? symbol_rate then cast_u32 (symbol_rate + 6000) else symbol_rate in
    (fun coarse => (cast_u8 coarse, if 1 <? rolloff then 1 else 0)) <$> rt720_coarse (cast_u32 (rate * 12)) rolloff.
Definition set_filter (chip : Rt710Chip) (symbol_rate rolloff : Z) (regs : list Z) : Io RtSt (list Z) :=
  match filter_code chip symbol_rate rolloff with
  | None => fail INVALID_ARGUMENT
  | Some (coarse, fine) =>
      let regs := set_reg 0x0f (fun _ => Z.lor (Z.shiftl coarse 2) (Z.land fine 3)) regs in
      _ ← write_reg_of regs 0x0f;
      mret regs
  end.

Definition set_params (frequency symbol_rate rolloff : Z) : Io RtSt unit :=
  t ← tuner;
  _ ← require (initialized_ t) NOT_READY;
  _ ← from_result (validate_params (chip_ t) frequency symbol_rate rolloff);
  let regs := start_image (chip_ t) in
  _ ← write_regs 0 regs;
  regs ← set_pll regs frequency;
  _ ← wait_ms 10;
  regs ← set_band (chip_ t) frequency regs;
  _ ← set_filter (chip_ t) symbol_rate rolloff regs;
  mret tt.

Definition is_pll_locked : Io RtSt bool :=
  t ← tuner;
  _ ← require (initialized_ t) NOT_READY;
  value ← read_regs 0x02 1;
  mret (negb (Z.land (nth 0 value 0) 0x80 =? 0)).
Definition rt710_gain_step (raw : Z) : Z :=
  if raw <=? 2 then 0 else if raw <=? 9 then raw - 2 else if raw <=? 12 then 7 else if raw <=? 22 then raw - 5 else 18.
Definition get_rf_gain : Io RtSt Z :=
  t ← tuner;
  _ ← require (initialized_ t) NOT_READY;
  value ← read_regs 0x01 1;
  let v := nth 0 value 0 in
  let raw := Z.lor (Z.shiftr (Z.land v 0xf0) 4) (Z.shiftl (Z.land v 1) 4) in
  if bool_decide (chip_ t = chip_rt710) then mret (rt710_gain_step raw)
  else
    _ ← require (raw <? zlen kRt720Gain) PROTOCOL_ERROR;
    mret raw.
Definition get_rf_signal_strength : Io RtSt Z :=
  gain ← get_rf_gain;
  t ← tuner;
  if bool_decide (chip_ t = chip_rt710) then
    let base := if frequency_khz_ t <? 1200000 then 190 else if frequency_khz_ t <? 1800000 then 170 else 140 in
    _ ← require (gain <? zlen kRt710Gain) PROTOCOL_ERROR;
    mret ((base + byte_at kRt710Gain gain) * -100)
  else
    _ ← require (gain <? zlen kRt720Gain) PROTOCOL_ERROR;
    mret ((70 + byte_at kRt720Gain gain) * -100).
End Operations.

(** * The synthesizer *)

(** Every fraction of the synthesizer has a code, to within 5 kHz. *)
Definition code_error (f s : Z) : Z := f * 2 ^ 16 - 2 * kXtalKHz * s.

(** The first seven bits are exact. *)
Lemma sdm_exact fuel n s f : In n [2; 4; 8; 16; 32; 64; 128] -> 0 <= s <= 2 ^ 16 - 2 ^ 17 / n -> 0 <= f <= 96000 / n ->
  exists s' f', sdm_loop (S fuel) n s f = sdm_loop fuel (2 * n) s' f' /\ 0 <= s' <= 2 ^ 16 - 2 ^ 17 / (2 * n) /\ 0 <= f' <= 96000 / (2 * n) /\
    f * 2 ^ 16 + 2 * kXtalKHz * s = f' * 2 ^ 16 + 2 * kXtalKHz * s'.
Proof.
  intros I S F. cbn [sdm_loop]. destruct (Z.leb_spec f 1) as [L|L].
  { exists s, f. split; [destruct fuel; cbn [sdm_loop]; by rewrite (proj2 (Z.leb_le _ _)) by lia|].
    cbn in I. repeat (destruct I as [<-|I]; [ground; lia|]). done. }
  unfold kXtalKHz.
  assert (forall s', 0 <= s' < 2 ^ 16 -> cast_u16 s' = s') as W by (intros; by apply Z.mod_small).
  destruct (Z.ltb_spec (24000 * 2 / n) f) as [G|G].
  - assert (0x8000 / (n / 2) = 2 ^ 16 / n) as Q by (cbn in I; repeat (destruct I as [<-|I]; [reflexivity|]); destruct I).
    rewrite Q. clear Q. exists (s + 2 ^ 16 / n), (f - 24000 * 2 / n). cbn in I.
    repeat (destruct I as [<-|I]; [rewrite (W (s + _)) by (clear W; ground; lia); split; [done|clear W; ground; split_and!; lia]|]). done.
  - exists s, f. cbn in I. repeat (destruct I as [<-|I]; [split; [done|clear W; ground; split_and!; lia]|]). done.
Qed.

Lemma sdm_linear fuel n s f : sdm_loop fuel n (cast_u16 s) f = (fun d => cast_u16 (s + d)) <$> sdm_loop fuel n 0 f.
Proof.
  assert (forall s, Some (cast_u16 s) = (fun d => cast_u16 (s + d)) <$> Some 0) as Z0 by (intros s'; cbn; by rewrite Z.add_0_r).
  revert n s f. induction fuel as [|fuel IH]; intros n s f; cbn [sdm_loop].
  { by destruct (_ <=? 1). }
  destruct (_ <=? 1); [done|].
  destruct (_ || _); [done|]. destruct (_ <? _); [|apply IH].
  assert (cast_u16 (cast_u16 s + 0x8000 / (n / 2)) = cast_u16 (s + cast_u16 (0 + 0x8000 / (n / 2)))) as C.
  { rewrite Z.add_0_l. unfold cast_u16. by rewrite Zplus_mod_idemp_l, Zplus_mod_idemp_r. }
  rewrite C. destruct (_ <=? n); [done|].
  rewrite (IH _ (s + _)). rewrite (IH _ (0 + _)), Z.add_0_l. destruct (sdm_loop fuel _ 0 _) as [d|]; [|done]. cbn. f_equal.
  set (x := 0x8000 / (n / 2)). rewrite ?Z.add_0_l. unfold cast_u16. rewrite Zplus_mod_idemp_r.
  replace (s + x mod 2 ^ 16 + d) with (x mod 2 ^ 16 + (s + d)) by lia. rewrite Zplus_mod_idemp_l. f_equal. lia.
Qed.

Definition code_good (f : Z) : bool :=
  match sdm_loop 9 256 0 f with
  | Some d => (0 <=? d) && (d <? 512) && (Z.abs (code_error f d) <=? 5 * 2 ^ 16)
  | None => false
  end.
Lemma code_total f : 0 <= f < 2 * kXtalKHz -> exists s, sdm_of f = Some s /\ 0 <= s < 2 ^ 16 /\ Z.abs (code_error f s) <= 5 * 2 ^ 16.
Proof.
  unfold kXtalKHz. intros R. unfold sdm_of.
  destruct (sdm_exact 15 2 0 f) as (s1 & f1 & E1 & S1 & F1 & C1); [cbn; auto 9|ground; lia..|].
  destruct (sdm_exact 14 4 s1 f1) as (s2 & f2 & E2 & S2 & F2 & C2); [cbn; auto 9|done..|].
  destruct (sdm_exact 13 8 s2 f2) as (s3 & f3 & E3 & S3 & F3 & C3); [cbn; auto 9|done..|].
  destruct (sdm_exact 12 16 s3 f3) as (s4 & f4 & E4 & S4 & F4 & C4); [cbn; auto 9|done..|].
  destruct (sdm_exact 11 32 s4 f4) as (s5 & f5 & E5 & S5 & F5 & C5); [cbn; auto 9|done..|].
  destruct (sdm_exact 10 64 s5 f5) as (s6 & f6 & E6 & S6 & F6 & C6); [cbn; auto 9|done..|].
  destruct (sdm_exact 9 128 s6 f6) as (s7 & f7 & E7 & S7 & F7 & C7); [cbn; auto 9|done..|].
  change (2 * 2) with 4 in *. change (2 * 4) with 8 in *. change (2 * 8) with 16 in *. change (2 * 16) with 32 in *.
  change (2 * 32) with 64 in *. change (2 * 64) with 128 in *. rewrite E1, E2, E3, E4, E5, E6, E7. clear E1 E2 E3 E4 E5 E6 E7 S1 S2 S3 S4 S5 S6 F1 F2 F3 F4 F5 F6.
  change (2 * 128) with 256 in *. change (2 ^ 17 / 256) with 512 in S7. change (96000 / 256) with 375 in F7.
  assert (all_from code_good 376 0 = true) as G by (vm_compute; reflexivity). apply all_from_ok with (x := f7) in G; [|lia].
  unfold code_good in G. pose proof (sdm_linear 9 256 s7 f7) as Ln. replace (cast_u16 s7) with s7 in Ln by (symmetry; apply Z.mod_small; lia). rewrite Ln.
  destruct (sdm_loop 9 256 0 f7) as [d|]; [|done]. rewrite !andb_true_iff, Z.leb_le, Z.ltb_lt, Z.leb_le in G. destruct G as [[G1 G2] G3].
  exists (s7 + d). cbn. split; [unfold cast_u16; by rewrite Z.mod_small by lia|]. split; [lia|].
  replace (code_error f (s7 + d)) with (code_error f7 d); [done|]. unfold code_error, kXtalKHz in *. lia.
Qed.

Lemma rounded_ok n r : 0 <= r < 2 * kXtalKHz -> let '(n', f) := rounded n r in
  n <= n' <= n + 1 /\ 0 <= f < 2 * kXtalKHz /\ Z.abs (2 * kXtalKHz * n + r - (2 * kXtalKHz * n' + f)) <= 374 /\
  (375 <= r <= 23812 \/ 24187 <= r <= 47625 -> f = r /\ n' = n).
Proof.
  unfold kXtalKHz. intros R. unfold rounded, kXtalKHz. change (24000 * 127 / 64) with 47625. change (24000 / 64) with 375.
  change (24000 * 127 / 128) with 23812. change (24000 * 129 / 128) with 24187.
  destruct (Z.ltb_spec r 375), (Z.ltb_spec 47625 r); cbn [andb Z.eqb]; try lia.
  - cbn. lia.
  - cbn. lia.
  - destruct (Z.eqb_spec r 0); [lia|]. cbn [andb].
    destruct (Z.ltb_spec 23812 r), (Z.ltb_spec r 24000), (Z.ltb_spec 24000 r), (Z.ltb_spec r 24187); cbn [andb]; lia.
Qed.

Lemma mixer_total f : 146875 <= f <= 2350000 -> exists d, In d [2; 4; 8; 16] /\ mixer f = Some (d, f * d) /\ vco_min <= f * d <= vco_max.
Proof.
  intros R. unfold mixer. assert (forall d, In d [2; 4; 8; 16] -> cast_u32 (f * d) = f * d) as C.
  { intros d I. unfold cast_u32. apply Z.mod_small. cbn in I. lia. }
  unfold vco_min, vco_max. cbn [mixer_loop]. rewrite (C 2) by (cbn; auto). unfold in_vco_range, vco_min, vco_max. change (2 <=? 16) with true. cbn [andb].
  change (cast_u8 (2 * 2)) with 4. change (cast_u8 (4 * 2)) with 8. change (cast_u8 (8 * 2)) with 16. change (4 <=? 16) with true. change (8 <=? 16) with true. change (16 <=? 16) with true.
  cbn [andb]. rewrite (C 4), (C 8), (C 16) by (cbn; auto 10).
  destruct (Z.leb_spec 2350000 (f * 2)), (Z.leb_spec (f * 2) 4700000); try lia; cbn [andb negb].
  { exists 2. split; [cbn; auto|]. rewrite !(proj2 (Z.leb_le _ _)) by lia. cbn. split; [done|lia]. }
  destruct (Z.leb_spec 2350000 (f * 4)), (Z.leb_spec (f * 4) 4700000); try lia; cbn [andb negb].
  { exists 4. split; [cbn; auto|]. rewrite !(proj2 (Z.leb_le _ _)) by lia. cbn. split; [done|lia]. }
  destruct (Z.leb_spec 2350000 (f * 8)), (Z.leb_spec (f * 8) 4700000); try lia; cbn [andb negb].
  { exists 8. split; [cbn; auto|]. rewrite !(proj2 (Z.leb_le _ _)) by lia. cbn. split; [done|lia]. }
  destruct (Z.leb_spec 2350000 (f * 16)), (Z.leb_spec (f * 16) 4700000); try lia; cbn [andb negb].
  exists 16. split; [cbn; auto 10|]. rewrite !(proj2 (Z.leb_le _ _)) by lia. cbn. split; [done|lia].
Qed.

(** * Register programs *)

(** A computation that consists of single-register writes. *)
Fixpoint writes_regs {HW} `{I2cMaster HW} (m : Q3U4ReceiverMapping) (l : list (Z * Z)) : Io (RtSt (HW := HW)) unit :=
  match l with
  | [] => mret tt
  | (reg, value) :: l => _ ← write_regs m reg [value]; writes_regs m l
  end.
(** What is in the registers behind such writes. *)
Definition image (l : list (Z * Z)) (regs : list Z) : list Z := foldl (fun regs w => <[Z.to_nat w.1 := w.2]> regs) regs l.

Section Programs.
Context {HW : Type} `{I2cMaster HW} `{TunerDelay HW} (m : Q3U4ReceiverMapping).

Definition writes_as {A} (p : Io (RtSt (HW := HW)) A) (l : list (Z * Z)) (a : A) : Prop := forall st, p st = (_ ← writes_regs m l; mret a) st.

Lemma writes_regs_app l1 l2 st : writes_regs m (l1 ++ l2) st = (_ ← writes_regs m l1; writes_regs m l2) st.
Proof.
  revert st. induction l1 as [|[reg v] l1 IH]; intros st; [done|]. cbn [app writes_regs]. unfold mbind, Io_bind.
  destruct (write_regs m reg [v] st) as [[[]]|]; [|done..]. rewrite IH. done.
Qed.
Lemma writes_as_ret {A} (a : A) : writes_as (mret a) [] a.
Proof. done. Qed.
Lemma writes_as_bind {A B} (p : Io _ A) (k : A -> Io _ B) l1 l2 a b : writes_as p l1 a -> writes_as (k a) l2 b -> writes_as (p ≫= k) (l1 ++ l2) b.
Proof.
  intros P K st. unfold mbind at 1, Io_bind. rewrite P. unfold mbind at 2, Io_bind. rewrite writes_regs_app. unfold mbind, Io_bind.
  destruct (writes_regs m l1 st) as [[[] s]|]; [|done..]. change (k a s = (_ ← writes_regs m l2; mret b) s). apply K.
Qed.
Lemma writes_as_write regs reg : writes_as (write_reg_of m regs reg) [(reg, byte_at regs reg)] tt.
Proof. intros st. unfold write_reg_of. cbn [writes_regs]. unfold mbind, Io_bind. by destruct (write_regs m reg _ st) as [[[[]|]]|]. Qed.
Lemma writes_as_require c e : c = true -> writes_as (require c e) [] tt.
Proof. by intros ->. Qed.
End Programs.

(** Goes through a computation and collects its writes. *)
Ltac collect_writes := repeat first [apply writes_as_ret | apply writes_as_write | eapply writes_as_bind | apply writes_as_require; reflexivity].

(** ** What the synthesizer is programmed to *)

Definition integer_part (regs : list Z) : Z := 13 + 4 * Z.land (byte_at regs 0x05) 0x3f + Z.shiftr (byte_at regs 0x05) 6.
Definition sigma_delta (regs : list Z) : Z := 2 ^ 8 * byte_at regs 0x07 + byte_at regs 0x06.
(** The frequency of the oscillator, times [2^16], in kHz. *)
Definition synthesized (regs : list Z) : Z := 2 * kXtalKHz * (2 ^ 16 * integer_part regs + sigma_delta regs).
(** The frequency lies between two of the windows that are cut. *)
Definition off_integer (vco : Z) : bool :=
  let r := vco mod (2 * kXtalKHz) in ((375 <=? r) && (r <=? 23812)) || ((24187 <=? r) && (r <=? 47625)).
Definition divider_bits (chip : Rt710Chip) (regs : list Z) : Z :=
  Z.land (byte_at regs 0x04) 1 + (if bool_decide (chip = chip_rt720) then 2 * Z.land (Z.shiftr (byte_at regs 0x08) 4) 1 else 0).
Definition divider_bits_of (chip : Rt710Chip) (code : Z) : Z := if bool_decide (chip = chip_rt720) then code else Z.land code 1.

Record PllSet (chip : Rt710Chip) (frequency : Z) (regs : list Z) : Prop := {
  pll_div : exists d, mixer frequency = Some (d, frequency * d) /\ vco_min <= frequency * d <= vco_max /\
    divider_bits chip regs = divider_bits_of chip (divider_code d) /\
    Z.abs (2 ^ 16 * (frequency * d) - synthesized regs) <= 379 * 2 ^ 16 /\
    (off_integer (frequency * d) = true -> Z.abs (2 ^ 16 * (frequency * d) - synthesized regs) <= 5 * 2 ^ 16);
}.

Lemma integer_code n : 13 <= n <= 268 ->
  let b := cast_u8 (Z.lor (Z.land (ni_of n) 0x3f) (Z.land (Z.shiftl (si_of n) 6) 0xc0)) in 13 + 4 * Z.land b 0x3f + Z.shiftr b 6 = n.
Proof.
  intros R. assert (all_from (fun n => let b := cast_u8 (Z.lor (Z.land (ni_of n) 0x3f) (Z.land (Z.shiftl (si_of n) 6) 0xc0)) in
    13 + 4 * Z.land b 0x3f + Z.shiftr b 6 =? n) 256 13 = true) as E by (vm_compute; reflexivity).
  apply all_from_ok with (x := n) in E; [|lia]. by apply Z.eqb_eq.
Qed.
Lemma sdm_bytes s : 0 <= s < 2 ^ 16 -> 2 ^ 8 * cast_u8 (Z.shiftr s 8) + cast_u8 s = s.
Proof.
  intros R. unfold cast_u8. rewrite Z.shiftr_div_pow2 by lia. rewrite (Z.mod_small (s / 2 ^ 8)); [symmetry; apply Z.div_mod; lia|].
  split; [apply Z.div_pos; lia|]. apply Z.div_lt_upper_bound; lia.
Qed.

Section Programming.
Context {HW : Type} `{I2cMaster HW} `{TunerDelay HW} (m : Q3U4ReceiverMapping).

Definition known (chip : Rt710Chip) : Prop := chip = chip_rt710 \/ chip = chip_rt720.

Lemma low_bit_cast v : Z.land (cast_u8 v) 1 = Z.land v 1.
Proof. unfold cast_u8. rewrite <- (Z.land_ones v 8), <- Z.land_assoc by lia. reflexivity. Qed.
Lemma pll_divider_writes chip code : known chip -> In code [0; 1; 2; 3] ->
  exists l, let regs := image l (start_image chip) in writes_as m (pll_divider m chip code (start_image chip)) l regs /\
    divider_bits chip regs = divider_bits_of chip code /\ length regs = 16%nat /\ bytes_ok regs.
Proof.
  intros [->| ->] I; cbn in I; repeat (destruct I as [<-|I]; [eexists; split_and!;
    [unfold pll_divider; collect_writes|vm_compute; reflexivity|vm_compute; reflexivity|apply bytes_okb_ok; vm_compute; reflexivity]|]); destruct I.
Qed.

Lemma pll_fraction_writes vco regs : vco_min <= vco <= vco_max -> length regs = 16%nat ->
  exists l, let regs' := image l regs in writes_as m (pll_fraction m vco regs) l regs' /\ length regs' = 16%nat /\
    Z.abs (2 ^ 16 * vco - synthesized regs') <= 379 * 2 ^ 16 /\
    (off_integer vco = true -> Z.abs (2 ^ 16 * vco - synthesized regs') <= 5 * 2 ^ 16) /\
    Z.land (byte_at regs' 0x04) 1 = Z.land (byte_at regs 0x04) 1 /\ byte_at regs' 0x08 = byte_at regs 0x08.
Proof.
  unfold vco_min, vco_max. intros V L. unfold pll_fraction.
  assert (nint_of vco = vco / 48000) as N by (unfold nint_of, kXtalKHz; by rewrite Z.div_div by lia).
  assert (vco = 48000 * (vco / 48000) + vco mod 48000) as Dm by (apply Z.div_mod; lia).
  pose proof (Z.mod_pos_bound vco 48000 ltac:(lia)) as Rm. set (n := vco / 48000) in *. set (r := vco mod 48000) in *.
  assert (48 <= n <= 97) as Nb by lia. rewrite N.
  assert (cast_u32 (vco - kXtalKHz * 2 * n) = r) as -> by (unfold cast_u32, kXtalKHz; rewrite Z.mod_small; lia).
  pose proof (rounded_ok n r ltac:(unfold kXtalKHz; lia)) as Ro. destruct (rounded n r) as [n' f]. destruct Ro as (N' & F & Er & Wi).
  destruct (code_total f F) as (s & -> & S & C).
  pose proof (integer_code n' ltac:(lia)) as Ic. cbv zeta in Ic. pose proof (sdm_bytes s S) as Sb.
  assert (negb ((n <? 13) || (268 <? n)) = true) as G1 by (rewrite !(proj2 (Z.ltb_ge _ _)) by lia; done).
  assert (negb ((kXtalKHz * 127 / 64 <? r) && (n =? 268)) = true) as G2 by (rewrite (proj2 (Z.eqb_neq n 268)) by lia; by rewrite andb_false_r).
  rewrite G1, G2. do 16 (destruct regs as [|? regs]; [done|]). destruct regs; [|done].
  assert (Z.abs (2 ^ 16 * vco - 48000 * (2 ^ 16 * n' + s)) <= 379 * 2 ^ 16 /\
    (off_integer vco = true -> Z.abs (2 ^ 16 * vco - 48000 * (2 ^ 16 * n' + s)) <= 5 * 2 ^ 16)) as [A1 A2].
  { unfold code_error, kXtalKHz in C. unfold kXtalKHz in Er. split; [lia|]. unfold off_integer. change (2 * kXtalKHz) with 48000. fold r. intros O.
    assert (f = r /\ n' = n) as [-> ->]; [|lia]. apply Wi. rewrite orb_true_iff, !andb_true_iff, !Z.leb_le in O. exact O. }
  rewrite <- Sb, <- Ic in A1, A2. destruct (f =? 0).
  all: eexists; split_and!; [collect_writes|reflexivity|exact A1|exact A2| |reflexivity].
  all: cbn [byte_at nth]; try reflexivity. change (Z.land (cast_u8 (Z.lor z3 2)) 1 = Z.land z3 1). by rewrite low_bit_cast, Z.land_lor_distr_l, Z.lor_0_r.
Qed.
Definition record_frequency (f : Z) : Io (RtSt (HW := HW)) unit := set_tuner (fun t => t{{ frequency_khz_ := f }}).

Lemma set_pll_programs chip frequency : known chip -> 146875 <= frequency <= 2350000 ->
  exists l, let regs := image l (start_image chip) in PllSet chip frequency regs /\ length regs = 16%nat /\
    forall st, chip_ st.1 = chip ->
      set_pll m (start_image chip) frequency st = (_ ← record_frequency 0; _ ← writes_regs m l; _ ← record_frequency frequency; mret regs) st.
Proof.
  intros K R. destruct (mixer_total frequency R) as (d & I & Mx & V).
  destruct (pll_divider_writes chip (divider_code d) K) as (l1 & S1 & D1 & L1 & _); [cbn in I; repeat (destruct I as [<-|I]; [cbn; auto|]); destruct I|].
  destruct (pll_fraction_writes (frequency * d) (image l1 (start_image chip)) V L1) as (l2 & S2 & L2 & A1 & A2 & B4 & B8).
  pose proof (writes_as_bind m _ _ _ _ _ _ S1 S2) as S12. assert (image (l1 ++ l2) (start_image chip) = image l2 (image l1 (start_image chip))) as Ia by apply foldl_app.
  exists (l1 ++ l2). cbv zeta. rewrite Ia. split; [|split; [exact L2|]].
  - constructor. exists d. split; [exact Mx|]. split; [exact V|]. split; [|by split]. rewrite <- D1. unfold divider_bits. by rewrite B4, B8.
  - intros [t hw] E. cbn [fst] in E. unfold set_pll. rewrite Mx. rewrite (proj2 (Z.eqb_neq frequency 0)) by lia.
    rewrite (bind_success (set_tuner _) _ (t, hw) tt (t{{ frequency_khz_ := 0 }}, hw)) by reflexivity.
    rewrite (bind_success (require _ _) _ _ tt _) by reflexivity. cbn [negb].
    rewrite (bind_success tuner _ (t{{ frequency_khz_ := 0 }}, hw) (t{{ frequency_khz_ := 0 }}) (t{{ frequency_khz_ := 0 }}, hw)) by reflexivity.
    change (chip_ (t{{ frequency_khz_ := 0 }})) with (chip_ t). rewrite E.
    rewrite (bind_success (record_frequency 0) _ (t, hw) tt (t{{ frequency_khz_ := 0 }}, hw)) by reflexivity.
    specialize (S12 (t{{ frequency_khz_ := 0 }}, hw)). unfold mbind, Io_bind in S12 |- *.
    destruct (pll_divider m chip (divider_code d) (start_image chip) _) as [[[regs1|e1] s1]|]; [|by destruct (writes_regs m (l1 ++ l2) _) as [[[[]|] ?]|]; simplify_eq..].
    rewrite S12. by destruct (writes_regs m (l1 ++ l2) _) as [[[[]|] ?]|].
Qed.
End Programming.

(** ** The filter *)

Record FilterSet (chip : Rt710Chip) (symbol_rate rolloff : Z) (regs : list Z) : Prop := {
  filter_field : exists coarse fine, filter_code chip symbol_rate rolloff = Some (coarse, fine) /\ 0 <= coarse <= 63 /\ 0 <= fine <= 1 /\
    byte_at regs 0x0f = 4 * coarse + fine;
}.

Lemma find_bandwidth_codes l b : Forall (fun e => 0 <= coarse_code e <= 63 /\ 0 <= fine_code e <= 1) l ->
  match find_bandwidth l b with Some (c, f) => 0 <= c <= 63 /\ 0 <= f <= 1 | None => True end.
Proof. induction 1 as [|e l E _ IH]; [done|]. cbn. by destruct (_ <=? _). Qed.
Lemma bandwidth_codes : Forall (fun e => 0 <= coarse_code e <= 63 /\ 0 <= fine_code e <= 1) kBandwidth.
Proof. repeat (apply Forall_cons; split; [cbn; lia|]). constructor. Qed.
Lemma carry_range b : 0 <= carry b <= 1.
Proof. by destruct b. Qed.

Lemma rt720_coarse_nonneg s rolloff c : rt720_coarse s rolloff = Some c -> 0 <= c.
Proof.
  unfold rt720_coarse. cbv zeta. assert (0 <= rt720_range rolloff) as R by (unfold rt720_range; by destruct (_ <? _)).
  set (r := rt720_range rolloff) in *.
  destruct (Z.leb_spec s (88000 + r)); [by intros [= <-]|]. destruct (Z.leb_spec s (368000 + r)).
  - assert (0 <= (s - 88000 - r) / 20000) by (apply Z.div_pos; lia). pose proof (carry_range (negb ((s - 88000 - r) mod 20000 =? 0))).
    intros [= <-]. destruct (_ <? _); lia.
  - destruct (s <=? _); [|by intros [= <-]]. destruct (_ <? s); [done|]. assert (0 <= (s - 368000 - r) / 20000) by (apply Z.div_pos; lia).
    pose proof (carry_range (negb ((s + 25216 - r) mod 20000 =? 0))). intros [= <-].
    set (x := _ + carry _). assert (0 <= x) by (subst x; lia). unfold rt720_gaps. by repeat destruct (_ <=? x); lia.
Qed.

(** What was validated is what is programmed. *)
Lemma validated_filter chip symbol_rate rolloff rate coarse : known chip -> 0 <= symbol_rate -> 0 <= rolloff <= 5 ->
  validate_rate chip symbol_rate rolloff = success rate -> validate_coarse chip rate rolloff = success coarse -> coarse <= 63 ->
  exists fine, filter_code chip symbol_rate rolloff = Some (coarse, fine) /\ 0 <= coarse /\ 0 <= fine <= 1.
Proof.
  intros [->| ->] R O V C L.
  - unfold validate_rate in V. change (bool_decide (chip_rt710 = chip_rt720)) with false in V. cbn [andb] in V.
    change (adjusted_rate chip_rt710 symbol_rate) with symbol_rate in V.
    destruct (_ <? _); [done|]. destruct (_ =? _); [done|]. injection V as <-.
    unfold validate_coarse in C. unfold filter_code. change (bool_decide (chip_rt710 = chip_rt710)) with true in *. cbv iota in *.
    set (b := bandwidth_of symbol_rate rolloff) in *. destruct (Z.leb_spec 380000 b).
    + injection C as C. pose proof (carry_range (negb ((b - 380000) mod 17400 =? 0))).
      assert (0 <= (b - 380000) / 17400) by (apply Z.div_pos; lia).
      exists 1. split; [|lia]. do 2 f_equal. change 0xff with (Z.ones 8). rewrite Z.land_ones by lia. rewrite (Z.mod_small _ (2 ^ 8)) by lia.
      unfold cast_u8. rewrite Z.mod_small by lia. lia.
    + pose proof (find_bandwidth_codes kBandwidth b bandwidth_codes) as F. destruct (find_bandwidth kBandwidth b) as [[c f]|]; [|done].
      injection C as <-. exists f. cbn. split; [done|lia].
  - unfold validate_rate in V. change (bool_decide (chip_rt720 = chip_rt720)) with true in V. cbn [andb] in V.
    destruct (_ && _) eqn:G; [done|]. destruct (u32_max / _ <? _); [done|]. destruct (_ =? _); [done|]. destruct (u32_max / 12 <? _) eqn:T; [done|]. injection V as <-.
    unfold validate_coarse in C. unfold filter_code. change (bool_decide (chip_rt720 = chip_rt710)) with false in *.
    change (bool_decide (chip_rt720 = chip_rt720)) with true in *. cbv iota in *.
    assert (adjusted_rate chip_rt720 symbol_rate = if 15000 <=? symbol_rate then cast_u32 (symbol_rate + 6000) else symbol_rate) as Ar.
    { unfold adjusted_rate. change (bool_decide (chip_rt720 = chip_rt720)) with true. cbn [andb].
      destruct (15000 <=? symbol_rate); [|done]. cbn [andb] in G. unfold u32_max in G. unfold cast_u32. rewrite Z.mod_small by lia. done. }
    rewrite <- Ar. destruct (rt720_coarse _ rolloff) as [c|] eqn:Q; [|done]. injection C as <-.
    exists (if 1 <? rolloff then 1 else 0). split; [|split; [|by destruct (1 <? rolloff)]]; [|].
    + cbn. do 2 f_equal. unfold cast_u8. apply Z.mod_small. split; [by eapply rt720_coarse_nonneg|lia].
    + by eapply rt720_coarse_nonneg.
Qed.

Section Tuning.
Context {HW : Type} `{I2cMaster HW} `{TunerDelay HW} (m : Q3U4ReceiverMapping).

(** The band does not touch the synthesizer. *)
Lemma set_band_writes chip frequency regs : known chip -> length regs = 16%nat ->
  exists l, let regs' := image l regs in writes_as m (set_band m chip frequency regs) l regs' /\ length regs' = 16%nat /\
    divider_bits chip regs' = divider_bits chip regs /\ synthesized regs' = synthesized regs.
Proof.
  intros [->| ->] L; do 16 (destruct regs as [|? regs]; [done|]); (destruct regs; [|done]); unfold set_band;
    [change (bool_decide (chip_rt710 = chip_rt710)) with true; destruct (350000 <=? _), (1950000 <=? frequency), (2000000 <=? frequency)
    |change (bool_decide (chip_rt720 = chip_rt710)) with false];
    (eexists; split_and!; [collect_writes|reflexivity..]).
Qed.
Lemma set_filter_writes chip symbol_rate rolloff coarse fine regs : filter_code chip symbol_rate rolloff = Some (coarse, fine) ->
  0 <= coarse <= 63 -> 0 <= fine <= 1 -> length regs = 16%nat ->
  exists l, let regs' := image l regs in writes_as m (set_filter m chip symbol_rate rolloff regs) l regs' /\
    divider_bits chip regs' = divider_bits chip regs /\ synthesized regs' = synthesized regs /\ byte_at regs' 0x0f = 4 * coarse + fine.
Proof.
  intros E C F L. do 16 (destruct regs as [|? regs]; [done|]). destruct regs; [|done]. unfold set_filter. rewrite E.
  eexists. split_and!; [collect_writes|reflexivity..|]. change (cast_u8 (Z.lor (Z.shiftl coarse 2) (Z.land fine 3)) = 4 * coarse + fine).
  assert (fine = 0 \/ fine = 1) as [-> | ->] by lia; [change (Z.land 0 3) with 0|change (Z.land 1 3) with 1]; rewrite Z.lor_comm, lor_shiftl_add by lia;
    unfold cast_u8; rewrite Z.mod_small; lia.
Qed.
End Tuning.

(** ** Tuning *)

Section Tune.
Context {HW : Type} `{I2cMaster HW} `{TunerDelay HW} (m : Q3U4ReceiverMapping).

Lemma write_regs_keeps reg values (st : RtSt (HW := HW)) r st' : write_regs m reg values st = Some (r, st') -> st'.1 = st.1.
Proof.
  unfold write_regs, require, on_snd, mbind, Io_bind. destruct (negb _); [|by intros [= <- <-]]. unfold mret, Io_ret.
  match goal with |- context [downstream_request m ?q st.2] => destruct (downstream_request m q st.2) as [[[l|e] hw]|] end; [..|done]; by intros [= <- <-].
Qed.

Lemma validated chip frequency symbol_rate rolloff : known chip -> 0 <= symbol_rate -> 0 <= rolloff ->
  validate_params chip frequency symbol_rate rolloff = success tt ->
  146875 <= frequency <= 2350000 /\ exists coarse fine, filter_code chip symbol_rate rolloff = Some (coarse, fine) /\ 0 <= coarse <= 63 /\ 0 <= fine <= 1.
Proof.
  intros K R O. unfold validate_params. destruct (_ || _) eqn:G; [done|]. rewrite !orb_false_iff, !Z.ltb_ge, Z.eqb_neq in G.
  destruct (mixer frequency) as [[d vco]|]; [|done]. destruct (_ || _); [done|].
  destruct (validate_rate chip symbol_rate rolloff) as [rate|e] eqn:V; [|done]. destruct (negb _); [done|].
  destruct (validate_coarse chip rate rolloff) as [coarse|e] eqn:C; [|done]. destruct (Z.ltb_spec 63 coarse); [done|]. intros _.
  split; [lia|]. destruct (validated_filter chip symbol_rate rolloff rate coarse K R ltac:(lia) V C ltac:(lia)) as (fine & F & A & B). exists coarse, fine. split; [done|lia].
Qed.

End Tune.

(** A bus that logs what it is asked for, and a BS transponder. *)
Definition Recorder : Type := list (list BridgeI2cRequest) * Z.
#[export] Instance recorder_master : I2cMaster Recorder := {
  i2c_request l hw := Some (success l, (hw.1 ++ [l], hw.2)) }.
#[export] Instance recorder_delay : TunerDelay Recorder := { sleep_ms ms hw := (hw.1, hw.2 + ms) }.
Definition identified (chip : Rt710Chip) : Rt710 := mkRt710 chip true 0.

Example bs_transponder_runs :
  (fun r => (fst r, frequency_khz_ (snd r).1, length (snd r).2.1, (snd r).2.2)) <$>
    set_params satellite_0 1049480 28860 4 (identified chip_rt720, ([], 0)) = Some (success tt, 1049480, 11%nat, 10).
Proof. vm_compute. reflexivity. Qed.

