(* ===== verification/Q3u4Frontend.v ===== *)
(** The frontends of one bridge ([src/q3u4_frontend.cpp/.h], [Q3U4FrontendBank]):
    two satellite and two terrestrial receivers that share power.  The chips, the
    purge of the packet buffer, the delays and the power authority are an interface of calls
    that may answer anything. *)

From coqutil Require Import Datatypes.RecordSetters.
From S2P Require Import Prelude IoMonad Tc90522.

Import DoubleBraceUpdate.
Open Scope Z_scope.

(** * Data *)

Inductive Q3U4ReceiverState := closed | open | tuned | capturing.
#[export] Instance Q3U4ReceiverState_eq_dec : EqDecision Q3U4ReceiverState.
Proof. solve_decision. Defined.

Inductive DiagnosticStage :=
  | DS_none | backend_power_on
  | tuner_initialize_rt710_0 | tuner_initialize_rt710_1 | tuner_initialize_r850_0 | tuner_initialize_r850_1
  | frontend_sleep_rt710_0 | frontend_sleep_rt710_1 | frontend_sleep_r850_0 | frontend_sleep_r850_1
  | selected_tc_init_writes | satellite_selected_tc_init_writes | ts_pin_disable | satellite_ts_pin_disable
  | ts_pin_enable | satellite_ts_pin_enable | DS_psb_purge | cleanup_ts_pin_disable | cleanup_satellite_ts_pin_disable
  | demod_wake | satellite_demod_wake | selected_r850_wake | r850_system_set | shared_s0 | shared_t0
  | tune_tc47 | agc_off | tc76 | DS_r850_set_frequency | pll_poll
  | satellite_agc_off | satellite_mode_registers | satellite_set_params | satellite_pll_poll | satellite_agc_on
  | satellite_demod_lock | satellite_slot_tmcc | satellite_slot_set | satellite_slot_verify | agc_on | tc71_72_75
  | cleanup_tuner_terminate | cleanup_power_off | DS_open | DS_tuned | DS_closed.

Record Bank := mkBank {
  tuner_initialized_ : list bool;
  receiver_state_ : list Q3U4ReceiverState;
  satellite_selected_ : list bool;
  selected_tsid_ : list Z;
  current_stage_ : DiagnosticStage;
  failure_stage_ : DiagnosticStage;
  operation_failed_ : bool;
  disconnected_ : bool;
}.
Definition new_bank : Bank :=
  mkBank (replicate 4 false) (replicate 4 closed) (replicate 4 false) (replicate 4 0) DS_none DS_none false false.

Definition kTcInitTValues : list (Z * Z) :=
  [(0xb0, 0xa0); (0xb2, 0x3d); (0xb3, 0x25); (0xb4, 0x8b); (0xb5, 0x4b); (0xb6, 0x3f); (0xb7, 0xff); (0xb8, 0xc0); (0x1f, 0x00); (0x75, 0x00)].
Definition kTcInitSValues : list (Z * Z) := [(0x15, 0x00); (0x1d, 0x00); (0x04, 0x02)].
Definition kSharedS0 : list (Z * Z) := [(0x07, 0x31); (0x08, 0x77)].
Definition kSharedT0 : list (Z * Z) := [(0x0e, 0x77); (0x0f, 0x13)].

(** The tuners are numbered as the demodulators: 0 and 1 are [rt710_], 2 and 3 are [r850_]. *)
Inductive DevCall : Type -> Type :=
  | tc_write_multiple_regs (i : nat) (values : list (Z * Z)) : DevCall unit
  | tc_write_reg (i : nat) (reg value : Z) : DevCall unit
  | tc_enable_ts_pins (system : Tc90522System) (i : nat) (enable : bool) : DevCall unit
  | tc_sleep (system : Tc90522System) (i : nat) (asleep : bool) : DevCall unit
  | tc_set_agc (system : Tc90522System) (i : nat) (on : bool) : DevCall unit
  | tc_set_tsid_s (i : nat) (tsid : Z) : DevCall unit
  | tc_get_tsid_s (i : nat) : DevCall Z
  | tc_tmcc_get_tsid_s (i : nat) (slot : Z) : DevCall Z
  | tc_is_signal_locked (system : Tc90522System) (i : nat) : DevCall bool
  | tuner_initialize (i : nat) : DevCall unit
  | tuner_terminate (i : nat) : DevCall unit
  | tuner_sleep (i : nat) : DevCall unit
  | tuner_is_pll_locked (i : nat) : DevCall bool
  | rt710_set_params (i : nat) (frequency_khz symbol_rate rolloff : Z) : DevCall unit
  | r850_wakeup (i : nat) : DevCall unit
  | r850_set_system (i : nat) (if_frequency_khz : Z) : DevCall unit
  | r850_set_frequency (i : nat) (frequency_khz : Z) : DevCall unit
  | delay_sleep_ms (milliseconds : Z) : DevCall unit
  | psb_purge : DevCall unit
  | power_acquire (global_receiver : Z) : DevCall unit
  | power_release (global_receiver : Z) : DevCall unit.

Class BankDevices (D : Type) := { dev_call : forall A, DevCall A -> Io D A }.
Arguments dev_call {D _ A} _ _.
(** * Helpers *)

Definition combine_errors (first : Error) (result : Result unit) : Error :=
  match result with
  | success _ => first
  | failure e => if bool_decide (e = DISCONNECTED) then DISCONNECTED else if bool_decide (first = OK) then e else first
  end.
Definition remember_first (first : Error) (result : Result unit) : Error :=
  let first := match result with failure e => if bool_decide (first = OK) then e else first | success _ => first end in
  match result with failure e => if bool_decide (e = DISCONNECTED) then DISCONNECTED else first | success _ => first end.
(** [first == OK ? success : failure(first)]. *)
Definition outcome_of (first : Error) : Result unit := if bool_decide (first = OK) then success tt else failure first.

Definition valid_local_receiver (local_receiver : Z) : bool := local_receiver <? 4.
Definition receiver_index (local_receiver : Z) : nat := Z.to_nat local_receiver.
Definition is_closed (s : Q3U4ReceiverState) : bool := bool_decide (s = closed).
Definition is_capturing (s : Q3U4ReceiverState) : bool := bool_decide (s = capturing).
Definition state_of (b : Bank) (i : nat) : Q3U4ReceiverState := nth i (receiver_state_ b) closed.
Definition any_open_locked (b : Bank) : bool := existsb (fun s => negb (is_closed s)) (receiver_state_ b).
Definition any_other_open_locked (b : Bank) (i : nat) : bool :=
  existsb (fun j => negb (Nat.eqb j i) && negb (is_closed (state_of b j))) (seq 0 4).
Definition any_capturing_locked (b : Bank) : bool := existsb is_capturing (receiver_state_ b).
Definition system_of (i : nat) : Tc90522System := if Nat.ltb i 2 then TC_isdb_s else TC_isdb_t.

Definition initialize_stage (i : nat) : DiagnosticStage :=
  nth i [tuner_initialize_rt710_0; tuner_initialize_rt710_1; tuner_initialize_r850_0; tuner_initialize_r850_1] DS_none.
Definition sleep_stage (i : nat) : DiagnosticStage :=
  nth i [frontend_sleep_rt710_0; frontend_sleep_rt710_1; frontend_sleep_r850_0; frontend_sleep_r850_1] DS_none.
Definition for_system {A} (system : Tc90522System) (s t : A) : A := match system with TC_isdb_s => s | TC_isdb_t => t end.

Definition set_receiver_state (i : nat) (s : Q3U4ReceiverState) (b : Bank) : Bank := b{{ receiver_state_ ::= <[i := s]> }}.
(** [receiver_state_[i] = s; satellite_selected_[i] = false; selected_tsid_[i] = 0]. *)
Definition reset_receiver (i : nat) (s : Q3U4ReceiverState) (b : Bank) : Bank :=
  b{{ receiver_state_ ::= <[i := s]>; satellite_selected_ ::= <[i := false]>; selected_tsid_ ::= <[i := 0]> }}.

Section Bank.
Context {D : Type} `{BankDevices D} (global_base_ : Z) (has_purger : bool).

Definition BankSt : Type := Bank * D.
Definition bank : Io BankSt Bank := gets fst.
Definition set_bank (f : Bank -> Bank) : Io BankSt unit := modify (fun st => (f st.1, st.2)).
Definition dev {A} (c : DevCall A) : Io BankSt A := on_snd (dev_call c).

Definition begin_operation : Io BankSt unit := set_bank (fun b => b{{ operation_failed_ := false; failure_stage_ := DS_none }}).
Definition attempt_stage (stage : DiagnosticStage) : Io BankSt unit := set_bank (fun b => b{{ current_stage_ := stage }}).
Definition remember_failure {A} (r : Result A) : Io BankSt unit :=
  set_bank (fun b => if is_success r || operation_failed_ b then b else b{{ failure_stage_ := current_stage_ b; operation_failed_ := true }}).
(** [if (!result) remember_failure(result)], and the rest only where it succeeded. *)
Definition remembered {A} (m : Io BankSt A) : Io BankSt A := r ← attempt m; _ ← remember_failure r; from_result r.
Definition staged {A} (stage : DiagnosticStage) (m : Io BankSt A) : Io BankSt A := _ ← attempt_stage stage; remembered m.

Definition acquire_power (local_receiver : Z) : Io BankSt unit := dev (power_acquire (cast_u8 (global_base_ + local_receiver))).
Definition release_power (local_receiver : Z) : Io BankSt unit := dev (power_release (cast_u8 (global_base_ + local_receiver))).

Definition sleep_frontend (i : nat) : Io BankSt unit :=
  _ ← attempt_stage (sleep_stage i);
  _ ← remembered (dev (tuner_sleep i));
  remembered (dev (tc_sleep (system_of i) i true)).

Fixpoint terminate_loop (indices : list nat) (first : Error) : Io BankSt unit :=
  match indices with
  | [] => from_result (outcome_of first)
  | i :: indices =>
      b ← bank;
      if nth i (tuner_initialized_ b) false then
        _ ← attempt_stage cleanup_tuner_terminate;
        result ← attempt (dev (tuner_terminate i));
        _ ← remember_failure result;
        _ ← set_bank (fun b => b{{ tuner_initialized_ ::= <[i := false]> }});
        terminate_loop indices (remember_first first result)
      else terminate_loop indices first
  end.
Definition terminate_initialized : Io BankSt unit := terminate_loop [3; 2; 1; 0]%nat OK.

Definition wake_frontend (i : nat) (system : Tc90522System) : Io BankSt unit :=
  match system with
  | TC_isdb_t =>
      _ ← staged selected_tc_init_writes (dev (tc_write_multiple_regs i kTcInitTValues));
      _ ← staged ts_pin_disable (dev (tc_enable_ts_pins TC_isdb_t i false));
      _ ← staged demod_wake (dev (tc_sleep TC_isdb_t i false));
      _ ← staged selected_r850_wake (dev (r850_wakeup i));
      staged r850_system_set (dev (r850_set_system i 4063))
  | TC_isdb_s =>
      _ ← staged satellite_selected_tc_init_writes (dev (tc_write_multiple_regs i kTcInitSValues));
      _ ← staged satellite_ts_pin_disable (dev (tc_enable_ts_pins TC_isdb_s i false));
      staged satellite_demod_wake (dev (tc_sleep TC_isdb_s i false))
  end.
Definition write_shared_initialization : Io BankSt unit :=
  _ ← staged shared_s0 (dev (tc_write_multiple_regs 0 kSharedS0));
  staged shared_t0 (dev (tc_write_multiple_regs 2 kSharedT0)).

Definition disable_capture (i : nat) (system : Tc90522System) : Io BankSt unit :=
  _ ← staged (for_system system cleanup_satellite_ts_pin_disable cleanup_ts_pin_disable) (dev (tc_enable_ts_pins system i false));
  set_bank (set_receiver_state i tuned).

Definition cleanup_open_failure (local_receiver : Z) (first_open : bool) (primary : Error) : Io BankSt unit :=
  let i := receiver_index local_receiver in
  cleaned ← attempt (if first_open then terminate_initialized else sleep_frontend i);
  let final_error := combine_errors primary cleaned in
  release ← attempt (release_power local_receiver);
  let final_error := match release with failure e => if bool_decide (final_error = OK) then e else final_error | success _ => final_error end in
  _ ← set_bank (reset_receiver i closed);
  fail final_error.

(** ** Opening *)

Fixpoint initialize_tuners (indices : list nat) : Io BankSt unit :=
  match indices with
  | [] => mret tt
  | i :: indices =>
      _ ← staged (initialize_stage i) (dev (tuner_initialize i));
      _ ← set_bank (fun b => b{{ tuner_initialized_ ::= <[i := true]> }});
      initialize_tuners indices
  end.
Fixpoint sleep_others (indices : list nat) (local : nat) : Io BankSt unit :=
  match indices with
  | [] => mret tt
  | i :: indices =>
      if Nat.eqb i local then sleep_others indices local
      else _ ← sleep_frontend i; sleep_others indices local
  end.
(** [if (!result) return cleanup_open_failure(...)]; the failure [OK] of the first loop is none. *)
Definition or_cleanup (local_receiver : Z) (first_open ok_is_none : bool) (m : Io BankSt unit) (k : Io BankSt unit) : Io BankSt unit :=
  r ← attempt m;
  match r with
  | success _ => k
  | failure e => if ok_is_none && bool_decide (e = OK) then k else cleanup_open_failure local_receiver first_open e
  end.

Definition open_receiver (local_receiver : Z) (system : Tc90522System) : Io BankSt unit :=
  let i := receiver_index local_receiver in
  _ ← begin_operation;
  b ← bank;
  _ ← require (negb (disconnected_ b)) DISCONNECTED;
  _ ← require (valid_local_receiver local_receiver) INVALID_ARGUMENT;
  _ ← require (bool_decide (system = system_of i)) UNSUPPORTED;
  _ ← require (is_closed (state_of b i)) BUSY;
  let first_open := negb (any_open_locked b) in
  _ ← remembered (acquire_power local_receiver);
  let finish :=
    or_cleanup local_receiver first_open false (wake_frontend i system)
      (let done :=
         _ ← set_bank (reset_receiver i open);
         attempt_stage DS_open in
       if first_open then or_cleanup local_receiver true false write_shared_initialization done else done) in
  if first_open then
    or_cleanup local_receiver true true (initialize_tuners [0; 1; 2; 3]%nat)
      (or_cleanup local_receiver true false (sleep_others [0; 1; 2; 3]%nat i) finish)
  else finish.
Definition open_terrestrial (local_receiver : Z) : Io BankSt unit := open_receiver local_receiver TC_isdb_t.
Definition open_satellite (local_receiver : Z) : Io BankSt unit := open_receiver local_receiver TC_isdb_s.

(** ** Tuning *)

(** The loops that wait for the PLL; the result says whether it locked, and the last error. *)
Fixpoint poll_pll (i : nat) (timeout_ms : Z) (polls : nat) (elapsed_ms : Z) (last_error : Error) : Io BankSt (bool * Error) :=
  match polls with
  | O => mret (false, last_error)
  | S polls =>
      status ← attempt (dev (tuner_is_pll_locked i));
      match status with
      | success true => mret (true, last_error)
      | _ =>
          let last_error := match status with failure e => e | success _ => OK end in
          if (timeout_ms <? elapsed_ms) || (timeout_ms - elapsed_ms <? 10) then mret (false, last_error)
          else
            _ ← dev (delay_sleep_ms 10);
            poll_pll i timeout_ms polls (cast_u32 (elapsed_ms + 10)) last_error
      end
  end.
Definition max_polls (timeout_ms : Z) : nat := Z.to_nat (cast_u32 (timeout_ms + 9) / 10).
Definition timeout_or (e : Error) : Error := if bool_decide (e = OK) then TIMEOUT else e.
Definition wait_for_pll (i : nat) (timeout_ms : Z) : Io BankSt unit :=
  locked ← poll_pll i timeout_ms (max_polls timeout_ms) 0 OK;
  if (locked.1 : bool) then mret tt
  else remembered (fail (timeout_or locked.2)).
Definition mark_tuned (i : nat) : Io BankSt unit :=
  _ ← set_bank (set_receiver_state i tuned);
  attempt_stage DS_tuned.

Definition tune_t (i : nat) (frequency_khz timeout_ms : Z) : Io BankSt unit :=
  _ ← staged tune_tc47 (dev (tc_write_reg i 0x47 0x30));
  _ ← staged agc_off (dev (tc_set_agc TC_isdb_t i false));
  _ ← staged tc76 (dev (tc_write_reg i 0x76 0x0c));
  _ ← staged DS_r850_set_frequency (dev (r850_set_frequency i frequency_khz));
  _ ← attempt_stage pll_poll;
  _ ← wait_for_pll i timeout_ms;
  _ ← staged agc_on (dev (tc_set_agc TC_isdb_t i true));
  _ ← staged tc71_72_75 (dev (tc_write_reg i 0x71 0x21));
  _ ← remembered (dev (tc_write_reg i 0x72 0x25));
  _ ← remembered (dev (tc_write_reg i 0x75 0x08));
  mark_tuned i.
Definition tune_s (i : nat) (frequency_khz timeout_ms : Z) : Io BankSt unit :=
  _ ← staged satellite_agc_off (dev (tc_set_agc TC_isdb_s i false));
  _ ← staged satellite_mode_registers (dev (tc_write_reg i 0x8e 0x06));
  _ ← remembered (dev (tc_write_reg i 0xa3 0xf7));
  _ ← staged satellite_set_params (dev (rt710_set_params i frequency_khz 28860 4));
  _ ← attempt_stage satellite_pll_poll;
  _ ← wait_for_pll i timeout_ms;
  _ ← staged satellite_agc_on (dev (tc_set_agc TC_isdb_s i true));
  mark_tuned i.

Definition tune_receiver (local_receiver frequency_khz : Z) (system : Tc90522System) (timeout_ms : Z) : Io BankSt unit :=
  let i := receiver_index local_receiver in
  _ ← begin_operation;
  b ← bank;
  _ ← require (negb (disconnected_ b)) DISCONNECTED;
  _ ← require (valid_local_receiver local_receiver) INVALID_ARGUMENT;
  _ ← require (bool_decide (system = system_of i)) UNSUPPORTED;
  _ ← require (negb (is_closed (state_of b i))) NOT_READY;
  _ ← require (negb (is_capturing (state_of b i))) BUSY;
  match system with TC_isdb_t => tune_t i frequency_khz timeout_ms | TC_isdb_s => tune_s i frequency_khz timeout_ms end.
Definition tune_terrestrial_with_timeout (local_receiver frequency_khz timeout_ms : Z) : Io BankSt unit :=
  tune_receiver local_receiver frequency_khz TC_isdb_t timeout_ms.
Definition tune_terrestrial (local_receiver frequency_khz : Z) : Io BankSt unit := tune_terrestrial_with_timeout local_receiver frequency_khz 500.
Definition tune_satellite_with_timeout (local_receiver frequency_khz timeout_ms : Z) : Io BankSt unit :=
  tune_receiver local_receiver frequency_khz TC_isdb_s timeout_ms.
Definition tune_satellite (local_receiver frequency_khz : Z) : Io BankSt unit := tune_satellite_with_timeout local_receiver frequency_khz 500.

(** ** The transport stream of a satellite transponder *)

(** A loop that reads until the value is the one that is waited for, and waits
    between two readings while the time lasts. *)
Fixpoint poll_value (c : DevCall Z) (wanted : Z -> bool) (timeout_ms : Z) (polls : nat) (count elapsed_ms : Z) (last_error : Error) :
    Io BankSt (option Z * Z * Error) :=
  match polls with
  | O => mret (None, elapsed_ms, last_error)
  | S polls =>
      value ← attempt (dev c);
      match value with
      | success v =>
          if wanted v then mret (Some v, elapsed_ms, last_error)
          else if (count + 1) * 10 <=? timeout_ms then
            _ ← dev (delay_sleep_ms 10); poll_value c wanted timeout_ms polls (count + 1) (cast_u32 (elapsed_ms + 10)) OK
          else poll_value c wanted timeout_ms polls (count + 1) elapsed_ms OK
      | failure e =>
          if (count + 1) * 10 <=? timeout_ms then
            _ ← dev (delay_sleep_ms 10); poll_value c wanted timeout_ms polls (count + 1) (cast_u32 (elapsed_ms + 10)) e
          else poll_value c wanted timeout_ms polls (count + 1) elapsed_ms e
      end
  end.
Definition poll_until (c : DevCall Z) (wanted : Z -> bool) (timeout_ms : Z) : Io BankSt (option Z * Z * Error) :=
  poll_value c wanted timeout_ms (Z.to_nat (timeout_ms / 10 + 1)) 0 0 OK.

Definition select_satellite_tsid_locked (i : nat) (tsid timeout_ms : Z) : Io BankSt unit :=
  _ ← staged satellite_slot_set (dev (tc_set_tsid_s i tsid));
  _ ← attempt_stage satellite_slot_verify;
  polled ← poll_until (tc_get_tsid_s i) (fun v => v =? tsid) timeout_ms;
  match polled with
  | (None, _, e) => remembered (fail (timeout_or e))
  | (Some _, _, _) =>
      _ ← set_bank (fun b => b{{ selected_tsid_ ::= <[i := tsid]>; satellite_selected_ ::= <[i := true]> }});
      attempt_stage satellite_demod_lock
  end.

Definition select_satellite_slot_with_timeout (local_receiver slot timeout_ms : Z) : Io BankSt unit :=
  let i := receiver_index local_receiver in
  _ ← begin_operation;
  b ← bank;
  _ ← require (negb (disconnected_ b)) DISCONNECTED;
  _ ← require (valid_local_receiver local_receiver && (local_receiver <? 2)) UNSUPPORTED;
  _ ← require (slot <? 12) INVALID_ARGUMENT;
  _ ← require (bool_decide (state_of b i = tuned)) NOT_READY;
  _ ← attempt_stage satellite_slot_tmcc;
  polled ← poll_until (tc_tmcc_get_tsid_s i slot) (fun v => negb (v =? 0)) timeout_ms;
  match polled with
  | (None, _, e) => remembered (fail (timeout_or e))
  | (Some tsid, elapsed_ms, _) =>
      let remaining_ms := if elapsed_ms <? timeout_ms then timeout_ms - elapsed_ms else 0 in
      select_satellite_tsid_locked i tsid remaining_ms
  end.
Definition select_satellite_slot (local_receiver slot : Z) : Io BankSt unit := select_satellite_slot_with_timeout local_receiver slot 1000.
Definition select_satellite_tsid_with_timeout (local_receiver tsid timeout_ms : Z) : Io BankSt unit :=
  let i := receiver_index local_receiver in
  _ ← begin_operation;
  b ← bank;
  _ ← require (negb (disconnected_ b)) DISCONNECTED;
  _ ← require (valid_local_receiver local_receiver && (local_receiver <? 2)) INVALID_ARGUMENT;
  _ ← require (bool_decide (state_of b i = tuned)) NOT_READY;
  select_satellite_tsid_locked i tsid timeout_ms.
Definition select_satellite_tsid (local_receiver tsid : Z) : Io BankSt unit := select_satellite_tsid_with_timeout local_receiver tsid 1000.

(** ** Capturing *)

Definition start_capture (local_receiver : Z) (system : Tc90522System) : Io BankSt unit :=
  let i := receiver_index local_receiver in
  _ ← begin_operation;
  b ← bank;
  _ ← require (negb (disconnected_ b)) DISCONNECTED;
  _ ← require (valid_local_receiver local_receiver) INVALID_ARGUMENT;
  _ ← require (bool_decide (system = system_of i)) UNSUPPORTED;
  _ ← require (bool_decide (state_of b i = tuned)) NOT_READY;
  _ ← require (negb (bool_decide (system = TC_isdb_s) && negb (nth i (satellite_selected_ b) false))) NOT_READY;
  _ ← (if negb (any_capturing_locked b) && has_purger then staged DS_psb_purge (dev psb_purge) else mret tt);
  _ ← attempt_stage (for_system system satellite_ts_pin_enable ts_pin_enable);
  match system with
  | TC_isdb_s =>
      _ ← set_bank (set_receiver_state i capturing);
      remembered (dev (tc_enable_ts_pins TC_isdb_s i true))
  | TC_isdb_t =>
      _ ← remembered (dev (tc_enable_ts_pins TC_isdb_t i true));
      set_bank (set_receiver_state i capturing)
  end.
Definition start_terrestrial_capture (local_receiver : Z) : Io BankSt unit := start_capture local_receiver TC_isdb_t.
Definition start_satellite_capture (local_receiver : Z) : Io BankSt unit := start_capture local_receiver TC_isdb_s.

Definition stop_capture (local_receiver : Z) (system : Tc90522System) : Io BankSt unit :=
  let i := receiver_index local_receiver in
  _ ← begin_operation;
  b ← bank;
  _ ← require (negb (disconnected_ b)) DISCONNECTED;
  _ ← require (valid_local_receiver local_receiver) INVALID_ARGUMENT;
  _ ← require (bool_decide (system = system_of i)) UNSUPPORTED;
  _ ← require (is_capturing (state_of b i)) NOT_READY;
  disable_capture i system.
Definition stop_terrestrial_capture (local_receiver : Z) : Io BankSt unit := stop_capture local_receiver TC_isdb_t.
Definition stop_satellite_capture (local_receiver : Z) : Io BankSt unit := stop_capture local_receiver TC_isdb_s.

Definition is_locked (local_receiver : Z) (system : Tc90522System) : Io BankSt bool :=
  let i := receiver_index local_receiver in
  b ← bank;
  _ ← require (negb (disconnected_ b)) DISCONNECTED;
  _ ← require (valid_local_receiver local_receiver) INVALID_ARGUMENT;
  _ ← require (bool_decide (system = system_of i)) UNSUPPORTED;
  _ ← require (negb (is_closed (state_of b i))) NOT_READY;
  match system with
  | TC_isdb_s => _ ← attempt_stage satellite_demod_lock; dev (tc_is_signal_locked TC_isdb_s i)
  | TC_isdb_t => dev (tc_is_signal_locked TC_isdb_t i)
  end.
Definition is_terrestrial_locked (local_receiver : Z) : Io BankSt bool := is_locked local_receiver TC_isdb_t.
Definition is_satellite_locked (local_receiver : Z) : Io BankSt bool := is_locked local_receiver TC_isdb_s.

(** ** Closing *)

Definition close_receiver (local_receiver : Z) : Io BankSt unit :=
  let i := receiver_index local_receiver in
  _ ← begin_operation;
  b ← bank;
  if disconnected_ b then
    _ ← set_bank (fun b => if valid_local_receiver local_receiver then reset_receiver i closed b else b);
    fail DISCONNECTED
  else
    _ ← require (valid_local_receiver local_receiver) INVALID_ARGUMENT;
    _ ← require (negb (is_closed (state_of b i))) INVALID_ARGUMENT;
    first ← (if is_capturing (state_of b i) then stopped ← attempt (disable_capture i (system_of i)); mret (remember_first OK stopped) else mret OK);
    b ← bank;
    asleep ← attempt (if any_other_open_locked b i then sleep_frontend i else terminate_initialized);
    let first := remember_first first asleep in
    _ ← set_bank (reset_receiver i closed);
    _ ← attempt_stage cleanup_power_off;
    release ← attempt (release_power local_receiver);
    let first := remember_first first release in
    _ ← remember_failure release;
    _ ← (if bool_decide (first = OK) then attempt_stage DS_closed else mret tt);
    from_result (outcome_of first).

Definition mark_disconnected : Io BankSt unit :=
  set_bank (fun b => b{{ disconnected_ := true; receiver_state_ := replicate 4 closed; satellite_selected_ := replicate 4 false;
                         selected_tsid_ := replicate 4 0; current_stage_ := DS_closed }}).

(** The destructor. *)
Fixpoint cleanup_loop (locals : list Z) (first : Error) : Io BankSt unit :=
  match locals with
  | [] => from_result (outcome_of first)
  | local :: locals =>
      b ← bank;
      if disconnected_ b || is_closed (state_of b (receiver_index local)) then cleanup_loop locals first
      else result ← attempt (close_receiver local); cleanup_loop locals (remember_first first result)
  end.
Definition cleanup : Io BankSt unit := cleanup_loop [0; 1; 2; 3] OK.
End Bank.

(** ** Queries *)

Definition receiver_state (b : Bank) (local_receiver : Z) : Q3U4ReceiverState :=
  if negb (valid_local_receiver local_receiver) then closed
  else if disconnected_ b then closed else state_of b (receiver_index local_receiver).
Definition capture_active (b : Bank) (local_receiver : Z) : bool := is_capturing (receiver_state b local_receiver).
Definition selected_tsid (b : Bank) (local_receiver : Z) : Z :=
  if negb (valid_local_receiver local_receiver) then 0
  else if disconnected_ b then 0 else nth (receiver_index local_receiver) (selected_tsid_ b) 0.
Definition terrestrial_loop_through (b : Bank) (local_receiver : Z) : Result bool :=
  if negb (valid_local_receiver local_receiver) || (local_receiver <? 2) then failure INVALID_ARGUMENT
  else if disconnected_ b then failure DISCONNECTED else success (local_receiver =? 2).
Definition diagnostic_stage (b : Bank) : DiagnosticStage := if operation_failed_ b then failure_stage_ b else current_stage_ b.
Definition record_cleanup_power_off_failure (b : Bank) : Bank :=
  let b := b{{ current_stage_ := cleanup_power_off }} in
  if operation_failed_ b then b else b{{ failure_stage_ := current_stage_ b; operation_failed_ := true }}.
