(* ===== verification/Q3u4FrontendProtocol.v ===== *)
(** The contract of [Q3u4Frontend]: a watcher of the calls to the chips and to the
    power authority, the agreement between what it has seen and what the bank has recorded,
    and the rules by which the operations are proved against them. *)

From coqutil Require Import Datatypes.RecordSetters.
From S2P Require Import Prelude IoMonad Tc90522 Q3u4Frontend.

Import DoubleBraceUpdate.
Open Scope Z_scope.

(** * The watcher *)

Definition upd {A} (i : nat) (v : A) (f : nat -> A) : nat -> A := fun j => if Nat.eqb j i then v else f j.

Record Watch := mkWatch {
  target : nat;           (* the receiver that the current operation is for *)
  budget : Z;             (* the time it may still spend waiting *)
  held : nat -> bool;     (* the power references *)
  inited : nat -> bool;   (* the tuners that are initialised *)
  locked : nat -> bool;   (* the synthesizer has locked since the receiver was opened *)
  requested : nat -> option Z;  (* the stream that was last asked for *)
  verified : nat -> bool; (* such a request has been read back *)
  pins : nat -> bool;     (* the stream may be coming out *)
  purged : bool;          (* the last call has emptied the packet buffer *)
  gone : bool;            (* the bridge is lost *)
}.
Definition new_watch : Watch := mkWatch 0 0 (fun _ => false) (fun _ => false) (fun _ => false) (fun _ => None) (fun _ => false) (fun _ => false) false false.

Definition powered (w : Watch) : bool := existsb (held w) (seq 0 4).
Definition all_inited (w : Watch) : bool := forallb (inited w) (seq 0 4).
Definition other_held (w : Watch) (i : nat) : bool := existsb (fun j => negb (Nat.eqb j i) && held w j) (seq 0 4).
Definition any_pins (w : Watch) : bool := existsb (pins w) (seq 0 4).

Section Watcher.
Context (base : Z) (has_purger : bool).

(** The chips are powered and initialised. *)
Definition up (w : Watch) : bool := negb (gone w) && powered w && all_inited w.
(** A receiver is touched by its own operations only, or while it is not in use. *)
Definition may_touch (i : nat) (w : Watch) : bool := up w && Nat.ltb i 4 && (Nat.eqb i (target w) || negb (held w i)).
Definition operates (i : nat) (w : Watch) : bool := up w && Nat.eqb i (target w) && held w i.
Definition of_system (system : Tc90522System) (i : nat) : bool := bool_decide (system = system_of i).

Definition lawful {A} (c : DevCall A) (w : Watch) : bool :=
  match c with
  | tc_write_multiple_regs i _ => may_touch i w
  | tc_write_reg i _ _ => operates i w
  | tc_enable_ts_pins s i false => of_system s i && operates i w
  | tc_enable_ts_pins s i true => of_system s i && operates i w && locked w i
      && (negb (bool_decide (s = TC_isdb_s)) || verified w i) && (negb has_purger || any_pins w || purged w)
  | tc_sleep s i _ => of_system s i && may_touch i w
  | tc_set_agc s i _ => of_system s i && operates i w
  | tc_set_tsid_s i _ | tc_get_tsid_s i | tc_tmcc_get_tsid_s i _ => Nat.ltb i 2 && operates i w
  | tc_is_signal_locked s i => of_system s i && operates i w
  | tuner_initialize i => negb (gone w) && held w (target w) && negb (other_held w (target w)) && Nat.ltb i 4
  | tuner_terminate i => negb (gone w) && held w (target w) && negb (other_held w (target w)) && inited w i
  | tuner_sleep i => may_touch i w
  | tuner_is_pll_locked i => operates i w
  | rt710_set_params i _ _ _ => Nat.ltb i 2 && operates i w
  | r850_wakeup i | r850_set_system i _ | r850_set_frequency i _ => Nat.leb 2 i && operates i w
  | delay_sleep_ms ms => operates (target w) w && (0 <=? ms) && (ms <=? budget w)
  | psb_purge => has_purger && operates (target w) w && negb (any_pins w)
  | power_acquire g => negb (gone w) && (g =? cast_u8 (base + Z.of_nat (target w))) && Nat.ltb (target w) 4 && negb (held w (target w))
  | power_release g => negb (gone w) && (g =? cast_u8 (base + Z.of_nat (target w))) && held w (target w)
      && (other_held w (target w) || negb (existsb (inited w) (seq 0 4)))
  end.

Definition effect {A} (c : DevCall A) : Result A -> Watch -> Watch :=
  match c in DevCall A return Result A -> Watch -> Watch with
  | tc_enable_ts_pins s i true => fun r w => if bool_decide (s = TC_isdb_s) || is_success r then w{{ pins ::= upd i true }} else w
  | tc_enable_ts_pins s i false => fun r w => if is_success r then w{{ pins ::= upd i false }} else w
  | tc_set_tsid_s i v => fun r w => w{{ requested ::= upd i (Some v) }}
  | tc_get_tsid_s i => fun r w => match r with
      | success v => if bool_decide (requested w i = Some v) then w{{ verified ::= upd i true }} else w
      | failure _ => w
      end
  | tuner_initialize i => fun r w => if is_success r then w{{ inited ::= upd i true }} else w
  | tuner_terminate i => fun r w => w{{ inited ::= upd i false }}
  | tuner_is_pll_locked i => fun r w => match r with success true => w{{ locked ::= upd i true }} | _ => w end
  | delay_sleep_ms ms => fun r w => w{{ budget := budget w - ms }}
  | psb_purge => fun r w => w{{ purged := is_success r }}
  | power_acquire _ => fun r w => if is_success r
      then w{{ held ::= upd (target w) true; locked ::= upd (target w) false; verified ::= upd (target w) false; pins ::= upd (target w) false }} else w
  | power_release _ => fun r w =>
      w{{ held ::= upd (target w) false; locked ::= upd (target w) false; verified ::= upd (target w) false; pins ::= upd (target w) false }}
  | _ => fun r w => w
  end.

(** [None]: an unlawful call was made. *)
Definition watch {A} (c : DevCall A) (r : Result A) (w : Watch) : option Watch :=
  if lawful c w then Some (effect c r (w{{ purged := false }})) else None.

Definition Watched (D : Type) : Type := D * option Watch.
#[export] Instance watched_devices {D} `{BankDevices D} : BankDevices (Watched D) := {
  dev_call A c st :=
    match dev_call c st.1 with
    | None => None
    | Some (r, d) => Some (r, (d, match st.2 with Some w => watch c r w | None => None end))
    end }.
End Watcher.

(** * The operations of a client *)

Inductive BankOp :=
  | Op_open (system : Tc90522System) (local : Z)
  | Op_tune (system : Tc90522System) (local frequency_khz timeout_ms : Z)
  | Op_slot (local slot timeout_ms : Z)
  | Op_tsid (local tsid timeout_ms : Z)
  | Op_start (system : Tc90522System) (local : Z)
  | Op_stop (system : Tc90522System) (local : Z)
  | Op_is_locked (system : Tc90522System) (local : Z)
  | Op_close (local : Z)
  | Op_lost.

Definition op_local (op : BankOp) : Z :=
  match op with
  | Op_open _ l | Op_tune _ l _ _ | Op_slot l _ _ | Op_tsid l _ _ | Op_start _ l | Op_stop _ l | Op_is_locked _ l | Op_close l => l
  | Op_lost => 0
  end.
(** How long an operation may wait. *)
Definition op_timeout (op : BankOp) : Z :=
  match op with Op_tune _ _ _ t | Op_slot _ _ t | Op_tsid _ _ t => t | _ => 0 end.
Definition op_ok (op : BankOp) : Prop := 0 <= op_local op /\ is_u32 (op_timeout op).

Section Operations.
Context {D : Type} `{BankDevices D} (base : Z) (has_purger : bool).

Definition run_op (op : BankOp) : Io (BankSt (D := D)) unit :=
  match op with
  | Op_open s l => open_receiver base l s
  | Op_tune s l f t => tune_receiver l f s t
  | Op_slot l n t => select_satellite_slot_with_timeout l n t
  | Op_tsid l v t => select_satellite_tsid_with_timeout l v t
  | Op_start s l => start_capture has_purger l s
  | Op_stop s l => stop_capture l s
  | Op_is_locked s l => _ ← is_locked l s; mret tt
  | Op_close l => close_receiver base l
  | Op_lost => mark_disconnected
  end.
End Operations.

(** The watcher is told what begins. *)
Definition announce (op : BankOp) (w : Watch) : Watch :=
  match op with
  | Op_lost => w{{ gone := true }}
  | _ => w{{ target := receiver_index (op_local op); budget := op_timeout op }}
  end.

Section Run.
Context {D : Type} `{BankDevices D} (base : Z) (has_purger : bool).
#[local] Existing Instance watched_devices.

Fixpoint run_bank (ops : list BankOp) (st : BankSt (D := Watched D)) : option (BankSt (D := Watched D)) :=
  match ops with
  | [] => Some st
  | op :: ops =>
      match run_op (H := watched_devices base has_purger) base has_purger op (st.1, (st.2.1, announce op <$> st.2.2)) with
      | None => None
      | Some (_, st) => run_bank ops st
      end
  end.
End Run.

(** * Agreement *)

(** What the watcher knows of a receiver is what the bank has recorded. *)
Definition recv_agrees (b : Bank) (w : Watch) (j : nat) : Prop :=
  pins w j = is_capturing (state_of b j) /\
  (state_of b j = tuned \/ state_of b j = capturing -> locked w j = true) /\
  (nth j (satellite_selected_ b) false = true -> verified w j = true).
Definition ref_agrees (b : Bank) (w : Watch) (j : nat) : Prop := held w j = negb (is_closed (state_of b j)).

Record Shape (b : Bank) (w : Watch) : Prop := {
  sh_inits : length (tuner_initialized_ b) = 4%nat;
  sh_states : length (receiver_state_ b) = 4%nat;
  sh_selected : length (satellite_selected_ b) = 4%nat;
  sh_tsids : length (selected_tsid_ b) = 4%nat;
  sh_gone : gone w = disconnected_ b;
}.
Record Agree (b : Bank) (w : Watch) : Prop := {
  ag_shape : Shape b w;
  ag_alive : disconnected_ b = false -> forall j, (j < 4)%nat ->
    ref_agrees b w j /\ recv_agrees b w j /\ inited w j = nth j (tuner_initialized_ b) false /\ inited w j = any_open_locked b;
}.

(** * What is called

    It returns as long as the calls are lawful, and a failure is not [OK].  What it
    relies on may follow the references that are held. *)

Class BankDevicesLaws (base : Z) (has_purger : bool) (D : Type) `{BankDevices D} := {
  dev_lives : D -> Watch -> Prop;
  dev_returns : forall A (c : DevCall A) d w, dev_lives d w -> lawful base has_purger c w = true ->
    exists r d', dev_call c d = Some (r, d') /\ dev_lives d' (effect c r (w{{ purged := false }})) /\ r <> failure OK;
}.

(** Between two operations. *)
Class BankDevicesStable (base : Z) (has_purger : bool) (D : Type) `{BankDevicesLaws base has_purger D} := {
  dev_same : forall d w w', held w' = held w -> gone w' = gone w -> dev_lives d w -> dev_lives d w';
  dev_lost : forall d w, dev_lives d w -> dev_lives d (w{{ gone := true }});
}.

(** * Computations under the contract

    The watch is what the proof knows of the past; [watched_laws] makes it an observer
    that has seen every call. *)

Section Watching.
Context {base : Z} {has_purger : bool} {D : Type} {H : BankDevices D} {H0 : BankDevicesLaws base has_purger D}.

(** The computation ends without an unlawful call. *)
Definition wp {A} (m : Io (BankSt (D := D)) A) (b : Bank) (w : Watch) (Q : Result A -> Bank -> Watch -> Prop) : Prop :=
  forall d, dev_lives d w -> exists r b' d' w', m (b, d) = Some (r, (b', d')) /\ dev_lives d' w' /\ Q r b' w'.

Lemma wp_ret {A} (a : A) b w (Q : Result A -> Bank -> Watch -> Prop) : Q (success a) b w -> wp (mret a) b w Q.
Proof. intros q d L. by exists (success a), b, d, w. Qed.
Lemma wp_from_result {A} (r : Result A) b w (Q : Result A -> Bank -> Watch -> Prop) : Q r b w -> wp (from_result r) b w Q.
Proof. intros q d L. by exists r, b, d, w. Qed.
Lemma wp_fail {A} e b w (Q : Result A -> Bank -> Watch -> Prop) : Q (failure e) b w -> wp (fail e) b w Q.
Proof. intros q d L. by exists (failure e), b, d, w. Qed.
Lemma wp_require c e b w (Q : Result unit -> Bank -> Watch -> Prop) :
  (c = false -> Q (failure e) b w) -> (c = true -> Q (success tt) b w) -> wp (require c e) b w Q.
Proof. intros F T. unfold require. destruct c; [by apply wp_ret, T|by apply wp_fail, F]. Qed.
Lemma wp_mono {A} (m : Io _ A) b w (Q Q' : Result A -> Bank -> Watch -> Prop) :
  wp m b w Q -> (forall r b' w', Q r b' w' -> Q' r b' w') -> wp m b w Q'.
Proof. intros W I d L. destruct (W d L) as (r & b' & d' & w' & E & L' & q). exists r, b', d', w'. auto. Qed.
Lemma wp_bind {A B} (m : Io _ A) (k : A -> Io _ B) b w (Q : Result B -> Bank -> Watch -> Prop) :
  wp m b w (fun r b' w' => match r with success a => wp (k a) b' w' Q | failure e => Q (failure e) b' w' end) -> wp (m ≫= k) b w Q.
Proof.
  intros W d L. destruct (W d L) as (r & b1 & d1 & w1 & E & L1 & q). destruct r as [a|e].
  - destruct (q d1 L1) as (r2 & b2 & d2 & w2 & E2 & L2 & q2). exists r2, b2, d2, w2. by rewrite (bind_success _ _ _ _ _ E).
  - exists (failure e), b1, d1, w1. by rewrite (bind_failure _ _ _ _ _ E).
Qed.
Lemma wp_attempt {A} (m : Io _ A) b w (Q : Result (Result A) -> Bank -> Watch -> Prop) :
  wp m b w (fun r b' w' => Q (success r) b' w') -> wp (attempt m) b w Q.
Proof. intros W d L. destruct (W d L) as (r & b1 & d1 & w1 & E & L1 & q). exists (success r), b1, d1, w1. unfold attempt. by rewrite E. Qed.
Lemma wp_bank b w (Q : Result Bank -> Bank -> Watch -> Prop) : Q (success b) b w -> wp bank b w Q.
Proof. intros q d L. by exists (success b), b, d, w. Qed.
Lemma wp_set_bank f b w (Q : Result unit -> Bank -> Watch -> Prop) : Q (success tt) (f b) w -> wp (set_bank f) b w Q.
Proof. intros q d L. by exists (success tt), (f b), d, w. Qed.
Lemma wp_dev {A} (c : DevCall A) b w (Q : Result A -> Bank -> Watch -> Prop) :
  lawful base has_purger c w = true -> (forall r, r <> failure OK -> Q r b (effect c r (w{{ purged := false }}))) -> wp (dev c) b w Q.
Proof.
  intros G q d L. destruct (dev_returns A c d w L G) as (r & d' & E & L' & N). exists r, b, d', (effect c r (w{{ purged := false }})).
  split; [|split; [done|by apply q]]. unfold dev, on_snd. cbn [fst snd]. by rewrite E.
Qed.
End Watching.

(** * What leaves the agreement alone *)

(** Only the diagnostics differ. *)
Record same_core (b b' : Bank) : Prop := {
  sc_inits : tuner_initialized_ b' = tuner_initialized_ b;
  sc_states : receiver_state_ b' = receiver_state_ b;
  sc_selected : satellite_selected_ b' = satellite_selected_ b;
  sc_tsids : selected_tsid_ b' = selected_tsid_ b;
  sc_gone : disconnected_ b' = disconnected_ b;
}.
(** More may have locked and been verified. *)
Record calm (w w' : Watch) : Prop := {
  ca_target : target w' = target w;
  ca_held : held w' = held w;
  ca_inited : inited w' = inited w;
  ca_pins : forall j, pins w' j = pins w j;
  ca_gone : gone w' = gone w;
  ca_locked : forall j, locked w j = true -> locked w' j = true;
  ca_verified : forall j, verified w j = true -> verified w' j = true;
}.

Lemma same_core_refl b : same_core b b.
Proof. by constructor. Qed.
Lemma same_core_trans b1 b2 b3 : same_core b1 b2 -> same_core b2 b3 -> same_core b1 b3.
Proof. intros [] []. constructor; congruence. Qed.
Lemma calm_refl w : calm w w.
Proof. by constructor. Qed.
Lemma calm_trans w1 w2 w3 : calm w1 w2 -> calm w2 w3 -> calm w1 w3.
Proof. intros [? ? ? P1 ? L1 V1] [? ? ? P2 ? L2 V2]. constructor; try congruence; auto. Qed.
Lemma calm_unpurged w : calm w (w{{ purged := false }}).
Proof. by constructor. Qed.
#[export] Hint Resolve same_core_refl calm_refl calm_unpurged : px4.

Lemma operates_calm i w w' : calm w w' -> operates i w = true -> operates i w' = true.
Proof. intros [T Hh I _ G _ _]. unfold operates, up, powered, all_inited. by rewrite T, Hh, I, G. Qed.
Lemma may_touch_calm i w w' : calm w w' -> may_touch i w = true -> may_touch i w' = true.
Proof. intros [T Hh I _ G _ _]. unfold may_touch, up, powered, all_inited. by rewrite T, Hh, I, G. Qed.
Lemma operates_touch i w : (i < 4)%nat -> operates i w = true -> may_touch i w = true.
Proof.
  unfold operates, may_touch. intros L O. rewrite !andb_true_iff in O. destruct O as [[-> ->] _]. by rewrite (proj2 (Nat.ltb_lt _ _) L).
Qed.

Lemma agree_calm b b' w w' : Agree b w -> same_core b b' -> calm w w' -> Agree b' w'.
Proof.
  intros [[? ? ? ? Go] Al] [Ci Cs Cl Ct Cg] [T Hh I P G L V]. constructor.
  - constructor; congruence.
  - rewrite Cg. intros N j J. destruct (Al N j J) as (R & (A1 & A2 & A3) & In1 & In2).
    unfold ref_agrees, recv_agrees, any_open_locked, state_of in *. rewrite Ci, Cs, Cl, Hh, P, I. split_and!; auto.
Qed.

Section Quiet.
Context {base : Z} {has_purger : bool} {D : Type} {H : BankDevices D} {H0 : BankDevicesLaws base has_purger D}.

(** A computation that only talks to the chips. *)
Definition quiet {A} (G : Watch -> Prop) (m : Io (BankSt (D := D)) A) : Prop :=
  forall b w, G w -> wp m b w (fun r b' w' => same_core b b' /\ calm w w' /\ budget w' = budget w).
Definition stable (G : Watch -> Prop) : Prop := forall w w', calm w w' -> G w -> G w'.
Definition calls {A} (G : Watch -> Prop) (c : DevCall A) : Prop :=
  forall w, G w -> lawful base has_purger c w = true /\ forall r, calm w (effect c r w) /\ budget (effect c r w) = budget w.

Lemma wp_remembered {A} (m : Io _ A) b w (Q : Result A -> Bank -> Watch -> Prop) :
  wp m b w (fun r b' w' => forall b2, same_core b' b2 -> Q r b2 w') -> wp (remembered m) b w Q.
Proof.
  intros Wm. unfold remembered. apply wp_bind, wp_attempt. eapply wp_mono; [exact Wm|]. intros r b' w' q. apply wp_bind, wp_set_bank, wp_from_result, q.
  destruct (is_success r || operation_failed_ b'); by constructor.
Qed.
Lemma wp_staged {A} s (m : Io _ A) b w (Q : Result A -> Bank -> Watch -> Prop) :
  wp m (b{{ current_stage_ := s }}) w (fun r b' w' => forall b2, same_core b' b2 -> Q r b2 w') ->
  wp (staged s m) b w Q.
Proof. intros Wm. unfold staged. apply wp_bind, wp_set_bank, wp_remembered, Wm. Qed.

Lemma quiet_dev {A} G (c : DevCall A) : stable G -> calls G c -> quiet G (dev c).
Proof.
  intros St C b w g. destruct (C w g) as [L _]. apply wp_dev; [done|]. intros r _.
  destruct (C (w{{ purged := false }}) (St _ _ (calm_unpurged w) g)) as [_ E]. destruct (E r) as [E1 E2].
  split; [by constructor|]. split; [by eapply calm_trans; [apply calm_unpurged|]|exact E2].
Qed.
Lemma quiet_staged {A} G s (m : Io _ A) : quiet G m -> quiet G (staged s m).
Proof.
  intros Qm b w g. apply wp_staged. eapply wp_mono; [by apply Qm|]. intros r b' w' (C & Ca & B) b2 C2.
  split; [|by split]. eapply same_core_trans; [|exact C2]. by destruct C; constructor.
Qed.
Lemma quiet_remembered {A} G (m : Io _ A) : quiet G m -> quiet G (remembered m).
Proof.
  intros Qm b w g. apply wp_remembered. eapply wp_mono; [by apply Qm|]. intros r b' w' (C & Ca & B) b2 C2.
  split; [by eapply same_core_trans|by split].
Qed.
Lemma quiet_attempt_stage G s : quiet G (attempt_stage (D := D) s).
Proof. intros b w g. apply wp_set_bank. split; [by constructor|]. split; [apply calm_refl|done]. Qed.
Lemma quiet_ret {A} G (a : A) : quiet G (mret a).
Proof. intros b w g. apply wp_ret. split; [by constructor|]. split; [apply calm_refl|done]. Qed.
Lemma quiet_bind {A B} G (m : Io _ A) (k : A -> Io _ B) : stable G -> quiet G m -> (forall a, quiet G (k a)) -> quiet G (m ≫= k).
Proof.
  intros St Qm Qk b w g. apply wp_bind. eapply wp_mono; [by apply Qm|]. intros [a|e] b1 w1 (C & Ca & B1); [|by split].
  eapply wp_mono; [by apply Qk; eapply St|]. intros r b2 w2 (C2 & Ca2 & B2). split; [by eapply same_core_trans|]. split; [by eapply calm_trans|congruence].
Qed.
(** One more call after others. *)
Lemma wp_quiet {A B} G (m : Io _ A) (k : A -> Io _ B) b0 w0 b w (Q : Result B -> Bank -> Watch -> Prop) : stable G -> quiet G m ->
  same_core b0 b -> calm w0 w -> budget w = budget w0 -> G w ->
  (forall e b' w', same_core b0 b' -> calm w0 w' -> Q (failure e) b' w') ->
  (forall a b' w', same_core b0 b' -> calm w0 w' -> budget w' = budget w0 -> G w' -> wp (k a) b' w' Q) ->
  wp (m ≫= k) b w Q.
Proof.
  intros St Qm C Ca Bu g F T. apply wp_bind. eapply wp_mono; [by apply Qm|]. intros r b' w' (C' & Ca' & Bu').
  assert (same_core b0 b') by (by eapply same_core_trans). assert (calm w0 w') by (by eapply calm_trans).
  destruct r as [a|e]; [|by apply F]. apply T; [done|done|congruence|by apply (St w)].
Qed.
End Quiet.

(** Goes through a sequence of calls. *)
Ltac quietly St C := repeat first
  [ apply quiet_staged | apply quiet_remembered | apply quiet_attempt_stage | apply quiet_ret
  | apply quiet_dev; [exact St|C] | apply quiet_bind; [exact St| |intros] ].

Definition operating (i : nat) (w : Watch) : Prop := operates i w = true.
Lemma stable_operating i : stable (operating i).
Proof. intros w w' C. by apply operates_calm. Qed.
Definition beside (i j : nat) (w : Watch) : Prop := operates i w = true /\ may_touch j w = true.
Lemma stable_beside i j : stable (beside i j).
Proof. intros w w' C [O M]. split; [by eapply operates_calm|by eapply may_touch_calm]. Qed.

(** * Agreement: lemmas *)

Lemma nth_insert {A} (l : list A) (i j : nat) (v d : A) : (i < length l)%nat -> nth j (<[i := v]> l) d = if Nat.eqb j i then v else nth j l d.
Proof.
  intros L. rewrite !nth_lookup. destruct (Nat.eqb_spec j i) as [->|N]; [by rewrite list_lookup_insert_eq|by rewrite list_lookup_insert_ne].
Qed.
Lemma any_open_iff b : length (receiver_state_ b) = 4%nat -> (any_open_locked b = true <-> exists j, (j < 4)%nat /\ state_of b j <> closed).
Proof.
  unfold any_open_locked, state_of, is_closed. intros L. destruct (receiver_state_ b) as [|s0 [|s1 [|s2 [|s3 []]]]]; try done. cbn. split.
  - rewrite !orb_true_iff, !negb_true_iff, !bool_decide_eq_false. intros [?|[?|[?|[?|?]]]]; [exists 0%nat|exists 1%nat|exists 2%nat|exists 3%nat|done]; by (split; [lia|]).
  - intros (j & J & N). rewrite !orb_true_iff, !negb_true_iff, !bool_decide_eq_false. destruct j as [|[|[|[|]]]]; cbn in N; auto; lia.
Qed.
Lemma forallb_four (f : nat -> bool) : forallb f (seq 0 4) = true <-> forall j, (j < 4)%nat -> f j = true.
Proof. rewrite forallb_forall. split; intros F j J; apply F; [apply in_seq; lia|]. apply in_seq in J. lia. Qed.
Lemma existsb_four (f : nat -> bool) : existsb f (seq 0 4) = true <-> exists j, (j < 4)%nat /\ f j = true.
Proof. rewrite existsb_exists. split; intros (j & J & F); exists j; (split; [|done]); [apply in_seq in J; lia|apply in_seq; lia]. Qed.
Lemma existsb_four_false (f : nat -> bool) : existsb f (seq 0 4) = false <-> forall j, (j < 4)%nat -> f j = false.
Proof.
  rewrite <- not_true_iff_false, existsb_four. split; [|intros F (j & J & E); by rewrite F in E].
  intros N j J. apply not_true_iff_false. intros E. apply N. eauto.
Qed.
Lemma other_open_iff b i : any_other_open_locked b i = true <-> exists j, (j < 4)%nat /\ j <> i /\ state_of b j <> closed.
Proof.
  unfold any_other_open_locked. rewrite existsb_four. split; intros (j & J & P); exists j; (split; [done|]).
  - apply andb_true_iff in P as [P1 P2]. apply negb_true_iff, Nat.eqb_neq in P1. apply negb_true_iff in P2. unfold is_closed in P2. by apply bool_decide_eq_false in P2.
  - destruct P as [P1 P2]. rewrite (proj2 (Nat.eqb_neq _ _) P1). unfold is_closed. by rewrite bool_decide_eq_false_2.
Qed.
Lemma upd_eq {A} i (v : A) f : upd i v f i = v.
Proof. unfold upd. by rewrite Nat.eqb_refl. Qed.
Lemma upd_ne {A} i j (v : A) f : j <> i -> upd i v f j = f j.
Proof. intros N. unfold upd. by rewrite (proj2 (Nat.eqb_neq _ _) N). Qed.

Lemma agree_operating b w i : Agree b w -> disconnected_ b = false -> (i < 4)%nat -> target w = i -> state_of b i <> closed -> operating i w.
Proof.
  intros [Sh Al] N I T S. specialize (Al N). unfold operating, operates, up, powered, all_inited.
  rewrite (sh_gone _ _ Sh), N, T, Nat.eqb_refl. assert (held w i = true) as Hi.
  { destruct (Al i I) as (R & _). rewrite R. unfold is_closed. by rewrite bool_decide_eq_false_2. }
  rewrite Hi. rewrite (proj2 (existsb_four _)) by eauto. rewrite (proj2 (forallb_four _)); [done|].
  intros j J. destruct (Al j J) as (_ & _ & _ & ->). apply any_open_iff; [apply Sh|]. eauto.
Qed.
Lemma state_set b i s j : length (receiver_state_ b) = 4%nat -> (i < 4)%nat -> state_of (set_receiver_state i s b) j = if Nat.eqb j i then s else state_of b j.
Proof. intros L I. unfold state_of. change (receiver_state_ (set_receiver_state i s b)) with (<[i := s]> (receiver_state_ b)). apply nth_insert. lia. Qed.
Lemma agree_set_state b w i s : Agree b w -> disconnected_ b = false -> (i < 4)%nat -> state_of b i <> closed -> s <> closed ->
  (s = tuned \/ s = capturing -> locked w i = true) ->
  forall v, v = is_capturing s -> Agree (set_receiver_state i s b) (w{{ pins ::= upd i v }}).
Proof.
  intros [[L1 L2 L3 L4 Go] Al] N I So S Lk v Pi. specialize (Al N).
  assert (length (receiver_state_ (set_receiver_state i s b)) = 4%nat) as L2' by (rewrite <- L2; apply length_insert).
  assert (any_open_locked (set_receiver_state i s b) = any_open_locked b) as Ao.
  { transitivity true; [|symmetry]; apply any_open_iff; try done; [exists i; rewrite state_set, Nat.eqb_refl by done; done|eauto]. }
  constructor; [by constructor|]. intros _ j J. rewrite Ao. destruct (Al j J) as (R & (A1 & A2 & A3) & In1 & In2).
  unfold ref_agrees, recv_agrees. rewrite state_set by done.
  change (pins (w{{ pins ::= upd i v }})) with (upd i v (pins w)). destruct (Nat.eqb_spec j i) as [->|Ne].
  - rewrite upd_eq. split; [|split; [|done]].
    + change (held w i = negb (is_closed s)). rewrite R. unfold is_closed. by rewrite !bool_decide_eq_false_2.
    + split; [done|]. split; [exact Lk|exact A3].
  - rewrite upd_ne by done. done.
Qed.
Lemma state_same b b' j : same_core b b' -> state_of b' j = state_of b j.
Proof. intros C. unfold state_of. by rewrite (sc_states _ _ C). Qed.

(** A call that needs no more than its guard. *)
Ltac harmless w := split; [|intros r; split; [by constructor|reflexivity]].
