(* ===== verification/Q3u4FrontendSafety.v ===== *)
(** Every operation of [Q3u4Frontend] keeps to the contract of
    [Q3u4FrontendProtocol], and so does every sequence of them. *)

From coqutil Require Import Datatypes.RecordSetters.
From S2P Require Import Prelude IoMonad Tc90522 Q3u4Frontend Q3u4FrontendProtocol.

Import DoubleBraceUpdate.
Open Scope Z_scope.

Section Operations.
Context {base : Z} {has_purger : bool} {D : Type} {H : BankDevices D} {H0 : BankDevicesLaws base has_purger D}.

(** What an operation leaves. *)
Definition agreeing {A} (r : Result A) (b : Bank) (w : Watch) : Prop := Agree b w.

Lemma wp_begin b w (Q : Result unit -> Bank -> Watch -> Prop) :
  (forall b', same_core b b' -> Q (success tt) b' w) -> wp (begin_operation (D := D)) b w Q.
Proof. intros q. apply wp_set_bank, q. by constructor. Qed.

(** ** Calls to the chips of a receiver in use *)

Lemma of_system_self i : of_system (system_of i) i = true.
Proof. apply bool_decide_eq_true. done. Qed.

Lemma quiet_sleep i j : quiet (H0 := H0) (beside i j) (sleep_frontend (D := D) j).
Proof.
  unfold sleep_frontend. quietly (stable_beside i j) ltac:(intros w [O M]; split; [|intros r; split; [by constructor|done]]).
  - exact M.
  - cbn. rewrite of_system_self. exact M.
Qed.

Section Receiver.
Context (i : nat) (I : (i < 4)%nat).

Lemma quiet_system {A} (c : DevCall A) s : (forall w, lawful base has_purger c w = of_system s i && operates i w) -> (forall r w, effect c r w = w) -> s = system_of i ->
  quiet (H0 := H0) (operating i) (dev c).
Proof.
  intros G E ->. apply quiet_dev; [apply stable_operating|]. intros w O. rewrite G, of_system_self. split; [exact O|]. intros r. rewrite E. split; [apply calm_refl|done].
Qed.
Lemma quiet_plain {A} (c : DevCall A) : (forall w, operates i w = true -> lawful base has_purger c w = true) -> (forall r w, effect c r w = w) ->
  quiet (H0 := H0) (operating i) (dev c).
Proof. intros G E. apply quiet_dev; [apply stable_operating|]. intros w O. split; [by apply G|]. intros r. rewrite E. split; [apply calm_refl|done]. Qed.

Lemma quiet_write_reg reg v : quiet (H0 := H0) (operating i) (dev (tc_write_reg i reg v)).
Proof. by apply quiet_plain. Qed.
Lemma quiet_set_agc s on : s = system_of i -> quiet (H0 := H0) (operating i) (dev (tc_set_agc s i on)).
Proof. by apply quiet_system. Qed.
Lemma quiet_is_signal_locked s : s = system_of i -> quiet (H0 := H0) (operating i) (dev (tc_is_signal_locked s i)).
Proof. by apply quiet_system. Qed.
Lemma quiet_r850_set_frequency f : TC_isdb_t = system_of i -> quiet (H0 := H0) (operating i) (dev (r850_set_frequency i f)).
Proof.
  intros S. apply quiet_plain; [|done]. intros w O. change (Nat.leb 2 i && operates i w = true). rewrite O.
  unfold system_of in S. destruct (Nat.ltb_spec i 2); [done|]. by rewrite (proj2 (Nat.leb_le 2 i)).
Qed.
Lemma satellite_index : TC_isdb_s = system_of i -> Nat.ltb i 2 = true.
Proof. unfold system_of. by destruct (Nat.ltb i 2). Qed.
Lemma quiet_rt710_set_params f s r : TC_isdb_s = system_of i -> quiet (H0 := H0) (operating i) (dev (rt710_set_params i f s r)).
Proof. intros S. apply quiet_plain; [|done]. intros w O. change (Nat.ltb i 2 && operates i w = true). by rewrite O, (satellite_index S). Qed.

(** ** Waiting *)

Lemma delay_lawful w ms : operates i w = true -> 0 <= ms <= budget w -> lawful base has_purger (delay_sleep_ms ms) w = true.
Proof.
  intros O B. change (operates (target w) w && (0 <=? ms) && (ms <=? budget w) = true).
  assert (target w = i) as -> by (unfold operates in O; rewrite !andb_true_iff, Nat.eqb_eq in O; by destruct O as [[_ ->] _]).
  rewrite O, !(proj2 (Z.leb_le _ _)) by lia. done.
Qed.
Lemma wp_delay ms b w (Q : Result unit -> Bank -> Watch -> Prop) : operates i w = true -> 0 <= ms <= budget w ->
  (forall r w', calm w w' -> budget w' = budget w - ms -> requested w' = requested w -> Q r b w') -> wp (dev (delay_sleep_ms ms)) b w Q.
Proof.
  intros O B q. apply wp_dev; [by apply delay_lawful|]. intros r _. apply q; [by constructor|done..].
Qed.

Lemma wp_poll_pll timeout polls : forall elapsed last b w, operates i w = true -> is_u32 timeout -> 0 <= elapsed -> elapsed <= timeout ->
  timeout - elapsed <= budget w ->
  wp (poll_pll (D := D) i timeout polls elapsed last) b w (fun r b' w' => same_core b b' /\ calm w w' /\
    match r with success (true, _) => locked w' i = true | _ => True end).
Proof.
  induction polls as [|polls IH]; intros elapsed last b w O T E1 E2 B; cbn [poll_pll].
  { apply wp_ret. split; [apply same_core_refl|]. split; [apply calm_refl|done]. }
  apply wp_bind, wp_attempt, wp_dev; [exact O|]. intros r _.
  set (w1 := effect (tuner_is_pll_locked i) r (w{{ purged := false }})).
  assert (calm w w1) as Ca.
  { subst w1. destruct r as [[]|e]; try (by constructor). constructor; try done. intros j L. change (upd i true (locked w) j = true).
    unfold upd. by destruct (Nat.eqb j i). }
  assert (budget w1 = budget w) as B1 by (subst w1; by destruct r as [[]|e]).
  assert (forall last, wp (if (timeout <? elapsed) || (timeout - elapsed <? 10) then mret (false, last)
      else _ ← dev (delay_sleep_ms 10); poll_pll i timeout polls (cast_u32 (elapsed + 10)) last) b w1
      (fun r b' w' => same_core b b' /\ calm w w' /\ match r with success (true, _) => locked w' i = true | _ => True end)) as Rest.
  { intros last'. destruct (Z.ltb_spec timeout elapsed); [lia|]. destruct (Z.ltb_spec (timeout - elapsed) 10); cbn [orb].
    - apply wp_ret. split; [apply same_core_refl|]. by split.
    - apply wp_bind. apply wp_delay; [by eapply operates_calm|lia|]. intros r' w2 Ca2 B2 _. destruct r' as [[]|e].
      2:{ split; [apply same_core_refl|]. split; [by eapply calm_trans|done]. }
      assert (cast_u32 (elapsed + 10) = elapsed + 10) as -> by (unfold cast_u32; apply Z.mod_small; width_lia).
      eapply wp_mono; [apply IH; [|done|lia|lia|lia]|].
      + eapply operates_calm; [|exact O]. by eapply calm_trans.
      + intros r3 b3 w3 (C3 & Ca3 & L3). split; [done|]. split; [|done]. eapply calm_trans; [exact Ca|]. by eapply calm_trans. }
  destruct r as [[]|e]; [|apply Rest..]. apply wp_ret. split; [apply same_core_refl|]. split; [exact Ca|].
  change (upd i true (locked w) i = true). apply upd_eq.
Qed.
Lemma wp_wait timeout b w : operates i w = true -> is_u32 timeout -> timeout <= budget w ->
  wp (wait_for_pll (D := D) i timeout) b w (fun r b' w' => same_core b b' /\ calm w w' /\ match r with success _ => locked w' i = true | _ => True end).
Proof.
  intros O T B. unfold wait_for_pll. apply wp_bind. eapply wp_mono; [apply wp_poll_pll; try done; width_lia|].
  intros [[[] last]|e] b1 w1 (C & Ca & L); [by apply wp_ret|..|done].
  apply wp_remembered, wp_fail. intros b2 C2. split; [by eapply same_core_trans|done].
Qed.

Lemma wp_poll_value c wanted timeout (P : Z -> Watch -> Prop) (rq : option Z) :
  (forall w, operates i w = true -> lawful base has_purger c w = true) ->
  (forall r w, calm w (effect c r w) /\ budget (effect c r w) = budget w /\ requested (effect c r w) = requested w) ->
  (forall v w, wanted v = true -> requested w i = rq -> P v (effect c (success v) w)) ->
  forall polls count elapsed last b w, operates i w = true -> is_u32 timeout -> 0 <= elapsed <= timeout -> elapsed <= count * 10 -> timeout - elapsed <= budget w ->
  requested w i = rq ->
  wp (poll_value (D := D) c wanted timeout polls count elapsed last) b w (fun r b' w' => same_core b b' /\ calm w w' /\
    match r with success (Some v, e, _) => P v w' /\ 0 <= e <= timeout /\ timeout - e <= budget w' | _ => True end).
Proof.
  intros C Ef HP. induction polls as [|polls IH]; intros count elapsed last b w O T E1 E2 B R; cbn [poll_value].
  { apply wp_ret. split; [apply same_core_refl|]. split; [apply calm_refl|done]. }
  apply wp_bind, wp_attempt, wp_dev; [by apply C|]. intros r _.
  set (w0 := w{{ purged := false }}). destruct (Ef r w0) as (Ca0 & B1 & R1). set (w1 := effect c r w0) in *.
  assert (calm w w1) as Ca by (eapply calm_trans; [apply calm_unpurged|exact Ca0]).
  assert (forall last, wp (if (count + 1) * 10 <=? timeout
      then _ ← dev (delay_sleep_ms 10); poll_value c wanted timeout polls (count + 1) (cast_u32 (elapsed + 10)) last
      else poll_value c wanted timeout polls (count + 1) elapsed last) b w1
      (fun r b' w' => same_core b b' /\ calm w w' /\ match r with success (Some v, e, _) => P v w' /\ 0 <= e <= timeout /\ timeout - e <= budget w' | _ => True end)) as Rest.
  { intros last'. change (budget w0) with (budget w) in B1. change (requested w0) with (requested w) in R1.
    destruct (Z.leb_spec ((count + 1) * 10) timeout).
    - apply wp_bind. apply wp_delay; [by eapply operates_calm|lia|]. intros r' w2 Ca2 B2 R2. destruct r' as [[]|e].
      2:{ split; [apply same_core_refl|]. split; [by eapply calm_trans|done]. }
      assert (cast_u32 (elapsed + 10) = elapsed + 10) as -> by (unfold cast_u32; apply Z.mod_small; width_lia).
      assert (calm w w2) as Ca3 by (by eapply calm_trans).
      eapply wp_mono; [apply IH; [by eapply operates_calm|done|lia|lia|lia|congruence]|].
      intros r3 b3 w3 (C3 & Ca4 & L3). split; [done|]. split; [by eapply calm_trans|done].
    - eapply wp_mono; [apply IH; [by eapply operates_calm|done|lia|lia|lia|congruence]|].
      intros r3 b3 w3 (C3 & Ca4 & L3). split; [done|]. split; [by eapply calm_trans|done]. }
  destruct r as [v|e]; [|apply Rest]. destruct (wanted v) eqn:Wv; [|apply Rest]. apply wp_ret. split; [apply same_core_refl|]. split; [exact Ca|].
  split; [apply HP; [done|exact R]|]. split; [done|]. change (budget w0) with (budget w) in B1. lia.
Qed.

(** The request for a stream, read back. *)
Lemma wp_select_tsid tsid timeout b w : Agree b w -> disconnected_ b = false -> operates i w = true -> Nat.ltb i 2 = true -> is_u32 timeout -> timeout <= budget w ->
  wp (select_satellite_tsid_locked (D := D) i tsid timeout) b w agreeing.
Proof.
  intros A N O I2 T B. unfold select_satellite_tsid_locked. apply wp_bind, wp_staged, wp_dev.
  { change (Nat.ltb i 2 && operates i w = true). by rewrite I2, O. }
  intros r _ b1 C1. set (w1 := effect (tc_set_tsid_s i tsid) r (w{{ purged := false }})).
  assert (calm w w1) as Ca by (by constructor). assert (same_core b b1) as C01 by (by destruct C1; constructor).
  destruct r as [[]|e]; [|by eapply agree_calm]. apply wp_bind, wp_set_bank.
  set (b2 := b1{{ current_stage_ := satellite_slot_verify }}). assert (same_core b b2) as C02 by (by destruct C01; constructor).
  assert (requested w1 i = Some tsid) as R1 by apply upd_eq. apply wp_bind. unfold poll_until.
  eapply wp_mono; [apply (wp_poll_value _ _ timeout (fun v w' => verified w' i = true) (Some tsid)); [..|exact R1]|].
  - intros w' O'. change (Nat.ltb i 2 && operates i w' = true). by rewrite I2, O'.
  - intros r w'. cbn [effect]. destruct r as [v|]; [|split; [apply calm_refl|done]]. destruct (bool_decide _); [|split; [apply calm_refl|done]].
    split; [|done]. constructor; try done. intros j V. change (upd i true (verified w') j = true). unfold upd. by destruct (Nat.eqb j i).
  - intros v w' V Rq. apply Z.eqb_eq in V as ->. cbn [effect]. rewrite bool_decide_eq_true_2 by done. apply upd_eq.
  - by eapply operates_calm.
  - done.
  - width_lia.
  - lia.
  - change (budget w1) with (budget w). lia.
  - intros r b3 w3 (C3 & Ca3 & P). assert (same_core b b3) as C03 by (by eapply same_core_trans). assert (calm w w3) as Ca03 by (by eapply calm_trans).
    destruct r as [[[[v|] e] last]|e]; [| |by eapply agree_calm].
    + apply wp_bind, wp_set_bank, wp_set_bank. pose proof (agree_calm _ _ _ _ A C03 Ca03) as [[L1 L2 L3 L4 Go] Al].
      constructor; [constructor; try done; [cbn; by rewrite length_insert|cbn; by rewrite length_insert]|]. intros N' j J.
      destruct (Al N' j J) as (Rf & (A1 & A2 & A3) & In). split; [exact Rf|]. split; [|exact In]. split; [exact A1|]. split; [exact A2|].
      change (nth j (<[i := true]> (satellite_selected_ b3)) false = true -> verified w3 j = true). rewrite nth_insert by (rewrite L3; exact I).
      destruct (Nat.eqb_spec j i) as [->|]; [intros _; apply P|exact A3].
    + apply wp_remembered, wp_fail. intros b4 C4. eapply agree_calm; [exact A| |exact Ca03]. by eapply same_core_trans.
Qed.
End Receiver.

(** ** Operations on a receiver in use *)

(** The guards that every operation starts with. *)
Lemma wp_entered {A} (m : Bank -> Io (BankSt (D := D)) A) b w (Q : Result A -> Bank -> Watch -> Prop) :
  (forall b', same_core b b' -> disconnected_ b = false -> wp (m b') b' w Q) ->
  (forall b', same_core b b' -> disconnected_ b = true -> Q (failure DISCONNECTED) b' w) ->
  wp (_ ← begin_operation; b ← bank; _ ← require (negb (disconnected_ b)) DISCONNECTED; m b) b w Q.
Proof.
  intros M F. apply wp_bind, wp_begin. intros b' C. apply wp_bind, wp_bank, wp_bind, wp_require; rewrite (sc_gone _ _ C).
  - intros N. apply negb_false_iff in N. by apply F.
  - intros N. apply negb_true_iff in N. by apply M.
Qed.
Lemma wp_guard {A} c e (m : Io (BankSt (D := D)) A) b w (Q : Result A -> Bank -> Watch -> Prop) :
  Q (failure e) b w -> (c = true -> wp m b w Q) -> wp (_ ← require c e; m) b w Q.
Proof. intros F M. apply wp_bind, wp_require; [done|exact M]. Qed.
Lemma valid_index l : 0 <= l -> valid_local_receiver l = true -> (receiver_index l < 4)%nat.
Proof. unfold valid_local_receiver, receiver_index. rewrite Z.ltb_lt. lia. Qed.

Lemma agreeing_core {A} (r : Result A) b w b' : Agree b w -> same_core b b' -> agreeing r b' w.
Proof. intros Ag C. eapply agree_calm; [exact Ag|exact C|apply calm_refl]. Qed.

Lemma mark_tuned_agrees i b w : Agree b w -> disconnected_ b = false -> (i < 4)%nat -> state_of b i <> closed -> state_of b i <> capturing -> locked w i = true ->
  wp (mark_tuned (D := D) i) b w agreeing.
Proof.
  intros Ag N I S1 S2 L. unfold mark_tuned. apply wp_bind, wp_set_bank, wp_set_bank. eapply agreeing_core; [|by constructor].
  destruct Ag as [Sh Al] eqn:E. pose proof (agree_set_state b w i tuned Ag N I S1 ltac:(done) ltac:(done) false eq_refl) as Ag'. clear E.
  destruct Ag' as [Sh' Al']. constructor; [destruct Sh'; by constructor|]. intros N' j J. specialize (Al' N' j J).
  destruct Al' as (R & (A1 & A2 & A3) & In). split; [exact R|]. split; [|exact In]. split; [|by split].
  etrans; [|exact A1]. change (pins w j = upd i false (pins w) j). unfold upd. destruct (Nat.eqb_spec j i) as [->|]; [|done].
  destruct (Al N i I) as (_ & (P & _) & _). rewrite P. unfold is_capturing. by rewrite bool_decide_eq_false_2.
Qed.

(** One more call, after which the bank still agrees. *)
Ltac chip i Q := eapply (wp_quiet (operating i)); [apply stable_operating|Q|eassumption|eassumption|eassumption|eassumption
  |intros; eapply agree_calm; eassumption|intros [] ? ? ? ? ? ?].
Ltac chips i s := first [apply quiet_staged; chips i s | apply quiet_remembered; chips i s | apply quiet_attempt_stage | apply quiet_ret
  | apply quiet_write_reg | apply quiet_set_agc; exact s | apply quiet_r850_set_frequency; exact s | apply quiet_rt710_set_params; exact s | apply quiet_is_signal_locked; exact s].

Lemma wp_tune_t i f timeout b w : Agree b w -> disconnected_ b = false -> (i < 4)%nat -> target w = i -> state_of b i <> closed -> state_of b i <> capturing ->
  TC_isdb_t = system_of i -> is_u32 timeout -> timeout <= budget w -> wp (tune_t (D := D) i f timeout) b w agreeing.
Proof.
  intros Ag N I T S1 S2 Sy Ti B. pose proof (agree_operating _ _ _ Ag N I T S1) as O.
  assert (same_core b b) as C0 by apply same_core_refl. assert (calm w w) as Ca0 by apply calm_refl. assert (budget w = budget w) as B0 by done.
  unfold tune_t. do 5 (chip i ltac:(chips i Sy)).
  apply wp_bind. eapply wp_mono; [apply wp_wait; [exact I|eassumption|done|congruence]|].
  intros r b1 w1 (C1 & Ca1 & L1). assert (same_core b b1) as C01 by (by eapply same_core_trans). assert (calm w w1) as Ca01 by (by eapply calm_trans).
  destruct r as [[]|e]; [|by eapply agree_calm].
  pose proof (agree_calm _ _ _ _ Ag C01 Ca01) as Ag1. assert (operating i w1) as O1 by (by eapply stable_operating).
  clear - Ag1 N I S1 S2 Sy L1 O1 C01. 
  rewrite <- (sc_gone _ _ C01) in N. rewrite <- (state_same b b1 i C01) in S1, S2. clear C01 b.
  assert (same_core b1 b1) as C0 by apply same_core_refl. assert (calm w1 w1) as Ca0 by apply calm_refl. assert (budget w1 = budget w1) as B0 by done.
  rename Ag1 into Ag. do 4 (chip i ltac:(chips i Sy)).
  apply mark_tuned_agrees; try done; [by eapply agree_calm|by erewrite sc_gone|by erewrite state_same|by erewrite state_same|by eapply ca_locked].
Qed.

Lemma wp_tune_s i f timeout b w : Agree b w -> disconnected_ b = false -> (i < 4)%nat -> target w = i -> state_of b i <> closed -> state_of b i <> capturing ->
  TC_isdb_s = system_of i -> is_u32 timeout -> timeout <= budget w -> wp (tune_s (D := D) i f timeout) b w agreeing.
Proof.
  intros Ag N I T S1 S2 Sy Ti B. pose proof (agree_operating _ _ _ Ag N I T S1) as O.
  assert (same_core b b) as C0 by apply same_core_refl. assert (calm w w) as Ca0 by apply calm_refl. assert (budget w = budget w) as B0 by done.
  unfold tune_s. do 5 (chip i ltac:(chips i Sy)).
  apply wp_bind. eapply wp_mono; [apply wp_wait; [exact I|eassumption|done|congruence]|].
  intros r b1 w1 (C1 & Ca1 & L1). assert (same_core b b1) as C01 by (by eapply same_core_trans). assert (calm w w1) as Ca01 by (by eapply calm_trans).
  destruct r as [[]|e]; [|by eapply agree_calm].
  pose proof (agree_calm _ _ _ _ Ag C01 Ca01) as Ag1. assert (operating i w1) as O1 by (by eapply stable_operating).
  clear - Ag1 N I S1 S2 Sy L1 O1 C01.
  rewrite <- (sc_gone _ _ C01) in N. rewrite <- (state_same b b1 i C01) in S1, S2. clear C01 b.
  assert (same_core b1 b1) as C0 by apply same_core_refl. assert (calm w1 w1) as Ca0 by apply calm_refl. assert (budget w1 = budget w1) as B0 by done.
  rename Ag1 into Ag. chip i ltac:(chips i Sy).
  apply mark_tuned_agrees; try done; [by eapply agree_calm|by erewrite sc_gone|by erewrite state_same|by erewrite state_same|by eapply ca_locked].
Qed.

(** What an operation finds when it begins. *)
Record Begun (l t : Z) (b : Bank) (w : Watch) : Prop := {
  be_agree : Agree b w;
  be_local : 0 <= l;
  be_target : target w = receiver_index l;
  be_time : is_u32 t;
  be_budget : budget w = t;
}.
Lemma begun_core l t b b' w : Begun l t b w -> same_core b b' -> Begun l t b' w.
Proof. intros [Ag ? ? ? ?] C. constructor; [|done..]. eapply agree_calm; [exact Ag|exact C|apply calm_refl]. Qed.
Lemma begun_entered {A} (m : Bank -> Io (BankSt (D := D)) A) l t b w : Begun l t b w ->
  (forall b', Begun l t b' w -> disconnected_ b' = false -> wp (m b') b' w agreeing) ->
  wp (_ ← begin_operation; b ← bank; _ ← require (negb (disconnected_ b)) DISCONNECTED; m b) b w agreeing.
Proof.
  intros Be M. apply wp_entered; intros b' C N.
  - apply M; [by eapply begun_core|by rewrite (sc_gone _ _ C)].
  - eapply agreeing_core; [apply Be|exact C].
Qed.
Lemma is_closed_false s : negb (is_closed s) = true -> s <> closed.
Proof. intros E. apply negb_true_iff in E. by apply bool_decide_eq_false in E. Qed.
Lemma is_capturing_false s : negb (is_capturing s) = true -> s <> capturing.
Proof. intros E. apply negb_true_iff in E. by apply bool_decide_eq_false in E. Qed.

Lemma tune_agrees s l f t b w : Begun l t b w -> wp (tune_receiver (D := D) l f s t) b w agreeing.
Proof.
  intros Be. unfold tune_receiver. eapply begun_entered; [exact Be|]. clear b Be. intros b Be N.
  apply wp_guard; [apply Be|intros V]. apply wp_guard; [apply Be|intros S]. apply wp_guard; [apply Be|intros S1]. apply wp_guard; [apply Be|intros S2].
  pose proof (valid_index _ (be_local _ _ _ _ Be) V) as I. apply bool_decide_eq_true in S. apply is_closed_false in S1. apply is_capturing_false in S2.
  assert (t <= budget w) as B by (rewrite (be_budget _ _ _ _ Be); done).
  destruct s; [apply wp_tune_t|apply wp_tune_s]; try done; apply Be.
Qed.

Lemma tsid_agrees l v t b w : Begun l t b w -> wp (select_satellite_tsid_with_timeout (D := D) l v t) b w agreeing.
Proof.
  intros Be. unfold select_satellite_tsid_with_timeout. eapply begun_entered; [exact Be|]. clear b Be. intros b Be N.
  apply wp_guard; [apply Be|intros V]. apply wp_guard; [apply Be|intros S]. apply andb_true_iff in V as [V V2]. apply Z.ltb_lt in V2.
  pose proof (valid_index _ (be_local _ _ _ _ Be) V) as I. apply bool_decide_eq_true in S.
  apply wp_select_tsid; try done; try apply Be.
  - apply (agree_operating b); try done; [apply Be|apply Be|]. by rewrite S.
  - apply Nat.ltb_lt. unfold receiver_index. pose proof (be_local _ _ _ _ Be). lia.
  - rewrite (be_budget _ _ _ _ Be). done.
Qed.
Lemma slot_agrees l n t b w : Begun l t b w -> wp (select_satellite_slot_with_timeout (D := D) l n t) b w agreeing.
Proof.
  intros Be. unfold select_satellite_slot_with_timeout. eapply begun_entered; [exact Be|]. clear b Be. intros b Be N.
  apply wp_guard; [apply Be|intros V]. apply wp_guard; [apply Be|intros _]. apply wp_guard; [apply Be|intros S]. apply andb_true_iff in V as [V V2]. apply Z.ltb_lt in V2.
  pose proof (valid_index _ (be_local _ _ _ _ Be) V) as I. apply bool_decide_eq_true in S. set (i := receiver_index l) in *.
  assert (operating i w) as O by (apply (agree_operating b); try done; [apply Be|apply Be|by rewrite S]).
  assert (Nat.ltb i 2 = true) as I2 by (apply Nat.ltb_lt; subst i; unfold receiver_index; pose proof (be_local _ _ _ _ Be); lia).
  apply wp_bind, wp_set_bank. set (b1 := b{{ current_stage_ := satellite_slot_tmcc }}). assert (same_core b b1) as C1 by (by constructor).
  pose proof (be_time _ _ _ _ Be) as Ti. pose proof (be_budget _ _ _ _ Be) as Bu.
  apply wp_bind. unfold poll_until.
  eapply wp_mono; [apply (wp_poll_value i I _ _ t (fun _ _ => True) (requested w i)); try done; [|width_lia|width_lia]|].
  - intros w' O'. change (Nat.ltb i 2 && operates i w' = true). by rewrite I2, O'.
  - intros r b2 w2 (C2 & Ca2 & P). assert (same_core b b2) as C02 by (by eapply same_core_trans).
    destruct r as [[[[tsid|] e] last]|e]; [| |by eapply agree_calm; [apply Be|..]].
    + destruct P as (_ & E & B). apply wp_select_tsid; try done.
      * eapply agree_calm; [apply Be|exact C02|exact Ca2].
      * by rewrite (sc_gone _ _ C02).
      * by eapply operates_calm.
      * destruct (e <? t); width_lia.
      * destruct (Z.ltb_spec e t); lia.
    + apply wp_remembered, wp_fail. intros b3 C3. eapply agree_calm; [apply Be| |exact Ca2]. by eapply same_core_trans.
Qed.

Lemma is_locked_agrees s l t b w : Begun l t b w -> wp (is_locked (D := D) l s) b w agreeing.
Proof.
  intros Be. unfold is_locked. apply wp_bind, wp_bank. apply wp_guard; [apply Be|intros N]. apply wp_guard; [apply Be|intros V].
  apply wp_guard; [apply Be|intros S]. apply wp_guard; [apply Be|intros S1]. apply negb_true_iff in N.
  pose proof (valid_index _ (be_local _ _ _ _ Be) V) as I. apply bool_decide_eq_true in S. apply is_closed_false in S1.
  assert (operating (receiver_index l) w) as O by (apply (agree_operating b); try done; apply Be).
  assert (quiet (H0 := H0) (operating (receiver_index l)) (match s with
    | TC_isdb_s => _ ← attempt_stage satellite_demod_lock; dev (tc_is_signal_locked TC_isdb_s (receiver_index l))
    | TC_isdb_t => dev (tc_is_signal_locked TC_isdb_t (receiver_index l)) end)) as Qs.
  { destruct s; [by apply quiet_is_signal_locked|]. apply quiet_bind; [apply stable_operating|apply quiet_attempt_stage|intros _; by apply quiet_is_signal_locked]. }
  eapply wp_mono; [by apply Qs|]. intros r b' w' (C & Ca & _). eapply agree_calm; [apply Be|done..].
Qed.

(** ** Capturing *)

Lemma same_core_set b b' i s : same_core b b' -> same_core (set_receiver_state i s b) (set_receiver_state i s b').
Proof.
  intros [? E ? ? ?]. constructor; try done. change (<[i := s]> (receiver_state_ b') = <[i := s]> (receiver_state_ b)). by rewrite E.
Qed.

Lemma any_pins_capturing b w : Agree b w -> disconnected_ b = false -> any_pins w = any_capturing_locked b.
Proof.
  intros [Sh Al] N. specialize (Al N). assert (forall j, (j < 4)%nat -> pins w j = is_capturing (state_of b j)) as P by (intros j J; apply Al, J).
  unfold any_pins, any_capturing_locked, state_of in *. pose proof (sh_states _ _ Sh) as L.
  destruct (receiver_state_ b) as [|s0 [|s1 [|s2 [|s3 []]]]]; try done. cbn [seq existsb].
  rewrite (P 0%nat), (P 1%nat), (P 2%nat), (P 3%nat) by lia. done.
Qed.

(** The pins are switched on behind a purge. *)
Lemma wp_purge_if b w (m : Io (BankSt (D := D)) unit) i : Agree b w -> disconnected_ b = false -> operating i w ->
  (forall b' w', same_core b b' -> calm w w' -> negb has_purger || any_pins w' || purged w' = true -> wp m b' w' agreeing) ->
  wp (_ ← (if negb (any_capturing_locked b) && has_purger then staged DS_psb_purge (dev psb_purge) else mret tt); m) b w agreeing.
Proof.
  intros Ag N O M. destruct (negb (any_capturing_locked b) && has_purger) eqn:E; apply wp_bind.
  - apply andb_true_iff in E as [E1 E2]. rewrite <- (any_pins_capturing b w Ag N) in E1. apply wp_staged, wp_dev.
    { change (has_purger && operates (target w) w && negb (any_pins w) = true). rewrite E1, E2.
      assert (target w = i) as -> by (unfold operating, operates in O; rewrite !andb_true_iff, Nat.eqb_eq in O; by destruct O as [[_ ->] _]). by rewrite O. }
    intros r _ b2 C2. assert (same_core b b2) as C by (by destruct C2; constructor). destruct r as [[]|e].
    + apply M; [done|by constructor|]. change (negb has_purger || any_pins w || true = true). apply orb_true_r.
    + eapply agree_calm; [exact Ag|exact C|by constructor].
  - apply wp_ret, M; [apply same_core_refl|apply calm_refl|]. rewrite (any_pins_capturing b w Ag N).
    apply andb_false_iff in E as [E|E]; [apply negb_false_iff in E; rewrite E; by rewrite orb_true_r|by rewrite E].
Qed.

Lemma start_agrees s l t b w : Begun l t b w -> wp (start_capture (D := D) has_purger l s) b w agreeing.
Proof.
  intros Be. unfold start_capture. eapply begun_entered; [exact Be|]. clear b Be. intros b Be N.
  apply wp_guard; [apply Be|intros V]. apply wp_guard; [apply Be|intros S]. apply wp_guard; [apply Be|intros S1]. apply wp_guard; [apply Be|intros Sel].
  pose proof (valid_index _ (be_local _ _ _ _ Be) V) as I. apply bool_decide_eq_true in S, S1. set (i := receiver_index l) in *.
  assert (operating i w) as O by (apply (agree_operating b); try done; [apply Be|apply Be|by rewrite S1]).
  apply (wp_purge_if _ _ _ i); [apply Be|done|exact O|]. intros b1 w1 C1 Ca1 Pu. pose proof (agree_calm _ _ _ _ (be_agree _ _ _ _ Be) C1 Ca1) as Ag1.
  rewrite <- (sc_gone _ _ C1) in N. rewrite <- (state_same _ _ i C1) in S1. assert (operating i w1) as O1 by (by eapply stable_operating).
  destruct (ag_alive _ _ Ag1 N i I) as (_ & (_ & L & Ve) & _). specialize (L (or_introl S1)).
  rewrite <- (sc_selected _ _ C1) in Sel. clear - Ag1 N I S S1 Sel Pu O1 L Ve H0.
  apply wp_bind, wp_set_bank. set (b2 := b1{{ current_stage_ := _ }}). assert (same_core b1 b2) as C2 by (by constructor).
  pose proof (agree_calm _ _ _ _ Ag1 C2 (calm_refl _)) as Ag2. pose proof (state_same _ _ i C2) as E2. rewrite S1 in E2.
  assert (forall s', s' = s -> lawful base has_purger (tc_enable_ts_pins s' i true) w1 = true) as G.
  { intros s' ->. change (of_system s i && operates i w1 && locked w1 i && (negb (bool_decide (s = TC_isdb_s)) || verified w1 i) && (negb has_purger || any_pins w1 || purged w1) = true).
    rewrite Pu, L, O1, S, of_system_self. cbn [andb]. rewrite andb_true_r. rewrite <- S. destruct (bool_decide (s = TC_isdb_s)) eqn:Es; [|done].
    apply negb_true_iff in Sel. cbn [andb] in Sel. apply negb_false_iff in Sel. cbn. by apply Ve. }
  pose proof (agree_set_state b2 (w1{{ purged := false }}) i capturing (agree_calm _ _ _ _ Ag2 (same_core_refl _) (calm_unpurged _)) N I) as Set1.
  specialize (Set1 ltac:(by rewrite E2) ltac:(done) ltac:(by intros _) true eq_refl).
  destruct s; cbn [for_system].
  - apply wp_bind, wp_remembered, wp_dev; [by apply G|]. intros r _ b3 C3. destruct r as [[]|e].
    + apply wp_set_bank. eapply agreeing_core; [exact Set1|]. by apply same_core_set.
    + eapply agree_calm; [exact Ag2|exact C3|by constructor].
  - apply wp_bind, wp_set_bank, wp_remembered, wp_dev; [by apply G|]. intros r _ b3 C3. by eapply agreeing_core.
Qed.

Lemma wp_disable_capture i s b w : Agree b w -> disconnected_ b = false -> (i < 4)%nat -> target w = i -> state_of b i = capturing -> s = system_of i ->
  wp (disable_capture (D := D) i s) b w (fun r b' w' => Agree b' w' /\ disconnected_ b' = false /\ target w' = target w /\ state_of b' i <> closed /\
    (forall j, j <> i -> state_of b' j = state_of b j)).
Proof.
  intros Ag N I T S ->. assert (operating i w) as O by (apply (agree_operating b); try done; by rewrite S).
  unfold disable_capture. apply wp_bind, wp_staged, wp_dev.
  { change (of_system (system_of i) i && operates i w = true). by rewrite of_system_self, O. }
  intros r _ b2 C2. assert (same_core b b2) as C by (by destruct C2; constructor).
  pose proof (agree_calm _ _ _ _ Ag C (calm_unpurged _)) as Ag2. rewrite <- (sc_gone _ _ C) in N. rewrite <- (state_same _ _ i C) in S.
  destruct r as [[]|e].
  - apply wp_set_bank. pose proof (agree_set_state _ _ i tuned Ag2 N I ltac:(by rewrite S) ltac:(done)) as Ag3.
    assert (length (receiver_state_ b2) = 4%nat) as L4 by apply Ag2.
    split; [apply Ag3; [|done]; intros _; apply (ag_alive _ _ Ag2 N i I); by right|]. split; [exact N|]. split; [done|].
    split; [by rewrite state_set, Nat.eqb_refl|]. intros j J. rewrite state_set by done. rewrite (proj2 (Nat.eqb_neq _ _) J). by apply state_same.
  - split; [exact Ag2|]. split; [exact N|]. split; [done|]. split; [by rewrite S|]. intros j J. by apply state_same.
Qed.
Lemma stop_agrees s l t b w : Begun l t b w -> wp (stop_capture (D := D) l s) b w agreeing.
Proof.
  intros Be. unfold stop_capture. eapply begun_entered; [exact Be|]. clear b Be. intros b Be N.
  apply wp_guard; [apply Be|intros V]. apply wp_guard; [apply Be|intros S]. apply wp_guard; [apply Be|intros S1].
  pose proof (valid_index _ (be_local _ _ _ _ Be) V) as I. apply bool_decide_eq_true in S, S1.
  eapply wp_mono; [apply wp_disable_capture; try done; apply Be|]. by intros r b' w' [Ag' _].
Qed.

(** ** Closing *)

(** Only the target holds a reference. *)
Record Solo (i : nat) (b : Bank) (w : Watch) : Prop := {
  so_shape : Shape b w;
  so_alive : disconnected_ b = false;
  so_target : target w = i;
  so_index : (i < 4)%nat;
  so_held : held w i = true;
  so_others : forall j, (j < 4)%nat -> j <> i -> held w j = false /\ state_of b j = closed /\ pins w j = false /\
    (nth j (satellite_selected_ b) false = true -> verified w j = true);
  so_inited : forall j, (j < 4)%nat -> inited w j = nth j (tuner_initialized_ b) false;
}.
Lemma solo_calm i b b' w w' : Solo i b w -> same_core b b' -> calm w w' -> Solo i b' w'.
Proof.
  intros [[L1 L2 L3 L4 Go] Al T I Hi Ot In] [Ci Cs Cl Ct Cg] [Ta Hh Ii P G L V]. constructor; try congruence.
  - constructor; congruence.
  - intros j J Ne. destruct (Ot j J Ne) as (A1 & A2 & A3 & A4). unfold state_of in *. rewrite Hh, P, Cs, Cl. split_and!; auto.
  - intros j J. rewrite Ii, Ci. auto.
Qed.
Lemma solo_guard i b w : Solo i b w -> negb (gone w) && held w (target w) && negb (other_held w (target w)) = true.
Proof.
  intros [Sh Al T I Hi Ot In]. rewrite (sh_gone _ _ Sh), Al, T, Hi. cbn [negb andb]. apply negb_true_iff, existsb_four_false.
  intros j J. destruct (Nat.eqb_spec j i) as [->|Ne]; [done|]. cbn. by apply Ot.
Qed.

Lemma wp_terminate_loop i l : forall first b w, Forall (fun j => (j < 4)%nat) l -> Solo i b w ->
  wp (terminate_loop (D := D) l first) b w (fun r b' w' => Solo i b' w' /\ receiver_state_ b' = receiver_state_ b /\
    forall j, inited w' j = true -> (j < 4)%nat -> inited w j = true /\ ~ In j l).
Proof.
  induction l as [|k l IH]; intros first b w F So; cbn [terminate_loop].
  { apply wp_from_result. split; [done|]. split; [done|]. intros j J _. split; [done|]. by intros []. }
  apply Forall_cons in F as [K F]. apply wp_bind, wp_bank. destruct (nth k (tuner_initialized_ b) false) eqn:E.
  2:{ eapply wp_mono; [by apply IH|]. intros r b' w' (So' & St & Fl). split; [done|]. split; [done|]. intros j J Lj. destruct (Fl j J Lj) as [A B].
      split; [done|]. intros [->|]; [|done]. pose proof (so_inited _ _ _ So j Lj) as Q. congruence. }
  apply wp_bind, wp_set_bank, wp_bind, wp_attempt, wp_dev.
  { change (negb (gone w) && held w (target w) && negb (other_held w (target w)) && inited w k = true).
    rewrite (solo_guard _ _ _ So), (so_inited _ _ _ So k K). exact E. }
  intros r _. apply wp_bind, wp_set_bank, wp_bind, wp_set_bank. set (w1 := effect _ _ _).
  match goal with |- wp _ ?x _ _ => set (b1 := x) end.
  assert (receiver_state_ b1 = receiver_state_ b /\ satellite_selected_ b1 = satellite_selected_ b /\ selected_tsid_ b1 = selected_tsid_ b /\
    disconnected_ b1 = disconnected_ b /\ tuner_initialized_ b1 = <[k := false]> (tuner_initialized_ b)) as (Q1 & Q2 & Q3 & Q4 & Q5).
  { subst b1. unfold remember_failure. destruct (is_success r || _); done. }
  assert (Solo i b1 w1) as So1.
  { destruct So as [[L1 L2 L3 L4 Go] Al T I Hi Ot In]. constructor; try done.
    - constructor; try congruence; [by rewrite Q5, length_insert|]. by rewrite Q4.
    - by rewrite Q4.
    - intros j J Ne. unfold state_of in *. rewrite Q1, Q2. by apply Ot.
    - intros j J. change (upd k false (inited w) j = nth j (tuner_initialized_ b1) false). rewrite Q5, nth_insert by lia. unfold upd.
      destruct (Nat.eqb j k); [done|]. by apply In. }
  eapply wp_mono; [by apply IH|]. intros r' b' w' (So' & St & Fl). split; [done|]. split; [congruence|]. intros j J Lj. destruct (Fl j J Lj) as [A B].
  change (upd k false (inited w) j = true) in A. unfold upd in A. destruct (Nat.eqb_spec j k) as [->|Ne]; [done|]. split; [done|]. intros [->|]; done.
Qed.
Lemma wp_terminate i b w : Solo i b w ->
  wp (terminate_initialized (D := D)) b w (fun r b' w' => Solo i b' w' /\ receiver_state_ b' = receiver_state_ b /\ forall j, (j < 4)%nat -> inited w' j = false).
Proof.
  intros So. eapply wp_mono; [apply (wp_terminate_loop i); [repeat (apply Forall_cons; split; [lia|]); constructor|done]|].
  intros r b' w' (So' & St & Fl). split; [done|]. split; [done|]. intros j J. apply not_true_iff_false. intros E. destruct (Fl j E J) as [_ N].
  apply N. cbn. lia.
Qed.

Lemma release_lawful l w i : 0 <= l -> receiver_index l = i -> target w = i -> gone w = false -> held w i = true ->
  other_held w i || negb (existsb (inited w) (seq 0 4)) = true -> lawful base has_purger (power_release (cast_u8 (base + l))) w = true.
Proof.
  intros L E T G Hi O. change (negb (gone w) && (cast_u8 (base + l) =? cast_u8 (base + Z.of_nat (target w))) && held w (target w)
    && (other_held w (target w) || negb (existsb (inited w) (seq 0 4))) = true).
  rewrite G, T, Hi, O, <- E. unfold receiver_index. rewrite Z2Nat.id by done. by rewrite Z.eqb_refl.
Qed.
Lemma state_reset b i s j : length (receiver_state_ b) = 4%nat -> (i < 4)%nat -> state_of (reset_receiver i s b) j = if Nat.eqb j i then s else state_of b j.
Proof. intros L I. unfold state_of. change (receiver_state_ (reset_receiver i s b)) with (<[i := s]> (receiver_state_ b)). apply nth_insert. lia. Qed.
Lemma shape_reset b i s w : Shape b w -> Shape (reset_receiver i s b) w.
Proof. intros [L1 L2 L3 L4 Go]. constructor; try done; cbn; by rewrite length_insert. Qed.

(** The last reference is given back. *)
Lemma solo_released i b w g r : Solo i b w -> (forall j, (j < 4)%nat -> inited w j = false) ->
  Agree (reset_receiver i closed b) (effect (power_release g) r (w{{ purged := false }})).
Proof.
  intros [Sh Al T I Hi Ot Ini] F. set (w' := effect _ _ _). constructor; [by destruct (shape_reset b i closed w Sh); constructor|].
  intros _ j J. pose proof (sh_states _ _ Sh) as L. assert (forall k, (k < 4)%nat -> state_of (reset_receiver i closed b) k = closed) as Cl.
  { intros k K. rewrite state_reset by done. destruct (Nat.eqb_spec k i); [done|]. by apply Ot. }
  assert (any_open_locked (reset_receiver i closed b) = false) as Ao.
  { apply not_true_iff_false. intros X. apply any_open_iff in X as (k & K & N); [|cbn; by rewrite length_insert]. by apply N, Cl. }
  unfold ref_agrees, recv_agrees. rewrite Cl by done. rewrite Ao.
  change (held w' j) with (upd (target w) false (held w) j). change (pins w' j) with (upd (target w) false (pins w) j).
  change (verified w' j) with (upd (target w) false (verified w) j). change (inited w' j) with (inited w j).
  change (nth j (satellite_selected_ (reset_receiver i closed b)) false) with (nth j (<[i := false]> (satellite_selected_ b)) false).
  rewrite nth_insert by (rewrite (sh_selected _ _ Sh); done). rewrite T. unfold upd. rewrite F by done.
  destruct (Nat.eqb_spec j i) as [->|Ne].
  - split; [done|]. split; [split; [done|]; split; [by intros [|]|done]|]. split; [|done]. rewrite <- Ini by done. by rewrite F.
  - destruct (Ot j J Ne) as (A1 & A2 & A3 & A4). split; [done|]. split; [split; [done|]; split; [by intros [|]|done]|]. split; [|done]. rewrite <- Ini by done. by rewrite F.
Qed.
(** Another reference stays. *)
Record Guest (i : nat) (b : Bank) (w : Watch) : Prop := {
  gu_shape : Shape b w;
  gu_alive : disconnected_ b = false;
  gu_target : target w = i;
  gu_index : (i < 4)%nat;
  gu_held : held w i = true;
  gu_others : forall j, (j < 4)%nat -> j <> i -> ref_agrees b w j /\ recv_agrees b w j;
  gu_inited : forall j, (j < 4)%nat -> inited w j = true /\ nth j (tuner_initialized_ b) false = true;
}.
Lemma guest_calm i b b' w w' : Guest i b w -> same_core b b' -> calm w w' -> Guest i b' w'.
Proof.
  intros [[L1 L2 L3 L4 Go] Al T I Hi Ot In] [Ci Cs Cl Ct Cg] [Ta Hh Ii P G L V]. constructor; try congruence.
  - constructor; congruence.
  - intros j J Ne. destruct (Ot j J Ne) as (A1 & A2 & A3 & A4). unfold ref_agrees, recv_agrees, state_of in *. rewrite Hh, P, Cs, Cl. split_and!; auto.
  - intros j J. rewrite Ii, Ci. auto.
Qed.
Lemma guest_released i b w g r : Guest i b w -> any_other_open_locked b i = true ->
  Agree (reset_receiver i closed b) (effect (power_release g) r (w{{ purged := false }})).
Proof.
  intros [Sh Al T I Hi Ot Ini] O. set (w' := effect _ _ _). constructor; [by destruct (shape_reset b i closed w Sh); constructor|].
  intros _ j J. pose proof (sh_states _ _ Sh) as L.
  assert (any_open_locked (reset_receiver i closed b) = true) as Ao.
  { apply any_open_iff; [cbn; by rewrite length_insert|]. apply other_open_iff in O as (k & K & Ne & N). exists k. split; [done|].
    rewrite state_reset by done. by rewrite (proj2 (Nat.eqb_neq _ _) Ne). }
  unfold ref_agrees, recv_agrees. rewrite state_reset by done. rewrite Ao.
  change (held w' j) with (upd (target w) false (held w) j). change (pins w' j) with (upd (target w) false (pins w) j).
  change (verified w' j) with (upd (target w) false (verified w) j). change (locked w' j) with (upd (target w) false (locked w) j). change (inited w' j) with (inited w j).
  change (nth j (satellite_selected_ (reset_receiver i closed b)) false) with (nth j (<[i := false]> (satellite_selected_ b)) false).
  change (tuner_initialized_ (reset_receiver i closed b)) with (tuner_initialized_ b).
  rewrite nth_insert by (rewrite (sh_selected _ _ Sh); done). rewrite T. unfold upd. destruct (Ini j J) as [-> ->].
  destruct (Nat.eqb_spec j i) as [->|Ne].
  - split; [done|]. split; [split; [done|]; split; [by intros [|]|done]|]. done.
  - destruct (Ot j J Ne) as (A1 & A2). done.
Qed.

Lemma agree_solo i b w : Agree b w -> disconnected_ b = false -> (i < 4)%nat -> target w = i -> state_of b i <> closed ->
  any_other_open_locked b i = false -> Solo i b w.
Proof.
  intros [Sh Al] N I T S O. specialize (Al N).
  assert (forall j, (j < 4)%nat -> j <> i -> state_of b j = closed) as Cl.
  { intros j J Ne. destruct (decide (state_of b j = closed)) as [|X]; [done|]. rewrite (proj2 (other_open_iff b i)) in O by eauto. done. }
  constructor; try done.
  - destruct (Al i I) as (R & _). rewrite R. unfold is_closed. by rewrite bool_decide_eq_false_2.
  - intros j J Ne. destruct (Al j J) as (R & (A1 & A2 & A3) & _). unfold ref_agrees in R. rewrite (Cl j J Ne) in *. by split_and!.
  - intros j J. by apply Al.
Qed.
Lemma agree_guest i b w : Agree b w -> disconnected_ b = false -> (i < 4)%nat -> target w = i -> state_of b i <> closed -> Guest i b w.
Proof.
  intros [Sh Al] N I T S. specialize (Al N). constructor; try done.
  - destruct (Al i I) as (R & _). rewrite R. unfold is_closed. by rewrite bool_decide_eq_false_2.
  - intros j J Ne. destruct (Al j J) as (R & A & _). done.
  - intros j J. destruct (Al j J) as (_ & _ & In1 & In2). rewrite <- In1, In2. split; apply any_open_iff; eauto; apply Sh.
Qed.
Lemma guest_operating i b w : Guest i b w -> operating i w.
Proof.
  intros [Sh Al T I Hi Ot In]. unfold operating, operates, up, powered, all_inited. rewrite (sh_gone _ _ Sh), Al, T, Nat.eqb_refl, Hi.
  rewrite (proj2 (existsb_four _)) by eauto. rewrite (proj2 (forallb_four _)); [done|]. intros j J. by apply In.
Qed.
Lemma solo_operating i b w : Solo i b w -> (forall j, (j < 4)%nat -> inited w j = true) -> operating i w.
Proof.
  intros [Sh Al T I Hi Ot In] F. unfold operating, operates, up, powered, all_inited. rewrite (sh_gone _ _ Sh), Al, T, Nat.eqb_refl, Hi.
  rewrite (proj2 (existsb_four _)) by eauto. by rewrite (proj2 (forallb_four _)).
Qed.
Lemma solo_release_lawful i b w l : Solo i b w -> 0 <= l -> receiver_index l = i -> (forall j, (j < 4)%nat -> inited w j = false) ->
  lawful base has_purger (power_release (cast_u8 (base + l))) w = true.
Proof.
  intros So L E F. apply (release_lawful l w i); try done; [apply So|rewrite (sh_gone _ _ (so_shape _ _ _ So)); apply So|apply So|].
  rewrite (proj2 (existsb_four_false _)) by done. apply orb_true_r.
Qed.
Lemma guest_release_lawful i b w l : Guest i b w -> any_other_open_locked b i = true -> 0 <= l -> receiver_index l = i ->
  lawful base has_purger (power_release (cast_u8 (base + l))) w = true.
Proof.
  intros Gu O L E. apply (release_lawful l w i); try done; [apply Gu|rewrite (sh_gone _ _ (gu_shape _ _ _ Gu)); apply Gu|apply Gu|].
  apply orb_true_iff. left. apply existsb_four. apply other_open_iff in O as (j & J & Ne & N). exists j. split; [done|].
  rewrite (proj2 (Nat.eqb_neq _ _) Ne). destruct (gu_others _ _ _ Gu j J Ne) as [R _]. rewrite R. unfold is_closed. by rewrite bool_decide_eq_false_2.
Qed.
Lemma other_open_same b b' i : receiver_state_ b' = receiver_state_ b -> any_other_open_locked b' i = any_other_open_locked b i.
Proof. intros E. unfold any_other_open_locked, state_of. by rewrite E. Qed.

(** The chips of a receiver that is given up come to rest, and its reference can be given back. *)
Lemma wp_rest i b w l (first : bool) : 0 <= l -> receiver_index l = i -> (if first then Solo i b w else Guest i b w /\ any_other_open_locked b i = true) ->
  wp (if first then terminate_initialized (D := D) else sleep_frontend i) b w (fun _ b' w' =>
    lawful base has_purger (power_release (cast_u8 (base + l))) w' = true /\
    forall b2 g r, same_core (reset_receiver i closed b') b2 -> Agree b2 (effect (power_release g) r (w'{{ purged := false }}))).
Proof.
  intros L E F. destruct first.
  - eapply wp_mono; [by apply wp_terminate|]. intros _ b' w' (So & _ & In). split; [by eapply solo_release_lawful|].
    intros b2 g r C. eapply agree_calm; [by apply (solo_released i)|exact C|apply calm_refl].
  - destruct F as [Gu O]. pose proof (guest_operating _ _ _ Gu) as Op. eapply wp_mono; [apply (quiet_sleep i i)|].
    { split; [exact Op|]. apply operates_touch; [apply Gu|exact Op]. }
    intros _ b' w' (C & Ca & _). assert (Guest i b' w') as Gu' by (by eapply guest_calm).
    assert (any_other_open_locked b' i = true) as O' by (rewrite <- O; apply other_open_same, C).
    split; [by eapply guest_release_lawful|]. intros b2 g r C2. eapply agree_calm; [by apply (guest_released i)|exact C2|apply calm_refl].
Qed.

Lemma agree_lost b w i : Agree b w -> disconnected_ b = true -> Agree (reset_receiver i closed b) w.
Proof. intros [Sh _] N. constructor; [by apply shape_reset|]. change (disconnected_ (reset_receiver i closed b)) with (disconnected_ b). by rewrite N. Qed.

Lemma close_agrees l t b w : Begun l t b w -> wp (close_receiver (D := D) base l) b w agreeing.
Proof.
  intros Be. unfold close_receiver. apply wp_bind, wp_begin. intros b1 C. assert (Begun l t b1 w) as Be1 by (by eapply begun_core). clear b Be C.
  apply wp_bind, wp_bank. destruct (disconnected_ b1) eqn:N.
  { apply wp_bind, wp_set_bank, wp_fail. destruct (valid_local_receiver l); [|apply Be1]. by apply agree_lost; [apply Be1|]. }
  apply wp_guard; [apply Be1|intros V]. apply wp_guard; [apply Be1|intros S]. apply is_closed_false in S.
  pose proof (valid_index _ (be_local _ _ _ _ Be1) V) as I. set (i := receiver_index l) in *.
  apply wp_bind. apply (wp_mono _ _ _ (fun r b' w' => exists first, r = success first /\ Agree b' w' /\ disconnected_ b' = false /\ target w' = i /\ state_of b' i <> closed)).
  { destruct (is_capturing (state_of b1 i)) eqn:Cp.
    - apply bool_decide_eq_true in Cp. apply wp_bind, wp_attempt. eapply wp_mono; [apply wp_disable_capture; try done; apply Be1|].
      intros r b' w' (A & N' & T & S' & _). apply wp_ret. eexists. split; [done|]. split; [done|]. split; [done|]. split; [|done]. rewrite T. apply Be1.
    - apply wp_ret. eexists. split; [done|]. split; [apply Be1|]. split; [done|]. split; [apply Be1|done]. }
  intros r b2 w2 (first & -> & A & N2 & T & S2). apply wp_bind, wp_bank, wp_bind, wp_attempt.
  eapply (wp_mono (if any_other_open_locked b2 i then sleep_frontend i else terminate_initialized)).
  { pose proof (be_local _ _ _ _ Be1) as L. destruct (any_other_open_locked b2 i) eqn:O.
    - apply (wp_rest i b2 w2 l false L eq_refl). split; [by apply agree_guest|done].
    - apply (wp_rest i b2 w2 l true L eq_refl). by apply agree_solo. }
  intros r b3 w3 [G Fin]. apply wp_bind, wp_set_bank, wp_bind, wp_set_bank, wp_bind, wp_attempt, wp_dev; [exact G|]. intros r' _.
  apply wp_bind, wp_set_bank. match goal with |- context [effect ?c r' ?x] => set (w4 := effect c r' x) end.
  match goal with |- wp _ ?x _ _ => set (b4 := x) end. assert (same_core (reset_receiver i closed b3) b4) as C4.
  { subst b4. destruct (is_success r' || _); by constructor. }
  apply wp_bind. assert (forall b5, same_core b4 b5 -> Agree b5 w4) as Done by (intros b5 C5; apply Fin; by eapply same_core_trans).
  destruct (bool_decide _); [apply wp_set_bank|apply wp_ret]; apply wp_from_result, Done; by constructor.
Qed.

(** ** Opening *)

(** The pins of a receiver that is being opened are off. *)
Definition waking (i : nat) (w : Watch) : Prop := operates i w = true /\ pins w i = false.
Lemma stable_waking i : stable (waking i).
Proof. intros w w' C [O P]. split; [by eapply operates_calm|by rewrite (ca_pins _ _ C)]. Qed.
Lemma quiet_waking {A} i (m : Io (BankSt (D := D)) A) : quiet (H0 := H0) (operating i) m -> quiet (H0 := H0) (waking i) m.
Proof. intros Q b w [O _]. by apply Q. Qed.
Lemma quiet_pins_off i s : s = system_of i -> quiet (H0 := H0) (waking i) (dev (tc_enable_ts_pins s i false)).
Proof.
  intros ->. apply quiet_dev; [apply stable_waking|]. intros w [O P]. split.
  - change (of_system (system_of i) i && operates i w = true). by rewrite of_system_self, O.
  - intros r. destruct r as [[]|e]; [|split; [apply calm_refl|done]]. split; [|done]. constructor; try done. intros j.
    change (upd i false (pins w) j = pins w j). unfold upd. by destruct (Nat.eqb_spec j i) as [->|].
Qed.
Lemma quiet_touch {A} i (c : DevCall A) : (i < 4)%nat -> (forall w, may_touch i w = true -> lawful base has_purger c w = true) -> (forall r w, effect c r w = w) ->
  quiet (H0 := H0) (waking i) (dev c).
Proof.
  intros I G E. apply quiet_waking, quiet_plain; [|done]. intros w O. by apply G, operates_touch.
Qed.
Lemma quiet_wake i s : (i < 4)%nat -> s = system_of i -> quiet (H0 := H0) (waking i) (wake_frontend (D := D) i s).
Proof.
  intros I S. assert (forall b, quiet (H0 := H0) (waking i) (dev (tc_sleep s i b))) as Qs.
  { intros b. apply quiet_touch; [done| |done]. intros w M. change (of_system s i && may_touch i w = true). by rewrite S, of_system_self, M. }
  assert (forall l, quiet (H0 := H0) (waking i) (dev (tc_write_multiple_regs i l))) as Qw by (intros l; by apply quiet_touch).
  assert (s = TC_isdb_t -> forall c : DevCall unit, (forall w, lawful base has_purger c w = Nat.leb 2 i && operates i w) -> (forall r w, effect c r w = w) -> quiet (H0 := H0) (waking i) (dev c)) as Qr.
  { intros E c G Ef. apply quiet_waking, quiet_plain; [|done]. intros w O. rewrite G, O. subst s. unfold system_of in E.
    destruct (Nat.ltb_spec i 2); [done|]. by rewrite (proj2 (Nat.leb_le 2 i)). }
  pose proof (quiet_pins_off i s S) as Qp. unfold wake_frontend.
  destruct s; repeat first [apply quiet_staged | apply quiet_bind; [apply stable_waking| |intros _]]; try apply Qw; try apply Qp; try apply Qs; by apply Qr.
Qed.

(** Nobody else holds a reference. *)
Definition alone (i : nat) (w : Watch) : Prop := operates i w = true /\ other_held w i = false.
Lemma stable_alone i : stable (alone i).
Proof. intros w w' C [O P]. split; [by eapply operates_calm|]. unfold other_held. by rewrite (ca_held _ _ C). Qed.
Lemma alone_touch i j w : (j < 4)%nat -> alone i w -> may_touch j w = true.
Proof.
  intros J [O P]. unfold may_touch. unfold operates in O. rewrite !andb_true_iff, Nat.eqb_eq in O. destruct O as [[U <-] _].
  rewrite U, (proj2 (Nat.ltb_lt j 4) J). cbn [andb]. pose proof (proj1 (existsb_four_false _) P j J) as Q. cbn in Q. by destruct (Nat.eqb j i), (held w j).
Qed.
Lemma quiet_shared i : quiet (H0 := H0) (alone i) (write_shared_initialization (D := D)).
Proof.
  assert (forall j l, (j < 4)%nat -> quiet (H0 := H0) (alone i) (dev (tc_write_multiple_regs j l))) as Q.
  { intros j l J. apply quiet_dev; [apply stable_alone|]. intros w Al. split; [by eapply alone_touch|]. intros r. split; [apply calm_refl|done]. }
  unfold write_shared_initialization. apply quiet_bind; [apply stable_alone| |intros _]; apply quiet_staged, Q; lia.
Qed.
Lemma quiet_sleep_others i l : Forall (fun j => (j < 4)%nat) l -> quiet (H0 := H0) (alone i) (sleep_others (D := D) l i).
Proof.
  induction 1 as [|j l J _ IH]; cbn [sleep_others]; [apply quiet_ret|]. destruct (Nat.eqb j i); [exact IH|].
  apply quiet_bind; [apply stable_alone| |intros _; exact IH]. intros b w Al. apply (quiet_sleep i j). split; [apply Al|by eapply alone_touch].
Qed.
Lemma wp_initialize i l : forall b w, Forall (fun j => (j < 4)%nat) l -> Solo i b w ->
  wp (initialize_tuners (D := D) l) b w (fun r b' w' => r <> failure OK /\ Solo i b' w' /\ receiver_state_ b' = receiver_state_ b /\ pins w' = pins w /\
    (r = success tt -> forall j, inited w j = true \/ In j l -> inited w' j = true)).
Proof.
  induction l as [|k l IH]; intros b w F So; cbn [initialize_tuners].
  { apply wp_ret. split; [done|]. split; [done|]. split; [done|]. split; [done|]. by intros _ j [?|[]]. }
  apply Forall_cons in F as [K F]. apply wp_bind, wp_staged, wp_dev.
  { change (negb (gone w) && held w (target w) && negb (other_held w (target w)) && Nat.ltb k 4 = true). rewrite (solo_guard _ _ _ So). by apply Nat.ltb_lt. }
  intros r Nr b2 C2. assert (same_core b b2) as C by (by destruct C2; constructor). pose proof (solo_calm _ _ _ _ _ So C (calm_unpurged w)) as So2.
  destruct r as [[]|e]; [|split; [done|]; split; [exact So2|]; split; [apply C|]; split; [done|discriminate]].
  apply wp_bind, wp_set_bank. set (w1 := effect _ _ _). match goal with |- wp _ ?x _ _ => set (b1 := x) end.
  assert (tuner_initialized_ b1 = <[k := true]> (tuner_initialized_ b2)) as E1 by done.
  assert (Solo i b1 w1) as So1.
  { destruct So2 as [[L1 L2 L3 L4 Go] Al T I Hi Ot In]. constructor; try done.
    - constructor; try done. by rewrite E1, length_insert.
    - intros j J. change (upd k true (inited w) j = nth j (tuner_initialized_ b1) false). rewrite E1, nth_insert by lia. unfold upd.
      destruct (Nat.eqb j k); [done|]. by apply In. }
  eapply wp_mono; [by apply IH|]. intros r b' w' (N & So' & St & Pi & Fl). split; [done|]. split; [done|].
  split; [rewrite St; exact (sc_states _ _ C)|]. split; [exact Pi|]. intros Er j J. apply Fl; [done|]. change (inited w1 j) with (upd k true (inited w) j). unfold upd.
  destruct J as [J|[->|J]]; [left; by destruct (Nat.eqb j k)|left; by rewrite Nat.eqb_refl|by right].
Qed.

(** A receiver that could not be opened gives everything back. *)
Lemma wp_cleanup_open l first e b w : 0 <= l -> (if first : bool then Solo (receiver_index l) b w else Guest (receiver_index l) b w /\ any_other_open_locked b (receiver_index l) = true) ->
  wp (cleanup_open_failure (D := D) base l first e) b w agreeing.
Proof.
  intros L F. unfold cleanup_open_failure. apply wp_bind, wp_attempt. eapply wp_mono; [by apply (wp_rest _ _ _ l first L eq_refl)|].
  intros r b1 w1 [G Fin]. apply wp_bind, wp_attempt, wp_dev; [exact G|]. intros r' _. apply wp_bind, wp_set_bank, wp_fail.
  apply Fin, same_core_refl.
Qed.
Lemma wp_or_cleanup l first ok m k b w : 0 <= l ->
  wp m b w (fun r b' w' => (ok = false \/ r <> failure OK) /\ match r with success _ => wp k b' w' agreeing
    | failure _ => if first : bool then Solo (receiver_index l) b' w' else Guest (receiver_index l) b' w' /\ any_other_open_locked b' (receiver_index l) = true end) ->
  wp (or_cleanup (D := D) base l first ok m k) b w agreeing.
Proof.
  intros L Wm. unfold or_cleanup. apply wp_bind, wp_attempt. eapply wp_mono; [exact Wm|]. intros r b' w' [N q]. destruct r as [[]|e]; [exact q|].
  assert (ok && bool_decide (e = OK) = false) as ->; [|by apply wp_cleanup_open].
  destruct N as [->|N]; [done|]. rewrite bool_decide_eq_false_2 by congruence. apply andb_false_r.
Qed.

(** Before it is open, a receiver is a guest of those that are, or alone. *)
Lemma guest_opened i b w : Guest i b w -> pins w i = false -> Agree (reset_receiver i open b) w.
Proof.
  intros [Sh Al T I Hi Ot Ini] Pi. pose proof (sh_states _ _ Sh) as L. constructor; [by apply shape_reset|]. intros _ j J.
  assert (any_open_locked (reset_receiver i open b) = true) as Ao.
  { apply any_open_iff; [cbn; by rewrite length_insert|]. exists i. split; [done|]. by rewrite state_reset, Nat.eqb_refl. }
  unfold ref_agrees, recv_agrees. rewrite state_reset by done. rewrite Ao.
  change (nth j (satellite_selected_ (reset_receiver i open b)) false) with (nth j (<[i := false]> (satellite_selected_ b)) false).
  change (tuner_initialized_ (reset_receiver i open b)) with (tuner_initialized_ b).
  rewrite nth_insert by (rewrite (sh_selected _ _ Sh); done). destruct (Ini j J) as [-> ->].
  destruct (Nat.eqb_spec j i) as [->|Ne].
  - split; [done|]. split; [split; [done|]; split; [by intros [|]|done]|]. done.
  - destruct (Ot j J Ne) as (A1 & A2). done.
Qed.
Lemma solo_guest i b w : Solo i b w -> (forall j, (j < 4)%nat -> inited w j = true) -> Guest i b w.
Proof.
  intros [Sh Al T I Hi Ot In] F. constructor; try done.
  - intros j J Ne. destruct (Ot j J Ne) as (A1 & A2 & A3 & A4). unfold ref_agrees, recv_agrees. rewrite A1, A2, A3. split; [done|]. split; [done|]. split; [by intros [|]|exact A4].
  - intros j J. rewrite <- In by done. split; by apply F.
Qed.
Lemma solo_alone i b w : Solo i b w -> (forall j, (j < 4)%nat -> inited w j = true) -> alone i w.
Proof.
  intros So F. split; [by eapply solo_operating|]. apply existsb_four_false. intros j J. destruct (Nat.eqb_spec j i) as [->|Ne]; [done|].
  by apply (so_others _ _ _ So).
Qed.

(** The reference has been acquired. *)
Definition acquired (w : Watch) : Watch := effect (power_acquire 0) (success tt) (w{{ purged := false }}).
Lemma acquired_solo i b w : Agree b w -> disconnected_ b = false -> (i < 4)%nat -> target w = i -> any_open_locked b = false ->
  Solo i b (acquired w) /\ pins (acquired w) i = false.
Proof.
  intros [Sh Al] N I T O. specialize (Al N). assert (forall j, (j < 4)%nat -> state_of b j = closed) as Cl.
  { intros j J. destruct (decide (state_of b j = closed)) as [|X]; [done|]. rewrite (proj2 (any_open_iff b (sh_states _ _ Sh))) in O by eauto. done. }
  split; [|change (upd (target w) false (pins w) i = false); rewrite T; apply upd_eq].
  constructor; try done; [destruct Sh; by constructor|change (upd (target w) true (held w) i = true); rewrite T; apply upd_eq| |].
  - intros j J Ne. destruct (Al j J) as (R & (A1 & A2 & A3) & _). unfold ref_agrees in R. rewrite (Cl j J) in *.
    change (held (acquired w) j) with (upd (target w) true (held w) j). change (pins (acquired w) j) with (upd (target w) false (pins w) j).
    change (verified (acquired w) j) with (upd (target w) false (verified w) j). rewrite T, !upd_ne by done. by split_and!.
  - intros j J. by apply (Al j J).
Qed.
Lemma acquired_guest i b w : Agree b w -> disconnected_ b = false -> (i < 4)%nat -> target w = i -> state_of b i = closed -> any_open_locked b = true ->
  Guest i b (acquired w) /\ any_other_open_locked b i = true /\ pins (acquired w) i = false.
Proof.
  intros [Sh Al] N I T S O. specialize (Al N). split; [|split; [|change (upd (target w) false (pins w) i = false); rewrite T; apply upd_eq]].
  - constructor; try done; [destruct Sh; by constructor|change (upd (target w) true (held w) i = true); rewrite T; apply upd_eq| |].
    + intros j J Ne. destruct (Al j J) as (R & (A1 & A2 & A3) & _). unfold ref_agrees, recv_agrees in *.
      change (held (acquired w) j) with (upd (target w) true (held w) j). change (pins (acquired w) j) with (upd (target w) false (pins w) j).
      change (verified (acquired w) j) with (upd (target w) false (verified w) j). change (locked (acquired w) j) with (upd (target w) false (locked w) j).
      rewrite T, !upd_ne by done. done.
    + intros j J. destruct (Al j J) as (_ & _ & In1 & In2). rewrite <- In1. change (inited (acquired w) j) with (inited w j). by rewrite In2.
  - apply (any_open_iff b (sh_states _ _ Sh)) in O as (j & J & Ne). apply other_open_iff. exists j. split; [done|]. split; [|done]. intros ->. done.
Qed.

Section Opening.
Context (l : Z) (L : 0 <= l).
Let i := receiver_index l.

(** The last step. *)
Lemma wp_opened b w : Guest i b w -> pins w i = false ->
  wp (_ ← set_bank (D := D) (reset_receiver i open); attempt_stage DS_open) b w agreeing.
Proof. intros Gu P. apply wp_bind, wp_set_bank, wp_set_bank. eapply agreeing_core; [by apply guest_opened|by constructor]. Qed.

Lemma wp_wake_guest s b w : s = system_of i -> Guest i b w -> any_other_open_locked b i = true -> pins w i = false ->
  wp (or_cleanup (D := D) base l false false (wake_frontend i s) (_ ← set_bank (reset_receiver i open); attempt_stage DS_open)) b w agreeing.
Proof.
  intros S Gu O P. apply wp_or_cleanup; [done|]. eapply wp_mono; [apply (quiet_wake i s); [apply Gu|done|]|].
  { split; [by eapply guest_operating|done]. }
  intros r b' w' (C & Ca & _). split; [by left|]. assert (Guest i b' w') as Gu' by (by eapply guest_calm).
  destruct r as [[]|e]; [apply wp_opened; [done|by rewrite (ca_pins _ _ Ca)]|]. split; [done|]. rewrite <- O. apply other_open_same, C.
Qed.

Lemma wp_wake_solo s b w : s = system_of i -> Solo i b w -> (forall j, (j < 4)%nat -> inited w j = true) -> pins w i = false ->
  wp (or_cleanup (D := D) base l true false (wake_frontend i s)
    (or_cleanup base l true false write_shared_initialization (_ ← set_bank (reset_receiver i open); attempt_stage DS_open))) b w agreeing.
Proof.
  intros S So F P. apply wp_or_cleanup; [done|]. eapply wp_mono; [apply (quiet_wake i s); [apply So|done|]|].
  { split; [by eapply solo_operating|done]. }
  intros r b1 w1 (C1 & Ca1 & _). split; [by left|]. assert (Solo i b1 w1) as So1 by (by eapply solo_calm). destruct r as [[]|e]; [|exact So1].
  apply wp_or_cleanup; [done|]. eapply wp_mono; [apply (quiet_shared i), (solo_alone i b1 w1 So1); by rewrite (ca_inited _ _ Ca1)|].
  intros r b2 w2 (C2 & Ca2 & _). split; [by left|]. assert (Solo i b2 w2) as So2 by (by eapply solo_calm). destruct r as [[]|e]; [|exact So2].
  apply wp_opened; [apply solo_guest; [done|]; by rewrite (ca_inited _ _ Ca2), (ca_inited _ _ Ca1)|]. by rewrite (ca_pins _ _ Ca2), (ca_pins _ _ Ca1).
Qed.

Lemma wp_open_first s b w : s = system_of i -> Solo i b w -> pins w i = false ->
  wp (or_cleanup (D := D) base l true true (initialize_tuners [0; 1; 2; 3]%nat) (or_cleanup base l true false (sleep_others [0; 1; 2; 3]%nat i)
    (or_cleanup base l true false (wake_frontend i s)
      (or_cleanup base l true false write_shared_initialization (_ ← set_bank (reset_receiver i open); attempt_stage DS_open))))) b w agreeing.
Proof.
  intros S So P. assert (Forall (fun j => (j < 4)%nat) [0; 1; 2; 3]%nat) as Fa by (repeat (apply Forall_cons; split; [lia|]); constructor).
  apply wp_or_cleanup; [done|]. eapply wp_mono; [by apply wp_initialize|]. intros r b1 w1 (N & So1 & _ & P1 & F1). split; [by right|].
  destruct r as [[]|e]; [|exact So1]. assert (forall j, (j < 4)%nat -> inited w1 j = true) as F.
  { intros j J. apply F1; [done|]. right. cbn. lia. }
  apply wp_or_cleanup; [done|]. eapply wp_mono; [by apply (quiet_sleep_others i), (solo_alone i b1)|]. intros r b2 w2 (C2 & Ca2 & _). split; [by left|].
  assert (Solo i b2 w2) as So2 by (by eapply solo_calm). destruct r as [[]|e]; [|exact So2].
  apply wp_wake_solo; try done; [by rewrite (ca_inited _ _ Ca2)|by rewrite (ca_pins _ _ Ca2), P1].
Qed.
End Opening.

Lemma open_agrees s l t b w : Begun l t b w -> wp (open_receiver (D := D) base l s) b w agreeing.
Proof.
  intros Be. unfold open_receiver. eapply begun_entered; [exact Be|]. clear b Be. intros b Be N.
  apply wp_guard; [apply Be|intros V]. apply wp_guard; [apply Be|intros S]. apply wp_guard; [apply Be|intros S1].
  pose proof (valid_index _ (be_local _ _ _ _ Be) V) as I. apply bool_decide_eq_true in S, S1. pose proof (be_local _ _ _ _ Be) as L.
  pose proof (be_target _ _ _ _ Be) as T. pose proof (be_agree _ _ _ _ Be) as Ag. apply wp_bind, wp_remembered, wp_dev.
  { change (negb (gone w) && (cast_u8 (base + l) =? cast_u8 (base + Z.of_nat (target w))) && Nat.ltb (target w) 4 && negb (held w (target w)) = true).
    rewrite (sh_gone _ _ (ag_shape _ _ Ag)), N, T. destruct (ag_alive _ _ Ag N _ I) as (R & _). rewrite R, S1, (proj2 (Nat.ltb_lt _ _) I).
    unfold receiver_index. rewrite Z2Nat.id, Z.eqb_refl by done. done. }
  intros r _ b1 C1. destruct r as [[]|e]; [|eapply agree_calm; [exact Ag|exact C1|apply calm_unpurged]].
  change (effect (power_acquire _) (success tt) _) with (acquired w).
  destruct (any_open_locked b) eqn:O; cbn [negb].
  - destruct (acquired_guest _ _ _ Ag N I T S1 O) as (Gu & O' & P).
    assert (Guest (receiver_index l) b1 (acquired w)) as Gu1 by (eapply guest_calm; [exact Gu|exact C1|apply calm_refl]).
    apply wp_wake_guest; try done. rewrite <- O'. apply other_open_same, C1.
  - destruct (acquired_solo _ _ _ Ag N I T O) as (So & P).
    assert (Solo (receiver_index l) b1 (acquired w)) as So1 by (eapply solo_calm; [exact So|exact C1|apply calm_refl]).
    by apply wp_open_first.
Qed.

Lemma lost_agrees b w : Agree b w -> wp (mark_disconnected (D := D)) b (w{{ gone := true }}) agreeing.
Proof. intros [[L1 L2 L3 L4 Go] Al]. apply wp_set_bank. constructor; [by constructor|done]. Qed.

Lemma op_agrees op b w : Agree b w -> op_ok op -> wp (run_op (D := D) base has_purger op) b (announce op w) agreeing.
Proof.
  intros Ag [L T]. assert (forall l t, op_local op = l -> op_timeout op = t -> match op with Op_lost => False | _ => True end -> Begun l t b (announce op w)) as Be.
  { intros l t <- <- Ne. constructor; try done; [|by destruct op|by destruct op].
    destruct Ag as [[? ? ? ? ?] Al]. destruct op; try done; (constructor; [by constructor|exact Al]). }
  destruct op; cbn [run_op]; [eapply open_agrees|eapply tune_agrees|eapply slot_agrees|eapply tsid_agrees|eapply start_agrees|eapply stop_agrees| |eapply close_agrees|by apply lost_agrees]; try (by apply Be).
  apply wp_bind. eapply wp_mono; [eapply is_locked_agrees; by apply Be|]. intros [a|e] b' w' A; [by apply wp_ret|done].
Qed.
End Operations.

(** * Every sequence of operations *)

Section Clients.
Context {base : Z} {has_purger : bool} {D : Type} {H : BankDevices D} {H0 : BankDevicesLaws base has_purger D} {H1 : BankDevicesStable base has_purger D}.

(** A watcher that has seen every call knows what the proofs know. *)
#[local] Instance watched_laws : BankDevicesLaws base has_purger (Watched D) (H := watched_devices base has_purger).
Proof.
  refine {| dev_lives := fun st w => st.2 = Some w /\ dev_lives st.1 w |}. intros A c [d ow] w [E L] G. cbn [fst snd] in *. subst ow.
  destruct (dev_returns A c d w L G) as (r & d' & E & L' & N). exists r, (d', watch base has_purger c r w).
  unfold dev_call, watched_devices. cbn [fst snd]. rewrite E. split; [done|]. unfold watch. rewrite G. done.
Defined.

Lemma lives_announced op d w : dev_lives d w -> dev_lives d (announce op w).
Proof. intros L. destruct op; cbn [announce]; try (by apply (dev_same d w)). by apply dev_lost. Qed.

Lemma run_agrees ops : forall b w d, Forall op_ok ops -> Agree b w -> dev_lives d w ->
  exists b' d' w', run_bank base has_purger ops (b, (d, Some w)) = Some (b', (d', Some w')) /\ Agree b' w'.
Proof.
  induction ops as [|op ops IH]; intros b w d F Ag L; [by exists b, d, w|]. apply Forall_cons in F as [Ok F].
  destruct (op_agrees (H0 := watched_laws) op b w Ag Ok (d, Some (announce op w)) (conj eq_refl (lives_announced op d w L)))
    as (r & b1 & [d1 ow1] & w1 & E & [Eo L1] & Ag1). cbn [fst snd] in Eo, L1. subst ow1.
  destruct (IH b1 w1 d1 F Ag1 L1) as (b2 & d2 & w2 & E2 & A2). exists b2, d2, w2. split; [|done].
  cbn [run_bank fst snd]. match goal with |- match ?x with _ => _ end = _ => pose proof (E : x = _) as E' end. rewrite E'. exact E2.
Qed.

Lemma new_agrees : Agree new_bank new_watch.
Proof. constructor; [by constructor|]. intros _ j J. destruct j as [|[|[|[|]]]]; [..|lia]; (split; [done|]; split; [split; [done|]; split; [by intros [|]|done]|done]). Qed.

(** C11 Whatever a client asks of the frontends of a bridge, in whatever
    order, and whatever the chips, the packet buffer and the power authority answer: every operation comes to an end;
    no chip is touched without power, before all four are initialised, or after the
    bridge is lost; no operation touches a receiver that another one has in use; a
    reference to the power is acquired once per opening and given back once, the last only after the tuners are
    terminated; a stream is let out only behind a purge of an unused packet buffer, and of a receiver whose synthesizer has locked and, on
    a satellite, whose stream has been verified; and no operation waits for longer than it was allowed to.
    What the bank has recorded is what was done. *)
Theorem bank_protocol ops d : Forall op_ok ops -> dev_lives d new_watch ->
  exists b' d' w', run_bank base has_purger ops (new_bank, (d, Some new_watch)) = Some (b', (d', Some w')) /\ Agree b' w'.
Proof.
  intros F L. destruct (run_agrees ops new_bank new_watch d F new_agrees L) as (b' & d' & w' & E & Ag). by exists b', d', w'.
Qed.
End Clients.

(** ** Chips to run *)

(** What the synthesizers answer, one by one; everything else succeeds. *)
Definition Script : Type := list bool.
#[export] Instance scripted_devices : BankDevices Script := {
  dev_call A c d := match c in DevCall A return option (Result A * Script) with
    | tuner_is_pll_locked _ => Some (success (hd true d), tl d)
    | tc_get_tsid_s _ => Some (success 0x4010, d)
    | tc_tmcc_get_tsid_s _ _ => Some (success 0x4010, d)
    | tc_is_signal_locked _ _ => Some (success true, d)
    | tc_write_multiple_regs _ _ | tc_write_reg _ _ _ | tc_enable_ts_pins _ _ _ | tc_sleep _ _ _ | tc_set_agc _ _ _ | tc_set_tsid_s _ _
    | tuner_initialize _ | tuner_terminate _ | tuner_sleep _ | rt710_set_params _ _ _ _ | r850_wakeup _ | r850_set_system _ _ | r850_set_frequency _ _
    | delay_sleep_ms _ | psb_purge | power_acquire _ | power_release _ => Some (success tt, d)
    end }.
#[export] Instance scripted_laws base has_purger : BankDevicesLaws base has_purger Script.
Proof. refine {| dev_lives := fun _ _ => True |}. intros A c d w _ _. by destruct c; eexists _, _. Defined.
#[export] Instance scripted_stable base has_purger : BankDevicesStable base has_purger Script.
Proof. by constructor. Defined.

Definition evening : list BankOp :=
  [Op_open TC_isdb_s 0; Op_tune TC_isdb_s 0 1049480 500; Op_slot 0 0 1000; Op_start TC_isdb_s 0; Op_open TC_isdb_t 2; Op_tune TC_isdb_t 2 557143 500;
   Op_start TC_isdb_t 2; Op_close 0; Op_is_locked TC_isdb_t 2].
Lemma evening_ok : Forall op_ok evening.
Proof. repeat (apply Forall_cons; split; [by split; vm_compute|]). constructor. Qed.
Lemma bank_protocol_witness : exists b' d' w', run_bank 0 true evening (new_bank, ([false; true], Some new_watch)) = Some (b', (d', Some w')) /\
  Agree b' w' /\ receiver_state_ b' = [closed; closed; capturing; closed].
Proof.
  destruct (bank_protocol (H0 := scripted_laws 0 true) evening ([false; true] : Script) evening_ok I) as (b' & d' & w' & E & Ag).
  exists b', d', w'. split; [exact E|]. split; [exact Ag|].
  assert ((fun st => receiver_state_ st.1) <$> run_bank 0 true evening (new_bank, ([false; true] : Script, Some new_watch)) = Some [closed; closed; capturing; closed]) as X
    by (vm_compute; reflexivity).
  rewrite E in X. by injection X.
Defined.

(** A tuning that fails leaves the receiver as tuned as it was, and a capture is
    started all the same; so it is with the stream of another transponder. *)
Example failed_retune_captures :
  (fun st => receiver_state_ st.1) <$> run_bank 0 true
    [Op_open TC_isdb_t 2; Op_tune TC_isdb_t 2 557143 10; Op_tune TC_isdb_t 2 563143 10; Op_start TC_isdb_t 2] (new_bank, ([true; false; false], Some new_watch)) =
  Some [closed; closed; capturing; closed].
Proof. vm_compute. reflexivity. Qed.
Example retune_keeps_stream :
  (fun st => (receiver_state_ st.1, selected_tsid_ st.1)) <$> run_bank 0 true
    [Op_open TC_isdb_s 0; Op_tune TC_isdb_s 0 1049480 500; Op_slot 0 0 1000; Op_tune TC_isdb_s 0 1087840 500; Op_start TC_isdb_s 0] (new_bank, ([], Some new_watch)) =
  Some ([capturing; closed; closed; closed], [0x4010; 0; 0; 0]).
Proof. vm_compute. reflexivity. Qed.
