(* ===== verification/Q3u4Enclosure.v ===== *)
(** The frontends of an enclosure ([src/q3u4_frontend.cpp/.h],
    [Q3U4FrontendEnclosure]): two banks of receivers, whose power authority is the
    coordinator of [Q3u4Power]. *)

From S2P Require Import Prelude IoMonad Tc90522.
From S2P Require Import Q3u4Power.
From S2P Require Import Q3u4Frontend Q3u4FrontendProtocol Q3u4FrontendSafety.

Open Scope Z_scope.

(** * Data *)

Record ReceiverMapping := mkReceiverMapping {
  global_receiver : Z;
  em_bridge : Q3U4Bridge;
  local_receiver : Z;
  em_system : Tc90522System;
}.
Definition map_receiver (global_receiver : Z) : Result ReceiverMapping :=
  if 8 <=? global_receiver then failure INVALID_ARGUMENT
  else
    let local := cast_u8 (global_receiver mod 4) in
    success (mkReceiverMapping global_receiver (if global_receiver <? 4 then dev1 else dev2) local (if local <? 2 then TC_isdb_s else TC_isdb_t)).
Definition global_base (b : Q3U4Bridge) : Z := match b with dev1 => 0 | _ => 4 end.

(** The chips of the two bridges, without the power. *)
Class EnclosureChips (C : Type) := { chip_call : Q3U4Bridge -> forall A, DevCall A -> Io C A }.
Class EnclosureChipsLaws (C : Type) `{EnclosureChips C} := {
  chip_returns : forall b A (c : DevCall A) ch, exists r ch', chip_call b A c ch = Some (r, ch') /\ r <> failure OK;
}.

(** * The power authority of a bank *)

Section Authority.
Context {HW : Type} `{Q3U4BackendPower HW} (base : Z).

Definition out_of_bank (g : Z) : bool := (g <? base) || (base + 4 <=? g).
Definition coordinator_acquire_receiver (g : Z) (w : World HW) : Outcome HW :=
  if out_of_bank g then (failure INVALID_ARGUMENT, w) else Q3u4Power.acquire_receiver g w.
Definition coordinator_release_receiver (g : Z) (w : World HW) : Outcome HW :=
  if out_of_bank g then (failure INVALID_ARGUMENT, w)
  else
    let result := Q3u4Power.release_receiver g w in
    if bool_decide (result.1 = failure INVALID_ARGUMENT) && enclosure_disconnected result.2.1 then (success tt, result.2) else result.

Definition authority_call {A} (c : DevCall A) : option (World HW -> Result A * World HW) :=
  match c in DevCall A return option (World HW -> Result A * World HW) with
  | power_acquire g => Some (coordinator_acquire_receiver g)
  | power_release g => Some (coordinator_release_receiver g)
  | _ => None
  end.
End Authority.

#[export] Instance bank_devices {HW C} `{Q3U4BackendPower HW} `{EnclosureChips C} (b : Q3U4Bridge) : BankDevices (World HW * C) := {
  dev_call A c st :=
    match authority_call (global_base b) c with
    | Some f => let '(r, w) := f st.1 in Some (r, (w, st.2))
    | None => match chip_call b A c st.2 with None => None | Some (r, ch) => Some (r, (st.1, ch)) end
    end }.

(** * The enclosure *)

Section Enclosure.
Context {HW C : Type} `{Q3U4BackendPower HW} `{EnclosureChips C} (has_purger : PerBridge bool).

Definition Enclosure : Type := PerBridge Bank * (World HW * C).
Definition new_enclosure (hw : HW) (ch : C) : Enclosure := ({| at_dev1 := new_bank; at_dev2 := new_bank |}, ((init_snapshot, hw), ch)).

Definition on_bank {A} (b : Q3U4Bridge) (m : Io (Bank * (World HW * C)) A) : Io Enclosure A := fun e =>
  match m (get e.1 b, e.2) with
  | None => None
  | Some (r, (bank, d)) => Some (r, (set e.1 b bank, d))
  end.
(** [map_receiver], [select_bank] and the call of the bank. *)
Definition routed {A} (g : Z) (f : Q3U4Bridge -> Z -> Io (Bank * (World HW * C)) A) : Io Enclosure A :=
  mapping ← from_result (map_receiver g);
  on_bank (em_bridge mapping) (f (em_bridge mapping) (local_receiver mapping)).
Definition coordinator (f : World HW -> Outcome HW) : Io Enclosure unit := fun e =>
  let '(r, w) := f e.2.1 in Some (r, (e.1, (w, e.2.2))).

Definition open_terrestrial (g : Z) : Io Enclosure unit := routed g (fun b l => Q3u4Frontend.open_terrestrial (H := bank_devices b) (global_base b) l).
Definition open_satellite (g : Z) : Io Enclosure unit := routed g (fun b l => Q3u4Frontend.open_satellite (H := bank_devices b) (global_base b) l).
Definition tune_terrestrial (g frequency_khz : Z) : Io Enclosure unit := routed g (fun b l => Q3u4Frontend.tune_terrestrial (H := bank_devices b) l frequency_khz).
Definition tune_terrestrial_with_timeout (g frequency_khz timeout_ms : Z) : Io Enclosure unit :=
  routed g (fun b l => Q3u4Frontend.tune_terrestrial_with_timeout (H := bank_devices b) l frequency_khz timeout_ms).
Definition tune_satellite (g frequency_khz : Z) : Io Enclosure unit := routed g (fun b l => Q3u4Frontend.tune_satellite (H := bank_devices b) l frequency_khz).
Definition tune_satellite_with_timeout (g frequency_khz timeout_ms : Z) : Io Enclosure unit :=
  routed g (fun b l => Q3u4Frontend.tune_satellite_with_timeout (H := bank_devices b) l frequency_khz timeout_ms).
Definition select_satellite_slot (g slot : Z) : Io Enclosure unit := routed g (fun b l => Q3u4Frontend.select_satellite_slot (H := bank_devices b) l slot).
Definition select_satellite_slot_with_timeout (g slot timeout_ms : Z) : Io Enclosure unit :=
  routed g (fun b l => Q3u4Frontend.select_satellite_slot_with_timeout (H := bank_devices b) l slot timeout_ms).
Definition select_satellite_tsid (g tsid : Z) : Io Enclosure unit := routed g (fun b l => Q3u4Frontend.select_satellite_tsid (H := bank_devices b) l tsid).
Definition select_satellite_tsid_with_timeout (g tsid timeout_ms : Z) : Io Enclosure unit :=
  routed g (fun b l => Q3u4Frontend.select_satellite_tsid_with_timeout (H := bank_devices b) l tsid timeout_ms).
Definition start_terrestrial_capture (g : Z) : Io Enclosure unit := routed g (fun b l => Q3u4Frontend.start_terrestrial_capture (H := bank_devices b) (get has_purger b) l).
Definition start_satellite_capture (g : Z) : Io Enclosure unit := routed g (fun b l => Q3u4Frontend.start_satellite_capture (H := bank_devices b) (get has_purger b) l).
Definition stop_terrestrial_capture (g : Z) : Io Enclosure unit := routed g (fun b l => Q3u4Frontend.stop_terrestrial_capture (H := bank_devices b) l).
Definition stop_satellite_capture (g : Z) : Io Enclosure unit := routed g (fun b l => Q3u4Frontend.stop_satellite_capture (H := bank_devices b) l).
Definition close_receiver (g : Z) : Io Enclosure unit := routed g (fun b l => Q3u4Frontend.close_receiver (H := bank_devices b) (global_base b) l).
Definition is_terrestrial_locked (g : Z) : Io Enclosure bool := routed g (fun b l => Q3u4Frontend.is_terrestrial_locked (H := bank_devices b) l).
Definition is_satellite_locked (g : Z) : Io Enclosure bool := routed g (fun b l => Q3u4Frontend.is_satellite_locked (H := bank_devices b) l).

Definition receiver_state (e : Enclosure) (g : Z) : Q3U4ReceiverState :=
  match map_receiver g with
  | failure _ => closed
  | success mapping => Q3u4Frontend.receiver_state (get e.1 (em_bridge mapping)) (local_receiver mapping)
  end.

Definition acquire_card : Io Enclosure unit := coordinator Q3u4Power.acquire_card.
Definition release_card : Io Enclosure unit := coordinator (fun w =>
  let result := Q3u4Power.release_card w in
  if bool_decide (result.1 = failure INVALID_ARGUMENT) && enclosure_disconnected result.2.1 then (success tt, result.2) else result).
Definition reconcile_power : Io Enclosure unit := coordinator Q3u4Power.reconcile.
Definition mark_bridge_disconnected (b : Q3U4Bridge) : Io Enclosure unit :=
  _ ← coordinator (Q3u4Power.disconnect b);
  on_bank b (mark_disconnected (D := World HW * C)).
Definition power_snapshot (e : Enclosure) : Q3U4PowerSnapshot := e.2.1.1.

(** ** The operations of a client *)

Inductive EncOp :=
  | E_open (system : Tc90522System) (g : Z)
  | E_tune (system : Tc90522System) (g frequency_khz timeout_ms : Z)
  | E_slot (g slot timeout_ms : Z)
  | E_tsid (g tsid timeout_ms : Z)
  | E_start (system : Tc90522System) (g : Z)
  | E_stop (system : Tc90522System) (g : Z)
  | E_is_locked (system : Tc90522System) (g : Z)
  | E_close (g : Z)
  | E_acquire_card
  | E_release_card
  | E_reconcile
  | E_lost (b : Q3U4Bridge).

Definition run_enc (op : EncOp) : Io Enclosure unit :=
  match op with
  | E_open TC_isdb_s g => open_satellite g
  | E_open TC_isdb_t g => open_terrestrial g
  | E_tune TC_isdb_s g f t => tune_satellite_with_timeout g f t
  | E_tune TC_isdb_t g f t => tune_terrestrial_with_timeout g f t
  | E_slot g n t => select_satellite_slot_with_timeout g n t
  | E_tsid g v t => select_satellite_tsid_with_timeout g v t
  | E_start TC_isdb_s g => start_satellite_capture g
  | E_start TC_isdb_t g => start_terrestrial_capture g
  | E_stop TC_isdb_s g => stop_satellite_capture g
  | E_stop TC_isdb_t g => stop_terrestrial_capture g
  | E_is_locked TC_isdb_s g => _ ← is_satellite_locked g; mret tt
  | E_is_locked TC_isdb_t g => _ ← is_terrestrial_locked g; mret tt
  | E_close g => close_receiver g
  | E_acquire_card => acquire_card
  | E_release_card => release_card
  | E_reconcile => reconcile_power
  | E_lost b => mark_bridge_disconnected b
  end.
Fixpoint run_enclosure (ops : list EncOp) (e : Enclosure) : option Enclosure :=
  match ops with
  | [] => Some e
  | op :: ops => match run_enc op e with None => None | Some (_, e) => run_enclosure ops e end
  end.

(** What the operation asks of the bank of its receiver. *)
Definition bank_part (op : EncOp) : option (Z * (Z -> BankOp)) :=
  match op with
  | E_open s g => Some (g, Op_open s)
  | E_tune s g f t => Some (g, fun l => Op_tune s l f t)
  | E_slot g n t => Some (g, fun l => Op_slot l n t)
  | E_tsid g v t => Some (g, fun l => Op_tsid l v t)
  | E_start s g => Some (g, Op_start s)
  | E_stop s g => Some (g, Op_stop s)
  | E_is_locked s g => Some (g, Op_is_locked s)
  | E_close g => Some (g, Op_close)
  | _ => None
  end.
Definition enc_ok (op : EncOp) : Prop := match bank_part op with Some (g, f) => is_u8 g /\ is_u32 (op_timeout (f 0)) | None => True end.
(** The loss of a bridge is reported. *)
Definition is_loss (op : EncOp) : bool := match op with E_lost b => valid_bridge b | _ => false end.
End Enclosure.

Arguments Enclosure : clear implicits.
