(* ===== verification/Q3u4EnclosureSafety.v ===== *)
(** The frontends of an enclosure and their power: what the coordinator of
    [Q3u4Power] records discharges the contract of the banks ([coupled_laws]),
    so that a receiver in use is a receiver with its supplies on. *)

From coqutil Require Import Datatypes.RecordSetters.
From S2P Require Import Prelude IoMonad Tc90522.
From S2P Require Import Q3u4Power.
From S2P Require Import Q3u4Frontend Q3u4FrontendProtocol Q3u4FrontendSafety Q3u4Enclosure.

Import DoubleBraceUpdate.
Open Scope Z_scope.

(** * The coordinator as a power authority *)

Section PowerFacts.
Context {HW : Type} `{Q3U4BackendPower HW}.

(** A supply reports its failures as failures. *)
Definition power_errors : Prop := forall b on (hw : HW), (set_backend_power b on hw).1 <> failure OK.

Lemma set_bridge_error b on (w : World HW) : power_errors -> (set_bridge_locked b on w).1 <> failure OK.
Proof.
  intros N. destruct w as [s hw]. unfold set_bridge_locked. destruct (is_disconnected _); [by destruct on|]. destruct (_ || _); [done|].
  specialize (N b on hw). destruct (set_backend_power b on hw) as [[[]|e] hw']; done.
Qed.
Lemma apply_error b (w : World HW) : power_errors -> (apply_desired_locked b w).1 <> failure OK.
Proof.
  intros N. unfold apply_desired_locked. pose proof (set_bridge_error b (desired_power_locked w.1 b) w N) as E.
  destruct (set_bridge_locked b _ w) as [[u|e] w1]; [by apply set_bridge_error|exact E].
Qed.
Lemma power_op_error op (w : World HW) : power_errors -> (Q3u4Power.run_op op w).1 <> failure OK.
Proof.
  intros N. destruct w as [s hw]. assert (forall prior b w, (acquire_locked prior b w).1 <> failure OK) as A.
  { intros prior b w. unfold acquire_locked. pose proof (apply_error b w N) as E. by destruct (apply_desired_locked b w) as [[]]. }
  destruct op; cbn [Q3u4Power.run_op].
  - unfold Q3u4Power.acquire_receiver. destruct (enclosure_disconnected_locked s); [done|]. destruct (7 <? id); [done|]. destruct (negb _); [done|]. apply A.
  - unfold Q3u4Power.release_receiver. repeat (case_match; try done); by apply apply_error.
  - unfold Q3u4Power.acquire_card. destruct (enclosure_disconnected_locked s); [done|]. destruct (card_acquired s); [done|]. apply A.
  - unfold Q3u4Power.release_card. repeat (case_match; try done); by apply apply_error.
  - unfold Q3u4Power.reconcile. repeat (case_match; try done); by apply apply_error.
  - unfold Q3u4Power.disconnect. by destruct (valid_bridge b).
Qed.

Lemma power_mask_u8 op (w : World HW) : is_u8 (receiver_mask w.1) -> is_u8 (receiver_mask (Q3u4Power.run_op op w).2.1).
Proof.
  intros M. destruct w as [s hw]. cbn [fst] in M.
  assert (forall b w, is_u8 (receiver_mask w.1) -> is_u8 (receiver_mask (apply_desired_locked b w).2.1)) as Ap.
  { intros b w Mw. by destruct (apply_logical b w) as [-> _]. }
  assert (forall b w, is_u8 (receiver_mask w.1) -> is_u8 (receiver_mask (acquire_locked s b w).2.1)) as Ac.
  { intros b w Mw. destruct (acquire_logical s b w) as [-> _]. by destruct (is_success _). }
  destruct op; cbn [Q3u4Power.run_op].
  - unfold Q3u4Power.acquire_receiver. repeat (case_match; try done). apply Ac, cast_u8_ok.
  - unfold Q3u4Power.release_receiver. repeat (case_match; try done). apply Ap, cast_u8_ok.
  - unfold Q3u4Power.acquire_card. repeat (case_match; try done). by apply Ac.
  - unfold Q3u4Power.release_card. repeat (case_match; try done). by apply Ap.
  - unfold Q3u4Power.reconcile. repeat (case_match; try done). by apply Ap.
  - unfold Q3u4Power.disconnect. destruct (valid_bridge b); [|done]. cbn. by case_bool_decide.
Qed.

(** While a receiver holds a reference, both supplies are recorded as on. *)
Definition mask_powers (w : World HW) : Prop :=
  receiver_mask w.1 <> 0 -> get (backend_state w.1) dev1 = PS_on /\ get (backend_state w.1) dev2 = PS_on.

Lemma desired_mask s b : receiver_mask s <> 0 -> desired_power_locked s b = true.
Proof. intros N. unfold desired_power_locked. by rewrite (proj2 (Z.eqb_neq _ _) N). Qed.
Lemma apply_on b (w : World HW) : valid_bridge b = true -> receiver_mask w.1 <> 0 -> mask_powers w -> apply_desired_locked b w = (success tt, w).
Proof.
  intros V N P. destruct (P N) as [P1 P2]. destruct w as [s hw]. cbn [fst] in *.
  assert (forall b', valid_bridge b' = true -> set_bridge_locked b' true (s, hw) = (success tt, (s, hw))) as S.
  { intros b' V'. unfold set_bridge_locked. assert (get (backend_state s) b' = PS_on) as -> by (destruct b'; done). done. }
  unfold apply_desired_locked. cbn [fst]. rewrite !desired_mask by done. rewrite S by done. cbn [fst]. rewrite desired_mask by done.
  apply S, other_bridge_valid.
Qed.
Lemma acquire_on s b hw m c : valid_bridge b = true -> mask_powers (s, hw) -> (receiver_mask s <> 0 -> m <> 0) ->
  mask_powers (acquire_locked s b (with_logical s m c, hw)).2.
Proof.
  intros V P M N. destruct (acquire_logical s b (with_logical s m c, hw)) as [Em _].
  destruct (decide (receiver_mask s = 0)) as [Z0|Nz].
  - destruct (acquire_locked s b (with_logical s m c, hw)) as [[[]|e] w1] eqn:A; cbn [is_success fst snd] in Em, N; [|congruence].
    unfold acquire_locked in A. destruct (apply_desired_locked b (with_logical s m c, hw)) as [[[]|e] w2] eqn:Ap; [|done]. injection A as <-.
    assert (forall b', valid_bridge b' = true -> converged w2.1 b') as Cv.
    { intros b' V'. pose proof (apply_converges b b' (with_logical s m c, hw)) as X. rewrite Ap in X. by apply X. }
    pose proof (Cv dev1 eq_refl) as C1. pose proof (Cv dev2 eq_refl) as C2. unfold converged in C1, C2.
    rewrite desired_mask in C1, C2 by exact N. destruct C1 as [[_ C1]|C1]; [done|]. by destruct C2 as [[_ C2]|C2].
  - assert (mask_powers (with_logical s m c, hw)) as P' by (intros _; by apply P).
    unfold acquire_locked. rewrite apply_on by auto. by apply P.
Qed.
Lemma release_on s b hw m c : valid_bridge b = true -> mask_powers (s, hw) -> (m <> 0 -> receiver_mask s <> 0) ->
  mask_powers (apply_desired_locked b (with_logical s m c, hw)).2.
Proof.
  intros V P M N. destruct (apply_logical b (with_logical s m c, hw)) as [Em _]. rewrite Em in N. cbn in N.
  rewrite apply_on; [|done|exact N|intros _; by apply P, M]. apply P, M, N.
Qed.
Lemma lor_u8 a b : is_u8 a -> is_u8 b -> a <> 0 -> cast_u8 (Z.lor a b) <> 0.
Proof.
  intros A B N. assert (is_u8 (Z.lor a b)) as L.
  { unfold is_u8 in *. split; [apply Z.lor_nonneg; lia|]. destruct (Z.eq_dec (Z.lor a b) 0) as [->|Z0]; [done|].
    apply Z.log2_lt_pow2; [assert (0 <= Z.lor a b) by (apply Z.lor_nonneg; lia); lia|]. rewrite Z.log2_lor by lia.
    apply Z.max_lub_lt; [|destruct (Z.eq_dec b 0) as [->|]; [done|]]; apply Z.log2_lt_pow2; lia. }
  unfold cast_u8. rewrite Z.mod_small by exact L. intros E. apply Z.lor_eq_0_iff in E. by destruct E.
Qed.
Lemma mask_powers_op op (w : World HW) : is_u8 (receiver_mask w.1) -> mask_powers w -> mask_powers (Q3u4Power.run_op op w).2.
Proof.
  intros U P. destruct w as [s hw]. destruct op; cbn [Q3u4Power.run_op].
  - unfold Q3u4Power.acquire_receiver. case_match; [done|]. destruct (7 <? id) eqn:L; [done|]. case_match; [done|].
    apply acquire_on; [apply receiver_bridge_valid|done|]. intros N. apply lor_u8; [exact U|apply cast_u8_ok|exact N].
  - unfold Q3u4Power.release_receiver. repeat (case_match; try done). apply release_on; [apply receiver_bridge_valid|done|]. intros N E. apply N. rewrite E. by rewrite Z.land_0_l.
  - unfold Q3u4Power.acquire_card. repeat (case_match; try done). by apply acquire_on.
  - unfold Q3u4Power.release_card. repeat (case_match; try done). by apply release_on.
  - unfold Q3u4Power.reconcile. repeat (case_match; try done). intros N. destruct (apply_logical dev1 (s, hw)) as [Em _]. rewrite Em in N. rewrite apply_on by done. by apply P.
  - unfold Q3u4Power.disconnect. destruct (valid_bridge b); [|done]. cbn. intros N. exfalso. apply N. by case_bool_decide.
Qed.
End PowerFacts.

(** ** What a bank holds is what the coordinator has recorded *)

Section Reach.
Context {HW : Type} `{Q3U4BackendPower HW}.

Definition reached (hw0 : HW) (w : World HW) : Prop := exists ops, w = run_ops ops (init_snapshot, hw0).

Lemma reached_op hw0 op w : reached hw0 w -> reached hw0 (Q3u4Power.run_op op w).2.
Proof. intros [ops ->]. exists (ops ++ [op]). unfold run_ops. by rewrite foldl_app. Qed.
Lemma reached_mask hw0 w : reached hw0 w -> is_u8 (receiver_mask w.1) /\ mask_powers w.
Proof.
  intros [ops ->]. induction ops as [|op ops IH] using rev_ind; [by split|].
  unfold run_ops. rewrite foldl_app. destruct IH as [U P]. split; [by apply power_mask_u8|by apply mask_powers_op].
Qed.

(** The references of the receivers of a bank. *)
Definition bits (b : Q3U4Bridge) (held : nat -> bool) (s : Q3U4PowerSnapshot) : Prop :=
  forall j, (j < 4)%nat -> holds s (global_base b + Z.of_nat j) = held j.

Lemma bits_ext b f g s : (forall j, f j = g j) -> bits b f s -> bits b g s.
Proof. intros E B j J. rewrite <- E. by apply B. Qed.
Lemma global_range b j : (j < 4)%nat -> 0 <= global_base b + Z.of_nat j < 8.
Proof. destruct b; cbn [global_base]; lia. Qed.

Lemma acquire_bits b j b' f (w : World HW) : (j < 4)%nat -> valid_bridge b = true -> valid_bridge b' = true -> is_u8 (receiver_mask w.1) -> bits b' f w.1 ->
  let o := Q3u4Power.acquire_receiver (global_base b + Z.of_nat j) w in
  bits b' (if is_success o.1 && bool_decide (b' = b) then upd j true f else f) o.2.1.
Proof.
  intros J V V' U B o i I. pose proof (global_range b j J) as Rj. pose proof (global_range b' i I) as Ri.
  destruct (references_tracked (AcquireReceiver (global_base b + Z.of_nat j)) w (global_base b' + Z.of_nat i) U Ri ltac:(unfold is_u8; lia)) as [T _].
  cbn [Q3u4Power.run_op references fst] in T. fold o in T. rewrite T. clear T. destruct (is_success o.1); cbn [fst andb]; [|by apply B].
  rewrite B by done. case_bool_decide as E; [subst b'; unfold upd; destruct (Nat.eqb_spec i j) as [->|N]|].
  - by rewrite Z.eqb_refl.
  - by rewrite (proj2 (Z.eqb_neq _ _)) by lia.
  - rewrite (proj2 (Z.eqb_neq _ _)); [done|]. destruct b, b'; cbn [global_base]; (done || lia).
Qed.
Lemma release_bits b j b' f (w : World HW) : (j < 4)%nat -> valid_bridge b = true -> valid_bridge b' = true -> is_u8 (receiver_mask w.1) -> bits b' f w.1 ->
  bits b' (if bool_decide (b' = b) then upd j false f else f) (Q3u4Power.release_receiver (global_base b + Z.of_nat j) w).2.1.
Proof.
  intros J V V' U B i I. pose proof (global_range b j J) as Rj. pose proof (global_range b' i I) as Ri.
  destruct (references_tracked (ReleaseReceiver (global_base b + Z.of_nat j)) w (global_base b' + Z.of_nat i) U Ri ltac:(unfold is_u8; lia)) as [T _].
  cbn [Q3u4Power.run_op references fst] in T. rewrite (proj2 (Z.leb_le _ _)) in T by lia. cbn [fst] in T. rewrite T. clear T.
  rewrite B by done. case_bool_decide as E; [subst b'; unfold upd; destruct (Nat.eqb_spec i j) as [->|N]|].
  - by rewrite Z.eqb_refl.
  - by rewrite (proj2 (Z.eqb_neq _ _)) by lia.
  - rewrite (proj2 (Z.eqb_neq _ _)); [done|]. destruct b, b'; cbn [global_base]; (done || lia).
Qed.
End Reach.

Section Coupling.
Context {HW C : Type} `{Q3U4BackendPower HW} `{EnclosureChipsLaws C}.
Hypothesis errors : power_errors (HW := HW).
Variables (hw0 : HW) (intact : bool).

Definition nothing_held (s : Q3U4PowerSnapshot) : Prop := receiver_mask s = 0 /\ enclosure_disconnected s = true /\ card_acquired s = false.

(** The bank of [b] holds what its watch says, and the other bank keeps what it has; once a bridge
    has been reported lost, nothing is held. *)
Definition Coupled (b : Q3U4Bridge) (others : nat -> bool) (d : World HW * C) (w : Watch) : Prop :=
  reached hw0 d.1 /\ (forall j, held w j = true -> (j < 4)%nat) /\
  if intact then gone w = false /\ bits b (held w) d.1.1 /\ bits (other_bridge b) others d.1.1
  else nothing_held d.1.1.

Lemma coupled_same b others w0 ch ch' w w' : held w' = held w -> gone w' = gone w -> Coupled b others (w0, ch) w -> Coupled b others (w0, ch') w'.
Proof. unfold Coupled. cbn [fst]. by intros -> ->. Qed.

Lemma not_power {A} base (c : DevCall A) r w : authority_call (HW := HW) base c = None ->
  held (effect c r w) = held w /\ gone (effect c r w) = gone w.
Proof.
  destruct c; cbn [authority_call]; intros E; try done; cbn [effect]; repeat case_match; done.
Qed.
Lemma lawful_global b w g : (g =? cast_u8 (global_base b + Z.of_nat (target w))) = true -> (target w < 4)%nat ->
  g = global_base b + Z.of_nat (target w) /\ out_of_bank (global_base b) g = false.
Proof.
  intros E T. apply Z.eqb_eq in E. pose proof (global_range b _ T) as R.
  assert (g = global_base b + Z.of_nat (target w)) as -> by (rewrite E; unfold cast_u8; rewrite Z.mod_small by lia; done).
  split_and!; [done..|]. unfold out_of_bank. apply orb_false_iff. split; [apply Z.ltb_ge|apply Z.leb_gt]; lia.
Qed.

Lemma coupled_acquire b others w0 ch w g : valid_bridge b = true -> Coupled b others (w0, ch) w ->
  (target w < 4)%nat -> g = global_base b + Z.of_nat (target w) ->
  let o := Q3u4Power.acquire_receiver g w0 in
  Coupled b others (o.2, ch) (effect (power_acquire g) o.1 (w{{ purged := false }})) /\ o.1 <> failure OK.
Proof.
  intros V (Re & F & I) T Eg o. pose proof (reached_mask _ _ Re) as [U _]. split; [|exact (power_op_error (AcquireReceiver g) w0 errors)].
  split; [exact (reached_op hw0 (AcquireReceiver g) w0 Re)|]. cbn [fst effect] in *. split.
  { intros j. destruct (is_success o.1); [|by apply F]. change (upd (target w) true (held w) j = true -> (j < 4)%nat).
    unfold upd. destruct (Nat.eqb_spec j (target w)) as [->|]; [done|by apply F]. } destruct intact.
  - destruct I as (G & B & Bo). split; [by destruct (is_success o.1)|].
    pose proof (acquire_bits b (target w) b (held w) w0 T V V U B) as B'. cbv zeta in B'. rewrite <- Eg in B'. fold o in B'. rewrite (bool_decide_eq_true_2 _ (eq_refl b)), andb_true_r in B'.
    pose proof (acquire_bits b (target w) (other_bridge b) others w0 T V (other_bridge_valid b) U Bo) as Bo'. cbv zeta in Bo'. rewrite <- Eg in Bo'. fold o in Bo'.
    rewrite (bool_decide_eq_false_2 _ (other_bridge_ne b)), andb_false_r in Bo'. split; [|exact Bo']. by destruct (is_success o.1).
  - pose proof I as (M & D & _). assert (o = (failure DISCONNECTED, w0)) as ->; [|exact I].
    unfold o, Q3u4Power.acquire_receiver. destruct w0 as [s hw]. cbn [fst] in D. unfold enclosure_disconnected in D. by rewrite D.
Qed.
Lemma coupled_release b others w0 ch w g r : valid_bridge b = true -> Coupled b others (w0, ch) w ->
  (target w < 4)%nat -> g = global_base b + Z.of_nat (target w) ->
  Coupled b others ((Q3u4Power.release_receiver g w0).2, ch) (effect (power_release g) r (w{{ purged := false }})).
Proof.
  intros V (Re & F & I) T Eg. pose proof (reached_mask _ _ Re) as [U _]. split; [exact (reached_op hw0 (ReleaseReceiver g) w0 Re)|]. cbn [fst effect] in *. split.
  { intros j. change (upd (target w) false (held w) j = true -> (j < 4)%nat). unfold upd. destruct (Nat.eqb_spec j (target w)) as [->|]; [done|by apply F]. } destruct intact.
  - destruct I as (G & B & Bo). split; [done|].
    pose proof (release_bits b (target w) b (held w) w0 T V V U B) as B'. rewrite <- Eg in B'. rewrite (bool_decide_eq_true_2 _ (eq_refl b)) in B'.
    pose proof (release_bits b (target w) (other_bridge b) others w0 T V (other_bridge_valid b) U Bo) as Bo'. rewrite <- Eg in Bo'.
    rewrite (bool_decide_eq_false_2 _ (other_bridge_ne b)) in Bo'. done.
  - pose proof I as (M & D & _). enough ((Q3u4Power.release_receiver g w0).2 = w0) as -> by done.
    destruct w0 as [s hw]. unfold Q3u4Power.release_receiver. destruct (7 <? g); [done|]. cbn [fst] in M. by rewrite M.
Qed.

Context (b : Q3U4Bridge) (V : valid_bridge b = true) (others : nat -> bool) (has_purger : bool).

#[export] Instance coupled_laws : BankDevicesLaws (global_base b) has_purger (World HW * C) (H := bank_devices b).
Proof.
  refine (Build_BankDevicesLaws (global_base b) has_purger (World HW * C) (bank_devices b) (Coupled b others) _). intros A c [w0 ch] w L G.
  unfold dev_call, bank_devices. cbn [fst snd]. destruct (authority_call (global_base b) c) as [f|] eqn:Ac.
  - destruct c; try done; cbn [lawful] in G; cbn [authority_call] in Ac; apply (inj Some) in Ac; subst f; rewrite !andb_true_iff in G.
    + rename global_receiver into g. destruct G as [[[_ E] T] _]. apply Nat.ltb_lt in T as T'. destruct (lawful_global b w g E T') as (Eg & O).
      pose proof (coupled_acquire b others w0 ch w g V L T' Eg) as [Co N].
      unfold coordinator_acquire_receiver. rewrite O. destruct (Q3u4Power.acquire_receiver g w0) as [r w1]. by exists r, (w1, ch).
    + rename global_receiver into g. destruct G as [[[_ E] T] _]. pose proof (proj1 (proj2 L) _ T) as T'. destruct (lawful_global b w g E T') as (Eg & O).
      pose proof (fun r => coupled_release b others w0 ch w g r V L T' Eg) as Co. pose proof (power_op_error (ReleaseReceiver g) w0 errors) as N.
      cbn [Q3u4Power.run_op] in N. unfold coordinator_release_receiver. rewrite O.
      destruct (Q3u4Power.release_receiver g w0) as [r w1]. cbn [fst snd] in *. destruct (_ && _); eexists _, (w1, ch); (split; [reflexivity|]); (split; [apply Co|done]).
  - destruct (chip_returns b A c ch) as (r & ch' & E & N). rewrite E. exists r, (w0, ch'). split; [done|]. split; [|done].
    destruct (not_power (global_base b) c r (w{{ purged := false }}) Ac) as [E1 E2]. exact (coupled_same b others w0 ch ch' w _ E1 E2 L).
Defined.
End Coupling.

(** * Every sequence of operations *)

Section Clients.
Context {HW C : Type} `{Q3U4BackendPower HW} `{EnclosureChipsLaws C}.
Hypothesis errors : power_errors (HW := HW).
Variables (hw0 : HW) (has_purger : PerBridge bool).
Abbreviation Encl := (Enclosure HW C).

(** Every bank agrees with a watch, and the references of the watches are those of the coordinator. *)
Definition Inv (intact : bool) (e : Encl) : Prop := reached hw0 e.2.1 /\
  exists ws : Q3U4Bridge -> Watch,
    (forall b, valid_bridge b = true -> Agree (get e.1 b) (ws b) /\ forall j, held (ws b) j = true -> (j < 4)%nat) /\
    if intact then forall b, valid_bridge b = true -> gone (ws b) = false /\ bits b (held (ws b)) e.2.1.1
    else nothing_held e.2.1.1.

Definition at_bank {A} (ws : Q3U4Bridge -> A) (b : Q3U4Bridge) (w : A) : Q3U4Bridge -> A := fun b' => if decide (b' = b) then w else ws b'.
Lemma at_bank_eq {A} (ws : Q3U4Bridge -> A) b w : at_bank ws b w b = w.
Proof. unfold at_bank. by rewrite decide_True. Qed.
Lemma at_bank_other {A} (ws : Q3U4Bridge -> A) b w : at_bank ws b w (other_bridge b) = ws (other_bridge b).
Proof. unfold at_bank. rewrite decide_False; [done|apply other_bridge_ne]. Qed.

Lemma announce_held op w : held (announce op w) = held w.
Proof. by destruct op. Qed.
Lemma announce_gone op w : match op with Op_lost => False | _ => gone (announce op w) = gone w end \/ op = Op_lost.
Proof. destruct op; auto. Qed.

Lemma bank_step intact b op (e : Encl) : valid_bridge b = true -> op <> Op_lost -> op_ok op -> Inv intact e ->
  exists r e', on_bank b (Q3u4FrontendProtocol.run_op (H := bank_devices b) (global_base b) (get has_purger b) op) e = Some (r, e') /\ Inv intact e'.
Proof.
  intros V N Ok (Re & ws & Ag & I). destruct (Ag b V) as [A F]. destruct (Ag _ (other_bridge_valid b)) as [Ao Fo].
  destruct (op_agrees (H0 := coupled_laws errors hw0 intact b V (held (ws (other_bridge b))) (get has_purger b)) op (get e.1 b) (ws b) A Ok e.2)
    as (r & bk & d & w & E & (Re' & F' & L) & A').
  { split; [exact Re|]. rewrite announce_held. split; [exact F|]. destruct intact; [|exact I]. destruct (I b V) as [G B]. split; [by destruct op|].
    split; [exact B|]. apply (I _ (other_bridge_valid b)). }
  exists r, (set e.1 b bk, d). unfold on_bank. rewrite E. split; [done|]. split; [exact Re'|]. exists (at_bank ws b w). split.
  - intros b' V'. destruct (bridge_cases b b' V V') as [ -> | -> ]; cbn [fst].
    + by rewrite at_bank_eq, get_set_eq.
    + rewrite at_bank_other, get_set_other by (try apply not_eq_sym; first [apply other_bridge_ne|done]). done.
  - destruct intact; [|exact L]. destruct L as (G & B & Bo). intros b' V'. destruct (bridge_cases b b' V V') as [ -> | -> ]; cbn [fst snd].
    + by rewrite at_bank_eq.
    + rewrite at_bank_other. split; [|exact Bo]. apply (I _ V').
Qed.

Lemma bank_part_ok op g f : bank_part op = Some (g, f) -> enc_ok op -> is_u8 g /\ forall l, 0 <= l -> f l <> Op_lost /\ op_ok (f l).
Proof.
  intros E. unfold enc_ok. rewrite E. intros [U T]. split; [exact U|]. intros l L.
  destruct op; cbn [bank_part] in E; try done; apply (inj Some), pair_eq in E as [<- <-]; (split; [done|by split]).
Qed.
Lemma bank_part_runs op g f (e : Encl) : bank_part op = Some (g, f) ->
  run_enc has_purger op e = routed g (fun b l => Q3u4FrontendProtocol.run_op (H := bank_devices b) (global_base b) (get has_purger b) (f l)) e.
Proof.
  assert (forall s g, run_enc has_purger (E_is_locked s g) e =
    routed g (fun b l => Q3u4FrontendProtocol.run_op (H := bank_devices b) (global_base b) (get has_purger b) (Op_is_locked s l)) e) as Q.
  { intros s g'. assert (run_enc has_purger (E_is_locked s g') e =
      (_ ← routed g' (fun b l => is_locked (H := bank_devices b) l s); mret tt) e) as -> by by destruct s.
    unfold routed. destruct (map_receiver g') as [mp|er]; [|done]. unfold from_result, on_bank, mbind, Io_bind. cbn.
    unfold mbind, Io_bind. by destruct (is_locked _ _ _) as [[[] [? ?]]|]. }
  destruct op as [[]|[]| | |[]|[]| | | | | |]; cbn [bank_part]; intros E; try done; apply (inj Some), pair_eq in E as [<- <-]; first [done|apply Q].
Qed.
Lemma map_receiver_ok g mp : is_u8 g -> map_receiver g = success mp ->
  valid_bridge (em_bridge mp) = true /\ 0 <= local_receiver mp < 4 /\ g = global_base (em_bridge mp) + local_receiver mp.
Proof.
  unfold map_receiver, is_u8. intros U. destruct (Z.leb_spec 8 g); [done|]. intros E. injection E as <-. cbn [em_bridge local_receiver].
  assert (0 <= g mod 4 < 4) as R by (apply Z.mod_pos_bound; lia). unfold cast_u8. rewrite (Z.mod_small (g mod 4)) by lia.
  destruct (Z.ltb_spec g 4); cbn [global_base valid_bridge]; (split; [done|]); (split; [done|]); Z.to_euclidean_division_equations; lia.
Qed.

Lemma routed_step intact op g f (e : Encl) : bank_part op = Some (g, f) -> enc_ok op -> Inv intact e ->
  exists r e', run_enc has_purger op e = Some (r, e') /\ Inv intact e'.
Proof.
  intros E Ok I. destruct (bank_part_ok op g f E Ok) as [U F]. rewrite (bank_part_runs op g f e E). unfold routed.
  destruct (map_receiver g) as [mp|er] eqn:M; [|by exists (failure er), e].
  destruct (map_receiver_ok g mp U M) as (V & L & _). destruct (F (local_receiver mp) ltac:(lia)) as [N Fo].
  destruct (bank_step intact (em_bridge mp) (f (local_receiver mp)) e V N Fo I) as (r & e' & R & I'). exists r, e'. split; [|exact I'].
  exact R.
Qed.

(** The operations that concern the card, and reconciliation. *)
Lemma other_refs op (w : World HW) : op = AcquireCard \/ op = ReleaseCard \/ op = Reconcile -> is_u8 (receiver_mask w.1) ->
  (forall b f, bits b f w.1 -> bits b f (Q3u4Power.run_op op w).2.1) /\ (nothing_held w.1 -> nothing_held (Q3u4Power.run_op op w).2.1).
Proof.
  intros O U. split.
  - intros b f B j J. destruct (references_tracked op w (global_base b + Z.of_nat j) U (global_range b j J) ltac:(by destruct O as [ -> |[ -> | -> ]])) as [T _].
    rewrite T, <- (B j J). destruct O as [ -> |[ -> | -> ]]; cbn; by destruct (is_success _).
  - intros (M & D & K). destruct w as [s hw]. cbn [fst] in *. unfold enclosure_disconnected in D.
    destruct O as [ -> |[ -> | -> ]]; cbn [Q3u4Power.run_op]; unfold Q3u4Power.acquire_card, Q3u4Power.release_card, Q3u4Power.reconcile;
      rewrite ?D, ?K; done.
Qed.
Lemma coordinator_step intact op f (e : Encl) : op = AcquireCard \/ op = ReleaseCard \/ op = Reconcile ->
  (forall w, (f w).2 = (Q3u4Power.run_op op w).2) -> Inv intact e -> exists r e', coordinator f e = Some (r, e') /\ Inv intact e'.
Proof.
  intros O F (Re & ws & Ag & I). unfold coordinator. specialize (F e.2.1). destruct (f e.2.1) as [r w]. cbn [snd] in F. subst w.
  exists r, (e.1, ((Q3u4Power.run_op op e.2.1).2, e.2.2)). split; [done|]. pose proof (reached_mask _ _ Re) as [U _]. destruct (other_refs op e.2.1 O U) as [B N].
  split; [by apply reached_op|]. exists ws. split; [exact Ag|]. cbn [fst snd]. destruct intact; [|by apply N].
  intros b V. destruct (I b V) as [G Bb]. split; [exact G|by apply B].
Qed.

Lemma disconnect_ends b (w : World HW) : valid_bridge b = true -> (disconnect b w).1 = success tt /\ nothing_held (disconnect b w).2.1.
Proof.
  intros V. destruct w as [s hw]. unfold disconnect. rewrite V. split; [done|]. unfold nothing_held, enclosure_disconnected, enclosure_disconnected_locked.
  destruct b; try done; cbn; case_bool_decide; cbn; by rewrite ?orb_true_r.
Qed.
Lemma lost_step intact b (e : Encl) : Inv intact e ->
  exists r e', mark_bridge_disconnected b e = Some (r, e') /\ Inv (if valid_bridge b then false else intact) e'.
Proof.
  intros (Re & ws & Ag & I). unfold mark_bridge_disconnected, mbind, Io_bind, coordinator. pose proof (reached_op hw0 (Disconnect b) _ Re) as Re'.
  cbn [Q3u4Power.run_op] in Re'. destruct (valid_bridge b) eqn:V.
  - destruct (disconnect_ends b e.2.1 V) as [S N]. destruct (disconnect b e.2.1) as [r w]. cbn [fst snd] in *. subst r.
    eexists _, _. split; [reflexivity|]. split; [exact Re'|]. exists (at_bank ws b ((ws b){{ gone := true }})). split; [|exact N].
    intros b' V'. destruct (bridge_cases b b' V V') as [ -> | -> ]; cbn [fst].
    + rewrite at_bank_eq, get_set_eq. destruct (Ag b V) as [[[? ? ? ? ?] _] F]. split; [|exact F]. constructor; [by constructor|done].
    + rewrite at_bank_other, get_set_other by (try apply not_eq_sym; first [apply other_bridge_ne|apply other_bridge_valid|done]). by apply Ag.
  - exists (failure INVALID_ARGUMENT), e. split; [|split; [exact Re|by exists ws]].
    destruct e as [banks [[s hw] ch]]. unfold disconnect. cbn [fst snd]. by rewrite V.
Qed.

Lemma enc_step intact op (e : Encl) : enc_ok op -> Inv intact e ->
  exists r e', run_enc has_purger op e = Some (r, e') /\ Inv (if is_loss op then false else intact) e'.
Proof.
  intros Ok I. destruct (bank_part op) as [[g f]|] eqn:E.
  - assert (is_loss op = false) as -> by by destruct op. by eapply routed_step.
  - destruct op as [| | | | | | | | | | |b]; try done; cbn [run_enc is_loss].
    + eapply (coordinator_step _ AcquireCard); [by left|done|exact I].
    + eapply (coordinator_step _ ReleaseCard); [by right; left| |exact I]. intros w. cbn [Q3u4Power.run_op]. cbv zeta. by destruct (_ && _).
    + eapply (coordinator_step _ Reconcile); [by right; right|done|exact I].
    + by apply lost_step.
Qed.
Lemma enc_run ops : forall intact (e : Encl), Forall enc_ok ops -> Inv intact e ->
  exists e', run_enclosure has_purger ops e = Some e' /\ Inv (intact && negb (existsb is_loss ops)) e'.
Proof.
  induction ops as [|op ops IH]; intros intact e F I; [exists e; by rewrite andb_true_r|]. apply Forall_cons in F as [Ok F].
  destruct (enc_step intact op e Ok I) as (r & e1 & E & I1). cbn [run_enclosure existsb]. rewrite E.
  destruct (IH _ e1 F I1) as (e2 & E2 & I2). exists e2. split; [exact E2|]. destruct (is_loss op); [by rewrite andb_false_r|exact I2].
Qed.
Lemma new_inv ch : Inv true (new_enclosure hw0 ch).
Proof.
  split; [by exists []|]. exists (fun _ => new_watch). split; [|intros b V; split; [done|]; intros j J; exact (Z.bits_0 _)].
  intros b V. split; [|done]. destruct b; exact new_agrees.
Qed.

(** What a receiver's state says about the coordinator. *)
Lemma inv_receiver (e : Encl) g : Inv true e -> 0 <= g < 8 -> holds (power_snapshot e) g = negb (is_closed (receiver_state e g)).
Proof.
  intros (Re & ws & Ag & I) Rg. unfold receiver_state. destruct (map_receiver g) as [mp|er] eqn:M.
  2: { unfold map_receiver in M. by rewrite (proj2 (Z.leb_gt _ _)) in M by lia. }
  destruct (map_receiver_ok g mp ltac:(unfold is_u8; lia) M) as (V & L & Eg). destruct (Ag _ V) as [[Sh Al] _]. destruct (I _ V) as [G B].
  assert (disconnected_ (get e.1 (em_bridge mp)) = false) as D by by rewrite <- (sh_gone _ _ Sh).
  unfold Q3u4Frontend.receiver_state, valid_local_receiver. rewrite (proj2 (Z.ltb_lt _ _)), D by lia. cbn [negb].
  assert (receiver_index (local_receiver mp) < 4)%nat as J by (unfold receiver_index; lia). destruct (Al D _ J) as [R _].
  unfold ref_agrees in R. rewrite <- R, <- (B _ J). unfold receiver_index. rewrite Z2Nat.id by lia. by rewrite <- Eg.
Qed.
Lemma inv_supplied (e : Encl) g : Inv true e -> 0 <= g < 8 -> receiver_state e g <> closed ->
  get (backend_state (power_snapshot e)) dev1 = PS_on /\ get (backend_state (power_snapshot e)) dev2 = PS_on.
Proof.
  intros I Rg N. pose proof (inv_receiver e g I Rg) as Hd. destruct I as [Re _]. destruct (reached_mask _ _ Re) as [_ P]. apply P.
  intros Z0. unfold power_snapshot, holds in Hd. rewrite Z0, Z.bits_0 in Hd. unfold is_closed in Hd. by rewrite bool_decide_eq_false_2 in Hd.
Qed.
End Clients.

Section Powered.
Context {HW C : Type} `{BackendPowerLaws HW} `{EnclosureChipsLaws C}.

(** C12 Whatever is asked of the two banks, of the card's supply and of the
    coordinator, in whatever order, and however chips and supplies fail: every
    operation comes to an end.  While no bridge has been reported lost, the coordinator holds a reference for exactly
    the receivers that are in use, and a receiver in use has the supplies of
    both bridges on; once one has been reported lost, nothing is held any more, whatever is still asked. *)
Theorem enclosure_powered ops (hw : HW) (ch : C) (has_purger : PerBridge bool) :
  power_errors (HW := HW) -> Q3u4Power.powered hw dev1 = false -> Q3u4Power.powered hw dev2 = false -> Forall enc_ok ops ->
  exists e, run_enclosure has_purger ops (new_enclosure hw ch) = Some e /\
    (existsb is_loss ops = true -> receiver_mask (power_snapshot e) = 0 /\ card_acquired (power_snapshot e) = false) /\
    (existsb is_loss ops = false -> forall g, 0 <= g < 8 ->
      holds (power_snapshot e) g = negb (is_closed (receiver_state e g)) /\
      (receiver_state e g <> closed -> Q3u4Power.powered e.2.1.2 dev1 = true /\ Q3u4Power.powered e.2.1.2 dev2 = true)).
Proof.
  intros Er P1 P2 Ok. destruct (enc_run Er hw has_purger ops true _ Ok (new_inv hw ch)) as (e & E & I). exists e. split; [exact E|]. cbn [andb] in I.
  split; intros L; rewrite L in I; cbn [negb] in I; [destruct I as (_ & ws & _ & M & _ & K); by split|].
  intros g Rg. split; [by eapply inv_receiver|]. intros N. destruct (inv_supplied _ _ _ I Rg N) as [S1 S2]. destruct I as [[po Re] _].
  pose proof (power_state_agrees po hw P1 P2) as A. rewrite <- Re in A. split; [exact (proj1 (A dev1 eq_refl) S1)|exact (proj1 (A dev2 eq_refl) S2)].
Qed.
End Powered.

(** ** An enclosure to run *)

(** Chips that always succeed. *)
#[export] Instance ready_chips : EnclosureChips unit := { chip_call b A c ch := match c in DevCall A return option (Result A * unit) with
    | tuner_is_pll_locked _ | tc_is_signal_locked _ _ => Some (success true, ch)
    | tc_get_tsid_s _ | tc_tmcc_get_tsid_s _ _ => Some (success 0x4010, ch)
    | tc_write_multiple_regs _ _ | tc_write_reg _ _ _ | tc_enable_ts_pins _ _ _ | tc_sleep _ _ _ | tc_set_agc _ _ _ | tc_set_tsid_s _ _
    | tuner_initialize _ | tuner_terminate _ | tuner_sleep _ | rt710_set_params _ _ _ _ | r850_wakeup _ | r850_set_system _ _ | r850_set_frequency _ _
    | delay_sleep_ms _ | psb_purge | power_acquire _ | power_release _ => Some (success tt, ch)
    end }.
#[export] Instance ready_laws : EnclosureChipsLaws unit.
Proof. constructor. intros b A c []. by destruct c; eexists _, _. Qed.

(** Supplies with a script of the writes that get through. *)
Definition FaultyHW : Type := PerBridge bool * list bool.
#[export] Instance faulty_backend : Q3U4BackendPower FaultyHW := {
  set_backend_power b on hw := if hd true hw.2 then (success tt, (set hw.1 b on, tl hw.2)) else (failure USB_IO, (hw.1, tl hw.2)) }.
#[export] Instance faulty_laws : BackendPowerLaws FaultyHW.
Proof.
  refine {| Q3u4Power.powered := fun hw b => get hw.1 b |}; intros; cbn in *; destruct (hd true hw.2); try done; cbn; [apply get_set_eq|by apply get_set_other].
Defined.

(** The second supply fails when the first receiver is opened. *)
Definition retried : list EncOp :=
  [E_open TC_isdb_s 0; E_open TC_isdb_s 0; E_tune TC_isdb_s 0 1049480 500; E_acquire_card; E_open TC_isdb_t 6; E_close 0].

Lemma enclosure_powered_witness : exists e,
  run_enclosure {| at_dev1 := true; at_dev2 := false |} retried (new_enclosure ((cold, [true; false]) : FaultyHW) tt) = Some e /\
  map (receiver_state e) [0; 6] = [closed; open] /\ holds (power_snapshot e) 6 = true /\ Q3u4Power.powered e.2.1.2 dev1 = true.
Proof.
  destruct (enclosure_powered retried ((cold, [true; false]) : FaultyHW) tt {| at_dev1 := true; at_dev2 := false |}) as (e & E & _ & G).
  - intros b on hw. cbn. by destruct (hd true hw.2).
  - reflexivity.
  - reflexivity.
  - repeat (apply Forall_cons; split; [repeat split; vm_compute; done|]). constructor.
  - exists e. split; [exact E|]. destruct (G eq_refl 6 ltac:(lia)) as [Hd P].
    assert (map (receiver_state e) [0; 6] = [closed; open]) as S.
    { match type of E with ?x = _ => let y := eval vm_compute in x in assert (y = Some e) as E' by exact E end. injection E' as <-. reflexivity. }
    injection S as S0 S6. cbn [map]. rewrite S0, S6. rewrite S6 in Hd, P. split; [done|]. split; [exact Hd|]. by apply P.
Defined.
