(* ===== verification/ControlTasks.v ===== *)
(** The tasks of the daemon's worker threads ([src/control_workers.cpp/.h]): what is
    asked of the card service and the tuner service, which lane may run it, and
    what a completion says.  The two services are an interface of calls that may
    answer anything. *)

From coqutil Require Import Datatypes.RecordSetters.
From S2P Require Import Prelude IpcTypes.
From S2P Require CardAtr TunerService CardService StreamSession.

Import DoubleBraceUpdate.
Import CardAtr(CardAtr, empty_atr).
Import TunerService(TunerAcquireResult, acquired_lease_id, acquired_nonce, TunerStatus, ts_generation, ts_states, TunerAttachment, error_of).
Import CardService(CardServiceStatus, CardPresenceChange, no_change, CardServiceConnectResult).
Import StreamSession(StreamCounters, zero_counters, TunerStreamFinalSnapshot, no_snapshot, no_attachment).
Open Scope Z_scope.

(** * Data *)

Definition kControlWorkerQueueCapacity : nat := 64.

Inductive ControlWorkerLane := tuner_dev1 | tuner_dev2 | card_lane.
#[export] Instance ControlWorkerLane_eq_dec : EqDecision ControlWorkerLane.
Proof. solve_decision. Defined.

Inductive ControlWorkerOperation :=
  | tuner_acquire | tuner_release | tuner_tune | tuner_start_stream | tuner_stop_stream | tuner_stats
  | tuner_attach_stream | tuner_detach_stream | tuner_status | tuner_shutdown
  | card_status | card_handle_status | card_status_combined | card_presence | card_connect | card_reconnect
  | card_disconnect | card_reset | card_transmit | card_begin_transaction | card_end_transaction
  | card_release_connection | card_shutdown.
#[export] Instance ControlWorkerOperation_eq_dec : EqDecision ControlWorkerOperation.
Proof. solve_decision. Defined.

Inductive ControlWorkerTaskKind := client_request | cleanup | background.
#[export] Instance ControlWorkerTaskKind_eq_dec : EqDecision ControlWorkerTaskKind.
Proof. solve_decision. Defined.

(** [apdu] holds the [apdu_size] bytes that are in use. *)
Record ControlWorkerTask := mkTask {
  t_type : MessageType;
  t_kind : ControlWorkerTaskKind;
  t_operation : ControlWorkerOperation;
  t_client_id : Z;
  t_connection_id : Z;
  t_request_id : Z;
  t_receiver : Z;
  t_lease_id : Z;
  t_card_handle : Z;
  t_share_mode : ShareMode;
  t_card_generation_bound : bool;
  t_disposition : Disposition;
  t_tune : TuneRequestPayload;
  t_apdu : list Z;
  t_nonce : list Z;
  t_attachment : TunerAttachment;
  t_attachment_valid : bool;
}.
Definition default_tune : TuneRequestPayload := {|
  tune_lease_id := 0; tune_system := System_other 0; frequency_khz := 0; stream_id := 0; slot := 0; bandwidth_hz := 0; lnb_voltage := 0; timeout_ms := 0 |}.
Definition zero_nonce : list Z := replicate (Z.to_nat kNonceLength) 0.
(** [ControlWorkerTask{}] with its operation. *)
Definition new_task (kind : ControlWorkerTaskKind) (operation : ControlWorkerOperation) : ControlWorkerTask :=
  mkTask STATUS kind operation 0 0 0 0 0 0 SM_shared false DP_leave default_tune [] zero_nonce no_attachment false.

Record ControlWorkerCompletion := mkCompletion {
  c_type : MessageType;
  c_kind : ControlWorkerTaskKind;
  c_operation : ControlWorkerOperation;
  c_client_id : Z;
  c_connection_id : Z;
  c_request_id : Z;
  c_receiver : Z;
  c_lease_id : Z;
  c_card_handle : Z;
  c_error : Error;
  c_tuner_acquire : TunerAcquireResult;
  c_tuner_status : TunerStatus;
  c_tuner_status_valid : bool;
  c_tune_response : TuneResponsePayload;
  c_stream_counters : StreamCounters;
  c_stream_final_snapshot : TunerStreamFinalSnapshot;
  c_stream_snapshot_valid : bool;
  c_tuner_attachment : TunerAttachment;
  c_tuner_attachment_valid : bool;
  c_card_status : CardServiceStatus;
  c_card_presence : CardPresenceChange;
  c_card_connect : CardServiceConnectResult;
  c_atr : CardAtr;
  c_card_response : list Z;
}.

(** ** The lanes *)

Definition lane_of_receiver (receiver : Z) : ControlWorkerLane := if receiver <? 4 then tuner_dev1 else tuner_dev2.
Definition operation_lane_valid (lane : ControlWorkerLane) (task : ControlWorkerTask) : bool :=
  match t_operation task with
  | tuner_status | tuner_shutdown => bool_decide (lane = tuner_dev1)
  | tuner_acquire | tuner_release | tuner_tune | tuner_start_stream | tuner_stop_stream | tuner_stats
  | tuner_attach_stream | tuner_detach_stream =>
      if kReceiverCount <=? t_receiver task then false else bool_decide (lane = lane_of_receiver (t_receiver task))
  | _ => bool_decide (lane = card_lane)
  end.

(** ** The services *)

Inductive ServiceCall : Type -> Type :=
  | call_tuner_acquire (client receiver : Z) : ServiceCall TunerAcquireResult
  | call_tuner_release (client lease_id : Z) : ServiceCall unit
  | call_tuner_tune (client : Z) (request : TuneRequestPayload) : ServiceCall TuneResponsePayload
  | call_start_stream (client lease_id : Z) : ServiceCall unit
  | call_stop_stream (client lease_id : Z) : ServiceCall TunerStreamFinalSnapshot
  | call_stats (client lease_id : Z) : ServiceCall StreamCounters
  | call_attach_stream (lease_id : Z) (nonce : list Z) : ServiceCall TunerAttachment
  | call_detach_stream (attachment : TunerAttachment) : ServiceCall unit
  | call_tuner_status : ServiceCall TunerStatus
  | call_tuner_shutdown : ServiceCall unit
  | call_card_status : ServiceCall CardServiceStatus
  | call_handle_status (client handle : Z) : ServiceCall CardServiceStatus
  | call_poll_presence : ServiceCall CardPresenceChange
  | call_connect (client : Z) (mode : ShareMode) (generation_bound : bool) : ServiceCall CardServiceConnectResult
  | call_reconnect (client handle : Z) (mode : ShareMode) (disposition : Disposition) : ServiceCall CardAtr
  | call_disconnect (client handle : Z) (disposition : Disposition) : ServiceCall unit
  | call_reset (client handle : Z) : ServiceCall CardAtr
  | call_transmit (client handle : Z) (apdu : list Z) (room : Z) : ServiceCall (list Z)
  | call_begin_transaction (client handle : Z) : ServiceCall unit
  | call_end_transaction (client handle : Z) (disposition : Disposition) : ServiceCall unit
  | call_release_connection (client : Z) : ServiceCall unit
  | call_card_shutdown : ServiceCall unit.

Class Services (S : Type) := { service_call : forall A, ServiceCall A -> S -> Result A * S }.
Arguments service_call {S _ A} _ _.

(** ** Execution *)

(** The completion of a task before its operation has run. *)
Definition correlated (task : ControlWorkerTask) : ControlWorkerCompletion := {|
  c_type := t_type task; c_kind := t_kind task; c_operation := t_operation task; c_client_id := t_client_id task;
  c_connection_id := t_connection_id task; c_request_id := t_request_id task; c_receiver := t_receiver task;
  c_lease_id := t_lease_id task; c_card_handle := t_card_handle task; c_error := OK;
  c_tuner_acquire := {| acquired_lease_id := 0; acquired_nonce := zero_nonce |};
  c_tuner_status := {| ts_generation := 0; ts_states := replicate (Z.to_nat kReceiverCount) (ReceiverState_other 0) |};
  c_tuner_status_valid := false; c_tune_response := {| locked := 0; cnr_mdb := 0 |};
  c_stream_counters := zero_counters; c_stream_final_snapshot := no_snapshot; c_stream_snapshot_valid := false;
  c_tuner_attachment := no_attachment; c_tuner_attachment_valid := false;
  c_card_status := {| CardService.st_present := false; CardService.st_initialized := false; CardService.st_generation := 0; CardService.st_atr := empty_atr |};
  c_card_presence := no_change; c_card_connect := {| CardService.connected_handle := 0; CardService.connected_atr := empty_atr |};
  c_atr := empty_atr; c_card_response := [];
|}.

(** The operations of a lease, after which the state of the receivers is read. *)
Definition changes_tuners (operation : ControlWorkerOperation) : bool :=
  match operation with
  | tuner_acquire | tuner_release | tuner_tune | tuner_start_stream | tuner_stop_stream | tuner_stats
  | tuner_attach_stream | tuner_detach_stream => true
  | _ => false
  end.

Section Execute.
Context {S : Type} `{Services S}.

(** What has been found out, and the first error. *)
Definition Executed : Type := Error * ControlWorkerCompletion * S.

(** [if (!result) operation_error = result.error(); else ...]. *)
Definition executing {A} (c : ServiceCall A) (store : A -> ControlWorkerCompletion -> ControlWorkerCompletion) (done : ControlWorkerCompletion) (s : S) : Executed :=
  let '(result, s) := service_call c s in
  match result with
  | failure e => (e, done, s)
  | success a => (OK, store a done, s)
  end.
Definition ignore {A} (a : A) (done : ControlWorkerCompletion) : ControlWorkerCompletion := done.

Definition run_operation (task : ControlWorkerTask) (done : ControlWorkerCompletion) (s : S) : Executed :=
  match t_operation task with
  | tuner_acquire => executing (call_tuner_acquire (t_client_id task) (t_receiver task)) (fun a c => c{{ c_tuner_acquire := a }}) done s
  | tuner_release => executing (call_tuner_release (t_client_id task) (t_lease_id task)) ignore done s
  | tuner_tune => executing (call_tuner_tune (t_client_id task) (t_tune task)) (fun a c => c{{ c_tune_response := a }}) done s
  | tuner_start_stream => executing (call_start_stream (t_client_id task) (t_lease_id task)) ignore done s
  | tuner_stop_stream => executing (call_stop_stream (t_client_id task) (t_lease_id task))
      (fun a c => c{{ c_stream_final_snapshot := a; c_stream_snapshot_valid := true }}) done s
  | tuner_stats => executing (call_stats (t_client_id task) (t_lease_id task)) (fun a c => c{{ c_stream_counters := a }}) done s
  | tuner_attach_stream => executing (call_attach_stream (t_lease_id task) (t_nonce task))
      (fun a c => c{{ c_tuner_attachment := a; c_tuner_attachment_valid := true }}) done s
  | tuner_detach_stream => executing (call_detach_stream (t_attachment task)) ignore done s
  | tuner_status => executing call_tuner_status (fun a c => c{{ c_tuner_status := a; c_tuner_status_valid := true }}) done s
  | tuner_shutdown => executing call_tuner_shutdown ignore done s
  | card_status => executing call_card_status (fun a c => c{{ c_card_status := a }}) done s
  | card_handle_status => executing (call_handle_status (t_client_id task) (t_card_handle task)) (fun a c => c{{ c_card_status := a }}) done s
  | card_status_combined =>
      let '(card, s) := service_call call_card_status s in
      match card with
      | failure e => (e, done, s)
      | success a => executing call_tuner_status (fun a c => c{{ c_tuner_status := a; c_tuner_status_valid := true }}) (done{{ c_card_status := a }}) s
      end
  | card_presence => executing call_poll_presence (fun a c => c{{ c_card_presence := a }}) done s
  | card_connect => executing (call_connect (t_client_id task) (t_share_mode task) (t_card_generation_bound task)) (fun a c => c{{ c_card_connect := a }}) done s
  | card_reconnect => executing (call_reconnect (t_client_id task) (t_card_handle task) (t_share_mode task) (t_disposition task)) (fun a c => c{{ c_atr := a }}) done s
  | card_disconnect => executing (call_disconnect (t_client_id task) (t_card_handle task) (t_disposition task)) ignore done s
  | card_reset => executing (call_reset (t_client_id task) (t_card_handle task)) (fun a c => c{{ c_atr := a }}) done s
  | card_transmit => executing (call_transmit (t_client_id task) (t_card_handle task) (t_apdu task) kMaxCardPayload) (fun a c => c{{ c_card_response := a }}) done s
  | card_begin_transaction => executing (call_begin_transaction (t_client_id task) (t_card_handle task)) ignore done s
  | card_end_transaction => executing (call_end_transaction (t_client_id task) (t_card_handle task) (t_disposition task)) ignore done s
  | card_release_connection => executing (call_release_connection (t_client_id task)) ignore done s
  | card_shutdown => executing call_card_shutdown ignore done s
  end.

Definition execute (task : ControlWorkerTask) (s : S) : ControlWorkerCompletion * S :=
  let '(operation_error, done, s) := run_operation task (correlated task) s in
  let '(operation_error, done, s) :=
    if changes_tuners (t_operation task) then
      let '(status, s) := service_call call_tuner_status s in
      match status with
      | success v => (operation_error, done{{ c_tuner_status := v; c_tuner_status_valid := true }}, s)
      | failure e => (if bool_decide (operation_error = OK) then e else operation_error, done, s)
      end
    else (operation_error, done, s) in
  (done{{ c_error := operation_error }}, s).
End Execute.

(** What an execution may find, whatever the services are doing meanwhile. *)
Definition answered_by {S} `{Services S} (task : ControlWorkerTask) (done : ControlWorkerCompletion) : Prop :=
  exists s s', execute task s = (done, s').

(** * Lemmas *)

(** Whose completion it is. *)
Definition identity (c : ControlWorkerCompletion) :=
  (c_type c, c_kind c, c_operation c, c_client_id c, c_connection_id c, c_request_id c, c_receiver c, c_lease_id c, c_card_handle c).

Section Facts.
Context {S : Type} `{Services S}.

(** A fact of completions that no field changes. *)
Lemma executing_keeps {A} (P : ControlWorkerCompletion -> Prop) (c : ServiceCall A) store done s :
  P done -> (forall a, P (store a done)) -> P (executing c store done s).1.2.
Proof. intros D St. unfold executing. destruct (service_call c s) as [[a|e] s']; [apply St|exact D]. Qed.
Lemma run_operation_identity t done s : identity (run_operation t done s).1.2 = identity done.
Proof.
  unfold run_operation. destruct (t_operation t); try (by apply (executing_keeps (fun c => identity c = identity done))).
  destruct (service_call call_card_status s) as [[a|e] s']; [|done]. by apply (executing_keeps (fun c => identity c = identity done)).
Qed.
Lemma execute_identity t c : answered_by t c -> identity c = identity (correlated t).
Proof.
  intros (s & s' & E). unfold execute in E. pose proof (run_operation_identity t (correlated t) s) as I.
  destruct (run_operation t (correlated t) s) as [[e done] s1]. cbn [fst snd] in I. rewrite <- I.
  destruct (changes_tuners (t_operation t)); [destruct (service_call call_tuner_status s1) as [[v|e'] s2]|]; apply pair_eq in E as [<- _]; done.
Qed.
End Facts.
