(* ===== verification/ControlLanes.v ===== *)
(** The worker threads of the daemon ([ControlWorkerLanes] in
    [src/control_workers.cpp/.h]): three lanes, each with a queue of tasks and a
    queue of completions behind one mutex, and one thread.  The poll thread submits, pops and stops; every
    section of a mutex is one step, and the steps of the threads interleave.

    Calls of pthreads on objects that are initialised succeed, and the pipe that wakes the poll thread
    is readable once a byte was offered to it: a write that finds it full changes nothing. *)

From S2P Require Import Prelude ControlTasks.

Open Scope nat_scope.

(** * Rings *)

(** [std::array] with a head and a count. *)
Record Ring (A : Type) := mkRing { slots : list A; ring_head : nat; ring_count : nat }.
Arguments mkRing {A} _ _ _.
Arguments slots {A} _.
Arguments ring_head {A} _.
Arguments ring_count {A} _.

Section Ring.
Context {A : Type}.
Implicit Types r : Ring A.

Definition new_ring (capacity : nat) (blank : A) : Ring A := mkRing (replicate capacity blank) 0 0.
Definition ring_size r : nat := length (slots r).
Definition ring_full r : bool := ring_count r =? ring_size r.
Definition ring_empty r : bool := ring_count r =? 0.
Definition ring_push r (a : A) : Ring A :=
  mkRing (<[(ring_head r + ring_count r) mod ring_size r := a]> (slots r)) (ring_head r) (ring_count r + 1).
(** [None]: outside of the array. *)
Definition ring_pop r : option (A * Ring A) :=
  match slots r !! ring_head r with
  | None => None
  | Some a => Some (a, mkRing (slots r) ((ring_head r + 1) mod ring_size r) (ring_count r - 1))
  end.

(** What is queued, oldest first. *)
Definition queued r : list A := omap (fun k => slots r !! ((ring_head r + k) mod ring_size r)) (seq 0 (ring_count r)).
Record ring_ok r : Prop := { ring_in : ring_head r < ring_size r; ring_fits : ring_count r <= ring_size r }.

Lemma mod_inj n h j k : j < n -> k < n -> (h + j) mod n = (h + k) mod n -> j = k.
Proof.
  intros J K E. pose proof (Nat.div_mod (h + j) n ltac:(lia)) as Ej. pose proof (Nat.div_mod (h + k) n ltac:(lia)) as Ek. rewrite E in Ej.
  assert ((h + j) / n = (h + k) / n \/ (h + j) / n + 1 <= (h + k) / n \/ (h + k) / n + 1 <= (h + j) / n) as [Q|[Q|Q]] by lia; nia.
Qed.
Lemma omap_ext {B C} (f g : B -> option C) (l : list B) : (forall x, x ∈ l -> f x = g x) -> omap f l = omap g l.
Proof.
  induction l as [|x l IH]; intros E; [done|]. cbn. rewrite (E x) by left. rewrite IH; [done|]. intros y Y. apply E. by right.
Qed.
Lemma omap_map {B C D} (f : C -> option D) (g : B -> C) (l : list B) : omap f (map g l) = omap (fun x => f (g x)) l.
Proof. induction l as [|x l IH]; [done|]. cbn. by rewrite <- IH. Qed.
Lemma ring_queued_length r : ring_ok r -> length (queued r) = ring_count r.
Proof.
  intros [I F]. unfold queued. rewrite <- (length_seq (ring_count r) 0) at 2. generalize (seq 0 (ring_count r)). intros l.
  induction l as [|k l IH]; [done|]. cbn. destruct (lookup_lt_is_Some_2 (slots r) ((ring_head r + k) mod ring_size r)) as [a E].
  { apply Nat.mod_upper_bound. unfold ring_size in *. lia. }
  rewrite E. cbn. by rewrite IH.
Qed.
Lemma new_ring_ok capacity blank : 0 < capacity -> ring_ok (new_ring capacity blank).
Proof. intros C. split; unfold ring_size; cbn; rewrite length_replicate; lia. Qed.
Lemma ring_push_ok r a : ring_ok r -> ring_full r = false -> ring_ok (ring_push r a) /\ queued (ring_push r a) = queued r ++ [a].
Proof.
  intros [I F] N. unfold ring_full in N. apply Nat.eqb_neq in N. assert (ring_size (ring_push r a) = ring_size r) as S by apply length_insert.
  split; [split; rewrite S; cbn; lia|].
  unfold queued. rewrite S. cbn [ring_push ring_count ring_head slots]. rewrite seq_app, omap_app. f_equal.
  - apply omap_ext. intros k K. apply elem_of_seq in K. apply list_lookup_insert_ne. intros E.
    apply mod_inj in E; lia.
  - cbn. rewrite list_lookup_insert_eq; [done|]. apply Nat.mod_upper_bound. unfold ring_size in *. lia.
Qed.
Lemma ring_pop_ok r : ring_ok r -> ring_empty r = false ->
  exists a r', ring_pop r = Some (a, r') /\ ring_ok r' /\ queued r = a :: queued r' /\ ring_size r' = ring_size r.
Proof.
  intros [I F] N. unfold ring_empty in N. apply Nat.eqb_neq in N. destruct (lookup_lt_is_Some_2 (slots r) (ring_head r) I) as [a E].
  exists a. eexists. unfold ring_pop. rewrite E. split; [done|]. set (n := ring_size r) in *.
  assert ((ring_head r + 1) mod n < n) as M by (apply Nat.mod_upper_bound; lia).
  split; [split; cbn; fold (ring_size r); fold n; [done|lia]|]. split; [|done]. unfold queued. cbn [slots ring_head ring_count].
  replace (ring_count r) with (S (ring_count r - 1)) at 1 by lia. cbn [seq omap list_omap]. fold n. rewrite Nat.add_0_r, (Nat.mod_small (ring_head r)) by done. rewrite E.
  f_equal. rewrite <- seq_shift. rewrite omap_map. apply omap_ext. intros k K. cbn. unfold ring_size. cbn [slots]. fold (ring_size r). fold n.
  f_equal. rewrite Nat.Div0.add_mod_idemp_l. f_equal. lia.
Qed.
End Ring.

(** * The lanes *)

Inductive Pc :=
  | W_pop                                   (* about to take a task *)
  | W_wait_task (signalled : bool)          (* in the wait for [task_ready] *)
  | W_run (t : ControlWorkerTask)
  | W_push (c : ControlWorkerCompletion)    (* about to leave a completion *)
  | W_wait_room (c : ControlWorkerCompletion) (signalled : bool)  (* in the wait for [completion_room] *)
  | W_signal                                (* about to wake the poll thread *)
  | W_done                                  (* about to count the task as done *)
  | W_exit                                  (* about to count the thread as ended *)
  | W_gone.

Record Lane := mkLane {
  tasks : Ring ControlWorkerTask;
  completions : Ring ControlWorkerCompletion;
  stopping : bool;
  active_tasks : nat;
  pc : Pc;
}.
Definition with_pc (l : Lane) (p : Pc) : Lane := mkLane (tasks l) (completions l) (stopping l) (active_tasks l) p.
Definition blank_task : ControlWorkerTask := new_task client_request tuner_status.
Definition new_lane : Lane :=
  mkLane (new_ring kControlWorkerQueueCapacity blank_task) (new_ring kControlWorkerQueueCapacity (correlated blank_task)) false 0 W_pop.

(** ** What a thread does *)

Definition pop_task (l : Lane) : option Lane :=
  if ring_empty (tasks l) then Some (with_pc l (if stopping l then W_exit else W_wait_task false))
  else match ring_pop (tasks l) with
    | None => None
    | Some (t, r) => Some (mkLane r (completions l) (stopping l) (active_tasks l + 1) (W_run t))
    end.
Definition push_completion (c : ControlWorkerCompletion) (l : Lane) : Lane :=
  if ring_full (completions l) then with_pc l (W_wait_room c false)
  else mkLane (tasks l) (ring_push (completions l) c) (stopping l) (active_tasks l) W_signal.

Inductive Effect := Fx_none | Fx_wake | Fx_end.
(** The next section of [run_loop]; the thread blocks where there is none. *)
Definition work (answer : ControlWorkerTask -> ControlWorkerCompletion) (l : Lane) : option (Lane * Effect) :=
  match pc l with
  | W_pop | W_wait_task true => match pop_task l with None => None | Some l => Some (l, Fx_none) end
  | W_run t => Some (with_pc l (W_push (answer t)), Fx_none)
  | W_push c | W_wait_room c true => Some (push_completion c l, Fx_none)
  | W_signal => Some (with_pc l W_done, Fx_wake)
  | W_done => Some (mkLane (tasks l) (completions l) (stopping l) (active_tasks l - 1) W_pop, Fx_none)
  | W_exit => Some (with_pc l W_gone, Fx_end)
  | W_wait_task false | W_wait_room _ false | W_gone => None
  end.
(** A wait may return without a signal. *)
Definition spurious (l : Lane) : Lane :=
  match pc l with
  | W_wait_task _ => with_pc l (W_wait_task true)
  | W_wait_room c _ => with_pc l (W_wait_room c true)
  | _ => l
  end.

(** ** What is asked of a lane *)

Definition signal_task (l : Lane) : Lane := match pc l with W_wait_task _ => with_pc l (W_wait_task true) | _ => l end.
Definition signal_room (l : Lane) : Lane := match pc l with W_wait_room c _ => with_pc l (W_wait_room c true) | _ => l end.

Definition lane_submit (t : ControlWorkerTask) (l : Lane) : Result unit * Lane :=
  if stopping l then (failure NOT_READY, l)
  else if ring_full (tasks l) then (failure BUSY, l)
  else (success tt, signal_task (mkLane (ring_push (tasks l) t) (completions l) (stopping l) (active_tasks l) (pc l))).
Definition lane_try_pop (l : Lane) : option (option ControlWorkerCompletion * Lane) :=
  if ring_empty (completions l) then Some (None, l)
  else match ring_pop (completions l) with
    | None => None
    | Some (c, r) => Some (Some c, signal_room (mkLane (tasks l) r (stopping l) (active_tasks l) (pc l)))
    end.
Definition lane_stop (l : Lane) : Lane :=
  signal_room (signal_task (mkLane (tasks l) (completions l) true (active_tasks l) (pc l))).
Definition lane_idle (l : Lane) : bool := ring_empty (tasks l) && ring_empty (completions l) && (active_tasks l =? 0).

(** ** The three lanes *)

(** [unseen] is no member: the lanes that have not been found empty since the wake pipe was last drained. *)
Record Workers := mkWorkers {
  lanes : list Lane;
  readable : bool;
  live_threads : nat;
  unseen : list nat;
}.
Definition new_workers : Workers := mkWorkers [new_lane; new_lane; new_lane] false 3 [].
Definition lane_index (lane : ControlWorkerLane) : nat := match lane with tuner_dev1 => 0 | tuner_dev2 => 1 | card_lane => 2 end.
Definition set_lane (w : Workers) (i : nat) (l : Lane) : Workers := mkWorkers (<[i := l]> (lanes w)) (readable w) (live_threads w) (unseen w).

Definition submit (lane : ControlWorkerLane) (t : ControlWorkerTask) (w : Workers) : Result unit * Workers :=
  match lanes w !! lane_index lane with
  | None => (failure INVALID_ARGUMENT, w)
  | Some l =>
      if negb (operation_lane_valid lane t) then (failure INVALID_ARGUMENT, w)
      else let '(r, l) := lane_submit t l in (r, set_lane w (lane_index lane) l)
  end.
Definition try_pop (lane : ControlWorkerLane) (w : Workers) : option (option ControlWorkerCompletion * Workers) :=
  match lanes w !! lane_index lane with
  | None => Some (None, w)
  | Some l =>
      match lane_try_pop l with
      | None => None
      | Some (None, _) => Some (None, mkWorkers (lanes w) (readable w) (live_threads w) (filter (fun i => i <> lane_index lane) (unseen w)))
      | Some (Some c, l) => Some (Some c, set_lane w (lane_index lane) l)
      end
  end.
Definition drain_wake (w : Workers) : Workers := mkWorkers (lanes w) false (live_threads w) (seq 0 (length (lanes w))).
Definition idle (w : Workers) : bool := forallb lane_idle (lanes w).
Definition live_thread_count (w : Workers) : nat := live_threads w.
(** One lane of [request_stop]. *)
Definition stop_lane (i : nat) (w : Workers) : Workers :=
  match lanes w !! i with None => w | Some l => set_lane w i (lane_stop l) end.
Definition request_stop (w : Workers) : Workers := foldl (fun w i => stop_lane i w) w (seq 0 (length (lanes w))).

Definition worked (w : Workers) (i : nat) (l : Lane) (fx : Effect) : Workers :=
  mkWorkers (<[i := l]> (lanes w)) (match fx with Fx_wake => true | _ => readable w end)
    (match fx with Fx_end => live_threads w - 1 | _ => live_threads w end) (unseen w).

(** * Interleaving *)

Inductive Event :=
  | Accepted (lane : ControlWorkerLane) (t : ControlWorkerTask)
  | Delivered (lane : ControlWorkerLane) (c : ControlWorkerCompletion).
#[export] Instance Lane_inhabited : Inhabited Lane := populate new_lane.

Definition accepted (lane : ControlWorkerLane) (tr : list Event) : list ControlWorkerTask :=
  omap (fun e => match e with Accepted l t => if bool_decide (l = lane) then Some t else None | _ => None end) tr.
Definition delivered (lane : ControlWorkerLane) (tr : list Event) : list ControlWorkerCompletion :=
  omap (fun e => match e with Delivered l c => if bool_decide (l = lane) then Some c else None | _ => None end) tr.

Section Interleaving.
(** What an execution of a task may find. *)
Context (answers : ControlWorkerTask -> ControlWorkerCompletion -> Prop).

Inductive step : Workers -> list Event -> Workers -> Prop :=
  | step_work w i l answer l' fx : lanes w !! i = Some l -> (forall t, answers t (answer t)) ->
      work answer l = Some (l', fx) -> step w [] (worked w i l' fx)
  | step_spurious w i l : lanes w !! i = Some l -> step w [] (set_lane w i (spurious l))
  | step_submit w lane t r w' : submit lane t w = (r, w') -> step w (if is_success r then [Accepted lane t] else []) w'
  | step_pop w lane o w' : try_pop lane w = Some (o, w') -> step w (match o with Some c => [Delivered lane c] | None => [] end) w'
  | step_drain w : step w [] (drain_wake w)
  | step_stop w i : step w [] (stop_lane i w).

(** What has happened until a state is reached. *)
Inductive reached : list Event -> Workers -> Prop :=
  | reached_new : reached [] new_workers
  | reached_step tr w ev w' : reached tr w -> step w ev w' -> reached (tr ++ ev) w'.

(** ** The invariant of a lane *)

Definition busy (p : Pc) : bool := match p with W_run _ | W_push _ | W_wait_room _ _ | W_signal | W_done => true | _ => false end.
(** The task that has been taken and not executed, the completion that has not been left. *)
Definition running (p : Pc) : list ControlWorkerTask := match p with W_run t => [t] | _ => [] end.
Definition pending (p : Pc) : list ControlWorkerCompletion := match p with W_push c | W_wait_room c _ => [c] | _ => [] end.
Definition ended (p : Pc) : bool := match p with W_exit | W_gone => true | _ => false end.

Record lane_ok (ts : list ControlWorkerTask) (cs : list ControlWorkerCompletion) (l : Lane) : Prop := {
  lo_tasks : ring_ok (tasks l) /\ ring_size (tasks l) = kControlWorkerQueueCapacity;
  lo_completions : ring_ok (completions l) /\ ring_size (completions l) = kControlWorkerQueueCapacity;
  lo_flow : exists ran, Forall2 answers ran (cs ++ queued (completions l) ++ pending (pc l)) /\
    ts = ran ++ running (pc l) ++ queued (tasks l);
  lo_active : active_tasks l = if busy (pc l) then 1 else 0;
  lo_waits_task : pc l = W_wait_task false -> ring_empty (tasks l) = true /\ stopping l = false;
  lo_waits_room : forall c, pc l = W_wait_room c false -> ring_full (completions l) = true;
  lo_ended : ended (pc l) = true -> ring_empty (tasks l) = true /\ stopping l = true;
}.

Lemma queued_nil {A} (r : Ring A) : ring_ok r -> (ring_empty r = true <-> queued r = []).
Proof.
  intros O. pose proof (ring_queued_length r O) as L. unfold ring_empty. rewrite Nat.eqb_eq. split; intros E.
  - apply length_zero_iff_nil. lia.
  - rewrite E in L. cbn in L. lia.
Qed.

Lemma lane_ok_new : lane_ok [] [] new_lane.
Proof.
  constructor; cbn; try done.
  - split; [apply new_ring_ok; unfold kControlWorkerQueueCapacity; lia|reflexivity].
  - split; [apply new_ring_ok; unfold kControlWorkerQueueCapacity; lia|reflexivity].
  - exists []. split; [constructor|done].
Qed.

Ltac lane_cbn := cbn [tasks completions stopping active_tasks pc running pending busy ended with_pc].
Lemma pop_task_ok ts cs l : lane_ok ts cs l -> pc l = W_pop \/ pc l = W_wait_task true ->
  exists l', pop_task l = Some l' /\ lane_ok ts cs l' /\ completions l' = completions l.
Proof.
  intros [[T Ts] [Cc Cs] (ran & F & E) A W1 W2 En] P. unfold pop_task.
  assert (running (pc l) = [] /\ pending (pc l) = [] /\ busy (pc l) = false) as (Pr & Pp & Pb) by by destruct P as [-> | ->].
  rewrite Pr in E. rewrite Pp in F. rewrite Pb in A. destruct (ring_empty (tasks l)) eqn:Em.
  - eexists. split; [done|]. split; [|done]. destruct (stopping l) eqn:St; (constructor; lane_cbn; try done; exists ran; by split).
  - destruct (ring_pop_ok _ T Em) as (t & r & -> & R & Q & S). eexists. split; [done|]. split; [|done]. constructor; lane_cbn; try done.
    + split; [done|]. by rewrite S.
    + exists ran. split; [exact F|]. rewrite E, Q. done.
    + lia.
Qed.
Lemma push_completion_ok ts cs l c : lane_ok ts cs l -> pc l = W_push c \/ pc l = W_wait_room c true -> lane_ok ts cs (push_completion c l).
Proof.
  intros [[T Ts] [Cc Cs] (ran & F & E) A W1 W2 En] P. unfold push_completion.
  assert (running (pc l) = [] /\ pending (pc l) = [c] /\ busy (pc l) = true) as (Pr & Pp & Pb) by by destruct P as [-> | ->].
  rewrite Pr in E. rewrite Pp in F. rewrite Pb in A. destruct (ring_full (completions l)) eqn:Fu.
  - constructor; lane_cbn; try done. exists ran. by split.
  - destruct (ring_push_ok _ c Cc Fu) as [R Q]. constructor; lane_cbn; try done.
    + split; [done|]. rewrite <- Cs. apply length_insert.
    + exists ran. split; [|exact E]. by rewrite Q, app_nil_r.
Qed.

Lemma work_ok ts cs l answer l' fx : (forall t, answers t (answer t)) -> lane_ok ts cs l -> work answer l = Some (l', fx) -> lane_ok ts cs l'.
Proof.
  intros An O E. pose proof O as [T Cc (ran & F & Et) A W1 W2 En]. unfold work in E. destruct (pc l) as [|[]|t|c|c []| | | |] eqn:P; try done; cbn [running pending busy ended] in *.
  - destruct (pop_task_ok ts cs l O (or_introl P)) as (l1 & P1 & O1 & _). rewrite P1 in E. by injection E as <- <-.
  - destruct (pop_task_ok ts cs l O (or_intror P)) as (l1 & P1 & O1 & _). rewrite P1 in E. by injection E as <- <-.
  - injection E as <- <-. constructor; lane_cbn; try done. exists (ran ++ [t]). split.
    + rewrite app_assoc. apply Forall2_app; [by rewrite app_nil_r in F|]. by repeat constructor.
    + by rewrite <- app_assoc.
  - injection E as <- <-. apply push_completion_ok; auto.
  - injection E as <- <-. apply push_completion_ok; auto.
  - injection E as <- <-. constructor; lane_cbn; try done. by exists ran.
  - injection E as <- <-. constructor; lane_cbn; try done; [by exists ran|lia].
  - injection E as <- <-. constructor; lane_cbn; try done. by exists ran.
Qed.

(** Waits that have been signalled have nothing to show. *)
Lemma signalled_ok ts cs l : 
  ring_ok (tasks l) /\ ring_size (tasks l) = kControlWorkerQueueCapacity ->
  ring_ok (completions l) /\ ring_size (completions l) = kControlWorkerQueueCapacity ->
  (exists ran, Forall2 answers ran (cs ++ queued (completions l) ++ pending (pc l)) /\ ts = ran ++ running (pc l) ++ queued (tasks l)) ->
  active_tasks l = (if busy (pc l) then 1 else 0) -> (ended (pc l) = true -> ring_empty (tasks l) = true /\ stopping l = true) ->
  pc l <> W_wait_task false -> (forall c, pc l = W_wait_room c false -> ring_full (completions l) = true) -> lane_ok ts cs l.
Proof. by constructor. Qed.

Lemma lane_submit_ok ts cs l t : lane_ok ts cs l ->
  let o := lane_submit t l in lane_ok (if is_success o.1 then ts ++ [t] else ts) cs o.2 /\ completions o.2 = completions l.
Proof.
  intros O. pose proof O as [[T Ts] Cc (ran & F & E) A W1 W2 En]. unfold lane_submit. destruct (stopping l) eqn:St; [done|]. destruct (ring_full (tasks l)) eqn:Fu; [done|].
  cbn [is_success fst snd]. destruct (ring_push_ok _ t T Fu) as [R Q].
  assert (ring_size (ring_push (tasks l) t) = kControlWorkerQueueCapacity) as S by (rewrite <- Ts; apply length_insert).
  assert (ended (pc l) = false) as Ne. { destruct (ended (pc l)) eqn:N; [|done]. by destruct (En eq_refl). }
  split; [|unfold signal_task; lane_cbn; by destruct (pc l)].
  assert (exists ran, Forall2 answers ran (cs ++ queued (completions l) ++ pending (pc l)) /\ ts ++ [t] = ran ++ running (pc l) ++ queued (ring_push (tasks l) t)) as Fl.
  { exists ran. split; [exact F|]. by rewrite Q, E, !app_assoc. }
  unfold signal_task. lane_cbn. destruct (pc l) eqn:P; apply signalled_ok; lane_cbn; try done; by rewrite ?P.
Qed.

Lemma lane_pop_ok ts cs l : lane_ok ts cs l ->
  exists o l', lane_try_pop l = Some (o, l') /\ lane_ok ts (cs ++ match o with Some c => [c] | None => [] end) l' /\
    match o with
    | Some _ => exists l0, l' = signal_room l0 /\ tasks l0 = tasks l /\ pc l0 = pc l /\ stopping l0 = stopping l /\ S (length (queued (completions l'))) = length (queued (completions l))
    | None => l' = l /\ queued (completions l) = []
    end.
Proof.
  intros O. pose proof O as [T [Cc Cs] (ran & F & E) A W1 W2 En]. unfold lane_try_pop. destruct (ring_empty (completions l)) eqn:Em.
  - exists None, l. split; [done|]. rewrite app_nil_r. split; [done|]. split; [done|]. by apply queued_nil.
  - destruct (ring_pop_ok _ Cc Em) as (c & r & -> & R & Q & Sz). eexists _, _. split; [done|]. split.
    2: { eexists. split; [reflexivity|]. split; [done|]. split; [done|]. split; [done|]. rewrite Q. unfold signal_room. lane_cbn. by destruct (pc l). }
    assert (exists ran, Forall2 answers ran ((cs ++ [c]) ++ queued r ++ pending (pc l)) /\ ts = ran ++ running (pc l) ++ queued (tasks l)) as Fl.
    { exists ran. split; [|exact E]. rewrite Q in F. by rewrite <- app_assoc. }
    unfold signal_room. lane_cbn. destruct (pc l) as [|[]| | |? []| | | |] eqn:P; constructor; lane_cbn; rewrite ?P; try done; by (split; [done|congruence]).
Qed.

Lemma lane_stop_ok ts cs l : lane_ok ts cs l -> lane_ok ts cs (lane_stop l) /\ completions (lane_stop l) = completions l /\ stopping (lane_stop l) = true.
Proof.
  intros [T Cc Fl A W1 W2 En]. unfold lane_stop, signal_room, signal_task. lane_cbn. destruct (pc l) as [|[]| | |? []| | | |] eqn:P; lane_cbn; rewrite ?P;
    (split; [|done]); constructor; lane_cbn; rewrite ?P; try done; intros N; by destruct (En N).
Qed.
Lemma spurious_ok ts cs l : lane_ok ts cs l -> lane_ok ts cs (spurious l) /\ completions (spurious l) = completions l.
Proof.
  intros [T Cc Fl A W1 W2 En]. unfold spurious. destruct (pc l) as [|[]| | |? []| | | |] eqn:P; lane_cbn; (split; [|done]); constructor; lane_cbn; rewrite ?P; try done.
Qed.

(** ** The invariant of the lanes *)

Definition gone (l : Lane) : bool := match pc l with W_gone => true | _ => false end.
Definition alive (l : Lane) : nat := if gone l then 0 else 1.
Definition signalling (l : Lane) : bool := match pc l with W_signal => true | _ => false end.
(** The poll thread has been told, or is about to be, or has not looked everywhere since it last was. *)
Definition noticed (w : Workers) (i : nat) : Prop := readable w = true \/ i ∈ unseen w \/ exists j l, lanes w !! j = Some l /\ signalling l = true.

Record workers_ok (tr : list Event) (w : Workers) : Prop := {
  wo_len : length (lanes w) = 3;
  wo_lane : forall lane l, lanes w !! lane_index lane = Some l -> lane_ok (accepted lane tr) (delivered lane tr) l;
  wo_live : live_threads w = sum_list_with alive (lanes w);
  wo_seen : forall i l, lanes w !! i = Some l -> queued (completions l) <> [] -> noticed w i;
}.

Lemma lane_index_inj l l' : lane_index l = lane_index l' -> l = l'.
Proof. by destruct l, l'. Qed.
Lemma lane_index_lt l : lane_index l < 3.
Proof. destruct l; cbn; lia. Qed.
Lemma lane_of_index i : i < 3 -> exists lane, lane_index lane = i.
Proof. intros I. destruct i as [|[|[|]]]; [by exists tuner_dev1|by exists tuner_dev2|by exists card_lane|lia]. Qed.
Lemma accepted_app lane tr lane' t : accepted lane (tr ++ [Accepted lane' t]) = accepted lane tr ++ (if decide (lane' = lane) then [t] else []).
Proof. unfold accepted. rewrite omap_app. f_equal. cbn. case_bool_decide; by destruct (decide _). Qed.
Lemma accepted_delivered lane tr lane' c : accepted lane (tr ++ [Delivered lane' c]) = accepted lane tr.
Proof. unfold accepted. rewrite omap_app. cbn. apply app_nil_r. Qed.
Lemma delivered_app lane tr lane' c : delivered lane (tr ++ [Delivered lane' c]) = delivered lane tr ++ (if decide (lane' = lane) then [c] else []).
Proof. unfold delivered. rewrite omap_app. f_equal. cbn. case_bool_decide; by destruct (decide _). Qed.
Lemma delivered_accepted lane tr lane' t : delivered lane (tr ++ [Accepted lane' t]) = delivered lane tr.
Proof. unfold delivered. rewrite omap_app. cbn. apply app_nil_r. Qed.
Lemma sum_insert {A} (f : A -> nat) l i x y : l !! i = Some x -> sum_list_with f (<[i := y]> l) + f x = sum_list_with f l + f y.
Proof.
  revert i. induction l as [|z l IH]; intros [|i] E; try done.
  - injection E as ->. cbn. lia.
  - specialize (IH i E). change (<[S i:=y]> (z :: l)) with (z :: <[i:=y]> l). cbn [sum_list_with]. lia.
Qed.

(** One lane has moved. *)
Lemma lane_moves tr tr' w i l l' w' : workers_ok tr w -> lanes w !! i = Some l -> lanes w' = <[i := l']> (lanes w) ->
  (forall lane, lane_index lane = i -> lane_ok (accepted lane tr') (delivered lane tr') l') ->
  (forall lane, lane_index lane <> i -> accepted lane tr' = accepted lane tr /\ delivered lane tr' = delivered lane tr) ->
  live_threads w' + alive l = live_threads w + alive l' ->
  (forall j, readable w = true \/ j ∈ unseen w -> readable w' = true \/ j ∈ unseen w') ->
  (signalling l = true -> readable w' = true \/ signalling l' = true) ->
  (queued (completions l') <> [] -> queued (completions l) <> [] \/ signalling l' = true) ->
  workers_ok tr' w'.
Proof.
  intros [L Ok Lv Se] I E O Ot Al Rd Sg Qu. assert (i < length (lanes w)) as I' by (by eapply lookup_lt_Some).
  assert (forall j, lanes w !! j <> None -> noticed w j -> noticed w' j) as Keep.
  { intros j _ [N|[N|(k & lk & Ik & N)]]; [destruct (Rd j (or_introl N)); [by left|by right; left]|destruct (Rd j (or_intror N)); [by left|by right; left]|].
    destruct (decide (k = i)) as [->|Ne].
    - rewrite I in Ik. injection Ik as <-. destruct (Sg N) as [R|R]; [by left|]. right; right. exists i, l'. by rewrite E, list_lookup_insert_eq.
    - right; right. exists k, lk. by rewrite E, list_lookup_insert_ne. }
  constructor.
  - by rewrite E, length_insert.
  - intros lane lx Ix. rewrite E in Ix. destruct (decide (lane_index lane = i)) as [Ei|Ne].
    + rewrite Ei, list_lookup_insert_eq in Ix by done. injection Ix as <-. by apply O.
    + rewrite list_lookup_insert_ne in Ix by congruence. destruct (Ot lane Ne) as [-> ->]. by apply Ok.
  - rewrite E. pose proof (sum_insert alive (lanes w) i l l' I). lia.
  - intros j lj Ij Q. destruct (decide (j = i)) as [->|Ne].
    + rewrite E, list_lookup_insert_eq in Ij by done. injection Ij as <-. destruct (Qu Q) as [Q'|R].
      * apply Keep; [by rewrite I|by apply (Se i l)].
      * right; right. exists i, l'. by rewrite E, list_lookup_insert_eq.
    + rewrite E, list_lookup_insert_ne in Ij by done. apply Keep; [by rewrite Ij|by apply (Se j lj)].
Qed.

Lemma work_facts answer l l' fx : work answer l = Some (l', fx) ->
  alive l = alive l' + (match fx with Fx_end => 1 | _ => 0 end) /\ (signalling l = true -> fx = Fx_wake) /\
  (queued (completions l') <> [] -> queued (completions l) <> [] \/ signalling l' = true) /\ stopping l' = stopping l.
Proof.
  unfold work, pop_task, push_completion, alive, gone, signalling. destruct (pc l) as [|[]|t|c|c []| | | |] eqn:P; intros E; try done;
    [destruct (ring_empty (tasks l)); [destruct (stopping l) eqn:?|destruct (ring_pop (tasks l)) as [[]|]; [|done]]
    |destruct (ring_empty (tasks l)); [destruct (stopping l) eqn:?|destruct (ring_pop (tasks l)) as [[]|]; [|done]]
    | |destruct (ring_full (completions l))|destruct (ring_full (completions l))| | |];
    apply (inj Some), pair_eq in E as [<- <-]; lane_cbn; rewrite ?P; split_and!; auto; done.
Qed.
Lemma lane_submit_facts t l : let o := lane_submit t l in alive o.2 = alive l /\ signalling o.2 = signalling l /\ completions o.2 = completions l.
Proof.
  unfold lane_submit. destruct (stopping l); [done|]. destruct (ring_full (tasks l)); [done|]. cbn [snd].
  unfold signal_task, alive, gone, signalling. lane_cbn. destruct (pc l) eqn:P; lane_cbn; by rewrite ?P.
Qed.
Lemma signal_room_facts l : alive (signal_room l) = alive l /\ signalling (signal_room l) = signalling l.
Proof. unfold signal_room, alive, gone, signalling. destruct (pc l) eqn:P; lane_cbn; by rewrite ?P. Qed.
Lemma signal_task_facts l : alive (signal_task l) = alive l /\ signalling (signal_task l) = signalling l.
Proof. unfold signal_task, alive, gone, signalling. destruct (pc l) eqn:P; lane_cbn; by rewrite ?P. Qed.
Lemma spurious_facts l : alive (spurious l) = alive l /\ signalling (spurious l) = signalling l.
Proof. unfold spurious, alive, gone, signalling. destruct (pc l) eqn:P; lane_cbn; by rewrite ?P. Qed.

(** A lane that only changes its waits or its flag. *)
Lemma lane_nudged tr w i l l' : workers_ok tr w -> lanes w !! i = Some l ->
  (forall ts cs, lane_ok ts cs l -> lane_ok ts cs l') -> alive l' = alive l -> signalling l' = signalling l -> completions l' = completions l ->
  workers_ok tr (set_lane w i l').
Proof.
  intros O I K A Sg Co. eapply (lane_moves tr tr w i l l'); try done; cbn.
  - intros lane El. apply K. subst i. by apply O.
  - by rewrite A.
  - intros N. right. by rewrite Sg.
  - rewrite Co. by left.
Qed.

Lemma step_ok tr w ev w' : workers_ok tr w -> step w ev w' -> workers_ok (tr ++ ev) w'.
Proof.
  intros O St. destruct St as [w i l answer l' fx I An Wk|w i l I|w lane t r w' Su|w lane o w' Po|w|w i]; rewrite ?app_nil_r.
  - destruct (work_facts _ _ _ _ Wk) as (Al & Sg & Qu & _). pose proof (wo_live _ _ O) as Lv.
    assert (alive l <= live_threads w) as Le.
    { rewrite Lv. pose proof (sum_insert alive (lanes w) i l l I). pose proof (sum_list_with_in l alive (lanes w) (proj2 (list_elem_of_lookup _ _) (ex_intro _ i I))). lia. }
    eapply (lane_moves tr tr w i l l'); try done.
    + intros lane El. subst i. eapply work_ok; [exact An| |exact Wk]. by apply O.
    + cbn. destruct fx; lia.
    + cbn. intros j [R|R]; [|by right]. left. by destruct fx.
    + cbn. intros N. left. by rewrite (Sg N).
  - destruct (spurious_facts l) as [A Sg]. eapply lane_nudged; try done.
    + intros ts cs K. apply (spurious_ok ts cs l K).
    + unfold spurious. by destruct (pc l).
  - unfold submit in Su. destruct (lanes w !! lane_index lane) as [l|] eqn:I; [|injection Su as <- <-; by rewrite app_nil_r].
    destruct (negb _); [injection Su as <- <-; by rewrite app_nil_r|]. destruct (lane_submit t l) as [r' l'] eqn:Ls. injection Su as <- <-.
    pose proof (lane_submit_facts t l) as (A & Sg & Co). rewrite Ls in A, Sg, Co. cbn [snd] in *.
    pose proof (lane_submit_ok _ _ l t (wo_lane _ _ O lane l I)) as [K _]. rewrite Ls in K. cbn [fst snd] in K.
    destruct (is_success r') eqn:R; rewrite ?app_nil_r.
    + eapply (lane_moves tr _ w (lane_index lane) l l'); try done; cbn.
      * intros lane' E. apply lane_index_inj in E as ->. rewrite accepted_app, delivered_accepted, decide_True; done.
      * intros lane' N. rewrite accepted_app, delivered_accepted, decide_False, app_nil_r; [done|congruence].
      * by rewrite A.
      * intros N. right. by rewrite Sg.
      * rewrite Co. by left.
    + eapply (lane_moves tr _ w (lane_index lane) l l'); try done; cbn.
      * intros lane' E. by apply lane_index_inj in E as ->.
      * by rewrite A.
      * intros N. right. by rewrite Sg.
      * rewrite Co. by left.
  - unfold try_pop in Po. destruct (lanes w !! lane_index lane) as [l|] eqn:I; [|injection Po as <- <-; by rewrite app_nil_r].
    destruct (lane_pop_ok _ _ l (wo_lane _ _ O lane l I)) as (o' & l' & E & K & F). rewrite E in Po. destruct o' as [c|]; injection Po as <- <-.
    + destruct F as (l0 & -> & Tk & Pc & _ & Len). destruct (signal_room_facts l0) as [A Sg].
      eapply (lane_moves tr _ w (lane_index lane) l (signal_room l0)); try done; cbn [set_lane readable unseen live_threads].
      * intros lane' El. apply lane_index_inj in El as ->. rewrite accepted_delivered, delivered_app, decide_True; done.
      * intros lane' N. rewrite accepted_delivered, delivered_app, decide_False, app_nil_r; [done|congruence].
      * rewrite A. unfold alive, gone. by rewrite Pc.
      * intros N. right. rewrite Sg. unfold signalling in *. by rewrite Pc.
      * intros _. left. intros E0. rewrite E0 in Len. done.
    + destruct F as [-> Em]. rewrite app_nil_r. destruct O as [L Ok Lv Se]. constructor; try done. cbn. intros j lj Ij Q.
      destruct (Se j lj Ij Q) as [N|[N|(k & lk & Ik & N)]]; [by left| |right; right; by exists k, lk].
      right; left. apply list_elem_of_filter. split; [|exact N]. cbn. intros ->. rewrite I in Ij. injection Ij as <-. done.
  - destruct O as [L Ok Lv Se]. constructor; try done. intros j lj Ij Q. right; left. cbn. apply elem_of_seq. apply lookup_lt_Some in Ij. cbn in Ij. lia.
  - unfold stop_lane. destruct (lanes w !! i) as [l|] eqn:I; [|done].
    destruct (signal_task_facts (mkLane (tasks l) (completions l) true (active_tasks l) (pc l))) as [A1 S1].
    destruct (signal_room_facts (signal_task (mkLane (tasks l) (completions l) true (active_tasks l) (pc l)))) as [A2 S2].
    eapply lane_nudged; try done; try apply (lane_stop_ok _ _ l (wo_lane _ _ O _ l _)).
    + intros ts cs K. apply (lane_stop_ok ts cs l K).
    + unfold lane_stop. rewrite A2, A1. done.
    + unfold lane_stop. rewrite S2, S1. done.
    + unfold lane_stop, signal_room, signal_task. lane_cbn. destruct (pc l) as [|[]| | |? []| | | |]; reflexivity.
Qed.
Lemma reached_ok tr w : reached tr w -> workers_ok tr w.
Proof.
  induction 1 as [|tr w ev w' R IH St]; [|by eapply step_ok].
  constructor; [done| |done|].
  - intros lane l I. assert (l = new_lane) as -> by (destruct lane; by injection I). apply lane_ok_new.
  - intros i l I Q. destruct i as [|[|[|]]]; try done; injection I as <-; done.
Qed.

(** ** Termination *)

(** What brings the end of a stopped lane nearer: a thread moves on, or a completion is popped. *)
Inductive progress : Workers -> Workers -> Prop :=
  | progress_work w i l answer l' fx : lanes w !! i = Some l -> (forall t, answers t (answer t)) ->
      work answer l = Some (l', fx) -> progress w (worked w i l' fx)
  | progress_pop w lane c w' : try_pop lane w = Some (Some c, w') -> progress w w'.
Definition stopped (w : Workers) : Prop := forall i l, lanes w !! i = Some l -> stopping l = true.

Definition rank (p : Pc) : nat :=
  match p with
  | W_run _ => 10 | W_push _ => 9 | W_wait_room _ true => 8 | W_wait_room _ false => 7 | W_signal => 4 | W_done => 3
  | W_pop | W_wait_task true => 2 | W_wait_task false | W_exit => 1 | W_gone => 0
  end.
Definition lane_measure (l : Lane) : nat := 9 * ring_count (tasks l) + 3 * ring_count (completions l) + rank (pc l).
Definition measure (w : Workers) : nat := sum_list_with lane_measure (lanes w).

Lemma ring_pop_count {A} (r : Ring A) a r' : ring_pop r = Some (a, r') -> ring_count r' = ring_count r - 1.
Proof. unfold ring_pop. destruct (slots r !! ring_head r); [|done]. intros E. by injection E as <- <-. Qed.
Lemma work_measure answer l l' fx : stopping l = true -> work answer l = Some (l', fx) -> lane_measure l' < lane_measure l.
Proof.
  assert (forall l l1, stopping l = true -> rank (pc l) = 2 -> pop_task l = Some l1 -> lane_measure l1 < lane_measure l) as Pt.
  { intros l0 l1 St R. unfold pop_task, lane_measure, ring_empty. rewrite St. destruct (Nat.eqb_spec (ring_count (tasks l0)) 0).
    - intros E. apply (inj Some) in E as <-. lane_cbn. cbn [rank]. lia.
    - destruct (ring_pop (tasks l0)) as [[t r]|] eqn:P; [|done]. intros E. apply (inj Some) in E as <-. lane_cbn. cbn [rank]. apply ring_pop_count in P. lia. }
  assert (forall c l0, 8 <= rank (pc l0) -> lane_measure (push_completion c l0) < lane_measure l0) as Pc.
  { intros c l0 R. unfold push_completion, lane_measure. destruct (ring_full (completions l0)); lane_cbn; cbn [rank ring_push ring_count]; lia. }
  intros St. unfold work. destruct (pc l) as [|[]|t|c|c []| | | |] eqn:P; try done.
  - destruct (pop_task l) as [l1|] eqn:E1; [|done]. intros E. apply (inj Some), pair_eq in E as [<- _]. apply Pt; by rewrite ?P.
  - destruct (pop_task l) as [l1|] eqn:E1; [|done]. intros E. apply (inj Some), pair_eq in E as [<- _]. apply Pt; by rewrite ?P.
  - intros E. apply (inj Some), pair_eq in E as [<- _]. unfold lane_measure. rewrite P. lane_cbn. cbn [rank]. lia.
  - intros E. apply (inj Some), pair_eq in E as [<- _]. apply Pc. rewrite P. cbn. lia.
  - intros E. apply (inj Some), pair_eq in E as [<- _]. apply Pc. rewrite P. cbn. lia.
  - intros E. apply (inj Some), pair_eq in E as [<- _]. unfold lane_measure. rewrite P. lane_cbn. cbn [rank]. lia.
  - intros E. apply (inj Some), pair_eq in E as [<- _]. unfold lane_measure. rewrite P. lane_cbn. cbn [rank]. lia.
  - intros E. apply (inj Some), pair_eq in E as [<- _]. unfold lane_measure. rewrite P. lane_cbn. cbn [rank]. lia.
Qed.
Lemma pop_measure l c l' : lane_try_pop l = Some (Some c, l') -> lane_measure l' < lane_measure l /\ stopping l' = stopping l.
Proof.
  unfold lane_try_pop, ring_empty. destruct (Nat.eqb_spec (ring_count (completions l)) 0); [done|].
  destruct (ring_pop (completions l)) as [[c' r]|] eqn:P; [|done]. intros E. apply (inj Some), pair_eq in E as [_ <-]. apply ring_pop_count in P.
  unfold signal_room, lane_measure. lane_cbn. destruct (pc l) as [|[]| | |? []| | | |] eqn:Q; lane_cbn; rewrite ?Q; cbn [rank]; (split; [lia|done]).
Qed.
Lemma progress_measure w w' : stopped w -> progress w w' -> measure w' < measure w /\ stopped w'.
Proof.
  assert (forall i l l', stopped w -> lanes w !! i = Some l -> lane_measure l' < lane_measure l -> stopping l' = true ->
    sum_list_with lane_measure (<[i := l']> (lanes w)) < measure w /\ forall j lj, <[i := l']> (lanes w) !! j = Some lj -> stopping lj = true) as K.
  { intros i l l' St I M S. split; [pose proof (sum_insert lane_measure (lanes w) i l l' I); unfold measure; lia|].
    intros j lj Ij. destruct (decide (j = i)) as [->|N].
    - rewrite list_lookup_insert_eq in Ij by (by eapply lookup_lt_Some). by injection Ij as <-.
    - rewrite list_lookup_insert_ne in Ij by done. by eapply St. }
  intros St P. destruct P as [w i l answer l' fx I An Wk|w lane c w' Po].
  - destruct (work_facts _ _ _ _ Wk) as (_ & _ & _ & S). apply (K i l l' St I); [eapply work_measure; [by eapply St|exact Wk]|]. rewrite S. by eapply St.
  - unfold try_pop in Po. destruct (lanes w !! lane_index lane) as [l|] eqn:I; [|done]. destruct (lane_try_pop l) as [[[c'|] l']|] eqn:E; try done.
    injection Po as -> <-. destruct (pop_measure _ _ _ E) as [M S]. apply (K _ l l' St I M). rewrite S. by eapply St.
Qed.
Lemma progress_ends w : stopped w -> Acc (fun w' w => progress w w') w.
Proof.
  remember (measure w) as n eqn:E. revert w E. induction (lt_wf n) as [n _ IH]. intros w -> St. constructor. intros w' P.
  destruct (progress_measure w w' St P) as [M St']. by apply (IH (measure w')).
Qed.

(** A thread that cannot move. *)
Lemma blocked_lane ts cs l answer : lane_ok ts cs l -> work answer l = None ->
  (pc l = W_wait_task false /\ queued (tasks l) = [] /\ stopping l = false) \/
  ((exists c, pc l = W_wait_room c false) /\ ring_full (completions l) = true) \/
  (pc l = W_gone /\ queued (tasks l) = [] /\ stopping l = true).
Proof.
  intros O W. pose proof O as [[T Ts] Cc Fl A W1 W2 En]. unfold work in W. destruct (pc l) as [|[]|t|c|c []| | | |] eqn:P; try done.
  - destruct (pop_task_ok ts cs l O (or_introl P)) as (l1 & E & _). by rewrite E in W.
  - destruct (pop_task_ok ts cs l O (or_intror P)) as (l1 & E & _). by rewrite E in W.
  - left. destruct (W1 eq_refl) as [E S]. split_and!; try done. by apply queued_nil.
  - right; left. split; [by exists c|by eapply W2].
  - right; right. destruct (En eq_refl) as [E S]. split_and!; try done. by apply queued_nil.
Qed.

(** * Theorems *)

(** C21 However the threads interleave, every task a lane has accepted is executed once, in the order of
    acceptance, and its completion is delivered once, in the same order; no more than
    two full queues and one task are on their way, and a set of lanes that says it is idle has delivered everything. *)
Theorem tasks_answered_in_order tr w lane : reached tr w ->
  exists served rest, accepted lane tr = served ++ rest /\ Forall2 answers served (delivered lane tr) /\
    length rest <= 2 * kControlWorkerQueueCapacity + 1 /\ (idle w = true -> rest = []).
Proof.
  intros R. pose proof (reached_ok _ _ R) as [L Ok _ _]. destruct (lookup_lt_is_Some_2 (lanes w) (lane_index lane)) as [l I]; [rewrite L; apply lane_index_lt|].
  destruct (Ok lane l I) as [[T Ts] [Cc Cs] (ran & F & E) A W1 W2 En]. apply Forall2_app_inv_r in F as (served & left & F1 & F2 & ->).
  exists served, (left ++ running (pc l) ++ queued (tasks l)). rewrite E. split; [by rewrite <- !app_assoc|]. split; [exact F1|]. apply Forall2_length in F2.
  rewrite length_app, ring_queued_length in F2 by done. split.
  - rewrite !length_app, ring_queued_length by done. destruct T as [_ Tf], Cc as [_ Cf].
    assert (length (pending (pc l)) + length (running (pc l)) <= 1) by (destruct (pc l); cbn; lia). lia.
  - unfold idle. intros Id. apply (proj1 (forallb_forall _ _)) with (x := l) in Id; [|apply list_elem_of_In; by eapply list_elem_of_lookup_2].
    unfold lane_idle in Id. rewrite !andb_true_iff in Id. destruct Id as [[It Ic] Ia]. apply Nat.eqb_eq in Ia. rewrite A in Ia.
    apply (queued_nil _ T) in It. apply Nat.eqb_eq in Ic. rewrite Ic in F2. rewrite It.
    assert (left = []) as -> by (apply length_zero_iff_nil; rewrite F2; by destruct (pc l)). by destruct (pc l).
Qed.

(** C23 No thread is stuck: it waits for a task only while its queue is empty and it is not asked to stop, and for room only while the
    completions fill their queue; and the poll thread does not sleep on a completion: one that
    it has not seen keeps its pipe readable, or a thread is about to write to it. *)
Theorem lanes_never_stuck tr w i l : reached tr w -> lanes w !! i = Some l ->
  (forall answer, work answer l = None ->
    (queued (tasks l) = [] /\ stopping l = false) \/ length (queued (completions l)) = kControlWorkerQueueCapacity \/ (pc l = W_gone /\ stopping l = true)) /\
  (unseen w = [] -> queued (completions l) <> [] -> readable w = true \/ exists j lj, lanes w !! j = Some lj /\ forall answer, exists l', work answer lj = Some (l', Fx_wake)).
Proof.
  intros R I. pose proof (reached_ok _ _ R) as [L Ok _ Se]. destruct (lane_of_index i) as [lane El]; [rewrite <- L; by eapply lookup_lt_Some|].
  rewrite <- El in I. pose proof (Ok lane l I) as O. split.
  - intros answer B. destruct (blocked_lane _ _ l answer O B) as [(_ & Q & S)|[(_ & F)|(P & _ & S)]]; [by left| |by right; right].
    right; left. destruct O as [_ [Cc Cs] _ _ _ _ _]. rewrite ring_queued_length by done. unfold ring_full in F. apply Nat.eqb_eq in F. congruence.
  - intros U Q. destruct (Se _ l I Q) as [N|[N|(j & lj & Ij & N)]]; [by left|rewrite U in N; by inversion N|]. right. exists j, lj. split; [exact Ij|].
    intros answer. unfold signalling in N. unfold work. destruct (pc lj); try done. by eexists.
Qed.

(** C39 Stopping ends: once every lane is asked to stop, threads and pops come to an end in any order, and where
    nothing can move any more all threads are gone and every accepted task has been answered. *)
Theorem stop_and_join_ends tr w : reached tr w -> stopped w ->
  Acc (fun w' w => progress w w') w /\
  (forall answer, (forall t, answers t (answer t)) -> (forall w', ~ progress w w') ->
    live_thread_count w = 0 /\ forall lane, Forall2 answers (accepted lane tr) (delivered lane tr)).
Proof.
  intros R St. split; [by apply progress_ends|]. intros answer An N. pose proof (reached_ok _ _ R) as [L Ok Lv _].
  assert (forall lane l, lanes w !! lane_index lane = Some l -> pc l = W_gone /\ queued (tasks l) = [] /\ queued (completions l) = []) as G.
  { intros lane l I. pose proof (Ok lane l I) as O.
    assert (queued (completions l) = []) as Q.
    { destruct (lane_pop_ok _ _ l O) as ([c|] & l' & E & _ & F); [|apply F]. exfalso. eapply N, (progress_pop w lane c). unfold try_pop. by rewrite I, E. }
    destruct (work answer l) as [[l' fx]|] eqn:Wk; [exfalso; eapply N; by eapply progress_work|].
    destruct (blocked_lane _ _ l answer O Wk) as [(_ & _ & S)|[(_ & F)|(P & T & _)]]; [by rewrite (St _ l I) in S| |done].
    destruct O as [_ [Cc Cs] _ _ _ _ _]. apply (f_equal length) in Q. rewrite ring_queued_length in Q by done. unfold ring_full in F. apply Nat.eqb_eq in F. rewrite Cs in F.
    unfold kControlWorkerQueueCapacity in F. cbn in Q. lia. }
  split.
  - unfold live_thread_count. rewrite Lv. assert (forall l, l ∈ lanes w -> alive l = 0) as Z.
    { intros l I. apply list_elem_of_lookup in I as [i I]. destruct (lane_of_index i) as [lane <-]; [rewrite <- L; by eapply lookup_lt_Some|].
      destruct (G lane l I) as [P _]. unfold alive, gone. by rewrite P. }
    clear -Z. induction (lanes w) as [|l ls IH]; [done|]. cbn [sum_list_with]. rewrite (Z l), IH; [done|intros; apply Z; by right|by left].
  - intros lane. destruct (lookup_lt_is_Some_2 (lanes w) (lane_index lane)) as [l I]; [rewrite L; apply lane_index_lt|].
    destruct (G lane l I) as (P & T & Q). destruct (Ok lane l I) as [_ _ (ran & F & E) _ _ _ _]. rewrite P, T in E. rewrite P, Q in F. cbn in E, F.
    rewrite !app_nil_r in *. by subst.
Qed.
End Interleaving.

(** * Threads to run *)

Inductive Move :=
  | M_work (i : nat)
  | M_submit (lane : ControlWorkerLane) (t : ControlWorkerTask)
  | M_pop (lane : ControlWorkerLane)
  | M_drain
  | M_stop (i : nat).

Section Moves.
Context (answer : ControlWorkerTask -> ControlWorkerCompletion).

Definition move (m : Move) (w : Workers) : option (list Event * Workers) :=
  match m with
  | M_work i => match lanes w !! i with
      | None => None
      | Some l => match work answer l with None => None | Some (l', fx) => Some ([], worked w i l' fx) end
      end
  | M_submit lane t => let '(r, w') := submit lane t w in Some (if is_success r then [Accepted lane t] else [], w')
  | M_pop lane => match try_pop lane w with
      | None => None
      | Some (o, w') => Some (match o with Some c => [Delivered lane c] | None => [] end, w')
      end
  | M_drain => Some ([], drain_wake w)
  | M_stop i => Some ([], stop_lane i w)
  end.
Fixpoint moves (ms : list Move) (tr : list Event) (w : Workers) : option (list Event * Workers) :=
  match ms with
  | [] => Some (tr, w)
  | m :: ms => match move m w with None => None | Some (ev, w') => moves ms (tr ++ ev) w' end
  end.

Context (answers : ControlWorkerTask -> ControlWorkerCompletion -> Prop) (sound : forall t, answers t (answer t)).
Lemma lane_move_step m w ev w' : move m w = Some (ev, w') -> step answers w ev w'.
Proof.
  destruct m as [i|lane t|lane| |i]; cbn [move].
  - destruct (lanes w !! i) as [l|] eqn:I; [|done]. destruct (work answer l) as [[l' fx]|] eqn:W; [|done]. intros E. apply (inj Some), pair_eq in E as [<- <-]. by eapply step_work.
  - destruct (submit lane t w) as [r w1] eqn:S. intros E. apply (inj Some), pair_eq in E as [<- <-]. by apply step_submit.
  - destruct (try_pop lane w) as [[o w1]|] eqn:P; [|done]. intros E. apply (inj Some), pair_eq in E as [<- <-]. by apply step_pop.
  - intros E. apply (inj Some), pair_eq in E as [<- <-]. apply step_drain.
  - intros E. apply (inj Some), pair_eq in E as [<- <-]. apply step_stop.
Qed.
Lemma moves_reached ms : forall tr w tr' w', reached answers tr w -> moves ms tr w = Some (tr', w') -> reached answers tr' w'.
Proof.
  induction ms as [|m ms IH]; intros tr w tr' w' R; cbn [moves]; [intros E; apply (inj Some), pair_eq in E as [<- <-]; exact R|].
  destruct (move m w) as [[ev w1]|] eqn:M; [|done]. apply IH. eapply reached_step; [exact R|eapply lane_move_step; exact M].
Qed.
End Moves.

(** Services that refuse everything. *)
#[export] Instance refusing_services : Services unit := { service_call A c s := (failure NOT_READY, s) }.
Definition refusal (t : ControlWorkerTask) : ControlWorkerCompletion := (execute t tt).1.
Lemma refusal_answers t : answered_by (S := unit) t (refusal t).
Proof. exists tt, tt. unfold refusal. by destruct (execute t tt) as [? []]. Qed.

Definition asked : ControlWorkerTask := new_task client_request card_status.
Definition serving : list Move := [M_submit card_lane asked; M_work 2; M_work 2; M_work 2; M_work 2; M_drain; M_pop card_lane; M_work 2].
Definition served_and_stopped : list Move := serving ++ [M_stop 0; M_stop 1; M_stop 2; M_work 0; M_work 0; M_work 1; M_work 1; M_work 2; M_work 2].

(** The state that a script leads to. *)
Definition after (ms : list Move) : Workers := match moves refusal ms [] new_workers with Some (_, w) => w | None => new_workers end.
Definition history (ms : list Move) : list Event := match moves refusal ms [] new_workers with Some (tr, _) => tr | None => [] end.
Lemma after_reached ms : bool_decide (is_Some (moves refusal ms [] new_workers)) = true -> reached (answered_by (S := unit)) (history ms) (after ms).
Proof.
  intros [[tr w] E]%bool_decide_eq_true. unfold after, history. rewrite E. eapply moves_reached; [exact refusal_answers|apply reached_new|exact E].
Qed.

Lemma tasks_answered_in_order_witness : exists served, accepted card_lane (history serving) = served ++ [] /\
  Forall2 (answered_by (S := unit)) served (delivered card_lane (history serving)) /\ served = [asked].
Proof.
  destruct (tasks_answered_in_order (answered_by (S := unit)) (history serving) (after serving) card_lane) as (served & rest & E & F & _ & Id).
  - apply after_reached. by vm_compute.
  - exists served. rewrite (Id ltac:(by vm_compute)) in E. split; [exact E|]. split; [exact F|]. rewrite app_nil_r in E. by rewrite <- E.
Defined.
Definition unread : list Move := [M_submit card_lane asked; M_work 2; M_work 2; M_work 2; M_work 2].
Lemma lanes_never_stuck_witness : exists l, lanes (after unread) !! 2 = Some l /\ queued (completions l) <> [] /\ readable (after unread) = true.
Proof.
  destruct (lanes (after unread) !! 2) as [l|] eqn:I; [|by vm_compute in I]. exists l. split; [done|].
  assert (queued (completions l) <> []) as Q by (vm_compute in I; injection I as <-; by vm_compute). split; [exact Q|].
  destruct (lanes_never_stuck (answered_by (S := unit)) (history unread) (after unread) 2 l) as [_ N]; [apply after_reached; by vm_compute|exact I|].
  destruct (N ltac:(by vm_compute) Q) as [R|(j & lj & Ij & W)]; [exact R|by vm_compute].
Defined.
Lemma stop_and_join_ends_witness : live_thread_count (after served_and_stopped) = 0 /\ delivered card_lane (history served_and_stopped) = [refusal asked].
Proof.
  destruct (stop_and_join_ends (answered_by (S := unit)) (history served_and_stopped) (after served_and_stopped)) as [_ E].
  - apply after_reached. by vm_compute.
  - intros i l I. destruct i as [|[|[|]]]; vm_compute in I; try done; by injection I as <-.
  - destruct (E refusal refusal_answers) as [L _]; [|split; [exact L|by vm_compute]]. intros w' P. inversion P as [w i l an l' fx I _ W|w lane c w1 Po]; subst.
    + destruct i as [|[|[|]]]; vm_compute in I; try done; injection I as <-; done.
    + destruct lane; vm_compute in Po; done.
Defined.
